(* ===== verification/_CoqProject ===== *)
-Q . S2P
Prelude.v
Memory.v
Strings.v
Resume.v
Spinlock.v
PhysMap.v
Pmm.v
Container.v
PageTable.v
Isolation.v
UserCopy.v
Tcb.v
TQueue.v
Thread.v
Signal.v
Ipc.v
Bufcache.v
Log.v
Block.v
Inode.v
Contents.v
Dir.v
Mkfs.v
File.v
Console.v
Printf.v
CallNumbers.v
TrapNumbers.v
Proc.v
Syscall.v
Trap.v
Holds.v
Confine.v
ConfineThr.v
ConfineFs.v
ConfineKern.v
System.v
UserLib.v
FileTree.v
Shell.v
ShellProps.v
UserKernel.v
Programs.v
Machine.v
ConsolePorts.v
Intc.v
IntcProps.v
Cpus.v
CpusProps.v
Asm.v
TrapAsm.v
StartAsm.v
Ide.v
Start.v
Boot.v
BootProps.v
