(* ===== verification/Prelude.v ===== *)
(** * mCertiKOS with signals: a verification development

    The program is a teaching operating system for 32-bit x86 (sources under src): a
    boot loader, a kernel built as a stack of layers from the allocator of physical
    pages to system calls, with POSIX-style signals added, a shell and other user
    programs with their library, and the tool that makes the disk image.  This library
    translates them into Rocq functions on an explicit machine state and proves what the
    parts promise to each other and to processes.

    ** The program and its parts

    The boot loader (boot/boot1) loads the kernel from the disk.  The kernel starts its
    devices ([devinit], kern/dev) and its layers, and creates the first processes
    (kern/init).  After that it is entered at [trap] (kern/trap/TTrapHandler), which
    calls the handler of the trap: the page fault handler, the interrupt handler, or
    the dispatcher of system calls (kern/trap/TDispatch, TSyscall, kern/fs/sysfile.c).
    These use the file system (kern/fs), the console (kern/dev), messages
    (kern/lib/ipc.c), the scheduler (kern/thread), page tables (kern/vmm), containers
    and the page allocator (kern/pmm).  On the way back to user mode the pending
    signals of the process are served.  User programs (user) reach the kernel through
    the stubs of user/include/syscall.h.

    The state of a layer of the kernel is a record that contains the state of the layer
    below: [pmm] in [cont] in [vm] in [thr] in [ipc] in [bio] in [lgs] in [ino] in
    [fsys] in [kern].  A lens lifts an operation of a lower layer to a higher one.  The
    variables of the interrupt and processor drivers are the record [dev], over a type
    [D] of hardware.

    ** How code is translated

    - An operation is a function of type [M S A := S → result (A * S)]; what ends
      the kernel or is undefined in C is an outcome of its own, a [fault]: a panic,
      an index out of bounds, a null pointer, a division by zero, a lock that is
      taken twice, a wait for an event no one can cause, a return from an interrupt
      in the kernel to another place than where it came from.  Theorems that say a
      call returns therefore also say that none of these happens.
    - Integers are [Z]; [u32], [s32], [u16], [u8], [u64] and the like are the
      conversions of C and stand wherever the C code computes at that width.
    - A C array is a [gmap] from indices with zero as the default ([aget]), as
      static storage has it; every access is checked ([chk]).
    - Memory is a map from addresses to bytes; page tables live in it, and [mmu]
      is the walk of the processor.
    - Code that can switch threads is a resumption (file Resume): the tree of its
      runs between switches.  Statements about it hold for whatever the other
      threads do in between, within the invariant they all keep.
    - Interrupts are off in the kernel but for the calls [produce] and [consume], which
      enable them: there a list of interrupts, a parameter, is taken as traps of the
      kernel ([kernel_interrupt] of file Trap).
    - Assembly is a list of instructions, executed by a processor with registers,
      segments, flags and memory (file Asm).
    - Hardware is an interface (class [Hw] of file Machine): ports, mapped registers,
      the cycle counter, [cpuid].  Drivers are written against the interface; their
      theorems are proved on state machines of the devices.
    - User programs are written against the system calls as an interface.  For the
      lemmas on what programs do with files the class [FileCalls] of file FileTree says
      what is assumed of the calls, on a tree of directories.
    - Loops of C with a bound are structural recursions; other loops carry fuel,
      and the theorems prove that the fuel given at the call is enough: [palloc]
      scans with the number of pages as fuel, the copies between kernel and user
      memory with the number of pages they touch, the scans of the buffer list
      with [NBUF], reads and writes of files with the number of blocks, scans of
      directories with the number of entries, [readline] with the number of
      characters waiting, the walks of firmware tables with their length, the
      removal of a tree with its depth.  Busy loops on a device have a bound
      [polls]; the theorems hold for every device that answers within the bound.

    ** Files

    - Prelude: outcomes, the monad, weakest preconditions ([wp] for calls that
      return, [wpe] for calls that may also fault), lenses, arrays, lemmas on
      integers and lists, tactics.
    - Memory, Strings: byte memory and kern/lib/string.c; [skipelem] of
      kern/fs/path.c.
    - Resume: code that switches threads.  Spinlock: kern/lib/spinlock.c.
    - PhysMap: kern/dev/mboot.c.  Pmm: kern/pmm/MATIntro, MATInit, MATOp.
      Container: kern/pmm/MContainer.
    - PageTable: kern/vmm.  Isolation: the proofs about it.  UserCopy:
      kern/lib/pmap.c.
    - Tcb, TQueue, Thread: kern/thread.
    - Signal: the signal parts of kern/trap/TSyscall and TTrapHandler.
    - Ipc: kern/lib/ipc.c and the system calls that use it.
    - Bufcache: kern/dev/disk/ide.c and kern/fs/bufcache.c.  Log: kern/fs/log.c.
      Block: kern/fs/block.c.  Inode: kern/fs/inode.c; Contents: the proofs about
      reading and writing files.  Dir: kern/fs/dir.c, kern/fs/path.c.  Mkfs:
      kern/fs/mkfs.c, the tool that makes the disk.  File: kern/fs/file.c,
      kern/fs/sysfile.c.
    - Console: kern/dev/keyboard.c, serial.c, video.c, console.c.  Printf:
      kern/lib/printfmt.c, kern/lib/dprintf.c.
    - CallNumbers, TrapNumbers: the numbers of system calls and traps.
    - Proc: kern/lib/seg.c, kern/lib/elf.c, kern/proc.  Syscall: the other system
      calls and the dispatcher.  Trap: traps and kern/init/init.c.
    - Holds: a logic of invariants for operations and for code that switches threads.
      Confine, ConfineThr, ConfineFs, ConfineKern: every operation of the kernel keeps
      the invariant of isolation, from page tables to system calls and traps.  System:
      the kernel, its threads and user programs as one transition system.
    - UserLib: user/lib and user/include.  FileTree: the interface of the file calls
      and a tree that implements it.  Shell: user/shell/shell.c; ShellProps: the proofs
      about it.  UserKernel: user calls through the trap into the kernel.  Programs:
      the other programs under user.
    - Machine: the hardware interface and the devices.  ConsolePorts: the port accesses
      of the console drivers.  Intc: kern/dev/pic.c, timer.c, tsc.c, lapic.c, ioapic.c;
      IntcProps: the proofs about it.  Cpus: kern/dev/acpi.c, pcpu_mp.c, intr.c,
      kern/pcpu; CpusProps: the proofs about it.  Ide: the port accesses of
      kern/dev/disk/ide.c.  Start: kern/dev/devinit.c and what it puts together.
    - Asm: the processor that executes assembly.  TrapAsm: kern/dev/idt.S and
      kern/thread/PKCtxIntro/cswitch.S.  StartAsm: kern/init/entry.S, kern/init/boot_ap.S,
      boot/boot1/exec_kernel.S, user/lib/entry.S.
    - Boot: boot/boot1/boot1main.c, boot1lib.c; BootProps: the proofs about it.

    ** What the theorems show

    - The whole kernel ([System.system_isolated], [trap_returns], [trap_terminates]):
      from start-up on, through every sequence of user stores and register changes,
      traps, thread switches and device input, the process that runs is in user mode,
      in its own page structure, and reaches no memory of the kernel or of another
      process.  A trap from any such state takes words to words and returns to the
      process that trapped with its segments and flags.  Unless it waits, uses the file
      system or is the interrupt of the disk, it meets no lock that is held, gives back
      the locks it took, and its loops end within their bounds.  The system calls that
      are excepted are under Assumptions.
    - Boot: the boot loader puts every segment of the kernel image at its address, and
      calls [kern_init] on the kernel's stack with the boot information.
      The registered processors and I/O APICs are those the firmware lists.  A lemma
      ([Start.devinit_connects]) says how [devinit] leaves the interrupts, on a machine
      where nothing happens meanwhile.
    - Devices: the port accesses of the console drivers, from [cons_init] on, refine the
      queues of the console model; those of the disk driver refine the disk of the
      model, defective sectors apart, on a controller that asks for data without delay.
      A process can raise only three vectors.
    - Memory: [pmem_init] makes exactly the whole pages of RAM in the user range
      allocatable, and [palloc] is next-fit over them.  Quotas are never
      overcommitted.
    - Address spaces: after [paging_init] the kernel is identity mapped and no user
      page is; no sequence of allocations, quota splits, switches and user stores
      lets two mappings share a page or reach a page table.  Copies between kernel
      and user memory do what they say, mapping the pages that are missing as long as
      the process has some left, and round trip.
    - Threads: the linked queues refine lists; yielding is round robin without
      starvation; a wakeup readies the sleepers of its channel and nobody else; a
      spawned thread has an id, a container, a context and a place in the queue of its
      own; a thread that [cswitch] comes back to goes on with its registers and
      stack as after a call that returned.
    - Signals, of a process that blocks none, since the kernel never looks at the mask
      ([Signal.blocked_signal_delivered]): the lowest pending signal is served by its handler on a frame whose
      return restores the interrupted code, or the process ends; kill on every
      branch, also from the user library through the trap.
    - Messages: the receiver gets the bytes of the sender, who waits until then.
    - Files: the buffer cache refines a store of blocks; transactions are atomic
      under a crash at any write of the disk; inside a transaction blocks are
      allocated and freed as the bitmap says, [inode_write] changes the bytes of
      the file it is given and no others, [inode_read] returns them, and
      directories are maps from names to inodes.  The image [mkfs] makes satisfies
      what these theorems assume.
    - Console: the screen is a window on the text printed, [readline] is a line
      editor, numbers printed read back.
    - Traps: the entries of idt.S build the frame that [trap] gets, and [trap_return]
      continues the program with the registers of the frame, for every vector with a
      gate of its own.  A page fault ends in SIGSEGV being served, in a fresh page mapped
      at the address, or in a panic when there is none, through the whole path from
      [trap] to the return to user mode.
    - User programs: the shell runs the command of the first word on the words of the
      line; numbers printed by the library stay in their buffer and read back.  Relative
      to [FileCalls], [rm -r] of a name in the working directory removes its tree and
      nothing else, and the test program for files passes.

    ** Assumptions

    What the sources leave to the linker and the machine are parameters with
    stated properties: the places of the static arrays ([Layout] and the classes
    like it in other files), the contents of uninitialised locals, the memory the
    boot loader leaves, the entries of the assembly code.  The static variables are
    zero at the start.  The kernel runs on one processor, as kern_main starts no other.

    The disk writes a sector atomically.  Above the ports it reports no errors, and it
    answers while the process waits: [ide_rw] runs the interrupt handler itself, without
    a switch to another thread, and the wait of [ide_intr] for the controller is over.
    At the ports (file Ide) both the wait and the errors are there; the ATA controller
    has to ask for the data of a write at once, since [ide_start] does not wait for its
    request ([write_before_request_lost]).  The file system is modelled for one process
    at a time; a call that would have to wait for another process is the outcome
    [Blocked].

    The theorems on the whole kernel are for all exceptions and interrupts and for the
    system calls but [ls], [pwd], [rm] with a negative length, which write outside their
    buffers, and [produce] and [consume], in which an interrupt can deliver a signal into
    the kernel's own frame ([Trap.kernel_enters_handler]).  Isolation
    assumes a kernel linked above 1 MB whose static arrays are apart, program images
    with their segments in the user range, a start in which [tcb_init] reaches every
    process (the argument it reads is not its own), and page faults reported with the
    error code of the walk.  The theorems about files hold for a disk whose maps are
    consistent ([fs_map], [file_ok]).  The theorems about user programs that use files
    hold for file calls as [FileCalls] promises them, which is not proved of the kernel.

    ** Not modelled

    - The boot sector and the real-mode part of the boot loader (boot0.S, boot1.S);
      inline assembly is modelled by its effect.  Of [devinit] the control registers
      for SSE, of [seg_init] the loads of segment registers.
    - [devinit_ap] and [kern_main_ap], which run on processors that are never started.
    - Messages printed for diagnosis (KERN_INFO and the like), where they are not
      the subject, and the stack trace of a panic.
    - Code nothing calls: the kernel monitor, the second drivers of the interrupt
      controllers kern/dev/disk/ioapic.c and kern/dev/disk/picirq.c, which are linked
      into the kernel; kern/mm, kern/vm and kern/proc/proc.c, which no build uses.
    - The tests of the modules, the copies under samples, and scripts. *)

From stdpp Require Export prelude gmap strings list.
From stdpp Require Export fin_maps.

#[export] Set Default Goal Selector "!".
#[export] Set Warnings "-clear-no-such-hyp".

Open Scope Z_scope.

(** Comparisons compute on literals and stay folded otherwise. *)
#[global] Arguments Z.eqb !_ !_.
#[global] Arguments Z.ltb !_ !_.
#[global] Arguments Z.leb !_ !_.
#[global] Arguments Z.max : simpl never.
#[global] Arguments Z.min : simpl never.
#[global] Arguments Z.modulo : simpl never.
#[global] Arguments Z.div : simpl never.
#[global] Arguments Z.to_nat : simpl never.

(** ** C integers

    Machine integers are [Z]; each type of the source has its own
    normalisation, applied where the C expression would wrap. *)

Definition two32 : Z := 4294967296.

(** [uint32_t], [unsigned int], [size_t], [uintptr_t] of kern/lib/types.h. *)
Definition u32 (x : Z) : Z := x mod two32.

(** [int], [int32_t]: two's complement, as gcc compiles the kernel. *)
Definition s32 (x : Z) : Z := (x + 2147483648) mod two32 - 2147483648.

(** [uint8_t] and [uint16_t]. *)
Definition u8 (x : Z) : Z := x mod 256.
Definition u16 (x : Z) : Z := x mod 65536.

(** [uint64_t] and [long long]. *)
Definition two64 : Z := 18446744073709551616.
Definition u64 (x : Z) : Z := x mod two64.
Definition s64 (x : Z) : Z := (x + 9223372036854775808) mod two64 - 9223372036854775808.

Definition is_u32 (x : Z) : Prop := 0 ≤ x < two32.

Lemma u32_small x : is_u32 x → u32 x = x.
Proof. intros. by apply Z.mod_small. Qed.

Lemma u32_range x : is_u32 (u32 x).
Proof. apply Z.mod_pos_bound. reflexivity. Qed.

Lemma s32_small x : -2147483648 ≤ x < 2147483648 → s32 x = x.
Proof. intros. unfold s32, two32. rewrite Z.mod_small; lia. Qed.

Lemma s32_range x : -2147483648 ≤ s32 x < 2147483648.
Proof.
  unfold s32, two32.
  pose proof (Z.mod_pos_bound (x + 2147483648) 4294967296 ltac:(lia)). lia.
Qed.

Lemma u8_range x : 0 ≤ u8 x < 256.
Proof. apply Z.mod_pos_bound. lia. Qed.

Lemma u32_s32 x : is_u32 x → u32 (s32 x) = x.
Proof.
  unfold is_u32, u32, s32, two32. intros H.
  destruct (decide (x < 2147483648)).
  - rewrite (Z.mod_small (x + _)) by lia. rewrite Z.mod_small; lia.
  - assert ((x + 2147483648) mod 4294967296 = x - 2147483648) as ->.
    { symmetry. apply (Z.mod_unique_pos _ _ 1); lia. }
    symmetry. apply (Z.mod_unique_pos _ _ (-1)); lia.
Qed.

(** C's truth values. *)
Definition cbool (b : bool) : Z := if b then 1 else 0.

(** ** Zero-initialised static storage

    The kernel's tables are static C arrays, zero at boot.  A table is a
    finite map from the index; an index never written reads as the zero of
    the element type. *)

Class Zeroed (A : Type) := zero : A.
#[export] Hint Mode Zeroed ! : typeclass_instances.

#[export] Instance zeroed_Z : Zeroed Z := 0.
#[export] Instance zeroed_gmap `{Countable K} {A} : Zeroed (gmap K A) := (∅ : gmap K A).

Definition aget `{Countable K} {A} `{Zeroed A} (m : gmap K A) (i : K) : A :=
  default zero (m !! i).

Section Aget.
Context `{Countable K} {A : Type} `{!Zeroed A}.
Implicit Types (m : gmap K A) (i j : K) (v : A).

Lemma aget_eq m i v : aget (<[i:=v]> m) i = v.
Proof. unfold aget. by rewrite lookup_insert_eq. Qed.

Lemma aget_ne m i j v : i ≠ j → aget (<[i:=v]> m) j = aget m j.
Proof. intros. unfold aget. by rewrite lookup_insert_ne. Qed.

Lemma aget_insert m i j v :
  aget (<[i:=v]> m) j = if decide (i = j) then v else aget m j.
Proof. case_decide; subst; [apply aget_eq | by apply aget_ne]. Qed.

Lemma aget_empty i : aget (∅ : gmap K A) i = zero.
Proof. unfold aget. by rewrite lookup_empty. Qed.
End Aget.

(** ** Outcomes

    Code that returns gives [Ok]; code that does not is an [Err] saying why:
    [KERN_PANIC] and [KERN_ASSERT] halt the machine, an index outside a static
    array and a dereferenced null pointer are undefined behaviour, a
    [spinlock_acquire] of a lock that is already held spins for ever (one
    processor, interrupts off in the kernel), [Blocked] is a call that sleeps
    until another process acts, a division by zero traps inside
    the kernel, [Hijacked] is the processor leaving the code of the kernel for an
    address a process chose, without leaving kernel mode, and [OutOfFuel] is a
    loop that exceeded the bound its model was given. *)

Inductive fault :=
| Panic (msg : string)
| OutOfBounds (array : string) (i : Z)
| NullDeref (what : string)
| Deadlock (lk : string)
| Blocked (what : string)
| DivByZero
| Hijacked (at_addr : Z)
| OutOfFuel.

#[export] Instance fault_eq_dec : EqDecision fault.
Proof. solve_decision. Defined.

Inductive result (A : Type) :=
| Ok (a : A)
| Err (e : fault).
Arguments Ok {A} a.
Arguments Err {A} e.

(** ** The kernel monad: explicit state and failure *)

Definition M (S A : Type) : Type := S → result (A * S).

#[export] Instance M_ret {S} : MRet (M S) := λ A a s, Ok (a, s).
#[export] Instance M_bind {S} : MBind (M S) := λ A B f m s,
  match m s with
  | Ok (a, s') => f a s'
  | Err e => Err e
  end.

Section Prims.
Context {S : Type}.

Definition gets {A} (f : S → A) : M S A := λ s, Ok (f s, s).
Definition modify (f : S → S) : M S unit := λ s, Ok (tt, f s).
Definition fail {A} (e : fault) : M S A := λ s, Err e.

(** The bounds of a static array [arr[n]] indexed by [i]. *)
Definition chk (arr : string) (n i : Z) : M S unit :=
  if (0 <=? i) && (i <? n) then mret tt else fail (OutOfBounds arr i).

(** [KERN_ASSERT(c)]. *)
Definition kassert (c : bool) (msg : string) : M S unit :=
  if c then mret tt else fail (Panic msg).

(** [for (i = lo; i < hi; i++) body] with [i] a fresh counter. *)
Fixpoint for_n (n : nat) (i : Z) (body : Z → M S unit) : M S unit :=
  match n with
  | O => mret tt
  | Datatypes.S n => _ ← body i; for_n n (i + 1) body
  end.

Definition for_range (lo hi : Z) (body : Z → M S unit) : M S unit :=
  for_n (Z.to_nat (hi - lo)) lo body.
End Prims.

(** ** Weakest preconditions

    [wp m Q s]: run from [s], [m] returns (no panic, no undefined behaviour,
    no deadlock) and its value and final state satisfy [Q]. *)

Definition wp {S A} (m : M S A) (Q : A → S → Prop) (s : S) : Prop :=
  match m s with
  | Ok (a, s') => Q a s'
  | Err _ => False
  end.

Section Wp.
Context {S : Type}.
Implicit Types s : S.

Lemma wp_ret {A} (a : A) Q s : Q a s → wp (mret a) Q s.
Proof. done. Qed.

Lemma wp_bind {A B} (m : M S A) (f : A → M S B) Q s :
  wp m (λ a s', wp (f a) Q s') s → wp (m ≫= f) Q s.
Proof.
  unfold wp, mbind, M_bind. destruct (m s) as [[a s']|e]; [|done].
  by destruct (f a s') as [[b s'']|e].
Qed.

Lemma wp_bind_inv {A B} (m : M S A) (f : A → M S B) Q s :
  wp (m ≫= f) Q s → wp m (λ a s', wp (f a) Q s') s.
Proof.
  unfold wp, mbind, M_bind. destruct (m s) as [[a s']|e]; done.
Qed.

Lemma wp_gets {A} (f : S → A) Q s : Q (f s) s → wp (gets f) Q s.
Proof. done. Qed.

Lemma wp_modify f Q s : Q tt (f s) → wp (modify f) Q s.
Proof. done. Qed.

Lemma wp_chk arr n i Q s : 0 ≤ i < n → Q tt s → wp (chk arr n i) Q s.
Proof.
  intros [H1 H2] HQ. unfold chk.
  apply Z.leb_le in H1. apply Z.ltb_lt in H2. by rewrite H1, H2.
Qed.

Lemma wp_kassert c msg Q s : c = true → Q tt s → wp (kassert c msg) Q s.
Proof. intros -> HQ. done. Qed.

Lemma wp_mono {A} (m : M S A) (P Q : A → S → Prop) s :
  wp m P s → (∀ a s', P a s' → Q a s') → wp m Q s.
Proof. unfold wp. destruct (m s) as [[a s']|e]; auto. Qed.

Lemma wp_conj {A} (m : M S A) (P Q : A → S → Prop) s :
  wp m P s → wp m Q s → wp m (λ a s', P a s' ∧ Q a s') s.
Proof. unfold wp. destruct (m s) as [[a s']|e]; auto. Qed.

(** From [wp] to the run of the definition and back. *)
Lemma wp_run {A} (m : M S A) Q s :
  wp m Q s → ∃ a s', m s = Ok (a, s') ∧ Q a s'.
Proof. unfold wp. destruct (m s) as [[a s']|e]; naive_solver. Qed.

Lemma wp_run_val {A} (m : M S A) v (P : S → Prop) s :
  wp m (λ a s', a = v ∧ P s') s → ∃ s', m s = Ok (v, s') ∧ P s'.
Proof. intros (a & s' & E & -> & HP)%wp_run. eauto. Qed.

Lemma run_wp {A} (m : M S A) Q s a s' : m s = Ok (a, s') → Q a s' → wp m Q s.
Proof. unfold wp. by intros ->. Qed.

Lemma wp_inv {A} (m : M S A) Q s a s' : wp m Q s → m s = Ok (a, s') → Q a s'.
Proof. unfold wp. by intros H1 H2; rewrite H2 in H1. Qed.

(** The state a run ends in. *)
Definition final {A} (m : M S A) (s : S) : S :=
  match m s with Ok (_, s') => s' | Err _ => s end.

Lemma wp_final {A} (m : M S A) (P : S → Prop) s : wp m (λ _ s', P s') s → P (final m s).
Proof. unfold wp, final. by destruct (m s) as [[a s']|e]. Qed.

Lemma bind_run {A B} (m : M S A) (f : A → M S B) s s' a :
  m s = Ok (a, s') → (m ≫= f) s = f a s'.
Proof. intros E. unfold mbind, M_bind. by rewrite E. Qed.

(** Inversion of a run that returned. *)
Lemma bind_Ok {A B} (m : M S A) (f : A → M S B) s r :
  (m ≫= f) s = Ok r → ∃ a s', m s = Ok (a, s') ∧ f a s' = Ok r.
Proof. unfold mbind, M_bind. destruct (m s) as [[a s']|e]; naive_solver. Qed.

Lemma kassert_Ok c msg s r : kassert (S:=S) c msg s = Ok r → c = true ∧ r = (tt, s).
Proof. unfold kassert. destruct c; by intros [= <-]. Qed.

Lemma chk_Ok arr n i s r : chk (S:=S) arr n i s = Ok r → 0 ≤ i < n ∧ r = (tt, s).
Proof.
  unfold chk. destruct (Z.leb_spec 0 i), (Z.ltb_spec i n); intros [= <-]; done.
Qed.

(** Loop rule: an invariant of the counter and the state. *)
Lemma wp_for_n (I : Z → S → Prop) body n i Q s :
  I i s →
  (∀ j s, i ≤ j < i + Z.of_nat n → I j s → wp (body j) (λ _ s', I (j + 1) s') s) →
  (∀ s, I (i + Z.of_nat n) s → Q tt s) →
  wp (for_n n i body) Q s.
Proof.
  revert i s. induction n as [|n IH]; intros i s HI Hb HQ; cbn [for_n].
  { apply wp_ret, HQ. by rewrite Z.add_0_r. }
  apply wp_bind. eapply wp_mono; [apply Hb; [lia|done]|].
  intros [] s' HI'. apply IH; [done| |].
  - intros j s1 Hj. apply Hb. lia.
  - intros s1 Hs1. apply HQ.
    by replace (i + Z.of_nat (Datatypes.S n)) with (i + 1 + Z.of_nat n) by lia.
Qed.

Lemma wp_for_range (I : Z → S → Prop) body lo hi Q s :
  lo ≤ hi → I lo s →
  (∀ j s, lo ≤ j < hi → I j s → wp (body j) (λ _ s', I (j + 1) s') s) →
  (∀ s, I hi s → Q tt s) →
  wp (for_range lo hi body) Q s.
Proof.
  intros Hle HI Hb HQ. unfold for_range. apply (wp_for_n I); [done| |].
  - intros j s1 Hj. apply Hb. lia.
  - intros s1 Hs1. apply HQ. rewrite Z2Nat.id in Hs1 by lia.
    by replace hi with (lo + (hi - lo)) by lia.
Qed.
End Wp.

(** The same with a set [E] of faults that are tolerated (a panic halts the
    machine). *)
Definition wpe {S A} (E : fault → Prop) (m : M S A) (Q : A → S → Prop) (s : S) : Prop :=
  match m s with
  | Ok (a, s') => Q a s'
  | Err e => E e
  end.

Section Wpe.
Context {S : Type} (E : fault → Prop).
Implicit Types s : S.

Lemma wpe_wp {A} (m : M S A) Q s : wp m Q s → wpe E m Q s.
Proof. unfold wp, wpe. by destruct (m s) as [[a s']|e]. Qed.

Lemma wpe_bind {A B} (m : M S A) (f : A → M S B) Q s :
  wpe E m (λ a s', wpe E (f a) Q s') s → wpe E (m ≫= f) Q s.
Proof. unfold wpe, mbind, M_bind. by destruct (m s) as [[a s']|e]. Qed.

Lemma wpe_mono {A} (m : M S A) (P Q : A → S → Prop) s :
  wpe E m P s → (∀ a s', P a s' → Q a s') → wpe E m Q s.
Proof. unfold wpe. destruct (m s) as [[a s']|e]; auto. Qed.

Lemma wpe_fail {A} e (Q : A → S → Prop) s : E e → wpe E (fail e) Q s.
Proof. done. Qed.

Lemma wpe_then {A B} (m : M S A) (f : A → M S B) Q s :
  wp m (λ a s', wpe E (f a) Q s') s → wpe E (m ≫= f) Q s.
Proof. intros H. by apply wpe_bind, wpe_wp. Qed.
End Wpe.

(** What is known of the runs that return. *)
Lemma wp_and {S A} (m : M S A) P Q s :
  wp m P s → wpe (λ _, True) m Q s → wp m (λ a s', P a s' ∧ Q a s') s.
Proof. unfold wp, wpe. by destruct (m s) as [[a s']|e]. Qed.

Lemma wpe_err {S A} e (m : M S A) (s : S) : wpe (eq e) m (λ _ _, False) s → m s = Err e.
Proof. unfold wpe. destruct (m s) as [[a s']|e']; [done|by intros ->]. Qed.

(** ** A component inside a larger state *)

Record lens (S T : Type) := Lens { lget : S → T; lset : T → S → S }.
Arguments Lens {S T} _ _.
Arguments lget {S T} _ _.
Arguments lset {S T} _ _ _.

Class LensOk {S T : Type} (l : lens S T) := {
  lget_lset (t : T) (s : S) : lget l (lset l t s) = t;
  lset_lset (t t' : T) (s : S) : lset l t (lset l t' s) = lset l t s;
  lset_lget (s : S) : lset l (lget l s) s = s
}.

(** Run an operation of the component [T] on the state [S] it is part of. *)
Definition lift {S T A} (l : lens S T) (m : M T A) : M S A := λ s,
  match m (lget l s) with
  | Ok (a, t) => Ok (a, lset l t s)
  | Err e => Err e
  end.

Lemma wp_lift {S T A} (l : lens S T) (m : M T A) Q (s : S) :
  wp m (λ a t, Q a (lset l t s)) (lget l s) → wp (lift l m) Q s.
Proof. unfold wp, lift. destruct (m (lget l s)) as [[a t]|e]; done. Qed.

(** ** Frames

    [keeps R m]: whatever [m] does, it relates the states by [R]. *)
Definition keeps {S A} (R : relation S) (m : M S A) : Prop :=
  ∀ s a s', m s = Ok (a, s') → R s s'.

Section Keeps.
Context {S : Type} (R : relation S) `{!PreOrder R}.

Lemma keeps_ret {A} (a : A) : keeps R (mret a).
Proof. by intros s a' s' [= _ <-]. Qed.

Lemma keeps_gets {A} (f : S → A) : keeps R (gets f).
Proof. by intros s a' s' [= _ <-]. Qed.

Lemma keeps_modify f : (∀ s, R s (f s)) → keeps R (modify f).
Proof. by intros H s a' s' [= _ <-]. Qed.

Lemma keeps_fail {A} e : keeps R (fail (A:=A) e).
Proof. done. Qed.

Lemma keeps_bind {A B} (m : M S A) (f : A → M S B) :
  keeps R m → (∀ a, keeps R (f a)) → keeps R (m ≫= f).
Proof.
  intros Hm Hf s b s' (a & s1 & E1 & E2)%bind_Ok. etrans; [by eapply Hm|by eapply Hf].
Qed.

Lemma keeps_if {A} (b : bool) (m1 m2 : M S A) :
  keeps R m1 → keeps R m2 → keeps R (if b then m1 else m2).
Proof. by destruct b. Qed.

Lemma keeps_chk arr n i : keeps R (chk arr n i).
Proof. apply keeps_if; [apply keeps_ret|apply keeps_fail]. Qed.

Lemma keeps_kassert c msg : keeps R (kassert c msg).
Proof. apply keeps_if; [apply keeps_ret|apply keeps_fail]. Qed.

Lemma keeps_for_range lo hi body : (∀ i, keeps R (body i)) → keeps R (for_range lo hi body).
Proof.
  intros Hb. unfold for_range. generalize (Z.to_nat (hi - lo)) as n. intros n. revert lo.
  induction n as [|n IH]; intros lo; cbn [for_n]; [apply keeps_ret|].
  apply keeps_bind; [apply Hb|]. intros. apply IH.
Qed.

Lemma keeps_lift {T A} (l : lens S T) (m : M T A) (RT : relation T) :
  (∀ s t, RT (lget l s) t → R s (lset l t s)) → keeps RT m → keeps R (lift l m).
Proof.
  intros HR Hm s a s'. unfold lift. destruct (m (lget l s)) as [[a0 t]|] eqn:E; [|done].
  intros [= <- <-]. by eapply HR, Hm.
Qed.

Lemma wp_keeps {A} (m : M S A) Q s :
  keeps R m → wp m (λ a s', R s s' → Q a s') s → wp m Q s.
Proof.
  unfold wp. destruct (m s) as [[a s']|] eqn:E; [|done]. intros Hk HQ. by eapply HQ, Hk.
Qed.
End Keeps.

Create HintDb keeps.

(** Follow the code, with the operations proved so far as hints. *)
Ltac keeps_step :=
  lazymatch goal with
  | |- ∀ _, _ => intros
  | |- keeps _ (mret _) => apply keeps_ret, _
  | |- keeps _ (gets _) => apply keeps_gets, _
  | |- keeps _ (fail _) => apply keeps_fail
  | |- keeps _ (chk _ _ _) => apply keeps_chk, _
  | |- keeps _ (kassert _ _) => apply keeps_kassert, _
  | |- keeps _ (_ ≫= _) => apply keeps_bind; [apply _|..]
  | |- keeps _ (if _ then _ else _) => apply keeps_if
  | |- keeps _ (for_range _ _ _) => apply keeps_for_range; [apply _|]
  | |- keeps _ _ => solve [auto with keeps nocore]
  end.
Ltac keeps_auto := repeat keeps_step.

(** ** Sums over [i], ..., [i + n - 1] *)

Fixpoint zsum (f : Z → Z) (n : nat) (i : Z) : Z :=
  match n with
  | O => 0
  | S n => f i + zsum f n (i + 1)
  end.

Lemma zsum_ext f g n i :
  (∀ j, i ≤ j < i + Z.of_nat n → f j = g j) → zsum f n i = zsum g n i.
Proof.
  revert i. induction n as [|n IH]; intros i H; cbn [zsum]; [done|].
  rewrite H by lia. f_equal. apply IH. intros j Hj. apply H. lia.
Qed.

Lemma zsum_update g f n i k :
  i ≤ k < i + Z.of_nat n → (∀ j, j ≠ k → g j = f j) →
  zsum g n i = zsum f n i + g k - f k.
Proof.
  revert i. induction n as [|n IH]; intros i Hk Hgf; cbn [zsum]; [lia|].
  destruct (decide (i = k)) as [->|].
  - rewrite (zsum_ext g f n (k + 1)); [lia|]. intros j Hj. apply Hgf. lia.
  - rewrite Hgf by done. rewrite IH by (done || lia). lia.
Qed.

Lemma zsum_nonneg f n i :
  (∀ j, i ≤ j < i + Z.of_nat n → 0 ≤ f j) → 0 ≤ zsum f n i.
Proof.
  revert i. induction n as [|n IH]; intros i H; cbn [zsum]; [lia|].
  assert (0 ≤ f i) by (apply H; lia).
  assert (0 ≤ zsum f n (i + 1)) by (apply IH; intros; apply H; lia). lia.
Qed.

(** A term of a sum of non-negative terms is at most the sum. *)
Lemma zsum_ge f n i k :
  (∀ j, i ≤ j < i + Z.of_nat n → 0 ≤ f j) → i ≤ k < i + Z.of_nat n → f k ≤ zsum f n i.
Proof.
  revert i. induction n as [|n IH]; intros i H Hk; cbn [zsum]; [lia|].
  assert (0 ≤ f i) by (apply H; lia).
  assert (0 ≤ zsum f n (i + 1)) by (apply zsum_nonneg; intros; apply H; lia).
  destruct (decide (k = i)) as [->|]; [lia|].
  specialize (IH (i + 1)). cut (f k ≤ zsum f n (i + 1)); [lia|].
  apply IH; [|lia]. intros. apply H. lia.
Qed.

(** A positive sum has a positive term. *)
Lemma zsum_pos f n i :
  0 < zsum f n i → ∃ k, i ≤ k < i + Z.of_nat n ∧ 0 < f k.
Proof.
  revert i. induction n as [|n IH]; intros i; cbn [zsum]; [lia|]. intros H.
  destruct (decide (0 < f i)); [exists i; lia|].
  destruct (IH (i + 1)) as (k & ? & ?); [lia|]. exists k. lia.
Qed.

(** ** Automation *)

Create HintDb kern.
#[export] Hint Resolve u32_range u8_range s32_range : kern.

(** Side conditions on indices; components extend it with their array sizes. *)
Ltac bounds := first [done | lia].

(** One structural step of a [wp] goal. *)
Ltac wp_step :=
  lazymatch goal with
  | |- wp (mret _) _ _ => apply wp_ret
  | |- wp (_ ≫= _) _ _ => apply wp_bind
  | |- wp (gets _) _ _ => apply wp_gets
  | |- wp (modify _) _ _ => apply wp_modify
  | |- wp (chk _ _ _) _ _ => apply wp_chk; [bounds|]
  | |- wp (kassert _ _) _ _ => apply wp_kassert; [bounds|]
  | |- wp (lift _ _) _ _ => apply wp_lift
  end; cbn beta.

Ltac wp_steps := repeat wp_step.

(** Open a hypothesis [(x ← m; f x) s = Ok (a, s')] into its steps. *)
Ltac inv_run H :=
  lazymatch type of H with
  | mbind _ _ _ = Ok _ =>
    let H1 := fresh "Hrun" in
    apply bind_Ok in H; destruct H as (? & ? & H1 & H); inv_run H1; inv_run H
  | mret _ _ = Ok _ => injection H as <- <-
  | gets _ _ = Ok _ => injection H as <- <-
  | modify _ _ = Ok _ => injection H as <- <-
  | fail _ _ = Ok _ => discriminate H
  | kassert _ _ _ = Ok _ => apply kassert_Ok in H; destruct H as [? [= -> ->]]
  | chk _ _ _ _ = Ok _ => apply chk_Ok in H; destruct H as [? [= -> ->]]
  | _ => idtac
  end.

(** Case analysis on the comparisons of [Z] that the code branches on. *)
Ltac case_cmp :=
  match goal with
  | |- context [Z.eqb ?a ?b] => destruct (Z.eqb_spec a b)
  | |- context [Z.ltb ?a ?b] => destruct (Z.ltb_spec a b)
  | |- context [Z.leb ?a ?b] => destruct (Z.leb_spec a b)
  end; cbn [andb orb negb].

(** Reads of a table after writes. *)
Ltac aget_simpl :=
  repeat first
    [ rewrite aget_eq
    | rewrite aget_ne by first [done | lia | congruence] ].
