(* ===== verification/Memory.v ===== *)
(** * Byte-addressed memory and the block operations of kern/lib/string.c

    Physical memory, little-endian 32-bit accesses, and [memset], [memmove]
    and [memcpy] with the string instructions ([rep stosl], [rep movsb] with
    either direction flag) they are written with.  The theorems show that the
    word-at-a-time fast paths and the backward copy compute the reference
    byte-wise result. *)

From S2P Require Import Prelude.

(** ** Bytes and words *)

(** A memory maps an address to the byte stored there. *)
Abbreviation mem := (gmap Z Z).

Definition read8 (m : mem) (a : Z) : Z := u8 (aget m a).
Definition write8 (m : mem) (a v : Z) : mem := <[a := u8 v]> m.

(** Byte [k] of a word. *)
Definition byte_of (v k : Z) : Z := u8 (Z.shiftr v (8 * k)).

Definition read32 (m : mem) (a : Z) : Z :=
  read8 m a + 256 * read8 m (a + 1) + 65536 * read8 m (a + 2)
  + 16777216 * read8 m (a + 3).

Definition write32 (m : mem) (a v : Z) : mem :=
  write8 (write8 (write8 (write8 m a (byte_of v 0)) (a + 1) (byte_of v 1))
            (a + 2) (byte_of v 2)) (a + 3) (byte_of v 3).

(** [uint16_t] *)
Definition read16 (m : mem) (a : Z) : Z := read8 m a + 256 * read8 m (a + 1).
Definition write16 (m : mem) (a v : Z) : mem := write8 (write8 m a (byte_of v 0)) (a + 1) (byte_of v 1).

(** A block of [n] bytes. *)
Definition read_bytes (m : mem) (a n : Z) : list Z :=
  (λ i, read8 m (a + i)) <$> seqZ 0 n.

Fixpoint write_bytes (m : mem) (a : Z) (bs : list Z) : mem :=
  match bs with
  | [] => m
  | b :: bs => write_bytes (write8 m a b) (a + 1) bs
  end.

(** ** The string instructions *)

Fixpoint rep_stosb (m : mem) (edi al : Z) (ecx : nat) : mem :=
  match ecx with
  | O => m
  | S ecx => rep_stosb (write8 m edi al) (edi + 1) al ecx
  end.

Fixpoint rep_stosl (m : mem) (edi eax : Z) (ecx : nat) : mem :=
  match ecx with
  | O => m
  | S ecx => rep_stosl (write32 m edi eax) (edi + 4) eax ecx
  end.

(** [dir] is [1] after [cld] and [-1] after [std]. *)
Fixpoint rep_movsb (dir : Z) (m : mem) (edi esi : Z) (ecx : nat) : mem :=
  match ecx with
  | O => m
  | S ecx => rep_movsb dir (write8 m edi (read8 m esi)) (edi + dir) (esi + dir) ecx
  end.

Fixpoint rep_movsl (dir : Z) (m : mem) (edi esi : Z) (ecx : nat) : mem :=
  match ecx with
  | O => m
  | S ecx =>
    rep_movsl dir (write32 m edi (read32 m esi)) (edi + dir * 4) (esi + dir * 4) ecx
  end.

(** ** kern/lib/string.c *)

(** [(int)v % 4 == 0]: the remainder of C truncates towards zero. *)
Definition aligned4 (v : Z) : bool := Z.rem (s32 v) 4 =? 0.

Definition memset (m : mem) (v c n : Z) : mem :=
  if n =? 0 then m
  else if aligned4 v && (n mod 4 =? 0) then
    let c := Z.land c 255 in
    let c := Z.lor (Z.lor (Z.lor (Z.shiftl c 24) (Z.shiftl c 16)) (Z.shiftl c 8)) c in
    rep_stosl m v c (Z.to_nat (n / 4))
  else rep_stosb m v c (Z.to_nat n).

Definition memmove (m : mem) (dst src n : Z) : mem :=
  if (src <? dst) && (dst <? u32 (src + n)) then
    let s := u32 (src + n) in
    let d := u32 (dst + n) in
    if aligned4 s && aligned4 d && (n mod 4 =? 0)
    then rep_movsl (-1) m (d - 4) (s - 4) (Z.to_nat (n / 4))
    else rep_movsb (-1) m (d - 1) (s - 1) (Z.to_nat n)
  else
    if aligned4 src && aligned4 dst && (n mod 4 =? 0)
    then rep_movsl 1 m dst src (Z.to_nat (n / 4))
    else rep_movsb 1 m dst src (Z.to_nat n).

Definition memcpy (m : mem) (dst src n : Z) : mem := memmove m dst src n.

Definition memzero (m : mem) (v n : Z) : mem := memset m v 0 n.

(** ** Lemmas on bytes and words *)

Lemma u8_u8 x : u8 (u8 x) = u8 x.
Proof. unfold u8. by rewrite Z.mod_mod. Qed.

Lemma read8_range m a : 0 ≤ read8 m a < 256.
Proof. apply u8_range. Qed.

Lemma u8_read8 m a : u8 (read8 m a) = read8 m a.
Proof. apply u8_u8. Qed.

Lemma byte_of_range v k : 0 ≤ byte_of v k < 256.
Proof. apply u8_range. Qed.
#[export] Hint Resolve read8_range byte_of_range : kern.

Lemma read8_write8 m a v x :
  read8 (write8 m a v) x = if decide (a = x) then u8 v else read8 m x.
Proof.
  unfold read8, write8. rewrite aget_insert. case_decide; [apply u8_u8|done].
Qed.

Lemma read8_write8_eq m a v : read8 (write8 m a v) a = u8 v.
Proof. rewrite read8_write8. by rewrite decide_True. Qed.

Lemma read8_write8_ne m a v x : a ≠ x → read8 (write8 m a v) x = read8 m x.
Proof. intros. rewrite read8_write8. by rewrite decide_False. Qed.

Lemma read8_write32 m a v x :
  read8 (write32 m a v) x =
  if decide (a ≤ x < a + 4) then byte_of v (x - a) else read8 m x.
Proof.
  unfold write32. rewrite !read8_write8. unfold byte_of. rewrite !u8_u8.
  destruct (decide (a ≤ x < a + 4)).
  - assert (x = a ∨ x = a + 1 ∨ x = a + 2 ∨ x = a + 3) as [-> | [-> | [-> | ->]]] by lia;
      repeat (rewrite decide_False by lia); rewrite decide_True by lia;
      do 2 f_equal; lia.
  - by repeat (rewrite decide_False by lia).
Qed.

Lemma byte_of_div v k : 0 ≤ k → byte_of v k = v / 2 ^ (8 * k) mod 256.
Proof. intros. unfold byte_of, u8. by rewrite Z.shiftr_div_pow2 by lia. Qed.

(** The bytes of a word read from memory. *)
Lemma byte_of_read32 m a k : 0 ≤ k < 4 → byte_of (read32 m a) k = read8 m (a + k).
Proof.
  intros Hk. rewrite byte_of_div by lia. unfold read32.
  pose proof (read8_range m a). pose proof (read8_range m (a + 1)).
  pose proof (read8_range m (a + 2)). pose proof (read8_range m (a + 3)).
  assert (k = 0 ∨ k = 1 ∨ k = 2 ∨ k = 3) as [-> | [-> | [-> | ->]]] by lia;
    [change (2 ^ (8 * 0)) with 1|change (2 ^ (8 * 1)) with 256
    |change (2 ^ (8 * 2)) with 65536|change (2 ^ (8 * 3)) with 16777216];
    rewrite ?Z.add_0_r; Z.to_euclidean_division_equations; lia.
Qed.

Lemma read32_range m a : is_u32 (read32 m a).
Proof.
  unfold is_u32, two32, read32.
  pose proof (read8_range m a). pose proof (read8_range m (a + 1)).
  pose proof (read8_range m (a + 2)). pose proof (read8_range m (a + 3)). lia.
Qed.
#[export] Hint Resolve read32_range : kern.

Lemma bytes_of_word v :
  byte_of v 0 + 256 * byte_of v 1 + 65536 * byte_of v 2 + 16777216 * byte_of v 3 = u32 v.
Proof.
  rewrite !byte_of_div by lia. unfold u32, two32.
  change (2 ^ (8 * 0)) with 1. change (2 ^ (8 * 1)) with 256.
  change (2 ^ (8 * 2)) with 65536. change (2 ^ (8 * 3)) with 16777216.
  Z.to_euclidean_division_equations. lia.
Qed.

Lemma read32_write32_eq m a v : read32 (write32 m a v) a = u32 v.
Proof.
  rewrite <- bytes_of_word. unfold read32. rewrite !read8_write32.
  repeat (rewrite decide_True by lia).
  replace (a - a) with 0 by lia. replace (a + 1 - a) with 1 by lia.
  replace (a + 2 - a) with 2 by lia. by replace (a + 3 - a) with 3 by lia.
Qed.

(** A word not touched by a change to the memory. *)
Lemma read32_ext m m' a :
  (∀ x, a ≤ x < a + 4 → read8 m' x = read8 m x) → read32 m' a = read32 m a.
Proof. intros H. unfold read32. by rewrite !H by lia. Qed.

Lemma read32_write32_ne m a b v :
  a + 4 ≤ b ∨ b + 4 ≤ a → read32 (write32 m a v) b = read32 m b.
Proof.
  intros H. apply read32_ext. intros x Hx. rewrite read8_write32.
  by rewrite decide_False by lia.
Qed.

Lemma read8_write16 d a v x :
  read8 (write16 d a v) x = if decide (a ≤ x < a + 2) then byte_of v (x - a) else read8 d x.
Proof.
  unfold write16. rewrite !read8_write8. repeat case_decide; try lia; subst; try done;
  unfold byte_of; rewrite u8_u8; do 3 f_equal; lia.
Qed.

Lemma read16_ext d d' a :
  (∀ x, a ≤ x < a + 2 → read8 d' x = read8 d x) → read16 d' a = read16 d a.
Proof. intros H. unfold read16. by rewrite !H by lia. Qed.

Lemma read16_read32 m a : read16 m a = u16 (read32 m a).
Proof.
  unfold read16, read32, u16. pose proof (read8_range m a). pose proof (read8_range m (a + 1)).
  pose proof (read8_range m (a + 2)). pose proof (read8_range m (a + 3)).
  Z.to_euclidean_division_equations. lia.
Qed.

(** ** Blocks *)

Lemma read_bytes_length m a n : 0 ≤ n → Z.of_nat (length (read_bytes m a n)) = n.
Proof. intros. unfold read_bytes. rewrite length_fmap, length_seqZ. lia. Qed.

Lemma read_bytes_lookup m a n i :
  0 ≤ i < n → read_bytes m a n !! Z.to_nat i = Some (read8 m (a + i)).
Proof.
  intros. unfold read_bytes. rewrite list_lookup_fmap, lookup_seqZ_lt by lia.
  cbn. repeat f_equal. lia.
Qed.

Lemma read_bytes_ext m m' a n :
  (∀ x, a ≤ x < a + n → read8 m' x = read8 m x) →
  read_bytes m' a n = read_bytes m a n.
Proof.
  intros H. unfold read_bytes. apply list_fmap_ext. intros i k Hk.
  apply lookup_seqZ in Hk. apply H. lia.
Qed.

(** Reading a block is pointwise: the block at [b] of [m'] is the block at [a]
    of [m] when their bytes agree. *)
Lemma read_bytes_shift m m' a b n :
  (∀ i, 0 ≤ i < n → read8 m' (b + i) = read8 m (a + i)) →
  read_bytes m' b n = read_bytes m a n.
Proof.
  intros H. unfold read_bytes. apply list_fmap_ext. intros i k Hk.
  apply lookup_seqZ in Hk. apply H. lia.
Qed.

Lemma read8_write_bytes m a bs x :
  read8 (write_bytes m a bs) x =
  if decide (a ≤ x < a + Z.of_nat (length bs))
  then u8 (nth (Z.to_nat (x - a)) bs 0) else read8 m x.
Proof.
  revert m a. induction bs as [|b bs IH]; intros m a; cbn [write_bytes length nth].
  { by rewrite decide_False by (cbn; lia). }
  rewrite IH, read8_write8.
  destruct (decide (a = x)) as [->|].
  - rewrite decide_False, decide_True by lia. by rewrite Z.sub_diag.
  - destruct (decide (a ≤ x < a + Z.of_nat (S (length bs)))).
    + rewrite decide_True by lia.
      replace (Z.to_nat (x - a)) with (S (Z.to_nat (x - (a + 1)))) by lia. done.
    + by rewrite decide_False by lia.
Qed.

(** ** memset *)

Lemma read8_rep_stosb m d c n x :
  read8 (rep_stosb m d c n) x =
  if decide (d ≤ x < d + Z.of_nat n) then u8 c else read8 m x.
Proof.
  revert m d. induction n as [|n IH]; intros m d; cbn [rep_stosb].
  { by rewrite decide_False by lia. }
  rewrite IH, read8_write8. repeat case_decide; done || lia.
Qed.

Lemma read8_rep_stosl m d c b n x :
  (∀ k, 0 ≤ k < 4 → byte_of c k = b) →
  read8 (rep_stosl m d c n) x =
  if decide (d ≤ x < d + 4 * Z.of_nat n) then b else read8 m x.
Proof.
  intros Hb. revert m d. induction n as [|n IH]; intros m d; cbn [rep_stosl].
  { by rewrite decide_False by lia. }
  rewrite IH, read8_write32. repeat case_decide; try done; try lia.
  apply Hb. lia.
Qed.

(** The word [(c<<24)|(c<<16)|(c<<8)|c] has four equal bytes. *)
Lemma byte_of_splat b k :
  0 ≤ b < 256 → 0 ≤ k < 4 →
  byte_of (Z.lor (Z.lor (Z.lor (Z.shiftl b 24) (Z.shiftl b 16)) (Z.shiftl b 8)) b) k = b.
Proof.
  intros Hb Hk. unfold byte_of, u8. apply Z.bits_inj'. intros i Hi.
  change 256 with (2 ^ 8).
  destruct (Z.lt_ge_cases i 8).
  - rewrite Z.mod_pow2_bits_low by done.
    rewrite Z.shiftr_spec, !Z.lor_spec, !Z.shiftl_spec by lia.
    assert (∀ j, 8 ≤ j → Z.testbit b j = false) as Hhi.
    { intros j Hj. apply Z.bits_above_log2; [lia|].
      destruct (decide (b = 0)) as [->|]; [cbn; lia|].
      apply Z.log2_lt_pow2; [lia|]. apply Z.lt_le_trans with (2 ^ 8); [lia|].
      apply Z.pow_le_mono_r; lia. }
    assert (k = 0 ∨ k = 1 ∨ k = 2 ∨ k = 3) as [-> | [-> | [-> | ->]]] by lia.
    + rewrite !(Z.testbit_neg_r b (_ - _)) by lia. cbn. f_equal; lia.
    + rewrite (Z.testbit_neg_r b (_ - 24)), (Z.testbit_neg_r b (_ - 16)) by lia.
      rewrite (Hhi (i + 8 * 1)) by lia. rewrite orb_false_r. cbn [orb]. f_equal; lia.
    + rewrite (Z.testbit_neg_r b (_ - 24)) by lia.
      rewrite (Hhi (i + 8 * 2)), (Hhi (i + 8 * 2 - 8)) by lia.
      rewrite !orb_false_r. cbn [orb]. f_equal; lia.
    + rewrite (Hhi (i + 8 * 3)), (Hhi (i + 8 * 3 - 8)), (Hhi (i + 8 * 3 - 16)) by lia.
      rewrite !orb_false_r. f_equal; lia.
  - rewrite Z.mod_pow2_bits_high by lia. symmetry. apply Z.bits_above_log2; [lia|].
    destruct (decide (b = 0)) as [->|]; [cbn; lia|].
    apply Z.log2_lt_pow2; [lia|]. apply Z.lt_le_trans with (2 ^ 8); [lia|].
    apply Z.pow_le_mono_r; lia.
Qed.

(** [memset] stores the low byte of [c] at every address of the block, on the
    [stosl] path as on the [stosb] path, and nothing else. *)
Lemma memset_spec m v c n x :
  0 ≤ n →
  read8 (memset m v c n) x =
  if decide (v ≤ x < v + n) then u8 c else read8 m x.
Proof.
  intros Hn. unfold memset. destruct (Z.eqb_spec n 0) as [->|].
  { by rewrite decide_False by lia. }
  destruct (aligned4 v && (n mod 4 =? 0)) eqn:E; cbv zeta.
  - apply andb_true_iff in E as [_ E]. apply Z.eqb_eq in E.
    rewrite (read8_rep_stosl _ _ _ (u8 c)).
    + replace (4 * Z.of_nat (Z.to_nat (n / 4))) with n; [done|].
      rewrite Z2Nat.id by (apply Z.div_pos; lia). pose proof (Z.div_mod n 4). lia.
    + intros k Hk. change 255 with (Z.ones 8). rewrite Z.land_ones by lia.
      apply byte_of_splat; [apply u8_range|done].
  - rewrite read8_rep_stosb. by rewrite Z2Nat.id by done.
Qed.

(** ** memmove *)

Lemma read8_copy32 m d s x :
  read8 (write32 m d (read32 m s)) x =
  if decide (d ≤ x < d + 4) then read8 m (s + (x - d)) else read8 m x.
Proof.
  rewrite read8_write32. case_decide; [|done]. rewrite byte_of_read32 by lia. done.
Qed.

(** Ascending copies are exact when the destination does not start inside the
    source. *)
Lemma read8_movsb_up m d s n x :
  d ≤ s ∨ s + Z.of_nat n ≤ d →
  read8 (rep_movsb 1 m d s n) x =
  if decide (d ≤ x < d + Z.of_nat n) then read8 m (s + (x - d)) else read8 m x.
Proof.
  revert m d s. induction n as [|n IH]; intros m d s Hov; cbn [rep_movsb].
  { by rewrite decide_False by lia. }
  rewrite IH by lia. rewrite !read8_write8.
  rewrite u8_read8.
  repeat case_decide; try lia; try (f_equal; lia).
Qed.

Lemma read8_movsl_up m d s n x :
  d ≤ s ∨ s + 4 * Z.of_nat n ≤ d →
  read8 (rep_movsl 1 m d s n) x =
  if decide (d ≤ x < d + 4 * Z.of_nat n) then read8 m (s + (x - d)) else read8 m x.
Proof.
  revert m d s. induction n as [|n IH]; intros m d s Hov; cbn [rep_movsl].
  { by rewrite decide_False by lia. }
  rewrite IH by lia. rewrite !read8_copy32.
  repeat case_decide; try lia; try (f_equal; lia).
Qed.

(** Descending copies start from the last byte (word) of the block. *)
Lemma read8_movsb_down m d s n x :
  s ≤ d →
  read8 (rep_movsb (-1) m (d + Z.of_nat n - 1) (s + Z.of_nat n - 1) n) x =
  if decide (d ≤ x < d + Z.of_nat n) then read8 m (s + (x - d)) else read8 m x.
Proof.
  intros Hsd. revert m. induction n as [|n IH]; intros m; cbn [rep_movsb].
  { by rewrite decide_False by lia. }
  replace (d + Z.of_nat (S n) - 1 + -1) with (d + Z.of_nat n - 1) by lia.
  replace (s + Z.of_nat (S n) - 1 + -1) with (s + Z.of_nat n - 1) by lia.
  rewrite IH, !read8_write8.
  rewrite u8_read8.
  repeat case_decide; try lia; try (f_equal; lia).
Qed.

Lemma read8_movsl_down m d s n x :
  s ≤ d →
  read8 (rep_movsl (-1) m (d + 4 * Z.of_nat n - 4) (s + 4 * Z.of_nat n - 4) n) x =
  if decide (d ≤ x < d + 4 * Z.of_nat n) then read8 m (s + (x - d)) else read8 m x.
Proof.
  intros Hsd. revert m. induction n as [|n IH]; intros m; cbn [rep_movsl].
  { by rewrite decide_False by lia. }
  replace (d + 4 * Z.of_nat (S n) - 4 + -1 * 4) with (d + 4 * Z.of_nat n - 4) by lia.
  replace (s + 4 * Z.of_nat (S n) - 4 + -1 * 4) with (s + 4 * Z.of_nat n - 4) by lia.
  rewrite IH, !read8_copy32.
  repeat case_decide; try lia; try (f_equal; lia).
Qed.

Lemma div4_exact n : 0 ≤ n → n mod 4 = 0 → 4 * Z.of_nat (Z.to_nat (n / 4)) = n.
Proof.
  intros. rewrite Z2Nat.id by (apply Z.div_pos; lia). pose proof (Z.div_mod n 4). lia.
Qed.

(** Wherever the source is, a copy writes to its destination only. *)
Lemma movsb_frame dir m d s n x :
  (dir = 1 → ¬ (d ≤ x < d + Z.of_nat n)) → (dir = -1 → ¬ (d - Z.of_nat n < x ≤ d)) →
  dir = 1 ∨ dir = -1 → read8 (rep_movsb dir m d s n) x = read8 m x.
Proof.
  revert m d s. induction n as [|n IH]; intros m d s Hu Hd Hdir; cbn [rep_movsb]; [done|].
  rewrite IH by lia. apply read8_write8_ne. lia.
Qed.

Lemma movsl_frame dir m d s n x :
  (dir = 1 → ¬ (d ≤ x < d + 4 * Z.of_nat n)) → (dir = -1 → ¬ (d + 4 - 4 * Z.of_nat n ≤ x < d + 4)) →
  dir = 1 ∨ dir = -1 → read8 (rep_movsl dir m d s n) x = read8 m x.
Proof.
  revert m d s. induction n as [|n IH]; intros m d s Hu Hd Hdir; cbn [rep_movsl]; [done|].
  rewrite IH by lia. rewrite read8_write32, decide_False by lia. done.
Qed.

Lemma memmove_frame m dst src n x :
  0 ≤ dst → 0 ≤ n → dst + n < two32 ∨ (0 ≤ src ∧ src + n ≤ dst < two32) → ¬ (dst ≤ x < dst + n) →
  read8 (memmove m dst src n) x = read8 m x.
Proof.
  intros Hd Hn Hor Hx. pose proof (div4_exact n Hn) as E4. unfold memmove.
  destruct ((src <? dst) && (dst <? u32 (src + n))) eqn:Eov.
  - assert (dst + n < two32) as Hdn.
    { destruct Hor as [?|Hsrc]; [done|]. apply andb_true_iff in Eov as [_ Eov%Z.ltb_lt].
      rewrite u32_small in Eov by (unfold is_u32; lia). lia. }
    rewrite (u32_small (dst + n)) by (unfold is_u32; lia).
    case_match eqn:E; [apply andb_true_iff in E as [_ E%Z.eqb_eq]|].
    + apply movsl_frame; lia.
    + apply movsb_frame; lia.
  - case_match eqn:E; [apply andb_true_iff in E as [_ E%Z.eqb_eq]|].
    + apply movsl_frame; lia.
    + apply movsb_frame; lia.
Qed.

(** [memmove] gives every destination byte the value its source byte had
    before the call, whether or not the blocks overlap, and changes nothing
    outside the destination. *)
Lemma memmove_spec m dst src n x :
  0 ≤ dst → 0 ≤ src → 0 ≤ n → dst + n < two32 → src + n < two32 →
  read8 (memmove m dst src n) x =
  if decide (dst ≤ x < dst + n) then read8 m (src + (x - dst)) else read8 m x.
Proof.
  intros Hd Hs Hn Hdn Hsn. unfold memmove.
  rewrite !u32_small by (unfold is_u32; lia).
  destruct (n mod 4 =? 0) eqn:E4; [apply Z.eqb_eq, (div4_exact _ Hn) in E4|];
    rewrite ?andb_true_r, ?andb_false_r.
  all: assert (Z.of_nat (Z.to_nat n) = n) as En by lia.
  all: destruct ((src <? dst) && (dst <? src + n)) eqn:Eov.
  all: try (apply andb_true_iff in Eov as [?%Z.ltb_lt ?%Z.ltb_lt]).
  all: try (apply andb_false_iff in Eov as [?%Z.ltb_ge|?%Z.ltb_ge]).
  all: repeat match goal with |- context [if ?b then _ else _] =>
         lazymatch b with context [aligned4] => destruct b end end.
  all: first
    [ rewrite read8_movsb_up by lia
    | rewrite read8_movsl_up by lia
    | rewrite <- En at 1 2; rewrite read8_movsb_down by lia
    | rewrite <- E4 at 1 2; rewrite read8_movsl_down by lia ].
  all: rewrite ?E4, ?En; done.
Qed.

(** ** Claims *)

(** [memset] fills the block with the low byte of [c], whichever of the two
    string instructions it picks, and touches nothing else. *)
Lemma memset_correct (m : mem) (v c n : Z) :
  0 ≤ n →
  read_bytes (memset m v c n) v n = replicate (Z.to_nat n) (u8 c)
  ∧ ∀ x, ¬ (v ≤ x < v + n) → read8 (memset m v c n) x = read8 m x.
Proof.
  intros Hn. split.
  - unfold read_bytes. apply list_eq. intros i. rewrite list_lookup_fmap.
    destruct (decide (i < Z.to_nat n)%nat).
    + rewrite lookup_seqZ_lt, lookup_replicate_2 by lia. cbn.
      by rewrite memset_spec, decide_True by lia.
    + rewrite lookup_seqZ_ge by lia. symmetry. cbn. apply lookup_replicate_None. lia.
  - intros x Hx. by rewrite memset_spec, decide_False by lia.
Qed.

(** [memmove] copies the block as it was before the call, also when source
    and destination overlap and in either direction, by bytes or by words, and
    touches nothing else. *)
Theorem memmove_correct (m : mem) (dst src n : Z) :
  0 ≤ dst → 0 ≤ src → 0 ≤ n → dst + n < two32 → src + n < two32 →
  read_bytes (memmove m dst src n) dst n = read_bytes m src n
  ∧ ∀ x, ¬ (dst ≤ x < dst + n) → read8 (memmove m dst src n) x = read8 m x.
Proof.
  intros. split.
  - unfold read_bytes. apply list_fmap_ext. intros i k Hk. apply lookup_seqZ in Hk.
    rewrite memmove_spec, decide_True by lia. f_equal. lia.
  - intros x Hx. by rewrite memmove_spec, decide_False by lia.
Qed.

