(* ===== verification/Strings.v ===== *)
(** * C strings (the rest of kern/lib/string.c) and path elements (skipelem of
    kern/fs/path.c)

    A pointer to characters is the list of the bytes from there on; a string ends
    at its first zero byte, or where the list ends. *)

From S2P Require Import Prelude Memory.

Definition NUL : Z := 0.
Definition SLASH : Z := 47.
Definition DIRSIZ : Z := 14.

(** ** kern/lib/string.c *)

(** [*p] *)
Definition deref (p : list Z) : Z := hd NUL p.

Fixpoint strcmp (p q : list Z) : Z :=
  match p with
  | c :: p' => if negb (c =? NUL) && (c =? deref q) then strcmp p' (tl q) else u8 c - u8 (deref q)
  | [] => NUL - u8 (deref q)
  end.

(** [n] counts down as in the code. *)
Fixpoint strncmp (p q : list Z) (n : nat) : Z :=
  match n with
  | O => 0
  | S n =>
    if negb (deref p =? NUL) && (deref p =? deref q) then strncmp (tl p) (tl q) n
    else u8 (deref p) - u8 (deref q)
  end.

Fixpoint strnlen (s : list Z) (size : nat) : Z :=
  match size with
  | O => 0
  | S size => if negb (deref s =? NUL) then 1 + strnlen (tl s) size else 0
  end.

Fixpoint strlen (s : list Z) : Z :=
  match s with
  | c :: s => if negb (c =? NUL) then 1 + strlen s else 0
  | [] => 0
  end.

(** The suffix the result points to, or the null pointer. *)
Fixpoint strchr (s : list Z) (c : Z) : option (list Z) :=
  match s with
  | x :: s' => if x =? NUL then None else if x =? c then Some s else strchr s' c
  | [] => None
  end.

Fixpoint memcmp (s1 s2 : list Z) (n : nat) : Z :=
  match n with
  | O => 0
  | S n => if negb (deref s1 =? deref s2) then deref s1 - deref s2 else memcmp (tl s1) (tl s2) n
  end.

(** The [n] bytes written: the first loop copies up to and including the zero,
    the second pads. *)
Fixpoint strncpy (t : list Z) (n : nat) : list Z :=
  match n with
  | O => []
  | S n => if deref t =? 0 then 0 :: replicate n 0 else deref t :: strncpy (tl t) n
  end.

(** ** skipelem *)

(** [while (p[0] == '/') p++] *)
Fixpoint skip_slashes (p : list Z) : list Z :=
  match p with
  | c :: p' => if c =? SLASH then skip_slashes p' else p
  | [] => []
  end.

(** The loop that looks for the end of the element: its characters, and the rest. *)
Fixpoint find_end (p : list Z) : list Z * list Z :=
  match p with
  | c :: p' =>
    if negb (c =? SLASH) && negb (c =? NUL)
    then let '(e, r) := find_end p' in (c :: e, r)
    else ([], p)
  | [] => ([], [])
  end.

(** The name copied and the pointer returned. *)
Definition skipelem (path : list Z) : option (list Z * list Z) :=
  if deref path =? NUL then None
  else
    let start := skip_slashes path in
    if deref start =? NUL then None
    else
      let '(elem, end_) := find_end start in
      let len := if DIRSIZ <=? Z.of_nat (length elem) then DIRSIZ - 1 else Z.of_nat (length elem) in
      Some (strncpy start (Z.to_nat len), skip_slashes end_).

(** ** Reference definitions *)

(** The string a pointer stands for. *)
Fixpoint cstr (s : list Z) : list Z :=
  match s with
  | c :: s => if c =? NUL then [] else c :: cstr s
  | [] => []
  end.

Definition is_byte (c : Z) : Prop := 0 ≤ c < 256.

(** Lexicographic order. *)
Fixpoint str_lt (a b : list Z) : Prop :=
  match a, b with
  | [], [] => False
  | [], _ :: _ => True
  | _ :: _, [] => False
  | x :: a, y :: b => x < y ∨ (x = y ∧ str_lt a b)
  end.

(** A path split at every slash. *)
Fixpoint split (p : list Z) : list (list Z) :=
  match p with
  | [] => [[]]
  | c :: p =>
    if c =? SLASH then [] :: split p
    else match split p with
         | e :: es => (c :: e) :: es
         | [] => [[c]]
         end
  end.

(** The elements of a path: empty ones do not count, long ones are cut. *)
Definition elements_of (path : list Z) : list (list Z) :=
  take (Z.to_nat (DIRSIZ - 1)) <$> filter (λ e, e ≠ []) (split (cstr path)).

(** ** Lemmas *)

Lemma u8_byte c : is_byte c → u8 c = c.
Proof. intros. unfold u8. by apply Z.mod_small. Qed.

Lemma deref_byte q : Forall is_byte q → is_byte (deref q).
Proof. destruct 1; [by vm_compute|done]. Qed.

Lemma Forall_tl {A} (P : A → Prop) l : Forall P l → Forall P (tl l).
Proof. by destruct 1. Qed.

Lemma cstr_deref q : cstr q = if deref q =? NUL then [] else deref q :: cstr (tl q).
Proof. by destruct q. Qed.

Lemma strcmp_spec p q :
  Forall is_byte p → Forall is_byte q →
  (strcmp p q = 0 ↔ cstr p = cstr q) ∧ (strcmp p q < 0 ↔ str_lt (cstr p) (cstr q)).
Proof.
  intros Hp. revert q. induction Hp as [|c p Hc Hp IH]; intros q Hq;
    pose proof (deref_byte q Hq) as Hd; rewrite (cstr_deref q); cbn [strcmp cstr].
  - rewrite u8_byte by done. unfold is_byte, NUL in *. case_cmp; cbn.
    + split; [|lia]. rewrite e. done.
    + split; [split; [lia|done]|]. split; [done|lia].
  - rewrite !u8_byte by done. unfold is_byte, NUL in *.
    destruct (Z.eqb_spec c 0), (Z.eqb_spec c (deref q)), (Z.eqb_spec (deref q) 0);
      cbn [negb andb str_lt]; try lia.
    + split; [split; [done|lia]|lia].
    + split; [split; [lia|done]|]. split; [done|lia].
    + destruct (IH (tl q)) as [IH1 IH2]; [by apply Forall_tl|]. rewrite IH1, IH2, <- e.
      split; [split; [by intros ->|by intros [=]]|]. split; [by right|]. intros [?|[_ ?]]; [lia|done].
    + split; [split; [lia|done]|lia].
    + split; [split; [lia|intros [=]; lia]|]. split; [left; lia|]. intros [?|[? _]]; lia.
Qed.

Lemma strncmp_spec p q n :
  Forall is_byte p → Forall is_byte q →
  strncmp p q n = 0 ↔ take n (cstr p) = take n (cstr q).
Proof.
  revert p q. induction n as [|n IH]; intros p q Hp Hq; [done|].
  pose proof (deref_byte p Hp) as Hdp. pose proof (deref_byte q Hq) as Hdq.
  rewrite (cstr_deref p), (cstr_deref q). cbn [strncmp]. rewrite !u8_byte by done.
  unfold is_byte, NUL in *.
  destruct (Z.eqb_spec (deref p) 0), (Z.eqb_spec (deref p) (deref q)), (Z.eqb_spec (deref q) 0);
    cbn [negb andb take]; try lia.
  - split; [done|lia].
  - split; [lia|done].
  - rewrite IH by by apply Forall_tl. rewrite e. split; [by intros ->|by intros [=]].
  - split; [lia|done].
  - split; [lia|]. intros [=]. lia.
Qed.

Lemma strncpy_spec t n :
  strncpy t n = take n (cstr t) ++ replicate (n - length (cstr t)) 0.
Proof.
  revert t. induction n as [|n IH]; intros t; [done|]. cbn [strncpy]. rewrite (cstr_deref t).
  unfold NUL. destruct (Z.eqb_spec (deref t) 0); cbn [take app length].
  - by rewrite Nat.sub_0_r.
  - by rewrite IH.
Qed.

Lemma cstr_nonzero s : Forall (λ c, c ≠ NUL) (cstr s).
Proof. induction s as [|c s IH]; cbn; [constructor|]. case_cmp; by constructor. Qed.

Lemma cstr_padded a k : Forall (λ c, c ≠ NUL) a → cstr (a ++ replicate k 0) = a.
Proof.
  induction 1 as [|c a Hc Ha IH]; cbn [app cstr]; [by destruct k|].
  by rewrite (proj2 (Z.eqb_neq _ _)), IH.
Qed.

Lemma cstr_bytes s : Forall is_byte s → Forall is_byte (cstr s).
Proof. induction 1; cbn; [constructor|]. case_cmp; by constructor. Qed.

Lemma strncpy_bytes t n : Forall is_byte t → Forall is_byte (strncpy t n).
Proof.
  intros Ht. rewrite strncpy_spec. apply Forall_app. split; [by apply Forall_take, cstr_bytes|].
  apply Forall_replicate. unfold is_byte. lia.
Qed.

Lemma strncpy_length t n : length (strncpy t n) = n.
Proof. rewrite strncpy_spec, length_app, length_take, length_replicate. lia. Qed.

(** What was copied compares equal. *)
Lemma cstr_strncpy t n : cstr (strncpy t n) = take n (cstr t).
Proof. rewrite strncpy_spec. apply cstr_padded, Forall_take, cstr_nonzero. Qed.

(** *** Paths *)

Lemma split_app_slash e p : Forall (λ c, c ≠ SLASH) e → split (e ++ SLASH :: p) = e :: split p.
Proof.
  induction 1 as [|c e Hc He IH]; cbn [app split]; [done|].
  by rewrite (proj2 (Z.eqb_neq _ _)), IH.
Qed.

Lemma split_last e : Forall (λ c, c ≠ SLASH) e → split e = [e].
Proof.
  induction 1 as [|c e Hc He IH]; cbn [split]; [done|]. by rewrite (proj2 (Z.eqb_neq _ _)), IH.
Qed.

Lemma elements_skip p : elements_of (skip_slashes p) = elements_of p.
Proof.
  induction p as [|c p IH]; [done|]. cbn [skip_slashes]. destruct (Z.eqb_spec c SLASH) as [->|]; [|done].
  rewrite IH. unfold elements_of. cbn [cstr split]. change (SLASH =? NUL) with false. cbn iota.
  cbn [split]. rewrite Z.eqb_refl. by rewrite filter_cons_False by tauto.
Qed.

Lemma deref_skip p : deref (skip_slashes p) ≠ SLASH.
Proof.
  induction p as [|c p IH]; [done|]. cbn [skip_slashes].
  by destruct (Z.eqb_spec c SLASH).
Qed.

Lemma skip_length p : (length (skip_slashes p) ≤ length p)%nat.
Proof. induction p as [|c p IH]; cbn; [done|]. case_cmp; cbn; lia. Qed.

Lemma find_end_spec p e r :
  find_end p = (e, r) →
  p = e ++ r ∧ cstr p = e ++ cstr r ∧ Forall (λ c, c ≠ SLASH) e
  ∧ (deref r = SLASH ∨ deref r = NUL).
Proof.
  revert e r. induction p as [|c p IH]; intros e r; cbn [find_end].
  { intros [= <- <-]. split_and!; [done|done|constructor|by right]. }
  destruct (Z.eqb_spec c SLASH) as [->|Hs]; cbn [negb andb].
  { intros [= <- <-]. split_and!; [done|done|constructor|by left]. }
  destruct (Z.eqb_spec c NUL) as [->|Hn]; cbn [negb andb].
  { intros [= <- <-]. split_and!; [done|done|constructor|by right]. }
  destruct (find_end p) as [e' r'] eqn:E. intros [= <- <-].
  destruct (IH e' r' eq_refl) as (-> & Hc & Hf & Hr). split_and!; [done| |by constructor|done].
  cbn [cstr app]. rewrite (proj2 (Z.eqb_neq c NUL)) by done. by rewrite <- Hc.
Qed.

Lemma elements_elem e r :
  Forall (λ c, c ≠ SLASH) e → e ≠ [] → deref r = SLASH ∨ deref r = NUL →
  ∀ p, cstr p = e ++ cstr r →
  elements_of p = take (Z.to_nat (DIRSIZ - 1)) e :: elements_of (skip_slashes r).
Proof.
  intros He Hne Hr p Hp. rewrite elements_skip. unfold elements_of. rewrite Hp, (cstr_deref r).
  destruct Hr as [Hr|Hr]; rewrite Hr.
  - change (SLASH =? NUL) with false. cbn iota. rewrite split_app_slash by done.
    rewrite filter_cons_True by done. cbn [fmap list_fmap]. by f_equal.
  - change (NUL =? NUL) with true. cbn iota. rewrite app_nil_r, split_last by done.
    by rewrite filter_cons_True by done.
Qed.

(** What [skipelem] does to the elements of a path. *)
Lemma skipelem_spec path :
  match skipelem path with
  | None => elements_of path = []
  | Some (name, rest) =>
    elements_of path = name :: elements_of rest ∧ deref rest ≠ SLASH
    ∧ (length rest < length path)%nat ∧ name ≠ [] ∧ (length name < Z.to_nat DIRSIZ)%nat
  end.
Proof.
  unfold skipelem. destruct (Z.eqb_spec (deref path) NUL) as [E|E].
  { unfold elements_of. by rewrite cstr_deref, E. }
  rewrite <- (elements_skip path). pose proof (deref_skip path) as Hds.
  pose proof (skip_length path) as Hl. set (start := skip_slashes path) in *.
  destruct (Z.eqb_spec (deref start) NUL) as [E1|E1].
  { unfold elements_of. by rewrite cstr_deref, E1. }
  destruct (find_end start) as [e r] eqn:Ef.
  destruct (find_end_spec _ _ _ Ef) as (Es & Ec & He & Hr).
  assert (e ≠ []) as Hne. { intros ->. cbn in Es. subst r. destruct Hr; congruence. }
  assert (0 < length e)%nat by (destruct e; cbn; [done|lia]).
  set (len := if DIRSIZ <=? _ then _ else _).
  assert (strncpy start (Z.to_nat len) = take (Z.to_nat (DIRSIZ - 1)) e) as ->.
  { rewrite strncpy_spec, Ec. unfold len. rewrite length_app.
    destruct (Z.leb_spec DIRSIZ (Z.of_nat (length e))).
    - rewrite take_app_le by (unfold DIRSIZ in *; lia).
      replace (_ - _)%nat with 0%nat by (unfold DIRSIZ in *; lia). by rewrite app_nil_r.
    - rewrite Nat2Z.id, take_app_length, take_ge by (unfold DIRSIZ in *; lia).
      replace (_ - _)%nat with 0%nat by lia. by rewrite app_nil_r. }
  split_and!.
  - by apply elements_elem.
  - apply deref_skip.
  - pose proof (skip_length r). rewrite Es, length_app in Hl. lia.
  - destruct e; [done|]. by unfold DIRSIZ.
  - rewrite length_take. unfold DIRSIZ. lia.
Qed.

(** The loop of [namex] over a path. *)
Fixpoint path_names (fuel : nat) (path : list Z) : option (list (list Z)) :=
  match skipelem path with
  | None => Some []
  | Some (name, rest) =>
    match fuel with
    | O => None
    | S fuel => names ← path_names fuel rest; Some (name :: names)
    end
  end.

(** Path names.  Calling [skipelem] until it returns the null pointer takes
    at most as many calls as the path has characters and yields the elements of
    the path in order: what lies between slashes, empty parts left out, cut after
    thirteen characters. *)
Theorem skipelem_elements path : path_names (length path) path = Some (elements_of path).
Proof.
  remember (length path) as n eqn:En. assert (length path ≤ n)%nat as Hn by lia. clear En.
  revert path Hn. induction n as [|n IH]; intros path Hn; cbn [path_names];
    pose proof (skipelem_spec path) as Hs; destruct (skipelem path) as [[name rest]|];
    [lia|by rewrite Hs| |by rewrite Hs].
  destruct Hs as (-> & _ & Hl & _). by rewrite IH by lia.
Qed.

(** String functions.  For strings of bytes, [strcmp] is zero exactly on equal
    strings and negative exactly when the first comes before the second in the
    dictionary; [strncmp] compares the first [n] characters; [strncpy] writes
    exactly [n] bytes, the string cut or padded with zeros, and comparing them with
    the original finds no difference. *)
Theorem string_functions_correct p q n :
  Forall is_byte p → Forall is_byte q →
  (strcmp p q = 0 ↔ cstr p = cstr q) ∧ (strcmp p q < 0 ↔ str_lt (cstr p) (cstr q))
  ∧ (strncmp p q n = 0 ↔ take n (cstr p) = take n (cstr q))
  ∧ strncpy p n = take n (cstr p) ++ replicate (n - length (cstr p)) 0
  ∧ length (strncpy p n) = n ∧ strncmp (strncpy p n) p n = 0.
Proof.
  intros Hp Hq. destruct (strcmp_spec p q Hp Hq) as [H1 H2].
  split_and!; [done|done|by apply strncmp_spec|apply strncpy_spec|apply strncpy_length|].
  apply strncmp_spec; [by apply strncpy_bytes|done|]. rewrite cstr_strncpy, take_take.
  by rewrite Nat.min_id.
Qed.

(** The examples in the comment of [skipelem]. *)
Lemma skipelem_examples :
  skipelem [97; 47; 98; 98; 47; 99] = Some ([97], [98; 98; 47; 99])
  ∧ skipelem [47; 47; 47; 97; 47; 47; 98; 98] = Some ([97], [98; 98])
  ∧ skipelem [97] = Some ([97], []) ∧ skipelem [] = None ∧ skipelem [47; 47; 47; 47] = None.
Proof. by vm_compute. Qed.
