(* ===== verification/Resume.v ===== *)
(** * Kernel code that can switch threads

    A kernel thread runs until it calls [kctx_switch]; other threads then run
    and change the shared state before it resumes.  [K] is a tree of such runs:
    a switch carries the continuation of the thread that called it.  [kok] is
    the condition one thread's code has to meet for an invariant of the whole
    system: it establishes the invariant at every switch and may rely on it
    when it is resumed.  File System puts the threads together. *)

From S2P Require Import Prelude.

Inductive K (S A : Type) : Type :=
| KRet (a : A) (s : S)
| KErr (e : fault)
| KSwitch (from to : Z) (s : S) (k : S → K S A).
Arguments KRet {S A} _ _.
Arguments KErr {S A} _.
Arguments KSwitch {S A} _ _ _ _.

(** Code that can switch, as a function of the shared state. *)
Definition KM (S A : Type) : Type := S → K S A.

Fixpoint kbind {S A B} (t : K S A) (f : A → KM S B) : K S B :=
  match t with
  | KRet a s => f a s
  | KErr e => KErr e
  | KSwitch from to s k => KSwitch from to s (λ s', kbind (k s') f)
  end.

#[export] Instance KM_ret {S} : MRet (KM S) := λ A a s, KRet a s.
#[export] Instance KM_bind {S} : MBind (KM S) := λ A B f m s, kbind (m s) f.

(** Code that does not switch. *)
Definition run {S A} (m : M S A) : KM S A := λ s,
  match m s with
  | Ok (a, s') => KRet a s'
  | Err e => KErr e
  end.

Definition kfail {S A} (e : fault) : KM S A := λ s, KErr e.

(** The calling thread [from] is suspended and [to] continues. *)
Definition kswitch {S} (from to : Z) : KM S unit := λ s,
  KSwitch from to s (λ s', KRet tt s').

(** A component inside a larger state. *)
Fixpoint klift_tree {S T A} (l : lens S T) (s : S) (t : K T A) : K S A :=
  match t with
  | KRet a t' => KRet a (lset l t' s)
  | KErr e => KErr e
  | KSwitch from to t' k =>
    KSwitch from to (lset l t' s) (λ s', klift_tree l s' (k (lget l s')))
  end.

Definition klift {S T A} (l : lens S T) (m : KM T A) : KM S A := λ s,
  klift_tree l s (m (lget l s)).

(** ** One thread's code against the rest of the system

    [G from to s]: what holds when [from] hands over to [to]; [R pid s]: what
    [pid] may rely on when it is resumed; [E]: the faults that are tolerated. *)
Section Kok.
Context {S : Type} (E : fault → Prop) (G : Z → Z → S → Prop) (R : Z → S → Prop).

Fixpoint kok {A} (Q : A → S → Prop) (t : K S A) : Prop :=
  match t with
  | KRet a s => Q a s
  | KErr e => E e
  | KSwitch from to s k => G from to s ∧ ∀ s', R from s' → kok Q (k s')
  end.

Lemma kok_mono {A} (P Q : A → S → Prop) t :
  kok P t → (∀ a s, P a s → Q a s) → kok Q t.
Proof.
  intros Hp HPQ. induction t as [a s|e|from to s k IH]; cbn in *; [auto|done|].
  destruct Hp as [HG Hk]. split; [done|]. intros s' Hs'. apply IH. by apply Hk.
Qed.

Lemma kok_bind_tree {A B} (t : K S A) (f : A → KM S B) Q :
  kok (λ a s, kok Q (f a s)) t → kok Q (kbind t f).
Proof.
  induction t as [a s|e|from to s k IH]; cbn; [done|done|].
  intros [HG Hk]. split; [done|]. intros s' Hs'. by apply IH, Hk.
Qed.

Lemma kok_bind {A B} (m : KM S A) (f : A → KM S B) Q s :
  kok (λ a s, kok Q (f a s)) (m s) → kok Q ((m ≫= f) s).
Proof. apply kok_bind_tree. Qed.

Lemma kok_ret {A} (a : A) Q s : Q a s → kok Q (mret (M:=KM S) a s).
Proof. done. Qed.

Lemma kok_run {A} (m : M S A) Q s : wpe E m Q s → kok Q (run m s).
Proof. unfold wpe, run. by destruct (m s) as [[a s']|e]. Qed.

Lemma kok_switch from to Q s :
  G from to s → (∀ s', R from s' → Q tt s') → kok Q (kswitch from to s).
Proof. done. Qed.
End Kok.
