(* ===== verification/Spinlock.v ===== *)
(** * Spinlocks (kern/lib/spinlock.c)

    The kernel runs on the boot processor only (the loop of kern_main that
    starts the others is commented out) and with interrupts off, so a lock that
    is found held is never released by anyone else: acquiring it is the
    [Deadlock] outcome. *)

From S2P Require Import Prelude.

(** kern/lib/x86.h *)
Definition NUM_CPUS : Z := 8.
Definition NUM_IDS : Z := 64.

(** The index stored in the kernel stack of every thread, that of the boot
    processor. *)
Definition this_cpu : Z := 0.

(** [spinlock_t] *)
Record spinlock := Spinlock { lock_holder : Z; lock : Z }.

#[export] Instance zeroed_spinlock : Zeroed spinlock := Spinlock 0 0.

(** [xchg(&lk->lock, v)]: the old value of the word. *)
Definition xchg_lock (v : Z) : M spinlock Z :=
  old ← gets lock;
  _ ← modify (λ lk, Spinlock (lock_holder lk) v);
  mret old.

Definition spinlock_init : M spinlock unit :=
  modify (λ _, Spinlock (NUM_CPUS + 1) 0).

Definition spinlock_holding : M spinlock bool :=
  v ← gets lock;
  if v =? 0 then mret false
  else h ← gets lock_holder; mret (h =? this_cpu).

Definition spinlock_acquire_A (name : string) : M spinlock unit :=
  old ← xchg_lock 1;
  if negb (old =? 0) then fail (Deadlock name)
  else modify (λ lk, Spinlock this_cpu (lock lk)).

Definition spinlock_try_acquire_A : M spinlock Z :=
  old_val ← xchg_lock 1;
  _ ← (if old_val =? 0
       then modify (λ lk, Spinlock this_cpu (lock lk))
       else mret tt);
  mret old_val.

Definition spinlock_release_A : M spinlock unit :=
  _ ← modify (λ lk, Spinlock (NUM_CPUS + 1) (lock lk));
  _ ← xchg_lock 0;
  mret tt.

Definition spinlock_acquire (name : string) : M spinlock unit := spinlock_acquire_A name.
Definition spinlock_release : M spinlock unit := spinlock_release_A.
Definition spinlock_try_acquire : M spinlock Z := spinlock_try_acquire_A.

Definition unlocked (lk : spinlock) : Prop := lock lk = 0.
#[export] Instance unlocked_dec lk : Decision (unlocked lk).
Proof. unfold unlocked. apply _. Defined.
Definition locked : spinlock := Spinlock this_cpu 1.
Definition released : spinlock := Spinlock (NUM_CPUS + 1) 0.

Lemma wp_spinlock_acquire name Q lk :
  unlocked lk → Q tt locked → wp (spinlock_acquire name) Q lk.
Proof. destruct lk as [h l]. unfold unlocked. cbn. by intros ->. Qed.

Lemma wp_spinlock_release Q lk : Q tt released → wp spinlock_release Q lk.
Proof. done. Qed.

Lemma wp_spinlock_init Q lk : Q tt released → wp spinlock_init Q lk.
Proof. done. Qed.

Lemma unlocked_released : unlocked released.
Proof. done. Qed.
#[export] Hint Resolve unlocked_released : kern.

Ltac bounds ::= first [done | lia | unfold NUM_IDS, NUM_CPUS, this_cpu in *; lia].

Ltac wp_lock :=
  lazymatch goal with
  | |- wp (spinlock_acquire _) _ _ => apply wp_spinlock_acquire; [first [done | assumption]|]
  | |- wp spinlock_release _ _ => apply wp_spinlock_release
  | |- wp spinlock_init _ _ => apply wp_spinlock_init
  end.
