(* ===== verification/PhysMap.v ===== *)
(** * The BIOS memory map (kern/dev/mboot.c)

    The e820 regions handed over by the boot loader, kept sorted by start
    address, merged, and read back by index by the physical memory manager.
    A list of slots stands for the singly linked [pmmap_list]. *)

From S2P Require Import Prelude Memory.
From Stdlib Require Import Sorted.

Definition MEM_RAM : Z := 1.
Definition MEM_RESERVED : Z := 2.
Definition MEM_ACPI : Z := 3.
Definition MEM_NVS : Z := 4.

(** [struct pmmap]; the [next] links are the list structure. *)
Record pmmap := Pmmap { pm_start : Z; pm_end : Z; pm_type : Z }.

#[export] Instance zeroed_list {A} : Zeroed (list A) := [].

(** The statics of mboot.c. *)
Record physmap := PhysMap {
  pmmap_slots_next_free : Z;
  pmmap_list : list pmmap;
  pmmap_sublist : gmap Z (list pmmap);
  max_usable_memory : Z;
  mem_npages : Z;
  pmmap_nentries : Z
}.

Definition boot_physmap : physmap := PhysMap 0 [] ∅ 0 0 0.

Definition PMMAP_USABLE : Z := 0.

Definition PMMAP_SUBLIST_NR (type : Z) : Z :=
  if type =? MEM_RAM then 0
  else if type =? MEM_RESERVED then 1
  else if type =? MEM_ACPI then 2
  else if type =? MEM_NVS then 3
  else -1.

(** Returns [false] where the code returns [NULL]. *)
Definition pmmap_alloc_slot : M physmap bool :=
  n ← gets pmmap_slots_next_free;
  if n =? 128 then mret false
  else
    _ ← modify (λ s, PhysMap (n + 1) (pmmap_list s) (pmmap_sublist s)
                       (max_usable_memory s) (mem_npages s) (pmmap_nentries s));
    mret true.

(** The [SLIST_FOREACH] of [pmmap_insert] and the insertion after the last slot
    it passed. *)
Fixpoint pmmap_place (e : pmmap) (l : list pmmap) : list pmmap :=
  match l with
  | [] => [e]
  | slot :: l' => if pm_start e <? pm_start slot then e :: l else slot :: pmmap_place e l'
  end.

Definition pmmap_insert (start end_ type : Z) : M physmap unit :=
  ok ← pmmap_alloc_slot;
  if negb ok then fail (Panic "More than 128 E820 entries.")
  else modify (λ s, PhysMap (pmmap_slots_next_free s)
                      (pmmap_place (Pmmap start end_ type) (pmmap_list s))
                      (pmmap_sublist s) (max_usable_memory s) (mem_npages s)
                      (pmmap_nentries s)).

(** Step 1 of [pmmap_merge]: a slot absorbs its successor at most once, then
    the scan moves on. *)
Fixpoint pmmap_merge_overlap (l : list pmmap) : list pmmap :=
  match l with
  | slot :: ((next_slot :: rest) as l') =>
    if (pm_start slot <=? pm_start next_slot) && (pm_start next_slot <=? pm_end slot)
       && (pm_type slot =? pm_type next_slot)
    then Pmmap (pm_start slot) (Z.max (pm_end slot) (pm_end next_slot)) (pm_type slot)
           :: pmmap_merge_overlap rest
    else slot :: pmmap_merge_overlap l'
  | _ => l
  end.

(** Step 2: append every slot to the list of its type. *)
Fixpoint pmmap_classify (l : list pmmap) : M physmap unit :=
  match l with
  | [] => mret tt
  | slot :: l' =>
    let nr := PMMAP_SUBLIST_NR (pm_type slot) in
    _ ← kassert (negb (nr =? -1)) "sublist_nr != -1";
    _ ← modify (λ s, PhysMap (pmmap_slots_next_free s) (pmmap_list s)
                       (<[nr := aget (pmmap_sublist s) nr ++ [slot]]> (pmmap_sublist s))
                       (max_usable_memory s) (mem_npages s) (pmmap_nentries s));
    pmmap_classify l'
  end.

Definition pmmap_merge : M physmap unit :=
  _ ← modify (λ s, PhysMap (pmmap_slots_next_free s)
                     (pmmap_merge_overlap (pmmap_list s)) (pmmap_sublist s)
                     (max_usable_memory s) (mem_npages s) (pmmap_nentries s));
  l ← gets pmmap_list;
  _ ← pmmap_classify l;
  usable ← gets (λ s, aget (pmmap_sublist s) PMMAP_USABLE);
  match last usable with
  | Some slot =>
    modify (λ s, PhysMap (pmmap_slots_next_free s) (pmmap_list s) (pmmap_sublist s)
                   (pm_end slot) (mem_npages s) (pmmap_nentries s))
  | None => mret tt
  end.

(** The copy loop of [pmmap_init]: one 24-byte [mboot_mmap_t] per turn. *)
Fixpoint pmmap_read (fuel : nat) (m : mem) (mmap_addr mmap_length p : Z) : M physmap unit :=
  if u32 (p - mmap_addr) <? mmap_length then
    match fuel with
    | O => fail OutOfFuel
    | S fuel =>
      let base_addr_low := read32 m (p + 4) in
      let base_addr_high := read32 m (p + 8) in
      let length_low := read32 m (p + 12) in
      let length_high := read32 m (p + 16) in
      let type := read32 m (p + 20) in
      _ ← (if negb (base_addr_high =? 0) then mret tt
           else
             let start := base_addr_low in
             let end_ := if negb (length_high =? 0) || (4294967295 - start <=? length_low)
                         then 4294967295 else start + length_low in
             pmmap_insert start end_ type);
      pmmap_read fuel m mmap_addr mmap_length (u32 (p + 24))
    end
  else mret tt.

Definition PAGESIZE : Z := 4096.

Definition rounddown (a n : Z) : Z := u32 (a - a mod n).
Definition roundup (a n : Z) : Z := rounddown (u32 (a + n - 1)) n.

Definition pmmap_init (m : mem) (mbi_addr : Z) : M physmap unit :=
  let mmap_length := read32 m (mbi_addr + 44) in
  let mmap_addr := read32 m (mbi_addr + 48) in
  _ ← modify (λ s, PhysMap (pmmap_slots_next_free s) [] ∅ (max_usable_memory s)
                     (mem_npages s) (pmmap_nentries s));
  _ ← pmmap_read (Z.to_nat (mmap_length / 24 + 1)) m mmap_addr mmap_length mmap_addr;
  _ ← pmmap_merge;
  modify (λ s, PhysMap (pmmap_slots_next_free s) (pmmap_list s) (pmmap_sublist s)
                 (max_usable_memory s)
                 (rounddown (max_usable_memory s) PAGESIZE / PAGESIZE)
                 (pmmap_nentries s + Z.of_nat (length (pmmap_list s)))).

(** ** Reading the map back *)

Definition get_size (s : physmap) : Z := pmmap_nentries s.

(** The slot the [SLIST_FOREACH] of the getters stops at. *)
Fixpoint slot_at (l : list pmmap) (i idx : Z) : option pmmap :=
  match l with
  | [] => None
  | slot :: l' => if i =? idx then Some slot else slot_at l' (i + 1) idx
  end.

Definition slot_get (s : physmap) (idx : Z) : option pmmap :=
  if idx =? pmmap_nentries s then None else slot_at (pmmap_list s) 0 idx.

Definition get_mms (s : physmap) (idx : Z) : Z :=
  match slot_get s idx with Some slot => pm_start slot | None => 0 end.

Definition get_mml (s : physmap) (idx : Z) : Z :=
  match slot_get s idx with Some slot => u32 (pm_end slot - pm_start slot) | None => 0 end.

Definition is_usable (s : physmap) (idx : Z) : Z :=
  match slot_get s idx with Some slot => cbool (pm_type slot =? MEM_RAM) | None => 0 end.

(** ** Properties *)

Definition starts_before (a b : pmmap) : Prop := pm_start a ≤ pm_start b.

(** An address lies in a region of the given type. *)
Definition covers (l : list pmmap) (t a : Z) : Prop :=
  Exists (λ r, pm_type r = t ∧ pm_start r ≤ a < pm_end r) l.

Lemma pmmap_place_sorted e l :
  Sorted starts_before l → Sorted starts_before (pmmap_place e l).
Proof.
  induction 1 as [|x l Hs IH Hhd]; cbn [pmmap_place]; [by repeat constructor|].
  destruct (Z.ltb_spec (pm_start e) (pm_start x)).
  - repeat constructor; [done|done|]. unfold starts_before. lia.
  - constructor; [done|]. destruct Hhd as [|y l Hxy]; cbn [pmmap_place].
    { by constructor. }
    destruct (pm_start e <? pm_start y); by constructor.
Qed.

Lemma pmmap_place_perm e l : pmmap_place e l ≡ₚ e :: l.
Proof.
  induction l as [|x l IH]; cbn [pmmap_place]; [done|].
  case_match; [done|]. rewrite IH. apply Permutation_swap.
Qed.

Lemma covers_cons r l t a :
  covers (r :: l) t a ↔ (pm_type r = t ∧ pm_start r ≤ a < pm_end r) ∨ covers l t a.
Proof. apply Exists_cons. Qed.

(** Merging neither loses nor invents memory. *)
Lemma pmmap_merge_covers n l t a :
  (length l ≤ n)%nat → covers (pmmap_merge_overlap l) t a ↔ covers l t a.
Proof.
  revert l. induction n as [|n IH]; intros [|x [|y l]] Hn; cbn in Hn;
    try lia; try done.
  cbn [pmmap_merge_overlap].
  destruct ((pm_start x <=? pm_start y) && (pm_start y <=? pm_end x)
            && (pm_type x =? pm_type y)) eqn:E.
  - apply andb_true_iff in E as [[E1%Z.leb_le E2%Z.leb_le]%andb_true_iff E3%Z.eqb_eq].
    rewrite !covers_cons, IH by lia. cbn [pm_start pm_end pm_type]. rewrite <- E3.
    split.
    + intros [[-> ?]|?]; [|auto]. destruct (decide (a < pm_end x)); [left; lia|].
      right; left. lia.
    + intros [[-> ?]|[[-> ?]|?]]; [left; lia|left; lia|by right].
  - rewrite (covers_cons x), (covers_cons x (y :: l)).
    by rewrite (IH (y :: l)) by (cbn; lia).
Qed.

(** ** The map that [pmmap_init] leaves *)

Definition region_ok (r : pmmap) : Prop := 0 ≤ pm_start r ≤ pm_end r ∧ pm_end r < two32.

Definition physmap_ok (s : physmap) : Prop :=
  Forall region_ok (pmmap_list s) ∧ pmmap_nentries s = Z.of_nat (length (pmmap_list s)).

Lemma slot_at_lookup l i idx :
  i ≤ idx → slot_at l i idx = l !! Z.to_nat (idx - i).
Proof.
  revert i. induction l as [|x l IH]; intros i Hi; cbn [slot_at]; [done|].
  destruct (Z.eqb_spec i idx) as [->|]; [by rewrite Z.sub_diag|].
  rewrite IH by lia.
  by replace (Z.to_nat (idx - i)) with (S (Z.to_nat (idx - (i + 1)))) by lia.
Qed.

Lemma slot_get_lookup s idx :
  physmap_ok s → 0 ≤ idx → slot_get s idx = pmmap_list s !! Z.to_nat idx.
Proof.
  intros [_ Hn] Hi. unfold slot_get. rewrite slot_at_lookup, Z.sub_0_r by done.
  destruct (Z.eqb_spec idx (pmmap_nentries s)) as [->|]; [|done].
  rewrite Hn, Nat2Z.id. symmetry. by apply lookup_ge_None_2.
Qed.

Lemma wp_pmmap_insert s start end_ type Q :
  pmmap_slots_next_free s ≠ 128 →
  Q tt (PhysMap (pmmap_slots_next_free s + 1)
          (pmmap_place (Pmmap start end_ type) (pmmap_list s)) (pmmap_sublist s)
          (max_usable_memory s) (mem_npages s) (pmmap_nentries s)) →
  wp (pmmap_insert start end_ type) Q s.
Proof.
  intros Hn HQ. unfold pmmap_insert, pmmap_alloc_slot. wp_steps.
  rewrite (proj2 (Z.eqb_neq _ _)) by done. by wp_steps.
Qed.

Lemma pmmap_insert_panic s start end_ type :
  pmmap_slots_next_free s = 128 →
  pmmap_insert start end_ type s = Err (Panic "More than 128 E820 entries.").
Proof.
  intros Hn. unfold pmmap_insert, pmmap_alloc_slot, mbind, M_bind, gets. by rewrite Hn.
Qed.

Lemma Forall_place e l : region_ok e → Forall region_ok l → Forall region_ok (pmmap_place e l).
Proof. intros. rewrite pmmap_place_perm. by constructor. Qed.

Lemma Forall_merge n l :
  (length l ≤ n)%nat → Forall region_ok l → Forall region_ok (pmmap_merge_overlap l).
Proof.
  revert l. induction n as [|n IH]; intros [|x [|y l]] Hn Hf; cbn in Hn; try lia; try done.
  cbn [pmmap_merge_overlap]. inversion_clear Hf as [|? ? Hx Hf']. case_match.
  - inversion_clear Hf' as [|? ? Hy Hl]. constructor; [|by apply IH; [lia|]].
    unfold region_ok in *. cbn [pm_start pm_end]. lia.
  - constructor; [done|]. apply (IH (y :: l)); [cbn; lia|done].
Qed.

(** What the copy loop keeps: regions within 32 bits, sorted by start. *)
Definition reading (s : physmap) : Prop :=
  Forall region_ok (pmmap_list s) ∧ Sorted starts_before (pmmap_list s)
  ∧ pmmap_nentries s = 0.

Lemma pmmap_read_reading fuel m addr len p s s' :
  reading s → pmmap_read fuel m addr len p s = Ok (tt, s') → reading s'.
Proof.
  revert p s. induction fuel as [|fuel IH]; intros p s Hs; cbn [pmmap_read].
  { case_match; [done|]. by intros [= <-]. }
  case_match; [|by intros [= <-]].
  unfold mbind, M_bind. destruct (negb (read32 m (p + 8) =? 0)); [by apply IH|].
  set (e := if _ || _ then _ else _).
  destruct (decide (pmmap_slots_next_free s = 128)) as [E|E].
  { by rewrite pmmap_insert_panic. }
  pose proof (wp_pmmap_insert s (read32 m (p + 4)) e (read32 m (p + 20))
    (λ _ s1, reading s1) E) as Hi.
  unfold wp in Hi. destruct (pmmap_insert _ _ _ s) as [[[] s1]|]; [|done].
  apply IH, Hi. destruct Hs as (? & ? & ?). unfold reading; cbn.
  split_and!; [apply Forall_place; [|done]|by apply pmmap_place_sorted|done].
  unfold region_ok; cbn. pose proof (read32_range m (p + 4)).
  pose proof (read32_range m (p + 12)). unfold is_u32, two32 in *. subst e.
  destruct (negb _); cbn [orb]; [lia|]. case_cmp; lia.
Qed.

Lemma pmmap_classify_list l s s' :
  pmmap_classify l s = Ok (tt, s') →
  pmmap_list s' = pmmap_list s ∧ pmmap_nentries s' = pmmap_nentries s.
Proof.
  revert s. induction l as [|x l IH]; intros s; cbn [pmmap_classify].
  { by intros [= <-]. }
  intros Hc. inv_run Hc. by apply IH in Hc.
Qed.

Lemma pmmap_merge_list s s' :
  pmmap_merge s = Ok (tt, s') →
  pmmap_list s' = pmmap_merge_overlap (pmmap_list s) ∧ pmmap_nentries s' = pmmap_nentries s.
Proof.
  unfold pmmap_merge, mbind, M_bind. cbn.
  destruct (pmmap_classify _ _) as [[[] s1]|] eqn:E; [|done].
  apply pmmap_classify_list in E as [E1 E2]. cbn in *.
  destruct (last _); intros [= <-]; cbn; by rewrite E1, E2.
Qed.

Lemma pmmap_init_ok m mbi s :
  pmmap_init m mbi boot_physmap = Ok (tt, s) → physmap_ok s.
Proof.
  unfold pmmap_init, mbind, M_bind. cbn [modify].
  destruct (pmmap_read _ _ _ _ _ _) as [[[] s1]|] eqn:E1; [|done].
  destruct (pmmap_merge s1) as [[[] s2]|] eqn:E2; [|done]. intros [= <-].
  apply pmmap_read_reading in E1 as (Hf & _ & Hn); [|by repeat constructor].
  apply pmmap_merge_list in E2 as [E2 E3]. split; cbn.
  - rewrite E2. by eapply Forall_merge.
  - by rewrite E3, Hn.
Qed.

(** ** Claims *)

(** The copy loop keeps the regions sorted by start address and within 32
    bits, however the boot loader ordered them. *)
Lemma pmmap_read_sorted (fuel : nat) (m : mem) (addr len p : Z) (s s' : physmap) :
  pmmap_nentries s = 0 → Forall region_ok (pmmap_list s) →
  Sorted starts_before (pmmap_list s) →
  pmmap_read fuel m addr len p s = Ok (tt, s') →
  Sorted starts_before (pmmap_list s') ∧ Forall region_ok (pmmap_list s').
Proof. intros Hn Hf Hs Hr. apply pmmap_read_reading in Hr as (? & ? & ?); done. Qed.

(** [pmmap_merge] neither loses nor invents memory: an address is covered
    by a region of a type after it exactly when it was before. *)
Theorem pmmap_merge_same_memory (s s' : physmap) (t a : Z) :
  pmmap_merge s = Ok (tt, s') →
  covers (pmmap_list s') t a ↔ covers (pmmap_list s) t a.
Proof.
  intros [-> _]%pmmap_merge_list. by apply (pmmap_merge_covers (length (pmmap_list s))).
Qed.

