(* ===== verification/Pmm.v ===== *)
(** * Physical page allocator (kern/pmm/MATIntro, MATInit, MATOp)

    The allocation table [AT], its initialisation from the memory map, and the
    next-fit allocator [palloc]/[pfree].  The proofs relate the scan of
    [palloc] to the set of free pages. *)

From S2P Require Import Prelude Memory Spinlock PhysMap.

(** ** State *)

(** [struct ATStruct] *)
Record ATStruct := At { perm : Z; allocated : Z }.

#[export] Instance zeroed_ATStruct : Zeroed ATStruct := At 0 0.

(** The statics of MATIntro.c and MATOp.c, and the memory map below them. *)
Record pmm := Pmm {
  mem_lk : spinlock;
  NUM_PAGES : Z;
  AT : gmap Z ATStruct;
  last_palloc_index : Z;
  pmm_map : physmap
}.

Definition boot_pmm : pmm := Pmm zero 0 ∅ 262144 boot_physmap.

Definition set_AT (at_ : gmap Z ATStruct) (s : pmm) : pmm :=
  Pmm (mem_lk s) (NUM_PAGES s) at_ (last_palloc_index s) (pmm_map s).
Definition set_last (i : Z) (s : pmm) : pmm :=
  Pmm (mem_lk s) (NUM_PAGES s) (AT s) i (pmm_map s).
Definition set_NUM_PAGES (n : Z) (s : pmm) : pmm :=
  Pmm (mem_lk s) n (AT s) (last_palloc_index s) (pmm_map s).

Definition l_mem_lk : lens pmm spinlock :=
  Lens mem_lk (λ lk s, Pmm lk (NUM_PAGES s) (AT s) (last_palloc_index s) (pmm_map s)).
Definition l_pmm_map : lens pmm physmap :=
  Lens pmm_map (λ m s, Pmm (mem_lk s) (NUM_PAGES s) (AT s) (last_palloc_index s) m).

(** The length of [AT]. *)
Definition AT_SIZE : Z := 1048576.

Ltac bounds ::= first [done | lia | unfold AT_SIZE, NUM_IDS, NUM_CPUS, this_cpu in *; lia].

(** ** MATIntro.c *)

Definition mem_spinlock_init : M pmm unit := lift l_mem_lk spinlock_init.
Definition mem_lock : M pmm unit := lift l_mem_lk (spinlock_acquire "mem_lk").
Definition mem_unlock : M pmm unit := lift l_mem_lk spinlock_release.

Definition get_nps : M pmm Z := gets NUM_PAGES.
Definition set_nps (nps : Z) : M pmm unit := modify (set_NUM_PAGES nps).

Definition at_is_norm (page_index : Z) : M pmm Z :=
  _ ← chk "AT" AT_SIZE page_index;
  tperm ← gets (λ s, perm (aget (AT s) page_index));
  mret (if tperm =? 0 then 0 else if tperm =? 1 then 0 else 1).

Definition at_set_perm (page_index norm_val : Z) : M pmm unit :=
  _ ← chk "AT" AT_SIZE page_index;
  modify (λ s, set_AT (<[page_index := At norm_val 0]> (AT s)) s).

Definition at_is_allocated (page_index : Z) : M pmm Z :=
  _ ← chk "AT" AT_SIZE page_index;
  a ← gets (λ s, allocated (aget (AT s) page_index));
  mret (if a =? 0 then 0 else 1).

Definition at_set_allocated (page_index a : Z) : M pmm unit :=
  _ ← chk "AT" AT_SIZE page_index;
  modify (λ s, set_AT (<[page_index := At (perm (aget (AT s) page_index)) a]> (AT s)) s).

(** ** MATInit.c *)

Definition VM_USERLO : Z := 1073741824.
Definition VM_USERHI : Z := 4026531840.
Definition VM_USERLO_PI : Z := 262144.
Definition VM_USERHI_PI : Z := 983040.

(** The first loop of [pmem_init]: the highest page any region reaches. *)
Fixpoint pmem_max_page (n : nat) (pm : physmap) (i nps : Z) : Z :=
  match n with
  | O => nps
  | S n =>
    let s := get_mms pm i in
    let l := get_mml pm i in
    let maxs := u32 (u32 (s + l) / PAGESIZE + 1) in
    pmem_max_page n pm (i + 1) (if nps <? maxs then maxs else nps)
  end.

(** The inner loop: the first region that holds the whole of page [i]. *)
Fixpoint pmem_find_range (n : nat) (pm : physmap) (i j flag isnorm : Z) : Z * Z :=
  match n with
  | O => (flag, isnorm)
  | S n =>
    if flag =? 0 then
      let s := get_mms pm j in
      let l := get_mml pm j in
      let flag' := if (s <=? u32 (i * PAGESIZE)) && (u32 ((i + 1) * PAGESIZE) <=? u32 (l + s))
                   then 1 else flag in
      pmem_find_range n pm i (j + 1) flag' (is_usable pm j)
    else (flag, isnorm)
  end.

Definition pmem_init_page (pm : physmap) (i : Z) : M pmm unit :=
  if (i <? VM_USERLO_PI) || (VM_USERHI_PI <=? i) then at_set_perm i 1
  else
    let '(flag, isnorm) := pmem_find_range (Z.to_nat (get_size pm)) pm i 0 0 0 in
    if (flag =? 1) && (isnorm =? 1) then at_set_perm i 2 else at_set_perm i 0.

(** Of [devinit], the part this state depends on is [pmmap_init]. *)
Definition pmem_init (m : mem) (mbi_addr : Z) : M pmm unit :=
  _ ← lift l_pmm_map (pmmap_init m mbi_addr);
  _ ← mem_spinlock_init;
  pm ← gets pmm_map;
  let nps := pmem_max_page (Z.to_nat (get_size pm)) pm 0 0 in
  _ ← set_nps nps;
  for_range 0 nps (pmem_init_page pm).

(** ** MATOp.c *)

(** The [while] of [palloc]; [free] is [palloc_free_index]. *)
Fixpoint palloc_scan (fuel : nat) (tnps idx free : Z) : M pmm Z :=
  if (idx <? tnps) && (free =? tnps) then
    match fuel with
    | O => fail OutOfFuel
    | S fuel =>
      palloc_is_norm ← at_is_norm idx;
      free' ← (if palloc_is_norm =? 1 then
                 palloc_cur_at ← at_is_allocated idx;
                 mret (if palloc_cur_at =? 0 then idx else free)
               else mret free);
      palloc_scan fuel tnps (u32 (idx + 1)) free'
    end
  else mret free.

Definition palloc : M pmm Z :=
  _ ← mem_lock;
  tnps ← get_nps;
  last ← gets last_palloc_index;
  let palloc_index := u32 (last + 1) in
  found ← palloc_scan (Z.to_nat (tnps - palloc_index)) tnps palloc_index tnps;
  palloc_free_index ←
    (if found =? tnps then mret 0
     else _ ← at_set_allocated found 1; mret found);
  _ ← (if tnps =? 0 then fail DivByZero
       else modify (set_last (palloc_free_index mod tnps)));
  _ ← mem_unlock;
  mret palloc_free_index.

Definition pfree (pfree_index : Z) : M pmm unit :=
  _ ← mem_lock;
  _ ← at_set_allocated pfree_index 0;
  mem_unlock.

(** ** Specification: the set of free pages *)

Definition is_norm (a : ATStruct) : bool := negb (perm a =? 0) && negb (perm a =? 1).

(** A page the allocator may hand out. *)
Definition free_page (s : pmm) (i : Z) : bool :=
  is_norm (aget (AT s) i) && (allocated (aget (AT s) i) =? 0).

Record pmm_ok (s : pmm) : Prop := {
  ok_unlocked : unlocked (mem_lk s);
  ok_pages : 0 < NUM_PAGES s ≤ AT_SIZE;
  ok_last : 0 ≤ last_palloc_index s < AT_SIZE
}.

(** The state after handing out page [r] ([0]: none found). *)
Definition palloc_post (s : pmm) (r : Z) : pmm :=
  Pmm released (NUM_PAGES s)
    (if r =? 0 then AT s else <[r := At (perm (aget (AT s) r)) 1]> (AT s))
    r (pmm_map s).

Lemma wp_at_is_norm i Q s :
  0 ≤ i < AT_SIZE → Q (cbool (is_norm (aget (AT s) i))) s → wp (at_is_norm i) Q s.
Proof.
  intros Hi HQ. unfold at_is_norm. wp_steps.
  unfold is_norm, cbool in HQ. by repeat case_cmp.
Qed.

Lemma wp_at_is_allocated i Q s :
  0 ≤ i < AT_SIZE → Q (cbool (negb (allocated (aget (AT s) i) =? 0))) s →
  wp (at_is_allocated i) Q s.
Proof.
  intros Hi HQ. unfold at_is_allocated. wp_steps.
  unfold cbool in HQ. by repeat case_cmp.
Qed.

(** The scan stops at the first free page from [idx] on. *)
Lemma wp_palloc_scan fuel s tnps idx Q :
  0 ≤ idx → tnps ≤ AT_SIZE → tnps - idx ≤ Z.of_nat fuel →
  (∀ r, r = tnps ∨ (idx ≤ r < tnps ∧ free_page s r = true) →
     (∀ i, idx ≤ i < r → free_page s i = false) → Q r s) →
  wp (palloc_scan fuel tnps idx tnps) Q s.
Proof.
  intros Hidx Ht. revert idx Hidx.
  induction fuel as [|fuel IH]; intros idx Hidx Hf HQ; cbn [palloc_scan];
    rewrite Z.eqb_refl, andb_true_r; destruct (Z.ltb_spec idx tnps).
  - lia.
  - wp_steps. apply HQ; [by left|lia].
  - unfold AT_SIZE in Ht. apply wp_bind, wp_at_is_norm; [unfold AT_SIZE; lia|].
    rewrite (u32_small (idx + 1)) by (unfold is_u32, two32; lia).
    assert (free_page s idx = false → wp (palloc_scan fuel tnps (idx + 1) tnps) Q s) as Hnext.
    { intros Hidx'. apply IH; [lia|lia|]. intros r Hr Hno. apply HQ.
      { destruct Hr as [->|[? ?]]; [by left|right; split; [lia|done]]. }
      intros i Hi. destruct (decide (i = idx)) as [->|]; [done|]. apply Hno. lia. }
    unfold free_page in *. destruct (is_norm (aget (AT s) idx)) eqn:En; cbn [cbool Z.eqb];
      [|wp_steps; by apply Hnext].
    apply wp_bind, wp_bind, wp_at_is_allocated; [unfold AT_SIZE; lia|].
    destruct (allocated (aget (AT s) idx) =? 0) eqn:Ea; cbn [cbool negb Z.eqb];
      wp_steps; [|by apply Hnext].
    assert (palloc_scan fuel tnps (idx + 1) idx s = Ok (idx, s)) as Hstop.
    { destruct fuel; cbn [palloc_scan];
        by rewrite (proj2 (Z.eqb_neq idx tnps)), andb_false_r by lia. }
    apply (run_wp _ _ _ _ _ Hstop). apply HQ; [|lia].
    right. split; [lia|]. by rewrite En, Ea.
  - wp_steps. apply HQ; [by left|lia].
Qed.

(** [palloc] is next-fit: the first free page after the last one handed out,
    or [0] when there is none up to the end of the table. *)
Lemma wp_palloc s Q :
  pmm_ok s →
  (∀ r, r = 0 ∨ (last_palloc_index s < r < NUM_PAGES s ∧ free_page s r = true) →
     (∀ i, last_palloc_index s < i < (if r =? 0 then NUM_PAGES s else r) →
           free_page s i = false) →
     Q r (palloc_post s r)) →
  wp palloc Q s.
Proof.
  intros [Hlk Hn Hl] HQ. unfold palloc, mem_lock, get_nps, mem_unlock.
  unfold AT_SIZE in *. wp_steps. wp_lock. wp_steps. cbn.
  rewrite (u32_small (last_palloc_index s + 1)) by (unfold is_u32, two32; lia).
  apply wp_palloc_scan; [lia|unfold AT_SIZE; lia|lia|].
  unfold free_page in *. cbn. intros r Hr Hno.
  specialize (HQ (if r =? NUM_PAGES s then 0 else r)).
  assert (0 < r) by lia. unfold palloc_post in HQ.
  destruct (Z.eqb_spec r (NUM_PAGES s)) as [Hre|Hre].
  - apply wp_bind, wp_ret. rewrite (proj2 (Z.eqb_neq (NUM_PAGES s) 0)) by lia.
    wp_steps. wp_lock. wp_steps. cbn. rewrite Z.mod_0_l by lia.
    apply HQ; [by left|]. cbn. intros. apply Hno. lia.
  - destruct Hr as [?|[Hr Hfree]]; [done|]. unfold at_set_allocated.
    wp_steps.
    rewrite (proj2 (Z.eqb_neq (NUM_PAGES s) 0)) by lia. wp_steps. wp_lock. wp_steps.
    cbn. rewrite Z.mod_small by lia.
    rewrite (proj2 (Z.eqb_neq r 0)) in HQ by lia. apply HQ.
    + right. split; [lia|done].
    + intros. apply Hno. lia.
Qed.

Lemma palloc_post_ok s r :
  pmm_ok s → 0 ≤ r < NUM_PAGES s → pmm_ok (palloc_post s r).
Proof. intros [] ?. split; cbn; [done|lia|lia]. Qed.

Lemma free_page_palloc_post s r i :
  r ≠ 0 → free_page (palloc_post s r) i = free_page s i && negb (i =? r).
Proof.
  intros Hr. unfold free_page, palloc_post. cbn. rewrite (proj2 (Z.eqb_neq r 0)) by done.
  rewrite aget_insert. destruct (decide (r = i)) as [->|].
  - rewrite Z.eqb_refl. cbn. by rewrite !andb_false_r.
  - rewrite (proj2 (Z.eqb_neq i r)) by lia. by rewrite andb_true_r.
Qed.

Lemma wp_pfree s i Q :
  pmm_ok s → 0 ≤ i < AT_SIZE →
  Q tt (Pmm released (NUM_PAGES s) (<[i := At (perm (aget (AT s) i)) 0]> (AT s))
          (last_palloc_index s) (pmm_map s)) →
  wp (pfree i) Q s.
Proof.
  intros [Hlk _ _] Hi HQ. unfold pfree, mem_lock, mem_unlock, at_set_allocated.
  wp_steps. wp_lock. wp_steps. by wp_lock.
Qed.

(** ** What [pmem_init] computes *)

(** Region [j] of the map holds the whole of page [i]. *)
Definition holds_page (pm : physmap) (i j : Z) : bool :=
  (get_mms pm j <=? u32 (i * PAGESIZE))
  && (u32 ((i + 1) * PAGESIZE) <=? u32 (get_mml pm j + get_mms pm j)).

(** The permission the table gets for page [i]. *)
Definition page_perm (pm : physmap) (i : Z) : Z :=
  if (i <? VM_USERLO_PI) || (VM_USERHI_PI <=? i) then 1
  else
    let '(flag, isnorm) := pmem_find_range (Z.to_nat (get_size pm)) pm i 0 0 0 in
    if (flag =? 1) && (isnorm =? 1) then 2 else 0.

Lemma pmem_find_range_stop n pm i j u : pmem_find_range n pm i j 1 u = (1, u).
Proof. by destruct n. Qed.

Lemma pmem_find_range_spec n pm i j u :
  (∃ k, j ≤ k < j + Z.of_nat n ∧ holds_page pm i k = true
        ∧ (∀ k', j ≤ k' < k → holds_page pm i k' = false)
        ∧ pmem_find_range n pm i j 0 u = (1, is_usable pm k))
  ∨ ((∀ k, j ≤ k < j + Z.of_nat n → holds_page pm i k = false)
     ∧ fst (pmem_find_range n pm i j 0 u) = 0).
Proof.
  revert j u. induction n as [|n IH]; intros j u; cbn [pmem_find_range].
  { right. split; [lia|done]. }
  cbn [Z.eqb]. fold (holds_page pm i j). destruct (holds_page pm i j) eqn:E.
  - left. exists j. rewrite pmem_find_range_stop. split_and!; [lia|lia|done|lia|done].
  - destruct (IH (j + 1) (is_usable pm j)) as [(k & Hk & Hh & Hno & Hr)|[Hno Hr]].
    + left. exists k. split_and!; [lia|lia|done| |done]. intros k' Hk'.
      destruct (decide (k' = j)) as [->|]; [done|]. apply Hno. lia.
    + right. split; [|done]. intros k Hk.
      destruct (decide (k = j)) as [->|]; [done|]. apply Hno. lia.
Qed.

Lemma region_end pm j r :
  physmap_ok pm → 0 ≤ j → pmmap_list pm !! Z.to_nat j = Some r →
  get_mms pm j = pm_start r ∧ u32 (get_mml pm j + get_mms pm j) = pm_end r
  ∧ u32 (get_mms pm j + get_mml pm j) = pm_end r
  ∧ is_usable pm j = cbool (pm_type r =? MEM_RAM) ∧ region_ok r.
Proof.
  intros Hok Hj Hr. unfold get_mms, get_mml, is_usable. rewrite slot_get_lookup, Hr by done.
  destruct Hok as [Hf _]. eapply Forall_lookup_1 in Hf; [|exact Hr].
  destruct Hf as [? ?]. unfold region_ok, two32 in *.
  assert (u32 (pm_end r - pm_start r) = pm_end r - pm_start r) as ->.
  { apply u32_small. unfold is_u32, two32. lia. }
  split_and!; try done; try lia;
    (rewrite u32_small by (unfold is_u32, two32; lia); lia).
Qed.

Lemma pmem_max_page_bound n pm i nps :
  physmap_ok pm → 0 ≤ i → 0 ≤ nps ≤ AT_SIZE →
  nps ≤ pmem_max_page n pm i nps ≤ AT_SIZE.
Proof.
  intros Hok. revert i nps. induction n as [|n IH]; intros i nps Hi Hn; cbn [pmem_max_page].
  { lia. }
  assert (0 ≤ u32 (get_mms pm i + get_mml pm i) < two32) as Hs by apply u32_range.
  unfold two32, AT_SIZE, PAGESIZE in *.
  assert (0 ≤ u32 (get_mms pm i + get_mml pm i) / 4096 + 1 ≤ 1048576) as Hd.
  { Z.to_euclidean_division_equations; lia. }
  rewrite (u32_small (_ + 1)) by (unfold is_u32, two32; lia).
  case_cmp.
  - specialize (IH (i + 1) (u32 (get_mms pm i + get_mml pm i) / 4096 + 1)). lia.
  - specialize (IH (i + 1) nps). lia.
Qed.

Lemma page_perm_norm pm i :
  physmap_ok pm →
  page_perm pm i = 2 ↔
    VM_USERLO_PI ≤ i < VM_USERHI_PI
    ∧ ∃ k r, pmmap_list pm !! k = Some r ∧ pm_type r = MEM_RAM
        ∧ pm_start r ≤ i * PAGESIZE ∧ (i + 1) * PAGESIZE ≤ pm_end r
        ∧ ∀ k' r', (k' < k)%nat → pmmap_list pm !! k' = Some r' →
            ¬ (pm_start r' ≤ i * PAGESIZE ∧ (i + 1) * PAGESIZE ≤ pm_end r').
Proof.
  intros Hok. unfold page_perm.
  destruct (Z.ltb_spec i VM_USERLO_PI); cbn [orb]; [lia|].
  destruct (Z.leb_spec VM_USERHI_PI i); cbn [orb]; [lia|].
  assert (∀ k r, pmmap_list pm !! k = Some r →
    holds_page pm i (Z.of_nat k) = true
    ↔ pm_start r ≤ i * PAGESIZE ∧ (i + 1) * PAGESIZE ≤ pm_end r) as Hh.
  { intros k r Hk. destruct (region_end pm (Z.of_nat k) r Hok) as (H1 & H2 & _); [lia| |].
    { by rewrite Nat2Z.id. }
    unfold holds_page, VM_USERLO_PI, VM_USERHI_PI, PAGESIZE in *. rewrite H2, H1.
    rewrite (u32_small (i * 4096)), (u32_small ((i + 1) * 4096))
      by (unfold is_u32, two32; lia).
    by rewrite andb_true_iff, !Z.leb_le. }
  destruct Hok as [Hf Hn] eqn:Eok. clear Eok. unfold get_size. rewrite Hn, Nat2Z.id.
  destruct (pmem_find_range_spec (length (pmmap_list pm)) pm i 0 0)
    as [(k & Hk & Hhk & Hno & ->)|[Hno Hr]].
  - destruct (lookup_lt_is_Some_2 (pmmap_list pm) (Z.to_nat k)) as [r Hr]; [lia|].
    assert (physmap_ok pm) as Hok' by done.
    destruct (region_end pm k r Hok') as (_ & _ & _ & Hu & _); [lia|done|].
    rewrite Hu. rewrite <- (Z2Nat.id k) in Hhk by lia. apply (Hh _ _ Hr) in Hhk.
    assert (∀ k' r', (k' < Z.to_nat k)%nat → pmmap_list pm !! k' = Some r' →
      ¬ (pm_start r' ≤ i * PAGESIZE ∧ (i + 1) * PAGESIZE ≤ pm_end r')) as Hfirst.
    { intros k' r' Hk' Hr' Ht%(Hh _ _ Hr'). rewrite Hno in Ht; [done|lia]. }
    destruct (Z.eqb_spec (pm_type r) MEM_RAM); cbn [cbool Z.eqb andb]; (split; [|]).
    + intros _. destruct Hhk. split; [lia|]. exists (Z.to_nat k), r. by split_and!.
    + done.
    + done.
    + intros [_ (k1 & r1 & Hr1 & Ht1 & Hs1 & He1 & Hno1)].
      destruct (lt_eq_lt_dec k1 (Z.to_nat k)) as [[Hlt| ->]|Hlt].
      * by destruct (Hfirst k1 r1).
      * congruence.
      * by destruct (Hno1 (Z.to_nat k) r).
  - destruct (pmem_find_range _ _ _ _ _ _) as [flag u]. cbn in Hr. subst flag. cbn.
    split; [done|]. intros [_ (k1 & r1 & Hr1 & _ & Hs1 & He1 & _)].
    assert (k1 < length (pmmap_list pm))%nat by (by eapply lookup_lt_Some).
    specialize (Hno (Z.of_nat k1)). rewrite (proj2 (Hh _ _ Hr1)) in Hno by done.
    discriminate Hno. lia.
Qed.

Lemma page_perm_cases pm i : page_perm pm i = 0 ∨ page_perm pm i = 1 ∨ page_perm pm i = 2.
Proof. unfold page_perm. destruct (_ || _); [auto|]. repeat case_match; auto. Qed.

(** [pmem_init] returns whenever the map was read, within the bounds of [AT]. *)
Lemma wp_pmem_init m mbi pm Q :
  pmmap_init m mbi boot_physmap = Ok (tt, pm) →
  (∀ at_, let nps := pmem_max_page (Z.to_nat (get_size pm)) pm 0 0 in
     0 ≤ nps ≤ AT_SIZE →
     (∀ i, 0 ≤ i < nps → aget at_ i = At (page_perm pm i) 0) →
     (∀ i, aget at_ i = zero ∨ aget at_ i = At (page_perm pm i) 0) →
     Q tt (Pmm released nps at_ 262144 pm)) →
  wp (pmem_init m mbi) Q boot_pmm.
Proof.
  intros Hinit HQ. pose proof (pmmap_init_ok _ _ _ Hinit) as Hok.
  unfold pmem_init, mem_spinlock_init, set_nps. wp_step. wp_step.
  apply (run_wp _ _ _ _ _ Hinit). wp_steps. wp_lock. wp_steps. cbn.
  set (nps := pmem_max_page _ _ _ _) in *.
  assert (0 ≤ nps ≤ AT_SIZE) as Hn.
  { unfold nps. pose proof (pmem_max_page_bound (Z.to_nat (get_size pm)) pm 0 0 Hok).
    unfold AT_SIZE in *. lia. }
  apply (wp_for_range (λ j s, ∃ at_, s = Pmm released nps at_ 262144 pm
    ∧ (∀ i, 0 ≤ i < j → aget at_ i = At (page_perm pm i) 0)
    ∧ ∀ i, aget at_ i = zero ∨ aget at_ i = At (page_perm pm i) 0)).
  - lia.
  - exists ∅. split_and!; [done|lia|by left].
  - intros j s Hj (at_ & -> & Hat & Hal).
    assert (pmem_init_page pm j = at_set_perm j (page_perm pm j)) as ->.
    { unfold pmem_init_page, page_perm. repeat case_match; done. }
    unfold at_set_perm. wp_steps. exists (<[j := At (page_perm pm j) 0]> at_).
    split_and!; [done| |]; intros i.
    + intros Hi. destruct (decide (i = j)) as [->|]; aget_simpl; [done|]. apply Hat. lia.
    + rewrite aget_insert. case_decide; [subst; by right|done].
  - intros s (at_ & -> & Hat & Hal). by apply HQ.
Qed.

(** ** Claims *)

(** A boot memory with two e820 entries: 639 KiB of low memory and RAM from
    1 MiB up to 0x7ff00000. *)
Definition sample_mboot : mem :=
  let m := write32 (write32 ∅ (4096 + 44) 48) (4096 + 48) 8192 in
  let m := write32 (write32 (write32 m (8192 + 4) 0) (8192 + 12) 654336) (8192 + 20) 1 in
  write32 (write32 (write32 m (8216 + 4) 1048576) (8216 + 12) 2145386496) (8216 + 20) 1.

(** The state with [n] pages in which exactly the pages of [l] are free. *)
Definition sample_pmm (n last : Z) (l : list Z) : pmm :=
  Pmm released n (list_to_map ((λ i, (i, At 2 0)) <$> l)) last boot_physmap.

(** C39: [pmem_init] returns whenever the memory map could be read, stays within
    [AT], and makes a page allocatable exactly when it lies in the user part of
    the address space and the first region of the map that holds it whole is
    RAM; no page starts out allocated. *)
Theorem pmem_init_correct (m : mem) (mbi : Z) (pm : physmap) :
  pmmap_init m mbi boot_physmap = Ok (tt, pm) →
  ∃ s, pmem_init m mbi boot_pmm = Ok (tt, s)
    ∧ 0 ≤ NUM_PAGES s ≤ AT_SIZE ∧ pmm_map s = pm ∧ unlocked (mem_lk s)
    ∧ ∀ i, 0 ≤ i < NUM_PAGES s →
        free_page s i = true ↔
          VM_USERLO_PI ≤ i < VM_USERHI_PI
          ∧ ∃ k r, pmmap_list pm !! k = Some r ∧ pm_type r = MEM_RAM
              ∧ pm_start r ≤ i * PAGESIZE ∧ (i + 1) * PAGESIZE ≤ pm_end r
              ∧ ∀ k' r', (k' < k)%nat → pmmap_list pm !! k' = Some r' →
                  ¬ (pm_start r' ≤ i * PAGESIZE ∧ (i + 1) * PAGESIZE ≤ pm_end r').
Proof.
  intros Hinit. pose proof (pmmap_init_ok _ _ _ Hinit) as Hok.
  edestruct (wp_run (pmem_init m mbi)) as ([] & s & Hs & HQ).
  { apply (wp_pmem_init m mbi pm
      (λ _ s, 0 ≤ NUM_PAGES s ≤ AT_SIZE ∧ pmm_map s = pm ∧ unlocked (mem_lk s)
        ∧ ∀ i, 0 ≤ i < NUM_PAGES s → aget (AT s) i = At (page_perm pm i) 0) Hinit).
    intros at_ nps Hn Hat _. cbn. split_and!; try done; lia. }
  destruct HQ as (Hn & Hpm & Hlk & Hat). exists s. split_and!; try done; try lia.
  intros i Hi. rewrite <- (page_perm_norm pm i Hok). unfold free_page.
  rewrite Hat by done. unfold is_norm. cbn.
  destruct (page_perm_cases pm i) as [->|[->| ->]]; done.
Qed.

Lemma pmem_init_correct_witness :
  ∃ pm s, pmem_init sample_mboot 4096 boot_pmm = Ok (tt, s) ∧ pmm_map s = pm
    ∧ length (pmmap_list pm) = 2%nat.
Proof.
  destruct (pmmap_init sample_mboot 4096 boot_physmap) as [[[] pm]|e] eqn:E;
    [|by vm_compute in E].
  destruct (pmem_init_correct _ _ pm E) as (s & Hs & _ & Hpm & _).
  exists pm, s. split_and!; [exact Hs|exact Hpm|]. clear Hs. revert E. vm_compute.
  by intros [= <-].
Defined.

(** [palloc] is next-fit and safe: it returns the first free page above the
    last one handed out, marks that page and no other as allocated, and returns
    0 exactly when there is no free page between there and the end. *)
Theorem palloc_next_fit (s : pmm) :
  pmm_ok s →
  ∃ r s', palloc s = Ok (r, s') ∧ pmm_ok s' ∧ last_palloc_index s' = r
    ∧ (∀ i, last_palloc_index s < i < (if r =? 0 then NUM_PAGES s else r) →
            free_page s i = false)
    ∧ (r = 0 ∨ (last_palloc_index s < r < NUM_PAGES s ∧ free_page s r = true))
    ∧ (∀ i, free_page s' i = free_page s i && negb ((i =? r) && negb (r =? 0)))
    ∧ (∀ i, perm (aget (AT s') i) = perm (aget (AT s) i)).
Proof.
  intros Hok. apply wp_run, wp_palloc; [done|]. intros r Hr Hno. destruct Hok as [Hl Hn Hi].
  split_and!; [apply palloc_post_ok; [done|lia]|done|done|done| |]; intros i.
  - destruct (Z.eqb_spec r 0) as [->|]; cbn [negb].
    + by rewrite andb_false_r, andb_true_r.
    + by rewrite free_page_palloc_post, andb_true_r.
  - cbn. case_cmp; [done|]. rewrite aget_insert. by case_decide as E; [rewrite E|].
Qed.

(** Allocation does not starve: when some page is free, one of two
    consecutive calls of [palloc] returns a page (the first call may only find
    that none is left above the last one handed out, and then restarts the
    search from the bottom). *)
Lemma palloc_retry_finds (s : pmm) (i : Z) :
  pmm_ok s → 0 < i < NUM_PAGES s → free_page s i = true →
  ∃ r1 s1, palloc s = Ok (r1, s1)
    ∧ (r1 ≠ 0 ∨ ∃ r2 s2, palloc s1 = Ok (r2, s2) ∧ r2 ≠ 0).
Proof.
  intros Hok Hi Hf. apply wp_run, wp_palloc; [done|]. intros r Hr Hno.
  destruct Hr as [->|[? ?]]; [|left; destruct Hok; lia]. right.
  assert (pmm_ok (palloc_post s 0)) as Hok' by (apply palloc_post_ok; [done|lia]).
  destruct (wp_run palloc (λ r _, r ≠ 0) (palloc_post s 0)) as (r2 & s2 & E & H2);
    [|by exists r2, s2].
  apply wp_palloc; [done|]. cbn. intros r [->|[? ?]] Hno2; [|lia].
  assert (free_page (palloc_post s 0) i = free_page s i) as E by done.
  rewrite <- E, Hno2 in Hf; [done|cbn; lia].
Qed.

(** [pfree] gives exactly the named page back to the allocator. *)
Lemma pfree_correct (s : pmm) (i : Z) :
  pmm_ok s → 0 ≤ i < NUM_PAGES s →
  ∃ s', pfree i s = Ok (tt, s') ∧ pmm_ok s'
    ∧ ∀ j, free_page s' j = free_page s j || (j =? i) && is_norm (aget (AT s) i).
Proof.
  intros Hok Hi. edestruct (wp_run (pfree i) (λ _ s', pmm_ok s'
    ∧ ∀ j, free_page s' j = free_page s j || (j =? i) && is_norm (aget (AT s) i)))
    as ([] & s' & E & H); [|by exists s'].
  destruct Hok as [Hlk Hn Hl]. apply wp_pfree; [done|lia|].
  split; [by split|]. intros j. unfold free_page. cbn. rewrite aget_insert.
  destruct (decide (i = j)) as [->|].
  - rewrite Z.eqb_refl. unfold is_norm. cbn. repeat case_cmp; done.
  - rewrite (proj2 (Z.eqb_neq j i)) by lia. cbn. by rewrite orb_false_r.
Qed.

(** The first call after boot starts the scan above page 262144, the first user
    page: when only that page is free it reports that memory is exhausted. *)
Lemma palloc_first_call_skips :
  let s := sample_pmm 262146 262144 [262144] in
  free_page s 262144 = true ∧ ∃ s', palloc s = Ok (0, s') ∧ free_page s' 262144 = true.
Proof. split; [by vm_compute|]. eexists. split; by vm_compute. Qed.
