(* ===== verification/Container.v ===== *)
(** * Resource containers (kern/pmm/MContainer)

    Every process has a container that limits the pages it may use; a parent
    dedicates part of its own quota to each child.  The invariant proved here
    is that quotas are never overcommitted: the pages that containers may still
    ask for are all free in the allocation table. *)

From S2P Require Import Prelude Memory Spinlock PhysMap Pmm.

(** ** State *)

(** [struct SContainer] *)
Record SContainer := Container {
  quota : Z; usage : Z; parent : Z; nchildren : Z; used : Z
}.

#[export] Instance zeroed_SContainer : Zeroed SContainer := Container 0 0 0 0 0.

(** [CONTAINER] and the allocator below it. *)
Record cont := Cont { c_pmm : pmm; CONTAINER : gmap Z SContainer }.

Definition l_c_pmm : lens cont pmm := Lens c_pmm (λ p s, Cont p (CONTAINER s)).

Definition MAX_CHILDREN : Z := 3.

Ltac bounds ::= first [done | lia
  | unfold AT_SIZE, NUM_IDS, NUM_CPUS, this_cpu, MAX_CHILDREN in *; cbn zeta; lia].

Definition boot_cont : cont := Cont boot_pmm ∅.

(** [CONTAINER[id]], and its update. *)
Definition con_get (id : Z) : M cont SContainer :=
  _ ← chk "CONTAINER" NUM_IDS id;
  gets (λ s, aget (CONTAINER s) id).

Definition con_upd (id : Z) (f : SContainer → SContainer) : M cont unit :=
  _ ← chk "CONTAINER" NUM_IDS id;
  modify (λ s, Cont (c_pmm s) (<[id := f (aget (CONTAINER s) id)]> (CONTAINER s))).

Definition set_usage (u : Z) (c : SContainer) : SContainer :=
  Container (quota c) u (parent c) (nchildren c) (used c).
Definition set_nchildren (n : Z) (c : SContainer) : SContainer :=
  Container (quota c) (usage c) (parent c) n (used c).

(** ** Operations *)

(** The counting loop of [container_init] over pages [i], [i + 1], ... *)
Fixpoint count_free (n : nat) (i real_quota : Z) : M cont Z :=
  match n with
  | O => mret real_quota
  | S n =>
    norm ← lift l_c_pmm (at_is_norm i);
    is_used ← lift l_c_pmm (at_is_allocated i);
    count_free n (i + 1)
      (if (norm =? 1) && (is_used =? 0) then u32 (real_quota + 1) else real_quota)
  end.

Definition container_init (m : mem) (mbi_addr : Z) : M cont unit :=
  _ ← lift l_c_pmm (pmem_init m mbi_addr);
  nps ← lift l_c_pmm get_nps;
  real_quota ← count_free (Z.to_nat (nps - 1)) 1 0;
  con_upd 0 (λ _, Container (s32 real_quota) 0 0 0 1).

Definition container_get_parent (id : Z) : M cont Z :=
  c ← con_get id; mret (u32 (parent c)).
Definition container_get_nchildren (id : Z) : M cont Z :=
  c ← con_get id; mret (u32 (nchildren c)).
Definition container_get_quota (id : Z) : M cont Z :=
  c ← con_get id; mret (u32 (quota c)).
Definition container_get_usage (id : Z) : M cont Z :=
  c ← con_get id; mret (u32 (usage c)).

Definition container_can_consume (id n : Z) : M cont Z :=
  c ← con_get id;
  mret (if u32 (quota c) <? u32 (usage c + n) then 0 else 1).

Definition container_split (id q : Z) : M cont Z :=
  c ← con_get id;
  let nc := u32 (nchildren c) in
  let child := u32 (id * MAX_CHILDREN + 1 + nc) in
  _ ← con_upd child (λ _, Container (s32 q) 0 (s32 id) 0 1);
  _ ← con_upd id (λ c, set_usage (s32 (usage c + q)) c);
  _ ← con_upd id (set_nchildren (s32 (nc + 1)));
  mret child.

Definition container_alloc (id : Z) : M cont Z :=
  c ← con_get id;
  let u := u32 (usage c) in
  let q := u32 (quota c) in
  if u =? q then mret 0
  else
    _ ← con_upd id (set_usage (s32 (u + 1)));
    lift l_c_pmm palloc.

Definition container_free (id page_index : Z) : M cont unit :=
  a ← lift l_c_pmm (at_is_allocated page_index);
  if negb (a =? 0) then
    _ ← lift l_c_pmm (pfree page_index);
    c ← con_get id;
    if 0 <? usage c then con_upd id (λ c, set_usage (usage c - 1) c) else mret tt
  else mret tt.

(** ** Specification *)

(** The number of free pages. *)
Definition free_pages (s : pmm) : Z :=
  zsum (λ i, cbool (free_page s i)) (Z.to_nat (NUM_PAGES s - 1)) 1.

(** The pages a container may still ask for, and all of them together. *)
Definition unspent (c : SContainer) : Z := quota c - usage c.
Definition total_unspent (t : gmap Z SContainer) : Z :=
  zsum (λ id, unspent (aget t id)) 64 0.

Arguments free_pages : simpl never.
Arguments total_unspent : simpl never.

Definition con_ok (c : SContainer) : Prop :=
  0 ≤ usage c ≤ quota c ∧ quota c < 2147483648 ∧ 0 ≤ nchildren c ≤ MAX_CHILDREN.

(** The children of [id] are the slots [3 id + 1], ... in order; unused slots
    are empty; the quotas are backed by free pages. *)
Record cont_ok (s : cont) : Prop := {
  co_pmm : pmm_ok (c_pmm s);
  co_con id : con_ok (aget (CONTAINER s) id);
  co_tree id : 0 < id < NUM_IDS → used (aget (CONTAINER s) id) = 1 →
    parent (aget (CONTAINER s) id) = (id - 1) / MAX_CHILDREN
    ∧ (id - 1) mod MAX_CHILDREN
      < nchildren (aget (CONTAINER s) ((id - 1) / MAX_CHILDREN));
  co_unused id : used (aget (CONTAINER s) id) ≠ 1 → aget (CONTAINER s) id = zero;
  co_allocated i : allocated (aget (AT (c_pmm s)) i) ≠ 0 →
    0 < i < NUM_PAGES (c_pmm s) ∧ is_norm (aget (AT (c_pmm s)) i) = true;
  co_backed : total_unspent (CONTAINER s) ≤ free_pages (c_pmm s)
}.

(** ** Lemmas *)

Lemma total_unspent_insert t id c :
  0 ≤ id < NUM_IDS →
  total_unspent (<[id := c]> t) = total_unspent t + unspent c - unspent (aget t id).
Proof.
  intros Hid. unfold total_unspent, NUM_IDS in *.
  rewrite (zsum_update _ (λ j, unspent (aget t j)) 64 0 id).
  - aget_simpl. lia.
  - lia.
  - intros j Hj. by aget_simpl.
Qed.

Lemma free_pages_palloc_post s r :
  0 ≤ r < NUM_PAGES s → (r = 0 ∨ free_page s r = true) →
  free_pages (palloc_post s r) = free_pages s - cbool (negb (r =? 0)).
Proof.
  intros Hr Hf. destruct (Z.eqb_spec r 0) as [->|].
  { unfold free_pages, free_page. cbn. lia. }
  unfold free_pages. rewrite (zsum_update _ (λ i, cbool (free_page s i)) _ 1 r).
  - rewrite free_page_palloc_post, Z.eqb_refl by done. destruct Hf as [?| ->]; [done|].
    cbn. lia.
  - cbn. lia.
  - intros j Hj. rewrite free_page_palloc_post by done.
    by rewrite (proj2 (Z.eqb_neq j r)), andb_true_r by done.
Qed.

Lemma wp_con_get id Q s :
  0 ≤ id < NUM_IDS → Q (aget (CONTAINER s) id) s → wp (con_get id) Q s.
Proof. intros. unfold con_get. by wp_steps. Qed.

Lemma wp_con_upd id f Q s :
  0 ≤ id < NUM_IDS →
  Q tt (Cont (c_pmm s) (<[id := f (aget (CONTAINER s) id)]> (CONTAINER s))) →
  wp (con_upd id f) Q s.
Proof. intros. unfold con_upd. by wp_steps. Qed.

Lemma con_ok_u32 c :
  con_ok c → u32 (usage c) = usage c ∧ u32 (quota c) = quota c
             ∧ u32 (nchildren c) = nchildren c.
Proof.
  unfold con_ok, MAX_CHILDREN. intros.
  split_and!; apply u32_small; unfold is_u32, two32; lia.
Qed.

Lemma con_ok_unspent c : con_ok c → 0 ≤ unspent c.
Proof. unfold con_ok, unspent. lia. Qed.

Lemma wp_container_can_consume s id n Q :
  0 ≤ id < NUM_IDS → con_ok (aget (CONTAINER s) id) → 0 ≤ n < 2147483648 →
  Q (cbool (n <=? unspent (aget (CONTAINER s) id))) s →
  wp (container_can_consume id n) Q s.
Proof.
  intros Hid Hc Hn HQ. unfold container_can_consume. wp_step. apply wp_con_get; [done|].
  destruct (con_ok_u32 _ Hc) as (_ & -> & _). unfold con_ok, unspent in *.
  rewrite u32_small by (unfold is_u32, two32; lia). wp_steps.
  revert HQ. repeat case_cmp; cbn [cbool]; done || lia.
Qed.

Lemma wp_container_split s id q Q :
  let c := aget (CONTAINER s) id in
  let child := 3 * id + 1 + nchildren c in
  0 ≤ id → child < NUM_IDS → con_ok c → nchildren c < MAX_CHILDREN → 0 ≤ q ≤ unspent c →
  Q child (Cont (c_pmm s)
    (<[id := Container (quota c) (usage c + q) (parent c) (nchildren c + 1) (used c)]>
      (<[child := Container q 0 id 0 1]> (CONTAINER s)))) →
  wp (container_split id q) Q s.
Proof.
  intros c child Hid Hch Hc Hn Hq HQ. destruct (con_ok_u32 _ Hc) as (_ & _ & Hnc).
  unfold con_ok, unspent, NUM_IDS, MAX_CHILDREN in *.
  unfold container_split. wp_step. apply wp_con_get; [unfold NUM_IDS; lia|].
  fold c. rewrite Hnc. unfold MAX_CHILDREN.
  assert (u32 (id * 3 + 1 + nchildren c) = child) as ->.
  { unfold child. rewrite u32_small by (unfold is_u32, two32; lia). lia. }
  wp_step. apply wp_con_upd; [unfold NUM_IDS; lia|]. cbn [c_pmm CONTAINER].
  wp_step. apply wp_con_upd; [unfold NUM_IDS; lia|]. cbn [c_pmm CONTAINER].
  rewrite aget_ne by lia. fold c.
  wp_step. apply wp_con_upd; [unfold NUM_IDS; lia|]. cbn [c_pmm CONTAINER].
  rewrite aget_eq. wp_step. rewrite insert_insert_eq.
  rewrite !s32_small by lia. by unfold set_nchildren, set_usage; cbn.
Qed.

Lemma wp_container_alloc s id Q :
  0 ≤ id < NUM_IDS → cont_ok s →
  (unspent (aget (CONTAINER s) id) = 0 → Q 0 s) →
  (∀ r, let p := c_pmm s in let c := aget (CONTAINER s) id in
     0 < unspent c →
     r = 0 ∨ (last_palloc_index p < r < NUM_PAGES p ∧ free_page p r = true) →
     (∀ i, last_palloc_index p < i < (if r =? 0 then NUM_PAGES p else r) →
           free_page p i = false) →
     Q r (Cont (palloc_post p r) (<[id := set_usage (usage c + 1) c]> (CONTAINER s)))) →
  wp (container_alloc id) Q s.
Proof.
  intros Hid [Hp Hc _ _ _] HQ0 HQ. specialize (Hc id).
  destruct (con_ok_u32 _ Hc) as (Hu & Hq & _). unfold container_alloc.
  wp_step. apply wp_con_get; [done|]. rewrite Hu, Hq. unfold con_ok, unspent in *.
  destruct (Z.eqb_spec (usage (aget (CONTAINER s) id)) (quota (aget (CONTAINER s) id))).
  { wp_steps. apply HQ0. lia. }
  rewrite s32_small by lia. wp_step. apply wp_con_upd; [done|]. wp_step. cbn.
  apply wp_palloc; [done|]. intros r Hr Hno. apply HQ; [lia|done|done].
Qed.

(** After handing out page [r], exactly the allocated pages are normal ones. *)
Lemma allocated_palloc_post p r i :
  (∀ i, allocated (aget (AT p) i) ≠ 0 →
        0 < i < NUM_PAGES p ∧ is_norm (aget (AT p) i) = true) →
  r = 0 ∨ (0 < r < NUM_PAGES p ∧ free_page p r = true) →
  allocated (aget (AT (palloc_post p r)) i) ≠ 0 →
  0 < i < NUM_PAGES p ∧ is_norm (aget (AT (palloc_post p r)) i) = true.
Proof.
  intros Ha Hr. cbn. destruct (Z.eqb_spec r 0) as [->|Hr0]; [apply Ha|].
  destruct Hr as [?|[Hr Hf]]; [done|]. rewrite aget_insert. case_decide; subst.
  - intros _. split; [done|]. apply andb_true_iff in Hf as [Hf _]. done.
  - apply Ha.
Qed.

(** What page tables rely on: the allocator is in order and has handed out only
    pages it owns.  The quotas are not part of it. *)
Record pages_ok (p : pmm) : Prop := {
  pg_pmm : pmm_ok p;
  pg_allocated i : allocated (aget (AT p) i) ≠ 0 → 0 < i < NUM_PAGES p ∧ is_norm (aget (AT p) i) = true
}.

Lemma cont_ok_pages s : cont_ok s → pages_ok (c_pmm s).
Proof. intros [Hp _ _ _ Ha _]. by split. Qed.

Lemma pages_ok_palloc p r :
  pages_ok p → r = 0 ∨ (0 < r < NUM_PAGES p ∧ free_page p r = true) → pages_ok (palloc_post p r).
Proof.
  intros [Hp Ha] Hr. pose proof (ok_pages _ Hp). split.
  - apply palloc_post_ok; [done|]. lia.
  - intros i Hi. exact (allocated_palloc_post p r i Ha Hr Hi).
Qed.

(** [container_alloc] charges the container and hands out what [palloc] found,
    whatever the quotas are. *)
Lemma wp_container_alloc_any id s Q :
  0 ≤ id < NUM_IDS → pages_ok (c_pmm s) → Q 0 s →
  (∀ r c, r = 0 ∨ (0 < r < NUM_PAGES (c_pmm s) ∧ free_page (c_pmm s) r = true) →
     Q r (Cont (palloc_post (c_pmm s) r) c)) →
  wp (container_alloc id) Q s.
Proof.
  intros Hid [Hp _] HQ0 HQ. unfold container_alloc. wp_step. apply wp_con_get; [done|].
  case_cmp; [by wp_steps|]. wp_step. apply wp_con_upd; [done|]. wp_step. cbn.
  apply wp_palloc; [done|]. intros r Hr _. apply HQ. pose proof (ok_last _ Hp).
  destruct Hr as [?|[? ?]]; [by left|right]. split; [lia|done].
Qed.

(** ** How many pages a container can still get

    The search goes from the page after the last one handed out to the end of
    memory, so these are the pages up to the next time it fails. *)
Definition free_above (p : pmm) : list Z :=
  filter (λ i, free_page p i = true)
    (seqZ (last_palloc_index p + 1) (NUM_PAGES p - last_palloc_index p - 1)).

Definition pages_left (s : cont) (id : Z) : Z :=
  let c := aget (CONTAINER s) id in
  Z.min (u32 (quota c - usage c)) (Z.of_nat (length (free_above (c_pmm s)))).

Lemma filter_none (p : pmm) lo n :
  (∀ i, lo ≤ i < lo + n → free_page p i = false) → filter (λ i, free_page p i = true) (seqZ lo n) = [].
Proof.
  intros Hno. apply elem_of_nil_inv. intros x. rewrite list_elem_of_filter, elem_of_seqZ.
  intros [Hf Hx]. rewrite Hno in Hf by lia. done.
Qed.

Lemma filter_free_same (p q : pmm) (l : list Z) :
  (∀ i, i ∈ l → free_page p i = free_page q i) →
  filter (λ i, free_page p i = true) l = filter (λ i, free_page q i = true) l.
Proof.
  induction l as [|i l IH]; intros Hl; [done|]. rewrite !filter_cons, (Hl i), IH by set_solver. done.
Qed.

Lemma free_above_palloc p r :
  r = 0 ∨ (last_palloc_index p < r < NUM_PAGES p ∧ free_page p r = true) → 0 ≤ last_palloc_index p →
  (∀ i, last_palloc_index p < i < (if r =? 0 then NUM_PAGES p else r) → free_page p i = false) →
  free_above p = if r =? 0 then [] else r :: free_above (palloc_post p r).
Proof.
  intros Hr Hl Hno. unfold free_above. destruct (Z.eqb_spec r 0) as [->|Hr0].
  { apply filter_none. intros i Hi. apply Hno. lia. }
  destruct Hr as [?|[Hr Hf]]; [done|]. cbn [palloc_post last_palloc_index NUM_PAGES].
  replace (NUM_PAGES p - last_palloc_index p - 1)
    with ((r - last_palloc_index p - 1) + (1 + (NUM_PAGES p - r - 1))) by lia.
  rewrite seqZ_app, filter_app, filter_none by (intros; try apply Hno; lia). cbn [app].
  replace (last_palloc_index p + 1 + (r - last_palloc_index p - 1)) with r by lia.
  rewrite seqZ_cons, filter_cons_True by (done || lia). f_equal.
  replace (Z.succ r) with (r + 1) by lia. replace (Z.pred (1 + (NUM_PAGES p - r - 1))) with (NUM_PAGES p - r - 1) by lia.
  apply filter_free_same. intros i [Hi _]%elem_of_seqZ. rewrite free_page_palloc_post by done.
  rewrite (proj2 (Z.eqb_neq i r)) by lia. by rewrite andb_true_r.
Qed.

Lemma pages_left_nonneg s id : 0 ≤ pages_left s id.
Proof. unfold pages_left. pose proof (u32_range (quota (aget (CONTAINER s) id) - usage (aget (CONTAINER s) id))) as H. unfold is_u32 in H. lia. Qed.

(** A page is handed out as long as there is one left. *)
Lemma wp_container_alloc_left id s Q :
  0 ≤ id < NUM_IDS → pages_ok (c_pmm s) →
  (∀ r s', pages_ok (c_pmm s') →
     (if pages_left s id =? 0 then r = 0
      else 0 < r < AT_SIZE ∧ pages_left s' id = pages_left s id - 1) → Q r s') →
  wp (container_alloc id) Q s.
Proof.
  intros Hid Hpg HQ. pose proof (pg_pmm _ Hpg) as Hp. pose proof (ok_last _ Hp) as Hl.
  pose proof (ok_pages _ Hp) as Hn. unfold container_alloc. wp_step. apply wp_con_get; [done|]. set (c := aget (CONTAINER s) id).
  assert ((u32 (usage c) =? u32 (quota c)) = (u32 (quota c - usage c) =? 0)) as ->.
  { apply eq_true_iff_eq. rewrite !Z.eqb_eq. unfold u32, two32. Z.to_euclidean_division_equations. lia. }
  destruct (Z.eqb_spec (u32 (quota c - usage c)) 0) as [H0|H0].
  { wp_steps. apply HQ; [done|]. unfold pages_left. fold c. rewrite H0. by rewrite Z.min_l by lia. }
  wp_step. apply wp_con_upd; [done|]. wp_step. cbn. apply wp_palloc; [done|]. intros r Hr Hno. apply HQ.
  { apply pages_ok_palloc; [done|]. destruct Hr as [?|[? ?]]; [by left|right; split; [lia|done]]. }
  pose proof (free_above_palloc _ _ Hr (proj1 Hl) Hno) as Hf. unfold pages_left. cbn. fold c.
  pose proof (u32_range (quota c - usage c)) as Hu. unfold is_u32 in Hu. rewrite Hf.
  destruct (Z.eqb_spec r 0) as [->|Hr0]; [by rewrite Z.min_r by (cbn; lia)|].
  rewrite (proj2 (Z.eqb_neq _ 0)) by (cbn [length]; lia). split; [destruct Hr; lia|].
  rewrite aget_eq. cbn [set_usage quota usage length].
  assert (u32 (quota c - s32 (u32 (usage c) + 1)) = u32 (quota c - usage c) - 1) as ->; [|lia].
  unfold u32, s32, two32 in *. Z.to_euclidean_division_equations. lia.
Qed.

(** A split moves quota between containers and takes no page. *)
Lemma keeps_container_split id q : keeps (λ c c' : cont, c_pmm c' = c_pmm c) (container_split id q).
Proof.
  set (R := λ c c' : cont, c_pmm c' = c_pmm c).
  assert (PreOrder R) by (split; [done|intros x y z H1 H2; unfold R in *; congruence]).
  unfold container_split, con_get, con_upd. keeps_auto; by apply keeps_modify.
Qed.

(** Replacing the container of [id] by one with the same place in the tree. *)
Lemma cont_ok_update s p id c :
  cont_ok s → 0 ≤ id < NUM_IDS → con_ok c →
  parent c = parent (aget (CONTAINER s) id) → used c = used (aget (CONTAINER s) id) →
  nchildren c = nchildren (aget (CONTAINER s) id) →
  (used c ≠ 1 → c = zero) →
  pmm_ok p →
  (∀ i, allocated (aget (AT p) i) ≠ 0 → 0 < i < NUM_PAGES p ∧ is_norm (aget (AT p) i) = true) →
  unspent c - unspent (aget (CONTAINER s) id) ≤ free_pages p - free_pages (c_pmm s) →
  cont_ok (Cont p (<[id := c]> (CONTAINER s))).
Proof.
  intros [Hp Hc Ht Hu Ha Hb] Hid Hcok Hpar Hus Hnc Hz Hpok Hal Hbk.
  split; cbn [c_pmm CONTAINER]; [done| | | |done|].
  - intros i. rewrite aget_insert. case_decide; [done|apply Hc].
  - assert (∀ j, let c' := aget (<[id := c]> (CONTAINER s)) j in
      let c0 := aget (CONTAINER s) j in
      parent c' = parent c0 ∧ used c' = used c0 ∧ nchildren c' = nchildren c0) as Hj.
    { intros j. cbn. rewrite aget_insert. by case_decide; subst. }
    intros i Hi. destruct (Hj i) as (-> & -> & _).
    destruct (Hj ((i - 1) / MAX_CHILDREN)) as (_ & _ & ->). by apply Ht.
  - intros i. rewrite aget_insert. case_decide; [done|apply Hu].
  - rewrite total_unspent_insert by done. lia.
Qed.

(** The slot of the next child is not in use. *)
Lemma next_child_unused s id :
  cont_ok s → 0 ≤ id → 3 * id + 1 + nchildren (aget (CONTAINER s) id) < NUM_IDS →
  nchildren (aget (CONTAINER s) id) < MAX_CHILDREN →
  used (aget (CONTAINER s) (3 * id + 1 + nchildren (aget (CONTAINER s) id))) ≠ 1.
Proof.
  intros [_ Hc Ht _ _ _] Hid Hlt Hn Hu. destruct (Hc id) as (_ & _ & Hnc).
  set (n := nchildren _) in *. unfold MAX_CHILDREN in *.
  destruct (Ht (3 * id + 1 + n)) as [_ Hm]; [lia|done|].
  assert ((3 * id + 1 + n - 1) / 3 = id) as Hdiv.
  { symmetry. apply Z.div_unique_pos with n; lia. }
  assert ((3 * id + 1 + n - 1) mod 3 = n) as Hmod.
  { symmetry. apply Z.mod_unique_pos with id; lia. }
  rewrite Hdiv, Hmod in Hm. fold n in Hm. lia.
Qed.

Lemma container_split_ok s id q :
  let c := aget (CONTAINER s) id in
  let child := 3 * id + 1 + nchildren c in
  cont_ok s → 0 ≤ id → used c = 1 → nchildren c < MAX_CHILDREN → 0 ≤ q ≤ unspent c →
  child < NUM_IDS →
  cont_ok (Cont (c_pmm s)
    (<[id := Container (quota c) (usage c + q) (parent c) (nchildren c + 1) (used c)]>
      (<[child := Container q 0 id 0 1]> (CONTAINER s)))).
Proof.
  intros c child Hok Hid Hu Hn Hq Hch.
  pose proof (next_child_unused s id Hok Hid Hch Hn) as Hun. fold c child in Hun.
  destruct Hok as [Hp Hc Ht Huz Ha Hb]. specialize (Hc id) as Hcid. fold c in Hcid.
  unfold con_ok, unspent, MAX_CHILDREN in *.
  assert ((child - 1) / 3 = id) as Hdiv by (symmetry; apply Z.div_unique_pos with (nchildren c); lia).
  assert ((child - 1) mod 3 = nchildren c) as Hmod
    by (symmetry; apply Z.mod_unique_pos with id; lia).
  split; cbn [c_pmm CONTAINER]; [done| | | |done|].
  - intros i. rewrite !aget_insert. unfold con_ok, MAX_CHILDREN.
    repeat case_decide; cbn; [lia|lia|apply Hc].
  - set (t := <[id := _]> _).
    assert (∀ j, nchildren (aget (CONTAINER s) j) ≤ nchildren (aget t j)) as Hnc.
    { intros j. unfold t. rewrite !aget_insert.
      destruct (decide (id = j)) as [<-|]; [cbn; fold c; lia|].
      destruct (decide (child = j)) as [<-|]; [by rewrite Huz|done]. }
    assert (∀ j, j ≠ child → used (aget t j) = used (aget (CONTAINER s) j)
      ∧ parent (aget t j) = parent (aget (CONTAINER s) j)) as Hsame.
    { intros j Hj. unfold t. rewrite !aget_insert, (decide_False (P := child = j)) by done.
      by destruct (decide (id = j)) as [<-|]. }
    intros i Hi. unfold MAX_CHILDREN in *. destruct (decide (i = child)) as [->|Hne].
    + intros _. rewrite Hdiv, Hmod. unfold t. rewrite aget_eq, aget_ne, aget_eq by lia.
      cbn. lia.
    + destruct (Hsame i Hne) as [-> ->]. intros Hu'. destruct (Ht i Hi Hu') as [? ?].
      split; [done|]. specialize (Hnc ((i - 1) / 3)). lia.
  - intros i. rewrite !aget_insert. repeat case_decide; cbn; [by intros []|by intros []|apply Huz].
  - rewrite !total_unspent_insert by (unfold NUM_IDS in *; lia).
    rewrite aget_ne by lia. fold c. rewrite (Huz child Hun). unfold unspent, zero, zeroed_SContainer. cbn. lia.
Qed.

Lemma container_alloc_ok s id r :
  let p := c_pmm s in
  let c := aget (CONTAINER s) id in
  cont_ok s → 0 ≤ id < NUM_IDS → 0 < unspent c →
  r = 0 ∨ (0 < r < NUM_PAGES p ∧ free_page p r = true) →
  cont_ok (Cont (palloc_post p r) (<[id := set_usage (usage c + 1) c]> (CONTAINER s))).
Proof.
  intros p c Hok Hid Hun Hr. pose proof (co_pmm s Hok) as Hp.
  pose proof (co_con s Hok id) as Hc. pose proof (ok_pages _ Hp) as Hn. fold c in Hc.
  fold p in Hp, Hn. unfold con_ok, unspent in *.
  apply cont_ok_update; cbn; try done.
  - unfold con_ok. cbn. lia.
  - intros Hu'. pose proof (co_unused s Hok id Hu') as Hu. fold c in Hu. rewrite Hu in Hun. done.
  - apply palloc_post_ok; [done|]. lia.
  - intros i. apply allocated_palloc_post; [apply (co_allocated s Hok)|done].
  - rewrite free_pages_palloc_post; [|lia|by destruct Hr as [?|[? ?]]; auto].
    unfold unspent. cbn. fold c p. case_cmp; cbn; lia.
Qed.

Lemma wp_container_free s id i Q :
  cont_ok s → 0 ≤ id < NUM_IDS → 0 ≤ i < AT_SIZE →
  (allocated (aget (AT (c_pmm s)) i) = 0 → Q tt s) →
  (∀ t, allocated (aget (AT (c_pmm s)) i) ≠ 0 →
     let c := aget (CONTAINER s) id in
     t = (if 0 <? usage c then <[id := set_usage (usage c - 1) c]> (CONTAINER s)
          else CONTAINER s) →
     Q tt (Cont (Pmm released (NUM_PAGES (c_pmm s))
       (<[i := At (perm (aget (AT (c_pmm s)) i)) 0]> (AT (c_pmm s)))
       (last_palloc_index (c_pmm s)) (pmm_map (c_pmm s))) t)) →
  wp (container_free id i) Q s.
Proof.
  intros [Hp _ _ _ _ _] Hid Hi HQ0 HQ. unfold container_free. wp_steps. cbn.
  apply wp_at_is_allocated; [done|].
  destruct (Z.eqb_spec (allocated (aget (AT (c_pmm s)) i)) 0) as [E|E]; cbn [cbool negb Z.eqb].
  - wp_steps. destruct s. by apply HQ0.
  - wp_steps. cbn. apply wp_pfree; [done|done|].
    wp_step. apply wp_con_get; [done|]. cbn [CONTAINER].
    specialize (HQ _ E eq_refl). destruct (0 <? usage (aget (CONTAINER s) id)).
    + apply wp_con_upd; [done|]. done.
    + by wp_steps.
Qed.

Lemma container_free_ok s id i :
  let p := c_pmm s in
  let c := aget (CONTAINER s) id in
  cont_ok s → 0 ≤ id < NUM_IDS → allocated (aget (AT p) i) ≠ 0 →
  cont_ok (Cont (Pmm released (NUM_PAGES p) (<[i := At (perm (aget (AT p) i)) 0]> (AT p))
                   (last_palloc_index p) (pmm_map p))
            (if 0 <? usage c then <[id := set_usage (usage c - 1) c]> (CONTAINER s)
             else CONTAINER s)).
Proof.
  intros p c Hok Hid Hal. pose proof (co_con s Hok id) as Hc. fold c in Hc.
  destruct (co_allocated s Hok i Hal) as [Hi Hnorm]. fold p in Hi, Hnorm.
  set (p' := Pmm _ _ _ _ _).
  assert (pmm_ok p') as Hp' by (destruct (co_pmm s Hok); by split).
  assert (∀ j, allocated (aget (AT p') j) ≠ 0 →
    0 < j < NUM_PAGES p' ∧ is_norm (aget (AT p') j) = true) as Ha'.
  { intros j. unfold p'. cbn. rewrite aget_insert. case_decide; [done|].
    apply (co_allocated s Hok). }
  assert (free_pages p' = free_pages p + 1) as Hf.
  { unfold free_pages. rewrite (zsum_update _ (λ j, cbool (free_page p j)) _ 1 i).
    - unfold free_page. cbn. rewrite aget_eq, Hnorm. unfold is_norm in Hnorm |- *. cbn.
      rewrite Hnorm. cbn. rewrite (proj2 (Z.eqb_neq _ 0)) by done. cbn. lia.
    - cbn. lia.
    - intros j Hj. unfold free_page. cbn. by rewrite aget_ne. }
  unfold con_ok in Hc. destruct (Z.ltb_spec 0 (usage c)).
  - apply cont_ok_update; cbn; try done.
    + unfold con_ok. cbn. lia.
    + intros Hu. pose proof (co_unused s Hok id Hu) as Hz. fold c in Hz. rewrite Hz in *. done.
    + rewrite Hf. unfold unspent. cbn. fold c p. lia.
  - destruct Hok as [_ Hcon Ht Hu _ Hb]. fold p in Hb. split; cbn [c_pmm CONTAINER]; try done.
    rewrite Hf. lia.
Qed.

(** ** Steps of the container layer

    What the kernel above does with containers: the system call that spawns a
    child splits a container under its checks, page faults and page-table
    creation allocate, freeing a page table frees. *)
Inductive cont_step : cont → cont → Prop :=
| step_split s s' id q child :
    0 ≤ id < NUM_IDS → used (aget (CONTAINER s) id) = 1 → 0 ≤ q < 2147483648 →
    container_can_consume id q s = Ok (1, s) →
    nchildren (aget (CONTAINER s) id) < MAX_CHILDREN →
    id * MAX_CHILDREN + 1 + nchildren (aget (CONTAINER s) id) < NUM_IDS →
    container_split id q s = Ok (child, s') →
    cont_step s s'
| step_alloc s s' id r :
    0 ≤ id < NUM_IDS → container_alloc id s = Ok (r, s') → cont_step s s'
| step_free s s' id i :
    0 ≤ id < NUM_IDS → 0 ≤ i < AT_SIZE → container_free id i s = Ok (tt, s') →
    cont_step s s'.

Lemma can_consume_unspent s id q :
  0 ≤ id < NUM_IDS → con_ok (aget (CONTAINER s) id) → 0 ≤ q < 2147483648 →
  container_can_consume id q s = Ok (1, s) → q ≤ unspent (aget (CONTAINER s) id).
Proof.
  intros Hid Hc Hq Hrun.
  refine (wp_inv _ (λ r _, r = 1 → q ≤ unspent (aget (CONTAINER s) id)) _ _ _ _ Hrun eq_refl).
  apply wp_container_can_consume; [done|done|done|]. by case_cmp.
Qed.

Lemma cont_step_ok s s' : cont_step s s' → cont_ok s → cont_ok s'.
Proof.
  intros [s1 s2 id q child Hid Hu Hq Hcc Hn Hlt Hrun|s1 s2 id r Hid Hrun|s1 s2 id i Hid Hi Hrun]
    Hok.
  - unfold MAX_CHILDREN in *. refine (wp_inv _ (λ _ s, cont_ok s) _ _ _ _ Hrun).
    pose proof (can_consume_unspent _ _ _ Hid (co_con _ Hok id) Hq Hcc).
    apply wp_container_split; [bounds|bounds|apply (co_con _ Hok)|bounds|bounds|].
    apply container_split_ok; bounds.
  - refine (wp_inv _ (λ _ s, cont_ok s) _ _ _ _ Hrun). pose proof (ok_last _ (co_pmm _ Hok)).
    apply wp_container_alloc; [done|done|done|]. intros r' p c Hun Hr _.
    apply container_alloc_ok; [done|done|done|]. subst p.
    destruct Hr as [?|[? ?]]; [by left|right]. split; [lia|done].
  - refine (wp_inv _ (λ _ s, cont_ok s) _ _ _ _ Hrun). apply wp_container_free; [done|done|done|done|].
    intros t Hal c ->. by apply container_free_ok.
Qed.

(** The count of [container_init] is the number of free pages. *)
Lemma wp_count_free s n i acc Q :
  0 ≤ i → i + Z.of_nat n ≤ AT_SIZE → 0 ≤ acc ≤ i →
  Q (acc + zsum (λ i, cbool (free_page (c_pmm s) i)) n i) s →
  wp (count_free n i acc) Q s.
Proof.
  revert i acc. induction n as [|n IH]; intros i acc Hi Hn Hacc HQ; cbn [count_free zsum] in *.
  { wp_steps. by rewrite Z.add_0_r in HQ. }
  wp_steps. apply wp_at_is_norm; [bounds|]. wp_steps. apply wp_at_is_allocated; [bounds|].
  cbn [lset lget l_c_pmm c_pmm CONTAINER].
  replace (Cont (c_pmm s) (CONTAINER s)) with s by (by destruct s).
  unfold AT_SIZE in *. rewrite (u32_small (acc + 1)) by (unfold is_u32, two32; lia).
  match goal with |- wp (count_free _ _ ?a) _ _ => 
    replace a with (acc + cbool (free_page (c_pmm s) i)) end.
  - apply IH; [lia|lia|destruct (free_page _ _); cbn; lia|]. by rewrite <- Z.add_assoc.
  - unfold free_page. destruct (is_norm _), (_ =? 0); cbn; lia.
Qed.

Lemma total_unspent_root q :
  total_unspent (<[0 := Container q 0 0 0 1]> ∅) = q.
Proof.
  rewrite total_unspent_insert by bounds.
  change (total_unspent ∅) with 0. change (unspent (aget ∅ 0)) with 0. unfold unspent. cbn. lia.
Qed.

Lemma free_pages_bounds s : pmm_ok s → 0 ≤ free_pages s ≤ NUM_PAGES s.
Proof.
  intros [_ Hn _]. unfold free_pages.
  assert (∀ n i, 0 ≤ zsum (λ i, cbool (free_page s i)) n i ≤ Z.of_nat n) as H.
  { induction n as [|n IH]; intros i; cbn [zsum]; [lia|]. specialize (IH (i + 1)).
    destruct (free_page s i); cbn [cbool]; lia. }
  specialize (H (Z.to_nat (NUM_PAGES s - 1)) 1). lia.
Qed.

Lemma pmem_max_page_pos n pm nps :
  (0 < n)%nat → physmap_ok pm → 0 ≤ nps ≤ AT_SIZE → 0 < pmem_max_page n pm 0 nps.
Proof.
  intros Hn Hok Hnps. destruct n as [|n]; [lia|]. cbn [pmem_max_page].
  set (e := u32 (get_mms pm 0 + get_mml pm 0)).
  assert (0 ≤ e < two32) as He by apply u32_range. unfold two32, PAGESIZE, AT_SIZE in *.
  assert (0 ≤ e / 4096 < 1048576) as Hd by (Z.to_euclidean_division_equations; lia).
  rewrite u32_small by (unfold is_u32, two32; lia).
  pose proof (pmem_max_page_bound n pm (0 + 1)
    (if nps <? e / 4096 + 1 then e / 4096 + 1 else nps) Hok) as Hb.
  unfold AT_SIZE in Hb. destruct (Z.ltb_spec nps (e / 4096 + 1)); lia.
Qed.

(** After boot the root container holds every free page as quota. *)
Lemma wp_container_init m mbi pm Q :
  pmmap_init m mbi boot_physmap = Ok (tt, pm) → pmmap_list pm ≠ [] →
  (∀ p, pmm_ok p → pmm_map p = pm → (∀ i, allocated (aget (AT p) i) = 0) →
     (∀ i, is_norm (aget (AT p) i) = true → VM_USERLO_PI ≤ i < VM_USERHI_PI) →
     Q tt (Cont p (<[0 := Container (free_pages p) 0 0 0 1]> ∅))) →
  wp (container_init m mbi) Q boot_cont.
Proof.
  intros Hinit Hne HQ. pose proof (pmmap_init_ok _ _ _ Hinit) as Hok.
  unfold container_init. wp_step. wp_step. apply (wp_pmem_init m mbi pm _ Hinit).
  intros at_ nps Hn _ Hal. unfold get_nps. wp_steps. cbn [lset lget l_c_pmm c_pmm NUM_PAGES].
  assert (0 < nps) as Hpos.
  { apply pmem_max_page_pos; [|done|unfold AT_SIZE; lia]. unfold get_size.
    destruct Hok as [_ ->]. destruct (pmmap_list pm); [done|cbn; lia]. }
  set (p := Pmm released nps at_ 262144 pm).
  assert (pmm_ok p) as Hp by (split; cbn; [done|lia|unfold AT_SIZE; lia]).
  pose proof (free_pages_bounds p Hp) as Hf. cbn [NUM_PAGES p] in Hf.
  apply wp_count_free; [lia|lia|lia|]. cbn [c_pmm CONTAINER boot_cont].
  change (zsum _ _ 1) with (free_pages p). apply wp_con_upd; [bounds|].
  rewrite Z.add_0_l, s32_small by (unfold AT_SIZE in *; lia).
  apply HQ; [done|done| |]; intros i; cbn [AT p]; destruct (Hal i) as [->| ->]; try done.
  intros Hnorm. destruct (page_perm_cases pm i) as [E|[E|E]]; rewrite E in Hnorm; [done|done|].
  by apply (page_perm_norm pm i Hok) in E as [? _].
Qed.

Lemma wp_container_init_ok m mbi pm Q :
  pmmap_init m mbi boot_physmap = Ok (tt, pm) → pmmap_list pm ≠ [] →
  (∀ s, cont_ok s → quota (aget (CONTAINER s) 0) = free_pages (c_pmm s) →
     total_unspent (CONTAINER s) = free_pages (c_pmm s) →
     (∀ i, allocated (aget (AT (c_pmm s)) i) = 0) →
     (∀ i, is_norm (aget (AT (c_pmm s)) i) = true → VM_USERLO_PI ≤ i < VM_USERHI_PI) →
     Q tt s) →
  wp (container_init m mbi) Q boot_cont.
Proof.
  intros Hinit Hne HQ. apply (wp_container_init m mbi pm _ Hinit Hne). intros p Hp _ Hal Hn.
  pose proof (free_pages_bounds p Hp). pose proof (ok_pages p Hp).
  apply HQ; cbn [c_pmm CONTAINER]; [|done|apply total_unspent_root|done|done].
  unfold AT_SIZE in *. split; cbn [c_pmm CONTAINER].
  - done.
  - intros id. rewrite aget_insert. unfold con_ok, MAX_CHILDREN.
    case_decide; [cbn; lia|by vm_compute].
  - intros id Hid. rewrite aget_ne by lia. done.
  - intros id. rewrite aget_insert. by case_decide.
  - intros i Hi. by rewrite Hal in Hi.
  - rewrite total_unspent_root. lia.
Qed.

(** ** Claims *)

(** After boot the root container's quota is exactly the number of free
    pages, and the invariant of the container layer holds. *)
Theorem container_init_ok (m : mem) (mbi : Z) (pm : physmap) :
  pmmap_init m mbi boot_physmap = Ok (tt, pm) → pmmap_list pm ≠ [] →
  ∃ s, container_init m mbi boot_cont = Ok (tt, s) ∧ cont_ok s
    ∧ quota (aget (CONTAINER s) 0) = free_pages (c_pmm s)
    ∧ total_unspent (CONTAINER s) = free_pages (c_pmm s).
Proof.
  intros Hinit Hne.
  edestruct (wp_run (container_init m mbi) (λ _ s, cont_ok s
    ∧ quota (aget (CONTAINER s) 0) = free_pages (c_pmm s)
    ∧ total_unspent (CONTAINER s) = free_pages (c_pmm s))) as ([] & s & Hs & HQ);
    [|by exists s].
  by apply (wp_container_init_ok m mbi pm _ Hinit Hne).
Qed.

(** A container layer with ten pages, seven of them free and all of them the
    quota of the root. *)
Definition sample_cont : cont :=
  Cont (sample_pmm 10 1 [2; 3; 4; 5; 7; 8; 9]) (<[0 := Container 7 0 0 0 1]> ∅).

Lemma sample_cont_ok : cont_ok sample_cont.
Proof.
  split; cbn [c_pmm CONTAINER sample_cont].
  - by split; vm_compute.
  - intros id. rewrite aget_insert. unfold con_ok, MAX_CHILDREN.
    case_decide; [cbn; lia|by vm_compute].
  - intros id Hid. rewrite aget_ne by lia. done.
  - intros id. rewrite aget_insert. by case_decide.
  - intros i. unfold sample_pmm. cbn. rewrite !aget_insert. repeat case_decide; done.
  - by vm_compute.
Qed.

(** C13: quotas are never overcommitted.  In every state the layer can reach by
    spawning children, allocating and freeing pages, every container keeps
    [0 <= usage <= quota], children sit in the slots computed from their
    parent, and the unspent quotas of all containers together are at most the
    number of free pages. *)
Theorem container_reachable_ok (s s' : cont) :
  cont_ok s → rtc cont_step s s' → cont_ok s'.
Proof.
  intros Hok Hr. revert Hok. induction Hr as [|x y z Hxy _ IH]; [done|].
  intros Hok. by eapply IH, cont_step_ok.
Qed.

Lemma container_reachable_ok_witness :
  ∃ child r s1 s2, container_split 0 3 sample_cont = Ok (child, s1)
    ∧ container_alloc child s1 = Ok (r, s2) ∧ cont_ok s2.
Proof.
  do 4 eexists. split; [by vm_compute|]. split; [by vm_compute|].
  eapply (container_reachable_ok sample_cont); [exact sample_cont_ok|].
  eapply rtc_l.
  { eapply (step_split _ _ 0 3 1); by vm_compute. }
  eapply rtc_once. eapply (step_alloc _ _ 1); by vm_compute.
Defined.

(** A container with quota left finds a free page in the machine. *)
Lemma unspent_free s id :
  cont_ok s → 0 ≤ id < NUM_IDS → 0 < unspent (aget (CONTAINER s) id) →
  ∃ i, 0 < i < NUM_PAGES (c_pmm s) ∧ free_page (c_pmm s) i = true.
Proof.
  intros Hok Hid Hun. pose proof (co_backed s Hok) as Hb.
  assert (unspent (aget (CONTAINER s) id) ≤ total_unspent (CONTAINER s)).
  { apply (zsum_ge (λ id, unspent (aget (CONTAINER s) id))); [|bounds].
    intros j _. apply con_ok_unspent, (co_con s Hok). }
  destruct (zsum_pos (λ i, cbool (free_page (c_pmm s) i))
    (Z.to_nat (NUM_PAGES (c_pmm s) - 1)) 1) as (i & Hi & Hf).
  { unfold free_pages in Hb. lia. }
  exists i. split; [lia|]. by destruct (free_page (c_pmm s) i).
Qed.

(** A container with two pages of quota left gets a page from one of two
    consecutive calls of [container_alloc]: other processes cannot have used
    up what was dedicated to it. *)
Theorem container_alloc_served (s : cont) (id : Z) :
  cont_ok s → 0 ≤ id < NUM_IDS → 2 ≤ unspent (aget (CONTAINER s) id) →
  ∃ r1 s1, container_alloc id s = Ok (r1, s1)
    ∧ (r1 ≠ 0 ∨ ∃ r2 s2, container_alloc id s1 = Ok (r2, s2) ∧ r2 ≠ 0).
Proof.
  intros Hok Hid Hun. apply wp_run.
  pose proof (ok_last _ (co_pmm s Hok)). pose proof (ok_pages _ (co_pmm s Hok)).
  apply wp_container_alloc; [done|done|lia|]. intros r p c Hun1 Hr Hno.
  assert (r = 0 ∨ 0 < r < NUM_PAGES p ∧ free_page p r = true) as Hr'.
  { destruct Hr as [?|[? ?]]; [by left|right]. split; [subst p; lia|done]. }
  pose proof (container_alloc_ok s id r Hok Hid Hun1 Hr') as Hok1. fold p c in Hok1.
  set (s1 := Cont _ _) in *. destruct (decide (r = 0)) as [Hr0|]; [right|by left].
  assert (unspent (aget (CONTAINER s1) id) = unspent c - 1) as Hun2.
  { unfold s1. cbn. rewrite aget_eq. unfold unspent. cbn. lia. }
  fold c in Hun. apply wp_run.
  apply wp_container_alloc; [done|done|lia|]. intros r2 p1 c1 _ Hr2 Hno2 ->.
  destruct (unspent_free s1 id Hok1 Hid) as (i & Hi & Hf); [lia|].
  rewrite Hno2 in Hf; [done|]. unfold p1, s1 in *. cbn in *. subst r. lia.
Qed.

(** The sum in [container_can_consume] is taken modulo 2^32: a container that
    uses one page of its quota of seven is told it may consume 2^32 - 1. *)
Lemma can_consume_wraps :
  let s := Cont (sample_pmm 10 1 [2]) (<[0 := Container 7 1 0 0 1]> ∅) in
  container_can_consume 0 4294967295 s = Ok (1, s).
Proof. by vm_compute. Qed.

(** [container_alloc] charges the container also when [palloc] returns no page. *)
Lemma container_alloc_charges_failure :
  let s := Cont (sample_pmm 10 9 [3]) (<[0 := Container 1 0 0 0 1]> ∅) in
  ∃ s', container_alloc 0 s = Ok (0, s') ∧ usage (aget (CONTAINER s') 0) = 1.
Proof. eexists. split; by vm_compute. Qed.
