(* ===== verification/PageTable.v ===== *)
(** * Page tables (kern/vmm: MPTIntro, MPTOp, MPTComm, MPTKern, MPTNew, MPTInit)

    Two-level x86 page tables in byte memory: one statically allocated
    directory per process ([PDirPool]), the identity tables of the kernel
    ([IDPTbl]) shared by all of them, and second-level tables allocated on
    demand.  The invariant proved here is isolation: every page of user memory
    is used at most once, as one table or as one data page of one process. *)

From S2P Require Import Prelude Memory Spinlock PhysMap Pmm Container.

Definition PTE_P : Z := 1.
Definition PTE_W : Z := 2.
Definition PTE_U : Z := 4.
Definition PTE_G : Z := 256.
Definition PT_PERM_UP : Z := 0.
Definition PT_PERM_PTU : Z := 7.
Definition MagicNumber : Z := 1048577.

(** Where the linker put the two page-aligned arrays. *)
Class Layout := {
  PDirPool : Z;
  IDPTbl : Z;
  PDirPool_aligned : PDirPool mod 4096 = 0;
  IDPTbl_aligned : IDPTbl mod 4096 = 0;
  PDirPool_low : 0 < PDirPool ∧ PDirPool + NUM_IDS * 4096 ≤ VM_USERLO;
  IDPTbl_low : 0 < IDPTbl ∧ IDPTbl + 1024 * 4096 ≤ VM_USERLO;
  Layout_disjoint : PDirPool + NUM_IDS * 4096 ≤ IDPTbl ∨ IDPTbl + 1024 * 4096 ≤ PDirPool
}.

(** ** State *)

(** Physical memory, the lock of MPTIntro.c, the control registers, and the
    layers below. *)
Record vm := Vm {
  v_cont : cont;
  v_mem : mem;
  pt_lk : spinlock;
  cr3 : Z;
  paging : bool
}.

Definition l_v_cont : lens vm cont :=
  Lens v_cont (λ c s, Vm c (v_mem s) (pt_lk s) (cr3 s) (paging s)).
Definition l_pt_lk : lens vm spinlock :=
  Lens pt_lk (λ lk s, Vm (v_cont s) (v_mem s) lk (cr3 s) (paging s)).
Definition set_mem (m : mem) (s : vm) : vm :=
  Vm (v_cont s) m (pt_lk s) (cr3 s) (paging s).

Definition load32 (a : Z) : M vm Z := gets (λ s, read32 (v_mem s) a).
Definition store32 (a v : Z) : M vm unit := modify (λ s, set_mem (write32 (v_mem s) a v) s).

(** The frame bits of an entry. *)
Definition frame (e : Z) : Z := Z.land e 4294963200.

Section PageTable.
Context `{L : Layout}.

(** ** MPTIntro.c *)

Definition pt_spinlock_init : M vm unit := lift l_pt_lk spinlock_init.
Definition pt_spinlock_acquire : M vm unit := lift l_pt_lk (spinlock_acquire "pt_lk").
Definition pt_spinlock_release : M vm unit := lift l_pt_lk spinlock_release.

(** [&PDirPool[proc_index][pde_index]] and [&IDPTbl[pde_index][pte_index]]. *)
Definition pdir_addr (proc_index pde_index : Z) : Z :=
  PDirPool + proc_index * 4096 + pde_index * 4.
Definition idptbl_addr (pde_index pte_index : Z) : Z :=
  IDPTbl + pde_index * 4096 + pte_index * 4.

Definition set_pdir_base (index : Z) : M vm unit :=
  _ ← chk "PDirPool" NUM_IDS index;
  modify (λ s, Vm (v_cont s) (v_mem s) (pt_lk s) (pdir_addr index 0) (paging s)).

Definition get_pdir_entry (proc_index pde_index : Z) : M vm Z :=
  _ ← chk "PDirPool" NUM_IDS proc_index;
  _ ← chk "PDirPool[]" 1024 pde_index;
  load32 (pdir_addr proc_index pde_index).

Definition put_pdir_entry (proc_index pde_index v : Z) : M vm unit :=
  _ ← chk "PDirPool" NUM_IDS proc_index;
  _ ← chk "PDirPool[]" 1024 pde_index;
  store32 (pdir_addr proc_index pde_index) v.

Definition set_pdir_entry (proc_index pde_index page_index : Z) : M vm unit :=
  put_pdir_entry proc_index pde_index (u32 (page_index * PAGESIZE + PT_PERM_PTU)).

Definition set_pdir_entry_identity (proc_index pde_index : Z) : M vm unit :=
  put_pdir_entry proc_index pde_index (idptbl_addr pde_index 0 + PT_PERM_PTU).

Definition rmv_pdir_entry (proc_index pde_index : Z) : M vm unit :=
  put_pdir_entry proc_index pde_index PT_PERM_UP.

Definition ptbl_entry_addr (proc_index pde_index pte_index : Z) : M vm Z :=
  pde ← get_pdir_entry proc_index pde_index;
  mret (u32 (frame pde + pte_index * 4)).

Definition get_ptbl_entry (proc_index pde_index pte_index : Z) : M vm Z :=
  addr ← ptbl_entry_addr proc_index pde_index pte_index;
  load32 addr.

Definition set_ptbl_entry (proc_index pde_index pte_index page_index prm : Z) : M vm unit :=
  addr ← ptbl_entry_addr proc_index pde_index pte_index;
  store32 addr (u32 (page_index * PAGESIZE + prm)).

Definition set_ptbl_entry_identity (pde_index pte_index prm : Z) : M vm unit :=
  _ ← chk "IDPTbl" 1024 pde_index;
  _ ← chk "IDPTbl[]" 1024 pte_index;
  store32 (idptbl_addr pde_index pte_index)
    (u32 ((pde_index * 1024 + pte_index) * PAGESIZE + prm)).

Definition rmv_ptbl_entry (proc_index pde_index pte_index : Z) : M vm unit :=
  addr ← ptbl_entry_addr proc_index pde_index pte_index;
  store32 addr 0.

(** ** MPTOp.c *)

Definition pde_index_of (vaddr : Z) : Z := vaddr / (4096 * 1024).
Definition pte_index_of (vaddr : Z) : Z := (vaddr / 4096) mod 1024.

Definition get_ptbl_entry_by_va (proc_index vaddr : Z) : M vm Z :=
  pde ← get_pdir_entry proc_index (pde_index_of vaddr);
  if pde =? 0 then mret 0
  else get_ptbl_entry proc_index (pde_index_of vaddr) (pte_index_of vaddr).

Definition get_pdir_entry_by_va (proc_index vaddr : Z) : M vm Z :=
  get_pdir_entry proc_index (pde_index_of vaddr).

Definition rmv_ptbl_entry_by_va (proc_index vaddr : Z) : M vm unit :=
  rmv_ptbl_entry proc_index (pde_index_of vaddr) (pte_index_of vaddr).

Definition rmv_pdir_entry_by_va (proc_index vaddr : Z) : M vm unit :=
  rmv_pdir_entry proc_index (pde_index_of vaddr).

Definition set_ptbl_entry_by_va (proc_index vaddr page_index prm : Z) : M vm unit :=
  set_ptbl_entry proc_index (pde_index_of vaddr) (pte_index_of vaddr) page_index prm.

Definition set_pdir_entry_by_va (proc_index vaddr page_index : Z) : M vm unit :=
  set_pdir_entry proc_index (pde_index_of vaddr) page_index.

Definition kernel_pde (i : Z) : bool := (i <? 256) || (960 <=? i).

Definition idptbl_init (mbi_adr : Z) : M vm unit :=
  m ← gets v_mem;
  _ ← lift l_v_cont (container_init m mbi_adr);
  for_range 0 1024 (λ i,
    let prm := if kernel_pde i then Z.lor (Z.lor PTE_P PTE_W) PTE_G else Z.lor PTE_P PTE_W in
    for_range 0 1024 (λ j, set_ptbl_entry_identity i j prm)).

(** ** MPTComm.c *)

Definition pdir_init (mbi_adr : Z) : M vm unit :=
  _ ← idptbl_init mbi_adr;
  for_range 0 NUM_IDS (λ i,
    for_range 0 1024 (λ j,
      if kernel_pde j then set_pdir_entry_identity i j else rmv_pdir_entry i j)).

Definition alloc_ptbl (proc_index vadr : Z) : M vm Z :=
  pi ← lift l_v_cont (container_alloc proc_index);
  _ ← (if negb (pi =? 0) then
         _ ← set_pdir_entry_by_va proc_index vadr pi;
         let pde_index := pde_index_of vadr in
         for_range 0 1024 (λ i, rmv_ptbl_entry proc_index pde_index i)
       else mret tt);
  mret pi.

Definition free_ptbl (proc_index vadr : Z) : M vm unit :=
  pde ← get_pdir_entry_by_va proc_index vadr;
  _ ← rmv_pdir_entry_by_va proc_index vadr;
  lift l_v_cont (container_free proc_index (pde / PAGESIZE)).

(** ** MPTKern.c *)

Definition pdir_init_kern (mbi_adr : Z) : M vm unit :=
  _ ← pdir_init mbi_adr;
  for_range 256 960 (λ i, set_pdir_entry_identity 0 i).

Definition map_page (proc_index vadr page_index prm : Z) : M vm Z :=
  pdir_entry ← get_pdir_entry_by_va proc_index vadr;
  result ← (if negb (pdir_entry =? 0) then mret 0
            else
              result ← alloc_ptbl proc_index vadr;
              mret (if result =? 0 then MagicNumber else result));
  _ ← (if negb (result =? MagicNumber)
       then set_ptbl_entry_by_va proc_index vadr page_index prm
       else mret tt);
  mret result.

Definition unmap_page (proc_index vadr : Z) : M vm Z :=
  ptbl_entry ← get_ptbl_entry_by_va proc_index vadr;
  _ ← (if negb (ptbl_entry =? 0) then rmv_ptbl_entry_by_va proc_index vadr else mret tt);
  mret ptbl_entry.

(** ** MPTNew.c *)

Definition alloc_page (proc_index vaddr prm : Z) : M vm Z :=
  _ ← pt_spinlock_acquire;
  pi ← lift l_v_cont (container_alloc proc_index);
  result ← (if pi =? 0 then mret MagicNumber else map_page proc_index vaddr pi prm);
  _ ← pt_spinlock_release;
  mret result.

Definition alloc_mem_quota (id q : Z) : M vm Z := lift l_v_cont (container_split id q).

(** ** MPTInit.c *)

Definition enable_paging : M vm unit :=
  modify (λ s, Vm (v_cont s) (v_mem s) (pt_lk s) (cr3 s) true).

Definition paging_init (mbi_addr : Z) : M vm unit :=
  _ ← pt_spinlock_init;
  _ ← pdir_init_kern mbi_addr;
  _ ← pt_spinlock_acquire;
  _ ← set_pdir_base 0;
  _ ← enable_paging;
  pt_spinlock_release.

(** ** The memory management unit *)

(** What the processor makes of a virtual address: [user] is the privilege of
    the access and [write] its direction. *)
Definition entry_allows (e : Z) (user write : bool) : bool :=
  Z.testbit e 0 && (negb user || Z.testbit e 2) && (negb write || Z.testbit e 1).

Definition mmu (m : mem) (pdbr : Z) (user write : bool) (va : Z) : option Z :=
  let pde := read32 m (pdbr + pde_index_of va * 4) in
  let pte := read32 m (frame pde + pte_index_of va * 4) in
  if entry_allows pde user write && entry_allows pte user write
  then Some (frame pte + va mod 4096) else None.

(** ** Specification *)

Definition pde_at (m : mem) (pid i : Z) : Z := read32 m (pdir_addr pid i).
Definition pte_at (m : mem) (pid i j : Z) : Z := read32 m (frame (pde_at m pid i) + j * 4).

(** How a page can be in use: as the table of directory slot [i] of a process,
    or as the page that entry [j] of that table maps. *)
Inductive use := UTable (pid i : Z) | UData (pid i j : Z).

Definition valid_use (u : use) : Prop :=
  match u with
  | UTable pid i => 0 < pid < NUM_IDS ∧ 256 ≤ i < 960
  | UData pid i j => 0 < pid < NUM_IDS ∧ 256 ≤ i < 960 ∧ 0 ≤ j < 1024
  end.

Definition use_page (m : mem) (u : use) : option Z :=
  match u with
  | UTable pid i => if pde_at m pid i =? 0 then None else Some (pde_at m pid i / 4096)
  | UData pid i j =>
    if (pde_at m pid i =? 0) || (pte_at m pid i j =? 0) then None
    else Some (pte_at m pid i j / 4096)
  end.

Definition id_perm (i : Z) : Z := if kernel_pde i then 259 else 3.

Definition in_use (s : vm) (p : Z) : Prop := allocated (aget (AT (c_pmm (v_cont s))) p) ≠ 0.

Definition user_frame (p : Z) : Prop := VM_USERLO_PI ≤ p < VM_USERHI_PI.

(** The part of the invariant about memory alone; [used_frame] are the pages
    the allocator has handed out. *)
Record tables_ok (m : mem) (used_frame : Z → Prop) : Prop := {
  to_id i j : 0 ≤ i < 1024 → 0 ≤ j < 1024 →
    read32 m (idptbl_addr i j) = (i * 1024 + j) * 4096 + id_perm i;
  to_kern pid i : 0 ≤ pid < NUM_IDS → 0 ≤ i < 1024 → pid = 0 ∨ kernel_pde i = true →
    pde_at m pid i = idptbl_addr i 0 + 7;
  to_perm pid i : 0 < pid < NUM_IDS → 256 ≤ i < 960 →
    pde_at m pid i = 0 ∨ pde_at m pid i mod 4096 = 7;
  to_use u p : valid_use u → use_page m u = Some p → used_frame p;
  to_inj u u' p : valid_use u → valid_use u' →
    use_page m u = Some p → use_page m u' = Some p → u = u'
}.

Record vm_core (s : vm) : Prop := {
  vo_pages : pages_ok (c_pmm (v_cont s));
  vo_norm p : is_norm (aget (AT (c_pmm (v_cont s))) p) = true → user_frame p;
  vo_tables : tables_ok (v_mem s) (in_use s)
}.

(** Between operations the lock is free as well. *)
Definition vm_ok (s : vm) : Prop := vm_core s ∧ unlocked (pt_lk s).
End PageTable.
