(* ===== verification/Isolation.v ===== *)
(** * Page tables: isolation of processes

    Proofs about the operations of [PageTable]: which words each of them
    changes, that they keep every page in at most one use, and what that means
    for the addresses a process can reach through the MMU. *)

From S2P Require Import Prelude Memory Spinlock PhysMap Pmm Container PageTable.

Ltac bounds ::= first [done | lia
  | unfold AT_SIZE, NUM_IDS, NUM_CPUS, this_cpu, MAX_CHILDREN in *; cbn zeta; lia].

(** ** Frames and flags of an entry *)

Lemma frame_eq e : is_u32 e → frame e = e / 4096 * 4096.
Proof.
  intros He. unfold frame, is_u32, two32 in *.
  change 4294963200 with (Z.shiftl (Z.ones 20) 12).
  replace (e / 4096 * 4096) with (Z.shiftl (Z.shiftr e 12) 12)
    by (rewrite Z.shiftl_mul_pow2, Z.shiftr_div_pow2 by lia; done).
  rewrite <- (Z.land_ones_low (Z.shiftr e 12) 20).
  - apply Z.bits_inj'. intros n Hn.
    rewrite Z.land_spec. destruct (Z.ltb_spec n 12).
    + rewrite !Z.shiftl_spec_low by lia. by rewrite andb_false_r.
    + rewrite !Z.shiftl_spec, Z.land_spec, Z.shiftr_spec by lia.
      by replace (n - 12 + 12) with n by lia.
  - apply Z.shiftr_nonneg. lia.
  - destruct (decide (Z.shiftr e 12 = 0)) as [->|]; [done|].
    apply Z.log2_lt_pow2.
    + assert (0 ≤ Z.shiftr e 12) by (apply Z.shiftr_nonneg; lia). lia.
    + rewrite Z.shiftr_div_pow2 by lia. apply Z.div_lt_upper_bound; lia.
Qed.

Lemma frame_entry p f : 0 ≤ p < 1048576 → 0 ≤ f < 4096 → frame (p * 4096 + f) = p * 4096.
Proof.
  intros. rewrite frame_eq by (unfold is_u32, two32; lia).
  f_equal. symmetry. apply Z.div_unique_pos with f; lia.
Qed.

Lemma entry_page p f : 0 ≤ f < 4096 → (p * 4096 + f) / 4096 = p.
Proof. intros. symmetry. apply Z.div_unique_pos with f; lia. Qed.

Lemma entry_flags p f : 0 ≤ f < 4096 → (p * 4096 + f) mod 4096 = f.
Proof. intros. symmetry. apply Z.mod_unique_pos with p; lia. Qed.

Lemma entry_nonzero p f : 0 < p → 0 ≤ f → p * 4096 + f ≠ 0.
Proof. lia. Qed.

Lemma pde_index_bound va : is_u32 va → 0 ≤ pde_index_of va < 1024.
Proof. unfold is_u32, two32, pde_index_of. intros. Z.to_euclidean_division_equations; lia. Qed.

Lemma pte_index_bound va : 0 ≤ pte_index_of va < 1024.
Proof. unfold pte_index_of. by apply Z.mod_pos_bound. Qed.

Lemma user_pde_index va :
  VM_USERLO ≤ va < VM_USERHI → 256 ≤ pde_index_of va < 960.
Proof.
  unfold VM_USERLO, VM_USERHI, pde_index_of. intros. Z.to_euclidean_division_equations; lia.
Qed.

Lemma va_split va :
  va = (pde_index_of va * 1024 + pte_index_of va) * 4096 + va mod 4096.
Proof.
  unfold pde_index_of, pte_index_of. rewrite <- Z.div_div by lia.
  pose proof (Z.div_mod va 4096). pose proof (Z.div_mod (va / 4096) 1024). lia.
Qed.

#[export] Instance use_eq_dec : EqDecision use.
Proof. solve_decision. Defined.

Section Isolation.
Context `{L : Layout}.

(** ** Which words a change of one page can affect *)

(** [m'] differs from [m] in page [p] only. *)
Definition agree_out (p : Z) (m m' : mem) : Prop :=
  ∀ x, ¬ (p * 4096 ≤ x < (p + 1) * 4096) → read8 m' x = read8 m x.

Lemma agree32 p m m' x :
  agree_out p m m' → x + 4 ≤ p * 4096 ∨ (p + 1) * 4096 ≤ x → read32 m' x = read32 m x.
Proof. intros Ha Hx. apply read32_ext. intros y Hy. apply Ha. lia. Qed.

Lemma pdir_addr_low pid i :
  0 ≤ pid < NUM_IDS → 0 ≤ i < 1024 →
  PDirPool ≤ pdir_addr pid i ∧ pdir_addr pid i + 4 ≤ PDirPool + NUM_IDS * 4096
  ∧ pdir_addr pid i + 4 ≤ VM_USERLO.
Proof. pose proof PDirPool_low. unfold pdir_addr, NUM_IDS in *. lia. Qed.

Lemma idptbl_addr_low i j :
  0 ≤ i < 1024 → 0 ≤ j < 1024 →
  IDPTbl ≤ idptbl_addr i j ∧ idptbl_addr i j + 4 ≤ IDPTbl + 1024 * 4096
  ∧ idptbl_addr i j + 4 ≤ VM_USERLO.
Proof. pose proof IDPTbl_low. unfold idptbl_addr. lia. Qed.

Lemma user_frame_addr p : user_frame p → VM_USERLO ≤ p * 4096 ∧ (p + 1) * 4096 ≤ VM_USERHI.
Proof. unfold user_frame, VM_USERLO_PI, VM_USERHI_PI, VM_USERLO, VM_USERHI. lia. Qed.

Lemma agree_pde p m m' pid i :
  user_frame p → agree_out p m m' → 0 ≤ pid < NUM_IDS → 0 ≤ i < 1024 →
  pde_at m' pid i = pde_at m pid i.
Proof.
  intros Hp%user_frame_addr Ha Hpid Hi. apply (agree32 p); [done|].
  pose proof (pdir_addr_low pid i Hpid Hi). lia.
Qed.

Lemma agree_id p m m' i j :
  user_frame p → agree_out p m m' → 0 ≤ i < 1024 → 0 ≤ j < 1024 →
  read32 m' (idptbl_addr i j) = read32 m (idptbl_addr i j).
Proof.
  intros Hp%user_frame_addr Ha Hi Hj. apply (agree32 p); [done|].
  pose proof (idptbl_addr_low i j Hi Hj). lia.
Qed.

Lemma agree_pte p m m' pid i j :
  user_frame p → agree_out p m m' → 0 ≤ pid < NUM_IDS → 0 ≤ i < 1024 → 0 ≤ j < 1024 →
  pde_at m pid i / 4096 ≠ p → pte_at m' pid i j = pte_at m pid i j.
Proof.
  intros Hp Ha Hpid Hi Hj Hne. unfold pte_at. rewrite (agree_pde p m m') by done.
  apply (agree32 p); [done|]. rewrite frame_eq by apply read32_range. lia.
Qed.

(** A change of a page that is no table leaves every use as it was. *)
Lemma agree_use p m m' u :
  user_frame p → agree_out p m m' → valid_use u →
  (∀ pid i, valid_use (UTable pid i) → use_page m (UTable pid i) ≠ Some p) →
  use_page m' u = use_page m u.
Proof.
  intros Hp Ha Hu Hno. destruct u as [pid i|pid i j]; cbn [use_page valid_use] in *.
  - by rewrite (agree_pde p m m') by bounds.
  - specialize (Hno pid i). destruct Hu as (Hpid & Hi & Hj).
    rewrite (agree_pde p m m') by bounds.
    destruct (Z.eqb_spec (pde_at m pid i) 0); [done|]. cbn [orb].
    rewrite (agree_pte p m m'); try bounds. intros E. apply Hno; [done|]. by rewrite E.
Qed.

Lemma tables_ok_agree p m m' F :
  user_frame p → agree_out p m m' →
  (∀ pid i, valid_use (UTable pid i) → use_page m (UTable pid i) ≠ Some p) →
  tables_ok m F → tables_ok m' F.
Proof.
  intros Hp Ha Hno [Hid Hk Hpm Hu Hinj].
  assert (∀ u, valid_use u → use_page m' u = use_page m u) as Hsame
    by (intros; by eapply agree_use).
  split.
  - intros i j Hi Hj. rewrite (agree_id p m m') by done. by apply Hid.
  - intros pid i Hpid Hi Hor. rewrite (agree_pde p m m') by done. by apply Hk.
  - intros pid i Hpid Hi. rewrite (agree_pde p m m') by bounds. by apply Hpm.
  - intros u q Hv. rewrite Hsame by done. by apply Hu.
  - intros u u' q Hv Hv'. rewrite !Hsame by done. by apply Hinj.
Qed.

Lemma tables_ok_mono m F G : (∀ p, F p → G p) → tables_ok m F → tables_ok m G.
Proof. intros HFG [Hid Hk Hpm Hu Hinj]. split; eauto. Qed.

(** ** Adding a table and adding a mapping *)

(** The entry of a data page, [0] when its table is missing. *)
Definition data_entry (m : mem) (pid i j : Z) : Z :=
  if pde_at m pid i =? 0 then 0 else pte_at m pid i j.

Lemma use_data m pid i j :
  use_page m (UData pid i j) =
  if data_entry m pid i j =? 0 then None else Some (data_entry m pid i j / 4096).
Proof. unfold data_entry. cbn [use_page]. by destruct (pde_at m pid i =? 0). Qed.

Definition fresh (m : mem) (p : Z) : Prop := ∀ u, valid_use u → use_page m u ≠ Some p.

Lemma user_frame_range p : user_frame p → 0 < p < 1048576.
Proof. unfold user_frame, VM_USERLO_PI, VM_USERHI_PI. lia. Qed.

Lemma pde_write_ne m pid i v pid' i' :
  0 ≤ i < 1024 → 0 ≤ i' < 1024 → (pid', i') ≠ (pid, i) →
  pde_at (write32 m (pdir_addr pid i) v) pid' i' = pde_at m pid' i'.
Proof.
  intros Hi Hi' Hne. unfold pde_at. apply read32_write32_ne. unfold pdir_addr.
  assert (pid ≠ pid' ∨ i ≠ i') as Hor.
  { destruct (decide (pid = pid')); [right|by left]. congruence. }
  lia.
Qed.

Lemma pde_write_eq m pid i v : is_u32 v → pde_at (write32 m (pdir_addr pid i) v) pid i = v.
Proof. intros. unfold pde_at. by rewrite read32_write32_eq, u32_small. Qed.

Lemma pte_of_entry m pid i j p f :
  0 ≤ p < 1048576 → 0 ≤ f < 4096 → pde_at m pid i = p * 4096 + f →
  pte_at m pid i j = read32 m (p * 4096 + j * 4).
Proof. intros Hp Hf E. unfold pte_at. by rewrite E, frame_entry. Qed.

(** The memory after [alloc_ptbl] gave directory slot [i] the page [p]. *)
Record table_added (m m' : mem) (pid i p : Z) : Prop := {
  ta_agree : agree_out p (write32 m (pdir_addr pid i) (p * 4096 + 7)) m';
  ta_zero j : 0 ≤ j < 1024 → read32 m' (p * 4096 + j * 4) = 0
}.

Section Add.
Context (m m' : mem) (F : Z → Prop) (pid i p : Z).
Hypothesis Hok : tables_ok m F.
Hypothesis HF : ∀ q, F q → user_frame q.
Hypothesis Hpid : 0 < pid < NUM_IDS.
Hypothesis Hi : 256 ≤ i < 960.
Hypothesis Hp : F p.
Hypothesis Hfresh : fresh m p.

Lemma table_added_pde :
  table_added m m' pid i p → pde_at m' pid i = p * 4096 + 7.
Proof.
  intros [Ha _]. pose proof (user_frame_range p (HF p Hp)).
  rewrite (agree_pde p _ m' pid i (HF p Hp) Ha) by bounds.
  apply pde_write_eq. unfold is_u32, two32. lia.
Qed.

Lemma table_added_pde_ne pid' i' :
  table_added m m' pid i p → 0 ≤ pid' < NUM_IDS → 0 ≤ i' < 1024 → (pid', i') ≠ (pid, i) →
  pde_at m' pid' i' = pde_at m pid' i'.
Proof.
  intros [Ha _] ? ? Hn. rewrite (agree_pde p _ m' _ _ (HF p Hp) Ha) by done.
  apply pde_write_ne; bounds.
Qed.

Lemma table_added_entry pid' i' j :
  table_added m m' pid i p → pde_at m pid i = 0 → valid_use (UData pid' i' j) →
  data_entry m' pid' i' j = data_entry m pid' i' j.
Proof.
  intros Hta Hz Hu. pose proof (user_frame_range p (HF p Hp)) as Hpr.
  cbn [valid_use] in Hu. unfold data_entry.
  destruct (decide ((pid', i') = (pid, i))) as [[= -> ->]|Hn].
  - pose proof (table_added_pde Hta) as Hpde.
    rewrite Hz, (pte_of_entry m' pid i j p 7 ltac:(lia) ltac:(lia) Hpde).
    rewrite (ta_zero _ _ _ _ _ Hta) by lia. by case_match.
  - rewrite (table_added_pde_ne pid' i' Hta) by bounds.
    destruct (Z.eqb_spec (pde_at m pid' i') 0); [done|].
    assert (pde_at m pid' i' / 4096 ≠ p) as Hneq.
    { intros E. apply (Hfresh (UTable pid' i')); [cbn; bounds|]. cbn.
      rewrite (proj2 (Z.eqb_neq _ 0)) by done. by rewrite E. }
    unfold pte_at. rewrite (table_added_pde_ne pid' i' Hta) by bounds.
    rewrite frame_eq by apply read32_range.
    assert (user_frame (pde_at m pid' i' / 4096)) as Hq%user_frame_addr.
    { apply HF, (to_use m F Hok (UTable pid' i')); [cbn; bounds|]. cbn.
      by rewrite (proj2 (Z.eqb_neq _ 0)) by done. }
    rewrite (agree32 p _ m' _ (ta_agree _ _ _ _ _ Hta)) by lia. apply read32_write32_ne.
    pose proof (pdir_addr_low pid i ltac:(bounds) ltac:(bounds)). lia.
Qed.

Lemma table_added_use u :
  table_added m m' pid i p → pde_at m pid i = 0 → valid_use u → u ≠ UTable pid i →
  use_page m' u = use_page m u.
Proof.
  intros Hta Hz Hu Hne. destruct u as [pid' i'|pid' i' j].
  - cbn [use_page valid_use] in *.
    rewrite (table_added_pde_ne pid' i' Hta); [done|bounds|bounds|congruence].
  - by rewrite !use_data, (table_added_entry pid' i' j).
Qed.

Lemma table_added_ok :
  table_added m m' pid i p → pde_at m pid i = 0 → tables_ok m' F.
Proof.
  intros Hta Hz. pose proof (table_added_pde Hta) as Hpde.
  pose proof (table_added_use) as Huse. pose proof (user_frame_range p (HF p Hp)) as Hpr.
  assert (use_page m' (UTable pid i) = Some p) as Hnew.
  { cbn. rewrite Hpde, entry_page by lia. by rewrite (proj2 (Z.eqb_neq _ 0)) by lia. }
  pose proof (λ pid' i', table_added_pde_ne pid' i' Hta) as Hoth.
  pose proof Hok as [Hid Hk Hpm Hu Hinj]. split.
  - intros a b Ha Hb. rewrite (agree_id p _ m' a b (HF p Hp) (ta_agree _ _ _ _ _ Hta)) by done.
    rewrite read32_write32_ne; [by apply Hid|].
    pose proof (idptbl_addr_low a b Ha Hb).
    pose proof (pdir_addr_low pid i ltac:(bounds) ltac:(bounds)).
    pose proof Layout_disjoint. lia.
  - intros pid' i' Hpid' Hi' Hor. rewrite Hoth; [by apply Hk|done|done|].
    intros [= -> ->]. destruct Hor as [->|Hker]; [lia|]. unfold kernel_pde in Hker. lia.
  - intros pid' i' Hpid' Hi'. destruct (decide ((pid', i') = (pid, i))) as [[= -> ->]|Hn].
    + right. rewrite Hpde. apply entry_flags. lia.
    + rewrite Hoth by bounds. by apply Hpm.
  - intros u q Hv. destruct (decide (u = UTable pid i)) as [->|Hn].
    + rewrite Hnew. by intros [= <-].
    + rewrite Huse by done. by apply Hu.
  - intros u u' q Hv Hv'.
    destruct (decide (u = UTable pid i)) as [->|Hn], (decide (u' = UTable pid i)) as [->|Hn'];
      [done| | |].
    + rewrite Hnew, Huse by done. intros [= <-] Hc. by destruct (Hfresh u').
    + rewrite Hnew, Huse by done. intros Hc [= <-]. by destruct (Hfresh u).
    + rewrite !Huse by done. by apply Hinj.
Qed.
End Add.

(** Setting entry [j] of an existing table to [p] with flags [f]. *)
Section SetEntry.
Context (m : mem) (F : Z → Prop) (pid i j p f : Z).
Hypothesis Hok : tables_ok m F.
Hypothesis HF : ∀ q, F q → user_frame q.
Hypothesis Hpid : 0 < pid < NUM_IDS.
Hypothesis Hi : 256 ≤ i < 960.
Hypothesis Hj : 0 ≤ j < 1024.
Hypothesis Hpde : pde_at m pid i ≠ 0.
Hypothesis Hp : F p.
Hypothesis Hf : 0 ≤ f < 4096.
Hypothesis Hfresh : fresh m p.

Let q := pde_at m pid i / 4096.
Let m' := write32 m (frame (pde_at m pid i) + j * 4) (p * 4096 + f).

Lemma set_entry_table : use_page m (UTable pid i) = Some q.
Proof. cbn. by rewrite (proj2 (Z.eqb_neq _ 0)). Qed.

Lemma set_entry_frame : user_frame q.
Proof. apply HF, (to_use m F Hok (UTable pid i)); [cbn; bounds|apply set_entry_table]. Qed.

Lemma set_entry_addr : frame (pde_at m pid i) = q * 4096.
Proof. apply frame_eq, read32_range. Qed.

Lemma set_entry_agree : agree_out q m m'.
Proof.
  intros x Hx. unfold m'. rewrite set_entry_addr, read8_write32.
  by rewrite decide_False by lia.
Qed.

Lemma set_entry_pde pid' i' :
  0 ≤ pid' < NUM_IDS → 0 ≤ i' < 1024 → pde_at m' pid' i' = pde_at m pid' i'.
Proof. apply (agree_pde q); [apply set_entry_frame|apply set_entry_agree]. Qed.

Lemma set_entry_pte : pte_at m' pid i j = p * 4096 + f.
Proof.
  pose proof (user_frame_range p (HF p Hp)). unfold pte_at.
  rewrite set_entry_pde by bounds. unfold m'. rewrite read32_write32_eq.
  apply u32_small. unfold is_u32, two32. lia.
Qed.

Lemma set_entry_pte_ne pid' i' j' :
  0 < pid' < NUM_IDS → 256 ≤ i' < 960 → 0 ≤ j' < 1024 → pde_at m pid' i' ≠ 0 →
  (pid', i', j') ≠ (pid, i, j) → pte_at m' pid' i' j' = pte_at m pid' i' j'.
Proof.
  intros Hpid' Hi' Hj' Hz Hne. destruct (decide (pde_at m pid' i' / 4096 = q)) as [Hq|Hq].
  - assert (UTable pid' i' = UTable pid i) as [= -> ->].
    { apply (to_inj m F Hok _ _ q); [cbn; bounds|cbn; bounds| |apply set_entry_table].
      cbn. rewrite (proj2 (Z.eqb_neq _ 0)) by done. by rewrite Hq. }
    unfold pte_at. rewrite set_entry_pde by bounds. unfold m'. apply read32_write32_ne.
    assert (j ≠ j') by congruence. lia.
  - apply (agree_pte q); [apply set_entry_frame|apply set_entry_agree|bounds..].
Qed.

Lemma set_entry_new : use_page m' (UData pid i j) = Some p.
Proof.
  pose proof (user_frame_range p (HF p Hp)). cbn.
  rewrite set_entry_pte, set_entry_pde, entry_page by bounds.
  rewrite !(proj2 (Z.eqb_neq _ 0)) by lia. done.
Qed.

Lemma set_entry_entry pid' i' j' :
  valid_use (UData pid' i' j') → (pid', i', j') ≠ (pid, i, j) →
  data_entry m' pid' i' j' = data_entry m pid' i' j'.
Proof.
  cbn [valid_use]. intros Hu Hne. unfold data_entry. rewrite set_entry_pde by bounds.
  destruct (Z.eqb_spec (pde_at m pid' i') 0); [done|].
  apply set_entry_pte_ne; [bounds|bounds|bounds|done|done].
Qed.

Lemma set_entry_use u :
  valid_use u → u ≠ UData pid i j → use_page m' u = use_page m u.
Proof.
  intros Hu Hne. destruct u as [pid' i'|pid' i' j'].
  - cbn [use_page valid_use] in *. by rewrite set_entry_pde by bounds.
  - rewrite !use_data, set_entry_entry; [done|done|congruence].
Qed.

Lemma set_entry_ok : tables_ok m' F.
Proof.
  pose proof Hok as [Hid Hk Hpm Hu Hinj]. split.
  - intros a b Ha Hb.
    rewrite (agree_id q m m' a b set_entry_frame set_entry_agree) by done. by apply Hid.
  - intros pid' i' Hpid' Hi' Hor. rewrite set_entry_pde by done. by apply Hk.
  - intros pid' i' Hpid' Hi'. rewrite set_entry_pde by bounds. by apply Hpm.
  - intros u r Hv. destruct (decide (u = UData pid i j)) as [->|Hn].
    + rewrite set_entry_new. by intros [= <-].
    + rewrite set_entry_use by done. by apply Hu.
  - intros u u' r Hv Hv'.
    destruct (decide (u = UData pid i j)) as [->|Hn], (decide (u' = UData pid i j)) as [->|Hn'];
      [done| | |].
    + rewrite set_entry_new, set_entry_use by done. intros [= <-] Hc. by destruct (Hfresh u').
    + rewrite set_entry_new, set_entry_use by done. intros Hc [= <-]. by destruct (Hfresh u).
    + rewrite !set_entry_use by done. by apply Hinj.
Qed.
End SetEntry.

(** ** The operations *)

(** What [get_ptbl_entry_by_va] reads. *)
Definition va_entry (m : mem) (pid va : Z) : Z :=
  data_entry m pid (pde_index_of va) (pte_index_of va).

Lemma wp_get_pdir_entry pid i Q s :
  0 ≤ pid < NUM_IDS → 0 ≤ i < 1024 → Q (pde_at (v_mem s) pid i) s →
  wp (get_pdir_entry pid i) Q s.
Proof. intros. unfold get_pdir_entry, load32. by wp_steps. Qed.

Lemma wp_put_pdir_entry pid i v Q s :
  0 ≤ pid < NUM_IDS → 0 ≤ i < 1024 →
  Q tt (set_mem (write32 (v_mem s) (pdir_addr pid i) v) s) → wp (put_pdir_entry pid i v) Q s.
Proof. intros. unfold put_pdir_entry, store32. by wp_steps. Qed.

Lemma wp_ptbl_entry_addr pid i j Q s :
  0 ≤ pid < NUM_IDS → 0 ≤ i < 1024 → 0 ≤ j < 1024 →
  Q (frame (pde_at (v_mem s) pid i) + j * 4) s → wp (ptbl_entry_addr pid i j) Q s.
Proof.
  intros Hpid Hi Hj HQ. unfold ptbl_entry_addr. wp_step. apply wp_get_pdir_entry; [done|done|].
  wp_steps. rewrite u32_small; [done|].
  assert (is_u32 (pde_at (v_mem s) pid i)) as H by apply read32_range.
  rewrite frame_eq by done. unfold is_u32, two32 in *. Z.to_euclidean_division_equations; lia.
Qed.

Lemma wp_get_ptbl_entry_by_va pid va Q s :
  0 ≤ pid < NUM_IDS → is_u32 va → Q (va_entry (v_mem s) pid va) s →
  wp (get_ptbl_entry_by_va pid va) Q s.
Proof.
  intros Hpid Hva HQ. pose proof (pde_index_bound va Hva). pose proof (pte_index_bound va).
  unfold get_ptbl_entry_by_va, get_ptbl_entry. wp_step. apply wp_get_pdir_entry; [done|done|].
  unfold va_entry, data_entry in HQ. case_match; [by wp_steps|].
  wp_step. apply wp_ptbl_entry_addr; [done..|]. unfold load32. by wp_steps.
Qed.

Lemma wp_set_ptbl_entry pid i j p f Q s :
  0 ≤ pid < NUM_IDS → 0 ≤ i < 1024 → 0 ≤ j < 1024 → 0 ≤ p < 1048576 → 0 ≤ f < 4096 →
  Q tt (set_mem (write32 (v_mem s) (frame (pde_at (v_mem s) pid i) + j * 4) (p * 4096 + f)) s) →
  wp (set_ptbl_entry pid i j p f) Q s.
Proof.
  intros. unfold set_ptbl_entry, store32. wp_step. apply wp_ptbl_entry_addr; [done..|].
  wp_steps. unfold PAGESIZE. by rewrite u32_small by (unfold is_u32, two32; lia).
Qed.

(** The loop of [alloc_ptbl] clears the table. *)
Lemma wp_clear_table pid i p Q s :
  0 ≤ pid < NUM_IDS → 0 ≤ i < 1024 → user_frame p → pde_at (v_mem s) pid i = p * 4096 + 7 →
  (∀ m', agree_out p (v_mem s) m' → (∀ j, 0 ≤ j < 1024 → read32 m' (p * 4096 + j * 4) = 0) →
     Q tt (set_mem m' s)) →
  wp (for_range 0 1024 (λ j, rmv_ptbl_entry pid i j)) Q s.
Proof.
  intros Hpid Hi Hp Hpde HQ. pose proof (user_frame_range p Hp) as Hpr.
  apply (wp_for_range (λ j s', ∃ m', s' = set_mem m' s ∧ agree_out p (v_mem s) m'
    ∧ ∀ k, 0 ≤ k < j → read32 m' (p * 4096 + k * 4) = 0)).
  - lia.
  - exists (v_mem s). split_and!; [by destruct s|done|lia].
  - intros j s' Hj (m' & -> & Ha & Hz). unfold rmv_ptbl_entry, store32. wp_step.
    apply wp_ptbl_entry_addr; [done..|]. wp_steps. cbn [v_mem set_mem].
    rewrite (agree_pde p (v_mem s) m') by done. rewrite Hpde, frame_entry by lia.
    exists (write32 m' (p * 4096 + j * 4) 0). split_and!; [done| |].
    + intros x Hx. rewrite read8_write32, decide_False by lia. by apply Ha.
    + intros k Hk. destruct (decide (k = j)) as [->|].
      * by rewrite read32_write32_eq.
      * rewrite read32_write32_ne by lia. apply Hz. lia.
  - intros s' (m' & -> & Ha & Hz). by apply HQ.
Qed.

(** ** Taking a page from the allocator *)

Definition AT_of (c : cont) (p : Z) : ATStruct := aget (AT (c_pmm c)) p.

(** The change of the lower layers when [container_alloc] returned [r]. *)
Record took (c c' : cont) (r : Z) : Prop := {
  tk_ok : pages_ok (c_pmm c');
  tk_perm p : perm (AT_of c' p) = perm (AT_of c p);
  tk_alloc p : allocated (AT_of c' p) ≠ 0 ↔ allocated (AT_of c p) ≠ 0 ∨ (r ≠ 0 ∧ p = r);
  tk_free : r ≠ 0 → allocated (AT_of c r) = 0 ∧ is_norm (AT_of c r) = true
}.

Lemma is_norm_perm a b : perm a = perm b → is_norm a = is_norm b.
Proof. unfold is_norm. by intros ->. Qed.

Lemma took_none c : pages_ok (c_pmm c) → took c c 0.
Proof. intros. split; [done|done| |done]. intros p. split; [by left|]. by intros [?|[[] _]]. Qed.

Lemma wp_container_alloc_took id c Q :
  pages_ok (c_pmm c) → 0 ≤ id < NUM_IDS → (∀ r c', took c c' r → Q r c') →
  wp (container_alloc id) Q c.
Proof.
  intros Hok Hid HQ. apply wp_container_alloc_any; [done|done| |].
  { by apply HQ, took_none. }
  intros r t Hr. apply HQ. split.
  - by apply pages_ok_palloc.
  - intros q. unfold AT_of. cbn. case_cmp; [done|]. rewrite aget_insert. by case_decide; subst.
  - intros q. unfold AT_of. cbn. destruct (Z.eqb_spec r 0) as [->|].
    { split; [by left|]. by intros [?|[[] _]]. }
    rewrite aget_insert. case_decide; subst; cbn; [split; [by right|done]|].
    split; [by left|]. intros [?|[_ ?]]; [done|congruence].
  - intros Hr0. destruct Hr as [?|[_ Hf]]; [done|].
    apply andb_true_iff in Hf as [? ?%Z.eqb_eq]. done.
Qed.

Definition set_cont (c : cont) (s : vm) : vm := lset l_v_cont c s.

Lemma vm_core_took s c' r :
  vm_core s → took (v_cont s) c' r →
  vm_core (set_cont c' s) ∧ (r ≠ 0 → in_use (set_cont c' s) r ∧ user_frame r ∧ fresh (v_mem s) r).
Proof.
  intros [Hc Hn Ht] [Hok' Hpm Hal Hfr].
  split; [split; cbn|].
  - done.
  - intros p Hp. apply Hn. rewrite <- Hp. apply is_norm_perm. symmetry. apply Hpm.
  - eapply tables_ok_mono; [|exact Ht]. intros p Hp. unfold in_use. cbn.
    apply (proj2 (Hal p)). by left.
  - intros Hr. destruct (Hfr Hr) as [Hz Hnorm]. split_and!.
    + apply (proj2 (Hal r)). by right.
    + by apply Hn.
    + intros u Hu Hp. by apply (to_use _ _ Ht u r Hu Hp).
Qed.

Lemma in_use_user s p : vm_core s → in_use s p → user_frame p.
Proof. intros [Hc Hn _] Hp. by apply Hn, (pg_allocated _ Hc). Qed.

(** Replacing memory by one whose tables are well-formed. *)
Lemma vm_core_mem s m : vm_core s → tables_ok m (in_use s) → vm_core (set_mem m s).
Proof. intros [Hc Hn Ht] Ht'. by split. Qed.

(** [alloc_ptbl] on an empty directory slot either fails and changes no memory,
    or adds a table. *)
Lemma wp_alloc_ptbl pid va Q s :
  let i := pde_index_of va in
  vm_core s → 0 < pid < NUM_IDS → VM_USERLO ≤ va < VM_USERHI → pde_at (v_mem s) pid i = 0 →
  (∀ c', vm_core (set_cont c' s) → took (v_cont s) c' 0 → Q 0 (set_cont c' s)) →
  (∀ r c' m', r ≠ 0 → user_frame r → took (v_cont s) c' r → table_added (v_mem s) m' pid i r →
     vm_core (set_mem m' (set_cont c' s)) →
     (∀ u, valid_use u → u ≠ UTable pid i → use_page m' u = use_page (v_mem s) u) →
     (∀ pid' i' j, valid_use (UData pid' i' j) →
        data_entry m' pid' i' j = data_entry (v_mem s) pid' i' j) →
     pde_at m' pid i = r * 4096 + 7 →
     Q r (set_mem m' (set_cont c' s))) →
  wp (alloc_ptbl pid va) Q s.
Proof.
  intros i Hok Hpid Hva Hz HQ0 HQ. pose proof (user_pde_index va Hva) as Hi. fold i in Hi.
  unfold alloc_ptbl. wp_step. wp_step.
  apply wp_container_alloc_took; [apply Hok|bounds|]. intros r c' Htk.
  fold (set_cont c' s). destruct (vm_core_took s c' r Hok Htk) as [Hok' Hr].
  destruct (Z.eqb_spec r 0) as [->|Hr0]; cbn [negb].
  { wp_steps. by apply HQ0. }
  destruct (Hr Hr0) as (Huse & Huf & Hfresh). pose proof (user_frame_range r Huf) as Hrr.
  wp_step. wp_step. unfold set_pdir_entry_by_va, set_pdir_entry, PAGESIZE, PT_PERM_PTU. fold i.
  rewrite u32_small by (unfold is_u32, two32; lia).
  apply wp_put_pdir_entry; [bounds|bounds|]. cbn [v_mem set_cont lset l_v_cont].
  apply (wp_clear_table pid i r); [bounds|bounds|done| |].
  { cbn [v_mem set_mem]. apply pde_write_eq. unfold is_u32, two32. lia. }
  cbn [v_mem set_mem]. intros m' Ha H0. wp_steps.
  assert (table_added (v_mem s) m' pid i r) as Hta by (by split).
  assert (∀ q, in_use (set_cont c' s) q → user_frame q) as HF by (intros; by eapply in_use_user).
  apply (HQ r c' m'); try done.
  - apply vm_core_mem; [done|].
    eapply (table_added_ok (v_mem s) m' _ pid i r); [apply Hok'|done..].
  - intros u Hu Hne. eapply (table_added_use (v_mem s) m' (in_use (set_cont c' s)) pid i r);
      [apply Hok'|done..].
  - intros pid' i' j Hv.
    eapply (table_added_entry (v_mem s) m' (in_use (set_cont c' s)) pid i r); [apply Hok'|done..].
  - by eapply (table_added_pde (v_mem s) m' (in_use (set_cont c' s)) pid i r).
Qed.

(** What an [alloc_page] for [va] that returned [r] did, [p] being the page it
    mapped: the mapping is there, every other use of a page is as before (the
    table of the slot may be new), and no byte of a page in other use changed. *)
Record page_mapped (s s' : vm) (pid va prm p : Z) : Prop := {
  pa_regs : cr3 s' = cr3 s ∧ paging s' = paging s;
  pa_mono q : in_use s q → in_use s' q;
  pa_entry : va_entry (v_mem s') pid va = p * 4096 + prm;
  pa_use u : valid_use u → u ≠ UData pid (pde_index_of va) (pte_index_of va) →
    (u = UTable pid (pde_index_of va) → pde_at (v_mem s) pid (pde_index_of va) ≠ 0) →
    use_page (v_mem s') u = use_page (v_mem s) u;
  pa_bytes u q x : valid_use u → use_page (v_mem s) u = Some q →
    u ≠ UTable pid (pde_index_of va) →
    q * 4096 ≤ x < (q + 1) * 4096 → read8 (v_mem s') x = read8 (v_mem s) x;
  pa_other pid' i' j' : valid_use (UData pid' i' j') →
    (pid', i', j') ≠ (pid, pde_index_of va, pte_index_of va) →
    data_entry (v_mem s') pid' i' j' = data_entry (v_mem s) pid' i' j';
  pa_kern x : x < VM_USERLO → ¬ (PDirPool ≤ x < PDirPool + NUM_IDS * 4096) →
    read8 (v_mem s') x = read8 (v_mem s) x
}.

(** ... and the page was a free one. *)
Record page_added (s s' : vm) (pid va prm p : Z) : Prop := {
  pa_mapped : page_mapped s s' pid va prm p;
  pa_user : user_frame p;
  pa_fresh : fresh (v_mem s) p ∧ ¬ in_use s p ∧ in_use s' p
}.

Lemma pdir_not_user q x pid i :
  user_frame q → q * 4096 ≤ x → 0 ≤ pid < NUM_IDS → 0 ≤ i < 1024 →
  ¬ (pdir_addr pid i ≤ x < pdir_addr pid i + 4).
Proof.
  intros Hq%user_frame_addr Hx Hpid Hi. pose proof (pdir_addr_low pid i Hpid Hi). lia.
Qed.

Lemma set_mem_set_mem m m' s : set_mem m (set_mem m' s) = set_mem m s.
Proof. done. Qed.

(** The second half of [map_page], on a state where the table exists. *)
Lemma wp_set_by_va pid va p f Q s :
  let i := pde_index_of va in
  let j := pte_index_of va in
  let m' := write32 (v_mem s) (frame (pde_at (v_mem s) pid i) + j * 4) (p * 4096 + f) in
  vm_core s → 0 < pid < NUM_IDS → VM_USERLO ≤ va < VM_USERHI → pde_at (v_mem s) pid i ≠ 0 →
  in_use s p → fresh (v_mem s) p → 0 ≤ f < 4096 →
  (vm_core (set_mem m' s) → va_entry m' pid va = p * 4096 + f →
   (∀ u, valid_use u → u ≠ UData pid i j → use_page m' u = use_page (v_mem s) u) →
   (∀ pid' i' j', valid_use (UData pid' i' j') → (pid', i', j') ≠ (pid, i, j) →
      data_entry m' pid' i' j' = data_entry (v_mem s) pid' i' j') →
   agree_out (pde_at (v_mem s) pid i / 4096) (v_mem s) m' →
   Q tt (set_mem m' s)) →
  wp (set_ptbl_entry_by_va pid va p f) Q s.
Proof.
  intros i j m' Hok Hpid Hva Hpde Hp Hfr Hf HQ.
  pose proof (user_pde_index va Hva) as Hi. pose proof (pte_index_bound va) as Hj.
  pose proof (user_frame_range p (in_use_user s p Hok Hp)) as Hpr. fold i j in Hi, Hj.
  assert (∀ q, in_use s q → user_frame q) as HF by (intros; by eapply in_use_user).
  pose proof (vo_tables s Hok) as Ht.
  unfold set_ptbl_entry_by_va. apply wp_set_ptbl_entry; [bounds..|]. fold i j m'. apply HQ.
  - apply vm_core_mem; [done|]. by eapply (set_entry_ok (v_mem s) (in_use s) pid i j p f).
  - unfold va_entry, data_entry. fold i j. unfold m'.
    rewrite (set_entry_pde (v_mem s) (in_use s)) by bounds.
    rewrite (proj2 (Z.eqb_neq _ 0)) by done.
    by apply (set_entry_pte (v_mem s) (in_use s)).
  - intros. by apply (set_entry_use (v_mem s) (in_use s) pid i j p f).
  - intros. by apply (set_entry_entry (v_mem s) (in_use s) pid i j p f).
  - by apply (set_entry_agree (v_mem s) pid i j).
Qed.

Lemma wp_map_page pid va p prm Q s :
  vm_core s → 0 < pid < NUM_IDS → VM_USERLO ≤ va < VM_USERHI → 0 ≤ prm < 4096 →
  in_use s p → fresh (v_mem s) p →
  (∀ c', vm_core (set_cont c' s) → (∀ q, in_use s q → in_use (set_cont c' s) q) →
     Q MagicNumber (set_cont c' s)) →
  (∀ r s', r ≠ MagicNumber → vm_core s' → page_mapped s s' pid va prm p → Q r s') →
  wp (map_page pid va p prm) Q s.
Proof.
  intros Hok Hpid Hva Hprm Hp Hfr HQ0 HQ.
  pose proof (user_pde_index va Hva) as Hi. set (i := pde_index_of va) in *.
  unfold map_page, get_pdir_entry_by_va. wp_step. apply wp_get_pdir_entry; [bounds|bounds|].
  fold i. destruct (Z.eqb_spec (pde_at (v_mem s) pid i) 0) as [Hz|Hnz]; cbn [negb].
  - wp_step. wp_step. apply wp_alloc_ptbl; [done|done|done|done| |].
    + intros c' Hok' Htk. wp_steps. cbn [Z.eqb negb MagicNumber]. wp_steps.
      apply HQ0; [done|]. intros q Hq. apply (tk_alloc _ _ _ Htk). by left.
    + intros r c' m' Hr Huf Htk Hta Hok' Huse Hent Hpde. wp_steps. fold i in Hta, Huse, Hpde.
      pose proof (user_frame_range r Huf). unfold MagicNumber.
      rewrite (proj2 (Z.eqb_neq r 0)), (proj2 (Z.eqb_neq r _)) by lia. cbn [negb].
      assert (fresh (v_mem s) r) as Hfr_r by (by eapply vm_core_took).
      assert (p ≠ r) as Hpr by (intros ->; destruct (tk_free _ _ _ Htk Hr) as [? _]; by apply Hp).
      assert (fresh m' p) as Hfr'.
      { intros u Hu. destruct (decide (u = UTable pid i)) as [->|]; [|rewrite Huse by done; by apply Hfr].
        cbn. rewrite Hpde, entry_page by lia. case_match; congruence. }
      apply (wp_set_by_va pid va p prm); cbn [v_mem set_mem]; fold i;
        [done|done|done|rewrite Hpde; lia| |done|done|].
      { apply (tk_alloc _ _ _ Htk). by left. }
      rewrite Hpde, entry_page by lia. intros Hok2 He Hu2 Hent2 Ha2. wp_steps.
      pose proof (user_frame_addr r Huf) as Hra.
      apply HQ; [unfold MagicNumber; lia|done|]. split; fold i; cbn [v_mem set_mem].
      * done.
      * intros q Hq. apply (tk_alloc _ _ _ Htk). by left.
      * done.
      * intros u Hu Hne Hne'. rewrite Hu2 by done. apply Huse; [done|]. intros ->. by apply Hne'.
      * intros u q x Hu Hq Hne Hx.
        assert (q ≠ r) as Hqr by (intros ->; by apply (Hfr_r u)).
        rewrite Ha2 by lia. rewrite (ta_agree _ _ _ _ _ Hta) by lia.
        rewrite read8_write32, decide_False; [done|].
        apply (pdir_not_user q); [|lia|bounds|bounds].
        apply (in_use_user s); [done|]. by apply (to_use _ _ (vo_tables s Hok) u).
      * intros pid' i' j' Hv Hne. rewrite Hent2 by done. by apply Hent.
      * intros x Hx Hout. rewrite Ha2 by lia. rewrite (ta_agree _ _ _ _ _ Hta) by lia.
        rewrite read8_write32, decide_False; [done|].
        pose proof (pdir_addr_low pid i ltac:(bounds) ltac:(bounds)). lia.
  - wp_steps. cbn [Z.eqb negb MagicNumber].
    apply (wp_set_by_va pid va p prm); [done..|]. fold i. intros Hok2 He Hu2 Hent2 Ha2. wp_steps.
    assert (use_page (v_mem s) (UTable pid i) = Some (pde_at (v_mem s) pid i / 4096)) as Htab.
    { cbn. by rewrite (proj2 (Z.eqb_neq _ 0)) by done. }
    pose proof (to_use _ _ (vo_tables s Hok) (UTable pid i) _ ltac:(cbn; bounds) Htab) as Htu.
    apply (in_use_user s) in Htu as Htf%user_frame_addr; [|done].
    apply HQ; [done|done|]. split; fold i; cbn [v_mem set_mem]; try done.
    + intros u Hu Hne _. by apply Hu2.
    + intros u q x Hu Hq Hne Hx. apply Ha2. intros Hin.
      assert (q = pde_at (v_mem s) pid i / 4096) as -> by lia.
      apply Hne. eapply (to_inj _ _ (vo_tables s Hok)); [done| |exact Hq|]; [cbn; bounds|done].
    + intros x Hx Hout. apply Ha2. lia.
Qed.

Lemma wp_alloc_page pid va prm Q s :
  vm_ok s → 0 < pid < NUM_IDS → VM_USERLO ≤ va < VM_USERHI → 0 ≤ prm < 4096 →
  (∀ s', vm_ok s' → v_mem s' = v_mem s → cr3 s' = cr3 s → paging s' = paging s →
     (∀ q, in_use s q → in_use s' q) → Q MagicNumber s') →
  (∀ r s' p, r ≠ MagicNumber → vm_ok s' → page_added s s' pid va prm p → Q r s') →
  wp (alloc_page pid va prm) Q s.
Proof.
  intros [Hok Hlk] Hpid Hva Hprm HQ0 HQ.
  unfold alloc_page, pt_spinlock_acquire, pt_spinlock_release.
  wp_step. wp_step. wp_lock. set (s1 := lset l_pt_lk locked s).
  assert (vm_core s1) as Hok1 by (by destruct Hok).
  wp_step. wp_step. apply wp_container_alloc_took; [apply Hok|bounds|]. intros pi c' Htk.
  fold (set_cont c' s1). destruct (vm_core_took s1 c' pi Hok1 Htk) as [Hok2 Hpi].
  assert (∀ q, in_use s q → in_use (set_cont c' s1) q) as Hmono.
  { intros q Hq. apply (tk_alloc _ _ _ Htk). by left. }
  assert (∀ s', vm_core s' → vm_ok (lset l_pt_lk released s')) as Hrel.
  { intros s' Hs'. split; [by destruct Hs'|done]. }
  destruct (Z.eqb_spec pi 0) as [->|Hpi0].
  - wp_steps. wp_lock. wp_steps. apply HQ0; [by apply Hrel|done..].
  - destruct (Hpi Hpi0) as (Huse & Huf & Hfr). wp_step.
    apply wp_map_page; [done|done|done|done|done|done| |].
    + intros c2 Hok3 Hmono2. wp_steps. wp_lock. wp_steps.
      apply HQ0; [by apply Hrel|done|done|done|].
      intros q Hq. by apply Hmono2, Hmono.
    + intros r s3 Hr Hok3 [Hregs Hmono2 He Hu Hby Hoth Hkern]. wp_steps. wp_lock. wp_steps.
      apply (HQ _ _ pi); [done|by apply Hrel|]. split; [split|done|]; try done.
      * intros q Hq. by apply Hmono2, Hmono.
      * split_and!; [done| |by apply Hmono2].
        intros Hin. by destruct (tk_free _ _ _ Htk Hpi0) as [? _].
Qed.

(** ** Filling tables at boot *)

Lemma wp_fill (body : Z → M vm unit) base v lo hi Q s :
  lo ≤ hi →
  (∀ j s Q, lo ≤ j < hi → Q tt (set_mem (write32 (v_mem s) (base + j * 4) (v j)) s) →
     wp (body j) Q s) →
  (∀ m', (∀ j, lo ≤ j < hi → read32 m' (base + j * 4) = u32 (v j)) →
     (∀ x, ¬ (base + lo * 4 ≤ x < base + hi * 4) → read8 m' x = read8 (v_mem s) x) →
     Q tt (set_mem m' s)) →
  wp (for_range lo hi body) Q s.
Proof.
  intros Hle Hb HQ. apply (wp_for_range (λ j s', ∃ m', s' = set_mem m' s
    ∧ (∀ k, lo ≤ k < j → read32 m' (base + k * 4) = u32 (v k))
    ∧ ∀ x, ¬ (base + lo * 4 ≤ x < base + j * 4) → read8 m' x = read8 (v_mem s) x)).
  - done.
  - exists (v_mem s). split_and!; [by destruct s|lia|done].
  - intros j s' Hj (m' & -> & Hin & Hout). apply Hb; [done|]. cbn [v_mem set_mem].
    exists (write32 m' (base + j * 4) (v j)). split_and!; [done| |].
    + intros k Hk. destruct (decide (k = j)) as [->|]; [apply read32_write32_eq|].
      rewrite read32_write32_ne by lia. apply Hin. lia.
    + intros x Hx. rewrite read8_write32, decide_False by lia. apply Hout. lia.
  - intros s' (m' & -> & Hin & Hout). by apply HQ.
Qed.

(** Rows of 1024 words, one page each. *)
Lemma wp_fill_rows (body : Z → M vm unit) base (v : Z → Z → Z) lo hi Q s :
  lo ≤ hi →
  (∀ i s Q, lo ≤ i < hi →
     (∀ m', (∀ j, 0 ≤ j < 1024 → read32 m' (base + i * 4096 + j * 4) = v i j) →
        (∀ x, ¬ (base + i * 4096 ≤ x < base + (i + 1) * 4096) → read8 m' x = read8 (v_mem s) x) →
        Q tt (set_mem m' s)) →
     wp (body i) Q s) →
  (∀ m', (∀ i j, lo ≤ i < hi → 0 ≤ j < 1024 → read32 m' (base + i * 4096 + j * 4) = v i j) →
     (∀ x, ¬ (base + lo * 4096 ≤ x < base + hi * 4096) → read8 m' x = read8 (v_mem s) x) →
     Q tt (set_mem m' s)) →
  wp (for_range lo hi body) Q s.
Proof.
  intros Hle Hb HQ. apply (wp_for_range (λ i s', ∃ m', s' = set_mem m' s
    ∧ (∀ k j, lo ≤ k < i → 0 ≤ j < 1024 → read32 m' (base + k * 4096 + j * 4) = v k j)
    ∧ ∀ x, ¬ (base + lo * 4096 ≤ x < base + i * 4096) → read8 m' x = read8 (v_mem s) x)).
  - done.
  - exists (v_mem s). split_and!; [by destruct s|lia|done].
  - intros i s' Hi (m' & -> & Hin & Hout). apply Hb; [done|]. cbn [v_mem set_mem].
    intros m2 Hrow Hm2. exists m2. split_and!; [done| |].
    + intros k j Hk Hj. destruct (decide (k = i)) as [->|]; [by apply Hrow|].
      rewrite <- (Hin k j) by lia. apply read32_ext. intros x Hx. apply Hm2. lia.
    + intros x Hx. rewrite Hm2 by lia. apply Hout. lia.
  - intros s' (m' & -> & Hin & Hout). by apply HQ.
Qed.

Definition boot_vm (m : mem) : vm := Vm boot_cont m zero 0 false.

Lemma wp_idptbl_init mbi pm m lk Q :
  pmmap_init m mbi boot_physmap = Ok (tt, pm) → pmmap_list pm ≠ [] →
  (∀ c m', cont_ok c → (∀ p, allocated (AT_of c p) = 0) →
     (∀ p, is_norm (AT_of c p) = true → user_frame p) →
     (∀ i j, 0 ≤ i < 1024 → 0 ≤ j < 1024 →
        read32 m' (idptbl_addr i j) = (i * 1024 + j) * 4096 + id_perm i) →
     Q tt (Vm c m' lk 0 false)) →
  wp (idptbl_init mbi) Q (Vm boot_cont m lk 0 false).
Proof.
  intros Hinit Hne HQ. unfold idptbl_init. wp_steps. cbn [v_mem v_cont lget l_v_cont lset].
  apply (wp_container_init_ok m mbi pm _ Hinit Hne). intros c Hc _ _ Hal Hnorm.
  apply (wp_fill_rows _ IDPTbl (λ i j, (i * 1024 + j) * 4096 + id_perm i)); [lia| |].
  - intros i s Q' Hi HQ'.
    apply (wp_fill _ (IDPTbl + i * 4096) (λ j, (i * 1024 + j) * 4096 + id_perm i)); [lia| |].
    + intros j s' Q2 Hj HQ2. unfold set_ptbl_entry_identity, store32. wp_steps.
      unfold idptbl_addr, PAGESIZE.
      replace (if kernel_pde i then _ else _) with (id_perm i)
        by (unfold id_perm; by destruct (kernel_pde i)).
      rewrite u32_small; [done|]. unfold is_u32, two32, id_perm. case_match; lia.
    + intros m' Hin Hout. apply HQ'.
      * intros j Hj. rewrite Hin by done. apply u32_small.
        unfold is_u32, two32, id_perm. case_match; lia.
      * intros x Hx. apply Hout. lia.
  - intros m' Hin _. apply HQ; done.
Qed.

Lemma wp_pdir_init mbi pm m lk Q :
  pmmap_init m mbi boot_physmap = Ok (tt, pm) → pmmap_list pm ≠ [] →
  (∀ c m', cont_ok c → (∀ p, allocated (AT_of c p) = 0) →
     (∀ p, is_norm (AT_of c p) = true → user_frame p) →
     (∀ i j, 0 ≤ i < 1024 → 0 ≤ j < 1024 →
        read32 m' (idptbl_addr i j) = (i * 1024 + j) * 4096 + id_perm i) →
     (∀ pid i, 0 ≤ pid < NUM_IDS → 0 ≤ i < 1024 →
        pde_at m' pid i = if kernel_pde i then idptbl_addr i 0 + 7 else 0) →
     Q tt (Vm c m' lk 0 false)) →
  wp (pdir_init mbi) Q (Vm boot_cont m lk 0 false).
Proof.
  intros Hinit Hne HQ. unfold pdir_init. wp_step.
  apply (wp_idptbl_init _ _ _ _ _ Hinit Hne). intros c m1 Hc Hal Hnorm Hid.
  pose proof IDPTbl_low as Hlow. unfold VM_USERLO in Hlow.
  set (e := λ i, if kernel_pde i then idptbl_addr i 0 + 7 else 0).
  assert (∀ i, 0 ≤ i < 1024 → u32 (e i) = e i) as He.
  { intros i Hi. apply u32_small. unfold e, idptbl_addr, is_u32, two32. case_match; lia. }
  apply (wp_fill_rows _ PDirPool (λ _ j, e j)); [done| |].
  - intros i s Q' Hi HQ'. apply (wp_fill _ (PDirPool + i * 4096) e); [lia| |].
    + intros j s' Q2 Hj HQ2. unfold e in HQ2. unfold set_pdir_entry_identity, rmv_pdir_entry.
      destruct (kernel_pde j); apply wp_put_pdir_entry; done.
    + intros m' Hin Hout. apply HQ'.
      * intros j Hj. rewrite Hin by done. by apply He.
      * intros x Hx. apply Hout. lia.
  - intros m' Hin Hout. apply HQ; try done.
    + intros i j Hi Hj. rewrite <- Hid by done. apply read32_ext. intros x Hx.
      apply Hout. pose proof (idptbl_addr_low i j Hi Hj). pose proof Layout_disjoint.
      unfold NUM_IDS in *. lia.
Qed.

(** With no page handed out, the tables that [paging_init] builds are in order. *)
Lemma boot_tables_ok m F :
  (∀ i j, 0 ≤ i < 1024 → 0 ≤ j < 1024 →
     read32 m (idptbl_addr i j) = (i * 1024 + j) * 4096 + id_perm i) →
  (∀ pid i, 0 ≤ pid < NUM_IDS → 0 ≤ i < 1024 →
     pde_at m pid i =
       if (pid =? 0) || kernel_pde i then idptbl_addr i 0 + 7 else 0) →
  tables_ok m F.
Proof.
  intros Hid Hpde.
  assert (∀ pid i, 0 < pid < NUM_IDS → 256 ≤ i < 960 → pde_at m pid i = 0) as Hz.
  { intros pid i Hpid Hi. rewrite Hpde by bounds.
    rewrite (proj2 (Z.eqb_neq pid 0)) by lia. unfold kernel_pde. cbn.
    by rewrite (proj2 (Z.ltb_ge i 256)), (proj2 (Z.leb_gt 960 i)) by lia. }
  assert (∀ u, valid_use u → use_page m u = None) as Hnone.
  { intros [pid i|pid i j]; cbn; intros Hv; by rewrite Hz by bounds. }
  split.
  - done.
  - intros pid i Hpid Hi Hor. rewrite Hpde by done. destruct Hor as [->| ->]; [done|].
    by rewrite orb_true_r.
  - intros pid i Hpid Hi. left. by apply Hz.
  - intros u p Hu. by rewrite Hnone.
  - intros u u' p Hu Hu'. by rewrite Hnone.
Qed.

Lemma wp_paging_init mbi pm m Q :
  pmmap_init m mbi boot_physmap = Ok (tt, pm) → pmmap_list pm ≠ [] →
  (∀ s, vm_ok s → cr3 s = pdir_addr 0 0 → paging s = true → (∀ p, ¬ in_use s p) → Q tt s) →
  wp (paging_init mbi) Q (boot_vm m).
Proof.
  intros Hinit Hne HQ.
  unfold paging_init, pt_spinlock_init, pt_spinlock_acquire, pt_spinlock_release,
    set_pdir_base, enable_paging, pdir_init_kern.
  wp_step. wp_step. wp_lock. cbn [lset l_pt_lk boot_vm v_cont v_mem cr3 paging].
  wp_step. wp_step. apply (wp_pdir_init _ _ _ _ _ Hinit Hne).
  intros c m1 Hc Hal Hnorm Hid Hpde.
  pose proof IDPTbl_low as Hlow. unfold VM_USERLO in Hlow.
  apply (wp_fill _ PDirPool (λ i, idptbl_addr i 0 + 7)); [lia| |].
  { intros i s Q' Hi HQ'. unfold set_pdir_entry_identity. apply wp_put_pdir_entry; [done|lia|].
    unfold pdir_addr. by rewrite Z.mul_0_l, Z.add_0_r. }
  intros m2 Hin Hout. wp_steps. wp_lock. wp_steps. wp_lock.
  assert (∀ x, PDirPool + 4096 ≤ x ∨ x + 4 ≤ PDirPool → read32 m2 x = read32 m1 x) as Hsame.
  { intros x Hx. apply read32_ext. intros y Hy. apply Hout. lia. }
  apply HQ; [|done|done|intros p Hp; apply Hp, Hal].
  split; [|done]. split; [by apply cont_ok_pages|done|]. apply boot_tables_ok; cbn [v_mem].
  - intros i j Hi Hj. rewrite Hsame; [by apply Hid|].
    pose proof (idptbl_addr_low i j Hi Hj). pose proof Layout_disjoint. unfold NUM_IDS in *. lia.
  - intros pid i Hpid Hi. cbn [set_mem v_mem lset l_pt_lk].
    destruct (decide (pid = 0 ∧ 256 ≤ i < 960)) as [[-> Hi']|Hor].
    + unfold pde_at, pdir_addr. rewrite Z.mul_0_l, Z.add_0_r, Hin by done.
      change ((0 =? 0) || kernel_pde i) with true. cbv iota.
      apply u32_small. unfold is_u32, two32, idptbl_addr. lia.
    + assert (pde_at m2 pid i = pde_at m1 pid i) as ->.
      { apply read32_ext. intros x Hx. apply Hout. unfold pdir_addr in Hx. lia. }
      rewrite Hpde by done. destruct (Z.eqb_spec pid 0) as [->|]; [|done]. cbn [orb].
      unfold kernel_pde. destruct (Z.ltb_spec i 256), (Z.leb_spec 960 i); done || lia.
Qed.

(** ** What a process can reach *)

Lemma testbit_entry n f k : 0 ≤ k < 12 → Z.testbit (n * 4096 + f) k = Z.testbit f k.
Proof.
  intros Hk. rewrite <- (Z.mod_pow2_bits_low _ 12), <- (Z.mod_pow2_bits_low f 12) by lia.
  f_equal. change (2 ^ 12) with 4096.
  by rewrite Z.add_comm, Z.mod_add by lia.
Qed.

Lemma pte_kernel m F pid i j :
  tables_ok m F → 0 ≤ pid < NUM_IDS → 0 ≤ i < 1024 → 0 ≤ j < 1024 →
  pid = 0 ∨ kernel_pde i = true →
  pte_at m pid i j = (i * 1024 + j) * 4096 + id_perm i.
Proof.
  intros Ht Hpid Hi Hj Hor. rewrite <- (to_id m F Ht) by done. unfold pte_at.
  rewrite (to_kern m F Ht) by done. f_equal. unfold idptbl_addr.
  pose proof IDPTbl_aligned as Hal. pose proof IDPTbl_low as Hlow. unfold VM_USERLO in Hlow.
  apply Z.mod_divide in Hal as [k Hk]; [|done]. rewrite Hk in *.
  replace (k * 4096 + i * 4096 + 0 * 4 + 7) with ((k + i) * 4096 + 7) by lia.
  rewrite frame_entry by lia. lia.
Qed.

(** On page structure 0 the kernel reaches every address at itself. *)
Lemma mmu_kernel s w va :
  vm_core s → is_u32 va → mmu (v_mem s) (pdir_addr 0 0) false w va = Some va.
Proof.
  intros Hok Hva. pose proof (vo_tables s Hok) as Ht.
  pose proof (pde_index_bound va Hva) as Hi. pose proof (pte_index_bound va) as Hj.
  unfold mmu.
  replace (pdir_addr 0 0 + pde_index_of va * 4) with (pdir_addr 0 (pde_index_of va))
    by (unfold pdir_addr; lia).
  fold (pde_at (v_mem s) 0 (pde_index_of va)).
  fold (pte_at (v_mem s) 0 (pde_index_of va) (pte_index_of va)).
  rewrite (pte_kernel (v_mem s) (in_use s) 0 _ _ Ht) by (auto || bounds).
  rewrite (to_kern _ _ Ht) by (auto || bounds). unfold idptbl_addr.
  pose proof IDPTbl_aligned as Hal. apply Z.mod_divide in Hal as [k Hk]; [|done].
  rewrite Hk. replace (k * 4096 + pde_index_of va * 4096 + 0 * 4 + 7)
    with ((k + pde_index_of va) * 4096 + 7) by lia.
  unfold entry_allows. rewrite !testbit_entry by lia.
  assert (0 ≤ id_perm (pde_index_of va) < 4096) by (unfold id_perm; case_match; lia).
  rewrite frame_entry by (unfold is_u32, two32 in Hva; lia). rewrite <- va_split.
  unfold id_perm. by destruct (kernel_pde _), w.
Qed.

(** A user access goes through to a data page of the process. *)
Lemma mmu_user s pid w va pa :
  vm_core s → 0 < pid < NUM_IDS → is_u32 va →
  mmu (v_mem s) (pdir_addr pid 0) true w va = Some pa →
  let u := UData pid (pde_index_of va) (pte_index_of va) in
  valid_use u
  ∧ ∃ p, use_page (v_mem s) u = Some p ∧ pa = p * 4096 + va mod 4096
      ∧ va_entry (v_mem s) pid va / 4096 = p.
Proof.
  intros Hok Hpid Hva Hmmu u. pose proof (vo_tables s Hok) as Ht.
  pose proof (pde_index_bound va Hva) as Hi. pose proof (pte_index_bound va) as Hj.
  unfold mmu in Hmmu.
  replace (pdir_addr pid 0 + pde_index_of va * 4) with (pdir_addr pid (pde_index_of va))
    in Hmmu by (unfold pdir_addr; lia).
  fold (pde_at (v_mem s) pid (pde_index_of va)) in Hmmu.
  fold (pte_at (v_mem s) pid (pde_index_of va) (pte_index_of va)) in Hmmu.
  unfold va_entry, data_entry. unfold u. cbn [use_page valid_use].
  set (i := pde_index_of va) in *. set (j := pte_index_of va) in *.
  destruct (kernel_pde i) eqn:Hk.
  { rewrite (pte_kernel (v_mem s) (in_use s) pid i j Ht) in Hmmu by (auto || bounds).
    unfold entry_allows in Hmmu at 2. rewrite !testbit_entry in Hmmu by lia.
    unfold id_perm in Hmmu. rewrite Hk in Hmmu. cbn in Hmmu.
    by rewrite andb_false_r in Hmmu. }
  assert (256 ≤ i < 960) as Hi'.
  { unfold kernel_pde in Hk. apply orb_false_iff in Hk as [?%Z.ltb_ge ?%Z.leb_gt]. lia. }
  split; [done|].
  destruct (Z.eqb_spec (pde_at (v_mem s) pid i) 0) as [E|E]; [by rewrite E in Hmmu|].
  destruct (Z.eqb_spec (pte_at (v_mem s) pid i j) 0) as [E'|E'].
  { rewrite E' in Hmmu. unfold entry_allows in Hmmu at 2. cbn in Hmmu.
    by rewrite andb_false_r in Hmmu. }
  exists (pte_at (v_mem s) pid i j / 4096). cbn [orb]. split_and!; [done| |done].
  rewrite (frame_eq (pte_at _ _ _ _)) in Hmmu by apply read32_range.
  destruct (_ && _) in Hmmu; [|done]. by injection Hmmu.
Qed.

(** The converse for an entry with all permissions. *)
Lemma mmu_of_entry s pid va p :
  vm_core s → 0 < pid < NUM_IDS → VM_USERLO ≤ va < VM_USERHI →
  va_entry (v_mem s) pid va = p * 4096 + 7 → 0 < p < 1048576 →
  ∀ w, mmu (v_mem s) (pdir_addr pid 0) true w va = Some (p * 4096 + va mod 4096).
Proof.
  intros Hok Hpid Hva He Hp w. pose proof (vo_tables s Hok) as Ht.
  pose proof (user_pde_index va Hva) as Hi. unfold va_entry, data_entry in He.
  destruct (Z.eqb_spec (pde_at (v_mem s) pid (pde_index_of va)) 0) as [E|E]; [lia|].
  destruct (to_perm _ _ Ht pid (pde_index_of va) Hpid Hi) as [?|Hpm]; [done|].
  unfold mmu.
  replace (pdir_addr pid 0 + pde_index_of va * 4) with (pdir_addr pid (pde_index_of va))
    by (unfold pdir_addr; lia).
  fold (pde_at (v_mem s) pid (pde_index_of va)).
  fold (pte_at (v_mem s) pid (pde_index_of va) (pte_index_of va)).
  rewrite He, frame_entry by lia.
  rewrite (Z.div_mod (pde_at (v_mem s) pid (pde_index_of va)) 4096), Hpm, Z.mul_comm by lia.
  unfold entry_allows. rewrite !testbit_entry by lia. by destruct w.
Qed.

(** The MMU's view after a change of a page that is no table. *)
Lemma mmu_agree s p m' pid w va :
  vm_core s → user_frame p → agree_out p (v_mem s) m' →
  (∀ pid i, valid_use (UTable pid i) → use_page (v_mem s) (UTable pid i) ≠ Some p) →
  0 < pid < NUM_IDS → is_u32 va →
  mmu m' (pdir_addr pid 0) true w va = mmu (v_mem s) (pdir_addr pid 0) true w va.
Proof.
  intros Hok Huf Ha Hnt Hpid Hva. pose proof (vo_tables s Hok) as Ht.
  pose proof (pde_index_bound va Hva) as Hi. pose proof (pte_index_bound va) as Hj.
  unfold mmu.
  replace (pdir_addr pid 0 + pde_index_of va * 4) with (pdir_addr pid (pde_index_of va))
    by (unfold pdir_addr; lia).
  fold (pde_at (v_mem s) pid (pde_index_of va)) (pde_at m' pid (pde_index_of va)).
  fold (pte_at (v_mem s) pid (pde_index_of va) (pte_index_of va))
    (pte_at m' pid (pde_index_of va) (pte_index_of va)).
  rewrite (agree_pde p (v_mem s) m') by bounds.
  destruct (kernel_pde (pde_index_of va)) eqn:Hk.
  { assert (tables_ok m' (in_use s)) as Ht' by (by eapply tables_ok_agree).
    by rewrite (pte_kernel m' _ _ _ _ Ht'), (pte_kernel (v_mem s) _ _ _ _ Ht) by (auto || bounds). }
  apply orb_false_iff in Hk as [?%Z.ltb_ge ?%Z.leb_gt].
  destruct (decide (pde_at (v_mem s) pid (pde_index_of va) = 0)) as [->|Hnz]; [done|].
  rewrite (agree_pte p (v_mem s) m'); [done|done|done|bounds|bounds|bounds|].
  intros E. apply (Hnt pid (pde_index_of va)); [cbn; lia|]. cbn.
  by rewrite (proj2 (Z.eqb_neq _ 0)), E by done.
Qed.

(** ** Claims *)

(** C26: [paging_init] returns, turns paging on with page structure 0, under
    which the kernel can read and write every address at its own physical
    address, and leaves the other 63 page structures without a single address
    that user code could access. *)
Theorem paging_init_correct (m : mem) (mbi : Z) (pm : physmap) :
  pmmap_init m mbi boot_physmap = Ok (tt, pm) → pmmap_list pm ≠ [] →
  ∃ s, paging_init mbi (boot_vm m) = Ok (tt, s) ∧ vm_ok s ∧ paging s = true
    ∧ (∀ va w, is_u32 va → mmu (v_mem s) (cr3 s) false w va = Some va)
    ∧ (∀ pid va w, 0 < pid < NUM_IDS → is_u32 va →
         mmu (v_mem s) (pdir_addr pid 0) true w va = None).
Proof.
  intros Hinit Hne.
  edestruct (wp_run (paging_init mbi) (λ _ s, vm_ok s ∧ paging s = true
    ∧ (∀ va w, is_u32 va → mmu (v_mem s) (cr3 s) false w va = Some va)
    ∧ (∀ pid va w, 0 < pid < NUM_IDS → is_u32 va →
         mmu (v_mem s) (pdir_addr pid 0) true w va = None))) as ([] & s & Hs & HQ);
    [|by exists s].
  apply (wp_paging_init mbi pm m _ Hinit Hne). intros s [Hok Hlk] Hcr3 Hpg Hnone.
  split_and!; [by split|done| |].
  - intros va w Hva. rewrite Hcr3. by apply mmu_kernel.
  - intros pid va w Hpid Hva. destruct (mmu _ _ _ _ _) as [pa|] eqn:E; [|done].
    destruct (mmu_user s pid w va pa Hok Hpid Hva E) as (Hv & p & Hp & _).
    by destruct (Hnone p (to_use _ _ (vo_tables s Hok) _ _ Hv Hp)).
Qed.

(** What isolation says of one state. *)
Definition isolated (s : vm) : Prop :=
  ∀ pid va pa w, 0 < pid < NUM_IDS → is_u32 va →
  mmu (v_mem s) (pdir_addr pid 0) true w va = Some pa →
  VM_USERLO ≤ pa < VM_USERHI ∧ in_use s (pa / 4096)
  ∧ (∀ pid' i, 0 < pid' < NUM_IDS → 256 ≤ i < 960 →
       use_page (v_mem s) (UTable pid' i) ≠ Some (pa / 4096))
  ∧ (∀ pid' va' pa' w', 0 < pid' < NUM_IDS → is_u32 va' →
       mmu (v_mem s) (pdir_addr pid' 0) true w' va' = Some pa' → pa' / 4096 = pa / 4096 →
       pid' = pid ∧ va' / 4096 = va / 4096).

Lemma vm_ok_isolated s : vm_ok s → isolated s.
Proof.
  intros [Hok _] pid va pa w Hpid Hva Hmmu. pose proof (vo_tables s Hok) as Ht.
  destruct (mmu_user s pid w va pa Hok Hpid Hva Hmmu) as (Hv & p & Hp & -> & _).
  pose proof (to_use _ _ Ht _ _ Hv Hp) as Huse.
  pose proof (in_use_user s p Hok Huse) as Huf%user_frame_addr.
  pose proof (Z.mod_pos_bound va 4096 ltac:(lia)) as Hoff. rewrite entry_page by done.
  split_and!; [lia|lia|done| |].
  - intros pid' i Hpid' Hi Hc. by pose proof (to_inj _ _ Ht _ (UTable pid' i) p Hv (conj Hpid' Hi) Hp Hc).
  - intros pid' va' pa' w' Hpid' Hva' Hmmu' Hpa'.
    destruct (mmu_user s pid' w' va' pa' Hok Hpid' Hva' Hmmu') as (Hv' & p' & Hp' & -> & _).
    pose proof (Z.mod_pos_bound va' 4096 ltac:(lia)). rewrite entry_page in Hpa' by done.
    subst p'. pose proof (to_inj _ _ Ht _ _ p Hv' Hv Hp' Hp) as [= -> Hi Hj].
    split; [done|]. rewrite (va_split va), (va_split va'), !entry_page by done. by rewrite Hi, Hj.
Qed.

(** What processes and the kernel on their behalf do to the address spaces: a
    page fault or a copy maps a page, spawning splits off a quota, a switch of
    processes changes the directory in use, and user code stores where its
    directory lets it. *)
Inductive vm_step (s : vm) : vm → Prop :=
| step_alloc_page pid va r s' :
    0 < pid < NUM_IDS → VM_USERLO ≤ va < VM_USERHI →
    alloc_page pid va (Z.lor (Z.lor PTE_W PTE_U) PTE_P) s = Ok (r, s') → vm_step s s'
| step_quota id q child s' :
    alloc_mem_quota id q s = Ok (child, s') → vm_step s s'
| step_base index s' :
    set_pdir_base index s = Ok (tt, s') → vm_step s s'
| step_store pid va pa v :
    0 < pid < NUM_IDS → is_u32 va → mmu (v_mem s) (pdir_addr pid 0) true true va = Some pa →
    vm_step s (set_mem (write8 (v_mem s) pa v) s).

Lemma user_store_effect (s : vm) (pid va pa v : Z) :
  vm_ok s → 0 < pid < NUM_IDS → is_u32 va →
  mmu (v_mem s) (pdir_addr pid 0) true true va = Some pa →
  let s' := set_mem (write8 (v_mem s) pa v) s in
  vm_ok s'
  ∧ ∀ pid' va' w, 0 < pid' < NUM_IDS → is_u32 va' →
      mmu (v_mem s') (pdir_addr pid' 0) true w va' = mmu (v_mem s) (pdir_addr pid' 0) true w va'
      ∧ (pid' ≠ pid → ∀ pa', mmu (v_mem s) (pdir_addr pid' 0) true w va' = Some pa' →
           read8 (v_mem s') pa' = read8 (v_mem s) pa').
Proof.
  intros [Hok Hlk] Hpid Hva Hmmu s'. pose proof (vo_tables s Hok) as Ht.
  destruct (mmu_user s pid true va pa Hok Hpid Hva Hmmu) as (Hv & p & Hp & -> & _).
  pose proof (in_use_user s p Hok (to_use _ _ Ht _ _ Hv Hp)) as Huf.
  pose proof (Z.mod_pos_bound va 4096 ltac:(lia)) as Hoff.
  assert (agree_out p (v_mem s) (v_mem s')) as Ha.
  { intros x Hx. cbn. rewrite read8_write8_ne by lia. done. }
  assert (∀ pid' i, valid_use (UTable pid' i) → use_page (v_mem s) (UTable pid' i) ≠ Some p)
    as Hnt by (intros pid' i Hv' Hc; by pose proof (to_inj _ _ Ht _ _ p Hv Hv' Hp Hc)).
  assert (vm_core s') as Hok'.
  { apply vm_core_mem; [done|]. by eapply tables_ok_agree. }
  split; [by split|]. intros pid' va' w Hpid' Hva'.
  assert (mmu (v_mem s') (pdir_addr pid' 0) true w va' =
          mmu (v_mem s) (pdir_addr pid' 0) true w va') as Hsame
    by (by apply (mmu_agree s p)).
  split; [done|]. intros Hne pa' Hmmu'.
  destruct (mmu_user s pid' w va' pa' Hok Hpid' Hva' Hmmu') as (Hv' & p' & Hp' & -> & _).
  pose proof (Z.mod_pos_bound va' 4096 ltac:(lia)). apply Ha. intros Hin.
  assert (p' = p) as -> by lia. pose proof (to_inj _ _ Ht _ _ p Hv' Hv Hp' Hp) as [= ? ? ?]. done.
Qed.

(** Address spaces do not depend on the quotas. *)
Lemma alloc_mem_quota_ok id q s child s' :
  alloc_mem_quota id q s = Ok (child, s') → vm_ok s → vm_ok s' ∧ v_mem s' = v_mem s ∧ cr3 s' = cr3 s.
Proof.
  unfold alloc_mem_quota, lift. destruct (container_split id q (lget l_v_cont s)) as [[c' t]|] eqn:E; [|done].
  intros [= <- <-] [[Hp Hn Ht] Hlk]. apply keeps_container_split in E.
  split; [|done]. split; [|done]. split; cbn; unfold in_use; cbn; rewrite E; done.
Qed.

Lemma vm_step_ok s s' : vm_step s s' → vm_ok s → vm_ok s'.
Proof.
  intros [pid va r t Hpid Hva Hrun|id q child t Hrun|index t Hrun|pid va pa v Hpid Hva Hm] Hok.
  - refine (wp_inv _ (λ _ s, vm_ok s) _ _ _ _ Hrun). by apply wp_alloc_page.
  - by eapply alloc_mem_quota_ok.
  - unfold set_pdir_base, chk in Hrun. destruct (_ && _); [|done].
    injection Hrun as <-. by destruct Hok as [[] ?].
  - by apply (user_store_effect s pid va pa v).
Qed.

(** Isolation.  From a well-formed state, such as the one [paging_init]
    leaves, no sequence of page allocations, splits of quotas (whether or not the
    quota is there), switches of processes and stores by user code breaks isolation: an address user code can
    access is in the user half, lies in a page the allocator handed out, is not
    in a page table, and no other process, and no other virtual page of the same
    process, is mapped to that page. *)
Theorem user_pages_isolated (s s' : vm) :
  vm_ok s → rtc vm_step s s' → isolated s'.
Proof.
  intros Hok Hr. apply vm_ok_isolated. revert Hok.
  induction Hr as [|x y z Hxy _ IH]; [done|]. intros Hok. by eapply IH, vm_step_ok.
Qed.

(** C25: [alloc_page] on a user address of a process either reports
    [MagicNumber] and leaves all memory as it was, or maps exactly one page that
    was free before: user code then reaches it at that address with the given
    permission, all other mappings of all processes are as before, and so is
    every byte of every page mapped anywhere. *)
Theorem alloc_page_correct (s : vm) (pid va : Z) :
  vm_ok s → 0 < pid < NUM_IDS → VM_USERLO ≤ va < VM_USERHI →
  let i := pde_index_of va in
  let j := pte_index_of va in
  ∃ r s', alloc_page pid va 7 s = Ok (r, s') ∧ vm_ok s'
    ∧ if r =? MagicNumber then v_mem s' = v_mem s
      else ∃ p, ¬ in_use s p ∧ in_use s' p
        ∧ mmu (v_mem s') (pdir_addr pid 0) true true va = Some (p * 4096 + va mod 4096)
        ∧ (∀ u, valid_use u → u ≠ UData pid i j → u ≠ UTable pid i →
             use_page (v_mem s') u = use_page (v_mem s) u)
        ∧ (∀ pid' i' j' q x, valid_use (UData pid' i' j') →
             use_page (v_mem s) (UData pid' i' j') = Some q → q * 4096 ≤ x < (q + 1) * 4096 →
             read8 (v_mem s') x = read8 (v_mem s) x).
Proof.
  intros Hok Hpid Hva i j. apply wp_run. apply wp_alloc_page; [done|done|done|lia| |].
  - intros s' Hok' Hm _ _ _. by rewrite Z.eqb_refl.
  - intros r s' p Hr Hok' Hpa. split; [done|]. rewrite (proj2 (Z.eqb_neq r _)) by done.
    exists p. destruct Hpa as [[_ _ He Huse Hby _ _] Huf (_ & Hn & Hu)].
    split_and!; [done|done| | |].
    + apply mmu_of_entry; [apply Hok'|done|done|done|by apply user_frame_range].
    + intros u Hv Hne1 Hne2. by apply Huse.
    + intros pid' i' j' q x Hv Hq Hx. by apply (Hby (UData pid' i' j') q x).
Qed.

(** User code cannot leave its own pages: once [set_pdir_base] has made the
    directory of a process current, a store through the MMU in user mode keeps
    every page table, and every byte other processes can read. *)
Theorem user_store_confined (s s1 : vm) (pid va pa v : Z) :
  vm_ok s → 0 < pid < NUM_IDS → is_u32 va → set_pdir_base pid s = Ok (tt, s1) →
  mmu (v_mem s1) (cr3 s1) true true va = Some pa →
  let s' := set_mem (write8 (v_mem s1) pa v) s1 in
  vm_ok s'
  ∧ ∀ pid' va' w, 0 < pid' < NUM_IDS → is_u32 va' →
      mmu (v_mem s') (pdir_addr pid' 0) true w va' = mmu (v_mem s) (pdir_addr pid' 0) true w va'
      ∧ (pid' ≠ pid → ∀ pa', mmu (v_mem s) (pdir_addr pid' 0) true w va' = Some pa' →
           read8 (v_mem s') pa' = read8 (v_mem s) pa').
Proof.
  intros Hok Hpid Hva Hrun Hm. pose proof (vm_step_ok _ _ (step_base s pid s1 Hrun) Hok) as Hok1.
  assert (v_mem s1 = v_mem s ∧ cr3 s1 = pdir_addr pid 0) as [Em Ec].
  { unfold set_pdir_base, chk in Hrun. destruct (_ && _); [|done]. by injection Hrun as <-. }
  rewrite Ec in Hm. rewrite <- Em. by apply (user_store_effect s1 pid va).
Qed.
End Isolation.

(** ** Witnesses *)

(** The arrays at 2 MiB and 4 MiB. *)
Definition sample_layout : Layout.
Proof.
  refine {| PDirPool := 2097152; IDPTbl := 4194304 |}; try by vm_compute.
  left. by vm_compute.
Defined.

#[local] Existing Instance sample_layout.

Lemma sample_pmmap :
  ∃ pm, pmmap_init sample_mboot 4096 boot_physmap = Ok (tt, pm) ∧ pmmap_list pm ≠ [].
Proof. eexists. split; [by vm_compute|done]. Qed.

Lemma paging_init_correct_witness :
  ∃ s, paging_init 4096 (boot_vm sample_mboot) = Ok (tt, s) ∧ vm_ok s
    ∧ ∀ va w, is_u32 va → mmu (v_mem s) (cr3 s) false w va = Some va.
Proof.
  destruct sample_pmmap as (pm & E & Hne).
  destruct (paging_init_correct sample_mboot 4096 pm E Hne) as (s & Hs & Hok & _ & Hmmu & _).
  exact (ex_intro _ s (conj Hs (conj Hok Hmmu))).
Defined.

(** Two pages handed out, three free and all of them the quota of process 1. *)
Definition sample_frames : cont :=
  Cont (Pmm released 262150
          (<[262145 := At 2 1]> (<[262146 := At 2 1]>
            (<[262147 := At 2 0]> (<[262148 := At 2 0]> (<[262149 := At 2 0]> ∅)))))
          262146 boot_physmap)
    (<[0 := Container 5 5 0 1 1]> (<[1 := Container 5 2 0 0 1]> ∅)).

Lemma sample_frames_ok : cont_ok sample_frames.
Proof.
  split; cbn [c_pmm CONTAINER sample_frames].
  - by split; vm_compute.
  - intros id. rewrite !aget_insert. unfold con_ok, MAX_CHILDREN.
    repeat case_decide; [cbn; lia|cbn; lia|by vm_compute].
  - intros id Hid. rewrite !(aget_ne _ 0) by lia. rewrite aget_insert.
    case_decide; subst; [by vm_compute|done].
  - intros id. rewrite !aget_insert. by repeat case_decide.
  - intros i. cbn. rewrite !aget_insert. repeat case_decide; subst; done.
  - by vm_compute.
Qed.

Lemma sample_frames_norm p : is_norm (AT_of sample_frames p) = true → user_frame p.
Proof.
  unfold AT_of. cbn. rewrite !aget_insert. repeat case_decide; subst; done.
Qed.

(** A state in which process 1 has one page mapped at the start of its user
    half, through a table in the page below it. *)
Lemma sample_vm :
  ∃ s, vm_ok s ∧ v_cont s = sample_frames
    ∧ va_entry (v_mem s) 1 VM_USERLO = 262146 * 4096 + 7
    ∧ ∀ w, mmu (v_mem s) (pdir_addr 1 0) true w VM_USERLO = Some (262146 * 4096).
Proof.
  destruct sample_pmmap as (pm & E & Hne). set (m0 := sample_mboot) in E. clearbody m0.
  destruct (wp_run (paging_init 4096) (λ _ s, vm_ok s ∧ ∀ p, ¬ in_use s p)
    (boot_vm m0)) as ([] & s0 & _ & [Hok0 _] & Hnone).
  { by apply (wp_paging_init 4096 pm). }
  set (s1 := lset l_pt_lk released (set_cont sample_frames s0)).
  assert (fresh (v_mem s0) 262145 ∧ fresh (v_mem s0) 262146) as [Hf1 Hf2].
  { split; intros u Hu Hp; by destruct (Hnone _ (to_use _ _ (vo_tables s0 Hok0) u _ Hu Hp)). }
  assert (tables_ok (v_mem s0) (in_use s1)) as Ht.
  { eapply tables_ok_mono; [|apply Hok0]. intros p Hp. by destruct (Hnone p). }
  assert (∀ q, in_use s1 q → user_frame q) as HF.
  { intros q Hq. by apply sample_frames_norm, (co_allocated _ sample_frames_ok). }
  assert (pde_at (v_mem s0) 1 256 = 0) as Hz.
  { destruct (Z.eqb_spec (pde_at (v_mem s0) 1 256) 0); [done|].
    destruct (Hnone (pde_at (v_mem s0) 1 256 / 4096)).
    apply (to_use _ _ (vo_tables s0 Hok0) (UTable 1 256)); [done|]. cbn.
    by rewrite (proj2 (Z.eqb_neq _ 0)). }
  set (m1 := memset (write32 (v_mem s0) (pdir_addr 1 256) (262145 * 4096 + 7))
               (262145 * 4096) 0 4096).
  assert (table_added (v_mem s0) m1 1 256 262145) as Hta.
  { unfold m1. split.
    - intros x Hx. by rewrite memset_spec, decide_False by lia.
    - intros j Hj. unfold read32. by rewrite !memset_spec, !decide_True by lia. }
  clearbody m1.
  pose proof (table_added_pde (v_mem s0) m1 (in_use s1) 1 256 262145 HF ltac:(done) ltac:(done)
    ltac:(done) Hta) as Hpde.
  assert (tables_ok m1 (in_use s1)) as Ht1.
  { by eapply (table_added_ok (v_mem s0) m1 (in_use s1) 1 256 262145). }
  assert (fresh m1 262146) as Hf3.
  { intros u Hu. destruct (decide (u = UTable 1 256)) as [->|].
    - cbn [use_page]. by rewrite Hpde.
    - rewrite (table_added_use (v_mem s0) m1 (in_use s1) 1 256 262145); [by apply Hf2|done..]. }
  pose proof (set_entry_ok m1 (in_use s1) 1 256 0 262146 7) as Hset.
  set (m2 := write32 m1 _ _) in Hset.
  assert (pde_at m1 1 256 ≠ 0) as Hnz by (by rewrite Hpde).
  assert (vm_core (set_mem m2 s1)) as Hok.
  { split; [exact (cont_ok_pages _ sample_frames_ok)|exact sample_frames_norm|]. by apply Hset. }
  assert (va_entry m2 1 VM_USERLO = 262146 * 4096 + 7) as He.
  { unfold va_entry, data_entry. change (pde_index_of VM_USERLO) with 256.
    change (pte_index_of VM_USERLO) with 0. unfold m2.
    rewrite (set_entry_pde m1 (in_use s1)), (proj2 (Z.eqb_neq _ 0)) by done.
    by apply (set_entry_pte m1 (in_use s1)). }
  exists (set_mem m2 s1). split_and!; [by split|done|done|].
  intros w. change (262146 * 4096) with (262146 * 4096 + VM_USERLO mod 4096).
  by apply mmu_of_entry.
Qed.


Lemma alloc_page_correct_witness :
  ∃ s r s', alloc_page 1 1073745920 7 s = Ok (r, s') ∧ vm_ok s'.
Proof.
  destruct sample_vm as (s & Hok & _ & _).
  destruct (alloc_page_correct s 1 1073745920 Hok) as (r & s' & Hr & Hok' & _); [done|done|].
  by exists s, r, s'.
Defined.

