(* ===== verification/UserCopy.v ===== *)
(** * Copying between kernel and user memory (kern/lib/pmap.c)

    The three loops walk the page structure of the process one page at a time
    and allocate pages that are not mapped yet.  The proofs relate them to the
    virtual memory of the process: a byte copied out is the byte the process
    reads at that address, and nothing else it or another process reads
    changes. *)

From S2P Require Import Prelude Memory Spinlock PhysMap Pmm Container PageTable Isolation.

Section UserCopy.
Context `{L : Layout}.

(** ** Operations *)

(** Lines 31-36 of each loop: the entry for [uva], after allocating a page when
    it is not present. *)
Definition user_entry (pmap_id uva : Z) : M vm Z :=
  uva_pa ← get_ptbl_entry_by_va pmap_id uva;
  if Z.land uva_pa PTE_P =? 0 then
    _ ← alloc_page pmap_id uva (Z.lor (Z.lor PTE_P PTE_U) PTE_W);
    get_ptbl_entry_by_va pmap_id uva
  else mret uva_pa.

(** How much of [len] fits the page of [pa]. *)
Definition chunk (pa len : Z) : Z :=
  if len <? PAGESIZE - pa mod PAGESIZE then len else PAGESIZE - pa mod PAGESIZE.

Fixpoint copyin_loop (fuel : nat) (pmap_id uva kva len copied : Z) : M vm Z :=
  if len =? 0 then mret copied
  else match fuel with
  | O => fail OutOfFuel
  | S fuel =>
    e ← user_entry pmap_id uva;
    let uva_pa := u32 (frame e + uva mod PAGESIZE) in
    let size := chunk uva_pa len in
    _ ← modify (λ s, set_mem (memcpy (v_mem s) kva uva_pa size) s);
    copyin_loop fuel pmap_id (u32 (uva + size)) (u32 (kva + size)) (u32 (len - size))
      (u32 (copied + size))
  end.

Definition copy_fuel (len : Z) : nat := Z.to_nat (len / PAGESIZE + 2).

Definition pt_copyin (pmap_id uva kva len : Z) : M vm Z :=
  if negb ((VM_USERLO <=? uva) && (u32 (uva + len) <=? VM_USERHI)) then mret 0
  else if VM_USERHI <? u32 (kva + len) then mret 0
  else copyin_loop (copy_fuel len) pmap_id uva kva len 0.

Fixpoint copyout_loop (fuel : nat) (kva pmap_id uva len copied : Z) : M vm Z :=
  if len =? 0 then mret copied
  else match fuel with
  | O => fail OutOfFuel
  | S fuel =>
    e ← user_entry pmap_id uva;
    let uva_pa := u32 (frame e + uva mod PAGESIZE) in
    let size := chunk uva_pa len in
    _ ← modify (λ s, set_mem (memcpy (v_mem s) uva_pa kva size) s);
    copyout_loop fuel (u32 (kva + size)) pmap_id (u32 (uva + size)) (u32 (len - size))
      (u32 (copied + size))
  end.

Definition pt_copyout (kva pmap_id uva len : Z) : M vm Z :=
  if negb ((VM_USERLO <=? uva) && (u32 (uva + len) <=? VM_USERHI)) then mret 0
  else if VM_USERHI <? u32 (kva + len) then mret 0
  else copyout_loop (copy_fuel len) kva pmap_id uva len 0.

Fixpoint memset_loop (fuel : nat) (pmap_id va c len set : Z) : M vm Z :=
  if len =? 0 then mret set
  else match fuel with
  | O => fail OutOfFuel
  | S fuel =>
    e ← user_entry pmap_id va;
    let pa := u32 (frame e + va mod PAGESIZE) in
    let size := chunk pa len in
    _ ← modify (λ s, set_mem (memset (v_mem s) pa c size) s);
    memset_loop fuel pmap_id (u32 (va + size)) c (u32 (len - size)) (u32 (set + size))
  end.

Definition pt_memset (pmap_id va c len : Z) : M vm Z :=
  memset_loop (copy_fuel len) pmap_id va c len 0.

(** ** The tree of containers

    Copying takes pages, so it changes the usage of containers, but nothing else
    of them. *)

Definition same_tree (s s' : vm) : Prop :=
  ∀ id, set_usage 0 (aget (CONTAINER (v_cont s')) id) = set_usage 0 (aget (CONTAINER (v_cont s)) id).

#[export] Instance same_tree_preorder : PreOrder same_tree.
Proof. split; [by intros s id|]. intros s1 s2 s3 H1 H2 id. by rewrite H2, H1. Qed.

Lemma keeps_mem f : keeps same_tree (modify (λ s, set_mem (f s) s)).
Proof. apply keeps_modify. by intros s id. Qed.

Lemma keeps_pt_lk {A} (m : M spinlock A) : keeps same_tree (lift l_pt_lk m).
Proof. eapply (keeps_lift _ _ _ (λ _ _, True)); [by intros s t _ id|done]. Qed.

Lemma keeps_container_alloc pid : keeps same_tree (lift l_v_cont (container_alloc pid)).
Proof.
  eapply (keeps_lift _ _ _ (λ c c', ∀ id,
    set_usage 0 (aget (CONTAINER c') id) = set_usage 0 (aget (CONTAINER c) id))).
  { intros s c Hc id. apply Hc. }
  set (R := λ c c' : cont, ∀ id,
    set_usage 0 (aget (CONTAINER c') id) = set_usage 0 (aget (CONTAINER c) id)).
  assert (PreOrder R) by (split; [by intros c id|intros c1 c2 c3 H1 H2 id; by rewrite H2, H1]).
  unfold container_alloc, con_get, con_upd. keeps_auto.
  - apply keeps_modify. intros c id. cbn [CONTAINER]. rewrite aget_insert. by case_decide; subst.
  - eapply (keeps_lift _ _ _ (λ _ _, True)); [by intros c p _ id|done].
Qed.
Hint Resolve keeps_mem keeps_pt_lk keeps_container_alloc : keeps.

Lemma keeps_alloc_page pid va prm : keeps same_tree (alloc_page pid va prm).
Proof.
  unfold alloc_page, map_page, alloc_ptbl, pt_spinlock_acquire, pt_spinlock_release,
    get_pdir_entry_by_va, set_pdir_entry_by_va, set_ptbl_entry_by_va, get_pdir_entry,
    set_pdir_entry, put_pdir_entry, set_ptbl_entry, rmv_ptbl_entry, ptbl_entry_addr,
    get_pdir_entry, load32, store32. keeps_auto.
Qed.
Hint Resolve keeps_alloc_page : keeps.

(** ** Whether a page can be had *)

(** The pages [alloc_page] takes: one, and one for the table if there is none. *)
Definition pages_needed (m : mem) (pid va : Z) : Z :=
  if pde_at m pid (pde_index_of va) =? 0 then 2 else 1.

Definition same_cont (s s' : vm) : Prop := v_cont s' = v_cont s.

#[local] Instance same_cont_preorder : PreOrder same_cont.
Proof. split; [done|]. unfold same_cont. intros s1 s2 s3 -> ->. done. Qed.

Lemma keeps_set_table pid va p prm :
  keeps same_cont (set_ptbl_entry_by_va pid va p prm) ∧ keeps same_cont (set_pdir_entry_by_va pid va p)
  ∧ ∀ i j, keeps same_cont (rmv_ptbl_entry pid i j).
Proof.
  assert (∀ f, keeps same_cont (modify (λ s, set_mem (f s) s))) as H by (intros f; by apply keeps_modify).
  unfold set_pdir_entry_by_va, set_ptbl_entry_by_va, set_pdir_entry, put_pdir_entry, set_ptbl_entry,
    rmv_ptbl_entry, ptbl_entry_addr, get_pdir_entry, load32, store32.
  split_and!; [keeps_auto; apply H|keeps_auto; apply H|intros; keeps_auto; apply H].
Qed.

Lemma wpe_same_cont {A B} (m : M vm A) (f : A → M vm B) Q s :
  keeps same_cont m → (∀ a s', v_cont s' = v_cont s → wpe (λ _, True) (f a) Q s') →
  wpe (λ _, True) (m ≫= f) Q s.
Proof.
  intros Hm Hf. apply wpe_bind. unfold wpe at 1. destruct (m s) as [[a s']|e] eqn:E; [|done].
  apply Hf. exact (Hm _ _ _ E).
Qed.

Lemma alloc_page_left pid va prm s :
  vm_ok s → 0 < pid < NUM_IDS → VM_USERLO ≤ va < VM_USERHI →
  wpe (λ _, True) (alloc_page pid va prm) (λ r s',
    if pages_left (v_cont s) pid <? pages_needed (v_mem s) pid va then r = MagicNumber
    else r ≠ MagicNumber
      ∧ pages_left (v_cont s') pid = pages_left (v_cont s) pid - pages_needed (v_mem s) pid va) s.
Proof.
  intros [Hok Hlk] Hpid Hva. pose proof (user_pde_index va Hva) as Hi.
  assert (∀ r, 0 < r < AT_SIZE → r ≠ MagicNumber) as Hmg by (unfold AT_SIZE, MagicNumber; lia).
  assert (∀ s1 (r : Z) (Q : Z → vm → Prop), (∀ s', v_cont s' = v_cont s1 → Q r s') →
    wpe (λ _, True) (_ ← pt_spinlock_release; mret r) Q s1) as Hend.
  { intros s1 r Q HQ. by apply HQ. }
  unfold alloc_page, pages_needed. apply wpe_then, wp_lift, wp_spinlock_acquire; [done|].
  apply wpe_then, wp_lift, wp_container_alloc_left; [bounds|apply Hok|].
  intros pi c Hpg. cbn [lset lget l_v_cont l_pt_lk v_cont v_mem].
  pose proof (pages_left_nonneg (v_cont s) pid) as Hnn.
  destruct (Z.eqb_spec (pages_left (v_cont s) pid) 0) as [H0|H0].
  { intros ->. cbn [Z.eqb]. apply wpe_then, wp_ret, Hend. intros s' _.
    by rewrite (proj2 (Z.ltb_lt _ _)) by (case_cmp; lia). }
  intros [Hpi Hl]. rewrite (proj2 (Z.eqb_neq pi 0)) by lia.
  destruct (keeps_set_table pid va pi prm) as (Hset & _ & Hrmv). apply wpe_bind. unfold map_page, get_pdir_entry_by_va.
  apply wpe_then, wp_get_pdir_entry; [bounds|bounds|]. cbn [v_mem].
  destruct (Z.eqb_spec (pde_at (v_mem s) pid (pde_index_of va)) 0) as [Hz|Hz]; cbn [negb].
  2: { apply wpe_then, wp_ret. apply wpe_same_cont; [done|]. intros _ s2 E2. apply Hend. intros s' E'.
    rewrite (proj2 (Z.ltb_ge _ _)) by lia. rewrite E', E2. split; [done|]. exact Hl. }
  apply wpe_bind, wpe_bind. unfold alloc_ptbl. apply wpe_then, wp_lift, wp_container_alloc_left; [bounds|done|].
  intros r c2 _. cbn [lset lget l_v_cont v_cont v_mem]. rewrite Hl.
  destruct (Z.eqb_spec (pages_left (v_cont s) pid - 1) 0) as [H1|H1].
  { intros ->. cbn [Z.eqb negb]. apply wpe_then, wp_ret. apply wpe_wp, wp_ret, wpe_wp, wp_ret. cbn [Z.eqb negb MagicNumber].
    apply wpe_then, wp_ret, Hend. intros s' _. by rewrite (proj2 (Z.ltb_lt _ _)) by lia. }
  intros [Hr Hl2]. destruct (keeps_set_table pid va r prm) as (_ & Hset2 & _).
  rewrite (proj2 (Z.eqb_neq r 0)) by lia. cbn [negb]. apply wpe_same_cont.
  { apply keeps_bind; [apply _|done|]. intros _. by apply keeps_for_range; [apply _|]. }
  intros _ s3 E3. apply wpe_wp, wp_ret, wpe_wp, wp_ret. rewrite (proj2 (Z.eqb_neq r 0)), (proj2 (Z.eqb_neq r MagicNumber)) by (lia || auto).
  cbn [negb]. apply wpe_same_cont; [done|]. intros _ s4 E4. apply Hend. intros s' E'.
  rewrite (proj2 (Z.ltb_ge _ _)) by lia. rewrite E', E4, E3. split; [auto|]. cbn [v_cont]. lia.
Qed.

(** [wp_alloc_page] with the exact condition for the page to be had. *)
Lemma wp_alloc_page_left pid va prm Q s :
  vm_ok s → 0 < pid < NUM_IDS → VM_USERLO ≤ va < VM_USERHI → 0 ≤ prm < 4096 →
  (∀ s', vm_ok s' → v_mem s' = v_mem s → cr3 s' = cr3 s → paging s' = paging s →
     (∀ q, in_use s q → in_use s' q) →
     pages_left (v_cont s) pid < pages_needed (v_mem s) pid va → Q MagicNumber s') →
  (∀ r s' p, r ≠ MagicNumber → vm_ok s' → page_added s s' pid va prm p →
     pages_needed (v_mem s) pid va ≤ pages_left (v_cont s) pid →
     pages_left (v_cont s') pid = pages_left (v_cont s) pid - pages_needed (v_mem s) pid va → Q r s') →
  wp (alloc_page pid va prm) Q s.
Proof.
  intros Hok Hpid Hva Hprm HQ0 HQ.
  eapply wp_mono; [apply wp_and; [|by apply (alloc_page_left pid va prm)]|].
  - apply (wp_alloc_page pid va prm (λ r s', (r = MagicNumber ∧ vm_ok s' ∧ v_mem s' = v_mem s ∧ cr3 s' = cr3 s
      ∧ paging s' = paging s ∧ (∀ q, in_use s q → in_use s' q))
      ∨ ∃ p, r ≠ MagicNumber ∧ vm_ok s' ∧ page_added s s' pid va prm p)); try done.
    + intros. by left.
    + intros r s' p **. right. by exists p.
  - intros r s' [H Hl]. cbn beta in Hl.
    destruct (Z.ltb_spec (pages_left (v_cont s) pid) (pages_needed (v_mem s) pid va)) as [Hlt|Hge].
    + subst r. destruct H as [(_ & ? & ? & ? & ? & ?)|(p & [] & _)]; [auto|done].
    + destruct H as [(-> & _)|(p & ? & ? & ?)]; [by destruct Hl as [[] _]|]. destruct Hl. by eapply HQ.
Qed.

Lemma keeps_user_entry pid va : keeps same_tree (user_entry pid va).
Proof.
  unfold user_entry, get_ptbl_entry_by_va, get_ptbl_entry, ptbl_entry_addr, get_pdir_entry, load32.
  keeps_auto.
Qed.
Hint Resolve keeps_user_entry : keeps.

Lemma keeps_pt_copyout kva pid va len : keeps same_tree (pt_copyout kva pid va len).
Proof.
  unfold pt_copyout. keeps_auto. generalize (copy_fuel len) as n, 0 as c. intros n.
  revert kva va len. induction n as [|n IH]; intros kva va len c; cbn [copyout_loop]; keeps_auto.
Qed.

Lemma keeps_pt_copyin kva pid va len : keeps same_tree (pt_copyin pid va kva len).
Proof.
  unfold pt_copyin. keeps_auto. generalize (copy_fuel len) as n, 0 as c. intros n.
  revert kva va len. induction n as [|n IH]; intros kva va len c; cbn [copyin_loop]; keeps_auto.
Qed.

Lemma keeps_pt_memset pid va c len : keeps same_tree (pt_memset pid va c len).
Proof.
  unfold pt_memset. generalize (copy_fuel len) as n, 0 as k. intros n.
  revert va len. induction n as [|n IH]; intros va len k; cbn [memset_loop]; keeps_auto.
Qed.

(** ** Specification: the virtual memory of a process *)

Definition present (e : Z) : bool := negb (Z.land e PTE_P =? 0).

Definition pa_of (m : mem) (pid va : Z) : Z := frame (va_entry m pid va) + va mod 4096.

(** The byte process [pid] has at [va], if a page is present there. *)
Definition uread (m : mem) (pid va : Z) : option Z :=
  if present (va_entry m pid va) then Some (read8 m (pa_of m pid va)) else None.

Definition user_va (va : Z) : Prop := VM_USERLO ≤ va < VM_USERHI.

Definition user_pid (pid : Z) : Prop := 0 < pid < NUM_IDS.

(** Kernel memory that the page structures do not use. *)
Definition kernel_byte (x : Z) : Prop :=
  4096 ≤ x < VM_USERLO ∧ ¬ (PDirPool ≤ x < PDirPool + NUM_IDS * 4096)
  ∧ ¬ (IDPTbl ≤ x < IDPTbl + 1024 * 4096).

(** The addresses of process [pid] whose page meets [[lo, hi)]. *)
Definition touched (pid lo hi : Z) (pid' va' : Z) : Prop :=
  pid' = pid ∧ lo < hi ∧ lo / 4096 ≤ va' / 4096 ∧ va' / 4096 * 4096 < hi.

Definition within (pid lo hi : Z) (pid' va' : Z) : Prop := pid' = pid ∧ lo ≤ va' < hi.
Definition nowhere (pid' va' : Z) : Prop := False.
Definition kernel_range (lo hi x : Z) : Prop := lo ≤ x < hi.

(** What every step of the loops keeps: registers, present pages, kernel
    memory. [T pid va] are the addresses where it may map a page, [W pid va] the
    user bytes and [K x] the kernel bytes it may write. *)
Record ucopy (T W : Z → Z → Prop) (K : Z → Prop) (s s' : vm) : Prop := {
  uc_ok : vm_ok s';
  uc_regs : cr3 s' = cr3 s ∧ paging s' = paging s;
  uc_mono q : in_use s q → in_use s' q;
  uc_present pid va : user_pid pid → user_va va →
    present (va_entry (v_mem s) pid va) = true →
    va_entry (v_mem s') pid va = va_entry (v_mem s) pid va;
  uc_absent pid va : user_pid pid → user_va va → ¬ T pid va →
    va_entry (v_mem s') pid va = va_entry (v_mem s) pid va;
  uc_uread pid va b : user_pid pid → user_va va → ¬ W pid va →
    uread (v_mem s) pid va = Some b → uread (v_mem s') pid va = Some b;
  uc_kernel x : kernel_byte x → ¬ K x → read8 (v_mem s') x = read8 (v_mem s) x
}.

(** ** Lemmas *)

Lemma ucopy_refl T W K s : vm_ok s → ucopy T W K s s.
Proof. intros Hok. by split. Qed.

Lemma ucopy_trans T1 T2 W1 W2 K1 K2 T W K s1 s2 s3 :
  ucopy T1 W1 K1 s1 s2 → ucopy T2 W2 K2 s2 s3 →
  (∀ pid va, T1 pid va → T pid va) → (∀ pid va, T2 pid va → T pid va) →
  (∀ pid va, W1 pid va → W pid va) → (∀ pid va, W2 pid va → W pid va) →
  (∀ x, K1 x → K x) → (∀ x, K2 x → K x) →
  ucopy T W K s1 s3.
Proof.
  intros [Hok1 [Hr1 Hr1'] Hm1 Hp1 Ha1 Hu1 Hk1] [Hok2 [Hr2 Hr2'] Hm2 Hp2 Ha2 Hu2 Hk2]
    HT1 HT2 HW1 HW2 HK1 HK2.
  split; [done|split; congruence|auto| | | |].
  - intros pid va Hpid Hva Hpr. rewrite Hp2; [by apply Hp1|done|done|].
    by rewrite Hp1.
  - intros pid va Hpid Hva HnT. rewrite Ha2, Ha1; try done; [by intros ?%HT1|by intros ?%HT2].
  - intros pid va b Hpid Hva HnW Hb. apply Hu2; [done|done|by intros ?%HW2|].
    apply Hu1; [done|done|by intros ?%HW1|done].
  - intros x Hx HnK. rewrite Hk2 by (auto || by intros ?%HK2). apply Hk1; [done|by intros ?%HK1].
Qed.

Definition u_of (pid va : Z) : use := UData pid (pde_index_of va) (pte_index_of va).

Lemma u_of_valid pid va : user_pid pid → user_va va → valid_use (u_of pid va).
Proof.
  intros Hpid Hva. pose proof (user_pde_index va Hva). pose proof (pte_index_bound va). done.
Qed.

Lemma user_va_u32 va : user_va va → is_u32 va.
Proof. unfold user_va, is_u32, two32, VM_USERLO, VM_USERHI. lia. Qed.

Lemma va_entry_u32 m pid va : is_u32 (va_entry m pid va).
Proof.
  unfold va_entry, data_entry. case_match; [done|apply read32_range].
Qed.

Lemma use_of_entry m pid va :
  va_entry m pid va ≠ 0 → use_page m (u_of pid va) = Some (va_entry m pid va / 4096).
Proof. intros E. unfold u_of. rewrite use_data. by rewrite (proj2 (Z.eqb_neq _ 0)). Qed.

Lemma present_nonzero e : present e = true → e ≠ 0.
Proof. by intros H ->. Qed.

Lemma entry_user s pid va :
  vm_core s → user_pid pid → user_va va → va_entry (v_mem s) pid va ≠ 0 →
  in_use s (va_entry (v_mem s) pid va / 4096) ∧ user_frame (va_entry (v_mem s) pid va / 4096).
Proof.
  intros Hok Hpid Hva E.
  assert (in_use s (va_entry (v_mem s) pid va / 4096)) as Hin.
  { apply (to_use _ _ (vo_tables s Hok) (u_of pid va)); [by apply u_of_valid|].
    by apply use_of_entry. }
  split; [done|]. by apply (in_use_user s).
Qed.

Lemma same_vpage va va' :
  pde_index_of va = pde_index_of va' → pte_index_of va = pte_index_of va' →
  va - va mod 4096 = va' - va' mod 4096.
Proof. intros E1 E2. rewrite (va_split va) at 1. rewrite (va_split va') at 1. rewrite E1, E2. lia. Qed.

(** The tables do not depend on the rest of kernel memory. *)
Lemma low_change s m' :
  vm_core s →
  (∀ x, VM_USERLO ≤ x < VM_USERHI ∨ PDirPool ≤ x < PDirPool + NUM_IDS * 4096
        ∨ IDPTbl ≤ x < IDPTbl + 1024 * 4096 → read8 m' x = read8 (v_mem s) x) →
  vm_core (set_mem m' s)
  ∧ ∀ pid i j, valid_use (UData pid i j) → data_entry m' pid i j = data_entry (v_mem s) pid i j.
Proof.
  intros Hok Ha. pose proof (vo_tables s Hok) as Ht.
  assert (∀ pid i, 0 ≤ pid < NUM_IDS → 0 ≤ i < 1024 →
    pde_at m' pid i = pde_at (v_mem s) pid i) as Hpde.
  { intros pid i Hpid Hi. apply read32_ext. intros x Hx. apply Ha.
    pose proof (pdir_addr_low pid i Hpid Hi). lia. }
  assert (∀ pid i j, valid_use (UData pid i j) →
    data_entry m' pid i j = data_entry (v_mem s) pid i j) as Hent.
  { cbn [valid_use]. intros pid i j Hv. unfold data_entry. rewrite Hpde by lia.
    destruct (Z.eqb_spec (pde_at (v_mem s) pid i) 0) as [|Hnz]; [done|].
    unfold pte_at. rewrite Hpde by lia. rewrite frame_eq by apply read32_range.
    apply read32_ext. intros x Hx. apply Ha. left.
    assert (user_frame (pde_at (v_mem s) pid i / 4096)) as Huf%user_frame_addr.
    { apply (in_use_user s); [done|]. apply (to_use _ _ Ht (UTable pid i)); [cbn; lia|].
      cbn. by rewrite (proj2 (Z.eqb_neq _ 0)). }
    lia. }
  split; [|done]. apply vm_core_mem; [done|].
  assert (∀ u, valid_use u → use_page m' u = use_page (v_mem s) u) as Hu.
  { intros [pid i|pid i j] Hv.
    - cbn [use_page]. cbn [valid_use] in Hv. by rewrite Hpde by lia.
    - by rewrite !use_data, Hent. }
  destruct Ht as [Hid Hk Hpm Huse Hinj]. split.
  - intros a b Ha' Hb. rewrite <- (Hid a b Ha' Hb). apply read32_ext. intros x Hx. apply Ha.
    pose proof (idptbl_addr_low a b Ha' Hb). lia.
  - intros pid a Hpid Ha' Hor. rewrite Hpde by lia. by apply Hk.
  - intros pid a Hpid Ha'. rewrite Hpde by lia. by apply Hpm.
  - intros u q Hv. rewrite Hu by done. by apply Huse.
  - intros u u' q Hv Hv'. rewrite !Hu by done. by apply Hinj.
Qed.

(** The arrays are page-aligned and not at address 0. *)
Lemma page0_free : 4096 ≤ PDirPool ∧ 4096 ≤ IDPTbl.
Proof.
  pose proof PDirPool_aligned. pose proof IDPTbl_aligned. pose proof PDirPool_low.
  pose proof IDPTbl_low. split; Z.to_euclidean_division_equations; lia.
Qed.

(** A write to other kernel memory leaves what every process reads. *)
Lemma kernel_write s m' lo hi :
  vm_ok s → (∀ x, lo ≤ x < hi → kernel_byte x) →
  (∀ x, ¬ (lo ≤ x < hi) → read8 m' x = read8 (v_mem s) x) →
  ucopy nowhere nowhere (kernel_range lo hi) s (set_mem m' s).
Proof.
  intros [Hok Hlk] Hkb Hout.
  destruct (low_change s m' Hok) as [Hok' Hent].
  { intros x Hx. apply Hout. intros Hin. specialize (Hkb x Hin). unfold kernel_byte in Hkb. lia. }
  assert (∀ pid va, user_pid pid → user_va va →
    va_entry m' pid va = va_entry (v_mem s) pid va) as Hent'.
  { intros pid va Hpid Hva. apply Hent. by apply (u_of_valid pid va). }
  split; [by split|done|done|by auto|by auto| |].
  - intros pid va b Hpid Hva _. unfold uread. cbn [v_mem set_mem]. rewrite Hent' by done.
    destruct (present _) eqn:Hpr; [|done]. intros [= <-]. f_equal. unfold pa_of.
    rewrite Hent' by done. apply Hout. intros Hin. specialize (Hkb _ Hin).
    apply present_nonzero in Hpr. pose proof (entry_user s pid va Hok Hpid Hva Hpr) as [_ Huf].
    apply user_frame_addr in Huf. unfold kernel_byte in Hkb.
    rewrite frame_eq in Hkb by apply va_entry_u32.
    pose proof (Z.mod_pos_bound va 4096 ltac:(lia)). lia.
  - intros x _ Hx. cbn. by apply Hout.
Qed.

(** ... nor on a data page. *)
Lemma data_change s m' pid va :
  vm_core s → user_pid pid → user_va va → va_entry (v_mem s) pid va ≠ 0 →
  agree_out (va_entry (v_mem s) pid va / 4096) (v_mem s) m' →
  vm_core (set_mem m' s)
  ∧ ∀ pid i j, valid_use (UData pid i j) → data_entry m' pid i j = data_entry (v_mem s) pid i j.
Proof.
  intros Hok Hpid Hva He Ha. pose proof (vo_tables s Hok) as Ht.
  destruct (entry_user s pid va Hok Hpid Hva He) as [Hin Huf].
  set (p := va_entry (v_mem s) pid va / 4096) in *.
  assert (∀ pid' i, valid_use (UTable pid' i) → use_page (v_mem s) (UTable pid' i) ≠ Some p)
    as Hnt.
  { intros pid' i Hv Hc.
    pose proof (to_inj _ _ Ht _ _ p (u_of_valid pid va Hpid Hva) Hv) as Hinj.
    discriminate Hinj; [by apply use_of_entry|done]. }
  split.
  - apply vm_core_mem; [done|]. by eapply tables_ok_agree.
  - cbn [valid_use]. intros pid' i j Hv. unfold data_entry.
    rewrite (agree_pde p (v_mem s) m') by bounds.
    destruct (Z.eqb_spec (pde_at (v_mem s) pid' i) 0) as [|Hnz]; [done|].
    apply (agree_pte p); try bounds. intros E. apply (Hnt pid' i); [cbn; lia|].
    cbn. by rewrite (proj2 (Z.eqb_neq _ 0)), E.
Qed.

(** One write of the loops: [n] bytes at the physical address of [va], within
    its page.  It is a write to the virtual bytes [va], ..., [va + n - 1]. *)
Lemma user_write s m' pid va n :
  let pa := pa_of (v_mem s) pid va in
  vm_ok s → user_pid pid → user_va va → 0 ≤ n ≤ 4096 - va mod 4096 →
  (∀ x, ¬ (pa ≤ x < pa + n) → read8 m' x = read8 (v_mem s) x) →
  ucopy nowhere (within pid va (va + n)) (λ _, False) s (set_mem m' s)
  ∧ (∀ pid' va', user_pid pid' → user_va va' → va_entry m' pid' va' = va_entry (v_mem s) pid' va').
Proof.
  intros pa [Hok Hlk] Hpid Hva Hn Hout. pose proof (vo_tables s Hok) as Ht.
  pose proof (Z.mod_pos_bound va 4096 ltac:(lia)) as Hoff.
  assert (pa = va_entry (v_mem s) pid va / 4096 * 4096 + va mod 4096) as Hpa.
  { unfold pa, pa_of. by rewrite frame_eq by apply va_entry_u32. }
  set (p := va_entry (v_mem s) pid va / 4096) in *.
  assert (agree_out p (v_mem s) m') as Ha by (intros x Hx; apply Hout; lia).
  assert (vm_core (set_mem m' s) ∧ ∀ pid i j, valid_use (UData pid i j) →
    data_entry m' pid i j = data_entry (v_mem s) pid i j) as [Hok' Hent].
  { destruct (decide (va_entry (v_mem s) pid va = 0)) as [E|E].
    - apply low_change; [done|]. intros x Hx. apply Ha. unfold p. rewrite E.
      pose proof page0_free. unfold VM_USERLO in *. change (0 / 4096) with 0. lia.
    - by apply (data_change s m' pid va). }
  assert (∀ pid' va', user_pid pid' → user_va va' →
    va_entry m' pid' va' = va_entry (v_mem s) pid' va') as Hent'.
  { intros pid' va' Hpid' Hva'. apply Hent. by apply (u_of_valid pid' va'). }
  assert (p = 0 ∨ (use_page (v_mem s) (u_of pid va) = Some p ∧ user_frame p)) as Hcase.
  { destruct (decide (va_entry (v_mem s) pid va = 0)) as [E|E].
    - left. unfold p. by rewrite E.
    - right. split; [by apply use_of_entry|]. by apply (entry_user s). }
  split; [|done]. split; [by split|done|done|by auto|by auto| |].
  - intros pid' va' b Hpid' Hva' HnW. unfold uread. cbn [v_mem set_mem].
    rewrite Hent' by done. destruct (present _) eqn:Hpr; [|done].
    intros [= <-]. f_equal. unfold pa_of. rewrite Hent' by done.
    apply present_nonzero in Hpr. pose proof (entry_user s pid' va' Hok Hpid' Hva' Hpr) as [_ Huf].
    rewrite frame_eq by apply va_entry_u32. set (p' := va_entry (v_mem s) pid' va' / 4096) in *.
    pose proof (Z.mod_pos_bound va' 4096 ltac:(lia)). apply Hout. intros Hin.
    assert (p' = p) as E by lia. pose proof (user_frame_range p' Huf).
    destruct Hcase as [?|[Hup _]]; [lia|].
    assert (u_of pid' va' = u_of pid va) as [= -> Ei Ej].
    { apply (to_inj _ _ Ht _ _ p); [by apply u_of_valid|by apply u_of_valid| |done].
      rewrite <- E. by apply use_of_entry. }
    apply HnW. split; [done|]. pose proof (same_vpage va' va Ei Ej). lia.
  - intros x Hx _. cbn. apply Hout. intros Hin. unfold kernel_byte, VM_USERLO in Hx.
    destruct Hcase as [?|[_ Huf%user_frame_addr]]; [lia|]. unfold VM_USERLO in Huf. lia.
Qed.

Lemma wp_user_entry pid va Q s :
  vm_ok s → user_pid pid → user_va va →
  (∀ s', ucopy (touched pid va (va + 1)) nowhere (λ _, False) s s' →
     (2 ≤ pages_left (v_cont s) pid → present (va_entry (v_mem s') pid va) = true
        ∧ pages_left (v_cont s) pid - 2 ≤ pages_left (v_cont s') pid) →
     Q (va_entry (v_mem s') pid va) s') →
  wp (user_entry pid va) Q s.
Proof.
  intros Hok Hpid Hva HQ. pose proof (user_va_u32 va Hva) as Hu32. unfold user_entry.
  unfold user_pid in Hpid. wp_step. apply wp_get_ptbl_entry_by_va; [lia|done|].
  destruct (Z.eqb_spec (Z.land (va_entry (v_mem s) pid va) PTE_P) 0) as [Hnp|Hp].
  2: { wp_steps. apply HQ; [by apply ucopy_refl|]. intros _. split; [|lia]. unfold present.
    by rewrite (proj2 (Z.eqb_neq _ 0)). }
  assert (1 ≤ pages_needed (v_mem s) pid va ≤ 2) as Hneed by (unfold pages_needed; case_cmp; lia).
  wp_step. apply wp_alloc_page_left; [done|done|done|by vm_compute| |].
  - intros s' Hok' Hm Hr1 Hr2 Hmono Hlt. apply wp_get_ptbl_entry_by_va; [lia|done|].
    apply HQ; [|lia]. split; try done; rewrite Hm; done.
  - intros r s' p _ Hok' [[Hregs Hmono He Huse Hby Hoth Hkern] Huf _] _ Hl.
    apply wp_get_ptbl_entry_by_va; [lia|done|]. apply HQ.
    2: { intros _. split; [|lia]. rewrite He. unfold present, PTE_P.
      change 1 with (Z.ones 1). rewrite Z.land_ones by lia. apply negb_true_iff, Z.eqb_neq.
      change (Z.lor (Z.lor (Z.ones 1) PTE_U) PTE_W) with 7. Z.to_euclidean_division_equations. lia. }
    assert (∀ pid' va', user_pid pid' → user_va va' → present (va_entry (v_mem s) pid' va') = true →
      va_entry (v_mem s') pid' va' = va_entry (v_mem s) pid' va') as Hpr.
    { intros pid' va' Hpid' Hva' Hpres. apply Hoth; [by apply (u_of_valid pid' va')|].
      intros [= -> Ei Ej]. unfold va_entry in Hpres, Hnp. unfold present in Hpres.
      by rewrite Ei, Ej, Hnp in Hpres. }
    split; try done.
    + intros pid' va' Hpid' Hva' HnT. apply Hoth; [by apply (u_of_valid pid' va')|].
      intros [= -> Ei Ej]. apply HnT. split; [done|]. split; [lia|].
      pose proof (same_vpage va' va Ei Ej). pose proof (Z.mod_pos_bound va 4096 ltac:(lia)).
      pose proof (Z.div_mod va 4096). pose proof (Z.div_mod va' 4096). lia.
    + intros pid' va' b Hpid' Hva' _. unfold uread. destruct (present _) eqn:Hpres; [|done].
      rewrite Hpr, Hpres by done. intros [= <-]. f_equal. unfold pa_of. rewrite Hpr by done.
      pose proof (present_nonzero _ Hpres) as Hnz. pose proof (Z.mod_pos_bound va' 4096 ltac:(lia)).
      apply (Hby (u_of pid' va') (va_entry (v_mem s) pid' va' / 4096));
        [by apply u_of_valid|by apply use_of_entry|done|].
      rewrite frame_eq by apply va_entry_u32. lia.
    + intros x (Hx & Hx' & _) _. apply Hkern; [lia|done].
Qed.

(** ** The loops *)

(** The bounds every turn keeps: the range is in user space and the remaining
    fuel covers the pages it meets. *)
Definition in_user (va len : Z) : Prop := VM_USERLO ≤ va ∧ 0 ≤ len ∧ va + len ≤ VM_USERHI.

Definition enough (fuel : nat) (va len : Z) : Prop :=
  len = 0 ∨ len + va mod 4096 ≤ Z.of_nat fuel * 4096.

Lemma copy_fuel_enough va len : 0 ≤ len → enough (copy_fuel len) va len.
Proof.
  intros Hlen. right. unfold copy_fuel, PAGESIZE.
  pose proof (Z.mod_pos_bound va 4096 ltac:(lia)).
  rewrite Z2Nat.id by (Z.to_euclidean_division_equations; lia).
  Z.to_euclidean_division_equations; lia.
Qed.

(** The physical address of a turn and the size of its chunk. *)
Lemma turn_pa s pid va :
  vm_ok s → user_pid pid → user_va va →
  u32 (frame (va_entry (v_mem s) pid va) + va mod PAGESIZE) = pa_of (v_mem s) pid va
  ∧ 0 ≤ pa_of (v_mem s) pid va ∧ pa_of (v_mem s) pid va mod 4096 = va mod 4096
  ∧ pa_of (v_mem s) pid va + (4096 - va mod 4096) ≤ VM_USERHI.
Proof.
  intros [Hok _] Hpid Hva. unfold pa_of, PAGESIZE.
  rewrite frame_eq by apply va_entry_u32. pose proof (Z.mod_pos_bound va 4096 ltac:(lia)).
  set (p := va_entry (v_mem s) pid va / 4096).
  assert (0 ≤ p ∧ (p + 1) * 4096 ≤ VM_USERHI) as Hp.
  { destruct (decide (va_entry (v_mem s) pid va = 0)) as [E|E].
    - unfold p. rewrite E. by vm_compute.
    - pose proof (entry_user s pid va Hok Hpid Hva E) as [_ Huf]. fold p in Huf.
      pose proof (user_frame_range p Huf). apply user_frame_addr in Huf. lia. }
  unfold VM_USERHI in *. rewrite entry_flags by lia.
  split_and!; [|lia|done|lia]. apply u32_small. unfold is_u32, two32. lia.
Qed.

Lemma chunk_spec pa va len :
  pa mod 4096 = va mod 4096 → 0 < len →
  0 < chunk pa len ≤ 4096 - va mod 4096 ∧ chunk pa len ≤ len
  ∧ (chunk pa len = len ∨ chunk pa len = 4096 - va mod 4096).
Proof.
  intros E Hlen. unfold chunk, PAGESIZE. rewrite E.
  pose proof (Z.mod_pos_bound va 4096 ltac:(lia)). case_cmp; lia.
Qed.

Lemma next_page va n : n = 4096 - va mod 4096 → (va + n) mod 4096 = 0 ∧ (va + n) / 4096 = va / 4096 + 1.
Proof.
  intros ->. pose proof (Z.div_mod va 4096).
  replace (va + (4096 - va mod 4096)) with ((va / 4096 + 1) * 4096) by lia.
  by rewrite Z.mod_mul, Z.div_mul.
Qed.

Lemma enough_step fuel va len n :
  enough (S fuel) va len → n ≤ len → n = len ∨ n = 4096 - va mod 4096 → 0 < n →
  enough fuel (va + n) (len - n).
Proof.
  unfold enough. intros Hf Hn [->| ->] Hpos; [left; lia|right].
  destruct (next_page va _ eq_refl) as [-> _]. pose proof (Z.mod_pos_bound va 4096 ltac:(lia)). lia.
Qed.

(** Addresses within one page translate alike. *)
Lemma same_page va k :
  0 ≤ k < 4096 - va mod 4096 →
  pde_index_of (va + k) = pde_index_of va ∧ pte_index_of (va + k) = pte_index_of va
  ∧ (va + k) mod 4096 = va mod 4096 + k ∧ (va + k) / 4096 = va / 4096.
Proof.
  intros Hk. pose proof (Z.mod_pos_bound va 4096 ltac:(lia)). pose proof (Z.div_mod va 4096).
  assert ((va + k) / 4096 = va / 4096) as E.
  { symmetry. apply Z.div_unique_pos with (va mod 4096 + k); lia. }
  unfold pde_index_of, pte_index_of. rewrite <- !Z.div_div by lia. rewrite E.
  split_and!; try done. symmetry. apply Z.mod_unique_pos with (va / 4096); lia.
Qed.

Lemma pa_of_same_page m pid va k :
  0 ≤ k < 4096 - va mod 4096 →
  va_entry m pid (va + k) = va_entry m pid va ∧ pa_of m pid (va + k) = pa_of m pid va + k.
Proof.
  intros Hk. destruct (same_page va k Hk) as (E1 & E2 & E3 & _).
  unfold pa_of, va_entry. rewrite E1, E2, E3. lia.
Qed.

Lemma memcpy_spec m dst src n x :
  0 ≤ dst → 0 ≤ src → 0 ≤ n → dst + n < two32 → src + n < two32 →
  read8 (memcpy m dst src n) x =
  if decide (dst ≤ x < dst + n) then read8 m (src + (x - dst)) else read8 m x.
Proof. apply memmove_spec. Qed.

(** The turn of [pt_copyout] and [pt_memset]: afterwards the process reads the
    bytes [f 0], ..., [f (n - 1)], or its page is not present. *)
Lemma write_turn s m' pid va n f :
  let pa := pa_of (v_mem s) pid va in
  vm_ok s → user_pid pid → user_va va → 0 < n ≤ 4096 - va mod 4096 →
  (∀ x, read8 m' x = if decide (pa ≤ x < pa + n) then f (x - pa) else read8 (v_mem s) x) →
  ucopy nowhere (within pid va (va + n)) (λ _, False) s (set_mem m' s)
  ∧ ∀ k, 0 ≤ k < n →
      uread m' pid (va + k) =
      if present (va_entry (v_mem s) pid va) then Some (f k) else None.
Proof.
  intros pa Hok Hpid Hva Hn Hm'.
  destruct (user_write s m' pid va n Hok Hpid Hva) as [Huc Hent]; [lia| |].
  { intros x Hx. by rewrite Hm', decide_False. }
  split; [exact Huc|]. intros k Hk.
  destruct (pa_of_same_page m' pid va k) as [E1 E2]; [lia|].
  unfold uread. rewrite E1, E2. unfold pa_of. rewrite !Hent by done.
  case_match; [|done]. f_equal. change (frame (va_entry (v_mem s) pid va) + va mod 4096) with pa.
  rewrite Hm', decide_True by lia. f_equal. lia.
Qed.

(** Chaining the effects of one turn and of the rest. *)
Lemma ucopy_turn pid va n len K1 K2 K s s1 s2 s3 (W1 W2 W : Z → Z → Prop) :
  0 < n ≤ len →
  ucopy (touched pid va (va + 1)) nowhere (λ _, False) s s1 →
  ucopy nowhere W1 K1 s1 s2 →
  ucopy (touched pid (va + n) (va + len)) W2 K2 s2 s3 →
  (∀ p v, W1 p v → W p v) → (∀ p v, W2 p v → W p v) →
  (∀ x, K1 x → K x) → (∀ x, K2 x → K x) →
  ucopy (touched pid va (va + len)) W K s s3.
Proof.
  intros Hn H1 H2 H3 HW1 HW2 HK1 HK2.
  assert (ucopy (touched pid va (va + 1)) W1 K1 s s2) as H12
    by (eapply ucopy_trans; [exact H1|exact H2|..]; done).
  eapply ucopy_trans; [exact H12|exact H3|..]; try done; intros pid' va'; unfold touched.
  - lia.
  - intros (-> & ? & ? & ?). split_and!; [done|lia| |lia].
    assert (va / 4096 ≤ (va + n) / 4096) by (apply Z.div_le_mono; lia). lia.
Qed.

(** What the first [n] bytes look like after the rest of the range is done. *)
Lemma uread_after pid va n len W K s s' k :
  ucopy (touched pid (va + n) (va + len)) W K s s' →
  user_pid pid → user_va (va + k) → 0 ≤ k < n → n ≤ len →
  n = len ∨ n = 4096 - va mod 4096 → n ≤ 4096 - va mod 4096 →
  (∀ v, W pid v → va + n ≤ v) →
  uread (v_mem s') pid (va + k) = uread (v_mem s) pid (va + k).
Proof.
  intros Huc Hpid Hva Hk Hn Hor Hle HW.
  assert (va_entry (v_mem s') pid (va + k) = va_entry (v_mem s) pid (va + k)) as E.
  { apply (uc_absent _ _ _ _ _ Huc); [done|done|]. intros (_ & Hlt & Hpg & _).
    destruct Hor as [->| ->]; [lia|]. destruct (next_page va _ eq_refl) as [_ Hnp].
    destruct (same_page va k) as (_ & _ & _ & Hsp); [lia|]. lia. }
  destruct (uread (v_mem s) pid (va + k)) as [b|] eqn:Eb.
  - eapply (uc_uread _ _ _ _ _ Huc); [done|done| |done]. intros ?%HW. lia.
  - unfold uread in *. rewrite E. by case_match.
Qed.

(** The number of pages the range meets. *)
Definition range_pages (va len : Z) : Z :=
  if len =? 0 then 0 else (va + len - 1) / 4096 - va / 4096 + 1.

Lemma range_pages_step va len n :
  0 < len → 0 < n ≤ len → n = len ∨ n = 4096 - va mod 4096 →
  range_pages (va + n) (len - n) ≤ range_pages va len - 1 ∧ 0 ≤ range_pages (va + n) (len - n).
Proof.
  intros Hlen Hn Hor. unfold range_pages. rewrite (proj2 (Z.eqb_neq len 0)) by lia.
  assert (va / 4096 ≤ (va + len - 1) / 4096) by (apply Z.div_le_mono; lia).
  destruct (Z.eqb_spec (len - n) 0); [lia|]. destruct Hor as [->|Hor]; [lia|].
  destruct (next_page va n Hor) as [_ ->]. replace (va + n + (len - n) - 1) with (va + len - 1) by lia.
  split; [lia|]. assert ((va + n) / 4096 ≤ (va + len - 1) / 4096) by (apply Z.div_le_mono; lia).
  pose proof (next_page va n Hor). lia.
Qed.

(** Pages enough for all of the range, whatever of it and of its tables is there. *)
Definition room (s : vm) (pid va len : Z) : Prop := 2 * range_pages va len ≤ pages_left (v_cont s) pid.

Lemma wp_copyout_loop fuel kva pid va len copied Q s :
  vm_ok s → user_pid pid → in_user va len → enough fuel va len →
  0 ≤ copied → copied + len < two32 →
  (∀ k, 0 ≤ k < len → kernel_byte (kva + k)) →
  (∀ s', ucopy (touched pid va (va + len)) (within pid va (va + len)) (λ _, False) s s' →
     (∀ k, 0 ≤ k < len →
        uread (v_mem s') pid (va + k) = Some (read8 (v_mem s) (kva + k))
        ∨ uread (v_mem s') pid (va + k) = None ∧ ¬ room s pid va len) →
     Q (copied + len) s') →
  wp (copyout_loop fuel kva pid va len copied) Q s.
Proof.
  revert kva va len copied s. induction fuel as [|fuel IH];
    intros kva va len copied s Hok Hpid (Hlo & Hlen & Hhi) Hf Hc Hcl Hkb HQ;
    cbn [copyout_loop]; destruct (Z.eqb_spec len 0) as [->|Hnz].
  { wp_steps. rewrite <- (Z.add_0_r copied). apply HQ; [by apply ucopy_refl|lia]. }
  { destruct Hf as [?|Hf]; [done|]. pose proof (Z.mod_pos_bound va 4096). lia. }
  { wp_steps. rewrite <- (Z.add_0_r copied). apply HQ; [by apply ucopy_refl|lia]. }
  assert (user_va va) as Hva by (unfold user_va; lia).
  wp_step. apply wp_user_entry; [done|done|done|]. intros s1 Huc1 Hleft.
  pose proof (uc_ok _ _ _ _ _ Huc1) as Hok1.
  destruct (turn_pa s1 pid va Hok1 Hpid Hva) as (-> & Hpa & Hmod & Hpahi).
  set (pa := pa_of (v_mem s1) pid va) in *.
  destruct (chunk_spec pa va len Hmod) as (Hn & Hnl & Hor); [lia|].
  set (n := chunk pa len) in *. clearbody n.
  destruct (range_pages_step va len n) as [Hrp Hrp0]; [lia|lia|done|].
  assert (kernel_byte kva ∧ kernel_byte (kva + (n - 1))) as [Hk0 Hkn].
  { split; [|apply Hkb; lia]. rewrite <- (Z.add_0_r kva). apply Hkb. lia. }
  unfold kernel_byte, VM_USERLO in Hk0, Hkn.
  unfold VM_USERHI in Hpahi.
  destruct (write_turn s1 (memcpy (v_mem s1) pa kva n) pid va n
    (λ k, read8 (v_mem s1) (kva + k)) Hok1 Hpid Hva Hn) as [Huc2 Hrd2].
  { intros x. apply memcpy_spec; unfold two32; lia. }
  wp_steps. set (s2 := set_mem _ s1) in *. unfold VM_USERLO, VM_USERHI, two32 in *.
  rewrite (u32_small (kva + n)), (u32_small (va + n)), (u32_small (len - n)),
    (u32_small (copied + n)) by (unfold is_u32, two32; lia).
  apply IH; [apply Huc2|done| |apply (enough_step fuel); done || lia|lia|unfold two32; lia| |].
  { unfold in_user, VM_USERHI, VM_USERLO. lia. }
  { intros k Hk. rewrite <- Z.add_assoc. apply Hkb. lia. }
  intros s3 Huc3 Hrd3. replace (va + n + (len - n)) with (va + len) in Huc3 by lia.
  replace (copied + n + (len - n)) with (copied + len) by lia.
  apply HQ.
  - eapply (ucopy_turn pid va n len); [lia|exact Huc1|exact Huc2|exact Huc3|..]; try done;
      intros pid' va' (-> & ?); split; done || lia.
  - intros k Hk. destruct (decide (k < n)) as [Hkn'|Hkn'].
    + rewrite (uread_after pid va n len _ _ s2 s3 k Huc3 Hpid); try done; try lia.
      * rewrite Hrd2 by lia. case_match eqn:Hpr; [left|right; split; [done|]; unfold room; intros Hroom;
          destruct Hleft as [? _]; [lia|congruence]]. f_equal.
        apply (uc_kernel _ _ _ _ _ Huc1); [apply Hkb; lia|by intros []].
      * unfold user_va, VM_USERLO, VM_USERHI. lia.
      * intros v [_ ?]. lia.
    + replace (va + k) with (va + n + (k - n)) by lia.
      replace (kva + k) with (kva + n + (k - n)) by lia.
      destruct (Hrd3 (k - n)) as [E|[E Hno]]; [lia| |right; split; [done|]; intros Hroom; apply Hno; unfold room in *;
        change (v_cont s2) with (v_cont s1); destruct Hleft; lia].
      left. rewrite E. f_equal. replace (kva + n + (k - n)) with (kva + k) by lia.
      rewrite (uc_kernel _ _ _ _ _ Huc2); [|apply Hkb; lia|by intros []].
      apply (uc_kernel _ _ _ _ _ Huc1); [apply Hkb; lia|by intros []].
Qed.

Lemma wp_copyin_loop fuel pid va kva len copied Q s :
  vm_ok s → user_pid pid → in_user va len → enough fuel va len →
  0 ≤ copied → copied + len < two32 →
  (∀ k, 0 ≤ k < len → kernel_byte (kva + k)) →
  (∀ s', ucopy (touched pid va (va + len)) nowhere (kernel_range kva (kva + len)) s s' →
     (∀ k b, 0 ≤ k < len → uread (v_mem s) pid (va + k) = Some b →
        read8 (v_mem s') (kva + k) = b) →
     Q (copied + len) s') →
  wp (copyin_loop fuel pid va kva len copied) Q s.
Proof.
  revert kva va len copied s. induction fuel as [|fuel IH];
    intros kva va len copied s Hok Hpid (Hlo & Hlen & Hhi) Hf Hc Hcl Hkb HQ;
    cbn [copyin_loop]; destruct (Z.eqb_spec len 0) as [->|Hnz].
  { wp_steps. rewrite <- (Z.add_0_r copied). apply HQ; [by apply ucopy_refl|lia]. }
  { destruct Hf as [?|Hf]; [done|]. pose proof (Z.mod_pos_bound va 4096). lia. }
  { wp_steps. rewrite <- (Z.add_0_r copied). apply HQ; [by apply ucopy_refl|lia]. }
  assert (user_va va) as Hva by (unfold user_va; lia).
  wp_step. apply wp_user_entry; [done|done|done|]. intros s1 Huc1 _.
  pose proof (uc_ok _ _ _ _ _ Huc1) as Hok1.
  destruct (turn_pa s1 pid va Hok1 Hpid Hva) as (-> & Hpa & Hmod & Hpahi).
  set (pa := pa_of (v_mem s1) pid va) in *.
  destruct (chunk_spec pa va len Hmod) as (Hn & Hnl & Hor); [lia|].
  set (n := chunk pa len) in *. clearbody n.
  assert (kernel_byte kva ∧ kernel_byte (kva + (n - 1))) as [Hk0 Hkn].
  { split; [|apply Hkb; lia]. rewrite <- (Z.add_0_r kva). apply Hkb. lia. }
  unfold kernel_byte, VM_USERLO in Hk0, Hkn. unfold VM_USERHI in Hpahi.
  assert (ucopy nowhere nowhere (kernel_range kva (kva + n)) s1
    (set_mem (memcpy (v_mem s1) kva pa n) s1)) as Huc2.
  { apply kernel_write; [done| |].
    - intros x Hx. replace x with (kva + (x - kva)) by lia. apply Hkb. lia.
    - intros x Hx. by rewrite memcpy_spec, decide_False by (unfold two32; lia). }
  wp_steps. set (s2 := set_mem _ s1) in *. unfold VM_USERLO, VM_USERHI, two32 in *.
  rewrite (u32_small (kva + n)), (u32_small (va + n)), (u32_small (len - n)),
    (u32_small (copied + n)) by (unfold is_u32, two32; lia).
  apply IH; [apply Huc2|done| |apply (enough_step fuel); done || lia|lia|unfold two32; lia| |].
  { unfold in_user, VM_USERHI, VM_USERLO. lia. }
  { intros k Hk. rewrite <- Z.add_assoc. apply Hkb. lia. }
  intros s3 Huc3 Hrd3. replace (va + n + (len - n)) with (va + len) in Huc3 by lia.
  replace (kva + n + (len - n)) with (kva + len) in Huc3 by lia.
  replace (copied + n + (len - n)) with (copied + len) by lia.
  apply HQ.
  - eapply (ucopy_turn pid va n len); [lia|exact Huc1|exact Huc2|exact Huc3|..]; try done;
      intros x ?; unfold kernel_range in *; lia.
  - intros k b Hk Hb.
    assert (user_va (va + k)) as Hvak by (unfold user_va, VM_USERLO, VM_USERHI; lia).
    pose proof (uc_uread _ _ _ _ _ Huc1 pid (va + k) b Hpid Hvak (λ H, H) Hb) as Hb1.
    destruct (decide (k < n)) as [Hkn'|Hkn'].
    + rewrite (uc_kernel _ _ _ _ _ Huc3); [|apply Hkb; lia|unfold kernel_range; lia].
      cbn. rewrite memcpy_spec, decide_True by (unfold two32; lia).
      destruct (pa_of_same_page (v_mem s1) pid va k) as [_ E]; [lia|].
      unfold uread in Hb1. rewrite E in Hb1. fold pa in Hb1. case_match; [|done].
      injection Hb1 as <-. f_equal. lia.
    + replace (kva + k) with (kva + n + (k - n)) by lia. apply Hrd3; [lia|].
      replace (va + n + (k - n)) with (va + k) by lia.
      exact (uc_uread _ _ _ _ _ Huc2 pid (va + k) b Hpid Hvak (λ H, H) Hb1).
Qed.

Lemma wp_memset_loop fuel pid va c len set Q s :
  vm_ok s → user_pid pid → in_user va len → enough fuel va len →
  0 ≤ set → set + len < two32 →
  (∀ s', ucopy (touched pid va (va + len)) (within pid va (va + len)) (λ _, False) s s' →
     (∀ k, 0 ≤ k < len →
        uread (v_mem s') pid (va + k) = Some (u8 c) ∨ uread (v_mem s') pid (va + k) = None) →
     Q (set + len) s') →
  wp (memset_loop fuel pid va c len set) Q s.
Proof.
  revert va len set s. induction fuel as [|fuel IH];
    intros va len set s Hok Hpid (Hlo & Hlen & Hhi) Hf Hc Hcl HQ;
    cbn [memset_loop]; destruct (Z.eqb_spec len 0) as [->|Hnz].
  { wp_steps. rewrite <- (Z.add_0_r set). apply HQ; [by apply ucopy_refl|lia]. }
  { destruct Hf as [?|Hf]; [done|]. pose proof (Z.mod_pos_bound va 4096). lia. }
  { wp_steps. rewrite <- (Z.add_0_r set). apply HQ; [by apply ucopy_refl|lia]. }
  assert (user_va va) as Hva by (unfold user_va; lia).
  wp_step. apply wp_user_entry; [done|done|done|]. intros s1 Huc1 _.
  pose proof (uc_ok _ _ _ _ _ Huc1) as Hok1.
  destruct (turn_pa s1 pid va Hok1 Hpid Hva) as (-> & Hpa & Hmod & Hpahi).
  set (pa := pa_of (v_mem s1) pid va) in *.
  destruct (chunk_spec pa va len Hmod) as (Hn & Hnl & Hor); [lia|].
  set (n := chunk pa len) in *. clearbody n.
  destruct (write_turn s1 (memset (v_mem s1) pa c n) pid va n (λ _, u8 c) Hok1 Hpid Hva Hn)
    as [Huc2 Hrd2].
  { intros x. apply memset_spec. lia. }
  wp_steps. set (s2 := set_mem _ s1) in *. unfold VM_USERLO, VM_USERHI, two32 in *.
  rewrite (u32_small (va + n)), (u32_small (len - n)), (u32_small (set + n))
    by (unfold is_u32, two32; lia).
  apply IH; [apply Huc2|done| |apply (enough_step fuel); done || lia|lia|unfold two32; lia|].
  { unfold in_user, VM_USERHI, VM_USERLO. lia. }
  intros s3 Huc3 Hrd3. replace (va + n + (len - n)) with (va + len) in Huc3 by lia.
  replace (set + n + (len - n)) with (set + len) by lia.
  apply HQ.
  - eapply (ucopy_turn pid va n len); [lia|exact Huc1|exact Huc2|exact Huc3|..]; try done;
      intros pid' va' (-> & ?); split; done || lia.
  - intros k Hk. destruct (decide (k < n)) as [Hkn'|Hkn'].
    + rewrite (uread_after pid va n len _ _ s2 s3 k Huc3 Hpid); try done; try lia.
      * cbn. rewrite Hrd2 by lia. case_match; [by left|by right].
      * unfold user_va, VM_USERLO, VM_USERHI. lia.
      * intros v [_ ?]. lia.
    + replace (va + k) with (va + n + (k - n)) by lia. apply Hrd3. lia.
Qed.

(** ** The calls *)

Lemma u32_range_check va len :
  in_user va len → (VM_USERLO <=? va) && (u32 (va + len) <=? VM_USERHI) = true.
Proof.
  unfold in_user, VM_USERLO, VM_USERHI. intros H. rewrite u32_small by (unfold is_u32, two32; lia).
  apply andb_true_iff. rewrite !Z.leb_le. lia.
Qed.

(** A buffer in kernel memory. *)
Definition kernel_buf (kva len : Z) : Prop :=
  4096 ≤ kva < VM_USERLO ∧ ∀ k, 0 ≤ k < len → kernel_byte (kva + k).

Lemma kernel_buf_check kva len :
  0 ≤ len → kernel_buf kva len → (VM_USERHI <? u32 (kva + len)) = false.
Proof.
  intros Hlen [Hk Hb]. apply Z.ltb_ge. unfold VM_USERLO, VM_USERHI in *.
  assert (kva + len ≤ 1073741824).
  { destruct (decide (len = 0)) as [->|]; [lia|].
    destruct (Hb (len - 1)) as [H _]; [lia|]. unfold VM_USERLO in H. lia. }
  rewrite u32_small by (unfold is_u32, two32; lia). lia.
Qed.

Lemma wp_pt_copyout_room kva pid va len Q s :
  vm_ok s → user_pid pid → in_user va len → kernel_buf kva len →
  (∀ s', ucopy (touched pid va (va + len)) (within pid va (va + len)) (λ _, False) s s' →
     (∀ k, 0 ≤ k < len →
        uread (v_mem s') pid (va + k) = Some (read8 (v_mem s) (kva + k))
        ∨ uread (v_mem s') pid (va + k) = None ∧ ¬ room s pid va len) →
     Q len s') →
  wp (pt_copyout kva pid va len) Q s.
Proof.
  intros Hok Hpid Hin Hkb HQ. pose proof Hin as (Hlo & Hlen & Hhi).
  unfold pt_copyout. rewrite u32_range_check, kernel_buf_check by done. cbn [negb].
  apply wp_copyout_loop; try done; [by apply copy_fuel_enough| |apply Hkb].
  unfold VM_USERLO, VM_USERHI, two32 in *. lia.
Qed.

Lemma wp_pt_copyout kva pid va len Q s :
  vm_ok s → user_pid pid → in_user va len → kernel_buf kva len →
  (∀ s', ucopy (touched pid va (va + len)) (within pid va (va + len)) (λ _, False) s s' →
     (∀ k, 0 ≤ k < len →
        uread (v_mem s') pid (va + k) = Some (read8 (v_mem s) (kva + k))
        ∨ uread (v_mem s') pid (va + k) = None) →
     Q len s') →
  wp (pt_copyout kva pid va len) Q s.
Proof.
  intros Hok Hpid Hin Hkb HQ. apply wp_pt_copyout_room; [done..|]. intros s' Huc Hrd. apply HQ; [done|].
  intros k Hk. destruct (Hrd k Hk) as [?|[? _]]; [by left|by right].
Qed.

Lemma wp_pt_copyin pid va kva len Q s :
  vm_ok s → user_pid pid → in_user va len → kernel_buf kva len →
  (∀ s', ucopy (touched pid va (va + len)) nowhere (kernel_range kva (kva + len)) s s' →
     (∀ k b, 0 ≤ k < len → uread (v_mem s) pid (va + k) = Some b →
        read8 (v_mem s') (kva + k) = b) →
     Q len s') →
  wp (pt_copyin pid va kva len) Q s.
Proof.
  intros Hok Hpid Hin Hkb HQ. pose proof Hin as (Hlo & Hlen & Hhi).
  unfold pt_copyin. rewrite u32_range_check, kernel_buf_check by done. cbn [negb].
  apply wp_copyin_loop; try done; [by apply copy_fuel_enough| |apply Hkb].
  unfold VM_USERLO, VM_USERHI, two32 in *. lia.
Qed.

(** ** Claims *)


(** C29: what [pt_copyout] wrote [pt_copyin] reads back: copying a kernel buffer
    to mapped user memory and from there to another kernel buffer copies it,
    across page boundaries and wherever the pages lie. *)
Theorem copyout_copyin_roundtrip (s : vm) (kva kva' pid va len : Z) :
  vm_ok s → 0 < pid < NUM_IDS → in_user va len → kernel_buf kva len → kernel_buf kva' len →
  (∀ k, 0 ≤ k < len → uread (v_mem s) pid (va + k) ≠ None) →
  ∃ s1 s2, pt_copyout kva pid va len s = Ok (len, s1)
    ∧ pt_copyin pid va kva' len s1 = Ok (len, s2) ∧ vm_ok s2
    ∧ read_bytes (v_mem s2) kva' len = read_bytes (v_mem s) kva len.
Proof.
  intros Hok Hpid Hin Hkb Hkb' Hmap.
  destruct (wp_run_val (pt_copyout kva pid va len) len (λ s', vm_ok s' ∧
    ∀ k, 0 ≤ k < len → uread (v_mem s') pid (va + k) = Some (read8 (v_mem s) (kva + k))) s)
    as (s1 & E1 & Hok1 & Hrd1).
  { apply wp_pt_copyout; [done..|]. intros s' Huc Hrd. split_and!; [done|apply Huc|].
    intros k Hk. destruct (Hrd k Hk) as [?|Hnone]; [done|]. exfalso.
    assert (user_va (va + k)) as Hvak by (destruct Hin as (? & ? & ?); unfold user_va; lia).
    specialize (Hmap k Hk). unfold uread in Hmap, Hnone.
    destruct (present _) eqn:Hpr in Hmap; [|done].
    by rewrite (uc_present _ _ _ _ _ Huc), Hpr in Hnone. }
  destruct (wp_run_val (pt_copyin pid va kva' len) len (λ s', vm_ok s' ∧
    ∀ k, 0 ≤ k < len → read8 (v_mem s') (kva' + k) = read8 (v_mem s) (kva + k)) s1)
    as (s2 & E2 & Hok2 & Hrd2).
  { apply wp_pt_copyin; [done..|]. intros s' Huc Hrd. split_and!; [done|apply Huc|].
    intros k Hk. by apply Hrd, Hrd1. }
  exists s1, s2. split_and!; [done..|]. unfold read_bytes. apply list_fmap_ext.
  intros i k Hk%lookup_seqZ. apply Hrd2. lia.
Qed.

(** The range check of [pt_copyin] is on the wrapped sum: the last four bytes of
    the address space, kernel memory, pass it. *)
Lemma pt_copyin_check_wraps pid kva s :
  kernel_buf kva 4 →
  pt_copyin pid 4294967292 kva 4 s = copyin_loop (copy_fuel 4) pid 4294967292 kva 4 0 s.
Proof. intros Hk. unfold pt_copyin. by rewrite kernel_buf_check. Qed.
End UserCopy.

#[local] Existing Instance sample_layout.


Lemma copyout_copyin_roundtrip_witness :
  ∃ s s1 s2, pt_copyout 1048576 1 1073741830 2 s = Ok (2, s1)
    ∧ pt_copyin 1 1073741830 1052672 2 s1 = Ok (2, s2)
    ∧ read_bytes (v_mem s2) 1052672 2 = read_bytes (v_mem s) 1048576 2.
Proof.
  destruct sample_vm as (s & Hok & _ & He & _).
  destruct (copyout_copyin_roundtrip s 1048576 1052672 1 1073741830 2)
    as (s1 & s2 & E1 & E2 & _ & E3); [done|done|done| | | |by exists s, s1, s2].
  - split; [done|]. intros k Hk. unfold kernel_byte, VM_USERLO. cbn. lia.
  - split; [done|]. intros k Hk. unfold kernel_byte, VM_USERLO. cbn. lia.
  - intros k Hk. change 1073741830 with (VM_USERLO + 6). rewrite <- Z.add_assoc.
    assert (0 ≤ 6 + k < 4096 - VM_USERLO mod 4096) as Hk6
      by (change (VM_USERLO mod 4096) with 0; lia).
    unfold uread. rewrite (proj1 (pa_of_same_page (v_mem s) 1 VM_USERLO (6 + k) Hk6)).
    by rewrite He.
Defined.
