(* ===== verification/Tcb.v ===== *)
(** * Thread control blocks (kern/thread: PTCBIntro, PTCBInit, PTQueueIntro,
    PCurID, PKCtxIntro)

    The statics of the thread layer and their accessors, with the signal state
    every TCB carries (kern/lib/signal.h). *)

From S2P Require Import Prelude Memory Resume Spinlock PhysMap Pmm Container PageTable.

Definition NSIG : Z := 32.
Definition NOFILE : Z := 16.

Definition TSTATE_READY : Z := 0.
Definition TSTATE_RUN : Z := 1.
Definition TSTATE_SLEEP : Z := 2.
Definition TSTATE_DEAD : Z := 3.

Definition SIGINT : Z := 2.
Definition SIGKILL : Z := 9.
Definition SIGSEGV : Z := 11.

(** ** State *)

(** [struct sigaction]; pointers are their 32-bit values. *)
Record sigaction := Sigaction {
  sa_handler : Z; sa_sigaction : Z; sa_flags : Z; sa_restorer : Z; sa_mask : Z
}.

#[export] Instance zeroed_sigaction : Zeroed sigaction := Sigaction 0 0 0 0 0.

(** [struct sig_state] *)
Record sig_state := SigState {
  sigactions : gmap Z sigaction;
  pending_signals : Z;
  signal_block_mask : Z;
  saved_esp_addr : Z;
  saved_eip_addr : Z;
  in_signal_handler : Z
}.

#[export] Instance zeroed_sig_state : Zeroed sig_state := SigState ∅ 0 0 0 0 0.

(** [struct TCB] *)
Record TCB := Tcb {
  state : Z;
  prev : Z;
  next : Z;
  channel : Z;
  openfiles : gmap Z Z;
  cwd : Z;
  sigstate : sig_state
}.

#[export] Instance zeroed_TCB : Zeroed TCB := Tcb 0 0 0 0 ∅ 0 zero.

Definition set_state (v : Z) (t : TCB) : TCB :=
  Tcb v (prev t) (next t) (channel t) (openfiles t) (cwd t) (sigstate t).
Definition set_prev (v : Z) (t : TCB) : TCB :=
  Tcb (state t) v (next t) (channel t) (openfiles t) (cwd t) (sigstate t).
Definition set_next (v : Z) (t : TCB) : TCB :=
  Tcb (state t) (prev t) v (channel t) (openfiles t) (cwd t) (sigstate t).
Definition set_channel (v : Z) (t : TCB) : TCB :=
  Tcb (state t) (prev t) (next t) v (openfiles t) (cwd t) (sigstate t).
Definition set_openfiles (v : gmap Z Z) (t : TCB) : TCB :=
  Tcb (state t) (prev t) (next t) (channel t) v (cwd t) (sigstate t).
Definition set_cwd (v : Z) (t : TCB) : TCB :=
  Tcb (state t) (prev t) (next t) (channel t) (openfiles t) v (sigstate t).
Definition set_sigstate (v : sig_state) (t : TCB) : TCB :=
  Tcb (state t) (prev t) (next t) (channel t) (openfiles t) (cwd t) v.

(** [struct TQueue] *)
Record TQueue := Tq { head : Z; tail : Z }.

#[export] Instance zeroed_TQueue : Zeroed TQueue := Tq 0 0.

(** [struct kctx] *)
Record kctx := Kctx {
  k_esp : Z; k_edi : Z; k_esi : Z; k_ebx : Z; k_ebp : Z; k_eip : Z
}.

#[export] Instance zeroed_kctx : Zeroed kctx := Kctx 0 0 0 0 0 0.

(** The statics of the thread layer, above the page tables. *)
Record thr := Thr {
  t_vm : vm;
  TCBPool : gmap Z TCB;
  TQueuePool : gmap (Z * Z) TQueue;
  CURID : gmap Z Z;
  kctx_pool : gmap Z kctx;
  sched_ticks : gmap Z Z;
  sched_lk : spinlock
}.

Definition l_t_vm : lens thr vm :=
  Lens t_vm (λ v s, Thr v (TCBPool s) (TQueuePool s) (CURID s) (kctx_pool s)
                      (sched_ticks s) (sched_lk s)).
Definition l_sched_lk : lens thr spinlock :=
  Lens sched_lk (λ lk s, Thr (t_vm s) (TCBPool s) (TQueuePool s) (CURID s) (kctx_pool s)
                           (sched_ticks s) lk).
Definition set_TCBPool (t : gmap Z TCB) (s : thr) : thr :=
  Thr (t_vm s) t (TQueuePool s) (CURID s) (kctx_pool s) (sched_ticks s) (sched_lk s).
Definition set_TQueuePool (q : gmap (Z * Z) TQueue) (s : thr) : thr :=
  Thr (t_vm s) (TCBPool s) q (CURID s) (kctx_pool s) (sched_ticks s) (sched_lk s).
Definition set_CURID (c : gmap Z Z) (s : thr) : thr :=
  Thr (t_vm s) (TCBPool s) (TQueuePool s) c (kctx_pool s) (sched_ticks s) (sched_lk s).
Definition set_kctx_pool (k : gmap Z kctx) (s : thr) : thr :=
  Thr (t_vm s) (TCBPool s) (TQueuePool s) (CURID s) k (sched_ticks s) (sched_lk s).
Definition set_sched_ticks (t : gmap Z Z) (s : thr) : thr :=
  Thr (t_vm s) (TCBPool s) (TQueuePool s) (CURID s) (kctx_pool s) t (sched_lk s).

(** [TCBPool[pid]], and its update. *)
Definition tcb_read {A} (pid : Z) (f : TCB → A) : M thr A :=
  _ ← chk "TCBPool" NUM_IDS pid;
  gets (λ s, f (aget (TCBPool s) pid)).

Definition tcb_upd (pid : Z) (f : TCB → TCB) : M thr unit :=
  _ ← chk "TCBPool" NUM_IDS pid;
  modify (λ s, set_TCBPool (<[pid := f (aget (TCBPool s) pid)]> (TCBPool s)) s).

(** ** PTCBIntro.c *)

Definition tcb_get_state (pid : Z) : M thr Z := tcb_read pid state.
Definition tcb_set_state (pid st : Z) : M thr unit := tcb_upd pid (set_state st).
Definition tcb_get_prev (pid : Z) : M thr Z := tcb_read pid prev.
Definition tcb_set_prev (pid prev_pid : Z) : M thr unit := tcb_upd pid (set_prev prev_pid).
Definition tcb_get_next (pid : Z) : M thr Z := tcb_read pid next.
Definition tcb_set_next (pid next_pid : Z) : M thr unit := tcb_upd pid (set_next next_pid).

Definition tcb_init_at_id (cpu_idx pid : Z) : M thr unit :=
  tcb_upd pid (λ _, Tcb TSTATE_DEAD NUM_IDS NUM_IDS 0 ∅ 0 zero).

Definition tcb_get_chan (pid : Z) : M thr Z := tcb_read pid channel.
Definition tcb_set_chan (pid chan : Z) : M thr unit := tcb_upd pid (set_channel chan).

(** [tcb_get_openfiles(pid)[fd]] *)
Definition tcb_get_openfile (pid fd : Z) : M thr Z :=
  fs ← tcb_read pid openfiles;
  _ ← chk "openfiles" NOFILE fd;
  mret (aget fs fd).

Definition tcb_set_openfiles (pid fd f : Z) : M thr unit :=
  _ ← chk "openfiles" NOFILE fd;
  tcb_upd pid (λ t, set_openfiles (<[fd := f]> (openfiles t)) t).

Definition tcb_get_cwd (pid : Z) : M thr Z := tcb_read pid cwd.
Definition tcb_set_cwd (pid d : Z) : M thr unit := tcb_upd pid (set_cwd d).

(** What the returned pointer points to, [None] for [NULL]. *)
Definition tcb_get_sigaction (pid signum : Z) : M thr (option sigaction) :=
  if (signum <? 0) || (NSIG <=? signum) then mret None
  else tcb_read pid (λ t, Some (aget (sigactions (sigstate t)) signum)).

Definition sig_upd (pid : Z) (f : sig_state → sig_state) : M thr unit :=
  tcb_upd pid (λ t, set_sigstate (f (sigstate t)) t).

Definition tcb_set_sigaction (pid signum : Z) (act : option sigaction) : M thr unit :=
  match act with
  | Some a =>
    if (0 <=? signum) && (signum <? NSIG) then
      sig_upd pid (λ g, SigState (<[signum := a]> (sigactions g)) (pending_signals g)
                          (signal_block_mask g) (saved_esp_addr g) (saved_eip_addr g)
                          (in_signal_handler g))
    else mret tt
  | None => mret tt
  end.

Definition set_pending (p : Z) (g : sig_state) : sig_state :=
  SigState (sigactions g) p (signal_block_mask g) (saved_esp_addr g) (saved_eip_addr g)
    (in_signal_handler g).

Definition tcb_get_pending_signals (pid : Z) : M thr Z :=
  tcb_read pid (λ t, pending_signals (sigstate t)).

Definition tcb_set_pending_signals (pid signals : Z) : M thr unit :=
  sig_upd pid (set_pending signals).

Definition tcb_add_pending_signal (pid signum : Z) : M thr unit :=
  if (0 <=? signum) && (signum <? NSIG) then
    sig_upd pid (λ g, set_pending (Z.lor (pending_signals g) (u32 (Z.shiftl 1 signum))) g)
  else mret tt.

Definition tcb_clear_pending_signal (pid signum : Z) : M thr unit :=
  if (0 <=? signum) && (signum <? NSIG) then
    sig_upd pid (λ g, set_pending (u32 (Z.land (pending_signals g)
                                          (Z.lnot (Z.shiftl 1 signum)))) g)
  else mret tt.

Definition set_context (esp eip flag : Z) (g : sig_state) : sig_state :=
  SigState (sigactions g) (pending_signals g) (signal_block_mask g) esp eip flag.

Definition tcb_set_signal_context (pid esp_addr eip_addr : Z) : M thr unit :=
  sig_upd pid (set_context esp_addr eip_addr 1).

Definition tcb_get_signal_context (pid : Z) : M thr (Z * Z) :=
  tcb_read pid (λ t, (saved_esp_addr (sigstate t), saved_eip_addr (sigstate t))).

Definition tcb_clear_signal_context (pid : Z) : M thr unit := sig_upd pid (set_context 0 0 0).

Definition tcb_in_signal_handler (pid : Z) : M thr Z :=
  tcb_read pid (λ t, in_signal_handler (sigstate t)).

Definition tcb_is_sleeping (pid : Z) : M thr Z :=
  tcb_read pid (λ t, if state t =? TSTATE_SLEEP then 1 else 0).

Definition tcb_get_channel (pid : Z) : M thr Z := tcb_read pid channel.

(** ** PTQueueIntro.c *)

Definition tq_read {A} (chid : Z) (f : TQueue → A) : M thr A :=
  _ ← chk "TQueuePool[]" (NUM_IDS + 1) chid;
  gets (λ s, f (aget (TQueuePool s) (this_cpu, chid))).

Definition tq_upd (cpu_idx chid : Z) (f : TQueue → TQueue) : M thr unit :=
  _ ← chk "TQueuePool" NUM_CPUS cpu_idx;
  _ ← chk "TQueuePool[]" (NUM_IDS + 1) chid;
  modify (λ s, set_TQueuePool
    (<[(cpu_idx, chid) := f (aget (TQueuePool s) (cpu_idx, chid))]> (TQueuePool s)) s).

Definition tqueue_get_head (chid : Z) : M thr Z := tq_read chid head.
Definition tqueue_set_head (chid h : Z) : M thr unit := tq_upd this_cpu chid (λ q, Tq h (tail q)).
Definition tqueue_get_tail (chid : Z) : M thr Z := tq_read chid tail.
Definition tqueue_set_tail (chid t : Z) : M thr unit := tq_upd this_cpu chid (λ q, Tq (head q) t).
Definition tqueue_init_at_id (cpu_idx chid : Z) : M thr unit :=
  tq_upd cpu_idx chid (λ _, Tq NUM_IDS NUM_IDS).

(** ** PCurID.c *)

Definition get_curid : M thr Z := gets (λ s, aget (CURID s) this_cpu).
Definition set_curid (curid : Z) : M thr unit :=
  modify (λ s, set_CURID (<[this_cpu := curid]> (CURID s)) s).

(** ** PKCtxIntro.c *)

Definition kctx_set_esp (pid esp : Z) : M thr unit :=
  _ ← chk "kctx_pool" NUM_IDS pid;
  modify (λ s, let c := aget (kctx_pool s) pid in
    set_kctx_pool (<[pid := Kctx esp (k_edi c) (k_esi c) (k_ebx c) (k_ebp c) (k_eip c)]>
                     (kctx_pool s)) s).

Definition kctx_set_eip (pid eip : Z) : M thr unit :=
  _ ← chk "kctx_pool" NUM_IDS pid;
  modify (λ s, let c := aget (kctx_pool s) pid in
    set_kctx_pool (<[pid := Kctx (k_esp c) (k_edi c) (k_esi c) (k_ebx c) (k_ebp c) eip]>
                     (kctx_pool s)) s).

(** [cswitch] saves the caller's registers in its context and continues the
    other thread where it was saved. *)
Definition kctx_switch (from_pid to_pid : Z) : KM thr unit :=
  _ ← run (chk "kctx_pool" NUM_IDS from_pid);
  _ ← run (chk "kctx_pool" NUM_IDS to_pid);
  kswitch from_pid to_pid.

(** ** PTCBInit.c *)

Section Init.
Context `{L : Layout}.

(** [tcb_init] calls [tcb_init_at_id(pid)] through a declaration with one
    parameter, while the definition takes the id as its second: what the callee
    sees there, [arg2 pid], is whatever lies above the argument on the stack. *)
Definition tcb_init (arg2 : Z → Z) (mbi_addr : Z) : M thr unit :=
  _ ← lift l_t_vm (paging_init mbi_addr);
  for_range 0 NUM_IDS (λ pid, tcb_init_at_id pid (arg2 pid)).
End Init.

(** ** Lemmas *)

Ltac bounds ::= first [done | lia
  | unfold AT_SIZE, NUM_IDS, NUM_CPUS, this_cpu, MAX_CHILDREN, NSIG, NOFILE in *; cbn zeta; lia].

Definition tcb (s : thr) (pid : Z) : TCB := aget (TCBPool s) pid.

Lemma wp_tcb_read {A} pid (f : TCB → A) Q s :
  0 ≤ pid < NUM_IDS → Q (f (tcb s pid)) s → wp (tcb_read pid f) Q s.
Proof. intros. unfold tcb_read. by wp_steps. Qed.

Lemma wp_tcb_upd pid f Q s :
  0 ≤ pid < NUM_IDS → Q tt (set_TCBPool (<[pid := f (tcb s pid)]> (TCBPool s)) s) →
  wp (tcb_upd pid f) Q s.
Proof. intros. unfold tcb_upd. by wp_steps. Qed.

Lemma wp_tq_read {A} chid (f : TQueue → A) Q s :
  0 ≤ chid ≤ NUM_IDS → Q (f (aget (TQueuePool s) (this_cpu, chid))) s →
  wp (tq_read chid f) Q s.
Proof. intros. unfold tq_read. by wp_steps. Qed.

Lemma wp_tq_upd chid f Q s :
  0 ≤ chid ≤ NUM_IDS →
  Q tt (set_TQueuePool (<[(this_cpu, chid) := f (aget (TQueuePool s) (this_cpu, chid))]>
          (TQueuePool s)) s) →
  wp (tq_upd this_cpu chid f) Q s.
Proof. intros. unfold tq_upd. by wp_steps. Qed.

(** Reduce projections of updated states. *)
Ltac thr_simpl :=
  unfold tcb;
  cbn [t_vm TCBPool TQueuePool CURID kctx_pool sched_ticks sched_lk set_TCBPool
       set_TQueuePool set_CURID set_kctx_pool set_sched_ticks lset lget l_t_vm l_sched_lk].

(** Steps through the accessors. *)
Ltac wp_tcb :=
  lazymatch goal with
  | |- wp (tcb_read _ _) _ _ => apply wp_tcb_read; [bounds|]
  | |- wp (tcb_upd _ _) _ _ => apply wp_tcb_upd; [bounds|]
  | |- wp (sig_upd _ _) _ _ => apply wp_tcb_upd; [bounds|]
  | |- wp (tq_read _ _) _ _ => apply wp_tq_read; [bounds|]
  | |- wp (tq_upd _ _ _) _ _ => apply wp_tq_upd; [bounds|]
  | |- wp (tcb_get_state _) _ _ => apply wp_tcb_read; [bounds|]
  | |- wp (tcb_set_state _ _) _ _ => apply wp_tcb_upd; [bounds|]
  | |- wp (tcb_get_prev _) _ _ => apply wp_tcb_read; [bounds|]
  | |- wp (tcb_set_prev _ _) _ _ => apply wp_tcb_upd; [bounds|]
  | |- wp (tcb_get_next _) _ _ => apply wp_tcb_read; [bounds|]
  | |- wp (tcb_set_next _ _) _ _ => apply wp_tcb_upd; [bounds|]
  | |- wp (tcb_get_chan _) _ _ => apply wp_tcb_read; [bounds|]
  | |- wp (tcb_set_chan _ _) _ _ => apply wp_tcb_upd; [bounds|]
  | |- wp (tcb_get_pending_signals _) _ _ => apply wp_tcb_read; [bounds|]
  | |- wp (tcb_set_pending_signals _ _) _ _ => apply wp_tcb_upd; [bounds|]
  | |- wp (tcb_set_signal_context _ _ _) _ _ => apply wp_tcb_upd; [bounds|]
  | |- wp (tcb_get_signal_context _) _ _ => apply wp_tcb_read; [bounds|]
  | |- wp (tcb_clear_signal_context _) _ _ => apply wp_tcb_upd; [bounds|]
  | |- wp (tcb_is_sleeping _) _ _ => apply wp_tcb_read; [bounds|]
  | |- wp (tcb_get_channel _) _ _ => apply wp_tcb_read; [bounds|]
  | |- wp (tqueue_get_head _) _ _ => apply wp_tq_read; [bounds|]
  | |- wp (tqueue_set_head _ _) _ _ => apply wp_tq_upd; [bounds|]
  | |- wp (tqueue_get_tail _) _ _ => apply wp_tq_read; [bounds|]
  | |- wp (tqueue_set_tail _ _) _ _ => apply wp_tq_upd; [bounds|]
  | |- wp get_curid _ _ => apply wp_gets
  | |- wp (set_curid _) _ _ => apply wp_modify
  end; cbn beta; thr_simpl.

Ltac wp_go := repeat first [wp_step | wp_tcb].
