(* ===== verification/TQueue.v ===== *)
(** * Thread queues (kern/thread/PTQueueInit)

    Queues of threads as doubly linked lists threaded through the TCBs by index,
    with [NUM_IDS] for null.  Each operation is shown to implement the operation
    on the list of thread ids the queue stands for. *)

From S2P Require Import Prelude Memory Resume Spinlock PhysMap Pmm Container PageTable Tcb.

(** ** Operations *)

Section Init.
Context `{L : Layout}.

Definition tqueue_init (arg2 : Z → Z) (mbi_addr : Z) : M thr unit :=
  _ ← tcb_init arg2 mbi_addr;
  for_range 0 NUM_CPUS (λ cpu_idx,
    for_range 0 (NUM_IDS + 1) (λ chid, tqueue_init_at_id cpu_idx chid)).
End Init.

Definition tqueue_enqueue (chid pid : Z) : M thr unit :=
  tl ← tqueue_get_tail chid;
  if tl =? NUM_IDS then
    _ ← tcb_set_prev pid NUM_IDS;
    _ ← tcb_set_next pid NUM_IDS;
    _ ← tqueue_set_head chid pid;
    tqueue_set_tail chid pid
  else
    _ ← tcb_set_next tl pid;
    _ ← tcb_set_prev pid tl;
    _ ← tcb_set_next pid NUM_IDS;
    tqueue_set_tail chid pid.

Definition tqueue_dequeue (chid : Z) : M thr Z :=
  hd ← tqueue_get_head chid;
  if negb (hd =? NUM_IDS) then
    let pid := hd in
    nxt ← tcb_get_next hd;
    _ ← (if nxt =? NUM_IDS then
           _ ← tqueue_set_head chid NUM_IDS;
           tqueue_set_tail chid NUM_IDS
         else
           _ ← tcb_set_prev nxt NUM_IDS;
           tqueue_set_head chid nxt);
    _ ← tcb_set_prev pid NUM_IDS;
    _ ← tcb_set_next pid NUM_IDS;
    mret pid
  else mret NUM_IDS.

Definition tqueue_remove (chid pid : Z) : M thr unit :=
  prv ← tcb_get_prev pid;
  nxt ← tcb_get_next pid;
  _ ← (if prv =? NUM_IDS then
         if nxt =? NUM_IDS then
           _ ← tqueue_set_head chid NUM_IDS;
           tqueue_set_tail chid NUM_IDS
         else
           _ ← tcb_set_prev nxt NUM_IDS;
           tqueue_set_head chid nxt
       else
         if nxt =? NUM_IDS then
           _ ← tcb_set_next prv NUM_IDS;
           tqueue_set_tail chid prv
         else
           _ ← (if negb (prv =? nxt) then tcb_set_next prv nxt else mret tt);
           tcb_set_prev nxt prv);
  _ ← tcb_set_prev pid NUM_IDS;
  tcb_set_next pid NUM_IDS.

(** ** The list a queue stands for *)

Definition is_pid (x : Z) : Prop := 0 ≤ x < NUM_IDS.

(** The thread ids of [l], linked from [p] before to [n] after. *)
Fixpoint dll (T : gmap Z TCB) (p : Z) (l : list Z) (n : Z) : Prop :=
  match l with
  | [] => True
  | x :: l' => prev (aget T x) = p ∧ next (aget T x) = hd n l' ∧ dll T x l' n
  end.

Definition lasts (d : Z) (l : list Z) : Z := default d (last l).

Record queue_rep (s : thr) (chid : Z) (l : list Z) : Prop := {
  qr_head : head (aget (TQueuePool s) (this_cpu, chid)) = hd NUM_IDS l;
  qr_tail : tail (aget (TQueuePool s) (this_cpu, chid)) = lasts NUM_IDS l;
  qr_dll : dll (TCBPool s) NUM_IDS l NUM_IDS;
  qr_nodup : NoDup l;
  qr_range : Forall is_pid l
}.

(** What a queue operation leaves alone: all but the links of the TCBs, and
    the links of the threads outside [l]. *)
Definition same_but_links (T T' : gmap Z TCB) : Prop :=
  ∀ x, set_prev 0 (set_next 0 (aget T' x)) = set_prev 0 (set_next 0 (aget T x)).

Record queue_frame (s s' : thr) (chid : Z) (l : list Z) : Prop := {
  qf_rest : set_TCBPool ∅ (set_TQueuePool ∅ s') = set_TCBPool ∅ (set_TQueuePool ∅ s);
  qf_links : same_but_links (TCBPool s) (TCBPool s');
  qf_outside x : x ∉ l → aget (TCBPool s') x = aget (TCBPool s) x;
  qf_queues q : q ≠ (this_cpu, chid) → aget (TQueuePool s') q = aget (TQueuePool s) q
}.

(** ** Lemmas on linked lists *)

Lemma lasts_cons d x l : lasts d (x :: l) = lasts x l.
Proof.
  unfold lasts. destruct l as [|y l _] using rev_ind; [done|].
  by rewrite app_comm_cons, !last_snoc.
Qed.

Lemma lasts_snoc d l x : lasts d (l ++ [x]) = x.
Proof. unfold lasts. by rewrite last_snoc. Qed.

Lemma dll_app T p l1 l2 n :
  dll T p (l1 ++ l2) n ↔ dll T p l1 (hd n l2) ∧ dll T (lasts p l1) l2 n.
Proof.
  revert p. induction l1 as [|x l1 IH]; intros p; cbn [app dll]; [by unfold lasts; cbn; tauto|].
  rewrite IH, lasts_cons. destruct l1; cbn [app hd]; tauto.
Qed.

Lemma dll_ext T T' p l n :
  (∀ x, x ∈ l → prev (aget T' x) = prev (aget T x) ∧ next (aget T' x) = next (aget T x)) →
  dll T p l n → dll T' p l n.
Proof.
  revert p. induction l as [|x l IH]; intros p H; cbn [dll]; [done|].
  intros (H1 & H2 & H3). destruct (H x) as [E1 E2]; [left|]. rewrite E1, E2.
  split_and!; [done..|]. apply IH; [|done]. intros y Hy. apply H. by right.
Qed.

Lemma dll_insert_out T p l n x t : x ∉ l → dll T p l n → dll (<[x := t]> T) p l n.
Proof.
  intros Hx. apply dll_ext. intros y Hy. rewrite aget_ne; [done|]. by intros ->.
Qed.

(** Relinking the first element of a list to what precedes it, and the last one
    to what follows it. *)
Lemma dll_set_prev T p p' x l n :
  x ∉ l → dll T p (x :: l) n → dll (<[x := set_prev p' (aget T x)]> T) p' (x :: l) n.
Proof.
  intros Hx (_ & H2 & H3). cbn [dll]. rewrite aget_eq. split_and!; [done|done|].
  by apply dll_insert_out.
Qed.

Lemma dll_set_next T p x l n n' :
  x ∉ l → dll T p (l ++ [x]) n → dll (<[x := set_next n' (aget T x)]> T) p (l ++ [x]) n'.
Proof.
  intros Hx. rewrite !dll_app. intros [H1 (H2 & _ & _)]. split.
  - by apply dll_insert_out.
  - cbn. rewrite aget_eq. by split_and!.
Qed.

Lemma lasts_cases d l : (l = [] ∧ lasts d l = d) ∨ ∃ l' x, l = l' ++ [x] ∧ lasts d l = x.
Proof.
  destruct l as [|x l _] using rev_ind; [by left|]. right. exists l, x.
  by rewrite lasts_snoc.
Qed.

Lemma links_refl T : same_but_links T T.
Proof. by intros x. Qed.

Lemma links_insert T T' x t :
  same_but_links T T' → set_prev 0 (set_next 0 t) = set_prev 0 (set_next 0 (aget T x)) →
  same_but_links T (<[x := t]> T').
Proof.
  intros HT Ht y. rewrite aget_insert. case_decide; [by subst|apply HT].
Qed.

Lemma links_prev T T' x v :
  same_but_links T T' → same_but_links T (<[x := set_prev v (aget T' x)]> T').
Proof. intros HT. apply links_insert; [done|]. rewrite <- (HT x). done. Qed.

Lemma links_next T T' x v :
  same_but_links T T' → same_but_links T (<[x := set_next v (aget T' x)]> T').
Proof. intros HT. apply links_insert; [done|]. rewrite <- (HT x). done. Qed.

Create HintDb links.
#[export] Hint Resolve links_refl links_prev links_next : links.

Lemma hd_in (d : Z) (l : list Z) : l ≠ [] → hd d l ∈ l.
Proof. destruct l; [done|]. intros _. left. Qed.

Lemma Forall_elem (P : Z → Prop) l x : Forall P l → x ∈ l → P x.
Proof. rewrite Forall_forall. auto. Qed.

(** ** The operations implement the list operations *)

Lemma wp_tqueue_enqueue s chid l pid Q :
  queue_rep s chid l → 0 ≤ chid ≤ NUM_IDS → is_pid pid → pid ∉ l →
  (∀ s', queue_rep s' chid (l ++ [pid]) → queue_frame s s' chid (l ++ [pid]) → Q tt s') →
  wp (tqueue_enqueue chid pid) Q s.
Proof.
  intros [Hh Ht Hd Hnd Hr] Hch Hpid Hni HQ. unfold is_pid in Hpid. unfold tqueue_enqueue.
  wp_step. wp_tcb. rewrite Ht.
  destruct (lasts_cases NUM_IDS l) as [[-> ->]|(l' & x & -> & ->)].
  - rewrite Z.eqb_refl. wp_go. apply HQ.
    + split; cbn.
      * by rewrite !aget_eq.
      * by rewrite !aget_eq.
      * by rewrite !aget_eq.
      * apply NoDup_singleton.
      * by constructor.
    + split; cbn; [done| | |].
      * unfold tcb. cbn. auto with links.
      * intros y Hy. by rewrite !aget_ne by set_solver.
      * intros q Hq. by rewrite !aget_ne.
  - assert (is_pid x) as Hx by (apply (Forall_elem _ _ _ Hr); set_solver). unfold is_pid in Hx.
    rewrite (proj2 (Z.eqb_neq x NUM_IDS)) by lia. wp_go.
    assert (x ≠ pid) as Hne by (intros ->; apply Hni; apply elem_of_app; right; left).
    apply NoDup_app in Hnd as Hnd'. destruct Hnd' as (Hnd1 & Hx1 & _).
    assert (x ∉ l') as Hxl by (intros H; apply (Hx1 x H); left).
    apply HQ.
    + split; cbn.
      * rewrite aget_eq. cbn. rewrite Hh. by destruct l'.
      * rewrite aget_eq. cbn. by rewrite lasts_snoc.
      * unfold tcb. cbn. apply dll_app. split.
        -- apply dll_insert_out; [done|]. apply dll_insert_out; [done|].
           by apply (dll_set_next _ _ _ _ NUM_IDS).
        -- cbn. rewrite !aget_eq. rewrite lasts_snoc. done.
      * apply NoDup_app. split_and!; [done| |apply NoDup_singleton].
        intros y Hy ->%list_elem_of_singleton. done.
      * apply Forall_app. split; [done|by constructor].
    + split; cbn; [done| | |].
      * unfold tcb. cbn. auto with links.
      * intros y Hy. by rewrite !aget_ne by set_solver.
      * intros q Hq. by rewrite !aget_ne.
Qed.

Lemma wp_tqueue_dequeue s chid l Q :
  queue_rep s chid l → 0 ≤ chid ≤ NUM_IDS →
  (∀ s', queue_rep s' chid (tl l) → queue_frame s s' chid l → Q (hd NUM_IDS l) s') →
  wp (tqueue_dequeue chid) Q s.
Proof.
  intros [Hh Ht Hd Hnd Hr] Hch HQ. unfold tqueue_dequeue. wp_step. wp_tcb. rewrite Hh.
  destruct l as [|x l]; cbn [hd tl].
  { rewrite Z.eqb_refl. cbn [negb]. wp_steps. apply HQ; by split. }
  assert (is_pid x) as Hx by (apply (Forall_elem _ _ _ Hr); left). unfold is_pid in Hx.
  rewrite (proj2 (Z.eqb_neq x NUM_IDS)) by lia. cbn [negb]. wp_step. wp_tcb.
  apply NoDup_cons in Hnd as [Hxl Hnd]. destruct Hd as (_ & -> & Hd).
  apply Forall_cons in Hr as [_ Hr]. destruct l as [|y l]; cbn [hd].
  - rewrite Z.eqb_refl. wp_go. apply HQ.
    + split; cbn; try done; by rewrite !aget_eq.
    + split; cbn; [done|auto with links| |].
      * intros z Hz. by rewrite !aget_ne by set_solver.
      * intros q Hq. by rewrite !aget_ne.
  - assert (is_pid y) as Hy by (apply (Forall_elem _ _ _ Hr); left). unfold is_pid in Hy.
    rewrite (proj2 (Z.eqb_neq y NUM_IDS)) by lia. wp_go. apply NoDup_cons in Hnd as Hnd'. 
    destruct Hnd' as [Hyl _]. apply HQ.
    + split; cbn; try done.
      * by rewrite !aget_eq.
      * rewrite !aget_eq. cbn. by rewrite Ht, !lasts_cons.
      * apply (dll_insert_out _ _ (y :: l)); [done|]. apply (dll_insert_out _ _ (y :: l)); [done|].
        by apply (dll_set_prev _ x).
    + split; cbn; [done|auto with links| |].
      * intros z Hz. by rewrite !aget_ne by set_solver.
      * intros q Hq. by rewrite !aget_ne.
Qed.

(** [l] without the first occurrence of [x]. *)
Definition remove1 (x : Z) (l : list Z) : list Z := filter (λ y, y ≠ x) l.

Lemma remove1_app x l1 l2 :
  NoDup (l1 ++ x :: l2) → remove1 x (l1 ++ x :: l2) = l1 ++ l2.
Proof.
  intros Hnd. apply NoDup_app in Hnd as (_ & H1 & [H2 _]%NoDup_cons).
  unfold remove1. rewrite filter_app, (filter_cons_False (λ y, y ≠ x)) by (intros []; done).
  assert (∀ l : list Z, x ∉ l → filter (λ y, y ≠ x) l = l) as Hid.
  { induction l as [|z l IH]; [done|]. intros [Hz1 Hz2]%not_elem_of_cons.
    rewrite (filter_cons_True (λ y, y ≠ x)) by congruence.
    by rewrite IH. }
  rewrite !Hid; [done|done|]. intros Hx. apply (H1 x Hx). left.
Qed.

Lemma lasts_app_cons d l x l' : lasts d (l ++ x :: l') = lasts x l'.
Proof.
  revert d. induction l as [|y l IH]; intros d; cbn [app]; [apply lasts_cons|].
  by rewrite lasts_cons.
Qed.

(** The frame of a removal. *)
Ltac remove_frame :=
  split; cbn; [done|auto with links
    |intros ? ?; rewrite ?aget_ne by set_solver; done|intros ? ?; rewrite ?aget_ne by done; done].

Lemma wp_tqueue_remove s chid l pid Q :
  queue_rep s chid l → 0 ≤ chid ≤ NUM_IDS → pid ∈ l →
  (∀ s', queue_rep s' chid (remove1 pid l) → queue_frame s s' chid l → Q tt s') →
  wp (tqueue_remove chid pid) Q s.
Proof.
  intros [Hh Ht Hd Hnd Hr] Hch (l1 & l2 & ->)%list_elem_of_split HQ.
  rewrite remove1_app in HQ by done.
  assert (is_pid pid) as Hpid by (apply (Forall_elem _ _ _ Hr); set_solver).
  unfold is_pid in Hpid. apply dll_app in Hd as [Hd1 (Hp & Hn & Hd2)]. cbn [hd] in Hd1.
  apply NoDup_app in Hnd as (Hnd1 & Hnd12 & [Hni2 Hnd2]%NoDup_cons).
  assert (pid ∉ l1) as Hni1 by (intros Hx; apply (Hnd12 pid Hx); left).
  apply Forall_app in Hr as [Hr1 [_ Hr2]%Forall_cons].
  assert (NoDup (l1 ++ l2)) as Hnd'.
  { apply NoDup_app. split_and!; [done| |done]. intros x Hx Hx'. apply (Hnd12 x Hx). by right. }
  assert (Forall is_pid (l1 ++ l2)) as Hr' by (by apply Forall_app).
  unfold tqueue_remove. wp_step. wp_tcb. wp_step. wp_tcb. rewrite Hp, Hn.
  destruct (lasts_cases NUM_IDS l1) as [[-> ->]|(l1' & a & -> & ->)]; [rewrite Z.eqb_refl|];
    (destruct l2 as [|y l2]; cbn [hd]; [rewrite Z.eqb_refl|]).
  - wp_go. apply HQ; [|by remove_frame]. split; cbn; try done; by rewrite !aget_eq.
  - assert (is_pid y) as Hy by (apply (Forall_elem _ _ _ Hr2); left). unfold is_pid in Hy.
    rewrite (proj2 (Z.eqb_neq y NUM_IDS)) by lia. wp_go. apply HQ; [|by remove_frame].
    apply NoDup_cons in Hnd2 as [Hyl _]. split; cbn; try done.
    + by rewrite !aget_eq.
    + rewrite !aget_eq. cbn. by rewrite Ht, app_nil_l, !lasts_cons.
    + apply (dll_insert_out _ _ (y :: l2)); [done|]. apply (dll_insert_out _ _ (y :: l2)); [done|].
      by apply (dll_set_prev _ pid).
  - assert (is_pid a) as Ha by (apply (Forall_elem _ _ _ Hr1); set_solver). unfold is_pid in Ha.
    rewrite (proj2 (Z.eqb_neq a NUM_IDS)) by lia. wp_go. apply HQ; [|by remove_frame].
    rewrite app_nil_r in *. apply NoDup_app in Hnd1 as (_ & Hal & _).
    assert (a ∉ l1') as Hal' by (intros Hx; apply (Hal a Hx); left). split; cbn; try done.
    + rewrite aget_eq. cbn. rewrite Hh. by destruct l1'.
    + rewrite aget_eq. cbn. by rewrite lasts_snoc.
    + apply dll_insert_out; [done|]. apply dll_insert_out; [done|].
      by apply (dll_set_next _ _ _ _ pid).
  - assert (is_pid a) as Ha by (apply (Forall_elem _ _ _ Hr1); set_solver). unfold is_pid in Ha.
    assert (is_pid y) as Hy by (apply (Forall_elem _ _ _ Hr2); left). unfold is_pid in Hy.
    assert (a ≠ y) as Hay by (intros ->; apply (Hnd12 y); set_solver).
    rewrite (proj2 (Z.eqb_neq a NUM_IDS)), (proj2 (Z.eqb_neq y NUM_IDS)),
      (proj2 (Z.eqb_neq a y)) by lia. cbn [negb]. wp_go. apply HQ; [|by remove_frame].
    apply NoDup_app in Hnd1 as (_ & Hal & _).
    assert (a ∉ l1') as Hal' by (intros Hx; apply (Hal a Hx); left).
    assert (y ∉ l1' ++ [a]) as Hyl1 by (intros Hx; apply (Hnd12 y Hx); set_solver).
    assert (a ∉ y :: l2) as Hal2 by (intros Hx; apply (Hnd12 a); set_solver).
    apply NoDup_cons in Hnd2 as [Hyl _]. split; cbn; try done.
    + rewrite Hh. by destruct l1'.
    + by rewrite Ht, !lasts_app_cons, lasts_cons.
    + apply dll_insert_out; [set_solver|]. apply dll_insert_out; [set_solver|].
      apply dll_app. split.
      * apply dll_insert_out; [done|]. by apply (dll_set_next _ _ _ _ pid).
      * rewrite lasts_snoc. apply (dll_set_prev _ pid); [done|]. by apply dll_insert_out.
Qed.

(** ** The queue against its specification

    A queue as an abstract data type: a list, with the operations on it.  Enqueue
    asks for a thread that is not queued, remove for one that is. *)

Inductive qop := Enqueue (pid : Z) | Dequeue | Remove (pid : Z).

Definition q_legal (op : qop) (l : list Z) : Prop :=
  match op with
  | Enqueue pid => is_pid pid ∧ (pid ∉ l)
  | Dequeue => True
  | Remove pid => pid ∈ l
  end.

(** The value the operation returns and the list after it. *)
Definition q_spec (op : qop) (l : list Z) : Z * list Z :=
  match op with
  | Enqueue pid => (0, l ++ [pid])
  | Dequeue => (hd NUM_IDS l, tl l)
  | Remove pid => (0, remove1 pid l)
  end.

Definition q_impl (chid : Z) (op : qop) : M thr Z :=
  match op with
  | Enqueue pid => _ ← tqueue_enqueue chid pid; mret 0
  | Dequeue => tqueue_dequeue chid
  | Remove pid => _ ← tqueue_remove chid pid; mret 0
  end.

Fixpoint q_specs (ops : list qop) (l : list Z) : option (list Z * list Z) :=
  match ops with
  | [] => Some ([], l)
  | op :: ops =>
    '(rs, l') ← q_specs ops (q_spec op l).2;
    Some ((q_spec op l).1 :: rs, l')
  end.

Fixpoint q_legals (ops : list qop) (l : list Z) : Prop :=
  match ops with
  | [] => True
  | op :: ops => q_legal op l ∧ q_legals ops (q_spec op l).2
  end.

Fixpoint q_impls (chid : Z) (ops : list qop) : M thr (list Z) :=
  match ops with
  | [] => mret []
  | op :: ops => r ← q_impl chid op; rs ← q_impls chid ops; mret (r :: rs)
  end.

(** All but the links of the TCBs and the ends of the queue [chid]. *)
Record only_queue (chid : Z) (s s' : thr) : Prop := {
  oq_rest : set_TCBPool ∅ (set_TQueuePool ∅ s') = set_TCBPool ∅ (set_TQueuePool ∅ s);
  oq_links : same_but_links (TCBPool s) (TCBPool s');
  oq_queues q : q ≠ (this_cpu, chid) → aget (TQueuePool s') q = aget (TQueuePool s) q
}.

#[export] Instance only_queue_preorder chid : PreOrder (only_queue chid).
Proof.
  split; [by split|]. intros s1 s2 s3 [Hr Hl Hq] [Hr' Hl' Hq'].
  split; [by rewrite Hr'|intros x; by rewrite Hl'|intros q Hne; by rewrite Hq', Hq].
Qed.

Lemma only_queue_frame s s' chid l : queue_frame s s' chid l → only_queue chid s s'.
Proof. by intros [? ? _ ?]. Qed.

Lemma wp_q_impl s chid l op Q :
  queue_rep s chid l → 0 ≤ chid ≤ NUM_IDS → q_legal op l →
  (∀ s', queue_rep s' chid (q_spec op l).2 → only_queue chid s s' → Q (q_spec op l).1 s') →
  wp (q_impl chid op) Q s.
Proof.
  intros Hq Hch Hleg HQ. destruct op as [pid| |pid]; cbn in *.
  - destruct Hleg as [Hp Hni]. wp_step. apply (wp_tqueue_enqueue s chid l); try done.
    intros s' Hq' Hf. wp_steps. eapply HQ, only_queue_frame; done.
  - apply (wp_tqueue_dequeue s chid l); try done.
    intros s' Hq' Hf. eapply HQ, only_queue_frame; done.
  - wp_step. apply (wp_tqueue_remove s chid l); try done.
    intros s' Hq' Hf. wp_steps. eapply HQ, only_queue_frame; done.
Qed.

Lemma wp_q_impls ops s chid l Q :
  queue_rep s chid l → 0 ≤ chid ≤ NUM_IDS → q_legals ops l →
  (∀ s' rs l', q_specs ops l = Some (rs, l') → queue_rep s' chid l' → only_queue chid s s' →
     Q rs s') →
  wp (q_impls chid ops) Q s.
Proof.
  intros Hq Hch. revert s l Q Hq. induction ops as [|op ops IH]; intros s l Q Hq Hleg HQ; cbn in *.
  { wp_steps. by eapply HQ. }
  destruct Hleg as [Hop Hops]. wp_step. apply (wp_q_impl s chid l); [done..|].
  intros s1 Hq1 Ho1. wp_step. apply (IH s1 (q_spec op l).2); [done|done|].
  intros s2 rs l' E Hq2 Ho2. wp_steps. eapply HQ; [by rewrite E|done|by etrans].
Qed.

(** C12: Thread queues are queues.  Any sequence of legal operations on the
    doubly linked list in the TCBs returns what the same sequence returns on the
    list it stands for, ends in a well-formed queue for the final list, and
    touches nothing but the links of the TCBs and the two ends of this queue. *)
Theorem tqueue_refines_list chid ops s l :
  queue_rep s chid l → 0 ≤ chid ≤ NUM_IDS → q_legals ops l →
  ∃ rs s' l', q_impls chid ops s = Ok (rs, s') ∧ q_specs ops l = Some (rs, l')
    ∧ queue_rep s' chid l' ∧ only_queue chid s s'.
Proof.
  intros Hq Hch Hleg. destruct (wp_run (q_impls chid ops) (λ rs s', ∃ l',
    q_specs ops l = Some (rs, l') ∧ queue_rep s' chid l' ∧ only_queue chid s s') s)
    as (rs & s' & E & l' & H); [|by exists rs, s', l'].
  apply (wp_q_impls ops s chid l); [done..|]. intros s' rs l' E Hq' Ho. by exists l'.
Qed.

Definition empty_queue : thr :=
  Thr (Vm boot_cont ∅ zero 0 false) ∅ (<[(0, 64) := Tq 64 64]> ∅) ∅ ∅ ∅ zero.

Lemma tqueue_refines_list_witness :
  ∃ rs s' l', q_impls 64 [Enqueue 5; Enqueue 3; Enqueue 9; Remove 3; Dequeue; Dequeue; Dequeue]
        empty_queue
      = Ok (rs, s')
    ∧ q_specs [Enqueue 5; Enqueue 3; Enqueue 9; Remove 3; Dequeue; Dequeue; Dequeue] []
      = Some (rs, l')
    ∧ queue_rep s' 64 l' ∧ only_queue 64 empty_queue s'.
Proof.
  apply tqueue_refines_list.
  - split; [done|done|done|constructor|constructor].
  - by vm_compute.
  - cbn. unfold is_pid. rewrite ?not_elem_of_nil. split_and!; try (by vm_compute);
      by apply (bool_decide_unpack _); vm_compute.
Defined.
