(* ===== verification/Thread.v ===== *)
(** * The scheduler (kern/thread/PThread, PKCtxNew)

    Spawning, yielding, exiting, sleeping and waking threads.  The invariant is
    that the ready queue holds exactly the ready threads other than the running
    one; it is kept at every context switch, whatever the interleaving. *)

From S2P Require Import Prelude Memory Resume Spinlock PhysMap Pmm Container PageTable Tcb TQueue.

(** ** PKCtxNew.c *)

(** [kstack_hi pid] is the link-time address [proc_kstack[pid].kstack_hi]. *)
Definition kctx_new (kstack_hi : Z → Z) (entry id q : Z) : M thr Z :=
  pid ← lift l_t_vm (alloc_mem_quota id q);
  _ ← chk "proc_kstack" NUM_IDS pid;
  _ ← kctx_set_esp pid (kstack_hi pid);
  _ ← kctx_set_eip pid entry;
  mret pid.

(** ** PThread.c *)

Definition SCHED_SLICE : Z := 5.
Definition LAPIC_TIMER_INTR_FREQ : Z := 1000.

Definition sched_lk_acquire : M thr unit := lift l_sched_lk (spinlock_acquire "sched_lk").
Definition sched_lk_release : M thr unit := lift l_sched_lk spinlock_release.

Section Init.
Context `{L : Layout}.

Definition thread_init (arg2 : Z → Z) (mbi_addr : Z) : M thr unit :=
  _ ← for_range 0 NUM_CPUS (λ i, modify (λ s, set_sched_ticks (<[i := 0]> (sched_ticks s)) s));
  _ ← lift l_sched_lk spinlock_init;
  _ ← tqueue_init arg2 mbi_addr;
  _ ← set_curid 0;
  tcb_set_state 0 TSTATE_RUN.
End Init.

Definition thread_spawn (kstack_hi : Z → Z) (entry id q : Z) : M thr Z :=
  _ ← sched_lk_acquire;
  pid ← kctx_new kstack_hi entry id q;
  _ ← tcb_set_state pid TSTATE_READY;
  _ ← tqueue_enqueue NUM_IDS pid;
  _ ← sched_lk_release;
  mret pid.

(** [thread_yield] up to the test of [old_cur_pid != new_cur_pid]. *)
Definition yield_pick : M thr (Z * Z) :=
  _ ← sched_lk_acquire;
  old_cur_pid ← get_curid;
  _ ← tcb_set_state old_cur_pid TSTATE_READY;
  _ ← tqueue_enqueue NUM_IDS old_cur_pid;
  new_cur_pid ← tqueue_dequeue NUM_IDS;
  _ ← tcb_set_state new_cur_pid TSTATE_RUN;
  _ ← set_curid new_cur_pid;
  mret (old_cur_pid, new_cur_pid).

Definition thread_yield : KM thr unit :=
  '(old_cur_pid, new_cur_pid) ← run yield_pick;
  _ ← run sched_lk_release;
  if negb (old_cur_pid =? new_cur_pid) then kctx_switch old_cur_pid new_cur_pid
  else mret tt.

Definition exit_pick : M thr (Z * Z) :=
  _ ← sched_lk_acquire;
  old_cur_pid ← get_curid;
  new_cur_pid ← tqueue_dequeue NUM_IDS;
  _ ← (if new_cur_pid =? NUM_IDS
       then fail (Panic "thread_exit: no threads to switch to!") else mret tt);
  _ ← tcb_set_state new_cur_pid TSTATE_RUN;
  _ ← set_curid new_cur_pid;
  _ ← sched_lk_release;
  mret (old_cur_pid, new_cur_pid).

Definition thread_exit : KM thr unit :=
  '(old_cur_pid, new_cur_pid) ← run exit_pick;
  kctx_switch old_cur_pid new_cur_pid.

(** The part of [sched_update] under the lock; true when the slice is used up. *)
Definition sched_tick : M thr bool :=
  _ ← sched_lk_acquire;
  t ← gets (λ s, aget (sched_ticks s) this_cpu);
  let t := u32 (t + 1000 / LAPIC_TIMER_INTR_FREQ) in
  _ ← modify (λ s, set_sched_ticks (<[this_cpu := t]> (sched_ticks s)) s);
  if (SCHED_SLICE <? t) then
    _ ← modify (λ s, set_sched_ticks (<[this_cpu := 0]> (sched_ticks s)) s);
    _ ← sched_lk_release;
    mret true
  else
    _ ← sched_lk_release;
    mret false.

Definition sched_update : KM thr unit :=
  expired ← run sched_tick;
  if (expired : bool) then thread_yield else mret tt.

(** [thread_sleep] from [tcb_set_state] to the switch. *)
Definition sleep_pick (curid chan : Z) : M thr Z :=
  _ ← tcb_set_state curid TSTATE_SLEEP;
  _ ← tcb_set_chan curid chan;
  new_cur_pid ← tqueue_dequeue NUM_IDS;
  _ ← tcb_set_state new_cur_pid TSTATE_RUN;
  _ ← set_curid new_cur_pid;
  _ ← sched_lk_release;
  mret new_cur_pid.

(** The lock [lk] the caller holds is in a larger state. *)
Definition thread_sleep {S} (lt : lens S thr) (chan : Z) (lk : option (lens S spinlock)) :
    KM S unit :=
  curid ← run (lift lt get_curid);
  match lk with
  | None => kfail (Panic "sleep without lock")
  | Some lk =>
    _ ← run (lift lt sched_lk_acquire);
    _ ← run (lift lk spinlock_release);
    new_cur_pid ← run (lift lt (sleep_pick curid chan));
    _ ← klift lt (kctx_switch curid new_cur_pid);
    _ ← run (lift lt (_ ← sched_lk_acquire; _ ← tcb_set_chan curid 0; sched_lk_release));
    run (lift lk (spinlock_acquire "lk"))
  end.

(** One turn of the loop of [thread_wakeup]. *)
Definition wakeup_one (chan pid : Z) : M thr unit :=
  c ← tcb_get_chan pid;
  if c =? chan then
    st ← tcb_get_state pid;
    if st =? TSTATE_SLEEP then
      _ ← tcb_set_state pid TSTATE_READY;
      _ ← tcb_set_chan pid 0;
      tqueue_enqueue NUM_IDS pid
    else mret tt
  else mret tt.

Definition thread_wakeup (chan : Z) : M thr unit :=
  _ ← sched_lk_acquire;
  _ ← for_range 1 NUM_IDS (wakeup_one chan);
  sched_lk_release.

(** ** The invariant *)

(** A process that has been spawned: its container is in use. *)
Definition live (s : thr) (pid : Z) : Prop :=
  is_pid pid ∧ used (aget (CONTAINER (v_cont (t_vm s))) pid) = 1.

(** [cur] runs and [ready] waits, in this order. *)
Record sched_core (s : thr) (cur : Z) (ready : list Z) : Prop := {
  si_cur : aget (CURID s) this_cpu = cur;
  si_live : live s cur;
  si_queue : queue_rep s NUM_IDS ready;
  si_ready pid : pid ∈ ready → state (tcb s pid) = TSTATE_READY ∧ live s pid;
  si_all pid : live s pid → pid ≠ cur → state (tcb s pid) = TSTATE_READY → pid ∈ ready;
  si_sleep pid : is_pid pid → pid ≠ cur → state (tcb s pid) = TSTATE_SLEEP → live s pid;
  si_notcur : cur ∉ ready
}.

Definition sched_ok (s : thr) (cur : Z) (ready : list Z) : Prop :=
  sched_core s cur ready ∧ unlocked (sched_lk s).

(** The threads that are gone for good. *)
Definition gone (s : thr) (cur : Z) (ready : list Z) (pid : Z) : Prop :=
  pid ≠ cur ∧ (pid ∉ ready) ∧ state (tcb s pid) = TSTATE_DEAD ∧ live s pid.

(** ** Lemmas *)

Lemma run_Ok {S A} (m : M S A) s a s' : m s = Ok (a, s') → run m s = KRet a s'.
Proof. unfold run. by intros ->. Qed.

Lemma run_Err {S A} (m : M S A) s e : m s = Err e → run m s = KErr e.
Proof. unfold run. by intros ->. Qed.

(** A TCB without its links, which the queue owns. *)
Definition nolinks (t : TCB) : TCB := set_prev 0 (set_next 0 t).

(** The TCBs [g] with the one of [x] changed. *)
Definition upd (x : Z) (f : TCB → TCB) (g : Z → TCB) : Z → TCB :=
  λ y, if decide (y = x) then f (g y) else g y.

Definition tcbs_are (s : thr) (g : Z → TCB) : Prop := ∀ x, nolinks (tcb s x) = nolinks (g x).

Lemma nolinks_fields t t' :
  nolinks t = nolinks t' →
  state t = state t' ∧ channel t = channel t' ∧ sigstate t = sigstate t'.
Proof. by intros [=]. Qed.

Lemma are_state s g x : tcbs_are s g → state (tcb s x) = state (g x).
Proof. intros H. apply (nolinks_fields _ _ (H x)). Qed.

Lemma are_frame s s' chid l g :
  queue_frame s s' chid l → tcbs_are s g → tcbs_are s' g.
Proof. intros [_ Hl _ _] Hg x. rewrite <- Hg. apply Hl. Qed.

Lemma are_same s s' g : TCBPool s' = TCBPool s → tcbs_are s g → tcbs_are s' g.
Proof. unfold tcbs_are, tcb. by intros ->. Qed.

(** [f] does not depend on the links. *)
Class LinkFree (f : TCB → TCB) : Prop :=
  link_free t t' : nolinks t = nolinks t' → nolinks (f t) = nolinks (f t').
#[export] Instance link_free_state v : LinkFree (set_state v).
Proof. by intros [] [] [= -> -> -> -> ->]. Qed.
#[export] Instance link_free_channel v : LinkFree (set_channel v).
Proof. by intros [] [] [= -> -> -> -> ->]. Qed.
#[export] Instance link_free_sigstate h : LinkFree (λ t, set_sigstate (h (sigstate t)) t).
Proof. by intros [] [] [= -> -> -> -> ->]. Qed.

Lemma are_upd s pid f `{!LinkFree f} g :
  tcbs_are s g →
  tcbs_are (set_TCBPool (<[pid := f (tcb s pid)]> (TCBPool s)) s) (upd pid f g).
Proof.
  intros Hg x. unfold tcb, upd. cbn [TCBPool set_TCBPool]. rewrite aget_insert.
  repeat case_decide; subst; try done; [apply link_free|]; apply Hg.
Qed.

Lemma are_refl s : tcbs_are s (tcb s).
Proof. by intros x. Qed.

Lemma frame_rest s s' chid l :
  queue_frame s s' chid l →
  t_vm s' = t_vm s ∧ CURID s' = CURID s ∧ sched_lk s' = sched_lk s
  ∧ kctx_pool s' = kctx_pool s ∧ sched_ticks s' = sched_ticks s.
Proof. intros [Hr _ _ _]. by injection Hr. Qed.

Lemma live_vm s s' pid : t_vm s' = t_vm s → live s' pid ↔ live s pid.
Proof. unfold live. by intros ->. Qed.

(** Updates of a TCB that leave its links. *)
Lemma queue_rep_upd s chid l pid f :
  (∀ t, prev (f t) = prev t ∧ next (f t) = next t) →
  queue_rep s chid l →
  queue_rep (set_TCBPool (<[pid := f (tcb s pid)]> (TCBPool s)) s) chid l.
Proof.
  intros Hf [Hh Ht Hd Hnd Hr]. split; try done. cbn. eapply dll_ext; [|done].
  intros x _. rewrite aget_insert. case_decide; [subst|done]. apply Hf.
Qed.

(** [tcb_upd] *)
Definition put (pid : Z) (f : TCB → TCB) (s : thr) : thr :=
  set_TCBPool (<[pid := f (tcb s pid)]> (TCBPool s)) s.

Lemma queue_rep_put s chid l pid f f' :
  (∀ t, prev (f t) = prev t ∧ next (f t) = next t) →
  (∀ t, prev (f' t) = prev t ∧ next (f' t) = next t) →
  queue_rep s chid l → queue_rep (put pid f' (put pid f s)) chid l.
Proof. intros Hf Hf' Hq. by apply queue_rep_upd, queue_rep_upd. Qed.

(** The queue depends on the TCBs and the queue heads only. *)
Lemma queue_rep_same s s' chid l :
  TCBPool s' = TCBPool s → TQueuePool s' = TQueuePool s →
  queue_rep s chid l → queue_rep s' chid l.
Proof. intros E1 E2 [Hh Ht Hd Hnd Hr]. split; rewrite ?E1, ?E2; done. Qed.

(** The next thread [new] starts to run: [st] are the states before. *)
Lemma pick_core s s' st new rest :
  t_vm s' = t_vm s → aget (CURID s') this_cpu = new → queue_rep s' NUM_IDS rest →
  (∀ x, state (tcb s' x) = if decide (x = new) then TSTATE_RUN else st x) →
  NoDup (new :: rest) →
  (∀ x, x ∈ new :: rest → st x = TSTATE_READY ∧ live s x) →
  (∀ x, live s x → st x = TSTATE_READY → x ∈ new :: rest) →
  (∀ x, is_pid x → st x = TSTATE_SLEEP → live s x) →
  sched_core s' new rest.
Proof.
  intros Hvm Hcur Hq Hst [Hni Hnd]%NoDup_cons Hin Hall Hsl.
  split; [done| |done| | | |done].
  - apply (live_vm s s' new Hvm), Hin. left.
  - intros pid Hp. rewrite Hst, (live_vm s s' pid Hvm).
    rewrite decide_False by (intros ->; done). apply Hin. by right.
  - intros pid Hl Hne. rewrite Hst, decide_False by done. intros Hr.
    apply (live_vm s s' pid Hvm) in Hl. specialize (Hall pid Hl Hr).
    apply elem_of_cons in Hall as [?|?]; done.
  - intros pid Hp Hne. rewrite Hst, decide_False by done. intros Hs.
    apply (live_vm s s' pid Hvm). by apply Hsl.
Qed.

(** The core of the invariant does not look at the lock. *)
Lemma sched_core_lk s cur ready lk :
  sched_core s cur ready → sched_core (lset l_sched_lk lk s) cur ready.
Proof.
  intros [? ? ? ? ? ? ?]. split; try done. by apply (queue_rep_same s).
Qed.

(** The state after [tqueue_dequeue], [tcb_set_state] and [set_curid]. *)
Definition run_next (s : thr) (new : Z) : thr :=
  set_CURID (<[this_cpu := new]> (CURID s))
    (set_TCBPool (<[new := set_state TSTATE_RUN (tcb s new)]> (TCBPool s)) s).

Lemma run_next_core s s' new rest g :
  queue_rep s NUM_IDS (new :: rest) → queue_rep s' NUM_IDS rest →
  queue_frame s s' NUM_IDS (new :: rest) → tcbs_are s g →
  (∀ x, x ∈ new :: rest → state (g x) = TSTATE_READY ∧ live s x) →
  (∀ x, live s x → state (g x) = TSTATE_READY → x ∈ new :: rest) →
  (∀ x, is_pid x → state (g x) = TSTATE_SLEEP → live s x) →
  sched_core (run_next s' new) new rest ∧ t_vm (run_next s' new) = t_vm s
  ∧ tcbs_are (run_next s' new) (upd new (set_state TSTATE_RUN) g).
Proof.
  intros Hq Hq' Hf Hg Hin Hall Hsl. destruct (frame_rest _ _ _ _ Hf) as (Hvm & _).
  assert (tcbs_are (run_next s' new) (upd new (set_state TSTATE_RUN) g)) as Hg'.
  { eapply are_same; [reflexivity|]. apply (are_upd s' new (set_state TSTATE_RUN)).
    by eapply are_frame. }
  split_and!; [|done|done].
  eapply (pick_core s _ (λ x, state (g x)));
    [done|apply aget_eq| | |apply Hq|done|done|done].
  - apply (queue_rep_same (set_TCBPool (<[new := set_state TSTATE_RUN (tcb s' new)]>
        (TCBPool s')) s')); [done|done|]. by apply queue_rep_upd.
  - intros x. rewrite (are_state _ _ _ Hg'). unfold upd. by case_decide.
Qed.

(** What [yield_pick] establishes. *)
Lemma wp_yield_pick s cur ready Q :
  sched_ok s cur ready →
  (∀ s' new rest, ready ++ [cur] = new :: rest → sched_core s' new rest →
     t_vm s' = t_vm s →
     tcbs_are s' (upd new (set_state TSTATE_RUN) (upd cur (set_state TSTATE_READY) (tcb s))) →
     Q (cur, new) s') →
  wp yield_pick Q s.
Proof.
  intros [[Hcur Hlv Hq Hrd Hall Hsl Hnc] Hlk] HQ. unfold yield_pick, sched_lk_acquire.
  wp_step. wp_step. wp_lock. wp_step. wp_tcb. rewrite Hcur.
  assert (is_pid cur) as Hpid by apply Hlv. unfold is_pid in Hpid.
  wp_step. wp_tcb. set (s2 := set_TCBPool _ _).
  assert (queue_rep s2 NUM_IDS ready) as Hq2.
  { apply (queue_rep_upd (lset l_sched_lk locked s) NUM_IDS ready cur (set_state TSTATE_READY));
      [done|]. by apply (queue_rep_same s). }
  assert (tcbs_are s2 (upd cur (set_state TSTATE_READY) (tcb s))) as Hg2.
  { eapply are_same; [|apply (are_upd s cur (set_state TSTATE_READY)), are_refl]. done. }
  wp_step. apply (wp_tqueue_enqueue s2 NUM_IDS ready); [done|bounds|done|done|].
  intros s3 Hq3 Hf3. wp_step. apply (wp_tqueue_dequeue s3 NUM_IDS (ready ++ [cur])); [done|bounds|].
  intros s4 Hq4 Hf4.
  assert (∃ new rest, ready ++ [cur] = new :: rest) as (new & rest & E).
  { destruct ready as [|x l]; [by exists cur, []|by exists x, (l ++ [cur])]. }
  destruct (frame_rest _ _ _ _ Hf3) as (Hvm3 & _). eapply are_frame in Hg2; [|exact Hf3].
  rewrite E in *. cbn [hd tl] in *.
  assert (is_pid new) as Hnew by (apply (Forall_elem _ _ _ (qr_range _ _ _ Hq3)); left).
  unfold is_pid in Hnew. wp_go. fold (tcb s4 new). fold (run_next s4 new).
  destruct (run_next_core s3 s4 new rest _ Hq3 Hq4 Hf4 Hg2) as (Hcore & Hvm & Hg).
  - intros x Hx. rewrite <- E, elem_of_app, list_elem_of_singleton in Hx.
    rewrite (live_vm s s3 x Hvm3). unfold upd.
    case_decide; [by subst|]. destruct Hx as [Hx|?]; [by apply Hrd|done].
  - intros x Hx. rewrite <- E, elem_of_app, list_elem_of_singleton. unfold upd.
    apply (live_vm s s3 x Hvm3) in Hx. case_decide; [by right|]. intros Hr. left. by apply Hall.
  - intros x Hx. rewrite (live_vm s s3 x Hvm3). unfold upd. case_decide; [done|]. by apply Hsl.
  - eapply HQ; [done|done|by rewrite Hvm, Hvm3|done].
Qed.

Lemma wp_exit_pick s cur new rest Q :
  sched_ok s cur (new :: rest) → state (tcb s cur) ≠ TSTATE_READY →
  (∀ s', sched_ok s' new rest → t_vm s' = t_vm s →
     tcbs_are s' (upd new (set_state TSTATE_RUN) (tcb s)) → Q (cur, new) s') →
  wp exit_pick Q s.
Proof.
  intros [[Hcur Hlv Hq Hrd Hall Hsl Hnc] Hlk] Hst HQ.
  unfold exit_pick, sched_lk_acquire, sched_lk_release.
  wp_step. wp_step. wp_lock. wp_step. wp_tcb. rewrite Hcur. wp_step.
  set (s1 := lset l_sched_lk locked s).
  assert (queue_rep s1 NUM_IDS (new :: rest)) as Hq1 by by apply (queue_rep_same s).
  apply (wp_tqueue_dequeue s1 NUM_IDS (new :: rest)); [done|bounds|].
  intros s2 Hq2 Hf2. cbn [hd tl] in *.
  assert (is_pid new) as Hnew by (apply (Forall_elem _ _ _ (qr_range _ _ _ Hq)); left).
  unfold is_pid in Hnew. rewrite (proj2 (Z.eqb_neq new NUM_IDS)) by lia. wp_go.
  fold (tcb s2 new). fold (run_next s2 new). wp_lock. wp_steps.
  destruct (run_next_core s1 s2 new rest (tcb s)) as (Hcore & Hvm & Hg); try done.
  - intros x Hx Hr. destruct (decide (x = cur)) as [->|]; [done|]. by apply Hall.
  - intros x Hx Hs. destruct (decide (x = cur)) as [->|]; [done|]. by apply Hsl.
  - apply HQ; try done. split; [by apply sched_core_lk|done].
Qed.

Lemma exit_pick_empty s cur :
  sched_ok s cur [] → exit_pick s = Err (Panic "thread_exit: no threads to switch to!").
Proof.
  intros [[_ _ Hq _ _ _ _] Hlk]. apply wpe_err. unfold exit_pick, sched_lk_acquire.
  apply wpe_then. wp_step. wp_lock. apply wpe_then. wp_tcb. apply wpe_then.
  apply (wp_tqueue_dequeue _ NUM_IDS []); [by apply (queue_rep_same s)|bounds|].
  intros s' _ _. cbn [hd]. rewrite Z.eqb_refl. by apply wpe_bind.
Qed.

Definition sleep_tcb (chan : Z) (t : TCB) : TCB := set_channel chan (set_state TSTATE_SLEEP t).

#[export] Instance link_free_sleep chan : LinkFree (sleep_tcb chan).
Proof. by intros [] [] [= -> -> -> -> ->]. Qed.

Lemma wp_sleep_pick s cur chan new rest Q :
  sched_core s cur (new :: rest) →
  (∀ s', sched_ok s' new rest → t_vm s' = t_vm s →
     tcbs_are s' (upd new (set_state TSTATE_RUN) (upd cur (sleep_tcb chan) (tcb s))) → Q new s') →
  wp (sleep_pick cur chan) Q s.
Proof.
  intros [Hcur Hlv Hq Hrd Hall Hsl Hnc] HQ. unfold sleep_pick, sched_lk_release.
  assert (is_pid cur) as Hpid by apply Hlv. unfold is_pid in Hpid.
  wp_step. wp_tcb. wp_step. wp_tcb. set (s2 := set_TCBPool _ _).
  assert (queue_rep s2 NUM_IDS (new :: rest)) as Hq2.
  { by apply (queue_rep_put s _ _ cur (set_state TSTATE_SLEEP) (set_channel chan)). }
  assert (tcbs_are s2 (upd cur (sleep_tcb chan) (tcb s))) as Hg2.
  { intros x. unfold tcb, upd, s2. cbn [TCBPool set_TCBPool]. rewrite !aget_insert.
    repeat case_decide; subst; done. }
  wp_step. apply (wp_tqueue_dequeue s2 NUM_IDS (new :: rest)); [done|bounds|].
  intros s3 Hq3 Hf3. cbn [hd tl] in *.
  assert (is_pid new) as Hnew by (apply (Forall_elem _ _ _ (qr_range _ _ _ Hq)); left).
  unfold is_pid in Hnew. wp_go. fold (tcb s3 new). fold (run_next s3 new). wp_lock. wp_steps.
  destruct (run_next_core s2 s3 new rest _ Hq2 Hq3 Hf3 Hg2) as (Hcore & Hvm & Hg).
  - intros x Hx. unfold upd. rewrite decide_False by (intros ->; done). by apply Hrd.
  - intros x Hx. unfold upd. case_decide; [done|]. by apply Hall.
  - intros x Hx. unfold upd. case_decide; [by subst|]. by apply Hsl.
  - apply HQ; try done. split; [by apply sched_core_lk|done].
Qed.

(** With nobody to run, [thread_sleep] indexes the pool with [NUM_IDS]. *)
Lemma sleep_pick_empty s cur chan :
  sched_core s cur [] → sleep_pick cur chan s = Err (OutOfBounds "TCBPool" NUM_IDS).
Proof.
  intros [Hcur Hlv Hq Hrd Hall Hsl Hnc]. apply wpe_err. unfold sleep_pick.
  assert (is_pid cur) as Hpid by apply Hlv. unfold is_pid in Hpid.
  apply wpe_then. wp_tcb. apply wpe_then. wp_tcb. apply wpe_then.
  apply (wp_tqueue_dequeue _ NUM_IDS []); [|bounds|].
  { by apply (queue_rep_put s _ _ cur (set_state TSTATE_SLEEP) (set_channel chan)). }
  intros s' _ _. by apply wpe_bind.
Qed.

(** *** Waking up *)

Definition sleeps_on (s : thr) (chan pid : Z) : Prop :=
  channel (tcb s pid) = chan ∧ state (tcb s pid) = TSTATE_SLEEP.

#[export] Instance sleeps_on_dec s chan pid : Decision (sleeps_on s chan pid).
Proof. unfold sleeps_on. apply _. Defined.

Definition wake_tcb (t : TCB) : TCB := set_channel 0 (set_state TSTATE_READY t).

#[export] Instance link_free_wake : LinkFree wake_tcb.
Proof. by intros [] [] [= -> -> -> -> ->]. Qed.

Lemma wp_wakeup_one s cur ready chan pid Q :
  sched_core s cur ready → is_pid pid → state (tcb s cur) ≠ TSTATE_SLEEP →
  (sleeps_on s chan pid →
   ∀ s', sched_core s' cur (ready ++ [pid]) → t_vm s' = t_vm s →
     tcbs_are s' (upd pid wake_tcb (tcb s)) → Q tt s') →
  (¬ sleeps_on s chan pid → Q tt s) →
  wp (wakeup_one chan pid) Q s.
Proof.
  intros [Hcur Hlv Hq Hrd Hall Hsl Hnc] Hpid Hst HQ1 HQ2. unfold wakeup_one.
  pose proof Hpid as Hpid'. unfold is_pid in Hpid'.
  wp_step. wp_tcb. destruct (Z.eqb_spec (channel (tcb s pid)) chan) as [Hc|Hc]; fold (tcb s pid) in *.
  2: { rewrite (proj2 (Z.eqb_neq _ _) Hc). wp_steps. apply HQ2. by intros [? _]. }
  rewrite (proj2 (Z.eqb_eq _ _) Hc). wp_step. wp_tcb. fold (tcb s pid).
  destruct (Z.eqb_spec (state (tcb s pid)) TSTATE_SLEEP) as [Hs|Hs].
  2: { wp_steps. apply HQ2. by intros [_ ?]. }
  assert (pid ≠ cur) as Hne by by intros ->.
  assert (pid ∉ ready) as Hni by (intros [H _]%Hrd; by rewrite Hs in H).
  wp_step. wp_tcb. wp_step. wp_tcb. set (s2 := set_TCBPool _ _).
  assert (queue_rep s2 NUM_IDS ready) as Hq2.
  { by apply (queue_rep_put s _ _ pid (set_state TSTATE_READY) (set_channel 0)). }
  assert (tcbs_are s2 (upd pid wake_tcb (tcb s))) as Hg2.
  { intros x. unfold tcb, upd, s2. cbn [TCBPool set_TCBPool]. rewrite !aget_insert.
    repeat case_decide; subst; done. }
  apply (wp_tqueue_enqueue s2 NUM_IDS ready); [done|bounds|done|done|].
  intros s3 Hq3 Hf3. destruct (frame_rest _ _ _ _ Hf3) as (Hvm & HC & Hlk & _).
  eapply are_frame in Hg2; [|exact Hf3].
  assert (∀ x, state (tcb s3 x) = if decide (x = pid) then TSTATE_READY else state (tcb s x)) as Hst3.
  { intros x. rewrite (are_state _ _ _ Hg2). unfold upd. by case_decide. }
  apply HQ1; [by split| |done|done].
  split; [by rewrite HC|by apply (live_vm s)|done|..].
  - intros x. rewrite elem_of_app, list_elem_of_singleton, Hst3, (live_vm s s3 x Hvm).
    intros [Hx| ->]; [|rewrite decide_True by done; split; [done|by apply Hsl]].
    rewrite decide_False by (intros ->; done). by apply Hrd.
  - intros x. rewrite elem_of_app, list_elem_of_singleton, Hst3, (live_vm s s3 x Hvm).
    intros Hx Hxc. case_decide; [by right|]. intros ?. left. by apply Hall.
  - intros x. rewrite Hst3, (live_vm s s3 x Hvm). intros Hx Hxc. case_decide; [done|]. by apply Hsl.
  - rewrite elem_of_app, list_elem_of_singleton. intros [?|?]; congruence.
Qed.

(** The threads a wakeup of [chan] makes ready, in the order it does. *)
Definition woken (s : thr) (chan hi : Z) : list Z :=
  filter (sleeps_on s chan) (seqZ 1 (hi - 1)).

Definition woken_tcbs (s : thr) (chan hi : Z) (x : Z) : TCB :=
  if decide (1 ≤ x < hi ∧ sleeps_on s chan x) then wake_tcb (tcb s x) else tcb s x.

Lemma woken_S s chan j :
  1 ≤ j → woken s chan (j + 1) = woken s chan j ++ filter (sleeps_on s chan) [j].
Proof.
  intros Hj. unfold woken. replace (j + 1 - 1) with (j - 1 + 1) by lia.
  rewrite seqZ_app by lia. rewrite filter_app. cbn [seqZ]. by replace (1 + (j - 1)) with j by lia.
Qed.

Lemma wp_thread_wakeup s cur ready chan Q :
  sched_ok s cur ready → state (tcb s cur) ≠ TSTATE_SLEEP →
  (∀ s', sched_ok s' cur (ready ++ woken s chan NUM_IDS) → t_vm s' = t_vm s →
     tcbs_are s' (woken_tcbs s chan NUM_IDS) → Q tt s') →
  wp (thread_wakeup chan) Q s.
Proof.
  intros [Hc Hlk] Hst HQ. unfold thread_wakeup, sched_lk_acquire, sched_lk_release.
  wp_step. wp_step. wp_lock. wp_step.
  apply (wp_for_range (λ j s', sched_core s' cur (ready ++ woken s chan j)
    ∧ t_vm s' = t_vm s ∧ tcbs_are s' (woken_tcbs s chan j))); [done| | |].
  - split_and!; [|done|].
    + rewrite app_nil_r. by apply sched_core_lk.
    + intros x. unfold woken_tcbs. by rewrite decide_False by lia.
  - intros j s1 Hj (Hc1 & Hvm1 & Hg1).
    assert (sleeps_on s1 chan j ↔ sleeps_on s chan j) as Heq.
    { destruct (nolinks_fields _ _ (Hg1 j)) as (E1 & E2 & _). unfold sleeps_on.
      rewrite E1, E2. unfold woken_tcbs. by rewrite decide_False by lia. }
    assert (state (tcb s1 cur) ≠ TSTATE_SLEEP).
    { rewrite (are_state _ _ _ Hg1). unfold woken_tcbs. by case_decide. }
    apply (wp_wakeup_one s1 cur (ready ++ woken s chan j)); [done|unfold is_pid; lia|done|..].
    + intros Hs s2 Hc2 Hvm2 Hg2. apply Heq in Hs. split_and!; [|by rewrite Hvm2|].
      * rewrite woken_S, filter_cons_True, app_assoc by (done || lia). done.
      * intros x. rewrite Hg2. unfold upd, woken_tcbs. case_decide; [subst|].
        -- rewrite decide_True by (split; [lia|done]).
           apply (link_free (f:=wake_tcb)). rewrite Hg1. unfold woken_tcbs.
           by rewrite decide_False by lia.
        -- rewrite Hg1. unfold woken_tcbs. do 2 case_decide; try done; naive_solver lia.
    + intros Hs. rewrite Heq in Hs. split_and!; [|done|].
      * rewrite woken_S, filter_cons_False by (done || lia). by rewrite app_nil_r.
      * intros x. rewrite Hg1. unfold woken_tcbs. destruct (decide (x = j)) as [->|].
        -- by rewrite !decide_False by naive_solver lia.
        -- do 2 case_decide; try done; naive_solver lia.
  - intros s1 (Hc1 & Hvm1 & Hg1). wp_step. wp_lock.
    apply HQ; [split; [by apply sched_core_lk|done]|done|done].
Qed.

(** *** Spawning *)

(** The container of process [id] can be split for a child with quota [q]. *)
Definition can_split (s : thr) (id q : Z) : Prop :=
  let c := aget (CONTAINER (v_cont (t_vm s))) id in
  0 ≤ id ∧ used c = 1 ∧ nchildren c < MAX_CHILDREN ∧ 3 * id + 1 + nchildren c < NUM_IDS
  ∧ 0 ≤ q ≤ unspent c.

Definition child_of (s : thr) (id : Z) : Z :=
  3 * id + 1 + nchildren (aget (CONTAINER (v_cont (t_vm s))) id).

(** The containers after the split. *)
Definition split_cont (s : thr) (id q : Z) : cont :=
  let c := aget (CONTAINER (v_cont (t_vm s))) id in
  Cont (c_pmm (v_cont (t_vm s)))
    (<[id := Container (quota c) (usage c + q) (parent c) (nchildren c + 1) (used c)]>
      (<[child_of s id := Container q 0 id 0 1]> (CONTAINER (v_cont (t_vm s))))).

Lemma child_of_pid s id q :
  cont_ok (v_cont (t_vm s)) → can_split s id q → is_pid (child_of s id) ∧ child_of s id ≠ id.
Proof.
  intros Hok (Hid & Hu & Hn & Hch & Hq). unfold child_of, is_pid.
  pose proof (co_con _ Hok id) as Hc. unfold con_ok in Hc. lia.
Qed.

Lemma live_split s s' id q pid :
  cont_ok (v_cont (t_vm s)) → can_split s id q → v_cont (t_vm s') = split_cont s id q →
  live s' pid ↔ live s pid ∨ pid = child_of s id.
Proof.
  intros Hok Hsp E. destruct (child_of_pid s id q Hok Hsp) as [Hp Hne]. unfold live. rewrite E.
  cbn [CONTAINER split_cont]. rewrite !aget_insert. destruct Hsp as (_ & Hu & _).
  repeat case_decide; subst; cbn [used]; naive_solver.
Qed.

Lemma child_not_live s id q :
  cont_ok (v_cont (t_vm s)) → can_split s id q → ¬ live s (child_of s id).
Proof.
  intros Hok (Hid & Hu & Hn & Hch & Hq) [_ H].
  pose proof (next_child_unused _ id Hok Hid Hch Hn) as H'. unfold child_of in H. congruence.
Qed.

Lemma wp_thread_spawn kstack_hi s cur ready entry id q Q :
  sched_ok s cur ready → cont_ok (v_cont (t_vm s)) → can_split s id q →
  (∀ s' pid, pid = child_of s id → sched_ok s' cur (ready ++ [pid]) →
     t_vm s' = lset l_v_cont (split_cont s id q) (t_vm s) →
     cont_ok (v_cont (t_vm s')) →
     tcbs_are s' (upd pid (set_state TSTATE_READY) (tcb s)) →
     k_eip (aget (kctx_pool s') pid) = entry → k_esp (aget (kctx_pool s') pid) = kstack_hi pid →
     Q pid s') →
  wp (thread_spawn kstack_hi entry id q) Q s.
Proof.
  intros [[Hcur Hlv Hq Hrd Hall Hsl Hnc] Hlk] Hok Hsp HQ.
  pose proof (child_not_live s id q Hok Hsp) as Hnl.
  destruct (child_of_pid s id q Hok Hsp) as [Hp Hne]. pose proof Hp as Hp'. unfold is_pid in Hp'.
  pose proof (λ s' pid, live_split s s' id q pid Hok Hsp) as Hlive.
  pose proof Hsp as (Hid & Hu & Hn & Hch & Hqq).
  unfold thread_spawn, kctx_new, sched_lk_acquire, sched_lk_release, kctx_set_esp, kctx_set_eip.
  wp_step. wp_step. wp_lock. wp_step. wp_step. wp_step. apply wp_lift.
  apply wp_container_split; [done|done|apply Hok|done|done|].
  fold (child_of s id). set (c := child_of s id) in *.
  wp_go. set (s2 := set_TCBPool _ _).
  assert (queue_rep s2 NUM_IDS ready) as Hq2.
  { apply (queue_rep_same (put c (set_state TSTATE_READY) s)); [done|done|].
    by apply queue_rep_upd. }
  assert (tcbs_are s2 (upd c (set_state TSTATE_READY) (tcb s))) as Hg2.
  { eapply are_same; [|apply (are_upd s c (set_state TSTATE_READY)), are_refl]. done. }
  assert (c ∉ ready) as Hnr by (intros [_ H]%Hrd; done).
  apply (wp_tqueue_enqueue s2 NUM_IDS ready); [done|bounds|done|done|].
  intros s3 Hq3 Hf3. destruct (frame_rest _ _ _ _ Hf3) as (Hvm & HC & Hlk3 & Hk & _).
  eapply are_frame in Hg2; [|exact Hf3]. wp_steps. wp_lock. wp_steps.
  specialize (Hlive s3).
  apply HQ; [done|split; [apply sched_core_lk|done]|by thr_simpl| |done|..].
  - assert (∀ x, state (tcb s3 x) = if decide (x = c) then TSTATE_READY else state (tcb s x)) as Hst.
    { intros x. rewrite (are_state _ _ _ Hg2). unfold upd. by case_decide. }
    split; [by rewrite HC| |done|..].
    + apply Hlive; [by rewrite Hvm|by left].
    + intros x. rewrite elem_of_app, list_elem_of_singleton, Hst, Hlive by by rewrite Hvm.
      intros [Hx| ->]; [|by rewrite decide_True by done; auto].
      rewrite decide_False by (intros ->; done). split; [|left]; by apply Hrd.
    + intros x. rewrite elem_of_app, list_elem_of_singleton, Hst, Hlive by by rewrite Hvm.
      intros [Hx| ->]; [|by right]. intros ?. case_decide; [by right|]. intros. left. by apply Hall.
    + intros x Hx Hxc. rewrite Hst, Hlive by by rewrite Hvm. case_decide; [done|].
      intros. left. by apply Hsl.
    + rewrite elem_of_app, list_elem_of_singleton. intros [?| ->]; done.
  - thr_simpl. rewrite Hvm. by apply container_split_ok.
  - thr_simpl. rewrite Hk. cbn. by rewrite aget_eq.
  - thr_simpl. rewrite Hk. cbn. by rewrite !aget_eq.
Qed.

(** ** Results *)

(** A yield either comes back at once, when nobody else is ready, or hands over
    to the head of the queue with the caller at its end. *)
Definition yields_to (s : thr) (cur : Z) (ready : list Z) (t : K thr unit) : Prop :=
  match ready with
  | [] => ∃ s', t = KRet tt s' ∧ sched_ok s' cur [] ∧ t_vm s' = t_vm s
          ∧ tcbs_are s' (upd cur (set_state TSTATE_RUN) (tcb s))
  | new :: rest => ∃ s' k, t = KSwitch cur new s' k ∧ (∀ s'', k s'' = KRet tt s'')
          ∧ sched_ok s' new (rest ++ [cur]) ∧ t_vm s' = t_vm s
          ∧ tcbs_are s' (upd new (set_state TSTATE_RUN)
                           (upd cur (set_state TSTATE_READY) (tcb s)))
  end.

Lemma kctx_switch_eq from to s :
  is_pid from → is_pid to →
  kctx_switch from to s = KSwitch from to s (λ s', KRet tt s').
Proof.
  unfold is_pid. intros [H1 H2] [H3 H4]. unfold kctx_switch, run, chk, mbind, KM_bind.
  by rewrite (proj2 (Z.leb_le _ _) H1), (proj2 (Z.leb_le _ _) H3),
    (proj2 (Z.ltb_lt _ _) H2), (proj2 (Z.ltb_lt _ _) H4).
Qed.

Lemma kbind_run {S A B} (m : M S A) (f : A → KM S B) s a s' :
  m s = Ok (a, s') → (run m ≫= f) s = f a s'.
Proof. unfold mbind, KM_bind, run. by intros ->. Qed.

Lemma thread_yield_yields s cur ready :
  sched_ok s cur ready → yields_to s cur ready (thread_yield s).
Proof.
  intros Hok.
  destruct (wp_run yield_pick (λ r s', ∃ new rest, r = (cur, new) ∧ ready ++ [cur] = new :: rest
    ∧ sched_core s' new rest ∧ t_vm s' = t_vm s
    ∧ tcbs_are s' (upd new (set_state TSTATE_RUN) (upd cur (set_state TSTATE_READY) (tcb s)))) s)
    as (r & s' & Hrun & new & rest & -> & E & Hc & Hvm & Hg).
  { apply (wp_yield_pick s cur ready); [done|]. naive_solver. }
  destruct Hok as [[_ Hlv Hq _ _ _ Hnc] _].
  unfold thread_yield. rewrite (kbind_run _ _ _ _ _ Hrun). cbn beta iota.
  rewrite (kbind_run _ _ _ tt (lset l_sched_lk released s')) by done.
  assert (sched_ok (lset l_sched_lk released s') new rest) as Hok'
    by (split; [by apply sched_core_lk|done]).
  destruct ready as [|x l]; cbn in E; injection E as -> <-; cbn [yields_to].
  - rewrite Z.eqb_refl. cbn [negb]. eexists. split_and!; [done|done|done|].
    intros x. rewrite (Hg x : nolinks (tcb (lset l_sched_lk released s') x) = _).
    unfold upd. by case_decide.
  - rewrite (proj2 (Z.eqb_neq cur new)) by (intros ->; apply Hnc; left). cbn [negb].
    do 2 eexists. split_and!; [|..|exact Hok'|done|done].
    + apply kctx_switch_eq; [apply Hlv|]. apply (Forall_elem _ _ _ (qr_range _ _ _ Hq)). left.
    + done.
Qed.

(** The lock a sleeper gives up lies outside the state of the scheduler. *)
Class LensApart {S A B} (la : lens S A) (lb : lens S B) := {
  apart_l (b : B) (s : S) : lget la (lset lb b s) = lget la s;
  apart_r (a : A) (s : S) : lget lb (lset la a s) = lget lb s
}.

(** Whatever lies apart from both is left alone. *)
Definition same_outside {S} (lt : lens S thr) (lk : lens S spinlock) (s s' : S) : Prop :=
  ∀ B (lo : lens S B), LensApart lo lt → LensApart lo lk → lget lo s' = lget lo s.

(** [thread_sleep] hands over to the head of the queue with the lock released
    and the caller asleep on [chan]; once resumed, it clears the channel and
    takes the lock again, for ever if somebody holds it. *)
Definition sleeps_to {S} (lt : lens S thr) (lk : lens S spinlock) (s : S) (cur chan new : Z)
    (rest : list Z) (t : K S unit) : Prop :=
  ∃ s' k, t = KSwitch cur new s' k
    ∧ unlocked (lget lk s') ∧ sched_ok (lget lt s') new rest
    ∧ t_vm (lget lt s') = t_vm (lget lt s)
    ∧ tcbs_are (lget lt s') (upd new (set_state TSTATE_RUN)
                               (upd cur (sleep_tcb chan) (tcb (lget lt s))))
    ∧ same_outside lt lk s s'
    ∧ ∀ s'' ready, sched_ok (lget lt s'') cur ready →
        if decide (unlocked (lget lk s'')) then
          ∃ s3, k s'' = KRet tt s3 ∧ sched_ok (lget lt s3) cur ready ∧ lget lk s3 = locked
            ∧ t_vm (lget lt s3) = t_vm (lget lt s'')
            ∧ tcbs_are (lget lt s3) (upd cur (set_channel 0) (tcb (lget lt s'')))
            ∧ same_outside lt lk s'' s3
        else k s'' = KErr (Deadlock "lk").

(** The update of a TCB that keeps its state and links. *)
Lemma sched_core_put s cur ready pid f :
  (∀ t, prev (f t) = prev t ∧ next (f t) = next t) → (∀ t, state (f t) = state t) →
  sched_core s cur ready → sched_core (put pid f s) cur ready.
Proof.
  intros Hf Hst [Hcur Hlv Hq Hrd Hall Hsl Hnc].
  assert (∀ x, state (tcb (put pid f s) x) = state (tcb s x)) as E.
  { intros x. unfold put. thr_simpl. rewrite aget_insert. case_decide; [subst|done]. apply Hst. }
  split; [done|done|by apply queue_rep_upd|..|done]; intros x; rewrite E; [apply Hrd|apply Hall|apply Hsl].
Qed.

Definition wake_up_sleeper (curid : Z) : M thr unit :=
  _ ← sched_lk_acquire; _ ← tcb_set_chan curid 0; sched_lk_release.

Lemma wp_wake_up_sleeper s cur ready Q :
  sched_ok s cur ready →
  (∀ s', sched_ok s' cur ready → t_vm s' = t_vm s →
     tcbs_are s' (upd cur (set_channel 0) (tcb s)) → Q tt s') →
  wp (wake_up_sleeper cur) Q s.
Proof.
  intros [Hc Hlk] HQ. unfold wake_up_sleeper, sched_lk_acquire, sched_lk_release.
  assert (is_pid cur) as Hp by apply Hc. unfold is_pid in Hp.
  wp_step. wp_step. wp_lock. wp_go. wp_lock. apply HQ; [|done|].
  - split; [|done]. apply sched_core_lk.
    apply (sched_core_put (lset l_sched_lk locked s) cur ready cur (set_channel 0)); [done|done|].
    by apply sched_core_lk.
  - eapply are_same; [|apply (are_upd s cur (set_channel 0)), are_refl]. done.
Qed.

Lemma lift_Ok {S T A} (l : lens S T) (m : M T A) s a t :
  m (lget l s) = Ok (a, t) → lift l m s = Ok (a, lset l t s).
Proof. unfold lift. by intros ->. Qed.

Lemma acquire_Ok name lk : unlocked lk → spinlock_acquire name lk = Ok (tt, locked).
Proof. destruct lk as [h l]. unfold unlocked. cbn. by intros ->. Qed.

Lemma acquire_Err name lk : ¬ unlocked lk → spinlock_acquire name lk = Err (Deadlock name).
Proof.
  destruct lk as [h l]. unfold unlocked. cbn. intros Hl.
  unfold spinlock_acquire, spinlock_acquire_A, xchg_lock, mbind, M_bind, gets, modify.
  cbn [lock lock_holder mret M_ret]. by rewrite (proj2 (Z.eqb_neq l 0)).
Qed.

Lemma thread_sleep_sleeps {S} (lt : lens S thr) (lk : lens S spinlock)
    `{!LensOk lt, !LensOk lk, !LensApart lt lk} s cur chan new rest :
  sched_ok (lget lt s) cur (new :: rest) →
  sleeps_to lt lk s cur chan new rest (thread_sleep lt chan (Some lk) s).
Proof.
  intros [Hc Hl]. unfold thread_sleep.
  rewrite (kbind_run _ _ _ cur s)
    by (unfold lift; cbn; rewrite (si_cur _ _ _ Hc), lset_lget; done).
  cbn iota. set (t1 := lset l_sched_lk locked (lget lt s)).
  rewrite (kbind_run _ _ _ tt (lset lt t1 s))
    by (by apply lift_Ok, lift_Ok, acquire_Ok).
  rewrite (kbind_run _ _ _ tt (lset lk released (lset lt t1 s)))
    by (by apply lift_Ok).
  set (s2 := lset lk released (lset lt t1 s)).
  assert (lget lt s2 = t1) as E2 by by unfold s2; rewrite apart_l, lget_lset.
  destruct (wp_run (sleep_pick cur chan) (λ n t, n = new ∧ sched_ok t new rest
    ∧ t_vm t = t_vm t1 ∧ tcbs_are t (upd new (set_state TSTATE_RUN)
        (upd cur (sleep_tcb chan) (tcb t1)))) t1) as (n & t3 & Hrun & -> & Hok3 & Hvm3 & Hg3).
  { apply (wp_sleep_pick t1 cur chan new rest); [by apply sched_core_lk|]. naive_solver. }
  rewrite (kbind_run _ _ _ new (lset lt t3 s2)) by (apply lift_Ok; by rewrite E2).
  assert (is_pid cur) as Hpc by apply Hc. assert (is_pid new) as Hpn by apply Hok3.
  unfold mbind at 1, KM_bind at 1, klift. rewrite kctx_switch_eq by done.
  cbn [klift_tree kbind]. do 2 eexists. split; [reflexivity|].
  rewrite !lget_lset, !apart_r. unfold s2 at 1. rewrite lget_lset.
  split_and!; [done|done|done|done| |].
  { intros B lo Ht Hk. unfold s2. by rewrite !apart_l. }
  intros s'' ready Hok.
  set (s4 := lset lt (lget lt s'') s''). assert (s4 = s'') as E4 by apply lset_lget.
  destruct (wp_run (wake_up_sleeper cur) (λ _ t, sched_ok t cur ready
    ∧ t_vm t = t_vm (lget lt s'') ∧ tcbs_are t (upd cur (set_channel 0) (tcb (lget lt s''))))
    (lget lt s'')) as ([] & t5 & Hrun5 & Hok5 & Hvm5 & Hg5).
  { apply (wp_wake_up_sleeper _ cur ready); [done|]. naive_solver. }
  rewrite E4, (kbind_run _ _ _ tt (lset lt t5 s'')) by (by apply lift_Ok).
  case_decide as Hlk.
  2: { apply run_Err. unfold lift. by rewrite apart_r, acquire_Err. }
  exists (lset lk locked (lset lt t5 s'')). split; [|rewrite apart_l, !lget_lset; split_and!; try done;
            intros B lo Ht Hk; by rewrite !apart_l].
  apply run_Ok, lift_Ok, acquire_Ok. by rewrite apart_r.
Qed.

(** The state after [n] threads in a row have yielded. *)
Fixpoint yields (n : nat) (s : thr) : option thr :=
  match n with
  | O => Some s
  | S n => match thread_yield s with
           | KRet _ s' | KSwitch _ _ s' _ => yields n s'
           | KErr _ => None
           end
  end.

Lemma yields_take n s cur ready p :
  sched_ok s cur ready → ready !! n = Some p →
  ∃ s', yields (S n) s = Some s'
    ∧ sched_ok s' p (drop (S n) ready ++ cur :: take n ready).
Proof.
  revert s cur ready. induction n as [|n IH]; intros s cur [|x l] Hok Hp; try done.
  - cbn in Hp. injection Hp as ->. destruct (thread_yield_yields _ _ _ Hok) as (s' & k & E & _ & Hok' & _).
    exists s'. change (yields 1 s) with (match thread_yield s with
      | KRet _ s' | KSwitch _ _ s' _ => Some s' | KErr _ => None end). by rewrite E.
  - destruct (thread_yield_yields _ _ _ Hok) as (s1 & k & E & _ & Hok' & _).
    assert ((l ++ [cur]) !! n = Some p) as Hp1 by by apply lookup_app_l_Some.
    destruct (IH s1 x (l ++ [cur]) Hok' Hp1) as (s' & E' & Hok2). exists s'.
    change (yields (S (S n)) s) with (match thread_yield s with
      | KRet _ s' | KSwitch _ _ s' _ => yields (S n) s' | KErr _ => None end).
    rewrite E, E'. split; [done|]. cbn in Hp. apply lookup_lt_Some in Hp.
    change (drop (S (S n)) (x :: l)) with (drop (S n) l).
    change (take (S n) (x :: l)) with (x :: take n l).
    rewrite drop_app_le, take_app_le in Hok2 by lia. by rewrite <- app_assoc in Hok2.
Qed.

(** C34: No starvation.  The thread at position [n] of the ready queue is the
    one that runs after [n + 1] yields, and by then the threads that were before
    it have each run once and wait behind the others. *)
Theorem ready_thread_gets_its_turn n s cur ready p :
  sched_ok s cur ready → ready !! n = Some p →
  ∃ s', yields (S n) s = Some s'
    ∧ sched_ok s' p (drop (S n) ready ++ cur :: take n ready).
Proof. apply yields_take. Qed.

(** Sleeping hands the processor to the oldest ready thread, with the
    caller's lock released and the caller recorded asleep on its channel; when it
    is resumed it clears the channel and returns holding the lock, or never if
    the lock is held by somebody who does not give it back. *)
Theorem thread_sleep_correct {S} (lt : lens S thr) (lk : lens S spinlock)
    `{!LensOk lt, !LensOk lk, !LensApart lt lk} s cur chan new rest :
  sched_ok (lget lt s) cur (new :: rest) →
  sleeps_to lt lk s cur chan new rest (thread_sleep lt chan (Some lk) s).
Proof. by apply thread_sleep_sleeps. Qed.


(** C36: Spawning.  Within the parent's quota and number of children, the new
    thread gets a fresh id, a container with the quota asked for, a context that
    starts at [entry] on its own stack, and the last place of the ready queue. *)
Theorem thread_spawn_correct kstack_hi s cur ready entry id q :
  sched_ok s cur ready → cont_ok (v_cont (t_vm s)) → can_split s id q →
  ∃ s', thread_spawn kstack_hi entry id q s = Ok (child_of s id, s')
    ∧ ¬ live s (child_of s id)
    ∧ sched_ok s' cur (ready ++ [child_of s id])
    ∧ t_vm s' = lset l_v_cont (split_cont s id q) (t_vm s) ∧ cont_ok (v_cont (t_vm s'))
    ∧ tcbs_are s' (upd (child_of s id) (set_state TSTATE_READY) (tcb s))
    ∧ k_eip (aget (kctx_pool s') (child_of s id)) = entry
    ∧ k_esp (aget (kctx_pool s') (child_of s id)) = kstack_hi (child_of s id).
Proof.
  intros Hok Hc Hsp. pose proof (child_not_live _ _ _ Hc Hsp) as Hnl.
  apply wp_run_val. apply (wp_thread_spawn kstack_hi s cur ready); [done|done|done|].
  intros s' pid -> ? ? ? ? ? ?. split; [done|]. by split_and!.
Qed.

(** ** Concrete states *)

(** Process 0 runs, 1 and 2 wait in this order, 3 sleeps on channel 100. *)
Definition sample_sched : thr :=
  let c := Container 7 0 0 0 1 in
  Thr (Vm (Cont (sample_pmm 10 1 [2; 3]) (<[0 := c]> (<[1 := c]> (<[2 := c]> (<[3 := c]> ∅)))))
         ∅ released 0 true)
    (<[0 := Tcb TSTATE_RUN 64 64 0 ∅ 0 zero]> (<[1 := Tcb TSTATE_READY 64 2 0 ∅ 0 zero]>
      (<[2 := Tcb TSTATE_READY 1 64 0 ∅ 0 zero]> (<[3 := Tcb TSTATE_SLEEP 64 64 100 ∅ 0 zero]> ∅))))
    (<[(0, 64) := Tq 1 2]> ∅) (<[0 := 0]> ∅) ∅ ∅ released.

Lemma sample_sched_ok : sched_ok sample_sched 0 [1; 2].
Proof.
  split; [|done].
  assert (∀ x, live sample_sched x → x = 0 ∨ x = 1 ∨ x = 2 ∨ x = 3) as Hl.
  { intros x [_ H]. unfold sample_sched in H. cbn in H. rewrite !aget_insert in H.
    repeat case_decide; subst; auto; done. }
  split; [done|done| |..].
  - split; try done.
    + apply (bool_decide_unpack _). by vm_compute.
    + by repeat constructor.
  - intros x. rewrite !elem_of_cons, elem_of_nil. intros [-> |[-> |[]]]; done.
  - intros x [-> |[-> |[-> | ->]]]%Hl Hx Hs; [done|left|right; left|done].
  - intros x _ _. unfold sample_sched, tcb. cbn [TCBPool]. rewrite !aget_insert.
    repeat case_decide; subst; done.
  - by rewrite !elem_of_cons, elem_of_nil; intros [?|[?|[]]].
Qed.

Lemma ready_thread_gets_its_turn_witness :
  ∃ s', yields 2 sample_sched = Some s' ∧ sched_ok s' 2 [0; 1].
Proof.
  exact (ready_thread_gets_its_turn 1 sample_sched 0 [1; 2] 2 sample_sched_ok eq_refl).
Defined.

Definition l_fst {A B} : lens (A * B) A := Lens fst (λ a p, (a, p.2)).
Definition l_snd {A B} : lens (A * B) B := Lens snd (λ b p, (p.1, b)).

#[export] Instance l_fst_ok {A B} : LensOk (l_fst (A:=A) (B:=B)).
Proof. split; [done|done|by intros []]. Qed.
#[export] Instance l_snd_ok {A B} : LensOk (l_snd (A:=A) (B:=B)).
Proof. split; [done|done|by intros []]. Qed.
#[export] Instance l_fst_snd {A B} : LensApart (l_fst (A:=A) (B:=B)) l_snd.
Proof. by split. Qed.


(** Process 0 alone, with 7 pages of quota. *)
Definition sample_root : thr :=
  Thr (Vm sample_cont ∅ released 0 true) (<[0 := Tcb TSTATE_RUN 64 64 0 ∅ 0 zero]> ∅)
    (<[(0, 64) := Tq 64 64]> ∅) (<[0 := 0]> ∅) ∅ ∅ released.

Lemma sample_root_ok : sched_ok sample_root 0 [].
Proof.
  split; [|done]. split; [done|done| |..].
  - by split; [..|constructor|constructor].
  - by intros x ?%elem_of_nil.
  - intros x [_ H] Hx _. unfold sample_root, sample_cont in H. cbn in H.
    rewrite aget_insert in H. by case_decide.
  - intros x _ Hx. unfold sample_root, tcb. cbn [TCBPool]. rewrite aget_insert. by case_decide.
  - by intros ?%elem_of_nil.
Qed.

Lemma thread_spawn_correct_witness :
  ∃ s', thread_spawn (λ pid, 4096 * (pid + 1)) 1000 0 3 sample_root = Ok (1, s')
    ∧ sched_ok s' 0 [1] ∧ k_eip (aget (kctx_pool s') 1) = 1000 ∧ k_esp (aget (kctx_pool s') 1) = 8192.
Proof.
  destruct (thread_spawn_correct (λ pid, 4096 * (pid + 1)) sample_root 0 [] 1000 0 3)
    as (s' & E & _ & Hok & _ & _ & _ & Hip & Hsp).
  - exact sample_root_ok.
  - exact sample_cont_ok.
  - unfold can_split. by vm_compute.
  - exists s'. split; [exact E|]. split; [exact Hok|]. by split.
Defined.

(** A process that sleeps while nobody is ready makes the kernel write outside
    its pool of TCBs. *)
Lemma sleep_alone_out_of_bounds :
  thread_sleep l_fst 100 (Some l_snd) (sample_root, locked) = KErr (OutOfBounds "TCBPool" 64).
Proof. by vm_compute. Qed.
