(* ===== verification/Signal.v ===== *)
(** * Signals (kern/trap: TSyscallArg, the signal calls of TSyscall, the signal
    delivery of TTrapHandler)

    How a signal becomes pending, how the kernel delivers it on the way back to
    user mode or ends the process, and how the handler's return restores the
    interrupted context. *)

From S2P Require Import Prelude Memory Resume Spinlock PhysMap Pmm Container PageTable Isolation.
From S2P Require Import UserCopy Tcb TQueue Thread.

(** ** The trap frame (kern/lib/trap.h), without its padding *)

Record tf_t := Tf {
  edi : Z; esi : Z; ebp : Z; oesp : Z; ebx : Z; edx : Z; ecx : Z; eax : Z;
  es : Z; ds : Z; trapno : Z;
  err : Z; eip : Z; cs : Z; eflags : Z; esp : Z; ss : Z
}.

#[export] Instance zeroed_tf : Zeroed tf_t := Tf 0 0 0 0 0 0 0 0 0 0 0 0 0 0 0 0 0.

#[export] Instance tf_eq_dec : EqDecision tf_t.
Proof. solve_decision. Defined.

Definition set_eax (v : Z) (t : tf_t) : tf_t :=
  Tf (edi t) (esi t) (ebp t) (oesp t) (ebx t) (edx t) (ecx t) v (es t) (ds t) (trapno t)
    (err t) (eip t) (cs t) (eflags t) (esp t) (ss t).
Definition set_ebx (v : Z) (t : tf_t) : tf_t :=
  Tf (edi t) (esi t) (ebp t) (oesp t) v (edx t) (ecx t) (eax t) (es t) (ds t) (trapno t)
    (err t) (eip t) (cs t) (eflags t) (esp t) (ss t).
Definition set_ecx (v : Z) (t : tf_t) : tf_t :=
  Tf (edi t) (esi t) (ebp t) (oesp t) (ebx t) (edx t) v (eax t) (es t) (ds t) (trapno t)
    (err t) (eip t) (cs t) (eflags t) (esp t) (ss t).
Definition set_edx (v : Z) (t : tf_t) : tf_t :=
  Tf (edi t) (esi t) (ebp t) (oesp t) (ebx t) v (ecx t) (eax t) (es t) (ds t) (trapno t)
    (err t) (eip t) (cs t) (eflags t) (esp t) (ss t).
Definition set_esi (v : Z) (t : tf_t) : tf_t :=
  Tf (edi t) v (ebp t) (oesp t) (ebx t) (edx t) (ecx t) (eax t) (es t) (ds t) (trapno t)
    (err t) (eip t) (cs t) (eflags t) (esp t) (ss t).
Definition set_edi (v : Z) (t : tf_t) : tf_t :=
  Tf v (esi t) (ebp t) (oesp t) (ebx t) (edx t) (ecx t) (eax t) (es t) (ds t) (trapno t)
    (err t) (eip t) (cs t) (eflags t) (esp t) (ss t).
(** [tf->esp = esp; tf->eip = eip] *)
Definition set_esp_eip (new_esp new_eip : Z) (t : tf_t) : tf_t :=
  Tf (edi t) (esi t) (ebp t) (oesp t) (ebx t) (edx t) (ecx t) (eax t) (es t) (ds t) (trapno t)
    (err t) new_eip (cs t) (eflags t) new_esp (ss t).

(** ** TSyscallArg.c *)

Definition syscall_get_arg1 (t : tf_t) : Z := eax t.
Definition syscall_get_arg2 (t : tf_t) : Z := ebx t.
Definition syscall_get_arg3 (t : tf_t) : Z := ecx t.
Definition syscall_get_arg4 (t : tf_t) : Z := edx t.
Definition syscall_get_arg5 (t : tf_t) : Z := esi t.
Definition syscall_get_arg6 (t : tf_t) : Z := edi t.
Definition syscall_set_errno (t : tf_t) (errno : Z) : tf_t := set_eax errno t.
Definition syscall_set_retval1 (t : tf_t) (retval : Z) : tf_t := set_ebx retval t.
Definition syscall_set_retval2 (t : tf_t) (retval : Z) : tf_t := set_ecx retval t.
Definition syscall_set_retval3 (t : tf_t) (retval : Z) : tf_t := set_edx retval t.
Definition syscall_set_retval4 (t : tf_t) (retval : Z) : tf_t := set_esi retval t.
Definition syscall_set_retval5 (t : tf_t) (retval : Z) : tf_t := set_edi retval t.

(** kern/lib/syscall.h *)
Definition SYS_sigreturn : Z := 28.
Definition E_SUCC : Z := 0.
Definition E_MEM : Z := 1.
Definition E_INVAL_ADDR : Z := 4.
Definition E_INVAL_PID : Z := 5.
Definition E_INVAL_SIGNUM : Z := 30.

(** Where the kernel keeps what it copies from and to user memory: the locals of
    the handlers, on the kernel stack of the process, and the TCBs. *)
Class Frames `{L : Layout} := {
  local_addr : string → Z → Z;
  sigaction_addr : Z → Z → Z;
  local_ok v pid : 0 ≤ pid < NUM_IDS → kernel_buf (local_addr v pid) 32;
  sigaction_ok pid signum :
    0 ≤ pid < NUM_IDS → 0 ≤ signum < NSIG → kernel_buf (sigaction_addr pid signum) 20
}.

Section Signal.
Context `{F : Frames}.

(** The bytes of an initialised object, at its place in kernel memory. *)
Definition place (a : Z) (bs : list Z) : M vm unit :=
  modify (λ s, set_mem (write_bytes (v_mem s) a bs) s).

Definition word_bytes (v : Z) : list Z := [byte_of v 0; byte_of v 1; byte_of v 2; byte_of v 3].

(** [pt_copyout(&x, pid, uva, n)] for an object with the bytes [bs] at [a]. *)
Definition copyout_bytes (a : Z) (bs : list Z) (pid uva : Z) : M thr Z :=
  lift l_t_vm (_ ← place a bs; pt_copyout a pid uva (Z.of_nat (length bs))).

Definition sigaction_bytes (sa : sigaction) : list Z :=
  word_bytes (sa_handler sa) ++ word_bytes (sa_sigaction sa) ++ word_bytes (sa_flags sa)
  ++ word_bytes (sa_restorer sa) ++ word_bytes (sa_mask sa).

Definition read_sigaction (m : mem) (a : Z) : sigaction :=
  Sigaction (read32 m a) (read32 m (a + 4)) (read32 m (a + 8)) (read32 m (a + 12))
    (read32 m (a + 16)).

(** ** The signal calls of TSyscall.c *)

Definition sys_sigaction (t : tf_t) : M thr tf_t :=
  let signum := s32 (syscall_get_arg2 t) in
  let user_act := syscall_get_arg3 t in
  let user_oldact := syscall_get_arg4 t in
  cur_pid ← get_curid;
  if (signum <? 1) || (NSIG <=? signum) then mret (syscall_set_errno t E_INVAL_SIGNUM)
  else
    _ ← (if negb (user_oldact =? 0) then
           cur_act ← tcb_get_sigaction cur_pid signum;
           match cur_act with
           | Some a =>
             _ ← copyout_bytes (sigaction_addr cur_pid signum) (sigaction_bytes a) cur_pid
                   user_oldact;
             mret tt
           | None => mret tt
           end
         else mret tt);
    _ ← (if negb (user_act =? 0) then
           let kern_act := local_addr "kern_act" cur_pid in
           _ ← lift l_t_vm (pt_copyin cur_pid user_act kern_act 20);
           act ← gets (λ s, read_sigaction (v_mem (t_vm s)) kern_act);
           tcb_set_sigaction cur_pid signum (Some act)
         else mret tt);
    mret (syscall_set_errno t E_SUCC).

Definition sys_kill (t : tf_t) : M thr tf_t :=
  let pid := s32 (syscall_get_arg2 t) in
  let signum := s32 (syscall_get_arg3 t) in
  if (signum <? 1) || (NSIG <=? signum) then mret (syscall_set_errno t E_INVAL_SIGNUM)
  else
    bad ← (if (pid <? 0) || (NUM_IDS <=? pid) then mret true
           else st ← tcb_get_state pid; mret (st =? TSTATE_DEAD));
    if (bad : bool) then mret (syscall_set_errno t E_INVAL_PID)
    else if signum =? SIGKILL then
      st ← tcb_get_state pid;
      _ ← (if st =? TSTATE_READY then tqueue_remove NUM_IDS pid else mret tt);
      _ ← tcb_set_state pid TSTATE_DEAD;
      _ ← tcb_set_pending_signals pid 0;
      mret (syscall_set_errno t E_SUCC)
    else
      _ ← tcb_add_pending_signal pid signum;
      sl ← tcb_is_sleeping pid;
      _ ← (if negb (sl =? 0) then
             chan ← tcb_get_channel pid;
             if negb (chan =? 0) then thread_wakeup chan else mret tt
           else mret tt);
      mret (syscall_set_errno t E_SUCC).

Definition sys_pause (t : tf_t) : KM thr tf_t :=
  cur_pid ← run get_curid;
  p ← run (tcb_get_pending_signals cur_pid);
  if negb (p =? 0) then mret (syscall_set_errno t E_SUCC)
  else
    _ ← run (tcb_set_state cur_pid TSTATE_SLEEP);
    _ ← thread_yield;
    mret (syscall_set_errno t E_SUCC).

Definition sys_sigreturn (t : tf_t) : M thr tf_t :=
  cur_pid ← get_curid;
  '(saved_esp_addr, saved_eip_addr) ← tcb_get_signal_context cur_pid;
  if (saved_esp_addr =? 0) || (saved_eip_addr =? 0) then
    mret (syscall_set_errno t E_INVAL_ADDR)
  else
    let a_esp := local_addr "saved_esp" cur_pid in
    n1 ← lift l_t_vm (pt_copyin cur_pid saved_esp_addr a_esp 4);
    if negb (n1 =? 4) then mret (syscall_set_errno t E_MEM)
    else
      saved_esp ← gets (λ s, read32 (v_mem (t_vm s)) a_esp);
      let a_eip := local_addr "saved_eip" cur_pid in
      n2 ← lift l_t_vm (pt_copyin cur_pid saved_eip_addr a_eip 4);
      if negb (n2 =? 4) then mret (syscall_set_errno t E_MEM)
      else
        saved_eip ← gets (λ s, read32 (v_mem (t_vm s)) a_eip);
        _ ← tcb_clear_signal_context cur_pid;
        mret (syscall_set_errno (set_esp_eip saved_esp saved_eip t) E_SUCC).

(** ** Delivery, in TTrapHandler.c *)

Definition trampoline : list Z :=
  [184; SYS_sigreturn; 0; 0; 0; 205; 48; 235; 254; 144; 144; 144].

Definition deliver_signal (t : tf_t) (signum : Z) : M thr tf_t :=
  cur_pid ← get_curid;
  sa ← tcb_get_sigaction cur_pid signum;
  match sa with
  | Some act =>
    if negb (sa_handler act =? 0) then
      let orig_esp := esp t in
      let orig_eip := eip t in
      let new_esp := u32 (orig_esp - 4) in
      _ ← copyout_bytes (local_addr "orig_eip" cur_pid) (word_bytes orig_eip) cur_pid new_esp;
      let saved_eip_addr := new_esp in
      let new_esp := u32 (new_esp - 4) in
      _ ← copyout_bytes (local_addr "orig_esp" cur_pid) (word_bytes orig_esp) cur_pid new_esp;
      let saved_esp_addr := new_esp in
      let new_esp := u32 (new_esp - 12) in
      _ ← copyout_bytes (local_addr "trampoline" cur_pid) trampoline cur_pid new_esp;
      let trampoline_addr := new_esp in
      let new_esp := Z.land new_esp (u32 (Z.lnot 3)) in
      let new_esp := u32 (new_esp - 4) in
      _ ← copyout_bytes (local_addr "sig_arg" cur_pid) (word_bytes signum) cur_pid new_esp;
      let new_esp := u32 (new_esp - 4) in
      _ ← copyout_bytes (local_addr "trampoline_addr" cur_pid) (word_bytes trampoline_addr)
            cur_pid new_esp;
      _ ← tcb_set_signal_context cur_pid saved_esp_addr saved_eip_addr;
      mret (set_esp_eip new_esp (sa_handler act) t)
    else mret t
  | None => mret t
  end.

Definition terminate_process (pid : Z) : M thr unit :=
  st ← tcb_get_state pid;
  _ ← (if st =? TSTATE_READY then tqueue_remove NUM_IDS pid else mret tt);
  _ ← tcb_set_state pid TSTATE_DEAD;
  tcb_set_pending_signals pid 0.

(** The body of the loop for a pending signal; each way through it leaves the
    loop. *)
Definition serve_signal (signum cur_pid : Z) (t : tf_t) : KM thr tf_t :=
  _ ← run (tcb_clear_pending_signal cur_pid signum);
  if signum =? SIGKILL then
    _ ← run (terminate_process cur_pid);
    _ ← thread_exit;
    mret t
  else
    sa ← run (tcb_get_sigaction cur_pid signum);
    let registered :=
      match sa with Some act => negb (sa_handler act =? 0) | None => false end in
    if (registered : bool) then run (deliver_signal t signum)
    else
      _ ← run (terminate_process cur_pid);
      _ ← thread_exit;
      mret t.

(** The loop of [handle_pending_signals] from [signum] on, [n] more turns. *)
Fixpoint pending_loop (n : nat) (signum cur_pid pending_signals : Z) (t : tf_t) : KM thr tf_t :=
  match n with
  | O => mret t
  | S n =>
    if negb (Z.land pending_signals (u32 (Z.shiftl 1 signum)) =? 0)
    then serve_signal signum cur_pid t
    else pending_loop n (signum + 1) cur_pid pending_signals t
  end.

Definition handle_pending_signals (t : tf_t) : KM thr tf_t :=
  cur_pid ← run get_curid;
  pending_signals ← run (tcb_get_pending_signals cur_pid);
  if negb (pending_signals =? 0)
  then pending_loop (Z.to_nat (NSIG - 1)) 1 cur_pid pending_signals t
  else mret t.

(** ** Lemmas: pushing on the user stack *)

Lemma word_bytes_lookup v k : 0 ≤ k < 4 → nth (Z.to_nat k) (word_bytes v) 0 = byte_of v k.
Proof.
  intros Hk. assert (k = 0 ∨ k = 1 ∨ k = 2 ∨ k = 3) as [-> |[-> |[-> | ->]]] by lia; done.
Qed.

Lemma u8_byte_of v k : u8 (byte_of v k) = byte_of v k.
Proof. apply u8_u8. Qed.

Lemma place_ucopy a bs s :
  vm_ok s → kernel_buf a (Z.of_nat (length bs)) →
  ucopy nowhere nowhere (kernel_range a (a + Z.of_nat (length bs))) s
    (set_mem (write_bytes (v_mem s) a bs) s).
Proof.
  intros Hok [_ Hkb]. apply kernel_write; [done| |].
  - intros x Hx. replace x with (a + (x - a)) by lia. apply Hkb. lia.
  - intros x Hx. rewrite read8_write_bytes. by rewrite decide_False.
Qed.

Lemma wp_copyout_bytes a bs pid uva Q s :
  vm_ok (t_vm s) → user_pid pid → kernel_buf a (Z.of_nat (length bs)) →
  0 ≤ uva → uva + Z.of_nat (length bs) < two32 →
  (∀ r v', ucopy (touched pid uva (uva + Z.of_nat (length bs)))
             (within pid uva (uva + Z.of_nat (length bs)))
             (kernel_range a (a + Z.of_nat (length bs))) (t_vm s) v' →
     (∀ k, in_user uva (Z.of_nat (length bs)) → 0 ≤ k < Z.of_nat (length bs) →
        uread (v_mem v') pid (uva + k) = Some (u8 (nth (Z.to_nat k) bs 0))
        ∨ uread (v_mem v') pid (uva + k) = None) →
     Q r (lset l_t_vm v' s)) →
  wp (copyout_bytes a bs pid uva) Q s.
Proof.
  intros Hok Hpid Hkb Hlo Hhi HQ. unfold copyout_bytes, place. wp_step. wp_steps. cbn [lget l_t_vm].
  set (n := Z.of_nat (length bs)) in *.
  pose proof (place_ucopy a bs (t_vm s) Hok Hkb) as Hpl. fold n in Hpl.
  set (v1 := set_mem _ _) in *.
  destruct (decide (in_user uva n)) as [Hin|Hin].
  - apply wp_pt_copyout; [apply Hpl|done|done|done|]. intros v2 Huc Hrd. apply HQ.
    + eapply ucopy_trans; [exact Hpl|exact Huc|..]; try done; by intros ? ? [].
    + intros k _ Hk. destruct (Hrd k Hk) as [->|?]; [left|by right]. f_equal.
      unfold v1. cbn [v_mem set_mem]. rewrite read8_write_bytes, decide_True by lia.
      by replace (a + k - a) with k by lia.
  - unfold pt_copyout. replace (_ && _) with false; cbn [negb].
    + wp_step. apply HQ; [|done]. eapply (ucopy_trans nowhere nowhere nowhere nowhere);
        [exact Hpl|apply (ucopy_refl nowhere nowhere (λ _, False)), Hpl|..]; try done;
        by intros ? ? [].
    + symmetry. apply andb_false_iff. rewrite !Z.leb_gt, u32_small by (unfold is_u32; lia).
      unfold in_user in Hin. lia.
Qed.

(** The word [v] at [va] in the memory of [pid]. *)
Definition uword (m : mem) (pid va v : Z) : Prop :=
  ∀ k, 0 ≤ k < 4 → uread m pid (va + k) = Some (byte_of v k).

Definition mapped (m : mem) (pid lo hi : Z) : Prop :=
  ∀ va, lo ≤ va < hi → uread m pid va ≠ None.

Lemma ucopy_mapped T W K pid lo hi s s' :
  ucopy T W K s s' → user_pid pid → VM_USERLO ≤ lo → hi ≤ VM_USERHI →
  mapped (v_mem s) pid lo hi → mapped (v_mem s') pid lo hi.
Proof.
  intros Huc Hpid Hlo Hhi Hm va Hva. specialize (Hm va Hva). unfold uread in *.
  destruct (present (va_entry (v_mem s) pid va)) eqn:Hp; [|done].
  by rewrite (uc_present _ _ _ _ _ Huc) by (done || unfold user_va; lia); rewrite Hp.
Qed.

(** The list [bs] at [va]. *)
Definition ubytes (m : mem) (pid va : Z) (bs : list Z) : Prop :=
  ∀ k, 0 ≤ k < Z.of_nat (length bs) → uread m pid (va + k) = Some (u8 (nth (Z.to_nat k) bs 0)).

Lemma ubytes_word m pid va v : ubytes m pid va (word_bytes v) → uword m pid va v.
Proof.
  intros H k Hk. rewrite H by done. by rewrite word_bytes_lookup, u8_byte_of by done.
Qed.

Lemma ubytes_frame T pid0 lo hi K m pid va bs s s' :
  ucopy T (within pid0 lo hi) K s s' → m = v_mem s → user_pid pid →
  VM_USERLO ≤ va → va + Z.of_nat (length bs) ≤ VM_USERHI →
  va + Z.of_nat (length bs) ≤ lo ∨ hi ≤ va →
  ubytes m pid va bs → ubytes (v_mem s') pid va bs.
Proof.
  intros Huc -> Hpid Hlo Hhi Hd Hb k Hk. eapply (uc_uread _ _ _ _ _ Huc); [done| | |by apply Hb].
  - unfold user_va. lia.
  - unfold within. intros [_ ?]. lia.
Qed.

(** One push onto a mapped stack. *)
Lemma wp_push a bs pid uva lo hi Q s :
  vm_ok (t_vm s) → user_pid pid → kernel_buf a (Z.of_nat (length bs)) →
  0 ≤ uva → uva + Z.of_nat (length bs) < two32 →
  (∀ r v', ucopy (touched pid uva (uva + Z.of_nat (length bs)))
             (within pid uva (uva + Z.of_nat (length bs)))
             (kernel_range a (a + Z.of_nat (length bs))) (t_vm s) v' →
     (VM_USERLO ≤ lo → hi ≤ VM_USERHI → lo ≤ uva → uva + Z.of_nat (length bs) ≤ hi →
      mapped (v_mem (t_vm s)) pid lo hi →
      mapped (v_mem v') pid lo hi ∧ ubytes (v_mem v') pid uva bs) →
     Q r (lset l_t_vm v' s)) →
  wp (copyout_bytes a bs pid uva) Q s.
Proof.
  intros Hok Hpid Hkb Hlo Hhi HQ. apply wp_copyout_bytes; [done..|].
  intros r v' Huc Hrd. apply HQ; [done|]. intros H1 H2 H3 H4 Hm.
  assert (mapped (v_mem v') pid lo hi) as Hm' by by eapply ucopy_mapped.
  split; [done|]. intros k Hk. destruct (Hrd k) as [?|Hn]; [|done|done|].
  - unfold in_user. lia.
  - by destruct (Hm' (uva + k)); [lia|].
Qed.

(** ** Delivery *)

Lemma local_buf v pid n : user_pid pid → n ≤ 32 → kernel_buf (local_addr v pid) n.
Proof.
  intros Hpid Hn. destruct (local_ok v pid) as [H1 H2]; [unfold user_pid in *; lia|].
  split; [done|]. intros k Hk. apply H2. lia.
Qed.

(** The kernel bytes of the locals of process [pid]. *)
Definition locals (pid x : Z) : Prop :=
  ∃ v, kernel_range (local_addr v pid) (local_addr v pid + 32) x.

Lemma locals_in v pid n x :
  n ≤ 32 → kernel_range (local_addr v pid) (local_addr v pid + n) x → locals pid x.
Proof. intros Hn Hx. exists v. unfold kernel_range in *. lia. Qed.

(** Writes within [[lo, hi)] of the process and to its locals. *)
Abbreviation stack_copy pid lo hi := (ucopy (touched pid lo hi) (within pid lo hi) (locals pid)).

Lemma stack_copy_step pid lo hi a b K s1 s2 s3 :
  stack_copy pid lo hi s1 s2 →
  ucopy (touched pid a b) (within pid a b) K s2 s3 →
  lo ≤ a → b ≤ hi → (∀ x, K x → locals pid x) →
  stack_copy pid lo hi s1 s3.
Proof.
  intros H1 H2 Ha Hb HK. eapply ucopy_trans; [exact H1|exact H2|..]; try done.
  - unfold touched. intros p va (-> & Hab & Hp & Hq). split_and!; [done|lia| |lia].
    pose proof (Z.div_le_mono lo a 4096 ltac:(lia) Ha). lia.
  - unfold within. intros p va (-> & Hab). split; [done|lia].
Qed.

(** The frame [deliver_signal] builds: where the signal number is, and the new
    stack pointer. *)
Definition sig_arg_addr (sp : Z) : Z := (sp - 20) / 4 * 4 - 4.
Definition sig_frame (sp : Z) : Z := sig_arg_addr sp - 4.

Lemma sig_arg_addr_bounds sp :
  sp - 27 ≤ sig_arg_addr sp ≤ sp - 24.
Proof. unfold sig_arg_addr. Z.to_euclidean_division_equations. lia. Qed.

Lemma align4 v : is_u32 v → Z.land v (u32 (Z.lnot 3)) = v / 4 * 4.
Proof.
  intros Hv. change (u32 (Z.lnot 3)) with (Z.land (Z.lnot (Z.ones 2)) (Z.ones 32)).
  rewrite Z.land_assoc, Z.land_ones, <- Z.ldiff_land, Z.ldiff_ones_r by lia.
  rewrite Z.shiftl_mul_pow2, Z.shiftr_div_pow2 by lia. change (2 ^ 2) with 4.
  apply Z.mod_small. unfold is_u32, two32 in Hv. change (2 ^ 32) with 4294967296.
  Z.to_euclidean_division_equations. lia.
Qed.

(** A sequence of pushes onto the stack [[lo, hi)] of [pid], down to [w]. *)
Record pushed (pid lo hi w : Z) (v0 v : vm) (items : list (Z * list Z)) : Prop := {
  pd_copy : stack_copy pid lo hi v0 v;
  pd_items : VM_USERLO ≤ lo → hi ≤ VM_USERHI → mapped (v_mem v0) pid lo hi →
    mapped (v_mem v) pid lo hi
    ∧ Forall (λ it, w ≤ it.1 ∧ it.1 + Z.of_nat (length it.2) ≤ hi
                    ∧ ubytes (v_mem v) pid it.1 it.2) items
}.

Lemma pushed_nil pid lo hi v : vm_ok v → pushed pid lo hi hi v v [].
Proof. intros Hok. split; [by apply ucopy_refl|done]. Qed.

Lemma wp_push_next x bs pid uva lo hi w v0 items Q s :
  pushed pid lo hi w v0 (t_vm s) items → user_pid pid →
  (length bs ≤ 32)%nat → 0 ≤ lo → lo ≤ uva → uva + Z.of_nat (length bs) ≤ w → w ≤ hi →
  hi < two32 →
  (∀ r v', pushed pid lo hi uva v0 v' ((uva, bs) :: items) → Q r (lset l_t_vm v' s)) →
  wp (copyout_bytes (local_addr x pid) bs pid uva) Q s.
Proof.
  intros [Hc Hi] Hpid Hn H0 Hlo Hw Hhi H32 HQ.
  apply (wp_push _ _ _ _ lo hi); [apply Hc|done|apply local_buf; [done|lia]|lia|lia|].
  intros r v' Hu Hb. apply HQ. split.
  - eapply stack_copy_step; [done|exact Hu|done|lia|]. intros y. apply locals_in. lia.
  - intros H1 H2 Hm. destruct (Hi H1 H2 Hm) as [Hm1 Hall].
    destruct Hb as [Hm2 Hnew]; [done|done|done|lia|done|]. split; [done|].
    constructor; [cbn; split_and!; [lia|lia|done]|].
    eapply Forall_impl; [exact Hall|]. intros [a b] (Ha & Hb & Hub). cbn in *.
    split_and!; [lia|done|]. eapply ubytes_frame; [exact Hu|done|done|lia|lia|lia|done].
Qed.

(** What delivering [signum] does to the process: above the new stack pointer
    lie the return address (the trampoline), the signal number, the trampoline
    and the interrupted [esp] and [eip], and the TCB knows where. *)
Record sig_stack (m : mem) (cur signum sp pc : Z) : Prop := {
  ss_ret : uword m cur (sig_frame sp) (sp - 20);
  ss_arg : uword m cur (sig_arg_addr sp) signum;
  ss_tramp : ubytes m cur (sp - 20) trampoline;
  ss_esp : uword m cur (sp - 8) sp;
  ss_eip : uword m cur (sp - 4) pc
}.

Definition context_tcb (sp : Z) (t : TCB) : TCB :=
  set_sigstate (set_context (sp - 8) (sp - 4) 1 (sigstate t)) t.

Lemma wp_deliver_signal cur signum t Q s :
  let act := aget (sigactions (sigstate (tcb s cur))) signum in
  vm_ok (t_vm s) → aget (CURID s) this_cpu = cur → user_pid cur →
  1 ≤ signum < NSIG → sa_handler act ≠ 0 → 31 ≤ esp t < two32 →
  (∀ v', stack_copy cur (sig_frame (esp t)) (esp t) (t_vm s) v' →
     (VM_USERLO ≤ sig_frame (esp t) → esp t ≤ VM_USERHI →
      mapped (v_mem (t_vm s)) cur (sig_frame (esp t)) (esp t) →
      sig_stack (v_mem v') cur signum (esp t) (eip t)) →
     Q (set_esp_eip (sig_frame (esp t)) (sa_handler act) t)
       (put cur (context_tcb (esp t)) (lset l_t_vm v' s))) →
  wp (deliver_signal t signum) Q s.
Proof.
  intros act Hok Hcur Hpid Hsig Hh Hsp HQ. unfold deliver_signal.
  pose proof (sig_arg_addr_bounds (esp t)) as Harg.
  assert (is_u32 (esp t - 20)) as H20 by (unfold is_u32; lia).
  unfold two32 in Hsp. pose proof Hpid as Hpid'. unfold user_pid in Hpid'.
  wp_step. wp_tcb. rewrite Hcur. wp_step. unfold tcb_get_sigaction.
  rewrite (proj2 (Z.ltb_ge signum 0)), (proj2 (Z.leb_gt NSIG signum)) by lia. cbn [orb].
  wp_tcb. fold (tcb s cur). fold act. rewrite (proj2 (Z.eqb_neq _ _) Hh). cbn [negb].
  set (lo := sig_frame (esp t)) in *.
  rewrite !(u32_small (esp t - 4)) by (unfold is_u32, two32; lia).
  rewrite (u32_small (esp t - 4 - 4)) by (unfold is_u32, two32; lia).
  rewrite (u32_small (esp t - 4 - 4 - 12)) by (unfold is_u32, two32; lia).
  replace (esp t - 4 - 4 - 12) with (esp t - 20) by lia. replace (esp t - 4 - 4) with (esp t - 8) by lia.
  rewrite align4 by done.
  rewrite (u32_small ((esp t - 20) / 4 * 4 - 4))
    by (fold (sig_arg_addr (esp t)); unfold is_u32, two32; lia).
  fold (sig_arg_addr (esp t)). rewrite (u32_small (sig_arg_addr (esp t) - 4)) by (unfold is_u32, two32; lia).
  fold (sig_frame (esp t)). fold lo.
  assert (lo = sig_arg_addr (esp t) - 4) as Elo by done.
  pose proof (pushed_nil cur lo (esp t) (t_vm s) Hok) as Hp.
  do 5 (wp_step; eapply wp_push_next;
        [exact Hp|done|cbn; lia|lia|lia|cbn; lia|lia|unfold two32; lia|];
        clear Hp; intros ? ? Hp; cbn [lset l_t_vm t_vm TCBPool CURID] in Hp).
  wp_step. wp_tcb. wp_step. apply HQ; [apply Hp|].
  intros H1 H2 Hm. destruct (pd_items _ _ _ _ _ _ _ Hp H1 H2 Hm) as [_ Hall].
  rewrite !Forall_cons in Hall.
  destruct Hall as ((_ & _ & B1) & (_ & _ & B2) & (_ & _ & B3) & (_ & _ & B4) & (_ & _ & B5) & _).
  split; [..|done| |]; by apply ubytes_word.
Qed.

(** ** Return *)

Lemma read32_bytes m a v :
  (∀ k, 0 ≤ k < 4 → read8 m (a + k) = byte_of v k) → read32 m a = u32 v.
Proof.
  intros H. rewrite <- bytes_of_word, <- !H by lia. by rewrite Z.add_0_r.
Qed.

(** Reading a word of user memory into a local. *)
Lemma wp_fetch_word x pid va v Q s :
  vm_ok s → user_pid pid → in_user va 4 → uword (v_mem s) pid va v → is_u32 v →
  (∀ s', ucopy (touched pid va (va + 4)) nowhere (locals pid) s s' →
     read32 (v_mem s') (local_addr x pid) = v → Q 4 s') →
  wp (pt_copyin pid va (local_addr x pid) 4) Q s.
Proof.
  intros Hok Hpid Hin Hw Hv HQ. apply wp_pt_copyin; [done|done|done|by apply local_buf|].
  intros s' Huc Hrd. apply HQ.
  - eapply (ucopy_trans _ nowhere); [exact Huc|apply (ucopy_refl nowhere nowhere (λ _, False)), Huc|..];
      try done; try (by intros ? ? []). intros y. by apply locals_in.
  - rewrite (read32_bytes _ _ v); [by apply u32_small|]. intros k Hk. apply Hrd; [done|by apply Hw].
Qed.

Lemma uword_copy T K pid pid0 va v s s' :
  ucopy T nowhere K s s' → user_pid pid → in_user va 4 → pid0 = pid →
  uword (v_mem s) pid va v → uword (v_mem s') pid0 va v.
Proof.
  intros Huc Hpid (H1 & _ & H2) -> Hw k Hk.
  apply (uc_uread _ _ _ _ _ Huc); [done|unfold user_va; lia|by intros []|by apply Hw].
Qed.

Definition no_context_tcb (t : TCB) : TCB := set_sigstate (set_context 0 0 0 (sigstate t)) t.

Lemma wp_sys_sigreturn cur t sp pc a_esp a_eip Q s :
  vm_ok (t_vm s) → aget (CURID s) this_cpu = cur → user_pid cur →
  saved_esp_addr (sigstate (tcb s cur)) = a_esp → saved_eip_addr (sigstate (tcb s cur)) = a_eip →
  in_user a_esp 4 → in_user a_eip 4 → is_u32 sp → is_u32 pc →
  uword (v_mem (t_vm s)) cur a_esp sp → uword (v_mem (t_vm s)) cur a_eip pc →
  (∀ v', ucopy (λ p va, touched cur a_esp (a_esp + 4) p va ∨ touched cur a_eip (a_eip + 4) p va)
           nowhere (locals cur) (t_vm s) v' →
     Q (syscall_set_errno (set_esp_eip sp pc t) E_SUCC)
       (put cur no_context_tcb (lset l_t_vm v' s))) →
  wp (sys_sigreturn t) Q s.
Proof.
  intros Hok Hcur Hpid He Hi Hin1 Hin2 Hsp Hpc Hw1 Hw2 HQ. unfold sys_sigreturn.
  pose proof Hpid as Hp. unfold user_pid in Hp.
  wp_step. wp_tcb. rewrite Hcur. wp_step. wp_tcb. fold (tcb s cur). rewrite He, Hi.
  assert (a_esp ≠ 0 ∧ a_eip ≠ 0) as [N1 N2]
    by (destruct Hin1, Hin2; unfold VM_USERLO in *; lia).
  rewrite (proj2 (Z.eqb_neq _ _) N1), (proj2 (Z.eqb_neq _ _) N2). cbn [orb].
  wp_step. wp_step. apply (wp_fetch_word _ _ _ sp); [done..|]. intros v1 Hu1 Hr1.
  cbn [negb Z.eqb Pos.eqb]. wp_step. wp_step. thr_simpl. rewrite Hr1.
  wp_step. wp_step. apply (wp_fetch_word _ _ _ pc); [apply Hu1|done|done| |done|].
  { by eapply uword_copy. }
  intros v2 Hu2 Hr2. cbn [negb Z.eqb Pos.eqb]. wp_step. wp_step. thr_simpl. rewrite Hr2.
  wp_step. wp_tcb. wp_step. apply HQ.
  eapply ucopy_trans; [exact Hu1|exact Hu2|..]; by auto.
Qed.

(** The call restores nothing when no handler is running. *)
Lemma wp_sys_sigreturn_none cur t Q s :
  aget (CURID s) this_cpu = cur → user_pid cur →
  saved_esp_addr (sigstate (tcb s cur)) = 0 ∨ saved_eip_addr (sigstate (tcb s cur)) = 0 →
  Q (syscall_set_errno t E_INVAL_ADDR) s → wp (sys_sigreturn t) Q s.
Proof.
  intros Hcur Hpid H0 HQ. unfold sys_sigreturn. pose proof Hpid as Hp. unfold user_pid in Hp.
  wp_step. wp_tcb. rewrite Hcur. wp_step. wp_tcb. fold (tcb s cur).
  replace (_ || _) with true by (symmetry; apply orb_true_iff; rewrite !Z.eqb_eq; done).
  by wp_steps.
Qed.

(** ** The set of pending signals *)

Lemma land_bit p n : 0 ≤ n < 32 → negb (Z.land p (u32 (Z.shiftl 1 n)) =? 0) = Z.testbit p n.
Proof.
  intros Hn. rewrite Z.shiftl_mul_pow2, Z.mul_1_l by lia.
  rewrite u32_small.
  2: { split; [apply Z.pow_nonneg; lia|]. change two32 with (2 ^ 32). apply Z.pow_lt_mono_r; lia. }
  destruct (Z.testbit p n) eqn:E.
  - apply negb_true_iff, Z.eqb_neq. intros H.
    assert (Z.testbit (Z.land p (2 ^ n)) n = true) as H' by
      by rewrite Z.land_spec, E, Z.pow2_bits_true by lia.
    by rewrite H, Z.bits_0 in H'.
  - apply negb_false_iff, Z.eqb_eq. apply Z.bits_inj'. intros m Hm.
    rewrite Z.land_spec, Z.bits_0. destruct (decide (m = n)) as [->|]; [by rewrite E|].
    by rewrite Z.pow2_bits_false, andb_false_r by lia.
Qed.

(** The signal that is served: the lowest pending one from 1 on. *)
Definition lowest (pending : Z) : option Z :=
  list_find (λ n, Z.testbit pending n = true) (seqZ 1 (NSIG - 1)) ≫= λ r, Some r.2.

Lemma pending_loop_find n i cur p t :
  0 ≤ i → i + Z.of_nat n ≤ 32 →
  pending_loop n i cur p t =
  match list_find (λ n, Z.testbit p n = true) (seqZ i (Z.of_nat n)) with
  | Some (_, signum) => serve_signal signum cur t
  | None => mret t
  end.
Proof.
  revert i. induction n as [|n IH]; intros i Hi Hn; [done|].
  rewrite seqZ_cons by lia. cbn [pending_loop list_find]. rewrite land_bit by lia.
  destruct (Z.testbit p i) eqn:E; [by rewrite decide_True|].
  rewrite decide_False by done. rewrite IH by lia.
  replace (Z.succ i) with (i + 1) by lia. replace (Z.pred (Z.of_nat (S n))) with (Z.of_nat n) by lia.
  by destruct (list_find _ _) as [[]|].
Qed.

Lemma lowest_spec p n :
  lowest p = Some n ↔
  1 ≤ n < NSIG ∧ Z.testbit p n = true ∧ ∀ m, 1 ≤ m < n → Z.testbit p m = false.
Proof.
  unfold lowest. split.
  - destruct (list_find _ _) as [[i x]|] eqn:E; [|done]. cbn. intros [= ->].
    apply list_find_Some in E as (Hl & Ht & Hm). apply lookup_seqZ in Hl as [-> Hi].
    unfold NSIG in *. split_and!; [lia|lia|done|]. intros m Hmm.
    destruct (Z.testbit p m) eqn:Et; [|done]. exfalso.
    apply (Hm (Z.to_nat (m - 1)) m); [|lia|done]. apply lookup_seqZ. lia.
  - intros (Hn & Ht & Hm).
    assert (list_find (λ n, Z.testbit p n = true) (seqZ 1 (NSIG - 1))
      = Some (Z.to_nat (n - 1), n)) as ->; [|done].
    apply list_find_Some. split_and!; [apply lookup_seqZ; lia|done|].
    intros j y [-> Hj]%lookup_seqZ Hlt. by rewrite Hm by lia.
Qed.

(** ** Ending a process *)

Definition kill_tcb (t : TCB) : TCB :=
  let t := set_state TSTATE_DEAD t in set_sigstate (set_pending 0 (sigstate t)) t.

#[local] Instance link_free_kill : LinkFree kill_tcb.
Proof. by intros [] [] [= -> -> -> -> ->]. Qed.

Lemma put_put pid f f' s : put pid f' (put pid f s) = put pid (λ t, f' (f t)) s.
Proof.
  unfold put. thr_simpl. rewrite aget_eq. unfold set_TCBPool. cbn. f_equal.
  apply insert_insert_eq.
Qed.

Lemma remove1_not_in x l : x ∉ l → remove1 x l = l.
Proof.
  intros Hx. unfold remove1. induction l as [|y l IH]; [done|].
  rewrite not_elem_of_cons in Hx. destruct Hx as [Hn Hx].
  rewrite (filter_cons_True (λ z, z ≠ x)) by done. by rewrite IH.
Qed.

Lemma elem_of_remove1 x y l : y ∈ remove1 x l ↔ y ≠ x ∧ y ∈ l.
Proof. unfold remove1. by rewrite list_elem_of_filter. Qed.

Lemma wp_terminate_process s cur ready pid Q :
  sched_core s cur ready → is_pid pid →
  (state (tcb s pid) = TSTATE_READY → live s pid ∧ pid ≠ cur) →
  (∀ s', sched_core s' cur (remove1 pid ready) → t_vm s' = t_vm s → sched_lk s' = sched_lk s →
     tcbs_are s' (upd pid kill_tcb (tcb s)) → Q tt s') →
  wp (terminate_process pid) Q s.
Proof.
  intros [Hcur Hlv Hq Hrd Hall Hsl Hnc] Hpid Hready HQ. pose proof Hpid as Hp. unfold is_pid in Hp.
  unfold terminate_process. wp_step. wp_tcb. fold (tcb s pid).
  wp_step. apply (wp_mono _ (λ _ s1, queue_rep s1 NUM_IDS (remove1 pid ready)
    ∧ tcbs_are s1 (tcb s) ∧ t_vm s1 = t_vm s ∧ CURID s1 = CURID s ∧ sched_lk s1 = sched_lk s)).
  { destruct (Z.eqb_spec (state (tcb s pid)) TSTATE_READY) as [E|E].
    - destruct (Hready E) as [Hl Hne]. apply (wp_tqueue_remove s NUM_IDS ready); [done|bounds|by apply Hall|].
      intros s1 Hq1 Hf1. destruct (frame_rest _ _ _ _ Hf1) as (? & ? & ? & _).
      split_and!; [done|by eapply are_frame, are_refl|done..].
    - wp_step. rewrite remove1_not_in by (intros [? _]%Hrd; done). split_and!; done || apply are_refl. }
  intros [] s1 (Hq1 & Hg1 & Hvm1 & HC1 & Hlk1). wp_step. wp_tcb. wp_tcb.
  fold (tcb s1 pid). change (set_TCBPool _ _) with
    (put pid (λ t, set_sigstate (set_pending 0 (sigstate t)) t) (put pid (set_state TSTATE_DEAD) s1)).
  rewrite put_put. change (λ t, set_sigstate _ _) with kill_tcb.
  assert (tcbs_are (put pid kill_tcb s1) (upd pid kill_tcb (tcb s))) as Hg by by apply (are_upd s1 pid kill_tcb).
  assert (∀ x, state (tcb (put pid kill_tcb s1) x)
    = if decide (x = pid) then TSTATE_DEAD else state (tcb s x)) as Hst.
  { intros x. rewrite (are_state _ _ _ Hg). unfold upd. by case_decide. }
  assert (∀ x, live (put pid kill_tcb s1) x ↔ live s x) as Hlive by (intros x; by apply live_vm).
  apply HQ; [|done|done|done]. split; [by rewrite <- Hcur, <- HC1|by apply Hlive|by apply queue_rep_upd|..].
  - intros x. rewrite elem_of_remove1, Hst, Hlive. intros [Hx Hin].
    rewrite decide_False by done. by apply Hrd.
  - intros x. rewrite elem_of_remove1, Hst, Hlive. intros Hl Hx. case_decide; [done|].
    intros. split; [done|]. by apply Hall.
  - intros x Hx Hxc. rewrite Hst, Hlive. case_decide; [done|]. by apply Hsl.
  - rewrite elem_of_remove1. tauto.
Qed.

(** ** What the kernel does on the way back to user mode *)

Definition pending (s : thr) (pid : Z) : Z := pending_signals (sigstate (tcb s pid)).
Definition handler (s : thr) (pid n : Z) : Z :=
  sa_handler (aget (sigactions (sigstate (tcb s pid))) n).

Definition clear_tcb (n : Z) (t : TCB) : TCB :=
  set_sigstate (set_pending (u32 (Z.land (pending_signals (sigstate t))
                                    (Z.lnot (Z.shiftl 1 n)))) (sigstate t)) t.

#[local] Instance link_free_clear n : LinkFree (clear_tcb n).
Proof. by intros [] [] [= -> -> -> -> ->]. Qed.
#[local] Instance link_free_context sp : LinkFree (context_tcb sp).
Proof. by intros [] [] [= -> -> -> -> ->]. Qed.

Lemma clear_pending_Ok s pid n :
  is_pid pid → 1 ≤ n < NSIG →
  tcb_clear_pending_signal pid n s = Ok (tt, put pid (clear_tcb n) s).
Proof.
  intros Hp Hn. unfold tcb_clear_pending_signal, NSIG in *.
  rewrite (proj2 (Z.leb_le 0 n)), (proj2 (Z.ltb_lt n 32)) by lia. cbn [andb].
  unfold sig_upd, tcb_upd, mbind, M_bind, chk. unfold is_pid in Hp.
  by rewrite (proj2 (Z.leb_le 0 pid)), (proj2 (Z.ltb_lt pid NUM_IDS)) by lia.
Qed.

Lemma sched_ok_put s cur ready pid f :
  (∀ t, prev (f t) = prev t ∧ next (f t) = next t) → (∀ t, state (f t) = state t) →
  sched_ok s cur ready → sched_ok (put pid f s) cur ready.
Proof. intros Hf Hs [Hc Hl]. split; [by apply sched_core_put|done]. Qed.

(** The process [cur] is gone and the next one runs. *)
Definition ends (s : thr) (cur : Z) (ready : list Z) {A} (t : K thr A) : Prop :=
  match ready with
  | [] => t = KErr (Panic "thread_exit: no threads to switch to!")
  | new :: rest => ∃ s' k, t = KSwitch cur new s' k ∧ sched_ok s' new rest
      ∧ gone s' new rest cur ∧ t_vm s' = t_vm s
      ∧ tcbs_are s' (upd new (set_state TSTATE_RUN) (upd cur kill_tcb (tcb s)))
  end.

Lemma terminate_and_exit s s0 cur ready (t : tf_t) :
  sched_ok s cur ready → state (tcb s cur) ≠ TSTATE_READY →
  t_vm s = t_vm s0 →
  (∀ x, nolinks (upd cur kill_tcb (tcb s) x) = nolinks (upd cur kill_tcb (tcb s0) x)) →
  ends s0 cur ready ((_ ← run (terminate_process cur); _ ← thread_exit; mret t) s).
Proof.
  intros [Hc Hlk] Hst Hvm Hg0.
  destruct (wp_run (terminate_process cur) (λ _ s', sched_core s' cur ready ∧ t_vm s' = t_vm s
    ∧ sched_lk s' = sched_lk s ∧ tcbs_are s' (upd cur kill_tcb (tcb s))) s)
    as ([] & s1 & E1 & Hc1 & Hvm1 & Hlk1 & Hg1).
  { apply (wp_terminate_process s cur ready); [done|apply Hc|done|].
    intros s' Hc'. rewrite remove1_not_in in Hc' by apply Hc. done. }
  rewrite (kbind_run _ _ _ _ _ E1).
  assert (sched_ok s1 cur ready) as Hok1 by (split; [done|by rewrite Hlk1]).
  assert (state (tcb s1 cur) = TSTATE_DEAD) as Hst1.
  { rewrite (are_state _ _ _ Hg1). unfold upd. by rewrite decide_True. }
  unfold thread_exit. destruct ready as [|new rest]; cbn [ends].
  { unfold mbind, KM_bind. by rewrite (run_Err _ _ _ (exit_pick_empty _ _ Hok1)). }
  destruct (wp_run exit_pick (λ r s', r = (cur, new) ∧ sched_ok s' new rest ∧ t_vm s' = t_vm s1
    ∧ tcbs_are s' (upd new (set_state TSTATE_RUN) (tcb s1))) s1)
    as (r & s2 & E2 & -> & Hok2 & Hvm2 & Hg2).
  { apply (wp_exit_pick s1 cur new rest); [done|by rewrite Hst1|]. done. }
  assert (cur ≠ new) as Hne by (intros ->; apply (si_notcur _ _ _ Hc); left).
  unfold mbind at 1, KM_bind at 1. rewrite (kbind_run _ _ _ _ _ E2). cbn beta iota.
  rewrite kctx_switch_eq by (apply (si_live _ _ _ Hc) || apply (si_live _ _ _ (proj1 Hok2))).
  cbn [kbind].
  do 2 eexists. split_and!; [done|done| |by rewrite Hvm2, Hvm1|].
  - split_and!; [done| | |].
    + intros Hin. apply (si_notcur _ _ _ Hc). by right.
    + rewrite (are_state _ _ _ Hg2). unfold upd. by rewrite decide_False.
    + apply (live_vm s s2 cur); [by rewrite Hvm2, Hvm1|apply (si_live _ _ _ Hc)].
  - intros x. rewrite Hg2. unfold upd at 1 2. case_decide.
    + apply (link_free (f:=set_state TSTATE_RUN)). rewrite Hg1. apply Hg0.
    + rewrite Hg1. apply Hg0.
Qed.

(** The handler of [n] is entered: only the frame on the stack, the context
    recorded in the TCB and the pending bit change. *)
Definition enters (s : thr) (cur : Z) (ready : list Z) (n : Z) (t : tf_t) (r : K thr tf_t) : Prop :=
  ∃ s', r = KRet (set_esp_eip (sig_frame (esp t)) (handler s cur n) t) s'
    ∧ sched_ok s' cur ready
    ∧ stack_copy cur (sig_frame (esp t)) (esp t) (t_vm s) (t_vm s')
    ∧ tcbs_are s' (upd cur (λ x, context_tcb (esp t) (clear_tcb n x)) (tcb s))
    ∧ (VM_USERLO ≤ sig_frame (esp t) → esp t ≤ VM_USERHI →
       mapped (v_mem (t_vm s)) cur (sig_frame (esp t)) (esp t) →
       sig_stack (v_mem (t_vm s')) cur n (esp t) (eip t)).

(** Which of the two happens to a pending signal. *)
Definition serves (s : thr) (cur : Z) (ready : list Z) (n : Z) (t : tf_t) (r : K thr tf_t) : Prop :=
  if decide (n ≠ SIGKILL ∧ handler s cur n ≠ 0) then enters s cur ready n t r
  else ends s cur ready r.

Lemma same_tree_used s s' id :
  same_tree s s' → used (aget (CONTAINER (v_cont s')) id) = used (aget (CONTAINER (v_cont s)) id).
Proof. intros H. by injection (H id). Qed.

Lemma sched_ok_vm s cur ready v :
  sched_ok s cur ready → same_tree (t_vm s) v → sched_ok (lset l_t_vm v s) cur ready.
Proof.
  intros [[? ? ? H4 H5 H6 ?] ?] E.
  assert (∀ x, live (lset l_t_vm v s) x ↔ live s x) as Hl.
  { intros x. unfold live. cbn [t_vm lset l_t_vm]. by rewrite (same_tree_used _ _ _ E). }
  split; [|done]. split; [done|by apply Hl|by apply (queue_rep_same s)|..|done];
    intros x; rewrite Hl; [exact (H4 x)|exact (H5 x)|exact (H6 x)].
Qed.

(** Signal calls keep the tree of containers. *)
Definition thr_tree (s s' : thr) : Prop := same_tree (t_vm s) (t_vm s').

#[export] Instance thr_tree_preorder : PreOrder thr_tree.
Proof.
  split; [intros s; unfold thr_tree; reflexivity|].
  intros s1 s2 s3. unfold thr_tree. intros. by etrans.
Qed.

Lemma keeps_thr_vm {A} (m : M vm A) : keeps same_tree m → keeps thr_tree (lift l_t_vm m).
Proof. apply keeps_lift. done. Qed.

Lemma keeps_tcb_upd pid f : keeps thr_tree (tcb_upd pid f).
Proof. unfold tcb_upd. keeps_auto. apply keeps_modify. intros s. by unfold thr_tree. Qed.

Lemma keeps_copyout_bytes a bs pid uva : keeps thr_tree (copyout_bytes a bs pid uva).
Proof.
  apply keeps_thr_vm. apply keeps_bind; [apply _|apply keeps_mem|]. intros. apply keeps_pt_copyout.
Qed.
Hint Resolve keeps_tcb_upd keeps_copyout_bytes keeps_thr_vm keeps_pt_copyin : keeps.

Lemma keeps_deliver_signal t n : keeps thr_tree (deliver_signal t n).
Proof.
  unfold deliver_signal, get_curid, tcb_get_sigaction, tcb_read, tcb_set_signal_context, sig_upd.
  keeps_auto. case_match; keeps_auto.
Qed.

Lemma serve_signal_serves s cur ready n t :
  sched_ok s cur ready → vm_ok (t_vm s) → user_pid cur → state (tcb s cur) ≠ TSTATE_READY →
  1 ≤ n < NSIG → 31 ≤ esp t < two32 →
  serves s cur ready n t (serve_signal n cur t s).
Proof.
  intros Hok Hvm Hpid Hst Hn Hsp. assert (is_pid cur) as Hp by (unfold is_pid, user_pid in *; lia).
  unfold serve_signal. rewrite (kbind_run _ _ _ _ _ (clear_pending_Ok s cur n Hp Hn)).
  set (s1 := put cur (clear_tcb n) s).
  assert (sched_ok s1 cur ready) as Hok1 by by apply sched_ok_put.
  assert (tcb s1 cur = clear_tcb n (tcb s cur)) as Htcb1.
  { unfold s1, put. thr_simpl. by rewrite aget_eq. }
  assert (∀ x, nolinks (upd cur kill_tcb (tcb s1) x) = nolinks (upd cur kill_tcb (tcb s) x)) as Hg1.
  { intros x. unfold upd, s1, put. thr_simpl. rewrite aget_insert. by repeat case_decide; subst. }
  assert (ends s cur ready ((_ ← run (terminate_process cur); _ ← thread_exit; mret t) s1)) as Hends
    by (apply terminate_and_exit; [done|by rewrite Htcb1|done|done]).
  unfold serves. destruct (Z.eqb_spec n SIGKILL) as [->|Hnk].
  { rewrite decide_False by tauto. done. }
  assert (tcb_get_sigaction cur n s1
    = Ok (Some (aget (sigactions (sigstate (tcb s cur))) n), s1)) as Esa.
  { unfold tcb_get_sigaction. rewrite (proj2 (Z.ltb_ge n 0)), (proj2 (Z.leb_gt NSIG n)) by lia.
    cbn [orb]. unfold tcb_read, mbind, M_bind, chk. unfold is_pid in Hp.
    rewrite (proj2 (Z.leb_le 0 cur)), (proj2 (Z.ltb_lt cur NUM_IDS)) by lia. cbn [andb mret M_ret].
    unfold gets. fold (tcb s1 cur). by rewrite Htcb1. }
  rewrite (kbind_run _ _ _ _ _ Esa). cbn zeta iota. fold (handler s cur n).
  destruct (Z.eqb_spec (handler s cur n) 0) as [Hh|Hh]; cbn [negb].
  { rewrite decide_False by tauto. done. }
  rewrite decide_True by done.
  destruct (wp_run (deliver_signal t n) (λ t' s', t' = set_esp_eip (sig_frame (esp t)) (handler s cur n) t
    ∧ sched_ok s' cur ready ∧ stack_copy cur (sig_frame (esp t)) (esp t) (t_vm s) (t_vm s')
    ∧ tcbs_are s' (upd cur (λ x, context_tcb (esp t) (clear_tcb n x)) (tcb s))
    ∧ (VM_USERLO ≤ sig_frame (esp t) → esp t ≤ VM_USERHI →
       mapped (v_mem (t_vm s)) cur (sig_frame (esp t)) (esp t) →
       sig_stack (v_mem (t_vm s')) cur n (esp t) (eip t))) s1)
    as (t' & s' & E & -> & H1 & H2 & H3 & H4).
  { eapply (wp_keeps thr_tree); [apply keeps_deliver_signal|].
    apply (wp_deliver_signal cur n); [done|apply Hok|done|done|by rewrite Htcb1|done|].
    intros v' Hsc Hss Htr. split_and!; [by rewrite Htcb1| |done| |done].
    - apply sched_ok_put; [done|done|]. by apply sched_ok_vm.
    - intros x. unfold s1, put, upd. thr_simpl. rewrite !aget_insert.
      by repeat case_decide; subst. }
  exists s'. split_and!; [by apply run_Ok|done..].
Qed.

Lemma handle_pending_serves s cur ready t :
  sched_ok s cur ready → vm_ok (t_vm s) → user_pid cur → state (tcb s cur) ≠ TSTATE_READY →
  31 ≤ esp t < two32 →
  match lowest (pending s cur) with
  | None => handle_pending_signals t s = KRet t s
  | Some n => serves s cur ready n t (handle_pending_signals t s)
  end.
Proof.
  intros Hok Hvm Hpid Hst Hsp. unfold handle_pending_signals.
  assert (get_curid s = Ok (cur, s)) as E1.
  { unfold get_curid, gets. by rewrite (si_cur _ _ _ (proj1 Hok)). }
  assert (tcb_get_pending_signals cur s = Ok (pending s cur, s)) as E2.
  { unfold tcb_get_pending_signals, tcb_read, mbind, M_bind, chk. unfold user_pid in Hpid.
    by rewrite (proj2 (Z.leb_le 0 cur)), (proj2 (Z.ltb_lt cur NUM_IDS)) by lia. }
  rewrite (kbind_run _ _ _ _ _ E1), (kbind_run _ _ _ _ _ E2).
  destruct (Z.eqb_spec (pending s cur) 0) as [H0|H0]; cbn [negb].
  { rewrite H0. replace (lowest 0) with (@None Z) by by vm_compute. done. }
  rewrite pending_loop_find by (unfold NSIG; lia). change (Z.of_nat (Z.to_nat (NSIG - 1))) with (NSIG - 1).
  destruct (lowest (pending s cur)) as [n|] eqn:El.
  - pose proof El as [Hn _]%lowest_spec. unfold lowest in El.
    destruct (list_find _ _) as [[i x]|]; [|done]. cbn in El. injection El as ->.
    by apply serve_signal_serves.
  - unfold lowest in El. by destruct (list_find _ _) as [[i x]|].
Qed.

(** The mask of blocked signals is not looked at: a pending signal is delivered to
    its handler although it is blocked. *)
Lemma blocked_signal_delivered s cur ready t n :
  sched_ok s cur ready → vm_ok (t_vm s) → user_pid cur → state (tcb s cur) ≠ TSTATE_READY →
  31 ≤ esp t < two32 →
  lowest (pending s cur) = Some n → Z.testbit (signal_block_mask (sigstate (tcb s cur))) n = true →
  n ≠ SIGKILL → handler s cur n ≠ 0 →
  enters s cur ready n t (handle_pending_signals t s).
Proof.
  intros Hok Hvm Hpid Hst Hsp Hn _ Hk Hh.
  pose proof (handle_pending_serves s cur ready t Hok Hvm Hpid Hst Hsp) as Hp.
  rewrite Hn in Hp. unfold serves in Hp. by rewrite decide_True in Hp.
Qed.


(** C27: A handler that returns resumes the interrupted code.  After a delivery,
    let the handler run: it may change any memory of its own above or below the
    two saved words.  The [sigreturn] it falls into restores the stack pointer and
    the program counter of the trap frame the signal arrived at. *)
Theorem sigreturn_restores s cur n t s1 t1 s2 t2 :
  let act := aget (sigactions (sigstate (tcb s cur))) n in
  vm_ok (t_vm s) → aget (CURID s) this_cpu = cur → user_pid cur →
  1 ≤ n < NSIG → sa_handler act ≠ 0 → is_u32 (eip t) →
  VM_USERLO ≤ sig_frame (esp t) → esp t ≤ VM_USERHI →
  mapped (v_mem (t_vm s)) cur (sig_frame (esp t)) (esp t) →
  deliver_signal t n s = Ok (t1, s1) →
  vm_ok (t_vm s2) → aget (CURID s2) this_cpu = cur →
  sigstate (tcb s2 cur) = sigstate (tcb s1 cur) →
  (∀ va, esp t - 8 ≤ va < esp t →
     uread (v_mem (t_vm s2)) cur va = uread (v_mem (t_vm s1)) cur va) →
  ∃ s3, sys_sigreturn t2 s2
        = Ok (syscall_set_errno (set_esp_eip (esp t) (eip t) t2) E_SUCC, s3)
    ∧ in_signal_handler (sigstate (tcb s3 cur)) = 0 ∧ vm_ok (t_vm s3).
Proof.
  intros act Hok Hcur Hpid Hn Hh Hpc Hlo Hhi Hm Hrun Hok2 Hcur2 Hsig Hmem.
  pose proof (sig_arg_addr_bounds (esp t)) as Hb. unfold sig_frame in Hlo, Hm.
  assert (31 ≤ esp t < two32) as Hsp by (unfold VM_USERLO, VM_USERHI, two32 in *; lia).
  destruct (wp_inv (deliver_signal t n) (λ _ s1, sig_stack (v_mem (t_vm s1)) cur n (esp t) (eip t)
    ∧ sigstate (tcb s1 cur) = set_context (esp t - 8) (esp t - 4) 1 (sigstate (tcb s cur))) s t1 s1)
    as [Hst Hctx]; [|done|].
  { apply (wp_deliver_signal cur n); [done..|]. intros v' _ Hss. split.
    - apply Hss; unfold sig_frame; done.
    - unfold put. thr_simpl. by rewrite aget_eq. }
  assert (∀ a v, uword (v_mem (t_vm s1)) cur a v → esp t - 8 ≤ a → a + 4 ≤ esp t →
    uword (v_mem (t_vm s2)) cur a v) as Hw.
  { intros a v Hu H1 H2 k Hk. rewrite Hmem by lia. by apply Hu. }
  rewrite Hctx in Hsig.
  apply wp_run_val. eapply (wp_sys_sigreturn cur t2 (esp t) (eip t)); try done;
    rewrite ?Hsig; cbn [saved_esp_addr saved_eip_addr set_context].
  - unfold in_user. lia.
  - unfold in_user. lia.
  - unfold is_u32. lia.
  - apply Hw; [apply Hst|lia|lia].
  - apply Hw; [apply Hst|lia|lia].
  - intros v' Huc. split; [done|]. split; [|apply Huc]. unfold put. thr_simpl. by rewrite aget_eq.
Qed.

(** ** Sending signals *)

Definition pend_tcb (n : Z) (t : TCB) : TCB :=
  set_sigstate (set_pending (Z.lor (pending_signals (sigstate t)) (u32 (Z.shiftl 1 n)))
                  (sigstate t)) t.

(** What [kill(pid, signum)] does, by the code it answers. *)
Definition kill_outcome (s : thr) (cur : Z) (ready : list Z) (pid signum errno : Z) (s' : thr) : Prop :=
  if decide (signum < 1 ∨ NSIG ≤ signum) then errno = E_INVAL_SIGNUM ∧ s' = s
  else if decide (¬ is_pid pid ∨ state (tcb s pid) = TSTATE_DEAD) then errno = E_INVAL_PID ∧ s' = s
  else if decide (signum = SIGKILL) then
    errno = E_SUCC ∧ sched_ok s' cur (remove1 pid ready) ∧ t_vm s' = t_vm s
    ∧ tcbs_are s' (upd pid kill_tcb (tcb s)) ∧ (pid ≠ cur → gone s' cur (remove1 pid ready) pid)
  else
    let s1 := put pid (pend_tcb signum) s in
    let chan := channel (tcb s pid) in
    errno = E_SUCC ∧ t_vm s' = t_vm s
    ∧ if decide (state (tcb s pid) = TSTATE_SLEEP ∧ chan ≠ 0) then
        sched_ok s' cur (ready ++ woken s1 chan NUM_IDS) ∧ tcbs_are s' (woken_tcbs s1 chan NUM_IDS)
      else s' = s1.

(** The process is between requests: it is not queued. *)
Definition busy (s : thr) (cur : Z) : Prop :=
  state (tcb s cur) ≠ TSTATE_READY ∧ state (tcb s cur) ≠ TSTATE_SLEEP.

Lemma kill_now_eq pid (t : tf_t) s :
  (st ← tcb_get_state pid;
   _ ← (if st =? TSTATE_READY then tqueue_remove NUM_IDS pid else mret tt);
   _ ← tcb_set_state pid TSTATE_DEAD;
   _ ← tcb_set_pending_signals pid 0;
   mret (syscall_set_errno t E_SUCC)) s
  = (_ ← terminate_process pid; mret (syscall_set_errno t E_SUCC)) s.
Proof.
  unfold terminate_process, mbind, M_bind.
  destruct (tcb_get_state pid s) as [[st s1]|]; [|done].
  destruct ((if st =? TSTATE_READY then tqueue_remove NUM_IDS pid else mret tt) s1) as [[[] s2]|];
    [|done].
  by destruct (tcb_set_state pid TSTATE_DEAD s2) as [[[] s3]|].
Qed.

Lemma wp_sys_kill s cur ready t Q :
  let pid := s32 (ebx t) in
  let signum := s32 (ecx t) in
  sched_ok s cur ready → busy s cur → (is_pid pid → live s pid) →
  (∀ errno s', kill_outcome s cur ready pid signum errno s' → Q (syscall_set_errno t errno) s') →
  wp (sys_kill t) Q s.
Proof.
  intros pid signum Hok [Hnr Hns] Hlive HQ. unfold sys_kill, syscall_get_arg2, syscall_get_arg3.
  fold pid signum.
  destruct (decide (signum < 1 ∨ NSIG ≤ signum)) as [Hsg|Hsg].
  { replace (_ || _) with true by (symmetry; apply orb_true_iff; rewrite Z.ltb_lt, Z.leb_le; done).
    wp_steps. apply HQ. unfold kill_outcome. by rewrite decide_True. }
  replace (_ || _) with false
    by (symmetry; apply orb_false_iff; rewrite Z.ltb_ge, Z.leb_gt; lia).
  wp_step. destruct (decide (is_pid pid)) as [Hp|Hp].
  2: { replace (_ || _) with true
         by (symmetry; apply orb_true_iff; rewrite Z.ltb_lt, Z.leb_le; unfold is_pid in Hp; lia).
       wp_steps. apply HQ. unfold kill_outcome. rewrite decide_False by done.
       by rewrite decide_True by by left. }
  pose proof Hp as Hp'. unfold is_pid in Hp'.
  replace ((pid <? 0) || (NUM_IDS <=? pid)) with false
    by (symmetry; apply orb_false_iff; rewrite Z.ltb_ge, Z.leb_gt; lia).
  wp_step. wp_tcb. fold (tcb s pid). wp_step.
  destruct (Z.eqb_spec (state (tcb s pid)) TSTATE_DEAD) as [Hd|Hd].
  { wp_steps. apply HQ. unfold kill_outcome. rewrite decide_False by done.
    by rewrite decide_True by by right. }
  assert (¬ (¬ is_pid pid ∨ state (tcb s pid) = TSTATE_DEAD)) as Hnd by tauto.
  destruct (Z.eqb_spec signum SIGKILL) as [Hk|Hk].
  - unfold wp. rewrite kill_now_eq. 
    fold (wp (_ ← terminate_process pid; mret (syscall_set_errno t E_SUCC)) Q s).
    wp_step. apply (wp_terminate_process s cur ready); [apply Hok|done| |].
    { intros Hr. split; [by apply Hlive|]. by intros ->. }
    intros s' Hc Hvm Hlk Hg. wp_step. apply HQ. unfold kill_outcome.
    rewrite !decide_False, decide_True by done.
    assert (sched_ok s' cur (remove1 pid ready)) by (split; [done|rewrite Hlk; apply Hok]).
    split_and!; [done..|]. intros Hne. split_and!; [done| | |].
    + rewrite elem_of_remove1. tauto.
    + rewrite (are_state _ _ _ Hg). unfold upd. by rewrite decide_True.
    + by apply (live_vm s s' pid Hvm), Hlive.
  - unfold tcb_add_pending_signal.
    replace ((0 <=? signum) && (signum <? NSIG)) with true
      by (symmetry; apply andb_true_iff; rewrite Z.leb_le, Z.ltb_lt; lia).
    assert (∀ s', (let s1 := put pid (pend_tcb signum) s in
      let chan := channel (tcb s pid) in
      t_vm s' = t_vm s
      ∧ if decide (state (tcb s pid) = TSTATE_SLEEP ∧ chan ≠ 0) then
          sched_ok s' cur (ready ++ woken s1 chan NUM_IDS) ∧ tcbs_are s' (woken_tcbs s1 chan NUM_IDS)
        else s' = s1) → Q (syscall_set_errno t E_SUCC) s') as HQ'.
    { intros s' H'. apply HQ. unfold kill_outcome. by do 3 (rewrite decide_False by done). }
    wp_step. wp_tcb. fold (tcb s pid). change (set_TCBPool _ _) with (put pid (pend_tcb signum) s).
    set (s1 := put pid (pend_tcb signum) s) in *.
    assert (sched_ok s1 cur ready) as Hok1 by by apply sched_ok_put.
    assert (∀ x, state (tcb s1 x) = state (tcb s x) ∧ channel (tcb s1 x) = channel (tcb s x)) as Hsame.
    { clear HQ' HQ. intros x. unfold s1, put. thr_simpl. rewrite aget_insert. by case_decide as E; [rewrite E|]. }
    wp_step. wp_tcb. fold (tcb s1 pid). rewrite (proj1 (Hsame pid)).
    destruct (Z.eqb_spec (state (tcb s pid)) TSTATE_SLEEP) as [Hs|Hs]; cbn [negb Z.eqb].
    2: { wp_steps. apply HQ'. split; [done|]. by rewrite decide_False by tauto. }
    wp_step. wp_step. wp_tcb. fold (tcb s1 pid). rewrite (proj2 (Hsame pid)).
    destruct (Z.eqb_spec (channel (tcb s pid)) 0) as [H0|H0]; cbn [negb].
    { wp_steps. apply HQ'. split; [done|]. by rewrite decide_False by tauto. }
    apply (wp_thread_wakeup s1 cur ready); [done|by rewrite (proj1 (Hsame cur))|].
    intros s' Hok' Hvm' Hg'. wp_steps. apply HQ'. split; [done|]. by rewrite decide_True.
Qed.

(** C38: [kill] does what it says in each case: a bad signal number or a target
    that does not exist or is dead is refused and nothing changes; SIGKILL takes
    the target off the ready queue and marks it dead, for good unless it is the
    caller; any other signal becomes pending, and if the target sleeps, the
    threads of its channel are woken. *)
Theorem sys_kill_correct s cur ready t :
  sched_ok s cur ready → busy s cur → (is_pid (s32 (ebx t)) → live s (s32 (ebx t))) →
  ∃ errno s', sys_kill t s = Ok (syscall_set_errno t errno, s')
    ∧ kill_outcome s cur ready (s32 (ebx t)) (s32 (ecx t)) errno s'.
Proof.
  intros Hok Hb Hl. destruct (wp_run (sys_kill t) (λ t' s', ∃ errno,
    t' = syscall_set_errno t errno
    ∧ kill_outcome s cur ready (s32 (ebx t)) (s32 (ecx t)) errno s') s)
    as (t' & s' & E & errno & -> & Ho); [|by exists errno, s'].
  apply (wp_sys_kill s cur ready); [done..|]. intros errno s' Ho. by exists errno.
Qed.

(** ** The bit mask as a set *)

Lemma clear_bit p n m :
  0 ≤ n < 32 → 0 ≤ m < 32 →
  Z.testbit (u32 (Z.land p (Z.lnot (Z.shiftl 1 n)))) m = negb (m =? n) && Z.testbit p m.
Proof.
  intros Hn Hm. unfold u32. change two32 with (2 ^ 32).
  rewrite Z.mod_pow2_bits_low, Z.land_spec, Z.lnot_spec, Z.shiftl_1_l by lia.
  rewrite Z.pow2_bits_eqb, (Z.eqb_sym n m) by lia. apply andb_comm.
Qed.

Lemma add_bit p n m :
  0 ≤ n < 32 → 0 ≤ m < 32 →
  Z.testbit (Z.lor p (u32 (Z.shiftl 1 n))) m = (m =? n) || Z.testbit p m.
Proof.
  intros Hn Hm. rewrite Z.lor_spec, Z.shiftl_1_l. unfold u32. change two32 with (2 ^ 32).
  rewrite Z.mod_pow2_bits_low, Z.pow2_bits_eqb, (Z.eqb_sym n m) by lia. apply orb_comm.
Qed.

Lemma lor_u32 p q : is_u32 p → is_u32 q → is_u32 (Z.lor p q).
Proof.
  intros [H1 H2] [H3 H4]. split; [by apply Z.lor_nonneg|]. change two32 with (2 ^ 32) in *.
  destruct (decide (Z.lor p q = 0)) as [->|]; [lia|].
  apply Z.log2_lt_pow2; [pose proof (proj2 (Z.lor_nonneg p q) (conj H1 H3)); lia|].
  rewrite Z.log2_lor by done. apply Z.max_lub_lt.
  - destruct (decide (p = 0)) as [->|]; [done|]. apply Z.log2_lt_pow2; lia.
  - destruct (decide (q = 0)) as [->|]; [done|]. apply Z.log2_lt_pow2; lia.
Qed.

(** The pending mask is a set of signals.  Adding and clearing a signal
    insert and delete it and leave the other 31 bits, the mask stays a 32-bit
    word, and nothing else of any process changes. *)
Theorem pending_mask_is_a_set s pid n :
  is_pid pid → 0 ≤ n < NSIG → is_u32 (pending s pid) →
  ∃ s1 s2, tcb_add_pending_signal pid n s = Ok (tt, s1)
    ∧ tcb_clear_pending_signal pid n s = Ok (tt, s2)
    ∧ is_u32 (pending s1 pid) ∧ is_u32 (pending s2 pid)
    ∧ (∀ m, 0 ≤ m < NSIG → Z.testbit (pending s1 pid) m = (m =? n) || Z.testbit (pending s pid) m)
    ∧ (∀ m, 0 ≤ m < NSIG →
         Z.testbit (pending s2 pid) m = negb (m =? n) && Z.testbit (pending s pid) m)
    ∧ (∀ f x, x ≠ pid → f = s1 ∨ f = s2 → tcb f x = tcb s x).
Proof.
  intros Hp Hn Hu. unfold is_pid in Hp. unfold NSIG in *.
  exists (put pid (pend_tcb n) s), (put pid (clear_tcb n) s).
  assert (∀ f, tcb (put pid f s) pid = f (tcb s pid)) as Hpid.
  { intros f. unfold put. thr_simpl. by rewrite aget_eq. }
  unfold pending. rewrite !Hpid.
  split_and!.
  - unfold tcb_add_pending_signal, NSIG, sig_upd, tcb_upd, mbind, M_bind, chk.
    by rewrite !(proj2 (Z.leb_le _ _)), !(proj2 (Z.ltb_lt _ _)) by lia.
  - unfold tcb_clear_pending_signal, NSIG, sig_upd, tcb_upd, mbind, M_bind, chk.
    by rewrite !(proj2 (Z.leb_le _ _)), !(proj2 (Z.ltb_lt _ _)) by lia.
  - apply lor_u32; [done|apply u32_range].
  - apply u32_range.
  - intros m Hm. by apply add_bit.
  - intros m Hm. by apply clear_bit.
  - intros f x Hx [-> | ->]; unfold put; thr_simpl; by rewrite aget_ne.
Qed.
End Signal.

(** ** Concrete states *)

#[local] Existing Instance sample_layout.

(** All locals in the page at 1 MiB, the TCBs in the next one. *)
Definition sample_stack : Frames.
Proof.
  refine {| local_addr := λ _ _, 1048576; sigaction_addr := λ _ _, 1052672 |}.
  - intros v pid _. split; [done|]. intros k Hk. unfold kernel_byte, VM_USERLO. cbn. lia.
  - intros v pid _ _. split; [done|]. intros k Hk. unfold kernel_byte, VM_USERLO. cbn. lia.
Defined.

#[local] Existing Instance sample_stack.

(** Process 1 runs with SIGINT pending and handled at 0x40000100, process 0 is
    ready. *)
Definition sample_sig (v : vm) : thr :=
  let g := SigState (<[2 := Sigaction 1073742080 0 0 0 0]> ∅) 4 0 0 0 0 in
  Thr v (<[0 := Tcb TSTATE_READY 64 64 0 ∅ 0 zero]> (<[1 := Tcb TSTATE_RUN 64 64 0 ∅ 0 g]> ∅))
    (<[(0, 64) := Tq 0 0]> ∅) (<[0 := 1]> ∅) ∅ ∅ released.

Lemma sample_sig_ok v : v_cont v = sample_frames → sched_ok (sample_sig v) 1 [0].
Proof.
  intros Hv. split; [|done].
  assert (∀ x, live (sample_sig v) x → x = 0 ∨ x = 1) as Hl.
  { intros x [_ H]. cbn [sample_sig t_vm] in H. rewrite Hv in H. unfold sample_frames in H.
    cbn [CONTAINER] in H. rewrite !aget_insert in H. repeat case_decide; subst; auto; done. }
  assert (live (sample_sig v) 0 ∧ live (sample_sig v) 1) as [Hl0 Hl1].
  { unfold live. cbn [sample_sig t_vm]. rewrite Hv. done. }
  split; [done|done| |..].
  - split; try done; [apply NoDup_singleton|by repeat constructor].
  - intros x. rewrite list_elem_of_singleton. intros ->. done.
  - intros x [-> | ->]%Hl Hx Hs; [left|done].
  - intros x _ _. unfold sample_sig, tcb. cbn [TCBPool]. rewrite !aget_insert.
    repeat case_decide; subst; done.
  - rewrite list_elem_of_singleton. done.
Qed.

(** Interrupted at 0x40000200, with the stack in the first user page. *)
Definition sample_tf : tf_t := Tf 0 0 0 0 0 0 0 0 35 35 32 0 1073742336 27 512 1073741924 35.


Lemma sample_mapped v :
  va_entry (v_mem v) 1 VM_USERLO = 262146 * 4096 + 7 →
  mapped (v_mem v) 1 (sig_frame (esp sample_tf)) (esp sample_tf).
Proof.
  intros He va Hva. change (sig_frame (esp sample_tf)) with (VM_USERLO + 72) in Hva.
  change (esp sample_tf) with (VM_USERLO + 100) in Hva.
  assert (0 ≤ va - VM_USERLO < 4096 - VM_USERLO mod 4096) as Hk
    by (change (VM_USERLO mod 4096) with 0; lia).
  replace va with (VM_USERLO + (va - VM_USERLO)) by lia.
  unfold uread. rewrite (proj1 (pa_of_same_page (v_mem v) 1 VM_USERLO _ Hk)). by rewrite He.
Qed.

Lemma sigreturn_restores_witness :
  ∃ s t1 s1 s3, deliver_signal sample_tf 2 s = Ok (t1, s1) ∧ eip t1 = 1073742080
    ∧ sys_sigreturn t1 s1
      = Ok (syscall_set_errno (set_esp_eip 1073741924 1073742336 t1) E_SUCC, s3).
Proof.
  destruct sample_vm as (v & Hok & Hc & He & _).
  destruct (wp_run (deliver_signal sample_tf 2) (λ t' s', eip t' = 1073742080
    ∧ vm_ok (t_vm s') ∧ aget (CURID s') this_cpu = 1) (sample_sig v))
    as (t1 & s1 & E & Ht & Hok1 & Hcur1).
  { apply (wp_deliver_signal 1 2); [done|done|done|done|done|by vm_compute|].
    intros v' Hu _. split_and!; [done|apply Hu|done]. }
  destruct (sigreturn_restores (sample_sig v) 1 2 sample_tf s1 t1 s1 t1)
    as (s3 & E3 & _); try done.
  - by apply sample_mapped.
  - exists (sample_sig v), t1, s1, s3. by split_and!.
Defined.

(** Process 0 of [sample_sched] kills process 2, which waits in the queue. *)
Lemma sys_kill_correct_witness :
  ∃ s', sys_kill (set_ebx 2 (set_ecx SIGKILL zero)) sample_sched
        = Ok (syscall_set_errno (set_ebx 2 (set_ecx SIGKILL zero)) E_SUCC, s')
    ∧ sched_ok s' 0 [1] ∧ gone s' 0 [1] 2.
Proof.
  destruct (sys_kill_correct sample_sched 0 [1; 2] (set_ebx 2 (set_ecx SIGKILL zero)))
    as (errno & s' & E & Ho).
  - exact sample_sched_ok.
  - by split.
  - done.
  - unfold kill_outcome in Ho. rewrite 2!decide_False, decide_True in Ho.
    2-4: by vm_compute; naive_solver lia.
    destruct Ho as (-> & Hok & _ & _ & Hg). exists s'. split_and!; [exact E|exact Hok|].
    by apply Hg.
Defined.

(** A process that sends SIGKILL to itself is marked dead and told so, but goes
    on, and its next yield makes it ready again. *)
Lemma sigkill_self_survives :
  ∃ s' s2 k, sys_kill (set_ebx 0 (set_ecx SIGKILL zero)) sample_sched
      = Ok (syscall_set_errno (set_ebx 0 (set_ecx SIGKILL zero)) E_SUCC, s')
    ∧ state (tcb s' 0) = TSTATE_DEAD
    ∧ thread_yield s' = KSwitch 0 1 s2 k ∧ sched_ok s2 1 [2; 0].
Proof.
  destruct (wp_run (sys_kill (set_ebx 0 (set_ecx SIGKILL zero))) (λ t' s',
    t' = syscall_set_errno (set_ebx 0 (set_ecx SIGKILL zero)) E_SUCC ∧ sched_ok s' 0 [1; 2]
    ∧ state (tcb s' 0) = TSTATE_DEAD) sample_sched) as (t' & s' & E & -> & Hok & Hst).
  { apply (wp_sys_kill sample_sched 0 [1; 2]); [exact sample_sched_ok|by split|done|].
    intros errno s' Ho. unfold kill_outcome in Ho. rewrite 2!decide_False, decide_True in Ho.
    2-4: by vm_compute; naive_solver lia.
    destruct Ho as (-> & Hok & _ & Hg & _). split_and!; [done|exact Hok|].
    by rewrite (are_state _ _ _ Hg). }
  destruct (thread_yield_yields _ _ _ Hok) as (s2 & k & Ey & _ & Hok2 & _).
  exists s', s2, k. by split_and!.
Qed.
