(* ===== verification/Ipc.v ===== *)
(** * Synchronous messages (kern/lib/ipc.c, sys_sync_send and sys_sync_recv of
    kern/trap/TSyscall)

    A sender queues its message block and sleeps until a receiver has copied
    the message from its memory and taken the block off the queue. *)

From S2P Require Import Prelude Memory Resume Spinlock PhysMap Pmm Container PageTable Isolation.
From S2P Require Import UserCopy Tcb TQueue Thread Signal.

Definition MSG_BUF_SIZE : Z := 100.

(** ** State *)

(** [struct MsgBlock]; its last two members are only used for their addresses. *)
Record MsgBlock := Mb {
  m_prev : Z; m_next : Z; send_pid : Z; recv_pid : Z; m_length : Z; buffer_addr : Z
}.

#[export] Instance zeroed_MsgBlock : Zeroed MsgBlock := Mb 0 0 0 0 0 0.

Definition set_m_prev (v : Z) (b : MsgBlock) : MsgBlock :=
  Mb v (m_next b) (send_pid b) (recv_pid b) (m_length b) (buffer_addr b).
Definition set_m_next (v : Z) (b : MsgBlock) : MsgBlock :=
  Mb (m_prev b) v (send_pid b) (recv_pid b) (m_length b) (buffer_addr b).
Definition set_request (to len addr : Z) (b : MsgBlock) : MsgBlock :=
  Mb (m_prev b) (m_next b) (send_pid b) to len addr.

(** [struct MsgQueue] *)
Record MsgQueue := Mq { q_head : Z; q_tail : Z }.

Record ipc := Ipc {
  i_thr : thr;
  msgBlock : gmap Z MsgBlock;
  msgQueue : MsgQueue;
  msg_lock : spinlock
}.

Definition l_i_thr : lens ipc thr :=
  Lens i_thr (λ t s, Ipc t (msgBlock s) (msgQueue s) (msg_lock s)).
Definition l_msg_lock : lens ipc spinlock :=
  Lens msg_lock (λ lk s, Ipc (i_thr s) (msgBlock s) (msgQueue s) lk).

#[export] Instance l_i_thr_ok : LensOk l_i_thr.
Proof. split; [done|done|by intros []]. Qed.
#[export] Instance l_msg_lock_ok : LensOk l_msg_lock.
Proof. split; [done|done|by intros []]. Qed.
#[export] Instance ipc_apart : LensApart l_i_thr l_msg_lock.
Proof. by split. Qed.

Definition mb_upd (i : Z) (f : MsgBlock → MsgBlock) : M ipc unit :=
  _ ← chk "msgBlock" NUM_IDS i;
  modify (λ s, Ipc (i_thr s) (<[i := f (aget (msgBlock s) i)]> (msgBlock s)) (msgQueue s)
                 (msg_lock s)).
Definition mb_get {A} (i : Z) (f : MsgBlock → A) : M ipc A :=
  _ ← chk "msgBlock" NUM_IDS i;
  gets (λ s, f (aget (msgBlock s) i)).
Definition mq_set (f : MsgQueue → MsgQueue) : M ipc unit :=
  modify (λ s, Ipc (i_thr s) (msgBlock s) (f (msgQueue s)) (msg_lock s)).

(** Where the linker put [msgBlock] and [msg_buf]. *)
Class IpcLayout `{F : Frames} := {
  msgBlock_addr : Z;
  msg_buf : Z;
  msg_buf_ok : kernel_buf msg_buf MSG_BUF_SIZE
}.

Section Ipc.
Context `{I : IpcLayout}.

(** [&msgBlock[i].recv_cv] and [&msgBlock[i].send_cv]; a block has 28 bytes. *)
Definition recv_cv (i : Z) : Z := u32 (msgBlock_addr + 28 * i + 24).
Definition send_cv (i : Z) : Z := u32 (msgBlock_addr + 28 * i + 25).

(** ** ipc.c *)

Definition ipc_init : M ipc unit :=
  _ ← lift l_msg_lock spinlock_init;
  _ ← for_range 0 NUM_IDS (λ i, mb_upd i (λ _, Mb NUM_IDS NUM_IDS i NUM_IDS 0 0));
  mq_set (λ _, Mq NUM_IDS NUM_IDS).

Fixpoint ipc_copy_loop (fuel : nat) (dest_pid dest_addr src_pid src_addr length : Z) : M thr unit :=
  if 0 <? length then
    match fuel with
    | O => fail OutOfFuel
    | S fuel =>
      let len := if length <? MSG_BUF_SIZE then length else MSG_BUF_SIZE in
      _ ← lift l_t_vm (pt_copyin src_pid (u32 src_addr) msg_buf len);
      _ ← lift l_t_vm (pt_copyout msg_buf dest_pid (u32 dest_addr) len);
      ipc_copy_loop fuel dest_pid (s32 (dest_addr + len)) src_pid (s32 (src_addr + len))
        (length - len)
    end
  else mret tt.

(** One turn per started hundred bytes. *)
Definition ipc_copy (dest_pid dest_user_addr source_pid source_user_addr length : Z) : M thr unit :=
  ipc_copy_loop (Z.to_nat (length / MSG_BUF_SIZE + 1)) dest_pid dest_user_addr source_pid
    source_user_addr length.

Definition msg_enqueue (sender : Z) : M ipc unit :=
  tl ← gets (λ s, q_tail (msgQueue s));
  if tl =? NUM_IDS then
    _ ← mb_upd sender (set_m_prev NUM_IDS);
    _ ← mb_upd sender (set_m_next NUM_IDS);
    mq_set (λ _, Mq sender sender)
  else
    _ ← mb_upd tl (set_m_next sender);
    _ ← mb_upd sender (set_m_prev tl);
    _ ← mb_upd sender (set_m_next NUM_IDS);
    mq_set (λ q, Mq (q_head q) sender).

Definition msg_remove (sender : Z) : M ipc unit :=
  prv ← mb_get sender m_prev;
  nxt ← mb_get sender m_next;
  _ ← (if prv =? NUM_IDS then
         if nxt =? NUM_IDS then mq_set (λ _, Mq NUM_IDS NUM_IDS)
         else
           _ ← mq_set (λ q, Mq nxt (q_tail q));
           mb_upd nxt (set_m_prev NUM_IDS)
       else
         if nxt =? NUM_IDS then
           _ ← mq_set (λ q, Mq (q_head q) prv);
           mb_upd prv (set_m_next NUM_IDS)
         else
           _ ← mb_upd prv (set_m_next nxt);
           mb_upd nxt (set_m_prev prv));
  mb_upd sender (λ b, set_m_prev NUM_IDS (set_m_next NUM_IDS b)).

Fixpoint find_sender (fuel : nat) (pid sender : Z) : M ipc Z :=
  if pid =? NUM_IDS then mret NUM_IDS
  else match fuel with
  | O => fail OutOfFuel
  | S fuel =>
    sp ← mb_get pid send_pid;
    if sp =? sender then mret sender
    else nxt ← mb_get pid m_next; find_sender fuel nxt sender
  end.

(** A queue has at most one block per process. *)
Definition msg_getBlockBySendID (sender : Z) : M ipc Z :=
  h ← gets (λ s, q_head (msgQueue s));
  find_sender (Z.to_nat NUM_IDS) h sender.

(** The loop does not advance: it ends at the first block or never. *)
Definition msg_getBlockByRecvID (receiver : Z) : M ipc Z :=
  pid ← gets (λ s, q_head (msgQueue s));
  if pid =? NUM_IDS then mret NUM_IDS
  else
    rp ← mb_get pid recv_pid;
    if rp =? receiver then mb_get pid send_pid else fail OutOfFuel.

(** ** The calls

    [fuel] bounds how often the caller is woken before its condition holds. *)

Fixpoint send_wait (fuel : nat) (cur_pid : Z) : KM ipc unit :=
  b ← run (msg_getBlockBySendID cur_pid);
  if negb (b =? NUM_IDS) then
    match fuel with
    | O => kfail OutOfFuel
    | S fuel =>
      _ ← thread_sleep l_i_thr (recv_cv cur_pid) (Some l_msg_lock);
      send_wait fuel cur_pid
    end
  else mret tt.

Definition sys_sync_send (fuel : nat) (t : tf_t) : KM ipc tf_t :=
  let to := syscall_get_arg2 t in
  let user_addr := syscall_get_arg3 t in
  let len := syscall_get_arg4 t in
  cur_pid ← run (lift l_i_thr get_curid);
  _ ← run (mb_upd cur_pid (set_request (s32 to) (s32 len) (s32 user_addr)));
  _ ← run (msg_enqueue cur_pid);
  _ ← run (lift l_i_thr (thread_wakeup (send_cv cur_pid)));
  _ ← send_wait fuel cur_pid;
  mret (syscall_set_errno t E_SUCC).

(** No message from [sender], or one that is not for [cur_pid]. *)
Definition recv_blocked (sender cur_pid : Z) : M ipc bool :=
  b ← msg_getBlockBySendID (s32 sender);
  if b =? NUM_IDS then mret true
  else rp ← mb_get sender recv_pid; mret (negb (u32 rp =? cur_pid)).

Fixpoint recv_wait (fuel : nat) (sender cur_pid : Z) : KM ipc unit :=
  blocked ← run (recv_blocked sender cur_pid);
  if (blocked : bool) then
    match fuel with
    | O => kfail OutOfFuel
    | S fuel =>
      _ ← thread_sleep l_i_thr (send_cv sender) (Some l_msg_lock);
      recv_wait fuel sender cur_pid
    end
  else mret tt.

Definition recv_take (sender user_recv_addr recv_length cur_pid : Z) : M ipc Z :=
  user_send_addr ← mb_get sender buffer_addr;
  send_length ← mb_get sender m_length;
  let send_length := u32 send_length in
  let copy_length := if send_length <? recv_length then send_length else recv_length in
  _ ← lift l_i_thr (ipc_copy (s32 cur_pid) (s32 user_recv_addr) (s32 sender)
                      user_send_addr (s32 copy_length));
  _ ← msg_remove (s32 sender);
  _ ← lift l_i_thr (thread_wakeup (recv_cv sender));
  mret copy_length.

Definition sys_sync_recv (fuel : nat) (t : tf_t) : KM ipc tf_t :=
  let sender := syscall_get_arg2 t in
  let user_recv_addr := syscall_get_arg3 t in
  let recv_length := syscall_get_arg4 t in
  cur_pid ← run (lift l_i_thr get_curid);
  _ ← recv_wait fuel sender cur_pid;
  copy_length ← run (recv_take sender user_recv_addr recv_length cur_pid);
  mret (syscall_set_retval1 (syscall_set_errno t E_SUCC) copy_length).

(** ** The message queue is a thread queue

    The blocks are linked the way TCBs are, by the same steps: each operation is
    the one of PTQueueInit on a state that mirrors the links. *)

Definition as_tcb (b : MsgBlock) : TCB := Tcb 0 (m_prev b) (m_next b) 0 ∅ 0 zero.
Definition links (m : gmap Z MsgBlock) : gmap Z TCB := as_tcb <$> m.

Definition mirror (s : ipc) : thr :=
  Thr (t_vm (i_thr s)) (links (msgBlock s))
    (<[(this_cpu, NUM_IDS) := Tq (q_head (msgQueue s)) (q_tail (msgQueue s))]> ∅)
    ∅ ∅ ∅ zero.

Lemma aget_links m x : aget (links m) x = as_tcb (aget m x).
Proof. unfold aget, links. rewrite lookup_fmap. by destruct (m !! x). Qed.

Lemma mb_links_insert m x b : links (<[x := b]> m) = <[x := as_tcb b]> (links m).
Proof. apply fmap_insert. Qed.

(** All of a block but its links. *)
Definition request (b : MsgBlock) : MsgBlock := set_m_prev 0 (set_m_next 0 b).

(** What the queue operations leave alone. *)
Record msg_frame (s s' : ipc) : Prop := {
  mf_thr : i_thr s' = i_thr s;
  mf_lock : msg_lock s' = msg_lock s;
  mf_req x : request (aget (msgBlock s') x) = request (aget (msgBlock s) x)
}.

Lemma wp_mb_upd i f Q s :
  is_pid i →
  Q tt (Ipc (i_thr s) (<[i := f (aget (msgBlock s) i)]> (msgBlock s)) (msgQueue s) (msg_lock s)) →
  wp (mb_upd i f) Q s.
Proof. intros Hi HQ. unfold mb_upd, is_pid in *. by wp_steps. Qed.

Lemma wp_mb_get {A} i (f : MsgBlock → A) Q s :
  is_pid i → Q (f (aget (msgBlock s) i)) s → wp (mb_get i f) Q s.
Proof. intros Hi HQ. unfold mb_get, is_pid in *. by wp_steps. Qed.

Ltac wp_mb :=
  first [ wp_step
        | apply wp_mb_upd; [done|]; cbn [msgBlock msgQueue i_thr msg_lock]
        | apply wp_mb_get; [done|]; cbn [msgBlock msgQueue i_thr msg_lock]
        | apply wp_modify; cbn [msgBlock msgQueue i_thr msg_lock] ].

(** Equality of a mirrored state: the updates commute with [links]. *)
Ltac mirror_eq :=
  unfold mirror, tcb, set_TCBPool, set_TQueuePool;
  cbn [t_vm TCBPool TQueuePool CURID kctx_pool sched_ticks sched_lk
       i_thr msgBlock msgQueue msg_lock q_head q_tail head tail];
  rewrite ?mb_links_insert, ?aget_insert, ?aget_links;
  repeat (case_decide; try congruence);
  rewrite ?insert_insert_eq; cbn [head tail]; done.

Ltac msg_frame_auto :=
  split; [done|done|]; intros ?; cbn; rewrite ?aget_insert; repeat case_decide; subst; done.

(** [l] are the senders with a message, oldest first. *)
Definition msg_rep (s : ipc) (l : list Z) : Prop :=
  queue_rep (mirror s) NUM_IDS l ∧ ∀ x, is_pid x → send_pid (aget (msgBlock s) x) = x.

Lemma mirror_step {A} (m : M thr A) s s' (P : thr → Prop) :
  wp m (λ _ t, t = mirror s') (mirror s) → wp m (λ _ t, P t) (mirror s) → P (mirror s').
Proof.
  intros H1 H2. pose proof (wp_conj _ _ _ _ H1 H2) as H.
  apply wp_run in H as (a & t & _ & -> & HP). done.
Qed.

Lemma msg_frame_send s s' x :
  msg_frame s s' → send_pid (aget (msgBlock s') x) = send_pid (aget (msgBlock s) x).
Proof. intros [_ _ Hr]. by injection (Hr x). Qed.

Lemma wp_msg_enqueue s l pid Q :
  msg_rep s l → is_pid pid → pid ∉ l →
  (∀ s', msg_rep s' (l ++ [pid]) → msg_frame s s' → Q tt s') →
  wp (msg_enqueue pid) Q s.
Proof.
  intros [Hq Hs] Hp Hni HQ.
  assert (∀ s', wp (tqueue_enqueue NUM_IDS pid) (λ _ t, t = mirror s') (mirror s) →
    msg_frame s s' → Q tt s') as HQ'.
  { intros s' Hrun Hf. apply HQ; [|done]. split.
    - apply (mirror_step _ s s' (λ t, queue_rep t NUM_IDS (l ++ [pid])) Hrun).
      by apply (wp_tqueue_enqueue _ _ l).
    - intros x Hx. rewrite (msg_frame_send s s') by done. by apply Hs. }
  pose proof (qr_tail _ _ _ Hq) as Ht. cbn in Ht.
  assert (q_tail (msgQueue s) = lasts NUM_IDS l) as Et by done. clear Ht.
  pose proof Hp as Hp'. unfold is_pid in Hp'.
  unfold msg_enqueue. wp_step. wp_step. rewrite Et in *.
  destruct (lasts_cases NUM_IDS l) as [[-> E0]|(l' & x & -> & E0)]; rewrite E0 in *.
  - rewrite Z.eqb_refl. repeat wp_mb. apply HQ'.
    + unfold tqueue_enqueue. wp_step. wp_tcb. cbn [mirror TQueuePool].
      rewrite aget_eq. cbn [tail]. rewrite Et, Z.eqb_refl. wp_go. by mirror_eq.
    + by msg_frame_auto.
  - assert (is_pid x) as Hx by (apply (Forall_elem _ _ _ (qr_range _ _ _ Hq)); set_solver).
    pose proof Hx as Hx'. unfold is_pid in Hx'.
    rewrite (proj2 (Z.eqb_neq x NUM_IDS)) by lia. repeat wp_mb. apply HQ'.
    + unfold tqueue_enqueue. wp_step. wp_tcb. cbn [mirror TQueuePool].
      rewrite aget_eq. cbn [tail]. rewrite Et, (proj2 (Z.eqb_neq x NUM_IDS)) by lia. wp_go.
      by mirror_eq.
    + by msg_frame_auto.
Qed.

(** The links of an element of a queue. *)
Lemma queue_links s chid l x :
  queue_rep s chid l → x ∈ l →
  let p := prev (tcb s x) in let n := next (tcb s x) in
  (p = NUM_IDS ∨ is_pid p) ∧ (n = NUM_IDS ∨ is_pid n) ∧ (p = n → p = NUM_IDS)
  ∧ p ≠ x ∧ n ≠ x.
Proof.
  intros [_ _ Hd Hnd Hr] (l1 & l2 & ->)%list_elem_of_split p n.
  apply dll_app in Hd as [_ (Hp & Hn & _)]. fold (tcb s x) in Hp, Hn. fold p in Hp. fold n in Hn.
  apply NoDup_app in Hnd as (Hnd1 & Hnd12 & [Hni2 Hnd2]%NoDup_cons).
  apply Forall_app in Hr as [Hr1 [Hx Hr2]%Forall_cons]. unfold is_pid in Hx.
  assert (p = NUM_IDS ∨ p ∈ l1) as Hp'.
  { rewrite Hp. destruct (lasts_cases NUM_IDS l1) as [[_ ->]|(l' & y & -> & ->)]; [by left|].
    right. apply elem_of_app. right. left. }
  assert (n = NUM_IDS ∨ n ∈ l2) as Hn'.
  { rewrite Hn. destruct l2; [by left|]. right. left. }
  assert (x ∉ l1) as Hx1 by (intros H; apply (Hnd12 x H); left).
  split_and!.
  - destruct Hp' as [?|H]; [by left|right]. by apply (Forall_elem _ _ _ Hr1).
  - destruct Hn' as [?|H]; [by left|right]. by apply (Forall_elem _ _ _ Hr2).
  - intros E. destruct Hp' as [?|H1]; [done|]. destruct Hn' as [?|H2]; [congruence|].
    exfalso. apply (Hnd12 p H1). right. by rewrite E.
  - intros E. destruct Hp' as [H|H]; [lia|]. by rewrite E in H.
  - intros E. destruct Hn' as [H|H]; [lia|]. by rewrite E in H.
Qed.

Lemma wp_msg_remove s l pid Q :
  msg_rep s l → pid ∈ l →
  (∀ s', msg_rep s' (remove1 pid l) → msg_frame s s' → Q tt s') →
  wp (msg_remove pid) Q s.
Proof.
  intros [Hq Hs] Hin HQ.
  assert (∀ s', wp (tqueue_remove NUM_IDS pid) (λ _ t, t = mirror s') (mirror s) →
    msg_frame s s' → Q tt s') as HQ'.
  { intros s' Hrun Hf. apply HQ; [|done]. split.
    - apply (mirror_step _ s s' (λ t, queue_rep t NUM_IDS (remove1 pid l)) Hrun).
      by apply (wp_tqueue_remove _ _ l).
    - intros x Hx. rewrite (msg_frame_send s s') by done. by apply Hs. }
  assert (is_pid pid) as Hp by by apply (Forall_elem _ _ _ (qr_range _ _ _ Hq)).
  pose proof (queue_links _ _ _ _ Hq Hin) as (Hpr & Hnx & Hpn & Hne1 & Hne2).
  unfold tcb in *. cbn [mirror TCBPool] in *. rewrite aget_links in *. cbn [as_tcb prev next] in *.
  set (p := m_prev _) in *. set (n := m_next _) in *. pose proof Hp as Hp'. unfold is_pid in Hp'.
  unfold msg_remove. do 4 wp_mb. fold p n.
  assert (∀ Qt, wp (_ ← (if p =? NUM_IDS then
         if n =? NUM_IDS then
           _ ← tqueue_set_head NUM_IDS NUM_IDS; tqueue_set_tail NUM_IDS NUM_IDS
         else _ ← tcb_set_prev n NUM_IDS; tqueue_set_head NUM_IDS n
       else
         if n =? NUM_IDS then _ ← tcb_set_next p NUM_IDS; tqueue_set_tail NUM_IDS p
         else
           _ ← (if negb (p =? n) then tcb_set_next p n else mret tt);
           tcb_set_prev n p);
     _ ← tcb_set_prev pid NUM_IDS; tcb_set_next pid NUM_IDS) Qt (mirror s) →
     wp (tqueue_remove NUM_IDS pid) Qt (mirror s)) as Hrem.
  { intros Qt H. unfold tqueue_remove. wp_step. wp_tcb. wp_step. wp_tcb.
    cbn [mirror TCBPool]. rewrite !aget_links. exact H. }
  clearbody p n. wp_step.
  destruct (Z.eqb_spec p NUM_IDS) as [Ep|Ep]; destruct (Z.eqb_spec n NUM_IDS) as [En|En].
  - repeat wp_mb. apply HQ'; [apply Hrem; wp_go; by mirror_eq|by msg_frame_auto].
  - destruct Hnx as [?|Hn]; [done|]. pose proof Hn as Hn'. unfold is_pid in Hn'.
    repeat wp_mb. apply HQ'; [apply Hrem; wp_go; by mirror_eq|by msg_frame_auto].
  - destruct Hpr as [?|Hpp]; [done|]. pose proof Hpp as Hn'. unfold is_pid in Hn'.
    repeat wp_mb. apply HQ'; [apply Hrem; wp_go; by mirror_eq|by msg_frame_auto].
  - destruct Hpr as [?|Hpp]; [done|]. destruct Hnx as [?|Hn]; [done|].
    pose proof Hpp as H1. pose proof Hn as H2. unfold is_pid in H1, H2.
    repeat wp_mb. apply HQ'; [|by msg_frame_auto]. apply Hrem.
    rewrite (proj2 (Z.eqb_neq p n)) by tauto. cbn [negb]. wp_go. by mirror_eq.
Qed.

(** Who is found. *)
Lemma wp_find_sender fuel s l1 l2 sender Q :
  queue_rep (mirror s) NUM_IDS (l1 ++ l2) → (∀ x, is_pid x → send_pid (aget (msgBlock s) x) = x) →
  (length l2 ≤ fuel)%nat → (sender ∉ l1) →
  Q (if decide (sender ∈ l1 ++ l2) then sender else NUM_IDS) s →
  wp (find_sender fuel (hd NUM_IDS l2) sender) Q s.
Proof.
  revert l1 l2. induction fuel as [|fuel IH]; intros l1 l2 Hq Hs Hlen Hni HQ;
    (destruct l2 as [|y l2]; cbn [hd length] in *; [|try lia]).
  - cbn. rewrite app_nil_r, decide_False in HQ by done. done.
  - cbn. rewrite app_nil_r, decide_False in HQ by done. done.
  - assert (is_pid y) as Hy by (apply (Forall_elem _ _ _ (qr_range _ _ _ Hq)); set_solver).
    pose proof Hy as Hy'. unfold is_pid in Hy'. cbn [find_sender].
    rewrite (proj2 (Z.eqb_neq y NUM_IDS)) by lia. do 2 wp_mb. rewrite Hs by done.
    destruct (Z.eqb_spec y sender) as [->|Hne].
    { wp_step. rewrite decide_True in HQ by set_solver. done. }
    do 2 wp_mb. pose proof (qr_dll _ _ _ Hq) as Hd. apply dll_app in Hd as [_ (_ & Hn & _)].
    cbn [mirror TCBPool] in Hn. rewrite aget_links in Hn. cbn [as_tcb next] in Hn. rewrite Hn.
    apply (IH (l1 ++ [y])); [by rewrite <- app_assoc|done|lia| |by rewrite <- app_assoc].
    rewrite elem_of_app, list_elem_of_singleton. naive_solver.
Qed.

Lemma queue_length s chid l : queue_rep s chid l → (length l ≤ Z.to_nat NUM_IDS)%nat.
Proof.
  intros [_ _ _ Hnd Hr].
  replace (Z.to_nat NUM_IDS) with (length (seqZ 0 NUM_IDS)) by done.
  apply submseteq_length, NoDup_submseteq; [done|]. intros x Hx.
  apply (Forall_elem _ _ _ Hr) in Hx. apply elem_of_seqZ. unfold is_pid in Hx. lia.
Qed.

Lemma wp_msg_getBlockBySendID s l sender Q :
  msg_rep s l → Q (if decide (sender ∈ l) then sender else NUM_IDS) s →
  wp (msg_getBlockBySendID sender) Q s.
Proof.
  intros [Hq Hs] HQ. unfold msg_getBlockBySendID. wp_step. wp_step.
  pose proof (qr_head _ _ _ Hq) as Hh. cbn in Hh.
  assert (q_head (msgQueue s) = hd NUM_IDS l) as -> by done.
  apply (wp_find_sender _ s [] l); [done|done|by eapply queue_length|set_solver|done].
Qed.

(** ** Copying between processes *)

(** The receiver's bytes are not the ones still to be read. *)
Definition apart (dest da src sa len : Z) : Prop :=
  dest ≠ src ∨ da + len ≤ sa ∨ sa + len ≤ da.

(** [ucopy] for a transfer: pages of either range may be mapped, only the
    destination is written. *)
Abbreviation transfer dest da src sa len :=
  (ucopy (λ p va, touched dest da (da + len) p va ∨ touched src sa (sa + len) p va)
     (within dest da (da + len)) (kernel_range msg_buf (msg_buf + MSG_BUF_SIZE))).

Lemma touched_sub pid lo hi lo' hi' p va :
  lo' ≤ lo → hi ≤ hi' → touched pid lo hi p va → touched pid lo' hi' p va.
Proof.
  intros Hl Hh (-> & Hlt & H1 & H2). split_and!; [done|lia| |lia].
  pose proof (Z.div_le_mono lo' lo 4096 ltac:(lia) Hl). lia.
Qed.

Lemma within_sub pid lo hi lo' hi' p va :
  lo' ≤ lo → hi ≤ hi' → within pid lo hi p va → within pid lo' hi' p va.
Proof. unfold within. intros ? ? [? ?]. split; [done|lia]. Qed.

Lemma s32_of_u32 x : u32 (s32 x) = u32 x.
Proof. unfold s32, u32, two32. Z.to_euclidean_division_equations. lia. Qed.

Lemma s32_add x n : s32 (s32 x + n) = s32 (x + n).
Proof. unfold s32, two32. Z.to_euclidean_division_equations. lia. Qed.

(** One turn of the loop. *)
Lemma wp_ipc_chunk dest da src sa n Q s :
  vm_ok (t_vm s) → user_pid dest → user_pid src → in_user da n → in_user sa n →
  n ≤ MSG_BUF_SIZE → mapped (v_mem (t_vm s)) dest da (da + n) →
  (∀ v', transfer dest da src sa n (t_vm s) v' →
     (∀ k b, 0 ≤ k < n → uread (v_mem (t_vm s)) src (sa + k) = Some b →
        uread (v_mem v') dest (da + k) = Some b) →
     Q tt (lset l_t_vm v' s)) →
  wp (_ ← lift l_t_vm (pt_copyin src sa msg_buf n);
      _ ← lift l_t_vm (pt_copyout msg_buf dest da n); mret tt) Q s.
Proof.
  intros Hok Hd Hs Hda Hsa Hn Hm HQ.
  assert (kernel_buf msg_buf n) as Hkb.
  { destruct msg_buf_ok as [H1 H2]. split; [done|]. intros k Hk. apply H2. lia. }
  wp_step. wp_step. apply wp_pt_copyin; [done..|]. intros v1 Hu1 Hr1.
  wp_step. wp_step. cbn [lget l_t_vm t_vm lset].
  apply wp_pt_copyout; [apply Hu1|done|done|done|]. intros v2 Hu2 Hr2. wp_steps.
  assert (mapped (v_mem v2) dest da (da + n)) as Hm2.
  { destruct Hda as (? & ? & ?). eapply (ucopy_mapped _ _ _ _ _ _ v1); [done|done|done|lia|].
    eapply (ucopy_mapped _ _ _ _ _ _ (t_vm s)); [done|done|done|lia|done]. }
  apply HQ.
  - eapply ucopy_trans; [exact Hu1|exact Hu2|..]; try done; try auto; try (by intros ? ? []).
    intros x. unfold kernel_range. lia.
  - intros k b Hk Hb. destruct (Hr2 k Hk) as [->|Hnone].
    + f_equal. by apply Hr1.
    + by destruct (Hm2 (da + k)); [lia|].
Qed.

Lemma wp_ipc_copy_loop fuel dest da src sa len Q s :
  vm_ok (t_vm s) → user_pid dest → user_pid src → in_user da len → in_user sa len →
  len ≤ MSG_BUF_SIZE * Z.of_nat fuel → apart dest da src sa len →
  mapped (v_mem (t_vm s)) dest da (da + len) →
  (∀ v', transfer dest da src sa len (t_vm s) v' →
     (∀ k b, 0 ≤ k < len → uread (v_mem (t_vm s)) src (sa + k) = Some b →
        uread (v_mem v') dest (da + k) = Some b) →
     Q tt (lset l_t_vm v' s)) →
  wp (ipc_copy_loop fuel dest (s32 da) src (s32 sa) len) Q s.
Proof.
  intros Hok Hd Hs Hda Hsa Hf Hap Hm HQ.
  assert (len = 0 → Q tt s) as HQ0.
  { intros ->. replace s with (lset l_t_vm (t_vm s) s) by by destruct s.
    apply HQ; [by apply ucopy_refl|]. intros. lia. }
  revert da sa len s Hok Hda Hsa Hf Hap Hm HQ HQ0. induction fuel as [|fuel IH];
    intros da sa len s Hok Hda Hsa Hf Hap Hm HQ HQ0; cbn [ipc_copy_loop];
    pose proof Hda as (Hd1 & Hlen & Hd2); pose proof Hsa as (Hs1 & _ & Hs2);
    unfold VM_USERLO, VM_USERHI, MSG_BUF_SIZE in *;
    (destruct (Z.ltb_spec 0 len) as [Hpos|Hz]; [|wp_steps; apply HQ0; lia]); [lia|].
  set (n := if len <? 100 then len else 100).
  assert (n = Z.min len 100) as En by (unfold n; case_cmp; lia).
  rewrite !s32_of_u32, !s32_add, !(u32_small da), !(u32_small sa) by (unfold is_u32, two32; lia).
  assert (in_user da n ∧ in_user sa n) as [Hdn Hsn] by (unfold in_user, VM_USERLO, VM_USERHI; lia).
  assert (wp (_ ← lift l_t_vm (pt_copyin src sa msg_buf n);
      _ ← lift l_t_vm (pt_copyout msg_buf dest da n); mret tt)
    (λ _ s1, wp (ipc_copy_loop fuel dest (s32 (da + n)) src (s32 (sa + n)) (len - n)) Q s1) s) as Hw.
  2: { apply wp_bind. apply wp_bind_inv in Hw. eapply wp_mono; [exact Hw|]. cbn beta.
       intros r s1 Hw1. apply wp_bind. apply wp_bind_inv in Hw1. eapply wp_mono; [exact Hw1|]. done. }
  apply wp_ipc_chunk; [done..|unfold MSG_BUF_SIZE; lia| |].
  { intros va Hva. apply Hm. lia. }
  intros v1 Hu1 Hr1. cbn [t_vm lset l_t_vm].
  apply IH; cbn [t_vm lset l_t_vm]; [apply Hu1| | | | |..].
  - unfold in_user, VM_USERLO, VM_USERHI. lia.
  - unfold in_user, VM_USERLO, VM_USERHI. lia.
  - lia.
  - unfold apart in *. lia.
  - intros va Hva. eapply (ucopy_mapped _ _ _ _ da (da + len) (t_vm s)); [done|done|done|done|done|lia].
  - intros v2 Hu2 Hr2.
    replace (lset l_t_vm v2 (lset l_t_vm v1 s)) with (lset l_t_vm v2 s) by done. apply HQ.
    + eapply ucopy_trans; [exact Hu1|exact Hu2|..]; try done.
      * intros p va [H|H]; [left|right]; (eapply touched_sub; [..|exact H]; lia).
      * intros p va [H|H]; [left|right]; (eapply touched_sub; [..|exact H]; lia).
      * intros p va H. eapply within_sub; [..|exact H]; lia.
      * intros p va H. eapply within_sub; [..|exact H]; lia.
    + intros k b Hk Hb. destruct (decide (k < n)) as [Hkn|Hkn].
      * eapply (uc_uread _ _ _ _ _ Hu2); [done|unfold user_va, VM_USERLO, VM_USERHI; lia| |apply Hr1; [lia|done]].
        unfold within. lia.
      * replace (da + k) with (da + n + (k - n)) by lia. apply Hr2; [lia|].
        replace (sa + n + (k - n)) with (sa + k) by lia.
        eapply (uc_uread _ _ _ _ _ Hu1); [done|unfold user_va, VM_USERLO, VM_USERHI; lia| |done].
        unfold within, apart in *. lia.
  - intros Hz. apply HQ.
    + eapply (ucopy_trans _ nowhere); [exact Hu1|apply (ucopy_refl _ nowhere (λ _, False)), Hu1|..];
        try done; try (by intros ? ? []).
      * intros p va [H|H]; [left|right]; (eapply touched_sub; [..|exact H]; lia).
      * intros p va H. eapply within_sub; [..|exact H]; lia.
    + intros k b Hk. apply Hr1. lia.
Qed.

Lemma keeps_ipc_copy dest da src sa len : keeps thr_tree (ipc_copy dest da src sa len).
Proof.
  unfold ipc_copy. generalize (Z.to_nat (len / MSG_BUF_SIZE + 1)) as n. intros n.
  revert da sa len. induction n as [|n IH]; intros da sa len; cbn [ipc_copy_loop]; keeps_auto.
  - apply keeps_thr_vm, keeps_pt_copyin.
  - apply keeps_thr_vm, keeps_pt_copyout.
Qed.

(** ** Receiving *)

(** A message from [sender] of [len] bytes at [sa], for process [cur]. *)
Record message (s : ipc) (sender cur len sa : Z) : Prop := {
  msg_to : recv_pid (aget (msgBlock s) sender) = cur;
  msg_len : m_length (aget (msgBlock s) sender) = len;
  msg_addr : buffer_addr (aget (msgBlock s) sender) = s32 sa;
  msg_range : in_user sa len
}.

(** The bytes of the transfer, and what else it does. *)
Record received (s s' : ipc) (cur da sender sa n : Z) : Prop := {
  rv_bytes k b : 0 ≤ k < n →
    uread (v_mem (t_vm (i_thr s))) sender (sa + k) = Some b →
    uread (v_mem (t_vm (i_thr s'))) cur (da + k) = Some b;
  rv_copy : transfer cur da sender sa n (t_vm (i_thr s)) (t_vm (i_thr s'));
  rv_tcbs : tcbs_are (i_thr s') (woken_tcbs (i_thr s) (recv_cv sender) NUM_IDS)
}.

Lemma msg_rep_thr s l t : msg_rep s l → msg_rep (lset l_i_thr t s) l.
Proof. intros [[? ? ? ? ?] ?]. by split. Qed.

Lemma wp_recv_take s cur ready l sender da len sa rlen Q :
  let n := Z.min len rlen in
  sched_ok (i_thr s) cur ready → state (tcb (i_thr s) cur) ≠ TSTATE_SLEEP →
  vm_ok (t_vm (i_thr s)) → msg_rep s l → sender ∈ l → user_pid cur → user_pid sender →
  message s sender cur len sa → 0 ≤ rlen → in_user da n → n < 2147483648 →
  apart cur da sender sa n → mapped (v_mem (t_vm (i_thr s))) cur da (da + n) →
  (∀ s', msg_rep s' (remove1 sender l) → received s s' cur da sender sa n →
     sched_ok (i_thr s') cur (ready ++ woken (i_thr s) (recv_cv sender) NUM_IDS) → Q n s') →
  wp (recv_take sender da rlen cur) Q s.
Proof.
  intros n Hok Hns Hvm Hrep Hin Hcur Hsend [Hto Hlen Haddr Hrange] Hrl Hda Hn31 Hap Hm HQ.
  assert (is_pid sender) as Hps by (unfold is_pid, user_pid in *; lia).
  assert (s32 cur = cur ∧ s32 sender = sender) as [Ec Es].
  { unfold user_pid, NUM_IDS in *. split; apply s32_small; lia. }
  destruct Hrange as (Hr1 & Hr2 & Hr3). unfold VM_USERLO, VM_USERHI in *.
  unfold recv_take. do 4 wp_mb. rewrite Haddr, Hlen, (u32_small len) by (unfold is_u32, two32; lia).
  assert ((if len <? rlen then len else rlen) = n) as -> by (unfold n; case_cmp; lia).
  rewrite Ec, Es, (s32_small n) by lia.
  assert (in_user sa n) as Hsa by (unfold in_user, n, VM_USERLO, VM_USERHI; lia).
  wp_step. wp_step. eapply (wp_keeps thr_tree); [apply keeps_ipc_copy|].
  unfold ipc_copy. apply wp_ipc_copy_loop; [done|done|done|done|done| |done|done|].
  { unfold MSG_BUF_SIZE. assert (0 ≤ n) by (destruct Hda; lia).
    pose proof (Z.div_pos n 100 ltac:(lia) ltac:(lia)). rewrite Z2Nat.id by lia.
    pose proof (Z.mod_pos_bound n 100 ltac:(lia)). pose proof (Z.div_mod n 100 ltac:(lia)). lia. }
  intros v1 Hu1 Hr Htree. wp_step. cbn [lget l_i_thr] in *.
  apply (wp_msg_remove _ l); [by apply msg_rep_thr|done|].
  intros s2 Hrep2 [Ht2 Hl2 Hq2]. wp_step. wp_step. cbn [lget l_i_thr]. rewrite Ht2.
  cbn [lset l_i_thr i_thr].
  apply (wp_thread_wakeup (lset l_t_vm v1 (i_thr s)) cur ready); [by apply sched_ok_vm|done|].
  intros t3 Hok3 Hvm3 Hg3. wp_step. apply HQ.
  - by apply msg_rep_thr.
  - split; cbn [i_thr lset l_i_thr]; rewrite ?Hvm3; done.
  - done.
Qed.

(** C37: Receiving a message that is waiting returns at once with the smaller of
    the two lengths; that many bytes of the sender's buffer are then in the
    receiver's, no other byte of any process has changed, the message is off the
    queue, and the sender is among the ready threads. *)
Theorem sync_recv_delivers fuel s cur ready l t len sa :
  let sender := ebx t in
  let n := Z.min len (edx t) in
  sched_ok (i_thr s) cur ready → state (tcb (i_thr s) cur) ≠ TSTATE_SLEEP →
  vm_ok (t_vm (i_thr s)) → msg_rep s l → sender ∈ l → user_pid cur → user_pid sender →
  message s sender cur len sa → 0 ≤ edx t → in_user (ecx t) n → n < 2147483648 →
  apart cur (ecx t) sender sa n → mapped (v_mem (t_vm (i_thr s))) cur (ecx t) (ecx t + n) →
  ∃ s', sys_sync_recv fuel t s = KRet (syscall_set_retval1 (syscall_set_errno t E_SUCC) n) s'
    ∧ msg_rep s' (remove1 sender l) ∧ received s s' cur (ecx t) sender sa n
    ∧ sched_ok (i_thr s') cur (ready ++ woken (i_thr s) (recv_cv sender) NUM_IDS).
Proof.
  intros sender n Hok Hns Hvm Hrep Hin Hcur Hsend Hmsg Hrl Hda Hn31 Hap Hm.
  assert (is_pid sender) as Hps by (unfold is_pid, user_pid in *; lia).
  destruct (wp_run_val (recv_take sender (ecx t) (edx t) cur) n (λ s',
    msg_rep s' (remove1 sender l) ∧ received s s' cur (ecx t) sender sa n
    ∧ sched_ok (i_thr s') cur (ready ++ woken (i_thr s) (recv_cv sender) NUM_IDS)) s)
    as (s' & E & H1 & H2 & H3).
  { apply (wp_recv_take s cur ready l sender (ecx t) len sa); try done. }
  exists s'. split_and!; [|done..]. unfold sys_sync_recv. cbn zeta.
  rewrite (kbind_run _ _ _ cur s).
  2: { unfold lift, get_curid, gets. cbn. rewrite (si_cur _ _ _ (proj1 Hok)). by destruct s. }
  assert (recv_wait fuel sender cur s = KRet tt s) as Ew.
  { destruct (wp_run_val (recv_blocked sender cur) false (λ s', s' = s) s) as (s1 & E1 & ->).
    { unfold recv_blocked. wp_step. rewrite s32_small by (unfold user_pid, NUM_IDS in *; lia).
      apply (wp_msg_getBlockBySendID s l); [done|]. rewrite decide_True by done.
      rewrite (proj2 (Z.eqb_neq sender NUM_IDS)) by (unfold user_pid in *; lia).
      do 2 wp_mb. wp_step. rewrite (msg_to _ _ _ _ _ Hmsg), u32_small, Z.eqb_refl
        by (unfold is_u32, two32, user_pid, NUM_IDS in *; lia). done. }
    destruct fuel; cbn [recv_wait]; by rewrite (kbind_run _ _ _ _ _ E1). }
  unfold mbind at 1, KM_bind at 1. unfold syscall_get_arg2. fold sender. rewrite Ew. cbn [kbind].
  by rewrite (kbind_run _ _ _ _ _ E).
Qed.

(** ** Sending *)

Lemma msg_rep_same s s' l :
  msgBlock s' = msgBlock s → msgQueue s' = msgQueue s → msg_rep s l → msg_rep s' l.
Proof.
  intros E1 E2 [[H1 H2 H3 H4 H5] Hs]. unfold msg_rep, mirror. rewrite E1, E2.
  split; [by split|done].
Qed.

(** The message part of the state. *)
Definition l_msgs : lens ipc (gmap Z MsgBlock * MsgQueue) :=
  Lens (λ s, (msgBlock s, msgQueue s)) (λ m s, Ipc (i_thr s) m.1 m.2 (msg_lock s)).

#[local] Instance msgs_apart_thr : LensApart l_msgs l_i_thr.
Proof. by split. Qed.
#[local] Instance msgs_apart_lock : LensApart l_msgs l_msg_lock.
Proof. by split. Qed.

Lemma msg_rep_outside s s' l :
  same_outside l_i_thr l_msg_lock s s' → msg_rep s l → msg_rep s' l.
Proof.
  intros Ho. pose proof (Ho _ l_msgs _ _) as E. cbn in E. injection E as E1 E2.
  by apply msg_rep_same.
Qed.

Lemma send_wait_done fuel s l cur : msg_rep s l → (cur ∉ l) → send_wait fuel cur s = KRet tt s.
Proof.
  intros Hrep Hni. destruct (wp_run_val (msg_getBlockBySendID cur) NUM_IDS (λ s', s' = s) s)
    as (s1 & E & ->).
  { apply (wp_msg_getBlockBySendID s l); [done|]. by rewrite decide_False. }
  destruct fuel; cbn [send_wait]; rewrite (kbind_run _ _ _ _ _ E); by rewrite Z.eqb_refl.
Qed.

(** A call that waits for a receiver. *)
Definition sends_to (s : ipc) (cur new : Z) (rest l : list Z) (t : tf_t) (r : K ipc tf_t) : Prop :=
  ∃ s' k, r = KSwitch cur new s' k
    ∧ sched_ok (i_thr s') new rest ∧ unlocked (msg_lock s')
    ∧ t_vm (i_thr s') = t_vm (i_thr s) ∧ sleeps_on (i_thr s') (recv_cv cur) cur
    ∧ msg_rep s' (l ++ [cur])
    ∧ (let b := aget (msgBlock s') cur in
       recv_pid b = s32 (ebx t) ∧ buffer_addr b = s32 (ecx t) ∧ m_length b = s32 (edx t))
    ∧ ∀ s'' ready l', sched_ok (i_thr s'') cur ready → unlocked (msg_lock s'') →
        msg_rep s'' l' → (cur ∉ l') →
        ∃ s3, k s'' = KRet (syscall_set_errno t E_SUCC) s3
          ∧ sched_ok (i_thr s3) cur ready ∧ msg_rep s3 l'.

Lemma request_field s s' x :
  msg_frame s s' →
  let b := aget (msgBlock s) x in let b' := aget (msgBlock s') x in
  recv_pid b' = recv_pid b ∧ buffer_addr b' = buffer_addr b ∧ m_length b' = m_length b.
Proof. intros [_ _ Hr]. by injection (Hr x). Qed.

Lemma msg_rep_request s l cur a b c :
  msg_rep s l →
  msg_rep (Ipc (i_thr s) (<[cur := set_request a b c (aget (msgBlock s) cur)]> (msgBlock s))
             (msgQueue s) (msg_lock s)) l.
Proof.
  intros [[H1 H2 H3 H4 H5] Hs]. split.
  - split; try done. eapply dll_ext; [|exact H3]. intros x _. cbn [mirror TCBPool msgBlock].
    rewrite !aget_links, aget_insert. case_decide; by subst.
  - intros x Hx. cbn [msgBlock]. rewrite aget_insert. case_decide; [subst|by apply Hs].
    by apply Hs.
Qed.

(** The first half of sending: the block is queued with the request, and the
    receivers waiting for it are ready. *)
Lemma send_queues fuel s cur ready l t new rest :
  sched_ok (i_thr s) cur ready → state (tcb (i_thr s) cur) ≠ TSTATE_SLEEP → msg_rep s l →
  cur ∉ l → ready ++ woken (i_thr s) (send_cv cur) NUM_IDS = new :: rest →
  ∃ s', sys_sync_send fuel t s =
      (send_wait fuel cur ≫= λ _, mret (syscall_set_errno t E_SUCC)) s'
    ∧ sched_ok (i_thr s') cur (new :: rest) ∧ t_vm (i_thr s') = t_vm (i_thr s)
    ∧ msg_rep s' (l ++ [cur])
    ∧ recv_pid (aget (msgBlock s') cur) = s32 (ebx t)
    ∧ buffer_addr (aget (msgBlock s') cur) = s32 (ecx t)
    ∧ m_length (aget (msgBlock s') cur) = s32 (edx t).
Proof.
  intros Hok Hns Hrep Hni Erest. assert (is_pid cur) as Hp by apply (si_live _ _ _ (proj1 Hok)).
  unfold sys_sync_send. cbn zeta. rewrite (kbind_run _ _ _ cur s).
  2: { unfold lift, get_curid, gets. cbn. rewrite (si_cur _ _ _ (proj1 Hok)). by destruct s. }
  set (b1 := set_request (s32 (ebx t)) (s32 (edx t)) (s32 (ecx t)) (aget (msgBlock s) cur)).
  set (s1 := Ipc (i_thr s) (<[cur := b1]> (msgBlock s)) (msgQueue s) (msg_lock s)).
  rewrite (kbind_run _ _ _ tt s1).
  2: { unfold mb_upd, chk, mbind, M_bind. unfold is_pid in Hp.
       by rewrite (proj2 (Z.leb_le 0 cur)), (proj2 (Z.ltb_lt cur NUM_IDS)) by lia. }
  destruct (wp_run (msg_enqueue cur) (λ _ s2, msg_rep s2 (l ++ [cur]) ∧ msg_frame s1 s2) s1)
    as ([] & s2 & E2 & Hrep2 & Hf2).
  { apply (wp_msg_enqueue s1 l); [by apply msg_rep_request|done..]. }
  rewrite (kbind_run _ _ _ _ _ E2). pose proof (mf_thr _ _ Hf2) as Et2. cbn [s1 i_thr] in Et2.
  destruct (wp_run (thread_wakeup (send_cv cur)) (λ _ t', sched_ok t' cur (new :: rest)
    ∧ t_vm t' = t_vm (i_thr s)) (i_thr s2)) as ([] & t3 & E3 & Hok3 & Hvm3).
  { rewrite Et2. apply (wp_thread_wakeup (i_thr s) cur ready); [done|done|].
    intros t' Hok' Hvm' _. by rewrite Erest in Hok'. }
  rewrite (kbind_run _ _ _ tt (lset l_i_thr t3 s2)) by (by apply lift_Ok).
  destruct (request_field _ _ cur Hf2) as (F1 & F2 & F3). unfold s1 in F1, F2, F3.
  cbn [msgBlock] in F1, F2, F3. rewrite aget_eq in F1, F2, F3.
  eexists. split; [reflexivity|]. split_and!; [done|done|by apply msg_rep_thr|done..].
Qed.

(** Sending queues the message and blocks: the sender sleeps until some
    receiver has taken its block off the queue, and returns success when it is
    resumed after that. *)
Theorem sync_send_waits fuel s cur ready l t new rest :
  sched_ok (i_thr s) cur ready → state (tcb (i_thr s) cur) ≠ TSTATE_SLEEP → msg_rep s l →
  cur ∉ l → ready ++ woken (i_thr s) (send_cv cur) NUM_IDS = new :: rest →
  sends_to s cur new rest l t (sys_sync_send (S fuel) t s).
Proof.
  intros Hok Hns Hrep Hni Erest. assert (is_pid cur) as Hp by apply (si_live _ _ _ (proj1 Hok)).
  destruct (send_queues (S fuel) s cur ready l t new rest)
    as (s3 & -> & Hok3 & Hvm3 & Hrep3 & F1 & F2 & F3); [done..|].
  destruct (wp_run_val (msg_getBlockBySendID cur) cur (λ s', s' = s3) s3) as (s4 & E4 & ->).
  { apply (wp_msg_getBlockBySendID s3 (l ++ [cur])); [done|].
    rewrite decide_True by set_solver. done. }
  cbn [send_wait]. unfold mbind at 1, KM_bind at 1. rewrite (kbind_run _ _ _ _ _ E4).
  rewrite (proj2 (Z.eqb_neq cur NUM_IDS)) by (unfold is_pid in Hp; lia). cbn [negb].
  destruct (thread_sleep_sleeps l_i_thr l_msg_lock s3 cur (recv_cv cur) new rest Hok3)
    as (s5 & k & E5 & Hlk5 & Hok5 & Hvm5 & Hg5 & Ho5 & Hk5).
  assert (msgBlock s5 = msgBlock s3) as Emb.
  { pose proof (Ho5 _ l_msgs _ _) as Em. by injection Em. }
  unfold mbind at 1, KM_bind at 1. rewrite E5. cbn [kbind].
  do 2 eexists. split; [reflexivity|]. split_and!; [done|done|etrans; [exact Hvm5|exact Hvm3]| | |..].
  - destruct (nolinks_fields _ _ (Hg5 cur)) as (G1 & G2 & _).
    assert (cur ≠ new) as Hne by (intros ->; apply (si_notcur _ _ _ (proj1 Hok3)); left).
    unfold sleeps_on, tcb in *. cbn [lget l_i_thr] in *. rewrite G1, G2. unfold upd.
    by rewrite decide_False, decide_True by done.
  - by eapply msg_rep_outside.
  - cbn zeta. by rewrite Emb, F1, F2, F3.
  - intros s'' ready'' l'' Hok'' Hlk'' Hrep'' Hni''.
    pose proof (Hk5 s'' ready'' Hok'') as Hk. rewrite decide_True in Hk by done.
    destruct Hk as (s6 & E6 & Hok6 & _ & _ & _ & Ho6).
    exists s6. assert (msg_rep s6 l'') as Hrep6 by by eapply msg_rep_outside.
    rewrite E6. cbn [kbind]. split_and!; [|done|done].
    by rewrite (send_wait_done fuel s6 l'' cur).
Qed.
End Ipc.

(** ** Concrete states *)

#[local] Existing Instance sample_layout.
#[local] Existing Instance sample_stack.

Definition sample_ipc_layout : IpcLayout.
Proof.
  refine {| msgBlock_addr := 1060000; msg_buf := 1056768 |}.
  split; [done|]. intros k Hk. unfold kernel_byte, VM_USERLO, MSG_BUF_SIZE in *. cbn. lia.
Defined.

#[local] Existing Instance sample_ipc_layout.

Definition idle_blocks : gmap Z MsgBlock :=
  list_to_map ((λ i, (i, Mb NUM_IDS NUM_IDS i NUM_IDS 0 0)) <$> seqZ 0 NUM_IDS).

(** Process 2 has sent ten bytes to process 1. *)
Definition sample_ipc (v : vm) : ipc :=
  Ipc (sample_sig v) (<[2 := Mb NUM_IDS NUM_IDS 2 1 10 (s32 VM_USERLO)]> idle_blocks) (Mq 2 2)
    released.

Lemma idle_senders m :
  (∀ x, send_pid (aget m x) = send_pid (aget idle_blocks x)) →
  ∀ x, is_pid x → send_pid (aget m x) = x.
Proof.
  intros Hm x Hx. rewrite Hm.
  assert (Forall (λ x, send_pid (aget idle_blocks x) = x) (seqZ 0 NUM_IDS)) as Hall.
  { apply (bool_decide_unpack _). by vm_compute. }
  apply (Forall_elem _ _ _ Hall), elem_of_seqZ. unfold is_pid in Hx. lia.
Qed.

Lemma sample_ipc_rep v : msg_rep (sample_ipc v) [2].
Proof.
  split.
  - split; try done; [apply NoDup_singleton|by repeat constructor].
  - apply idle_senders. intros x. cbn [sample_ipc msgBlock]. rewrite aget_insert.
    case_decide; subst; by vm_compute.
Qed.

(** [sync_recv(2, 0x40000010, 8)] *)
Definition sample_recv : tf_t := set_ebx 2 (set_ecx (VM_USERLO + 16) (set_edx 8 zero)).

Lemma sync_recv_delivers_witness :
  ∃ v s', sys_sync_recv 0 sample_recv (sample_ipc v)
        = KRet (syscall_set_retval1 (syscall_set_errno sample_recv E_SUCC) 8) s'
    ∧ msg_rep s' [].
Proof.
  destruct sample_vm as (v & Hok & Hc & He & _). exists v.
  destruct (sync_recv_delivers 0 (sample_ipc v) 1 [0] [2] sample_recv 10 VM_USERLO)
    as (s' & E & Hrep & _); try done.
  - by apply sample_sig_ok.
  - apply sample_ipc_rep.
  - by left.
  - by left.
  - intros va Hva. change (Z.min 10 (edx sample_recv)) with 8 in Hva.
    change (ecx sample_recv) with (VM_USERLO + 16) in Hva.
    assert (0 ≤ va - VM_USERLO < 4096 - VM_USERLO mod 4096) as Hk
      by (change (VM_USERLO mod 4096) with 0; lia).
    replace va with (VM_USERLO + (va - VM_USERLO)) by lia.
    unfold uread. rewrite (proj1 (pa_of_same_page (v_mem v) 1 VM_USERLO _ Hk)). by rewrite He.
  - exists s'. split; [exact E|exact Hrep].
Defined.

(** Process 0 of [sample_sched] sends to process 1. *)
