(* ===== verification/Bufcache.v ===== *)
(** * The disk and its buffer cache (kern/dev/disk/ide.c, kern/fs/bufcache.c)

    The file system is modelled for one process at a time.  A call that would
    sleep because another process holds a buffer is the outcome [Blocked]; a
    call that sleeps until the disk has served its request is followed by the
    interrupt of the disk.  The disk stores a sector per write, atomically, and
    reports no errors; the writes it has done are recorded in order. *)

From S2P Require Import Prelude Memory Resume Spinlock PhysMap Pmm Container PageTable Isolation.
From S2P Require Import UserCopy Tcb TQueue Thread Signal Ipc.

Definition NBUF : Z := 10.
Definition BSIZE : Z := 512.
Definition B_BUSY : Z := 1.
Definition B_VALID : Z := 2.
Definition B_DIRTY : Z := 4.

(** ** State *)

(** 512 bytes, by offset. *)
Abbreviation block := mem.

(** [struct buf]; pointers to buffers are their indices in [bcache.buf], with
    [NBUF] for [&bcache.head]. *)
Record buf := Buf {
  b_flags : Z; b_dev : Z; b_sector : Z; b_prev : Z; b_next : Z; b_data : block
}.

#[export] Instance zeroed_buf : Zeroed buf := Buf 0 0 0 0 0 ∅.

Definition set_b_flags (v : Z) (b : buf) : buf :=
  Buf v (b_dev b) (b_sector b) (b_prev b) (b_next b) (b_data b).
Definition set_b_prev (v : Z) (b : buf) : buf :=
  Buf (b_flags b) (b_dev b) (b_sector b) v (b_next b) (b_data b).
Definition set_b_next (v : Z) (b : buf) : buf :=
  Buf (b_flags b) (b_dev b) (b_sector b) (b_prev b) v (b_data b).
Definition set_b_data (d : block) (b : buf) : buf :=
  Buf (b_flags b) (b_dev b) (b_sector b) (b_prev b) (b_next b) d.
Definition set_b_home (dev sector flags : Z) (b : buf) : buf :=
  Buf flags dev sector (b_prev b) (b_next b) (b_data b).

(** The statics of the two files, the disk, and the layers below. *)
Record bio := Bio {
  o_ipc : ipc;
  bc_lock : spinlock;
  bufs : gmap Z buf;
  ide_lk : spinlock;
  idequeue : list Z;
  havedisk1 : Z;
  disk : gmap (Z * Z) block;
  trace : list (Z * Z * block)
}.

Definition l_o_ipc : lens bio ipc :=
  Lens o_ipc (λ i s, Bio i (bc_lock s) (bufs s) (ide_lk s) (idequeue s) (havedisk1 s) (disk s)
                       (trace s)).
Definition l_bc_lock : lens bio spinlock :=
  Lens bc_lock (λ lk s, Bio (o_ipc s) lk (bufs s) (ide_lk s) (idequeue s) (havedisk1 s) (disk s)
                          (trace s)).
Definition l_ide_lk : lens bio spinlock :=
  Lens ide_lk (λ lk s, Bio (o_ipc s) (bc_lock s) (bufs s) lk (idequeue s) (havedisk1 s) (disk s)
                         (trace s)).
Definition set_bufs (b : gmap Z buf) (s : bio) : bio :=
  Bio (o_ipc s) (bc_lock s) b (ide_lk s) (idequeue s) (havedisk1 s) (disk s) (trace s).
Definition set_idequeue (q : list Z) (s : bio) : bio :=
  Bio (o_ipc s) (bc_lock s) (bufs s) (ide_lk s) q (havedisk1 s) (disk s) (trace s).
Definition disk_put (k : Z * Z) (d : block) (s : bio) : bio :=
  Bio (o_ipc s) (bc_lock s) (bufs s) (ide_lk s) (idequeue s) (havedisk1 s) (<[k := d]> (disk s))
    (trace s ++ [(k, d)]).

Definition buf_of (s : bio) (i : Z) : buf := aget (bufs s) i.
Definition buf_get {A} (f : buf → A) (i : Z) : M bio A := gets (λ s, f (buf_of s i)).
Definition buf_upd (i : Z) (f : buf → buf) : M bio unit :=
  modify (λ s, set_bufs (<[i := f (buf_of s i)]> (bufs s)) s).

(** [b->flags & mask] *)
Definition flag (mask fl : Z) : bool := negb (Z.land fl mask =? 0).

(** What the controller is told: one of two disks, and 28 bits of sector. *)
Definition disk_key (b : buf) : Z * Z := (Z.land (b_dev b) 1, Z.land (b_sector b) 268435455).

(** Where the linker put the buffers: the channels their users sleep on. *)
Class BufLayout `{I : IpcLayout} := { buf_addr : Z → Z }.

Section Bufcache.
Context `{B : BufLayout}.

Definition wakeup (chan : Z) : M bio unit :=
  lift l_o_ipc (lift l_i_thr (thread_wakeup chan)).

(** ** ide.c *)

(** Programs the controller: no memory changes. *)
Definition ide_start (b : option Z) : M bio unit :=
  match b with
  | None => fail (Panic "ide_start")
  | Some _ => mret tt
  end.

(** The active request is the head of the queue: a write has reached the disk, a
    read arrives in the buffer.  The wait for the controller, which is over here without
    an error, is [ide_wait] of the ports in [Ide]. *)
Definition ide_intr : M bio unit :=
  _ ← lift l_ide_lk (spinlock_acquire "ide_lk");
  q ← gets idequeue;
  match q with
  | [] => lift l_ide_lk spinlock_release
  | b :: q =>
    _ ← modify (set_idequeue q);
    bb ← buf_get id b;
    _ ← (if flag B_DIRTY (b_flags bb)
         then modify (disk_put (disk_key bb) (b_data bb))
         else d ← gets (λ s, aget (disk s) (disk_key bb)); buf_upd b (set_b_data d));
    _ ← buf_upd b (λ x, set_b_flags (Z.lor (b_flags x) B_VALID) x);
    _ ← buf_upd b (λ x, set_b_flags (Z.land (b_flags x) (Z.lnot B_DIRTY)) x);
    _ ← wakeup (buf_addr b);
    _ ← match q with
        | [] => mret tt
        | b' :: _ => ide_start (Some b')
        end;
    lift l_ide_lk spinlock_release
  end.

(** The loop at the end of [ide_rw]: while the process sleeps the lock is free
    and the disk serves the queue.  No other process runs in between. *)
Fixpoint ide_await (fuel : nat) (b : Z) : M bio unit :=
  fl ← buf_get b_flags b;
  if negb (Z.land fl (Z.lor B_VALID B_DIRTY) =? B_VALID) then
    match fuel with
    | O => fail (Blocked "ide_rw")
    | S fuel =>
      _ ← lift l_ide_lk spinlock_release;
      _ ← ide_intr;
      _ ← lift l_ide_lk (spinlock_acquire "ide_lk");
      ide_await fuel b
    end
  else mret tt.

Definition ide_rw (b : Z) : M bio unit :=
  bb ← buf_get id b;
  _ ← (if negb (flag B_BUSY (b_flags bb)) then fail (Panic "ide_rw: buf not busy") else mret tt);
  _ ← (if Z.land (b_flags bb) (Z.lor B_VALID B_DIRTY) =? B_VALID
       then fail (Panic "ide_rw: nothing to do") else mret tt);
  h ← gets havedisk1;
  _ ← (if negb (b_dev bb =? 0) && (h =? 0)
       then fail (Panic "ide_rw: ide disk 1 not present") else mret tt);
  _ ← lift l_ide_lk (spinlock_acquire "ide_lk");
  q ← gets idequeue;
  _ ← modify (set_idequeue (q ++ [b]));
  _ ← match q with
      | [] => ide_start (Some b)
      | _ => mret tt
      end;
  _ ← ide_await (S (length q)) b;
  lift l_ide_lk spinlock_release.

(** ** bufcache.c *)

Definition bufcache_init : M bio unit :=
  _ ← lift l_bc_lock spinlock_init;
  _ ← buf_upd NBUF (λ b, set_b_prev NBUF (set_b_next NBUF b));
  for_range 0 NBUF (λ b,
    n ← buf_get b_next NBUF;
    _ ← buf_upd b (λ x, Buf (b_flags x) (-1) (b_sector x) NBUF n (b_data x));
    _ ← buf_upd n (set_b_prev b);
    buf_upd NBUF (set_b_next b)).

(** The first loop of [bufcache_get], from [b] on along [b_next]. *)
Fixpoint find_cached (fuel : nat) (dev sector b : Z) : M bio (option Z) :=
  if b =? NBUF then mret None
  else match fuel with
  | O => fail OutOfFuel
  | S fuel =>
    bb ← buf_get id b;
    if (u32 (b_dev bb) =? dev) && (b_sector bb =? sector) then mret (Some b)
    else find_cached fuel dev sector (b_next bb)
  end.

(** The second loop, along [b_prev]. *)
Fixpoint find_clean (fuel : nat) (b : Z) : M bio (option Z) :=
  if b =? NBUF then mret None
  else match fuel with
  | O => fail OutOfFuel
  | S fuel =>
    bb ← buf_get id b;
    if negb (flag B_BUSY (b_flags bb)) && negb (flag B_DIRTY (b_flags bb)) then mret (Some b)
    else find_clean fuel (b_prev bb)
  end.

(** The list has [NBUF] elements. *)
Definition bufcache_get (dev sector : Z) : M bio Z :=
  _ ← lift l_bc_lock (spinlock_acquire "bcache.lock");
  first ← buf_get b_next NBUF;
  c ← find_cached (Z.to_nat NBUF) dev sector first;
  match c with
  | Some b =>
    fl ← buf_get b_flags b;
    if negb (flag B_BUSY fl) then
      _ ← buf_upd b (set_b_flags (Z.lor fl B_BUSY));
      _ ← lift l_bc_lock spinlock_release;
      mret b
    else fail (Blocked "bufcache_get")
  | None =>
    last ← buf_get b_prev NBUF;
    f ← find_clean (Z.to_nat NBUF) last;
    match f with
    | Some b =>
      _ ← buf_upd b (set_b_home (s32 dev) sector B_BUSY);
      _ ← lift l_bc_lock spinlock_release;
      mret b
    | None => fail (Panic "bufcache_get: no buffers")
    end
  end.

Definition bufcache_read (dev sector : Z) : M bio Z :=
  b ← bufcache_get dev sector;
  fl ← buf_get b_flags b;
  _ ← (if negb (flag B_VALID fl) then ide_rw b else mret tt);
  mret b.

Definition bufcache_write (b : Z) : M bio unit :=
  fl ← buf_get b_flags b;
  _ ← (if negb (flag B_BUSY fl) then fail (Panic "bwrite") else mret tt);
  _ ← buf_upd b (set_b_flags (Z.lor fl B_DIRTY));
  ide_rw b.

Definition bufcache_release (b : Z) : M bio unit :=
  fl ← buf_get b_flags b;
  _ ← (if negb (flag B_BUSY fl) then fail (Panic "brelse") else mret tt);
  _ ← lift l_bc_lock (spinlock_acquire "bcache.lock");
  n ← buf_get b_next b;
  p ← buf_get b_prev b;
  _ ← buf_upd n (set_b_prev p);
  n' ← buf_get b_next b;
  p' ← buf_get b_prev b;
  _ ← buf_upd p' (set_b_next n');
  h ← buf_get b_next NBUF;
  _ ← buf_upd b (set_b_next h);
  _ ← buf_upd b (set_b_prev NBUF);
  h' ← buf_get b_next NBUF;
  _ ← buf_upd h' (set_b_prev b);
  _ ← buf_upd NBUF (set_b_next b);
  _ ← buf_upd b (λ x, set_b_flags (Z.land (b_flags x) (Z.lnot B_BUSY)) x);
  _ ← wakeup (buf_addr b);
  lift l_bc_lock spinlock_release.
End Bufcache.

(** ** The circular list

    [seg nx pv x l y]: following [nx] from [x] visits [l] and reaches [y], and
    [pv] leads back. *)

Section Ring.
Implicit Types (nx pv : Z → Z) (l : list Z).

Fixpoint seg nx pv (x : Z) l (y : Z) : Prop :=
  match l with
  | [] => nx x = y ∧ pv y = x
  | z :: l => nx x = z ∧ pv z = x ∧ seg nx pv z l y
  end.

Ltac mem_solve :=
  repeat match goal with H : NoDup _ |- _ => clear H | H : seg _ _ _ _ _ |- _ => clear H
    | H : ∀ _, _ |- _ => clear H end;
  rewrite ?not_elem_of_cons, ?not_elem_of_app, ?not_elem_of_cons, ?elem_of_app, ?elem_of_cons,
    ?elem_of_nil in *;
  first
    [ tauto | intros ->; intuition congruence | intros <-; intuition congruence
    | let E := fresh in
      intros E; repeat match goal with H : _ ∈ _ ∨ _ |- _ => rewrite E in H
                  | H : _ ∨ _ ∈ _ |- _ => rewrite E in H end; intuition congruence ].

Lemma seg_app nx pv x l1 z l2 y :
  seg nx pv x (l1 ++ z :: l2) y ↔ seg nx pv x l1 z ∧ seg nx pv z l2 y.
Proof. revert x. induction l1 as [|a l1 IH]; intros x; cbn; [tauto|]. rewrite IH. tauto. Qed.

Lemma seg_rev nx pv x l y : seg nx pv x l y → seg pv nx y (reverse l) x.
Proof.
  revert x. induction l as [|a l IH]; intros x; cbn [seg]; [cbn; tauto|].
  intros (Hn & Hp & Hs). rewrite reverse_cons. apply seg_app. split; [by apply IH|]. done.
Qed.

Lemma seg_ext nx pv nx' pv' x l y :
  (∀ z, z ∈ x :: l → nx' z = nx z) → (∀ z, z ∈ l ++ [y] → pv' z = pv z) →
  seg nx pv x l y → seg nx' pv' x l y.
Proof.
  revert x. induction l as [|a l IH]; intros x Hn Hp; cbn.
  - rewrite Hn, Hp by mem_solve. done.
  - rewrite Hn, Hp by mem_solve. intros (? & ? & ?). split_and!; [done..|].
    apply IH; [| |done]; intros; [apply Hn|apply Hp]; mem_solve.
Qed.

(** The neighbours of an element. *)
Lemma seg_prev nx pv x l1 b l2 y : seg nx pv x (l1 ++ b :: l2) y → pv b ∈ x :: l1.
Proof.
  revert x. induction l1 as [|a l1 IH]; intros x; cbn; [mem_solve|].
  intros (_ & _ & H%IH). mem_solve.
Qed.

Lemma seg_next nx pv x l1 b l2 y : seg nx pv x (l1 ++ b :: l2) y → nx b ∈ l2 ++ [y].
Proof. rewrite seg_app. intros [_ H]. destruct l2; cbn in H; mem_solve. Qed.

(** A function changed at one point. *)
Definition fset (i v : Z) (f : Z → Z) : Z → Z := λ x, if decide (i = x) then v else f x.

Lemma fset_eq i v f : fset i v f i = v.
Proof. unfold fset. by rewrite decide_True. Qed.

Lemma fset_ne i v f x : i ≠ x → fset i v f x = f x.
Proof. intros. unfold fset. by rewrite decide_False. Qed.

Lemma seg_unlink nx pv x l1 b l2 y :
  seg nx pv x (l1 ++ b :: l2) y → NoDup (x :: l1 ++ b :: l2) → (y ∉ l1 ++ b :: l2) →
  seg (fset (pv b) (nx b) nx) (fset (nx b) (pv b) pv) x (l1 ++ l2) y.
Proof.
  revert x. induction l1 as [|a l1 IH]; intros x Hs Hd Hy; cbn in Hs |- *.
  - destruct Hs as (Hn & Hp & Hs). rewrite Hp. destruct l2 as [|z l2]; cbn in *.
    + destruct Hs as [-> _]. by rewrite !fset_eq.
    + destruct Hs as (-> & Hz & Hs). rewrite !fset_eq. split_and!; [done..|].
      apply NoDup_cons in Hd as [Hx [Hb [Hzl _]%NoDup_cons]%NoDup_cons].
      eapply seg_ext; [..|exact Hs]; intros w Hw; apply fset_ne; mem_solve.
  - destruct Hs as (Hn & Hp & Hs). pose proof (seg_prev _ _ _ _ _ _ _ Hs) as Hpb.
    pose proof (seg_next _ _ _ _ _ _ _ Hs) as Hnb.
    rewrite <- app_comm_cons in Hd. apply NoDup_cons in Hd as [Hx Hd]. pose proof Hd as [Ha _]%NoDup_cons.
    split_and!; [rewrite fset_ne; [done|mem_solve]..|]. apply IH; [done|done|mem_solve].
Qed.

Lemma seg_push nx pv x l b :
  seg nx pv x l x → NoDup (x :: l) → (b ∉ x :: l) →
  seg (fset x b (fset b (nx x) nx)) (fset (nx x) b (fset b x pv)) x (b :: l) x.
Proof.
  intros Hs Hd Hb. cbn. rewrite fset_eq. destruct l as [|z l]; cbn in *.
  - destruct Hs as [Hn Hp]. assert (x ≠ b) by mem_solve. rewrite Hn, !fset_eq.
    rewrite 2!(fset_ne x) by done. by rewrite !fset_eq.
  - destruct Hs as (Hn & Hp & Hs). rewrite Hn. apply NoDup_cons in Hd as [Hx [Hz _]%NoDup_cons].
    rewrite (fset_ne z) by mem_solve. rewrite !fset_eq. rewrite (fset_ne x) by mem_solve.
    rewrite fset_eq. split_and!; [done..|].
    eapply seg_ext; [..|exact Hs]; intros w Hw; rewrite 2!fset_ne; mem_solve.
Qed.
End Ring.

(** ** What the cache stores

    Seen from outside the cache holds the blocks that are in use or not yet on
    the disk; a buffer that is neither agrees with the disk and may be recycled
    at any time. *)

Record entry := Entry { e_buf : Z; e_data : block; e_busy : bool; e_dirty : bool }.

Abbreviation resident := (gmap (Z * Z) entry).

Definition bkey (b : buf) : Z * Z := (b_dev b, b_sector b).

(** A sector the controller can address. *)
Definition valid_key (k : Z * Z) : Prop := (0 ≤ k.1 < 2) ∧ 0 ≤ k.2 < 268435456.

Definition flags (busy valid dirty : bool) : Z := cbool busy + 2 * cbool valid + 4 * cbool dirty.

Definition buf_ok (D : gmap (Z * Z) block) (H : resident) (i : Z) (b : buf) : Prop :=
  -1 ≤ b_dev b < 2 ∧ ∃ busy valid dirty, b_flags b = flags busy valid dirty ∧
    if busy || dirty
    then valid = true ∧ valid_key (bkey b)
         ∧ H !! bkey b = Some (Entry i (b_data b) busy dirty)
    else H !! bkey b = None ∧ (valid = true → b_data b = aget D (bkey b)).

Definition is_buf (i : Z) : Prop := 0 ≤ i < NBUF.
Definition nx (s : bio) (i : Z) : Z := b_next (buf_of s i).
Definition pv (s : bio) (i : Z) : Z := b_prev (buf_of s i).

(** The scheduler is in order (its state is touched by wake-ups). *)
Definition sched_fine (i : ipc) : Prop :=
  ∃ cur ready, sched_ok (i_thr i) cur ready ∧ state (tcb (i_thr i) cur) ≠ TSTATE_SLEEP.

Definition lru (s : bio) : Prop :=
  ∃ l, seg (nx s) (pv s) NBUF l NBUF ∧ l ≡ₚ seqZ 0 NBUF.

(** Nothing is locked or queued outside a call. *)
Record bio_idle (s : bio) : Prop := {
  i_bc : unlocked (bc_lock s);
  i_ide : unlocked (ide_lk s);
  i_queue : idequeue s = [];
  i_disk1 : havedisk1 s ≠ 0;
  i_sched : sched_fine (o_ipc s)
}.

Record bc_rep (s : bio) (H : resident) : Prop := {
  r_lru : lru s;
  r_buf i : is_buf i → buf_ok (disk s) H i (buf_of s i);
  r_all k e : H !! k = Some e → is_buf (e_buf e) ∧ bkey (buf_of s (e_buf e)) = k;
  r_uniq i j : is_buf i → is_buf j → valid_key (bkey (buf_of s i)) →
    bkey (buf_of s i) = bkey (buf_of s j) → i = j;
  r_idle : bio_idle s
}.

Lemma flag_busy b v d : flag B_BUSY (flags b v d) = b.
Proof. by destruct b, v, d. Qed.
Lemma flag_valid b v d : flag B_VALID (flags b v d) = v.
Proof. by destruct b, v, d. Qed.
Lemma flag_dirty b v d : flag B_DIRTY (flags b v d) = d.
Proof. by destruct b, v, d. Qed.
Lemma lor_busy b v d : Z.lor (flags b v d) B_BUSY = flags true v d.
Proof. by destruct b, v, d. Qed.
Lemma lor_valid b v d : Z.lor (flags b v d) B_VALID = flags b true d.
Proof. by destruct b, v, d. Qed.
Lemma lor_dirty b v d : Z.lor (flags b v d) B_DIRTY = flags b v true.
Proof. by destruct b, v, d. Qed.
Lemma clear_busy b v d : Z.land (flags b v d) (Z.lnot B_BUSY) = flags false v d.
Proof. by destruct b, v, d. Qed.
Lemma clear_dirty b v d : Z.land (flags b v d) (Z.lnot B_DIRTY) = flags b v false.
Proof. by destruct b, v, d. Qed.
Lemma in_sync b v d :
  (Z.land (flags b v d) (Z.lor B_VALID B_DIRTY) =? B_VALID) = v && negb d.
Proof. by destruct b, v, d. Qed.

Ltac flag_simpl :=
  rewrite ?flag_busy, ?flag_valid, ?flag_dirty, ?lor_busy, ?lor_valid, ?lor_dirty, ?clear_busy,
    ?clear_dirty, ?in_sync.

Lemma disk_key_valid b : valid_key (bkey b) → disk_key b = bkey b.
Proof.
  intros [Hd Hs]. unfold disk_key, bkey in *. cbn in *. f_equal.
  - assert (b_dev b = 0 ∨ b_dev b = 1) as [-> | ->] by lia; done.
  - change 268435455 with (Z.ones 28). rewrite Z.land_ones by lia. apply Z.mod_small. lia.
Qed.

Lemma flags_inj b v d b' v' d' : flags b v d = flags b' v' d' → b = b' ∧ v = v' ∧ d = d'.
Proof. by destruct b, v, d, b', v', d'. Qed.

(** The fields of a buffer that are not links. *)
Definition same_block (b b' : buf) : Prop :=
  b_flags b' = b_flags b ∧ bkey b' = bkey b ∧ b_data b' = b_data b.

Lemma buf_ok_same D H i b b' : same_block b b' → buf_ok D H i b → buf_ok D H i b'.
Proof. intros (Hf & [= Hk1 Hk2] & Hd). unfold buf_ok, bkey. by rewrite Hf, Hk1, Hk2, Hd. Qed.

Lemma rep_links s s' H :
  bc_rep s H → (∀ i, same_block (buf_of s i) (buf_of s' i)) → disk s' = disk s → lru s' →
  bio_idle s' → bc_rep s' H.
Proof.
  intros [_ Hb Ha Hu _] Hs Ed Hl Hi. split; [done|..|done].
  - intros i Hii. rewrite Ed. eapply buf_ok_same; [apply Hs|by apply Hb].
  - intros k e E. destruct (Hs (e_buf e)) as (_ & -> & _). by apply Ha.
  - intros i j. destruct (Hs i) as (_ & -> & _), (Hs j) as (_ & -> & _). apply Hu.
Qed.

(** One buffer comes to hold the block of [k]. *)
Record one_buf (s : bio) (H : resident) (s' : bio) (i : Z) (b' : buf) (k : Z * Z) : Prop := {
  o_i : is_buf i;
  o_bufs j : buf_of s' j = if decide (i = j) then b' else buf_of s j;
  o_key : bkey b' = k;
  o_valid : valid_key k;
  o_links : b_next b' = b_next (buf_of s i) ∧ b_prev b' = b_prev (buf_of s i);
  o_other j : is_buf j → j ≠ i → bkey (buf_of s j) ≠ k;
  o_old : bkey (buf_of s i) = k ∨ H !! bkey (buf_of s i) = None;
  o_disk k' : k' ≠ k → aget (disk s') k' = aget (disk s) k';
  o_idle : bio_idle s'
}.

Lemma one_buf_again s H s1 i b1 k s2 b2 :
  one_buf s H s1 i b1 k → (∀ j, buf_of s2 j = if decide (i = j) then b2 else buf_of s1 j) →
  bkey b2 = k → b_next b2 = b_next b1 ∧ b_prev b2 = b_prev b1 →
  (∀ k', k' ≠ k → aget (disk s2) k' = aget (disk s1) k') → bio_idle s2 →
  one_buf s H s2 i b2 k.
Proof.
  intros [Hi Hb Hk Hv [Hn Hp] Ho Hold Hd _] Hb2 Hk2 [Hn2 Hp2] Hd2 Hi2.
  split; [done| |done|done|by rewrite Hn2, Hp2|done|done| |done].
  - intros j. rewrite Hb2, Hb. by case_decide.
  - intros k' Hk'. by rewrite Hd2, Hd.
Qed.

(** A buffer in use, changed. *)
Lemma one_buf_held s H s' i b' k e :
  bc_rep s H → H !! k = Some e → e_buf e = i →
  (∀ j, buf_of s' j = if decide (i = j) then b' else buf_of s j) → bkey b' = k →
  b_next b' = b_next (buf_of s i) ∧ b_prev b' = b_prev (buf_of s i) →
  (∀ k', k' ≠ k → aget (disk s') k' = aget (disk s) k') → bio_idle s' →
  one_buf s H s' i b' k.
Proof.
  intros Hrep E <- Hb Hk Hl Hd Hi. destruct (r_all _ _ Hrep _ _ E) as [He Hke].
  destruct (r_buf _ _ Hrep _ He) as (_ & bu & v & d & _ & Hok). rewrite Hke in Hok.
  destruct (bu || d); [|by destruct Hok; congruence]. destruct Hok as (_ & Hv & _).
  split; [done..| |by left|done|done].
  intros j Hj Hne E'. apply Hne. apply (r_uniq _ _ Hrep); [done|done| |congruence].
  by rewrite E'.
Qed.

Lemma held_buf s H k i d busy dirty :
  bc_rep s H → H !! k = Some (Entry i d busy dirty) →
  is_buf i ∧ valid_key k ∧ bkey (buf_of s i) = k ∧ b_data (buf_of s i) = d
  ∧ b_flags (buf_of s i) = flags busy true dirty ∧ busy || dirty = true.
Proof.
  intros Hrep E. destruct (r_all _ _ Hrep _ _ E) as [He Hke]. cbn in He, Hke.
  destruct (r_buf _ _ Hrep _ He) as (_ & bu & v & di & Hf & Hok). rewrite Hke, E in Hok.
  destruct (bu || di) eqn:Eo; [|by destruct Hok]. by destruct Hok as (-> & Hv & [= -> -> ->]).
Qed.

Section OneBuf.
Context s H s' i b' k (Hrep : bc_rep s H) (Hone : one_buf s H s' i b' k).

Lemma one_buf_at : buf_of s' i = b'.
Proof using Hone. rewrite (o_bufs _ _ _ _ _ _ Hone). by rewrite decide_True. Qed.

Lemma one_buf_ne j : j ≠ i → buf_of s' j = buf_of s j.
Proof using Hone. intros. rewrite (o_bufs _ _ _ _ _ _ Hone). by rewrite decide_False. Qed.

Lemma one_buf_dev : -1 ≤ b_dev b' < 2.
Proof using Hone.
  destruct (o_valid _ _ _ _ _ _ Hone) as [Hv _]. rewrite <- (o_key _ _ _ _ _ _ Hone) in Hv.
  cbn in Hv. lia.
Qed.

Lemma one_buf_lru : lru s'.
Proof using Hrep Hone.
  destruct (r_lru _ _ Hrep) as (l & Hl & Hp). exists l. split; [|done].
  destruct (o_links _ _ _ _ _ _ Hone) as [Hn Hpv].
  eapply seg_ext; [..|exact Hl]; intros z _; unfold nx, pv;
    rewrite (o_bufs _ _ _ _ _ _ Hone); case_decide; subst; done.
Qed.

Lemma one_buf_uniq x y :
  is_buf x → is_buf y → valid_key (bkey (buf_of s' x)) →
  bkey (buf_of s' x) = bkey (buf_of s' y) → x = y.
Proof using Hrep Hone.
  intros Hx Hy. rewrite !(o_bufs _ _ _ _ _ _ Hone).
  pose proof (o_other _ _ _ _ _ _ Hone) as Ho. rewrite <- (o_key _ _ _ _ _ _ Hone) in Ho.
  repeat case_decide; subst; try done; intros Hv E.
  - by destruct (Ho y Hy).
  - by destruct (Ho x Hx).
  - by apply (r_uniq _ _ Hrep).
Qed.

(** The other buffers, when the map of residents changes at [k] only. *)
Lemma one_buf_others (H' : resident) j :
  (∀ k', k' ≠ k → H' !! k' = H !! k') → is_buf j → j ≠ i →
  buf_ok (disk s') H' j (buf_of s' j).
Proof using Hrep Hone.
  intros HH Hj Hne. rewrite one_buf_ne by done.
  pose proof (o_other _ _ _ _ _ _ Hone j Hj Hne) as Ho.
  destruct (r_buf _ _ Hrep j Hj) as (Hdev & bu & v & d & Hf & Hb).
  split; [done|]. exists bu, v, d. split; [done|].
  rewrite HH by done. by rewrite (o_disk _ _ _ _ _ _ Hone) by done.
Qed.

Lemma one_buf_all (H' : resident) k' e :
  (∀ k', k' ≠ k → H' !! k' = H !! k') → k' ≠ k → H' !! k' = Some e →
  is_buf (e_buf e) ∧ bkey (buf_of s' (e_buf e)) = k'.
Proof using Hrep Hone.
  intros HH Hne E. rewrite HH in E by done.
  destruct (r_all _ _ Hrep _ _ E) as [Hb Hk]. split; [done|]. rewrite one_buf_ne; [done|].
  intros Hi. rewrite Hi in Hk. destruct (o_old _ _ _ _ _ _ Hone); congruence.
Qed.

Lemma rep_put busy dirty :
  b_flags b' = flags busy true dirty → busy || dirty = true →
  bc_rep s' (<[k := Entry i (b_data b') busy dirty]> H).
Proof using Hrep Hone.
  intros Hf Hbd. pose proof (o_key _ _ _ _ _ _ Hone) as Hk.
  assert (∀ k', k' ≠ k → <[k := Entry i (b_data b') busy dirty]> H !! k' = H !! k') as HH.
  { intros. by rewrite lookup_insert_ne. }
  split; [apply one_buf_lru|..|apply one_buf_uniq|apply Hone].
  - intros j Hj. destruct (decide (j = i)) as [->|]; [|by apply one_buf_others].
    rewrite one_buf_at. split; [apply one_buf_dev|]. exists busy, true, dirty. rewrite Hbd, Hk, lookup_insert_eq.
    split_and!; [done|done|apply Hone|done].
  - intros k' e E. destruct (decide (k' = k)) as [->|]; [|by eapply one_buf_all].
    rewrite lookup_insert_eq in E. injection E as <-. cbn [e_buf].
    rewrite one_buf_at. split; [apply Hone|done].
Qed.

Lemma rep_drop valid :
  b_flags b' = flags false valid false → (valid = true → b_data b' = aget (disk s') k) →
  bc_rep s' (delete k H).
Proof using Hrep Hone.
  intros Hf Hd. pose proof (o_key _ _ _ _ _ _ Hone) as Hk.
  assert (∀ k', k' ≠ k → delete k H !! k' = H !! k') as HH.
  { intros. by rewrite lookup_delete_ne. }
  split; [apply one_buf_lru|..|apply one_buf_uniq|apply Hone].
  - intros j Hj. destruct (decide (j = i)) as [->|]; [|by apply one_buf_others].
    rewrite one_buf_at. split; [apply one_buf_dev|]. exists false, valid, false. cbn [orb]. rewrite Hk, lookup_delete_eq.
    done.
  - intros k' e E. destruct (decide (k' = k)) as [->|]; [|by eapply one_buf_all].
    by rewrite lookup_delete_eq in E.
Qed.
End OneBuf.

(** ** The operations *)

Section Ops.
Context `{B : BufLayout}.

Lemma wp_wakeup chan s Q :
  sched_fine (o_ipc s) → (∀ i, sched_fine i → Q tt (lset l_o_ipc i s)) → wp (wakeup chan) Q s.
Proof.
  intros (cur & ready & Hok & Hst) HQ. unfold wakeup. wp_steps.
  apply (wp_thread_wakeup _ cur ready); [done|done|]. intros t Ht _ Htcb. apply HQ.
  exists cur, (ready ++ woken (i_thr (o_ipc s)) chan NUM_IDS). split; [done|]. cbn [lset i_thr l_i_thr].
  rewrite (are_state _ _ _ Htcb). unfold woken_tcbs. by case_decide.
Qed.

Ltac bio_cbn :=
  unfold buf_get, buf_upd, buf_of, disk_put, set_bufs, set_idequeue;
  cbn [o_ipc bc_lock bufs ide_lk idequeue havedisk1 disk trace lset lget l_o_ipc l_bc_lock l_ide_lk].
Ltac bio_go := bio_cbn; repeat (first [wp_step | wp_lock]; bio_cbn).

(** The interrupt serves the request at the head of the queue. *)
Lemma ide_intr_run s b q :
  idequeue s = b :: q → unlocked (ide_lk s) → sched_fine (o_ipc s) →
  ∃ s', ide_intr s = Ok (tt, s') ∧ idequeue s' = q
    ∧ disk s' = (if flag B_DIRTY (b_flags (buf_of s b))
                 then <[disk_key (buf_of s b) := b_data (buf_of s b)]> (disk s) else disk s)
    ∧ (flag B_DIRTY (b_flags (buf_of s b)) = false →
       b_data (buf_of s' b) = aget (disk s) (disk_key (buf_of s b))).
Proof.
  destruct s as [ip bl bs il iq h dk tr]. unfold buf_of. cbn [bufs idequeue ide_lk o_ipc disk].
  intros -> Hlk Hsch.
  match goal with |- ∃ s', _ = _ ∧ @?P s' =>
    assert (wp ide_intr (λ _, P) (Bio ip bl bs il (b :: q) h dk tr)) as Hwp;
    [|by apply wp_run in Hwp as ([] & s' & E & H); exists s'] end.
  unfold ide_intr. bio_go. cbn [id].
  destruct (flag B_DIRTY (b_flags (aget bs b))); bio_go;
    (apply wp_wakeup; [done|]); intros ip' Hip'; bio_go; destruct q; unfold ide_start; bio_go.
  all: split_and!; [done|done|intros Hd; by rewrite ?aget_eq].
Qed.

(** The disk has served the request for buffer [b]. *)
Definition served (s s' : bio) (b : Z) (dirty : bool) : Prop :=
  let bb := buf_of s b in
  let data := if dirty then b_data bb else aget (disk s) (bkey bb) in
  (∀ j, buf_of s' j = if decide (b = j) then set_b_flags (flags true true false) (set_b_data data bb)
                      else buf_of s j)
  ∧ disk s' = (if dirty then <[bkey bb := data]> (disk s) else disk s)
  ∧ trace s' = (if dirty then trace s ++ [(bkey bb, data)] else trace s)
  ∧ bio_idle s'.

Lemma wp_ide_rw s b valid dirty Q :
  bio_idle s → b_flags (buf_of s b) = flags true valid dirty → valid && negb dirty = false →
  valid_key (bkey (buf_of s b)) → (∀ s', served s s' b dirty → Q tt s') → wp (ide_rw b) Q s.
Proof.
  destruct s as [ip bl bs il iq h dk tr]. unfold buf_of. cbn [bufs].
  intros [Hbl Hil Hq Hd1 Hsch] Hf Hsync Hk HQ. cbn in Hbl, Hil, Hq, Hd1, Hsch. subst iq.
  pose proof (disk_key_valid _ Hk) as Hkey. unfold ide_rw. bio_go. cbn [id].
  rewrite Hf, flag_busy. cbn [negb]. bio_go. rewrite in_sync, Hsync. bio_go.
  rewrite (proj2 (Z.eqb_neq h 0)), andb_false_r by done. bio_go. cbn [length ide_await app ide_start].
  bio_go. rewrite Hf, in_sync, Hsync. cbn [negb]. unfold ide_intr. bio_go.
  cbn [id]. rewrite Hf, flag_dirty. rewrite !Hkey.
  destruct dirty; bio_go; rewrite !aget_eq; cbn [b_flags set_b_flags set_b_data]; rewrite ?Hf;
    flag_simpl; (apply wp_wakeup; [done|]); intros ip' Hip'; bio_go; rewrite !aget_eq;
    cbn [b_flags set_b_flags]; rewrite in_sync; bio_go; apply HQ.
  all: split_and!; [|done|done|by split].
  all: intros j; bio_cbn; rewrite !aget_insert; by case_decide.
Qed.

(** The two scans of [bufcache_get]. *)
Definition holds (s : bio) (dev sector i : Z) : Prop :=
  u32 (b_dev (buf_of s i)) = dev ∧ b_sector (buf_of s i) = sector.

Definition clean (s : bio) (i : Z) : Prop :=
  flag B_BUSY (b_flags (buf_of s i)) = false ∧ flag B_DIRTY (b_flags (buf_of s i)) = false.

Lemma wp_find_cached fuel dev sector s x l Q :
  seg (nx s) (pv s) x l NBUF → (NBUF ∉ l) → (length l ≤ fuel)%nat →
  (∀ b, b ∈ l → holds s dev sector b → Q (Some b) s) →
  ((∀ b, b ∈ l → ¬ holds s dev sector b) → Q None s) →
  wp (find_cached fuel dev sector (nx s x)) Q s.
Proof.
  revert x fuel. induction l as [|a l IH]; intros x fuel Hs Hn Hlen Hyes Hno; cbn in Hs.
  - destruct Hs as [-> _]. destruct fuel; cbn; apply wp_ret, Hno; intros b []%elem_of_nil.
  - destruct Hs as (-> & _ & Hs), fuel as [|fuel]; [cbn in Hlen; lia|]. cbn [find_cached].
    rewrite (proj2 (Z.eqb_neq a NBUF)) by (intros ->; apply Hn; left). unfold buf_get. wp_steps.
    cbn [id]. destruct (decide (holds s dev sector a)) as [[E1 E2]|Ha].
    + rewrite E1, E2, !Z.eqb_refl. apply wp_ret, Hyes; [left|by split].
    + replace ((u32 _ =? dev) && _) with false.
      2:{ symmetry. apply not_true_is_false. intros [?%Z.eqb_eq ?%Z.eqb_eq]%andb_true_iff.
          by destruct Ha. }
      apply (IH a); [done|by intros ?; apply Hn; right|cbn in Hlen; lia|..].
      * intros b Hb. apply Hyes. by right.
      * intros Hl. apply Hno. intros b [-> |]%elem_of_cons; auto.
Qed.

Lemma wp_find_clean fuel s x l Q :
  seg (pv s) (nx s) x l NBUF → (NBUF ∉ l) → (length l ≤ fuel)%nat →
  (∀ b, b ∈ l → clean s b → Q (Some b) s) →
  ((∀ b, b ∈ l → ¬ clean s b) → Q None s) →
  wp (find_clean fuel (pv s x)) Q s.
Proof.
  revert x fuel. induction l as [|a l IH]; intros x fuel Hs Hn Hlen Hyes Hno; cbn in Hs.
  - destruct Hs as [-> _]. destruct fuel; cbn; apply wp_ret, Hno; intros b []%elem_of_nil.
  - destruct Hs as (-> & _ & Hs), fuel as [|fuel]; [cbn in Hlen; lia|]. cbn [find_clean].
    rewrite (proj2 (Z.eqb_neq a NBUF)) by (intros ->; apply Hn; left). unfold buf_get. wp_steps.
    cbn [id]. destruct (decide (clean s a)) as [[E1 E2]|Ha].
    + rewrite E1, E2. apply wp_ret, Hyes; [left|by split].
    + replace (negb _ && _) with false.
      2:{ symmetry. apply not_true_is_false. intros [?%negb_true_iff ?%negb_true_iff]%andb_true_iff.
          by destruct Ha. }
      apply (IH a); [done|by intros ?; apply Hn; right|cbn in Hlen; lia|..].
      * intros b Hb. apply Hyes. by right.
      * intros Hl. apply Hno. intros b [-> |]%elem_of_cons; auto.
Qed.

(** With fewer residents than buffers one can be recycled. *)
Lemma some_clean s H :
  bc_rep s H → (size H < Z.to_nat NBUF)%nat → ¬ ∀ i, is_buf i → ¬ clean s i.
Proof.
  intros Hrep Hsz Hall. set (ks := (λ i, bkey (buf_of s i)) <$> seqZ 0 NBUF).
  assert (∀ i, is_buf i → valid_key (bkey (buf_of s i)) ∧ bkey (buf_of s i) ∈ dom H) as Hres.
  { intros i Hi. destruct (r_buf _ _ Hrep i Hi) as (_ & bu & v & d & Hf & Hb).
    destruct (bu || d) eqn:E; [destruct Hb as (_ & Hv & Hk); split; [done|apply elem_of_dom; eauto]|].
    destruct (Hall i Hi). apply orb_false_iff in E as [-> ->].
    split; by rewrite Hf, ?flag_busy, ?flag_dirty. }
  assert (NoDup ks) as Hnd.
  { apply NoDup_fmap_2_strong; [|apply NoDup_seqZ]. intros i j Hi%elem_of_seqZ Hj%elem_of_seqZ.
    apply (r_uniq _ _ Hrep); [unfold is_buf; lia..|]. by apply Hres. }
  assert (length ks ≤ size H)%nat as Hlen; [|unfold ks in Hlen; rewrite length_fmap, length_seqZ in Hlen; lia].
  rewrite <- size_dom. apply submseteq_length, NoDup_submseteq; [done|].
  intros k (i & -> & Hi%elem_of_seqZ)%list_elem_of_fmap. apply elem_of_elements, Hres. unfold is_buf; lia.
Qed.

Lemma lru_bufs s :
  lru s → ∃ l, seg (nx s) (pv s) NBUF l NBUF ∧ NoDup (NBUF :: l) ∧ length l = Z.to_nat NBUF
    ∧ ∀ i, i ∈ l ↔ is_buf i.
Proof.
  intros (l & Hl & Hp). exists l. split; [done|].
  assert (∀ i, i ∈ l ↔ is_buf i) as Hin.
  { intros i. rewrite Hp, elem_of_seqZ. unfold is_buf. lia. }
  split_and!; [|by rewrite Hp|done]. apply NoDup_cons. split.
  - rewrite Hin. unfold is_buf. lia.
  - rewrite Hp. apply NoDup_seqZ.
Qed.

Definition content (s : bio) (H : resident) (k : Z * Z) : block :=
  match H !! k with Some e => e_data e | None => aget (disk s) k end.
Definition pinned (H : resident) (k : Z * Z) : bool :=
  match H !! k with Some e => e_dirty e | None => false end.

(** A block can be had when nobody uses it and there is room for it. *)
Definition can_get (H : resident) (k : Z * Z) : Prop :=
  match H !! k with Some e => e_busy e = false | None => (size H < Z.to_nat NBUF)%nat end.

Lemma holds_key s H i dev sector :
  bc_rep s H → is_buf i → valid_key (dev, sector) →
  holds s dev sector i ↔ bkey (buf_of s i) = (dev, sector).
Proof.
  intros Hrep Hi [Hv _]. cbn in Hv. destruct (r_buf _ _ Hrep i Hi) as [Hd _].
  unfold holds, bkey. assert (u32 (b_dev (buf_of s i)) = dev ↔ b_dev (buf_of s i) = dev) as ->.
  { unfold u32, two32. destruct (decide (b_dev (buf_of s i) = -1)) as [-> |].
    - split; [|lia]. change (-1 mod 4294967296) with 4294967295. lia.
    - by rewrite Z.mod_small by lia. }
  split; [by intros [-> ->]|by intros [= -> ->]].
Qed.

(** [bufcache_get] returns a buffer for the block, which may still have to be
    read. *)
Definition got (s : bio) (H : resident) (k : Z * Z) (i : Z) (s' : bio) : Prop :=
  ∃ b' v d, one_buf s H s' i b' k ∧ b_flags b' = flags true v d
    ∧ disk s' = disk s ∧ trace s' = trace s ∧ d = pinned H k
    ∧ if v then b_data b' = content s H k else H !! k = None.

Lemma wp_bufcache_get s H dev sector Q :
  bc_rep s H → valid_key (dev, sector) → can_get H (dev, sector) →
  (∀ i s', got s H (dev, sector) i s' → Q i s') → wp (bufcache_get dev sector) Q s.
Proof.
  intros Hrep Hv Hcan HQ. pose proof (r_idle _ _ Hrep) as [Hbl Hil Hq Hd1 Hsch].
  destruct (lru_bufs _ (r_lru _ _ Hrep)) as (l & Hl & [HnN Hnd]%NoDup_cons & Hlen & Hin).
  unfold bufcache_get. wp_steps. wp_lock. unfold buf_get. wp_steps.
  set (s0 := lset l_bc_lock locked s).
  apply (wp_find_cached _ _ _ s0 NBUF l); [done|done|lia|..].
  - intros i Hi%Hin Hh. apply (holds_key s H) in Hh; [|done|done|done].
    destruct (r_buf _ _ Hrep i Hi) as (Hdev & bu & v & d & Hf & Hb). rewrite Hh in Hb.
    unfold can_get in Hcan.
    assert (bu = false ∧ d = pinned H (dev, sector)
      ∧ if v then b_data (buf_of s i) = content s H (dev, sector) else H !! (dev, sector) = None)
      as (-> & Hd & Hc).
    { unfold pinned, content. destruct bu, d; cbn [orb] in Hb.
      1-3: destruct Hb as (-> & _ & E); rewrite E in Hcan |- *; done.
      destruct Hb as [-> Hb]. by destruct v; auto. }
    unfold buf_get. wp_steps. subst s0. bio_cbn. change (aget (bufs s) i) with (buf_of s i).
    rewrite Hf, flag_busy. cbn [negb]. bio_go. rewrite lor_busy. apply HQ.
    exists (set_b_flags (flags true v d) (buf_of s i)), v, d. split_and!; [|done..].
    split; [done| |done|done|done| |by left|done|by split].
    + intros j. unfold buf_of. cbn [bufs]. by rewrite aget_insert.
    + intros j Hj Hji E. apply Hji. symmetry. apply (r_uniq _ _ Hrep); [done|done|by rewrite Hh|congruence].
  - intros Hnone. unfold buf_get. wp_steps.
    apply (wp_find_clean _ s0 NBUF (reverse l)); [by apply seg_rev|by rewrite elem_of_reverse|
      rewrite length_reverse; lia|..].
    + intros i Hi%elem_of_reverse%Hin [Hc1 Hc2].
      destruct (r_buf _ _ Hrep i Hi) as (Hdev & bu & v & d & Hf & Hb).
      change (buf_of s0 i) with (buf_of s i) in Hc1, Hc2. rewrite Hf in Hc1, Hc2.
      rewrite flag_busy in Hc1. rewrite flag_dirty in Hc2. subst bu d. destruct Hb as [Hold _].
      assert (s32 dev = dev) as Es by (destruct Hv; apply s32_small; cbn in *; lia).
      subst s0. bio_go. apply HQ.
      assert (H !! (dev, sector) = None) as Hno.
      { destruct (H !! (dev, sector)) as [e|] eqn:E; [|done].
        destruct (r_all _ _ Hrep _ _ E) as [He1 He2]. destruct (Hnone (e_buf e)); [by apply Hin|].
        by apply (holds_key s H). }
      exists (set_b_home (s32 dev) sector B_BUSY (buf_of s i)), false, false.
      split_and!; [|done|done|done|unfold pinned; by rewrite Hno|done].
      split; [done| |by rewrite Es|done|done| |by right|done|by split].
      * intros j. unfold buf_of. cbn [bufs]. by rewrite aget_insert.
      * intros j Hj _ E. destruct (Hnone j); [by apply Hin|]. by apply (holds_key s H).
    + intros Hall. exfalso. destruct (decide (is_Some (H !! (dev, sector)))) as [[e E]|Hno].
      * destruct (r_all _ _ Hrep _ _ E) as [He1 He2]. destruct (Hnone (e_buf e)); [by apply Hin|].
        by apply (holds_key s H).
      * apply (some_clean s H Hrep).
        -- unfold can_get in Hcan. by rewrite (proj2 (eq_None_not_Some _) Hno) in Hcan.
        -- intros i Hi. apply Hall. by rewrite elem_of_reverse, Hin.
Qed.

Lemma wp_bufcache_read s H dev sector Q :
  bc_rep s H → valid_key (dev, sector) → can_get H (dev, sector) →
  (∀ i s', bc_rep s' (<[(dev, sector) :=
       Entry i (content s H (dev, sector)) true (pinned H (dev, sector))]> H) →
     disk s' = disk s → trace s' = trace s → Q i s') →
  wp (bufcache_read dev sector) Q s.
Proof.
  intros Hrep Hv Hcan HQ. unfold bufcache_read. wp_step.
  apply (wp_bufcache_get s H); [done..|].
  intros i s1 (b1 & v & d & Hone & Hf & Ed & Et & -> & Hc).
  pose proof (one_buf_at _ _ _ _ _ _ Hone) as Hat. unfold buf_get. wp_steps.
  rewrite Hat, Hf, flag_valid. destruct v; cbn [negb]; wp_steps.
  { apply HQ; [|done|done]. rewrite <- Hc. by eapply rep_put. }
  assert (content s H (dev, sector) = aget (disk s) (dev, sector)) as Ec
    by (unfold content; by rewrite Hc).
  assert (pinned H (dev, sector) = false) as Ep by (unfold pinned; by rewrite Hc).
  rewrite Ep in *. pose proof (o_key _ _ _ _ _ _ Hone) as Hk.
  apply (wp_ide_rw s1 i false false); [apply Hone|by rewrite Hat|done|rewrite Hat, Hk; done|].
  intros s2 (Hb2 & Hd2 & Ht2 & Hi2). rewrite Hat in Hb2. wp_steps.
  apply HQ; [|by rewrite Hd2|by rewrite Ht2]. rewrite Ec.
  pose proof (one_buf_again _ _ _ _ _ _ _ _ Hone Hb2 Hk (conj eq_refl eq_refl)) as Hone2.
  rewrite <- Hk, <- Ed in *.
  by apply (rep_put _ _ _ _ _ _ Hrep (Hone2 ltac:(by rewrite Hd2) Hi2) true false).
Qed.

Lemma wp_bufcache_write s H k i d dirty Q :
  bc_rep s H → H !! k = Some (Entry i d true dirty) →
  (∀ s', bc_rep s' (<[k := Entry i d true false]> H) → disk s' = <[k := d]> (disk s) →
     trace s' = trace s ++ [(k, d)] → Q tt s') →
  wp (bufcache_write i) Q s.
Proof.
  intros Hrep E HQ. destruct (held_buf _ _ _ _ _ _ _ Hrep E) as (Hi & Hv & Hk & Hd & Hf & _).
  pose proof (r_idle _ _ Hrep) as Hidle.
  unfold bufcache_write, buf_get, buf_upd. wp_steps. rewrite Hf, flag_busy. cbn [negb]. wp_steps.
  rewrite lor_dirty. set (s1 := set_bufs _ s).
  assert (∀ j, buf_of s1 j = if decide (i = j) then set_b_flags (flags true true true) (buf_of s i)
                             else buf_of s j) as Hb1.
  { intros j. subst s1. unfold buf_of. cbn [bufs set_bufs]. apply aget_insert. }
  pose proof (Hb1 i) as Hbi. rewrite decide_True in Hbi by done.
  assert (bio_idle s1) as Hidle1 by (destruct Hidle; by split).
  apply (wp_ide_rw s1 i true true); [done|by rewrite Hbi|done|rewrite Hbi; by rewrite <- Hk in Hv|].
  intros s2 (Hb2 & Hd2 & Ht2 & Hi2). rewrite Hbi in Hb2, Hd2, Ht2.
  change (bkey (set_b_flags _ ?b)) with (bkey b) in *.
  change (b_data (set_b_flags _ ?b)) with (b_data b) in *. rewrite Hk, Hd in Hd2, Ht2.
  apply HQ; [|done|done]. rewrite Hd in Hb2.
  apply (rep_put s H s2 i (set_b_flags (flags true true false) (set_b_data d
    (set_b_flags (flags true true true) (buf_of s i)))) k Hrep) with (dirty := false); [|done|done].
  apply (one_buf_held _ _ _ _ _ _ _ Hrep E); [done| |done|done| |done].
  - intros j. rewrite Hb2, Hb1. by case_decide.
  - intros k' Hk'. rewrite Hd2. by apply aget_ne.
Qed.

(** Changing the bytes of a buffer in use. *)
Definition buf_write (i : Z) (f : block → block) : M bio unit :=
  buf_upd i (λ x, set_b_data (f (b_data x)) x).

Lemma wp_buf_write s H k i d dirty f Q :
  bc_rep s H → H !! k = Some (Entry i d true dirty) →
  (∀ s', bc_rep s' (<[k := Entry i (f d) true dirty]> H) → disk s' = disk s →
     trace s' = trace s → Q tt s') →
  wp (buf_write i f) Q s.
Proof.
  intros Hrep E HQ. destruct (held_buf _ _ _ _ _ _ _ Hrep E) as (Hi & Hv & Hk & Hd & Hf & _).
  unfold buf_write, buf_upd. wp_steps. rewrite Hd. apply HQ; [|done|done].
  apply (rep_put s H _ i (set_b_data (f d) (buf_of s i)) k Hrep); [|done|done].
  apply (one_buf_held _ _ _ _ _ _ _ Hrep E); [done| |done|done|done|by destruct Hrep, r_idle0].
  intros j. unfold buf_of. cbn [bufs set_bufs]. apply aget_insert.
Qed.

(** [b->flags |= B_DIRTY] *)
Lemma wp_buf_pin s H k i d dirty Q :
  bc_rep s H → H !! k = Some (Entry i d true dirty) →
  (∀ s', bc_rep s' (<[k := Entry i d true true]> H) → disk s' = disk s →
     trace s' = trace s → Q tt s') →
  wp (buf_upd i (λ x, set_b_flags (Z.lor (b_flags x) B_DIRTY) x)) Q s.
Proof.
  intros Hrep E HQ. destruct (held_buf _ _ _ _ _ _ _ Hrep E) as (Hi & Hv & Hk & Hd & Hf & _).
  unfold buf_upd. wp_steps. rewrite Hf, lor_dirty. apply HQ; [|done|done]. rewrite <- Hd.
  apply (rep_put s H _ i (set_b_flags (flags true true true) (buf_of s i)) k Hrep); [|done|done].
  apply (one_buf_held _ _ _ _ _ _ _ Hrep E); [done| |done|done|done|by destruct Hrep, r_idle0].
  intros j. unfold buf_of. cbn [bufs set_bufs]. apply aget_insert.
Qed.

(** From [s0] on only links have changed; they are [fn] and [fp]. *)
Record linked (s0 s : bio) (fn fp : Z → Z) : Prop := {
  k_nx x : nx s x = fn x;
  k_pv x : pv s x = fp x;
  k_same x : same_block (buf_of s0 x) (buf_of s x);
  k_rest : s = set_bufs (bufs s) s0
}.

Lemma same_block_trans b1 b2 b3 : same_block b1 b2 → same_block b2 b3 → same_block b1 b3.
Proof. unfold same_block. intros (<- & <- & <-) (<- & <- & <-). done. Qed.

Lemma wp_set_next i v s0 s fn fp Q :
  linked s0 s fn fp → (∀ s', linked s0 s' (fset i v fn) fp → Q tt s') →
  wp (buf_upd i (set_b_next v)) Q s.
Proof.
  intros [Hn Hp Hs Hr] HQ. unfold buf_upd. wp_step. apply HQ.
  split; [..|by rewrite Hr]; intros x; unfold nx, pv, buf_of in *; cbn [bufs set_bufs];
    rewrite aget_insert; try unfold fset; case_decide as E; try done; rewrite <- E.
  - apply Hp.
  - eapply same_block_trans; [apply Hs|done].
Qed.

Lemma wp_set_prev i v s0 s fn fp Q :
  linked s0 s fn fp → (∀ s', linked s0 s' fn (fset i v fp) → Q tt s') →
  wp (buf_upd i (set_b_prev v)) Q s.
Proof.
  intros [Hn Hp Hs Hr] HQ. unfold buf_upd. wp_step. apply HQ.
  split; [..|by rewrite Hr]; intros x; unfold nx, pv, buf_of in *; cbn [bufs set_bufs];
    rewrite aget_insert; try unfold fset; case_decide as E; try done; rewrite <- E.
  - apply Hn.
  - eapply same_block_trans; [apply Hs|done].
Qed.

Lemma wp_get_next i s0 s fn fp Q : linked s0 s fn fp → Q (fn i) s → wp (buf_get b_next i) Q s.
Proof. intros H HQ. unfold buf_get. wp_step. change (b_next _) with (nx s i). by rewrite (k_nx _ _ _ _ H). Qed.

Lemma wp_get_prev i s0 s fn fp Q : linked s0 s fn fp → Q (fp i) s → wp (buf_get b_prev i) Q s.
Proof. intros H HQ. unfold buf_get. wp_step. change (b_prev _) with (pv s i). by rewrite (k_pv _ _ _ _ H). Qed.

Ltac link_step :=
  wp_step;
  lazymatch goal with
  | H : linked _ ?s _ _ |- wp (buf_get b_next _) _ ?s => apply (wp_get_next _ _ _ _ _ _ H)
  | H : linked _ ?s _ _ |- wp (buf_get b_prev _) _ ?s => apply (wp_get_prev _ _ _ _ _ _ H)
  | H : linked _ ?s _ _ |- wp (buf_upd _ (set_b_next _)) _ ?s =>
    apply (wp_set_next _ _ _ _ _ _ _ H); clear H; let s' := fresh "s" in intros s' H; cbn beta
  | H : linked _ ?s _ _ |- wp (buf_upd _ (set_b_prev _)) _ ?s =>
    apply (wp_set_prev _ _ _ _ _ _ _ H); clear H; let s' := fresh "s" in intros s' H; cbn beta
  end.

(** Moving a buffer to the front of the list. *)
Lemma move_to_front s b :
  lru s → is_buf b → ∃ l, l ≡ₚ seqZ 0 NBUF ∧ b ≠ NBUF ∧ nx s b ≠ b
    ∧ let n1 := fset (pv s b) (nx s b) (nx s) in let p1 := fset (nx s b) (pv s b) (pv s) in
      seg (fset NBUF b (fset b (n1 NBUF) n1)) (fset (n1 NBUF) b (fset b NBUF p1)) NBUF l NBUF.
Proof.
  intros (l & Hl & Hp) Hb.
  assert (∀ i, i ∈ l ↔ is_buf i) as Hin by (intros i; rewrite Hp, elem_of_seqZ; unfold is_buf; lia).
  assert (NoDup l) as Hnd by (rewrite Hp; apply NoDup_seqZ).
  assert (NBUF ∉ l) as HN by (rewrite Hin; unfold is_buf; lia).
  destruct (list_elem_of_split l b) as (l1 & l2 & ->); [by apply Hin|].
  assert (NoDup (NBUF :: l1 ++ b :: l2)) as Hnd' by by apply NoDup_cons.
  exists (b :: l1 ++ l2).
  assert (b ∉ NBUF :: l1 ++ l2) as Hbn.
  { rewrite <- Permutation_middle in Hnd'. rewrite (Permutation_swap b NBUF) in Hnd'.
    by apply NoDup_cons in Hnd' as [? _]. }
  split_and!.
  - by rewrite Permutation_middle.
  - intros ->. apply HN. apply elem_of_app. right. left.
  - intros E. pose proof (seg_next _ _ _ _ _ _ _ Hl) as Hn. rewrite E in Hn.
    rewrite elem_of_app, list_elem_of_singleton in Hn. apply Hbn.
    destruct Hn as [? | ->]; [right; apply elem_of_app; by right|left].
  - cbn zeta. apply seg_push; [by apply seg_unlink| |done].
    apply NoDup_cons. rewrite <- Permutation_middle in Hnd. apply NoDup_cons in Hnd as [_ Hnd].
    split; [|done]. rewrite elem_of_app in HN |- *. rewrite elem_of_cons in HN. tauto.
Qed.

Lemma wp_bufcache_release s H k i d dirty Q :
  bc_rep s H → H !! k = Some (Entry i d true dirty) → (dirty = false → d = aget (disk s) k) →
  (∀ s', bc_rep s' (if dirty then <[k := Entry i d false true]> H else delete k H) →
     disk s' = disk s → trace s' = trace s → Q tt s') →
  wp (bufcache_release i) Q s.
Proof.
  intros Hrep E Hcoh HQ. destruct (held_buf _ _ _ _ _ _ _ Hrep E) as (Hi & Hv & Hk & Hd & Hf & _).
  pose proof (r_idle _ _ Hrep) as Hidle. unfold bufcache_release.
  wp_step. unfold buf_get at 1. wp_step. rewrite Hf, flag_busy. cbn [negb]. wp_steps.
  apply wp_spinlock_acquire; [apply Hidle|]. set (s0 := lset l_bc_lock locked s).
  destruct (move_to_front s i (r_lru _ _ Hrep) Hi) as (l & Hp & Hi' & Hnx & Hl).
  assert (linked s0 s0 (nx s) (pv s)) as Hl0 by (split; [done..|by destruct s]).
  do 12 link_step.
  rewrite (fset_ne (nx s i) _ _ i) in Hl0 by done. rewrite (fset_ne i _ _ NBUF) in Hl0 by done.
  destruct Hl0 as [Hn6 Hp6 Hs6 E6]. change (buf_of s0) with (buf_of s) in Hs6.
  assert (bc_rep (set_bufs (bufs s6) s) H) as Hrep7.
  { apply (rep_links s); [done|done|done| |by destruct Hidle].
    exists l. split; [|done]. eapply seg_ext; [..|exact Hl]; intros z _; [apply Hn6|apply Hp6]. }
  set (s7 := set_bufs (bufs s6) s) in *.
  destruct (held_buf _ _ _ _ _ _ _ Hrep7 E) as (_ & _ & Hk7 & Hd7 & Hf7 & _).
  change (buf_of s7 i) with (buf_of s6 i) in *.
  unfold buf_upd. wp_steps. rewrite Hf7, clear_busy, E6. apply wp_wakeup; [apply Hidle|].
  intros ip Hip. bio_go.
  set (s8 := Bio _ _ _ _ _ _ _ _).
  assert (one_buf s7 H s8 i (set_b_flags (flags false true dirty) (buf_of s6 i)) k) as Hone.
  { apply (one_buf_held _ _ _ _ _ _ _ Hrep7 E); [done| |done|done|done|by destruct Hidle].
    intros j. unfold buf_of. cbn [bufs s8 s7 set_bufs]. apply aget_insert. }
  apply HQ; [|done|done]. destruct dirty.
  - rewrite <- Hd7. by apply (rep_put _ _ _ _ _ _ Hrep7 Hone).
  - apply (rep_drop _ _ _ _ _ _ Hrep7 Hone true); [done|]. intros _. cbn [b_data set_b_flags].
    rewrite Hd7. by apply Hcoh.
Qed.
End Ops.

(** ** Initialisation *)

Section Init.
Context `{B : BufLayout}.

(** [b] buffers have been put on the list. *)
Record init_upto (s0 s : bio) (b : Z) : Prop := {
  u_seg : seg (nx s) (pv s) NBUF (reverse (seqZ 0 b)) NBUF;
  u_dev i : 0 ≤ i < b → b_dev (buf_of s i) = -1;
  u_flags i : is_buf i → b_flags (buf_of s i) = 0;
  u_rest : s = set_bufs (bufs s) s0
}.

Lemma wp_init_one s0 s b Q :
  init_upto s0 s b → is_buf b → (∀ s', init_upto s0 s' (b + 1) → Q tt s') →
  wp (n ← buf_get b_next NBUF;
      _ ← buf_upd b (λ x, Buf (b_flags x) (-1) (b_sector x) NBUF n (b_data x));
      _ ← buf_upd n (set_b_prev b);
      buf_upd NBUF (set_b_next b)) Q s.
Proof.
  intros [Hl Hd Hf Hr] Hb HQ. unfold buf_get, buf_upd. wp_steps. set (n := b_next (buf_of s NBUF)).
  assert (∀ i, i ∈ reverse (seqZ 0 b) ↔ 0 ≤ i < b) as Hin
    by (intros i; rewrite elem_of_reverse, elem_of_seqZ; lia).
  assert (NBUF ∉ reverse (seqZ 0 b)) as HN by (rewrite Hin; unfold is_buf in Hb; lia).
  assert (b ≠ NBUF) as HbN by (unfold is_buf in Hb; lia).
  assert (n ≠ b) as Hnb.
  { subst n. change (b_next _) with (nx s NBUF). intros E.
    destruct (reverse (seqZ 0 b)) as [|z l] eqn:Er; cbn in Hl; [destruct Hl; congruence|].
    destruct Hl as (Hz & _). assert (z = b) as -> by congruence.
    pose proof (proj1 (Hin b) ltac:(left)). lia. }
  assert (seg (nx s) (pv s) NBUF (reverse (seqZ 0 b)) NBUF) as Hseg by done.
  apply seg_push with (b := b) in Hseg.
  2:{ apply NoDup_cons. split; [done|]. rewrite (reverse_Permutation (seqZ 0 b)). apply NoDup_seqZ. }
  2:{ rewrite not_elem_of_cons, Hin. lia. }
  apply HQ. assert (reverse (seqZ 0 (b + 1)) = b :: reverse (seqZ 0 b)) as Er.
  { rewrite seqZ_app, reverse_app by (unfold is_buf in Hb; lia). done. }
  split.
  - rewrite Er. eapply seg_ext; [..|exact Hseg]; intros x _; unfold nx, pv, buf_of, fset;
      cbn [bufs set_bufs]; rewrite !aget_insert; fold n; repeat case_decide; subst; done.
  - intros i Hi. unfold buf_of. cbn [bufs set_bufs].
    rewrite aget_ne by (unfold is_buf in Hb; lia). rewrite !aget_insert. fold (buf_of s i).
    assert (i ≠ b → b_dev (buf_of s i) = -1) by (intros; apply Hd; lia).
    repeat case_decide; try congruence; auto. cbn. subst i. auto.
  - intros i Hi. pose proof (Hf i Hi) as Hfi. unfold buf_of in *. cbn [bufs set_bufs].
    rewrite aget_ne by (unfold is_buf in Hi; lia). rewrite !aget_insert.
    repeat case_decide; cbn; first [done | by apply (Hf b) | congruence].
  - by rewrite Hr.
Qed.

(** The static buffers are zero at boot. *)
Lemma wp_bufcache_init s Q :
  (∀ i, is_buf i → b_flags (buf_of s i) = 0) → bio_idle s →
  (∀ s', bc_rep s' ∅ → disk s' = disk s → trace s' = trace s → Q tt s') →
  wp bufcache_init Q s.
Proof.
  intros Hz Hidle HQ. unfold bufcache_init. wp_steps. wp_lock. unfold buf_upd at 1. wp_steps.
  set (s0 := lset l_bc_lock released s). apply (wp_for_range (λ b s, init_upto s0 s b)); [done| | |].
  - split; [|lia| |done].
    + change (reverse (seqZ 0 0)) with (@nil Z). cbn [seg]. unfold nx, pv, buf_of.
      cbn [bufs set_bufs]. by rewrite !aget_eq.
    + intros i Hi. unfold buf_of. cbn [bufs set_bufs]. rewrite aget_ne; [by apply Hz|].
      unfold is_buf in Hi. lia.
  - intros b s1 Hb Hup. by apply (wp_init_one s0 s1).
  - intros s1 [Hl Hd Hf Hr]. rewrite Hr. apply HQ; [|done|done].
    split; [|..|destruct Hidle; by split].
    + exists (reverse (seqZ 0 NBUF)). split; [done|apply reverse_Permutation].
    + intros i Hi. change (buf_of _ i) with (buf_of s1 i). unfold buf_ok. rewrite (Hd i Hi).
      split; [lia|]. exists false, false, false. by rewrite (Hf i Hi).
    + intros k e. by rewrite lookup_empty.
    + intros i j Hi Hj [Hv _] _. change (buf_of _ i) with (buf_of s1 i) in Hv.
      unfold bkey in Hv. rewrite (Hd i Hi) in Hv. cbn in Hv. lia.
Qed.
End Init.

(** ** The cache as a store *)

(** A block that is in use, or newer than the disk's. *)
Record held := Held { h_data : block; h_busy : bool; h_dirty : bool }.

Record store := Store {
  st_held : gmap (Z * Z) held;
  st_disk : gmap (Z * Z) block;
  st_writes : list (Z * Z * block)
}.

Inductive bop :=
| OpRead (k : Z * Z)
| OpModify (k : Z * Z) (f : block → block)
| OpWrite (k : Z * Z)
| OpRelease (k : Z * Z).

Definition in_use (st : store) (k : Z * Z) : Prop :=
  match st_held st !! k with Some h => h_busy h = true | None => False end.

(** The rules at the top of bufcache.c: a block is used by one client at a time,
    and a change is written before the block is released. *)
Definition b_legal (op : bop) (st : store) : Prop :=
  match op with
  | OpRead k => valid_key k ∧
    match st_held st !! k with
    | Some h => h_busy h = false
    | None => (size (st_held st) < Z.to_nat NBUF)%nat
    end
  | OpModify k _ | OpWrite k => in_use st k
  | OpRelease k => in_use st k ∧
    match st_held st !! k with
    | Some h => h_dirty h = false → h_data h = aget (st_disk st) k
    | None => False
    end
  end.

Definition st_content (st : store) (k : Z * Z) : held :=
  default (Held (aget (st_disk st) k) false false) (st_held st !! k).

(** What the client sees of a block it reads, and the store after the call. *)
Definition b_spec (op : bop) (st : store) : block * store :=
  let put k h := Store (<[k := h]> (st_held st)) (st_disk st) (st_writes st) in
  match op with
  | OpRead k =>
    let h := st_content st k in (h_data h, put k (Held (h_data h) true (h_dirty h)))
  | OpModify k f => let h := st_content st k in (∅, put k (Held (f (h_data h)) true (h_dirty h)))
  | OpWrite k =>
    let d := h_data (st_content st k) in
    (∅, Store (<[k := Held d true false]> (st_held st)) (<[k := d]> (st_disk st))
          (st_writes st ++ [(k, d)]))
  | OpRelease k =>
    let h := st_content st k in
    (∅, if h_dirty h then put k (Held (h_data h) false true)
        else Store (delete k (st_held st)) (st_disk st) (st_writes st))
  end.

Fixpoint b_specs (ops : list bop) (st : store) : list block * store :=
  match ops with
  | [] => ([], st)
  | op :: ops =>
    let '(r, st1) := b_spec op st in let '(rs, st2) := b_specs ops st1 in (r :: rs, st2)
  end.

Fixpoint b_legals (ops : list bop) (st : store) : Prop :=
  match ops with
  | [] => True
  | op :: ops => b_legal op st ∧ b_legals ops (b_spec op st).2
  end.

Section Refine.
Context `{B : BufLayout}.

(** The client keeps the pointers [bufcache_read] returned. *)
Abbreviation client := (gmap (Z * Z) Z * bio)%type.

Definition ptr (k : Z * Z) : M client Z := gets (λ c : client, aget c.1 k).

Definition b_impl (op : bop) : M client block :=
  match op with
  | OpRead k =>
    b ← lift l_snd (bufcache_read k.1 k.2);
    _ ← modify (λ c : client, (<[k := b]> c.1, c.2));
    lift l_snd (buf_get b_data b)
  | OpModify k f => b ← ptr k; _ ← lift l_snd (buf_write b f); mret ∅
  | OpWrite k => b ← ptr k; _ ← lift l_snd (bufcache_write b); mret ∅
  | OpRelease k => b ← ptr k; _ ← lift l_snd (bufcache_release b); mret ∅
  end.

Fixpoint b_impls (ops : list bop) : M client (list block) :=
  match ops with
  | [] => mret []
  | op :: ops => r ← b_impl op; rs ← b_impls ops; mret (r :: rs)
  end.

Definition to_held (e : entry) : held := Held (e_data e) (e_busy e) (e_dirty e).

(** The cache and its clients' pointers represent the store. *)
Definition stores (c : client) (st : store) : Prop :=
  ∃ H, bc_rep c.2 H ∧ st_held st = to_held <$> H ∧ st_disk st = disk c.2 ∧ st_writes st = trace c.2
    ∧ ∀ k e, H !! k = Some e → e_busy e = true → aget c.1 k = e_buf e.

Lemma in_use_entry (c : client) st H k :
  st_held st = to_held <$> H →
  (∀ k e, H !! k = Some e → e_busy e = true → aget c.1 k = e_buf e) → in_use st k →
  ∃ d dirty, H !! k = Some (Entry (aget c.1 k) d true dirty)
    ∧ st_content st k = Held d true dirty ∧ st_held st !! k = Some (Held d true dirty).
Proof.
  intros E Hp. unfold in_use, st_content. rewrite E, lookup_fmap.
  destruct (H !! k) as [[i d [] dirty]|] eqn:Ek; [|done..]. intros _. exists d, dirty.
  rewrite (Hp _ _ Ek eq_refl). done.
Qed.

Lemma stores_put (c : client) (p' : gmap (Z * Z) Z) (s' : bio) (H : resident) (k : Z * Z) (i : Z)
    (d : block) (busy dirty : bool) (st' : store) :
  bc_rep s' (<[k := Entry i d busy dirty]> H) →
  st_held st' = <[k := Held d busy dirty]> (to_held <$> H) → st_disk st' = disk s' →
  st_writes st' = trace s' →
  (∀ k e, H !! k = Some e → e_busy e = true → aget c.1 k = e_buf e) →
  (∀ k', k' ≠ k → aget p' k' = aget c.1 k') → (busy = true → aget p' k = i) →
  stores (p', s') st'.
Proof.
  intros Hrep Eh Ed Ew Hp Hp' Hi. exists (<[k := Entry i d busy dirty]> H).
  split_and!; [done|by rewrite Eh, fmap_insert|done|done|]. cbn [fst].
  intros k' e. destruct (decide (k' = k)) as [->|Hne].
  - rewrite lookup_insert_eq. intros [= <-]. exact Hi.
  - rewrite lookup_insert_ne by done. rewrite Hp' by done. apply Hp.
Qed.

Lemma wp_b_impl op c st Q :
  stores c st → b_legal op st →
  (∀ c', stores c' (b_spec op st).2 → Q (b_spec op st).1 c') → wp (b_impl op) Q c.
Proof.
  destruct c as [p s]. intros (H & Hrep & Eh & Ed & Ew & Hp) Hleg HQ. cbn [fst snd] in *.
  destruct op as [[dev sector]|k f|k|k]; cbn [b_impl b_legal b_spec fst snd] in *.
  - destruct Hleg as [Hv Hcan]. wp_steps. cbn [lget l_snd].
    assert (h_data (st_content st (dev, sector)) = content s H (dev, sector)
      ∧ h_dirty (st_content st (dev, sector)) = pinned H (dev, sector)) as [Ec Ep].
    { unfold st_content, content, pinned. rewrite Eh, Ed, lookup_fmap.
      by destruct (H !! (dev, sector)) as [[]|]. }
    apply (wp_bufcache_read s H); [done|done| |].
    { unfold can_get. rewrite Eh, lookup_fmap in Hcan.
      destruct (H !! (dev, sector)) as [[]|]; [done|]. by rewrite map_size_fmap in Hcan. }
    intros i s' Hrep' Ed' Et'. unfold buf_get. wp_steps. cbn [lset lget l_snd fst snd].
    destruct (held_buf _ _ _ _ _ _ _ Hrep' (lookup_insert_eq _ _ _)) as (_ & _ & _ & -> & _).
    rewrite Ec in *. apply HQ. rewrite Ep. eapply (stores_put (p, s)); [exact Hrep'|..]; cbn;
      [by rewrite Eh|by rewrite Ed'|by rewrite Et'|done|..].
    + intros k' Hne. by rewrite aget_ne.
    + intros _. by rewrite aget_eq.
  - destruct (in_use_entry (p, s) st H k Eh Hp Hleg) as (d & dirty & Ek & Ec & _).
    unfold ptr. wp_steps. apply (wp_buf_write s H k _ d dirty); [done|done|].
    intros s' Hrep' Ed' Et'. wp_steps. apply HQ. rewrite Ec.
    eapply (stores_put (p, s)); [exact Hrep'|..]; cbn;
      [by rewrite Eh|by rewrite Ed'|by rewrite Et'|done..].
  - destruct (in_use_entry (p, s) st H k Eh Hp Hleg) as (d & dirty & Ek & Ec & _).
    unfold ptr. wp_steps. apply (wp_bufcache_write s H k _ d dirty); [done|done|].
    intros s' Hrep' Ed' Et'. wp_steps. apply HQ. rewrite Ec.
    eapply (stores_put (p, s)); [exact Hrep'|..]; cbn;
      [by rewrite Eh|by rewrite Ed', Ed|by rewrite Et', Ew|done..].
  - destruct Hleg as [Hu Hd].
    destruct (in_use_entry (p, s) st H k Eh Hp Hu) as (d & dirty & Ek & Ec & Es). rewrite Es in Hd.
    unfold ptr. wp_steps. apply (wp_bufcache_release s H k _ d dirty); [done|done|by rewrite <- Ed|].
    intros s' Hrep' Ed' Et'. wp_steps. apply HQ. rewrite Ec. cbn [h_dirty h_data]. destruct dirty.
    + eapply (stores_put (p, s)); [exact Hrep'|..]; cbn;
        [by rewrite Eh|by rewrite Ed'|by rewrite Et'|done..].
    + exists (delete k H). cbn [st_held st_disk st_writes snd lset l_snd].
      split_and!; [done|by rewrite fmap_delete, <- Eh|congruence|congruence|].
      intros k' e [_ E]%lookup_delete_Some. by apply Hp.
Qed.

Lemma wp_b_impls ops c st Q :
  stores c st → b_legals ops st →
  (∀ c', stores c' (b_specs ops st).2 → Q (b_specs ops st).1 c') → wp (b_impls ops) Q c.
Proof.
  revert c st Q. induction ops as [|op ops IH]; intros c st Q Hst Hleg HQ; cbn in *.
  { wp_steps. by apply HQ. }
  destruct Hleg as [Hop Hops]. wp_step. apply (wp_b_impl op c st); [done..|]. intros c1 Hst1.
  destruct (b_spec op st) as [r st1]. cbn in *. wp_step. apply (IH c1 st1); [done..|].
  intros c2 Hst2. destruct (b_specs ops st1) as [rs st2]. cbn in *. wp_steps. by apply HQ.
Qed.

(** C8: The buffer cache is a store of blocks.  Clients that follow its rules
    read, through any sequence of reads, changes, writes and releases of blocks,
    what a store without buffers would give them: the latest contents of the
    block.  No call panics for want of a buffer while fewer than [NBUF] blocks
    are in use or pinned, the disk changes exactly at the writes, and the list of
    buffers stays a list of all of them. *)
Theorem bufcache_refines_store ops c st :
  stores c st → b_legals ops st →
  ∃ c', b_impls ops c = Ok ((b_specs ops st).1, c') ∧ stores c' (b_specs ops st).2.
Proof.
  intros Hst Hleg.
  destruct (wp_run_val (b_impls ops) (b_specs ops st).1 (λ c', stores c' (b_specs ops st).2) c)
    as (c' & E & Hst'); [|by exists c'].
  apply (wp_b_impls ops c st); done.
Qed.
End Refine.

(** ** A concrete run *)

#[local] Existing Instance sample_layout.
#[local] Existing Instance sample_stack.
#[local] Existing Instance sample_ipc_layout.

Definition sample_buf_layout : BufLayout := {| buf_addr i := 1100000 + 540 * i |}.
#[local] Existing Instance sample_buf_layout.

(** The machine of [sample_sched] with zeroed buffers and the disk [d]. *)
Definition zero_bio (d : gmap (Z * Z) block) : bio :=
  Bio (Ipc sample_sched ∅ (Mq NUM_IDS NUM_IDS) released) zero ∅ released [] 1 d [].

Lemma zero_bio_idle d : bio_idle (zero_bio d).
Proof. split; try done. exists 0, [1; 2]. split; [exact sample_sched_ok|done]. Qed.

(** After [bufcache_init]. *)
Definition sample_bio (d : gmap (Z * Z) block) : bio := final bufcache_init (zero_bio d).

Lemma sample_bio_rep d : bc_rep (sample_bio d) ∅ ∧ disk (sample_bio d) = d ∧ trace (sample_bio d) = [].
Proof.
  apply (wp_final bufcache_init (λ s', bc_rep s' ∅ ∧ disk s' = d ∧ trace s' = [])).
  apply wp_bufcache_init; [done|apply zero_bio_idle|done].
Qed.

Definition sample_ops : list bop :=
  [OpRead (1, 5); OpModify (1, 5) (λ b, write8 b 0 7); OpWrite (1, 5); OpRelease (1, 5);
   OpRead (1, 6); OpRelease (1, 6); OpRead (1, 5)].

Lemma bufcache_refines_store_witness :
  ∃ c', b_impls sample_ops (∅, sample_bio ∅)
      = Ok ((b_specs sample_ops (Store ∅ ∅ [])).1, c')
    ∧ stores c' (b_specs sample_ops (Store ∅ ∅ [])).2.
Proof.
  apply bufcache_refines_store.
  - destruct (sample_bio_rep ∅) as (Hrep & Hd & Ht). exists ∅. split_and!; [done|done|done|done|].
    intros k e. by rewrite lookup_empty.
  - vm_compute. repeat split; try lia; intros; discriminate.
Defined.
