(* ===== verification/Log.v ===== *)
(** * The log (kern/fs/log.c, read_superblock of kern/fs/block.c)

    A transaction collects blocks in the log area of the disk; writing the log
    header commits it, installing copies the blocks home.  The theorems show that
    a crash between any two writes of the disk leaves, after recovery, either
    none or all of the changes of a transaction. *)

From S2P Require Import Prelude Memory Resume Spinlock PhysMap Pmm Container PageTable Isolation.
From S2P Require Import UserCopy Tcb TQueue Thread Signal Ipc Bufcache.

Definition LOGSIZE : Z := 10.
Definition ROOTDEV : Z := 1.

(** ** State *)

(** [struct log], [log.lh] included, and the layers below. *)
Record lgs := Lgs {
  g_bio : bio;
  log_lock : spinlock;
  log_start : Z; log_size : Z; log_busy : Z; log_dev : Z;
  lh_n : Z; lh_sector : gmap Z Z
}.

Definition l_g_bio : lens lgs bio :=
  Lens g_bio (λ b s, Lgs b (log_lock s) (log_start s) (log_size s) (log_busy s) (log_dev s)
                       (lh_n s) (lh_sector s)).
Definition l_log_lock : lens lgs spinlock :=
  Lens log_lock (λ k s, Lgs (g_bio s) k (log_start s) (log_size s) (log_busy s) (log_dev s)
                          (lh_n s) (lh_sector s)).
Definition set_log_place (start size dev : Z) (s : lgs) : lgs :=
  Lgs (g_bio s) (log_lock s) start size (log_busy s) dev (lh_n s) (lh_sector s).
Definition set_log_busy (v : Z) (s : lgs) : lgs :=
  Lgs (g_bio s) (log_lock s) (log_start s) (log_size s) v (log_dev s) (lh_n s) (lh_sector s).
Definition set_lh_n (v : Z) (s : lgs) : lgs :=
  Lgs (g_bio s) (log_lock s) (log_start s) (log_size s) (log_busy s) (log_dev s) v (lh_sector s).
Definition set_lh_sectors (m : gmap Z Z) (s : lgs) : lgs :=
  Lgs (g_bio s) (log_lock s) (log_start s) (log_size s) (log_busy s) (log_dev s) (lh_n s) m.

#[export] Instance l_g_bio_ok : LensOk l_g_bio.
Proof. split; [done|done|by intros []]. Qed.

(** [log.lh.sector[i]] *)
Definition get_sector (i : Z) : M lgs Z :=
  _ ← chk "log.lh.sector" LOGSIZE i; gets (λ s, aget (lh_sector s) i).
Definition set_sector (i v : Z) : M lgs unit :=
  _ ← chk "log.lh.sector" LOGSIZE i; modify (λ s, set_lh_sectors (<[i := v]> (lh_sector s)) s).

(** kern/fs/dinode.h *)
Record superblock := Superblock { sb_size : Z; sb_nblocks : Z; sb_ninodes : Z; sb_nlog : Z }.

Definition decode_superblock (d : block) : superblock :=
  Superblock (read32 d 0) (read32 d 4) (read32 d 8) (read32 d 12).

Section Log.
Context `{B : BufLayout} (log_addr : Z).

Definition read_superblock (dev : Z) : M bio superblock :=
  bp ← bufcache_read (u32 dev) 1;
  sb ← buf_get (λ b, decode_superblock (b_data b)) bp;
  _ ← bufcache_release bp;
  mret sb.

(** [bufcache_read(log.dev, sector)] with the conversions to [uint32_t]. *)
Definition log_read (sector : Z) : M lgs Z :=
  dev ← gets log_dev; lift l_g_bio (bufcache_read (u32 dev) (u32 sector)).

(** One turn of the loop of [install_trans]. *)
Definition install_one (tail : Z) : M lgs unit :=
  start ← gets log_start;
  lbuf ← log_read (start + tail + 1);
  sec ← get_sector tail;
  dbuf ← log_read sec;
  d ← lift l_g_bio (buf_get b_data lbuf);
  _ ← lift l_g_bio (buf_write dbuf (λ _, d));
  _ ← lift l_g_bio (bufcache_write dbuf);
  _ ← lift l_g_bio (bufcache_release lbuf);
  lift l_g_bio (bufcache_release dbuf).

Definition install_trans : M lgs unit :=
  n ← gets lh_n; for_range 0 n install_one.

Definition read_head : M lgs unit :=
  start ← gets log_start;
  buf ← log_read start;
  d ← lift l_g_bio (buf_get b_data buf);
  let n := s32 (read32 d 0) in
  _ ← modify (set_lh_n n);
  _ ← for_range 0 n (λ i, set_sector i (s32 (read32 d (4 + 4 * i))));
  lift l_g_bio (bufcache_release buf).

Definition write_head : M lgs unit :=
  start ← gets log_start;
  buf ← log_read start;
  n ← gets lh_n;
  _ ← lift l_g_bio (buf_write buf (λ d, write32 d 0 n));
  _ ← for_range 0 n (λ i,
        sec ← get_sector i;
        lift l_g_bio (buf_write buf (λ d, write32 d (4 + 4 * i) sec)));
  _ ← lift l_g_bio (bufcache_write buf);
  lift l_g_bio (bufcache_release buf).

Definition recover_from_log : M lgs unit :=
  _ ← read_head;
  _ ← install_trans;
  _ ← modify (set_lh_n 0);
  write_head.

(** [sizeof(struct logheader)] is 44, below [BSIZE]. *)
Definition log_init : M lgs unit :=
  _ ← lift l_log_lock spinlock_init;
  sb ← lift l_g_bio (read_superblock ROOTDEV);
  _ ← modify (set_log_place (s32 (sb_size sb - sb_nlog sb)) (s32 (sb_nlog sb)) ROOTDEV);
  recover_from_log.

Definition begin_trans : M lgs unit :=
  _ ← lift l_log_lock (spinlock_acquire "log.lock");
  busy ← gets log_busy;
  _ ← (if negb (busy =? 0) then fail (Blocked "begin_trans") else mret tt);
  _ ← modify (set_log_busy 1);
  lift l_log_lock spinlock_release.

Definition commit_trans : M lgs unit :=
  n ← gets lh_n;
  _ ← (if 0 <? n then
         _ ← write_head;
         _ ← install_trans;
         _ ← modify (set_lh_n 0);
         write_head
       else mret tt);
  _ ← lift l_log_lock (spinlock_acquire "log.lock");
  _ ← modify (set_log_busy 0);
  _ ← lift l_g_bio (wakeup log_addr);
  lift l_log_lock spinlock_release.

(** The loop of [log_write]: the index of the block in the log, or [log.lh.n]. *)
Fixpoint log_find (fuel : nat) (i sector : Z) : M lgs Z :=
  match fuel with
  | O => mret i
  | S fuel =>
    s ← get_sector i;
    if u32 s =? sector then mret i else log_find fuel (i + 1) sector
  end.

(** The copy of buffer [b] to a block of the log. *)
Definition log_copy (b dev sector : Z) : M bio unit :=
  lbuf ← bufcache_read dev sector;
  d ← buf_get b_data b;
  _ ← buf_write lbuf (λ _, d);
  _ ← bufcache_write lbuf;
  bufcache_release lbuf.

Definition log_write (b : Z) : M lgs unit :=
  n ← gets lh_n;
  size ← gets log_size;
  _ ← (if (LOGSIZE <=? n) || (size - 1 <=? n)
       then fail (Panic "too big a transaction") else mret tt);
  busy ← gets log_busy;
  _ ← (if busy =? 0 then fail (Panic "write outside of trans") else mret tt);
  bb ← lift l_g_bio (buf_get id b);
  i ← log_find (Z.to_nat n) 0 (b_sector bb);
  _ ← set_sector i (s32 (b_sector bb));
  start ← gets log_start;
  _ ← lift l_g_bio (log_copy b (u32 (b_dev bb)) (u32 (start + i + 1)));
  _ ← (if i =? n then modify (set_lh_n (n + 1)) else mret tt);
  lift l_g_bio (buf_upd b (λ x, set_b_flags (Z.lor (b_flags x) B_DIRTY) x)).
End Log.

(** ** The log on the disk *)

Abbreviation dmap := (gmap (Z * Z) block).

Definition home (sec : Z) : Z * Z := (ROOTDEV, sec).

(** What the header block says. *)
Definition log_secs (d : block) : list Z :=
  (λ i, s32 (read32 d (4 + 4 * i))) <$> seqZ 0 (s32 (read32 d 0)).

(** The header block for a list of sectors, written over [d]. *)
Fixpoint head_fill (d : block) (i : Z) (secs : list Z) : block :=
  match secs with
  | [] => d
  | sec :: secs => head_fill (write32 d (4 + 4 * i) sec) (i + 1) secs
  end.

Definition head_block (d : block) (secs : list Z) : block :=
  head_fill (write32 d 0 (Z.of_nat (length secs))) 0 secs.

Fixpoint do_writes (ws : list (Z * Z * block)) (D : dmap) : dmap :=
  match ws with
  | [] => D
  | w :: ws => do_writes ws (<[w.1 := w.2]> D)
  end.

Section Disk.
Implicit Types (D : dmap) (ws : list (Z * Z * block)) (secs : list Z).

Lemma head_fill_app d i l1 l2 :
  head_fill d i (l1 ++ l2) = head_fill (head_fill d i l1) (i + Z.of_nat (length l1)) l2.
Proof.
  revert d i. induction l1 as [|a l1 IH]; intros d i; cbn [head_fill app length].
  - by replace (i + Z.of_nat 0) with i by lia.
  - rewrite IH. f_equal. lia.
Qed.

Lemma head_fill_before d i secs a : a + 4 ≤ 4 + 4 * i → read32 (head_fill d i secs) a = read32 d a.
Proof.
  revert d i. induction secs as [|s secs IH]; intros d i Ha; cbn [head_fill]; [done|].
  rewrite IH by lia. apply read32_write32_ne. lia.
Qed.

Lemma head_fill_lookup d i secs j sec :
  secs !! j = Some sec →
  read32 (head_fill d i secs) (4 + 4 * (i + Z.of_nat j)) = u32 sec.
Proof.
  revert d i j. induction secs as [|s secs IH]; intros d i j; [done|]. destruct j as [|j]; cbn.
  - intros [= ->]. rewrite Z.add_0_r, head_fill_before by lia. apply read32_write32_eq.
  - intros Hj. rewrite <- (IH (write32 d (4 + 4 * i) s) (i + 1) j Hj). f_equal. lia.
Qed.

(** Reading a header back. *)
Lemma log_secs_head d secs :
  Z.of_nat (length secs) ≤ LOGSIZE → Forall (λ x, 0 ≤ x < 2147483648) secs →
  log_secs (head_block d secs) = secs.
Proof.
  intros Hlen Hr. unfold log_secs, head_block. rewrite head_fill_before by lia.
  rewrite read32_write32_eq, (u32_small (Z.of_nat _)), s32_small
    by (unfold is_u32, two32, LOGSIZE in *; lia).
  apply list_eq. intros j. rewrite list_lookup_fmap.
  destruct (secs !! j) as [sec|] eqn:E.
  - assert (j < length secs)%nat by by eapply lookup_lt_Some.
    rewrite lookup_seqZ_lt by lia. cbn [fmap option_fmap option_map].
    replace (0 + Z.of_nat j) with (0 + Z.of_nat j) by lia. rewrite (head_fill_lookup _ _ _ _ sec) by done.
    apply (Forall_lookup_1 _ _ _ _ Hr) in E. unfold u32, two32. rewrite Z.mod_small by lia.
    by rewrite s32_small by lia.
  - apply lookup_ge_None in E. by rewrite lookup_seqZ_ge by lia.
Qed.

Lemma elem_of_take_sub {A} (x : A) n l : x ∈ take n l → x ∈ l.
Proof. intros H. rewrite <- (take_drop n l). apply elem_of_app. by left. Qed.

Lemma do_writes_app ws1 ws2 D : do_writes (ws1 ++ ws2) D = do_writes ws2 (do_writes ws1 D).
Proof. revert D. induction ws1 as [|w ws1 IH]; intros D; cbn; [done|apply IH]. Qed.

Lemma do_writes_other ws D k : k ∉ ws.*1 → aget (do_writes ws D) k = aget D k.
Proof.
  revert D. induction ws as [|w ws IH]; intros D; cbn; [done|].
  rewrite not_elem_of_cons. intros [? ?]. rewrite IH by done. by rewrite aget_ne.
Qed.

(** The last write decides. *)
Lemma do_writes_same ws D D' k : k ∈ ws.*1 → aget (do_writes ws D) k = aget (do_writes ws D') k.
Proof.
  revert D D'. induction ws as [|w ws IH]; intros D D'; cbn; [by intros ?%elem_of_nil|].
  intros Hk. destruct (decide (k ∈ ws.*1)); [by apply IH|].
  rewrite !do_writes_other by done. apply elem_of_cons in Hk as [-> |]; [|done].
  by rewrite !aget_eq.
Qed.

Lemma do_writes_lookup ws D i k d :
  NoDup ws.*1 → ws !! i = Some (k, d) → aget (do_writes ws D) k = d.
Proof.
  revert D i. induction ws as [|w ws IH]; intros D i; [done|]. rewrite fmap_cons, NoDup_cons.
  intros [Hw Hnd]. destruct i as [|i]; cbn.
  - intros [= ->]. rewrite do_writes_other by done. by rewrite aget_eq.
  - by apply IH.
Qed.

(** Doing some of the writes first makes no difference. *)
Lemma do_writes_redo ws n D k :
  aget (do_writes ws (do_writes (take n ws) D)) k = aget (do_writes ws D) k.
Proof.
  destruct (decide (k ∈ ws.*1)); [by apply do_writes_same|].
  rewrite !do_writes_other; [done|done| |done].
  rewrite fmap_take. by intros ?%elem_of_take_sub.
Qed.
End Disk.

(** ** The operations on the log area *)

(** The header and the slots of a log of [size] sectors at [start]. *)
Definition slot (start i : Z) : Z * Z := (ROOTDEV, start + i + 1).

Record log_place (s : lgs) : Prop := {
  p_dev : log_dev s = ROOTDEV;
  p_start : 2 ≤ log_start s;
  p_size : 1 ≤ log_size s;
  p_end : log_start s + log_size s ≤ 268435456
}.

(** The first [length secs] entries of [log.lh.sector]. *)
Definition lh_is (s : lgs) (secs : list Z) : Prop :=
  lh_n s = Z.of_nat (length secs) ∧
  ∀ i sec, secs !! i = Some sec → aget (lh_sector s) (Z.of_nat i) = sec.

(** The log fits its area and the header. *)
Definition log_fits (s : lgs) (n : nat) : Prop :=
  Z.of_nat n ≤ LOGSIZE ∧ Z.of_nat n ≤ log_size s - 1.

(** Blocks outside the log area. *)
Definition is_home (start sec : Z) : Prop := 0 ≤ sec < start.

Ltac map_solve :=
  apply map_eq; intros ?k; repeat first
    [ rewrite lookup_insert_eq | rewrite lookup_delete_eq
    | rewrite lookup_insert_ne by congruence | rewrite lookup_delete_ne by congruence
    | match goal with
      | |- context [<[?k1 := _]> _ !! ?k2] => destruct (decide (k1 = k2)); [subst|]
      | |- context [delete ?k1 _ !! ?k2] => destruct (decide (k1 = k2)); [subst|]
      end ]; try done; try congruence.

Create Rewrite HintDb lg.

Section LogOps.
Context `{B : BufLayout} (log_addr : Z).
Implicit Types (s : lgs) (b : bio) (H : resident) (secs : list Z) (start sec : Z).

Abbreviation at_bio s b := (lset l_g_bio b s).

Lemma at_get s b : lget l_g_bio (at_bio s b) = b.
Proof. done. Qed.
Lemma at_at s b b' : at_bio (at_bio s b) b' = at_bio s b'.
Proof. done. Qed.
Lemma at_g s b : g_bio (at_bio s b) = b.
Proof. done. Qed.
Lemma at_n s b : lh_n (at_bio s b) = lh_n s.
Proof. done. Qed.
Lemma at_start s b : log_start (at_bio s b) = log_start s.
Proof. done. Qed.
#[local] Hint Rewrite at_get at_at at_g at_n at_start : lg.

(** Steps of the code; states stay of the form [at_bio s b]. *)
Ltac lg_step := wp_steps; autorewrite with lg.

Lemma wp_log_read s H sec Q :
  bc_rep (g_bio s) H → log_dev s = ROOTDEV → valid_key (home sec) → can_get H (home sec) →
  (∀ i b, bc_rep b (<[home sec := Entry i (content (g_bio s) H (home sec)) true
             (pinned H (home sec))]> H) →
     disk b = disk (g_bio s) → trace b = trace (g_bio s) → Q i (at_bio s b)) →
  wp (log_read sec) Q s.
Proof.
  intros Hrep Hdev Hv Hcan HQ. unfold log_read. wp_steps. rewrite Hdev.
  change (u32 ROOTDEV) with ROOTDEV. rewrite u32_small.
  2:{ destruct Hv as [_ Hv]. cbn in Hv. unfold is_u32, two32. lia. }
  apply (wp_bufcache_read (g_bio s) H); [done..|]. intros i b. apply HQ.
Qed.

Lemma valid_home sec : 0 ≤ sec < 268435456 → valid_key (home sec).
Proof. by split. Qed.

(** A block that is not in use, read and given back unchanged. *)
Lemma put_back H k e : H !! k = None → delete k (<[k := e]> H) = H.
Proof. intros. by rewrite delete_insert_id. Qed.

Lemma size_room H k (e : entry) : (size (<[k := e]> H) ≤ S (size H))%nat.
Proof.
  destruct (decide (is_Some (H !! k))) as [Hk|Hk].
  - rewrite map_size_insert_Some by done. lia.
  - rewrite map_size_insert_None by by apply eq_None_not_Some. lia.
Qed.

Lemma can_get_new H k : H !! k = None → (size H < Z.to_nat NBUF)%nat → can_get H k.
Proof. intros E Hs. unfold can_get. by rewrite E. Qed.

Lemma wp_get_sector s secs i sec Q :
  lh_is s secs → secs !! i = Some sec → (length secs ≤ Z.to_nat LOGSIZE)%nat → Q sec s →
  wp (get_sector (Z.of_nat i)) Q s.
Proof.
  intros [_ Hs] E Hlen HQ. unfold get_sector. assert (i < length secs)%nat by by eapply lookup_lt_Some.
  assert (Z.of_nat (length secs) ≤ LOGSIZE) by (unfold LOGSIZE in *; lia).
  wp_steps. by rewrite (Hs i sec E).
Qed.

Lemma wp_write_head s H secs Q :
  let k := home (log_start s) in
  let d := head_block (aget (disk (g_bio s)) k) secs in
  bc_rep (g_bio s) H → log_place s → lh_is s secs → (length secs ≤ Z.to_nat LOGSIZE)%nat →
  H !! k = None → (size H < Z.to_nat NBUF)%nat →
  (∀ b, bc_rep b H → disk b = <[k := d]> (disk (g_bio s)) → trace b = trace (g_bio s) ++ [(k, d)] →
     Q tt (at_bio s b)) →
  wp write_head Q s.
Proof.
  intros k d Hrep [Hdev Hst Hsz He] Hlh Hlen Hk Hroom HQ. unfold write_head. wp_steps.
  apply (wp_log_read s H); [done|done|apply valid_home; lia|by apply can_get_new|].
  fold k. intros i b0 Hrep0 Ed0 Et0. lg_step.
  replace (pinned H k) with false in Hrep0 by (unfold pinned; by rewrite Hk).
  replace (content (g_bio s) H k) with (aget (disk (g_bio s)) k) in Hrep0
    by (unfold content; by rewrite Hk).
  eapply (wp_buf_write _ _ k); [exact Hrep0|apply lookup_insert_eq|]. rewrite insert_insert_eq.
  intros b1 Hrep1 Ed1 Et1. destruct Hlh as [Hn Hs]. rewrite Hn in *.
  set (d0 := write32 (aget (disk (g_bio s)) k) 0 (Z.of_nat (length secs))) in *. lg_step.
  apply (wp_for_range (λ j s1, ∃ b, s1 = at_bio s b ∧ disk b = disk (g_bio s)
    ∧ trace b = trace (g_bio s)
    ∧ bc_rep b (<[k := Entry i (head_fill d0 0 (take (Z.to_nat j) secs)) true false]> H))).
  - lia.
  - exists b1. split_and!; [done|congruence|congruence|done].
  - intros j s1 Hj (b & -> & Ed & Et & Hr).
    destruct (lookup_lt_is_Some_2 secs (Z.to_nat j) ltac:(lia)) as [sec Esec].
    wp_step. replace j with (Z.of_nat (Z.to_nat j)) at 1 by lia.
    apply (wp_get_sector _ secs _ sec); [by split|done|done|]. lg_step.
    eapply (wp_buf_write _ _ k); [exact Hr|apply lookup_insert_eq|]. rewrite insert_insert_eq.
    intros b' Hr' Ed' Et'. exists b'. split_and!; [done|congruence|congruence|].
    replace (Z.to_nat (j + 1)) with (S (Z.to_nat j)) by lia.
    rewrite (take_S_r _ _ sec) by done. rewrite head_fill_app, length_take. cbn [head_fill].
    rewrite Nat.min_l by lia. by replace (0 + Z.of_nat (Z.to_nat j)) with j by lia.
  - intros s1 (b & -> & Ed & Et & Hr). rewrite Nat2Z.id, take_ge in Hr by done.
    change (head_fill d0 0 secs) with d in Hr. lg_step.
    eapply (wp_bufcache_write _ _ k); [exact Hr|apply lookup_insert_eq|]. rewrite insert_insert_eq.
    intros b2 Hr2 Ed2 Et2. lg_step.
    eapply (wp_bufcache_release _ _ k); [exact Hr2|apply lookup_insert_eq| |].
    { intros _. by rewrite Ed2, aget_eq. }
    rewrite put_back by done. intros b3 Hr3 Ed3 Et3. apply HQ; [done|congruence|congruence].
Qed.

(** Nobody uses any block: what is resident is pinned. *)
Definition quiet H : Prop := ∀ k e, H !! k = Some e → e_busy e = false.

(** No block of the log is resident. *)
Definition log_out (start : Z) H : Prop := ∀ sec, start ≤ sec → H !! home sec = None.

Lemma can_get_quiet H k : quiet H → (size H < Z.to_nat NBUF)%nat → can_get H k.
Proof. intros Hq Hs. unfold can_get. destruct (H !! k) eqn:E; [by eapply Hq|done]. Qed.

Lemma quiet_delete H k : quiet H → quiet (delete k H).
Proof. intros Hq k' e [_ E]%lookup_delete_Some. by eapply Hq. Qed.

Lemma log_out_delete start H k : log_out start H → log_out start (delete k H).
Proof. intros Ho sec Hs. apply lookup_delete_None. right. by apply Ho. Qed.

Lemma wp_install_one s H secs i sec Q :
  let k := home sec in
  let d := aget (disk (g_bio s)) (slot (log_start s) (Z.of_nat i)) in
  bc_rep (g_bio s) H → log_place s → lh_is s secs → log_fits s (length secs) →
  quiet H → log_out (log_start s) H → (size H + 2 ≤ Z.to_nat NBUF)%nat →
  secs !! i = Some sec → is_home (log_start s) sec →
  (∀ b, bc_rep b (delete k H) → disk b = <[k := d]> (disk (g_bio s)) →
     trace b = trace (g_bio s) ++ [(k, d)] → Q tt (at_bio s b)) →
  wp (install_one (Z.of_nat i)) Q s.
Proof.
  intros k d Hrep [Hdev Hst Hsz He] Hlh [Hf1 Hf2] Hq Hout Hroom Esec Hhome HQ.
  assert (i < length secs)%nat by by eapply lookup_lt_Some.
  set (l := slot (log_start s) (Z.of_nat i)) in *. unfold is_home in Hhome.
  assert (k ≠ l) as Hkl by (subst k l; unfold home, slot; intros [=]; lia).
  assert (H !! l = None) as Hl by (apply Hout; lia).
  unfold install_one. lg_step.
  apply (wp_log_read s H); [done|done|apply valid_home; lia|apply can_get_new; [done|lia]|].
  change (home (log_start s + Z.of_nat i + 1)) with l. intros lb b1 Hr1 Ed1 Et1.
  replace (pinned H l) with false in Hr1 by (unfold pinned; by rewrite Hl).
  replace (content (g_bio s) H l) with d in Hr1 by (unfold content; by rewrite Hl).
  wp_step. apply (wp_get_sector _ secs i sec); [done|done|unfold LOGSIZE in *; lia|]. wp_step.
  assert (∀ e, <[l := e]> H !! k = H !! k) as Hlk by (intros; by rewrite lookup_insert_ne).
  eapply (wp_log_read (at_bio s b1)); [exact Hr1|done|apply valid_home; lia| |].
  { unfold can_get. fold k. rewrite Hlk. destruct (H !! k) eqn:E; [by eapply Hq|].
    rewrite map_size_insert_None by done. lia. }
  fold k. autorewrite with lg. intros db b2 Hr2 Ed2 Et2. lg_step.
  unfold buf_get. lg_step.
  destruct (held_buf b2 _ l lb d true false Hr2) as (_ & _ & _ & -> & _).
  { by rewrite lookup_insert_ne, lookup_insert_eq. }
  eapply (wp_buf_write _ _ k); [exact Hr2|apply lookup_insert_eq|]. rewrite insert_insert_eq.
  intros b3 Hr3 Ed3 Et3. lg_step.
  eapply (wp_bufcache_write _ _ k); [exact Hr3|apply lookup_insert_eq|]. rewrite insert_insert_eq.
  intros b4 Hr4 Ed4 Et4. lg_step.
  assert (disk b4 = <[k := d]> (disk (g_bio s))) as Ed by congruence.
  eapply (wp_bufcache_release _ _ l); [exact Hr4|by rewrite lookup_insert_ne, lookup_insert_eq| |].
  { intros _. by rewrite Ed, aget_ne. }
  intros b5 Hr5 Ed5 Et5. lg_step.
  eapply (wp_bufcache_release _ _ k);
    [exact Hr5|by rewrite lookup_delete_ne, lookup_insert_eq| |].
  { intros _. by rewrite Ed5, Ed, aget_eq. }
  intros b6 Hr6 Ed6 Et6. apply HQ; [|congruence|congruence].
  eapply eq_ind; [exact Hr6|]. map_solve.
Qed.

(** The writes of an installation, from the slots of [D]. *)
Definition install_writes (start : Z) secs (D : dmap) : list (Z * Z * block) :=
  imap (λ i sec, (home sec, aget D (slot start (Z.of_nat i)))) secs.

Lemma install_keys start secs D : (install_writes start secs D).*1 = home <$> secs.
Proof.
  apply list_eq. intros i. unfold install_writes. rewrite !list_lookup_fmap, list_lookup_imap.
  by destruct (secs !! i).
Qed.

(** Homes are not slots. *)
Lemma slot_not_home start secs i :
  Forall (is_home start) secs → 0 ≤ i → (slot start i ∉ home <$> secs).
Proof.
  intros Hf Hi (sec & [= E] & Hs)%list_elem_of_fmap. rewrite Forall_forall in Hf.
  apply Hf in Hs. unfold is_home in Hs. lia.
Qed.

(** The residents without the blocks of [secs]. *)
Definition without secs H H' : Prop :=
  ∀ k, H' !! k = if decide (k ∈ home <$> secs) then None else H !! k.

Lemma without_sub secs H H' : without secs H H' → H' ⊆ H.
Proof.
  intros Hw. apply map_subseteq_spec. intros k e. rewrite Hw. by case_decide.
Qed.

Lemma without_quiet secs H H' : without secs H H' → quiet H → quiet H'.
Proof. intros Hw%without_sub Hq k e E. eapply Hq, lookup_weaken; done. Qed.

Lemma without_out secs start H H' : without secs H H' → log_out start H → log_out start H'.
Proof. intros Hw Ho sec Hs. rewrite Hw. case_decide; [done|by apply Ho]. Qed.

Lemma place_at s b : log_place s → log_place (at_bio s b).
Proof. by intros []. Qed.

Lemma wp_install_trans s H secs Q :
  let W := install_writes (log_start s) secs (disk (g_bio s)) in
  bc_rep (g_bio s) H → log_place s → lh_is s secs → log_fits s (length secs) →
  quiet H → log_out (log_start s) H → (size H + 2 ≤ Z.to_nat NBUF)%nat →
  Forall (is_home (log_start s)) secs →
  (∀ b H', bc_rep b H' → without secs H H' → disk b = do_writes W (disk (g_bio s)) →
     trace b = trace (g_bio s) ++ W → Q tt (at_bio s b)) →
  wp install_trans Q s.
Proof.
  intros W Hrep Hp Hlh Hfits Hq Hout Hroom Hhomes HQ. unfold install_trans. lg_step.
  assert (length W = length secs) as HWlen by apply length_imap.
  rewrite (proj1 Hlh). apply (wp_for_range (λ j s1, ∃ b H', s1 = at_bio s b ∧ bc_rep b H'
    ∧ without (take (Z.to_nat j) secs) H H' ∧ disk b = do_writes (take (Z.to_nat j) W) (disk (g_bio s))
    ∧ trace b = trace (g_bio s) ++ take (Z.to_nat j) W)).
  - lia.
  - exists (g_bio s), H. split_and!; [by destruct s|done| |done|by rewrite app_nil_r].
    intros k. by rewrite decide_False by apply not_elem_of_nil.
  - intros j s1 Hj (b & H' & -> & Hr & Hw & Ed & Et).
    destruct (lookup_lt_is_Some_2 secs (Z.to_nat j) ltac:(lia)) as [sec Esec].
    replace j with (Z.of_nat (Z.to_nat j)) at 1 by lia.
    replace (Z.to_nat (j + 1)) with (S (Z.to_nat j)) by lia.
    set (i := Z.to_nat j) in *.
    assert (W !! i = Some (home sec, aget (disk b) (slot (log_start s) (Z.of_nat i)))) as EW.
    { unfold W, install_writes. rewrite list_lookup_imap, Esec. cbn. do 2 f_equal.
      rewrite Ed, do_writes_other; [done|]. rewrite fmap_take. unfold W. rewrite install_keys.
      intros Hin. rewrite <- fmap_take in Hin. revert Hin.
      apply slot_not_home; [by apply Forall_take|lia]. }
    pose proof (map_subseteq_size _ _ (without_sub _ _ _ Hw)).
    apply (wp_install_one (at_bio s b) H' secs i sec);
      [done|by apply place_at|done|done|by eapply without_quiet|by eapply without_out|lia|done|
       by eapply (Forall_lookup_1 (is_home (log_start s)))|].
    autorewrite with lg. intros b' Hr' Ed' Et'. exists b', (delete (home sec) H').
    rewrite (take_S_r secs _ sec), (take_S_r W _ _ EW) by done. split_and!; [done|done| | |].
    + intros k. rewrite fmap_app. destruct (decide (k = home sec)) as [->|Hne].
      * rewrite lookup_delete_eq, decide_True; [done|]. apply elem_of_app. right. left.
      * rewrite lookup_delete_ne, Hw by done. apply decide_ext. rewrite elem_of_app. cbn.
        rewrite list_elem_of_singleton. naive_solver.
    + rewrite do_writes_app, Ed', Ed. done.
    + by rewrite Et', Et, app_assoc.
  - intros s1 (b & H' & -> & Hr & Hw & Ed & Et). rewrite Nat2Z.id, !take_ge in * by lia.
    by eapply HQ.
Qed.

(** A header that [read_head] can take in. *)
Definition head_ok (start size : Z) (d : block) : Prop :=
  0 ≤ s32 (read32 d 0) ∧ s32 (read32 d 0) ≤ LOGSIZE ∧ s32 (read32 d 0) ≤ size - 1
  ∧ Forall (is_home start) (log_secs d).

Lemma log_secs_length d :
  0 ≤ s32 (read32 d 0) → Z.of_nat (length (log_secs d)) = s32 (read32 d 0).
Proof. intros. unfold log_secs. rewrite length_fmap, length_seqZ. lia. Qed.

Lemma log_secs_lookup d i sec :
  log_secs d !! i = Some sec → sec = s32 (read32 d (4 + 4 * Z.of_nat i)).
Proof.
  unfold log_secs. rewrite list_lookup_fmap. intros (j & Hj & ->)%fmap_Some.
  apply lookup_seqZ in Hj as [-> _]. by rewrite Z.add_0_l.
Qed.

Lemma wp_read_head s H Q :
  let k := home (log_start s) in
  let d := aget (disk (g_bio s)) k in
  bc_rep (g_bio s) H → log_place s → head_ok (log_start s) (log_size s) d →
  H !! k = None → (size H < Z.to_nat NBUF)%nat →
  (∀ b m, bc_rep b H → disk b = disk (g_bio s) → trace b = trace (g_bio s) →
     let s' := set_lh_sectors m (set_lh_n (s32 (read32 d 0)) (at_bio s b)) in
     lh_is s' (log_secs d) → Q tt s') →
  wp read_head Q s.
Proof.
  intros k d Hrep [Hdev Hst Hsz He] (Hn0 & Hn1 & _ & _) Hk Hroom HQ. unfold read_head. lg_step.
  apply (wp_log_read s H); [done|done|apply valid_home; lia|by apply can_get_new|].
  fold k. intros i b0 Hr0 Ed0 Et0. lg_step. unfold buf_get. lg_step.
  replace (pinned H k) with false in Hr0 by (unfold pinned; by rewrite Hk).
  replace (content (g_bio s) H k) with d in Hr0 by (unfold content; by rewrite Hk).
  destruct (held_buf b0 _ k i d true false Hr0) as (_ & _ & _ & -> & _);
    [by rewrite lookup_insert_eq|].
  set (n := s32 (read32 d 0)) in *.
  apply (wp_for_range (λ j s1, ∃ m, s1 = set_lh_sectors m (set_lh_n n (at_bio s b0))
    ∧ ∀ x, 0 ≤ x < j → aget m x = s32 (read32 d (4 + 4 * x)))); [lia| | |].
  - exists (lh_sector s). split; [done|lia].
  - intros j s1 Hj (m & -> & Hm). unfold set_sector. wp_steps.
    exists (<[j := s32 (read32 d (4 + 4 * j))]> m). split; [done|]. intros x Hx.
    rewrite aget_insert. case_decide; [by subst|apply Hm; lia].
  - intros s1 (m & -> & Hm). lg_step.
    change (lget l_g_bio _) with b0.
    eapply (wp_bufcache_release _ _ k); [exact Hr0|apply lookup_insert_eq|by rewrite Ed0|].
    rewrite put_back by done. intros b1 Hr1 Ed1 Et1.
    apply (HQ b1 m); [done|congruence|congruence|]. split.
    + cbn. by rewrite log_secs_length.
    + intros x sec Ex. cbn. rewrite Hm; [by rewrite (log_secs_lookup d x sec)|].
      apply lookup_lt_Some in Ex. pose proof (log_secs_length d Hn0). lia.
Qed.

(** What recovery makes of a disk. *)
Definition recovered (start : Z) (D : dmap) : dmap :=
  let secs := log_secs (aget D (home start)) in
  let D1 := do_writes (install_writes start secs D) D in
  <[home start := head_block (aget D1 (home start)) []]> D1.

Lemma room_empty : (size (∅ : resident) + 2 ≤ Z.to_nat NBUF)%nat.
Proof. rewrite map_size_empty. unfold NBUF. lia. Qed.

Lemma wp_recover s Q :
  bc_rep (g_bio s) ∅ → log_place s →
  head_ok (log_start s) (log_size s) (aget (disk (g_bio s)) (home (log_start s))) →
  (∀ s', bc_rep (g_bio s') ∅ → disk (g_bio s') = recovered (log_start s) (disk (g_bio s)) →
     lh_n s' = 0 → log_place s' → log_start s' = log_start s → log_size s' = log_size s →
     log_busy s' = log_busy s → log_lock s' = log_lock s → Q tt s') →
  wp recover_from_log Q s.
Proof.
  intros Hrep Hp Hok HQ. unfold recover_from_log. wp_step.
  pose proof room_empty as Hroom. apply (wp_read_head s ∅); [done|done|done|done|lia|].
  intros b0 m Hr0 Ed0 Et0 s0 Hlh0. set (secs := log_secs _) in *.
  destruct Hok as (Hn0 & Hn1 & Hn2 & Hhomes). pose proof (log_secs_length _ Hn0) as Hlen.
  fold secs in Hlen, Hhomes.
  assert (log_place s0) as Hp0 by by destruct Hp.
  wp_step. apply (wp_install_trans s0 ∅ secs);
    [done|done|done|split; [lia|cbn; lia]|done|done|done|done|].
  intros b1 H1 Hr1 Hw1 Ed1 Et1.
  assert (H1 = ∅) as ->.
  { apply map_eq. intros k. rewrite Hw1. by case_decide. }
  wp_steps. set (s2 := set_lh_n 0 (at_bio s0 b1)).
  apply (wp_write_head s2 ∅ []); [done|by destruct Hp0|by split|cbn; lia|done|lia|].
  intros b2 Hr2 Ed2 Et2. apply HQ; try done.
  - cbn. rewrite Ed2. cbn. rewrite Ed1. cbn. by rewrite Ed0.
  - by destruct Hp.
Qed.

Lemma head_empty d : s32 (read32 (head_block d []) 0) = 0.
Proof. unfold head_block. cbn [head_fill length]. by rewrite read32_write32_eq. Qed.

Lemma wp_read_superblock b H Q :
  bc_rep b H → H !! home 1 = None → (size H < Z.to_nat NBUF)%nat →
  (∀ b', bc_rep b' H → disk b' = disk b → trace b' = trace b →
     Q (decode_superblock (aget (disk b) (home 1))) b') →
  wp (read_superblock ROOTDEV) Q b.
Proof.
  intros Hrep Hk Hroom HQ. unfold read_superblock. wp_step. change (u32 ROOTDEV) with ROOTDEV.
  apply (wp_bufcache_read b H); [done|done|by apply can_get_new|]. fold (home 1).
  replace (pinned H (home 1)) with false by (unfold pinned; by rewrite Hk).
  replace (content b H (home 1)) with (aget (disk b) (home 1)) by (unfold content; by rewrite Hk).
  intros i b1 Hr1 Ed1 Et1. unfold buf_get. wp_steps.
  destruct (held_buf b1 _ (home 1) i _ true false Hr1 (lookup_insert_eq _ _ _)) as (_ & _ & _ & -> & _).
  eapply (wp_bufcache_release _ _ (home 1)); [exact Hr1|apply lookup_insert_eq|by rewrite Ed1|].
  rewrite put_back by done. intros b2 Hr2 Ed2 Et2. wp_steps. apply HQ; [done|congruence|congruence].
Qed.

(** The log area a superblock describes. *)
Definition sb_start (sb : superblock) : Z := sb_size sb - sb_nlog sb.

Record disk_ok (D : dmap) (start size : Z) : Prop := {
  d_start : sb_start (decode_superblock (aget D (home 1))) = start;
  d_size : sb_nlog (decode_superblock (aget D (home 1))) = size;
  d_lo : 2 ≤ start;
  d_n : 1 ≤ size;
  d_hi : start + size ≤ 268435456
}.

(** Between transactions. *)
Record log_idle (s : lgs) : Prop := {
  li_place : log_place s;
  li_busy : log_busy s = 0;
  li_lock : unlocked (log_lock s);
  li_n : lh_n s = 0;
  li_rep : bc_rep (g_bio s) ∅;
  li_head : s32 (read32 (aget (disk (g_bio s)) (home (log_start s))) 0) = 0
}.

Lemma wp_log_init s start size Q :
  bc_rep (g_bio s) ∅ → log_busy s = 0 → disk_ok (disk (g_bio s)) start size →
  head_ok start size (aget (disk (g_bio s)) (home start)) →
  (∀ s', log_idle s' → log_start s' = start → log_size s' = size →
     disk (g_bio s') = recovered start (disk (g_bio s)) → Q tt s') →
  wp log_init Q s.
Proof.
  intros Hrep Hbusy [Hs1 Hs2 Hlo Hn Hhi] Hok HQ. unfold log_init. wp_steps. wp_lock. wp_steps.
  pose proof room_empty as Hroom.
  apply (wp_read_superblock (g_bio s) ∅); [done|done|lia|]. intros b Hr Ed Et. wp_steps.
  unfold sb_start in Hs1. rewrite Hs1, Hs2, !s32_small by lia.
  set (s1 := set_log_place _ _ _ _).
  apply (wp_recover s1); [done|by split|cbn; by rewrite Ed|]. cbn [s1 set_log_place].
  intros s2 Hr2 Ed2 Hn2 Hp2 Es2 Ez2 Eb2 El2. cbn in Ed2, Es2, Ez2, Eb2, El2. rewrite Ed in Ed2.
  apply HQ; [|done|done|done].
  split; [done|congruence|by rewrite El2|done|done|].
  rewrite Ed2, Es2. unfold recovered. cbn zeta. rewrite aget_eq. apply head_empty.
Qed.

(** ** Transactions *)

(** The residents: blocks in use ([U], with their buffers) and logged blocks. *)
Record resid (pd : gmap Z block) (U : gmap Z (Z * block)) H : Prop := {
  re_use sec i d : U !! sec = Some (i, d) →
    H !! home sec = Some (Entry i d true (bool_decide (is_Some (pd !! sec))));
  re_log sec d : U !! sec = None → pd !! sec = Some d →
    ∃ i, H !! home sec = Some (Entry i d false true);
  re_all k e : H !! k = Some e → ∃ sec, k = home sec ∧ (is_Some (U !! sec) ∨ is_Some (pd !! sec))
}.

Definition used (pd : gmap Z block) (U : gmap Z (Z * block)) : nat := size (dom pd ∪ dom U).

Lemma resid_size pd U H : resid pd U H → (size H ≤ used pd U)%nat.
Proof.
  intros Hre. unfold used. set (X := dom pd ∪ dom U).
  rewrite <- size_dom. transitivity (length (home <$> elements X)); [|by rewrite length_fmap].
  rewrite <- (size_list_to_set (C:=gset (Z * Z)) (home <$> elements X)).
  2:{ apply NoDup_fmap_2; [by intros ?? [=]|apply NoDup_elements]. }
  apply subseteq_size. intros k (e & E)%elem_of_dom. apply elem_of_list_to_set, list_elem_of_fmap.
  destruct (re_all _ _ _ Hre _ _ E) as (sec & -> & Hs). exists sec. split; [done|].
  apply elem_of_elements. unfold X. rewrite elem_of_union, !elem_of_dom. tauto.
Qed.

Lemma resid_none pd U H sec :
  resid pd U H → U !! sec = None → pd !! sec = None → H !! home sec = None.
Proof.
  intros Hre Hu Hp. destruct (H !! home sec) eqn:E; [|done].
  destruct (re_all _ _ _ Hre _ _ E) as (sec' & [= <-] & [[? ?]|[? ?]]); congruence.
Qed.

(** The block as the transaction sees it. *)
Definition view (D : dmap) (pd : gmap Z block) (sec : Z) : block :=
  default (aget D (home sec)) (pd !! sec).

Record in_trans (s : lgs) (D : dmap) (T0 : list (Z * Z * block)) secs (pd : gmap Z block)
    (U : gmap Z (Z * block)) : Prop := {
  t_place : log_place s;
  t_busy : log_busy s = 1;
  t_lock : unlocked (log_lock s);
  t_lh : lh_is s secs;
  t_fits : log_fits s (length secs);
  t_nodup : NoDup secs;
  t_homes : Forall (is_home (log_start s)) secs;
  t_dom sec : sec ∈ secs ↔ is_Some (pd !! sec);
  t_slots i sec : secs !! i = Some sec →
    aget (disk (g_bio s)) (slot (log_start s) (Z.of_nat i)) = view D pd sec;
  t_use sec x : U !! sec = Some x → is_home (log_start s) sec;
  t_ws : ∃ ws, trace (g_bio s) = T0 ++ ws ∧ disk (g_bio s) = do_writes ws D
    ∧ Forall (λ w, ∃ i, 0 ≤ i ∧ w.1 = slot (log_start s) i) ws;
  t_head : s32 (read32 (aget D (home (log_start s))) 0) = 0;
  t_rep : ∃ H, bc_rep (g_bio s) H ∧ resid pd U H
}.

(** A step that leaves the disk and the log alone. *)
Lemma trans_at s D T0 secs pd U b H' U' :
  in_trans s D T0 secs pd U → bc_rep b H' → resid pd U' H' →
  disk b = disk (g_bio s) → trace b = trace (g_bio s) →
  (∀ sec x, U' !! sec = Some x → is_home (log_start s) sec) →
  in_trans (at_bio s b) D T0 secs pd U'.
Proof.
  intros [] Hr Hre Ed Et Hu. split; try done; cbn.
  - by apply place_at.
  - by rewrite Ed.
  - by rewrite Ed, Et.
  - by exists H'.
Qed.

(** Homes on the disk do not change during a transaction. *)
Lemma trans_home s D T0 secs pd U sec :
  in_trans s D T0 secs pd U → sec ≤ log_start s →
  aget (disk (g_bio s)) (home sec) = aget D (home sec).
Proof.
  intros Ht Hs. destruct (t_ws _ _ _ _ _ _ Ht) as (ws & _ & -> & Hws).
  apply do_writes_other. intros (w & E & Hw)%list_elem_of_fmap. rewrite Forall_forall in Hws.
  destruct (Hws w Hw) as (i & Hi & E'). rewrite <- E in E'. injection E' as ?. lia.
Qed.

(** A block in use. *)
Lemma resid_use pd U H sec i d dirty :
  resid pd U H → dirty = bool_decide (is_Some (pd !! sec)) →
  resid pd (<[sec := (i, d)]> U) (<[home sec := Entry i d true dirty]> H).
Proof.
  intros Hre ->. split.
  - intros sec' i' d'. destruct (decide (sec' = sec)) as [->|Hne].
    + rewrite !lookup_insert_eq. by intros [= -> ->].
    + rewrite !lookup_insert_ne by (done || by intros [=]). apply Hre.
  - intros sec' d'. destruct (decide (sec' = sec)) as [->|Hne]; [by rewrite lookup_insert_eq|].
    rewrite !lookup_insert_ne by (done || by intros [=]). apply Hre.
  - intros k e. destruct (decide (k = home sec)) as [->|Hne].
    + intros _. exists sec. split; [done|]. left. rewrite lookup_insert_eq. eauto.
    + rewrite lookup_insert_ne by done. intros E.
      destruct (re_all _ _ _ Hre _ _ E) as (sec' & -> & Hs). exists sec'. split; [done|].
      rewrite lookup_insert_ne; [done|]. by intros ->.
Qed.

Lemma wp_tr_read s D T0 secs pd U sec Q :
  in_trans s D T0 secs pd U → is_home (log_start s) sec → U !! sec = None →
  is_Some (pd !! sec) ∨ (used pd U < Z.to_nat NBUF)%nat →
  (∀ i b, in_trans (at_bio s b) D T0 secs pd (<[sec := (i, view D pd sec)]> U) →
     Q i (at_bio s b)) →
  wp (lift l_g_bio (bufcache_read ROOTDEV sec)) Q s.
Proof.
  intros Ht Hh Hu Hroom HQ. destruct (t_rep _ _ _ _ _ _ Ht) as (H & Hrep & Hre).
  pose proof (t_place _ _ _ _ _ _ Ht) as [_ Hst Hsz He]. wp_step.
  change (lget l_g_bio s) with (g_bio s).
  assert (content (g_bio s) H (home sec) = view D pd sec
    ∧ pinned H (home sec) = bool_decide (is_Some (pd !! sec))
    ∧ can_get H (home sec)) as (Ec & Ep & Hcan).
  { unfold content, pinned, can_get, view. unfold is_home in Hh.
    rewrite (trans_home _ _ _ _ _ _ sec Ht) by lia. destruct (pd !! sec) as [d|] eqn:Epd.
    - destruct (re_log _ _ _ Hre sec d Hu Epd) as (i & ->). by rewrite bool_decide_true by eauto.
    - rewrite (resid_none _ _ _ sec Hre Hu Epd). split_and!; [done|done|].
      pose proof (resid_size _ _ _ Hre). destruct Hroom as [[? ?]|]; [done|lia]. }
  apply (wp_bufcache_read _ H); [done|apply valid_home; unfold is_home in Hh; lia|done|].
  fold (home sec). intros i b Hr Ed Et. apply HQ. rewrite Ec, Ep in Hr.
  eapply trans_at; [done|exact Hr|by apply resid_use|done|done|].
  intros sec' x. destruct (decide (sec' = sec)) as [->|Hne]; [done|].
  rewrite lookup_insert_ne by done. apply Ht.
Qed.


Lemma trans_buf s D T0 secs pd U sec i d :
  in_trans s D T0 secs pd U → U !! sec = Some (i, d) →
  b_data (buf_of (g_bio s) i) = d ∧ b_sector (buf_of (g_bio s) i) = sec
  ∧ b_dev (buf_of (g_bio s) i) = ROOTDEV.
Proof.
  intros Ht Hu. destruct (t_rep _ _ _ _ _ _ Ht) as (H & Hrep & Hre).
  pose proof (re_use _ _ _ Hre _ _ _ Hu) as E.
  by destruct (held_buf _ _ _ _ _ _ _ Hrep E) as (_ & _ & [= -> ->] & -> & _).
Qed.

Lemma wp_tr_write s D T0 secs pd U sec i d f Q :
  in_trans s D T0 secs pd U → U !! sec = Some (i, d) →
  (∀ b, in_trans (at_bio s b) D T0 secs pd (<[sec := (i, f d)]> U) → Q tt (at_bio s b)) →
  wp (lift l_g_bio (buf_write i f)) Q s.
Proof.
  intros Ht Hu HQ. destruct (t_rep _ _ _ _ _ _ Ht) as (H & Hrep & Hre). wp_step.
  pose proof (re_use _ _ _ Hre _ _ _ Hu) as E.
  eapply (wp_buf_write _ H (home sec)); [done|done|]. intros b Hr Ed Et. apply HQ.
  eapply trans_at; [done|exact Hr|by apply resid_use|done|done|].
  intros sec' x. destruct (decide (sec' = sec)) as [->|Hne]; [intros _; by eapply Ht|].
  rewrite lookup_insert_ne by done. apply Ht.
Qed.

Lemma wp_tr_release s D T0 secs pd U sec i d Q :
  in_trans s D T0 secs pd U → U !! sec = Some (i, d) → d = view D pd sec →
  (∀ b, in_trans (at_bio s b) D T0 secs pd (delete sec U) → Q tt (at_bio s b)) →
  wp (lift l_g_bio (bufcache_release i)) Q s.
Proof.
  intros Ht Hu Ev HQ. destruct (t_rep _ _ _ _ _ _ Ht) as (H & Hrep & Hre). wp_step.
  pose proof (re_use _ _ _ Hre _ _ _ Hu) as E. pose proof (t_use _ _ _ _ _ _ Ht _ _ Hu) as Hh.
  eapply (wp_bufcache_release _ H (home sec)); [done|done| |].
  { intros Hn%bool_decide_eq_false_1. change (lget l_g_bio s) with (g_bio s). unfold is_home in Hh.
    rewrite (trans_home _ _ _ _ _ _ sec Ht) by lia. rewrite Ev. unfold view.
    by destruct (pd !! sec) as [x|]; [destruct Hn; eauto|]. }
  intros b Hr Ed Et. apply HQ. eapply trans_at; [done|exact Hr| |done|done|].
  - split.
    + intros sec' i' d' [Hne Hu']%lookup_delete_Some. rewrite <- (re_use _ _ _ Hre _ _ _ Hu').
      case_bool_decide; [rewrite lookup_insert_ne|rewrite lookup_delete_ne]; (done || by intros [=]).
    + intros sec' d'. destruct (decide (sec' = sec)) as [->|Hne].
      * intros _ Hp. rewrite bool_decide_true by eauto. exists i. rewrite lookup_insert_eq.
        rewrite Ev. unfold view. by rewrite Hp.
      * rewrite lookup_delete_ne by done. intros Hu' Hp.
        destruct (re_log _ _ _ Hre sec' d' Hu' Hp) as (i' & E'). exists i'. rewrite <- E'.
        case_bool_decide; [rewrite lookup_insert_ne|rewrite lookup_delete_ne]; (done || by intros [=]).
    + intros k e. case_bool_decide as Hp.
      * destruct (decide (k = home sec)) as [->|Hne]; [intros _; exists sec; by eauto|].
        rewrite lookup_insert_ne by done. intros E'.
        destruct (re_all _ _ _ Hre _ _ E') as (sec' & -> & Hs). exists sec'.
        rewrite lookup_delete_ne; [done|]. by intros ->.
      * intros [Hne E']%lookup_delete_Some.
        destruct (re_all _ _ _ Hre _ _ E') as (sec' & -> & Hs). exists sec'.
        rewrite lookup_delete_ne; [done|]. by intros ->.
  - intros sec' x [_ ?]%lookup_delete_Some. by eapply Ht.
Qed.

(** The position of a sector in the log. *)
Definition log_index secs (sec : Z) : nat :=
  match list_find (eq sec) secs with Some (i, _) => i | None => length secs end.

Lemma wp_log_find s secs sec j Q :
  lh_is s secs → (length secs ≤ Z.to_nat LOGSIZE)%nat → Forall is_u32 secs →
  (j ≤ length secs)%nat → (∀ i x, (i < j)%nat → secs !! i = Some x → x ≠ sec) →
  Q (Z.of_nat (log_index secs sec)) s →
  wp (log_find (length secs - j) (Z.of_nat j) sec) Q s.
Proof.
  intros Hlh Hlen Hu. remember (length secs - j)%nat as n eqn:En. revert j En.
  induction n as [|n IH]; intros j En Hj Hbefore HQ; cbn [log_find].
  - wp_step. assert (j = length secs) as -> by lia. unfold log_index in HQ.
    destruct (list_find (eq sec) secs) as [[i x]|] eqn:E; [|done].
    apply list_find_Some in E as (E & <- & _). destruct (Hbefore i sec); [|done|done].
    by eapply lookup_lt_Some.
  - destruct (lookup_lt_is_Some_2 secs j ltac:(lia)) as [x Ex].
    wp_step. apply (wp_get_sector _ secs _ x); [done..|].
    rewrite u32_small by by eapply (Forall_lookup_1 is_u32).
    destruct (Z.eqb_spec x sec) as [->|Hne].
    + wp_step. unfold log_index in HQ. rewrite (proj2 (list_find_Some (eq sec) secs j sec)) in HQ; [done|].
      split_and!; [done|done|]. intros i y Ey Hi ->. by eapply (Hbefore i).
    + replace (Z.of_nat j + 1) with (Z.of_nat (S j)) by lia. apply IH; [lia|lia| |done].
      intros i y Hi Ey. destruct (decide (i = j)) as [->|]; [congruence|]. eapply Hbefore; [|done]. lia.
Qed.

Definition log_add secs (sec : Z) : list Z := if decide (sec ∈ secs) then secs else secs ++ [sec].

Lemma log_add_index secs sec i x :
  NoDup secs → log_add secs sec !! i = Some x → x = sec ↔ i = log_index secs sec.
Proof.
  intros Hnd. unfold log_add, log_index. case_decide as Hin.
  - intros Ex. destruct (list_find (eq sec) secs) as [[j y]|] eqn:E.
    + apply list_find_Some in E as (Ey & <- & _). split; [intros ->|intros ->; congruence].
      by eapply NoDup_lookup.
    + apply list_find_None in E. rewrite Forall_forall in E. by destruct (E sec Hin).
  - assert (list_find (eq sec) secs = None) as ->.
    { apply list_find_None, Forall_forall. by intros y Hy ->. }
    destruct (decide (i < length secs)%nat) as [Hlt|Hge].
    + rewrite lookup_app_l by done. intros Ex%list_elem_of_lookup_2. split; [by intros ->|lia].
    + rewrite lookup_app_r by lia. intros Ex. pose proof (lookup_lt_Some _ _ _ Ex) as Hl. cbn in Hl.
      assert (i = length secs) as -> by lia. rewrite Nat.sub_diag in Ex. by injection Ex as ->.
Qed.

Lemma log_add_old secs sec i x :
  log_add secs sec !! i = Some x → x ≠ sec → secs !! i = Some x.
Proof.
  unfold log_add. case_decide; [done|]. intros [E|[_ E]]%lookup_app_Some; [done|].
  intros Hne. by apply list_lookup_singleton_Some in E as [_ <-].
Qed.

Lemma log_add_length secs sec :
  NoDup secs →
  length (log_add secs sec)
  = if Z.of_nat (log_index secs sec) =? Z.of_nat (length secs) then S (length secs) else length secs.
Proof.
  intros Hnd. unfold log_add, log_index. case_decide as Hin.
  - destruct (list_find (eq sec) secs) as [[j y]|] eqn:E.
    + apply list_find_Some in E as (Ey%lookup_lt_Some & _). by rewrite (proj2 (Z.eqb_neq _ _)) by lia.
    + apply list_find_None in E. rewrite Forall_forall in E. by destruct (E sec Hin).
  - assert (list_find (eq sec) secs = None) as ->.
    { apply list_find_None, Forall_forall. by intros y Hy ->. }
    rewrite Z.eqb_refl, length_app. cbn. lia.
Qed.

Lemma log_index_le secs sec : (log_index secs sec ≤ length secs)%nat.
Proof.
  unfold log_index. destruct (list_find (eq sec) secs) as [[j y]|] eqn:E; [|done].
  apply list_find_Some in E as (Ey%lookup_lt_Some & _). lia.
Qed.

Lemma elem_of_log_add secs sec x : x ∈ log_add secs sec ↔ x ∈ secs ∨ x = sec.
Proof.
  unfold log_add. case_decide; [naive_solver|]. rewrite elem_of_app, list_elem_of_singleton. done.
Qed.

Lemma NoDup_log_add secs sec : NoDup secs → NoDup (log_add secs sec).
Proof.
  intros. unfold log_add. case_decide; [done|]. apply NoDup_app. split_and!; [done| |apply NoDup_singleton].
  by intros x Hx ->%list_elem_of_singleton.
Qed.

(** The state of the log after [log_write] of [sec]. *)
Definition logged s secs (sec : Z) b : lgs :=
  Lgs b (log_lock s) (log_start s) (log_size s) (log_busy s) (log_dev s)
    (Z.of_nat (length (log_add secs sec)))
    (<[Z.of_nat (log_index secs sec) := sec]> (lh_sector s)).

Lemma lh_is_logged s secs sec b :
  lh_is s secs → NoDup secs → lh_is (logged s secs sec b) (log_add secs sec).
Proof.
  intros [_ Hs] Hnd. split; [done|]. intros i x Ex. cbn [logged lh_sector]. rewrite aget_insert.
  pose proof (log_add_index _ _ _ _ Hnd Ex) as Hi. case_decide.
  - symmetry. apply Hi. lia.
  - apply Hs. eapply log_add_old; [done|]. intros ->%Hi. lia.
Qed.

(** The transaction after logging block [sec] with contents [d]. *)
Lemma trans_logged s D T0 secs pd U sec i d b H' :
  let k := slot (log_start s) (Z.of_nat (log_index secs sec)) in
  in_trans s D T0 secs pd U → U !! sec = Some (i, d) → log_fits s (S (length secs)) →
  bc_rep b H' → resid (<[sec := d]> pd) U H' →
  disk b = <[k := d]> (disk (g_bio s)) → trace b = trace (g_bio s) ++ [(k, d)] →
  in_trans (logged s secs sec b) D T0 (log_add secs sec) (<[sec := d]> pd) U.
Proof.
  intros k Ht Hu [Hf1 Hf2] Hr Hre Ed Et.
  assert (length (log_add secs sec) ≤ S (length secs))%nat as Hlen.
  { rewrite log_add_length by apply Ht. destruct (_ =? _); lia. }
  pose proof (t_place _ _ _ _ _ _ Ht) as [].
  split; cbn [logged g_bio log_lock log_start log_size log_busy log_dev].
  - by split.
  - apply Ht.
  - apply Ht.
  - apply lh_is_logged; apply Ht.
  - split; cbn; lia.
  - by apply NoDup_log_add, Ht.
  - apply Forall_forall. intros x [Hx | ->]%elem_of_log_add; [|by eapply Ht].
    pose proof (t_homes _ _ _ _ _ _ Ht) as Hh. rewrite Forall_forall in Hh. by apply Hh.
  - intros x. rewrite elem_of_log_add, lookup_insert_is_Some, (t_dom _ _ _ _ _ _ Ht).
    destruct (decide (sec = x)); naive_solver.
  - intros j x Ex. pose proof (log_add_index _ _ _ _ (t_nodup _ _ _ _ _ _ Ht) Ex) as Hj.
    rewrite Ed. unfold view. destruct (decide (x = sec)) as [->|Hne].
    + rewrite (proj1 Hj eq_refl), aget_eq. by rewrite lookup_insert_eq.
    + rewrite lookup_insert_ne by done. rewrite aget_ne.
      * apply (t_slots _ _ _ _ _ _ Ht). by eapply log_add_old.
      * subst k. intros [= E]. apply Hne, Hj. lia.
  - apply Ht.
  - destruct (t_ws _ _ _ _ _ _ Ht) as (ws & E1 & E2 & Hws). exists (ws ++ [(k, d)]).
    split_and!; [by rewrite Et, E1, app_assoc|by rewrite Ed, E2, do_writes_app|].
    apply Forall_app. split; [done|]. apply Forall_singleton. eexists. split; [|reflexivity]. lia.
  - apply Ht.
  - by exists H'.
Qed.

(** The part of [log_write] that copies the block into the log. *)
Lemma wp_log_copy b H kb i d dirty dev sector Q :
  let k := (dev, sector) in
  bc_rep b H → H !! kb = Some (Entry i d true dirty) → H !! k = None →
  (size H < Z.to_nat NBUF)%nat → valid_key k →
  (∀ b', bc_rep b' H → disk b' = <[k := d]> (disk b) → trace b' = trace b ++ [(k, d)] → Q tt b') →
  wp (log_copy i dev sector) Q b.
Proof.
  intros k Hrep Ei Hk Hroom Hv HQ. assert (kb ≠ k) as Hne by congruence. unfold log_copy. wp_step.
  apply (wp_bufcache_read b H); [done|done|by apply can_get_new|]. fold k.
  intros lb b1 Hr1 Ed1 Et1. unfold content, pinned in Hr1. rewrite Hk in Hr1.
  unfold buf_get. wp_steps.
  destruct (held_buf b1 _ kb i d true dirty Hr1) as (_ & _ & _ & -> & _);
    [by rewrite lookup_insert_ne|].
  eapply (wp_buf_write _ _ k); [exact Hr1|apply lookup_insert_eq|]. rewrite insert_insert_eq.
  intros b2 Hr2 Ed2 Et2. wp_step.
  eapply (wp_bufcache_write _ _ k); [exact Hr2|apply lookup_insert_eq|]. rewrite insert_insert_eq.
  intros b3 Hr3 Ed3 Et3.
  eapply (wp_bufcache_release _ _ k); [exact Hr3|apply lookup_insert_eq|by rewrite Ed3, aget_eq|].
  rewrite put_back by done. intros b4 Hr4 Ed4 Et4. apply HQ; [done|congruence|congruence].
Qed.

Lemma trans_slot_free s D T0 secs pd U H i :
  in_trans s D T0 secs pd U → resid pd U H → 0 ≤ i → H !! slot (log_start s) i = None.
Proof.
  intros Ht Hre Hi. destruct (H !! slot (log_start s) i) eqn:E; [|done].
  destruct (re_all _ _ _ Hre _ _ E) as (x & [= Ex] & Hx).
  assert (is_home (log_start s) x) as Hhx; [|unfold is_home in Hhx; lia].
  destruct Hx as [[? Hx]|Hx]; [by eapply Ht|]. apply (t_dom _ _ _ _ _ _ Ht) in Hx.
  pose proof (t_homes _ _ _ _ _ _ Ht) as Hhomes. rewrite Forall_forall in Hhomes. by apply Hhomes.
Qed.

Lemma resid_log pd U H sec i d :
  resid pd U H → U !! sec = Some (i, d) →
  resid (<[sec := d]> pd) U (<[home sec := Entry i d true true]> H).
Proof.
  intros Hre Hu. split.
  - intros x j e Hx. destruct (decide (x = sec)) as [->|Hne].
    + rewrite !lookup_insert_eq, bool_decide_true by eauto. congruence.
    + rewrite !lookup_insert_ne by (done || by intros [=]). by apply Hre.
  - intros x e Hx. destruct (decide (x = sec)) as [->|Hne]; [congruence|].
    rewrite !lookup_insert_ne by (done || by intros [=]). by apply Hre.
  - intros k e. destruct (decide (k = home sec)) as [->|Hne]; [intros _; exists sec; eauto|].
    rewrite lookup_insert_ne by done. intros E.
    destruct (re_all _ _ _ Hre _ _ E) as (x & -> & Hx). exists x. split; [done|].
    rewrite lookup_insert_ne; [done|by intros ->].
Qed.

Lemma wp_tr_log_write s D T0 secs pd U sec i d Q :
  in_trans s D T0 secs pd U → U !! sec = Some (i, d) → log_fits s (S (length secs)) →
  (used pd U < Z.to_nat NBUF)%nat →
  (∀ b, in_trans (logged s secs sec b) D T0 (log_add secs sec) (<[sec := d]> pd) U →
     Q tt (logged s secs sec b)) →
  wp (log_write i) Q s.
Proof.
  intros Ht Hu Hfits Hroom HQ. destruct (t_rep _ _ _ _ _ _ Ht) as (H & Hrep & Hre).
  destruct (trans_buf _ _ _ _ _ _ _ _ _ Ht Hu) as (Ebd & Ebs & Ebv).
  pose proof (t_place _ _ _ _ _ _ Ht) as [Hdev Hst Hsz He]. destruct Hfits as [Hf1 Hf2].
  pose proof (t_lh _ _ _ _ _ _ Ht) as [Hn Hs]. pose proof (t_homes _ _ _ _ _ _ Ht) as Hhomes.
  pose proof (t_use _ _ _ _ _ _ Ht _ _ Hu) as Hh. unfold is_home in Hh.
  pose proof (resid_size _ _ _ Hre) as HszH.
  assert (length secs ≤ Z.to_nat LOGSIZE)%nat as Hlen by (unfold LOGSIZE in *; lia).
  pose proof (log_index_le secs sec) as Hidx.
  unfold log_write. lg_step. rewrite Hn.
  rewrite (proj2 (Z.leb_gt _ _)), (proj2 (Z.leb_gt _ _)) by lia. cbn [orb]. lg_step.
  rewrite (t_busy _ _ _ _ _ _ Ht). cbn [Z.eqb]. lg_step. unfold buf_get. lg_step. cbn [id].
  change (lget l_g_bio s) with (g_bio s). rewrite Ebs, Ebv, Nat2Z.id.
  replace (lset l_g_bio (g_bio s) s) with s by by destruct s.
  replace (length secs) with (length secs - 0)%nat by lia.
  apply (wp_log_find s secs sec 0); [done|done| |lia|lia|].
  { eapply Forall_impl; [exact Hhomes|]. unfold is_home, is_u32, two32. intros; lia. }
  unfold set_sector. wp_steps.
  rewrite (s32_small sec), (u32_small (log_start s + _ + 1)) by (unfold is_u32, two32; lia).
  change (u32 ROOTDEV) with ROOTDEV.
  pose proof (re_use _ _ _ Hre _ _ _ Hu) as Eu.
  eapply (wp_log_copy (g_bio s) H (home sec));
    [done|exact Eu|eapply (trans_slot_free s); [done|done|lia]|lia|apply valid_home; lia|].
  intros b1 Hr1 Ed1 Et1. wp_step. set (s1 := at_bio _ b1).
  assert (∀ s2, g_bio s2 = b1 → (∀ b, at_bio s2 b = logged s secs sec b) →
    wp (lift l_g_bio (buf_upd i (λ x, set_b_flags (Z.lor (b_flags x) B_DIRTY) x))) Q s2) as Hend.
  { intros s2 E2 Es2. wp_step. change (lget l_g_bio s2) with (g_bio s2). rewrite E2.
    eapply (wp_buf_pin b1 H (home sec)); [done|exact Eu|]. intros b2 Hr2 Ed2 Et2. rewrite Es2.
    apply HQ. eapply trans_logged; [done|done|done|exact Hr2|by apply resid_log|by rewrite Ed2, Ed1|by rewrite Et2, Et1]. }
  pose proof (log_add_length secs sec (t_nodup _ _ _ _ _ _ Ht)) as Hadd.
  rewrite Nat.sub_0_r. destruct (_ =? _); lg_step.
  - apply Hend; [done|]. intros b. unfold logged. rewrite Hadd. cbn. f_equal. lia.
  - apply Hend; [done|]. intros b. unfold logged. by rewrite Hadd, <- Hn.
Qed.

Lemma wp_begin_trans s Q :
  log_idle s →
  (∀ s', in_trans s' (disk (g_bio s)) (trace (g_bio s)) [] ∅ ∅ → log_start s' = log_start s →
     log_size s' = log_size s → Q tt s') →
  wp begin_trans Q s.
Proof.
  intros [[] Hb Hlk Hn Hrep Hhd] HQ. unfold begin_trans. wp_steps. wp_lock. wp_steps.
  cbn [lset l_log_lock log_busy]. rewrite Hb. cbn [Z.eqb negb]. wp_steps. wp_lock.
  apply HQ; [|done|done]. split; [by split|done|done|by split| |constructor|constructor| |done|done| |done|].
  - split; cbn; unfold LOGSIZE; lia.
  - intros sec. rewrite lookup_empty, elem_of_nil. split; [done|by intros []].
  - exists []. split_and!; [by rewrite app_nil_r|done|constructor].
  - exists ∅. split; [done|]. split; by intros *; rewrite lookup_empty.
Qed.

Lemma rep_ipc b ip H : bc_rep b H → sched_fine ip → bc_rep (lset l_o_ipc ip b) H.
Proof.
  intros Hrep Hip. apply (rep_links b); [done|done|done|apply Hrep|].
  by destruct (r_idle _ _ Hrep).
Qed.

(** The writes of a commit, on the disk [D]. *)
Definition commit_writes (start : Z) secs (D : dmap) : list (Z * Z * block) :=
  if decide (secs = []) then []
  else let h := head_block (aget D (home start)) secs in
    (home start, h) :: install_writes start secs D ++ [(home start, head_block h [])].

Lemma install_writes_ext start secs (D D' : dmap) :
  (∀ i, 0 ≤ i → aget D' (slot start i) = aget D (slot start i)) →
  install_writes start secs D' = install_writes start secs D.
Proof. intros HD. unfold install_writes. apply imap_ext. intros i x _. by rewrite HD by lia. Qed.

Lemma header_not_slot start i : 0 ≤ i → home start ≠ slot start i.
Proof. intros Hi [=]. lia. Qed.

Lemma header_not_home start secs :
  Forall (is_home start) secs → (home start ∉ home <$> secs).
Proof.
  intros Hf (sec & [= E] & Hs)%list_elem_of_fmap. rewrite Forall_forall in Hf.
  apply Hf in Hs. unfold is_home in Hs. lia.
Qed.

Lemma wp_commit_writes s D T0 secs pd Q :
  in_trans s D T0 secs pd ∅ → (size pd + 2 ≤ Z.to_nat NBUF)%nat → secs ≠ [] →
  (∀ b, bc_rep b ∅ → disk b = do_writes (commit_writes (log_start s) secs (disk (g_bio s))) (disk (g_bio s)) →
     trace b = trace (g_bio s) ++ commit_writes (log_start s) secs (disk (g_bio s)) →
     Q tt (set_lh_n 0 (at_bio s b))) →
  wp (_ ← write_head; _ ← install_trans; _ ← modify (set_lh_n 0); write_head) Q s.
Proof.
  intros Ht Hroom Hne HQ. destruct (t_rep _ _ _ _ _ _ Ht) as (H & Hrep & Hre).
  pose proof (t_place _ _ _ _ _ _ Ht) as Hp. pose proof (t_homes _ _ _ _ _ _ Ht) as Hh.
  pose proof (t_lh _ _ _ _ _ _ Ht) as Hlh. pose proof (t_fits _ _ _ _ _ _ Ht) as Hfits.
  pose proof (resid_size _ _ _ Hre) as Hsz. unfold used in Hsz.
  rewrite dom_empty_L, union_empty_r_L, size_dom in Hsz.
  assert (quiet H) as Hq.
  { intros k e E. destruct (re_all _ _ _ Hre _ _ E) as (x & -> & [[? Hx]|[d Hx]]); [done|].
    destruct (re_log _ _ _ Hre x d (lookup_empty _) Hx) as (i & E'). rewrite E in E'. by injection E' as ->. }
  assert (log_out (log_start s) H) as Hout.
  { intros x Hx. apply (resid_none _ _ _ _ Hre); [done|]. apply eq_None_not_Some.
    intros Hs%(t_dom _ _ _ _ _ _ Ht). rewrite Forall_forall in Hh. apply Hh in Hs.
    unfold is_home in Hs. lia. }
  wp_step. apply (wp_write_head s H secs);
    [done|done|done|destruct Hfits; unfold LOGSIZE in *; lia|apply Hout; lia|lia|].
  set (k := home (log_start s)). set (h := head_block _ secs). intros b1 Hr1 Ed1 Et1.
  wp_step. apply (wp_install_trans (at_bio s b1) H secs);
    [done|by apply place_at|done|done|done|done|lia|done|]. autorewrite with lg.
  intros b2 H2 Hr2 Hw2 Ed2 Et2.
  assert (H2 = ∅) as ->.
  { apply map_eq. intros x. rewrite Hw2, lookup_empty. case_decide as Hd; [done|].
    destruct (H !! x) eqn:E; [|done].
    destruct (re_all _ _ _ Hre _ _ E) as (y & -> & [[? Hy]|Hy]); [done|].
    destruct Hd. by apply list_elem_of_fmap_2, (t_dom _ _ _ _ _ _ Ht). }
  rewrite (install_writes_ext _ _ (disk (g_bio s))) in Ed2, Et2
    by (intros; rewrite Ed1; by apply aget_ne, header_not_slot).
  wp_steps. set (s2 := set_lh_n 0 (at_bio s b2)). pose proof room_empty.
  apply (wp_write_head s2 ∅ []); [done|by destruct Hp|by split|cbn; lia|done|lia|].
  intros b3 Hr3 Ed3 Et3. cbn [s2 set_lh_n g_bio lset l_g_bio log_start] in Ed3, Et3. fold k in Ed3, Et3.
  assert (aget (disk b2) k = h) as Ek.
  { rewrite Ed2, do_writes_other; [by rewrite Ed1, aget_eq|]. rewrite install_keys.
    by apply header_not_home. }
  rewrite Ek in Ed3, Et3.
  apply HQ; [done| |]; unfold commit_writes; rewrite decide_False by done; fold k h; cbn zeta.
  - rewrite Ed3, Ed2, Ed1. cbn [do_writes fst snd]. by rewrite do_writes_app.
  - rewrite Et3, Et2, Et1. by rewrite <- !app_assoc.
Qed.

(** The end of [commit_trans]. *)
Lemma wp_commit_end s b Q :
  bc_rep b ∅ → log_place s → unlocked (log_lock s) →
  s32 (read32 (aget (disk b) (home (log_start s))) 0) = 0 →
  (∀ s', log_idle s' → log_start s' = log_start s → log_size s' = log_size s →
     disk (g_bio s') = disk b → trace (g_bio s') = trace b → Q tt s') →
  wp (_ ← lift l_log_lock (spinlock_acquire "log.lock");
      _ ← modify (set_log_busy 0);
      _ ← lift l_g_bio (wakeup log_addr);
      lift l_log_lock spinlock_release) Q (set_lh_n 0 (at_bio s b)).
Proof.
  intros Hr [] Hlk Hhd HQ. wp_steps. wp_lock. wp_steps.
  apply wp_wakeup; [apply (i_sched _ (r_idle _ _ Hr))|]. intros ip Hip. wp_steps. wp_lock.
  apply HQ; try done. split; try done. by apply rep_ipc.
Qed.

Lemma wp_commit_trans s D T0 secs pd Q :
  let CW := commit_writes (log_start s) secs (disk (g_bio s)) in
  in_trans s D T0 secs pd ∅ → (size pd + 2 ≤ Z.to_nat NBUF)%nat →
  (∀ s', log_idle s' → log_start s' = log_start s → log_size s' = log_size s →
     disk (g_bio s') = do_writes CW (disk (g_bio s)) →
     trace (g_bio s') = trace (g_bio s) ++ CW → Q tt s') →
  wp (commit_trans log_addr) Q s.
Proof.
  intros CW Ht Hroom HQ. unfold commit_trans. wp_steps. rewrite (proj1 (t_lh _ _ _ _ _ _ Ht)).
  destruct (decide (secs = [])) as [->|Hne].
  - destruct (t_rep _ _ _ _ _ _ Ht) as (H & Hrep & Hre).
    change (0 <? Z.of_nat (length [])) with false. cbv iota. wp_step.
    assert (H = ∅) as ->.
    { apply map_eq. intros k. rewrite lookup_empty. destruct (H !! k) eqn:E; [|done].
      destruct (re_all _ _ _ Hre _ _ E) as (x & _ & [[? Hx]|Hx]); [done|].
      by apply (t_dom _ _ _ _ _ _ Ht), elem_of_nil in Hx. }
    replace s with (set_lh_n 0 (at_bio s (g_bio s))).
    2:{ pose proof (proj1 (t_lh _ _ _ _ _ _ Ht)) as Hn. destruct s. cbn in *. by rewrite Hn. }
    apply wp_commit_end; [done|apply Ht|apply Ht| |].
    { rewrite (trans_home _ _ _ _ _ _ _ Ht) by lia. apply Ht. }
    intros s' Hi Es Ez Ed Et. apply HQ; [done..|by rewrite Et, app_nil_r].
  - rewrite (proj2 (Z.ltb_lt _ _)) by (destruct secs; cbn; [done|lia]).
    eapply wp_commit_writes; [done|done|done|]. fold CW. intros b Hr Ed Et.
    apply wp_commit_end; [done|apply Ht|apply Ht| |].
    { rewrite Ed. unfold CW, commit_writes. rewrite decide_False by done. cbn [do_writes].
      rewrite do_writes_app. cbn [do_writes fst snd]. rewrite aget_eq. apply head_empty. }
    intros s' Hi Es Ez Ed' Et'. apply HQ; [done..|by rewrite Ed'|by rewrite Et'].
Qed.

(** ** Crashes *)

(** Recovery from [D'] leaves exactly the blocks [f]. *)
Definition recovers (start size : Z) (D' : dmap) (f : Z → block) : Prop :=
  head_ok start size (aget D' (home start)) ∧
  ∀ sec, is_home start sec → aget (recovered start D') (home sec) = f sec.

Lemma recovered_home start (D : dmap) sec :
  is_home start sec →
  aget (recovered start D) (home sec)
  = aget (do_writes (install_writes start (log_secs (aget D (home start))) D) D) (home sec).
Proof. intros Hs. unfold recovered. rewrite aget_ne; [done|]. intros [= E]. unfold is_home in Hs. lia. Qed.

(** With an empty log recovery does nothing. *)
Lemma recovers_empty (start size : Z) (D' : dmap) :
  1 ≤ size → s32 (read32 (aget D' (home start)) 0) = 0 →
  recovers start size D' (λ sec, aget D' (home sec)).
Proof.
  intros Hsz Hn. assert (log_secs (aget D' (home start)) = []) as El.
  { unfold log_secs. by rewrite Hn. }
  split.
  - unfold head_ok. rewrite Hn, El. unfold LOGSIZE. split_and!; [lia..|constructor].
  - intros sec Hs. rewrite recovered_home, El by done. done.
Qed.

Lemma recovers_ext (start size : Z) (D' : dmap) (f g : Z → block) :
  recovers start size D' f → (∀ sec, is_home start sec → f sec = g sec) → recovers start size D' g.
Proof. intros [Hh Hf] Hg. split; [done|]. intros sec Hs. by rewrite Hf, Hg. Qed.

Section Crash.
Context s D T0 secs (pd : gmap Z block) (Ht : in_trans s D T0 secs pd ∅).
Let start := log_start s.
Let Ds := disk (g_bio s).
Let W := install_writes start secs Ds.
Let h := head_block (aget Ds (home start)) secs.

Lemma crash_slots i : 0 ≤ i → (slot start i ∉ W.*1).
Proof using Ht.
  intros Hi. unfold W. rewrite install_keys. apply slot_not_home; [apply Ht|done].
Qed.

Lemma crash_header : home start ∉ W.*1.
Proof using Ht. unfold W. rewrite install_keys. apply header_not_home, Ht. Qed.

(** All of [W] gives the new contents, wherever it starts from. *)
Lemma crash_installed (D' : dmap) sec :
  (∀ sec, is_home start sec → aget D' (home sec) = aget Ds (home sec)) → is_home start sec →
  aget (do_writes W D') (home sec) = view D pd sec.
Proof using Ht.
  intros HD Hs. destruct (decide (sec ∈ secs)) as [[i Hi]%list_elem_of_lookup_1|Hn].
  - rewrite (do_writes_lookup _ _ i (home sec) (aget Ds (slot start (Z.of_nat i)))).
    + by apply (t_slots _ _ _ _ _ _ Ht).
    + unfold W. rewrite install_keys. apply NoDup_fmap_2; [by intros ?? [=]|apply Ht].
    + unfold W, install_writes. by rewrite list_lookup_imap, Hi.
  - rewrite do_writes_other.
    + rewrite HD by done. unfold Ds. rewrite (trans_home _ _ _ _ _ _ _ Ht) by (unfold is_home in Hs; lia).
      unfold view. destruct (pd !! sec) eqn:E; [|done]. destruct Hn. apply (t_dom _ _ _ _ _ _ Ht). eauto.
    + unfold W. rewrite install_keys. by intros (x & [= ->] & Hx)%list_elem_of_fmap.
Qed.

(** Before the commit. *)
Lemma crash_before ws n :
  Forall (λ w, ∃ i, 0 ≤ i ∧ w.1 = slot start i) ws →
  recovers start (log_size s) (do_writes (take n ws) D) (λ sec, aget D (home sec)).
Proof using Ht.
  intros Hws. pose proof (t_place _ _ _ _ _ _ Ht) as [].
  assert (∀ sec, sec ≤ start → aget (do_writes (take n ws) D) (home sec) = aget D (home sec)) as Hsame.
  { intros sec Hs. apply do_writes_other. intros (w & E & Hw)%list_elem_of_fmap.
    apply (Forall_take _ n) in Hws. rewrite Forall_forall in Hws.
    destruct (Hws w Hw) as (i & Hi & E'). rewrite <- E in E'. injection E' as ?. lia. }
  eapply recovers_ext; [apply recovers_empty; [done|]|].
  - rewrite Hsame by lia. apply Ht.
  - intros sec Hs. apply Hsame. unfold is_home in Hs. lia.
Qed.

(** After the header has been written, while blocks are installed. *)
Lemma crash_during n :
  recovers start (log_size s) (do_writes (take n W) (<[home start := h]> Ds)) (view D pd).
Proof using Ht.
  set (D1 := <[home start := h]> Ds). pose proof (t_fits _ _ _ _ _ _ Ht) as [Hf1 Hf2].
  pose proof (t_place _ _ _ _ _ _ Ht) as [].
  assert (∀ k, k ∉ W.*1 → aget (do_writes (take n W) D1) k = aget D1 k) as Hsame.
  { intros k Hk. apply do_writes_other. rewrite fmap_take. by intros ?%elem_of_take_sub. }
  assert (aget (do_writes (take n W) D1) (home start) = h) as Eh.
  { rewrite Hsame by apply crash_header. unfold D1. by rewrite aget_eq. }
  assert (log_secs h = secs) as El.
  { apply log_secs_head; [done|]. eapply Forall_impl; [apply Ht|]. unfold is_home. intros; lia. }
  split.
  - rewrite Eh. pose proof (t_homes _ _ _ _ _ _ Ht).
    assert (s32 (read32 h 0) = Z.of_nat (length secs)) as En.
    { unfold h, head_block. rewrite head_fill_before, read32_write32_eq by lia.
      rewrite u32_small, s32_small; unfold is_u32, two32, LOGSIZE in *; lia. }
    unfold head_ok. rewrite En, El. split_and!; [lia|lia|lia|done].
  - intros sec Hs. rewrite recovered_home, Eh, El by done.
    rewrite (install_writes_ext _ _ Ds).
    2:{ intros i Hi. rewrite Hsame by by apply crash_slots. by apply aget_ne, header_not_slot. }
    fold W. rewrite do_writes_redo. apply crash_installed; [|done].
    intros x Hx. apply aget_ne. intros [= E]. unfold is_home in Hx. lia.
Qed.

(** When everything has been written. *)
Lemma crash_after :
  recovers start (log_size s) (<[home start := head_block h []]> (do_writes W (<[home start := h]> Ds)))
    (view D pd).
Proof using Ht.
  pose proof (t_place _ _ _ _ _ _ Ht) as [].
  eapply recovers_ext; [apply recovers_empty; [done|]|].
  - rewrite aget_eq. apply head_empty.
  - intros sec Hs. cbn beta. rewrite aget_ne by (intros [= E]; unfold is_home in Hs; lia).
    apply crash_installed; [|done]. intros x Hx. apply aget_ne. intros [= E]. unfold is_home in Hx. lia.
Qed.

(** The disk after the commit. *)
Lemma commit_homes sec :
  is_home start sec →
  aget (do_writes (commit_writes start secs Ds) Ds) (home sec) = view D pd sec.
Proof using Ht.
  intros Hs. unfold commit_writes. case_decide as He.
  - cbn [do_writes]. unfold Ds. rewrite (trans_home _ _ _ _ _ _ _ Ht) by (unfold is_home in Hs; lia).
    unfold view. destruct (pd !! sec) eqn:E; [|done].
    assert (sec ∈ secs) as Hin by (apply (t_dom _ _ _ _ _ _ Ht); eauto). rewrite He in Hin.
    by apply elem_of_nil in Hin.
  - fold h. cbn [do_writes fst snd]. rewrite do_writes_app. fold W. cbn [do_writes fst snd].
    rewrite aget_ne by (intros [= E]; unfold is_home in Hs; lia).
    apply crash_installed; [|done]. intros x Hx. apply aget_ne. intros [= E]. unfold is_home in Hx. lia.
Qed.

(** The superblock is not touched. *)
Lemma crash_super ws n :
  Forall (λ w, ∃ i, 0 ≤ i ∧ w.1 = slot start i) ws → (1 ∉ secs) →
  aget (do_writes (take n (ws ++ commit_writes start secs Ds)) D) (home 1) = aget D (home 1).
Proof using Ht.
  intros Hws H1. pose proof (t_place _ _ _ _ _ _ Ht) as []. apply do_writes_other.
  rewrite fmap_take. intros Hin%elem_of_take_sub.
  rewrite fmap_app, elem_of_app in Hin. destruct Hin as [(w & E & Hw)%list_elem_of_fmap|Hin].
  - rewrite Forall_forall in Hws. destruct (Hws w Hw) as (i & Hi & E'). rewrite <- E in E'.
    injection E' as ?. unfold start in *. lia.
  - unfold commit_writes in Hin. case_decide; [by apply elem_of_nil in Hin|].
    rewrite fmap_cons, fmap_app, install_keys, elem_of_cons, elem_of_app in Hin.
    destruct Hin as [[= E]|[(x & [= <-] & Hx)%list_elem_of_fmap|[= E]%list_elem_of_singleton]];
      unfold start in *; [lia|done|lia].
Qed.

Lemma crash_any ws n :
  Ds = do_writes ws D → Forall (λ w, ∃ i, 0 ≤ i ∧ w.1 = slot start i) ws →
  let Dn := do_writes (take n (ws ++ commit_writes start secs Ds)) D in
  recovers start (log_size s) Dn (λ sec, aget D (home sec)) ∨ recovers start (log_size s) Dn (view D pd).
Proof using Ht.
  intros Ews Hws. cbn zeta. rewrite take_app, do_writes_app.
  unfold commit_writes. case_decide as He; [rewrite take_nil; left; by apply crash_before|].
  destruct (n - length ws)%nat as [|m] eqn:En; [left; by apply crash_before|right].
  rewrite (take_ge ws n), <- Ews by lia. fold h. cbn [take do_writes fst snd].
  rewrite take_app, do_writes_app. fold W.
  destruct (m - length W)%nat as [|m'] eqn:Em; cbn [take do_writes]; [apply crash_during|].
  rewrite (take_ge W m), take_nil by lia. apply crash_after.
Qed.
End Crash.

(** ** A transaction

    The use of the log described in log.c: read a block, change it, log it,
    release it, any number of times between [begin_trans] and [commit_trans]. *)

Definition update_block (sec : Z) (f : block → block) : M lgs unit :=
  b ← lift l_g_bio (bufcache_read ROOTDEV sec);
  _ ← lift l_g_bio (buf_write b f);
  _ ← log_write b;
  lift l_g_bio (bufcache_release b).

Fixpoint update_blocks (ups : list (Z * (block → block))) : M lgs unit :=
  match ups with
  | [] => mret tt
  | u :: ups => _ ← update_block u.1 u.2; update_blocks ups
  end.

Definition transaction (ups : list (Z * (block → block))) : M lgs unit :=
  _ ← begin_trans;
  _ ← update_blocks ups;
  commit_trans log_addr.

(** The blocks afterwards. *)
Fixpoint updated (ups : list (Z * (block → block))) (V : Z → block) (sec : Z) : block :=
  match ups with
  | [] => V sec
  | u :: ups => updated ups (λ x, if decide (x = u.1) then u.2 (V x) else V x) sec
  end.

Lemma updated_ext ups V V' : (∀ x, V x = V' x) → ∀ sec, updated ups V sec = updated ups V' sec.
Proof.
  revert V V'. induction ups as [|u ups IH]; intros V V' HV sec; cbn; [done|].
  apply IH. intros x. by rewrite HV.
Qed.

Lemma used_empty pd : used pd ∅ = size pd.
Proof. unfold used. by rewrite dom_empty_L, union_empty_r_L, size_dom. Qed.

Lemma used_one pd sec x : (used pd {[sec := x]} ≤ S (size pd))%nat.
Proof.
  unfold used. rewrite dom_singleton_L, <- size_dom.
  pose proof (size_union_alt (dom pd) ({[sec]} : gset Z)) as E.
  pose proof (subseteq_size ({[sec]} ∖ dom pd) ({[sec]} : gset Z) ltac:(set_solver)) as Hs.
  rewrite size_singleton in Hs. lia.
Qed.

Lemma wp_update_block s D T0 secs pd sec f Q :
  in_trans s D T0 secs pd ∅ → is_home (log_start s) sec → log_fits s (S (length secs)) →
  (S (size pd) < Z.to_nat NBUF)%nat →
  (∀ s', in_trans s' D T0 (log_add secs sec) (<[sec := f (view D pd sec)]> pd) ∅ →
     log_start s' = log_start s → log_size s' = log_size s → Q tt s') →
  wp (update_block sec f) Q s.
Proof.
  intros Ht Hh Hfits Hroom HQ. unfold update_block. wp_step.
  apply (wp_tr_read s D T0 secs pd ∅); [done|done|done|right; rewrite used_empty; lia|].
  intros i b1 Ht1. wp_step.
  eapply wp_tr_write; [exact Ht1|apply lookup_insert_eq|].
  rewrite insert_insert_eq, insert_empty. intros b2 Ht2. wp_step.
  pose proof (used_one pd sec (i, f (view D pd sec))).
  eapply wp_tr_log_write; [exact Ht2|apply lookup_insert_eq|done|lia|]. intros b3 Ht3.
  eapply wp_tr_release; [exact Ht3|apply lookup_insert_eq| |].
  { unfold view. by rewrite lookup_insert_eq. }
  intros b4 Ht4. rewrite delete_singleton_eq in Ht4. by apply HQ.
Qed.

Lemma wp_update_blocks ups s D T0 secs pd Q :
  in_trans s D T0 secs pd ∅ → Forall (λ u, is_home (log_start s) u.1 ∧ u.1 ≠ 1) ups →
  log_fits s (length secs + length ups) → (size pd + length ups + 2 ≤ Z.to_nat NBUF)%nat →
  (∀ s' secs' pd', in_trans s' D T0 secs' pd' ∅ → (1 ∈ secs' → 1 ∈ secs) →
     (size pd' + 2 ≤ Z.to_nat NBUF)%nat → (∀ sec, view D pd' sec = updated ups (view D pd) sec) →
     log_start s' = log_start s → log_size s' = log_size s → Q tt s') →
  wp (update_blocks ups) Q s.
Proof.
  revert s secs pd. induction ups as [|[sec f] ups IH]; intros s secs pd Ht Hups Hfits Hroom HQ;
    cbn [update_blocks].
  { wp_step. cbn in Hroom. eapply HQ; [exact Ht|done|lia|done|done|done]. }
  apply Forall_cons in Hups as [[Hh H1] Hups]. cbn [fst snd length] in *. destruct Hfits as [Hf1 Hf2].
  wp_step. apply (wp_update_block s D T0 secs pd); [done|done|split; lia|lia|].
  intros s1 Ht1 Es1 Ez1. set (pd1 := <[sec := _]> pd) in *.
  assert (length (log_add secs sec) ≤ S (length secs))%nat.
  { rewrite log_add_length by apply Ht. destruct (_ =? _); lia. }
  assert (size pd1 ≤ S (size pd))%nat.
  { unfold pd1. destruct (decide (is_Some (pd !! sec))) as [Hk|Hk].
    - rewrite map_size_insert_Some by done. lia.
    - rewrite map_size_insert_None by by apply eq_None_not_Some. lia. }
  apply (IH s1 (log_add secs sec) pd1); [done|by rewrite Es1|split; rewrite ?Ez1; lia|lia|].
  intros s2 secs2 pd2 Ht2 H12 Hroom2 Hv2 Es2 Ez2.
  eapply HQ; [exact Ht2| |done| |congruence|congruence].
  - intros Hin%H12%elem_of_log_add. destruct Hin; [done|congruence].
  - intros x. rewrite Hv2. cbn [updated fst snd]. apply updated_ext. intros y.
    unfold view, pd1. destruct (decide (y = sec)) as [->|]; [by rewrite lookup_insert_eq|].
    by rewrite lookup_insert_ne.
Qed.

(** A machine that starts with the disk [D]. *)
Definition boots (m : lgs) (D : dmap) : Prop :=
  bc_rep (g_bio m) ∅ ∧ log_busy m = 0 ∧ disk (g_bio m) = D.

(** The blocks outside the log are those of [f]. *)
Definition homes_are (s : lgs) (f : Z → block) : Prop :=
  ∀ sec, is_home (log_start s) sec → aget (disk (g_bio s)) (home sec) = f sec.

Lemma boot_recovers (m : lgs) (D : dmap) (start size : Z) (f : Z → block) :
  boots m D → disk_ok D start size → recovers start size D f →
  ∃ m', log_init m = Ok (tt, m') ∧ log_idle m' ∧ log_start m' = start ∧ homes_are m' f.
Proof.
  intros (Hrep & Hb & Ed) Hok [Hhd Hf].
  apply (wp_run_val log_init tt (λ m', log_idle m' ∧ log_start m' = start ∧ homes_are m' f)).
  apply (wp_log_init m start size); [done|done|by rewrite Ed|by rewrite Ed|].
  intros m' Hi Es Ez Ed'. split_and!; [done|done|done|]. intros sec. rewrite Es, Ed', Ed. apply Hf.
Qed.

(** Whatever the transaction changed, a crash loses all of it or nothing. *)
Lemma trans_crash s D T0 secs pd ws n m :
  in_trans s D T0 secs pd ∅ → disk_ok D (log_start s) (log_size s) → (1 ∉ secs) →
  disk (g_bio s) = do_writes ws D →
  Forall (λ w, ∃ i, 0 ≤ i ∧ w.1 = slot (log_start s) i) ws →
  boots m (do_writes (take n (ws ++ commit_writes (log_start s) secs (disk (g_bio s)))) D) →
  ∃ m', log_init m = Ok (tt, m') ∧ log_idle m' ∧ log_start m' = log_start s
    ∧ (homes_are m' (λ sec, aget D (home sec)) ∨ homes_are m' (view D pd)).
Proof.
  intros Ht Hdok H1 Ed Hws Hm.
  assert (disk_ok (do_writes (take n (ws ++ commit_writes (log_start s) secs (disk (g_bio s)))) D)
            (log_start s) (log_size s)) as Hdok'.
  { pose proof (crash_super s D T0 secs pd Ht ws n Hws H1) as Esup.
    destruct Hdok. split; [by rewrite Esup..|done|done|done]. }
  destruct (crash_any s D T0 secs pd Ht ws n Ed Hws) as [Hr|Hr];
    destruct (boot_recovers m _ _ _ _ Hm Hdok' Hr) as (m' & ? & ? & ? & ?); exists m'; auto.
Qed.

Lemma homes_are_ext s f g : homes_are s f → (∀ sec, f sec = g sec) → homes_are s g.
Proof. intros Hf Hfg sec Hs. by rewrite <- Hfg, Hf. Qed.

(** C1: Transactions are atomic.  A transaction of up to eight blocks returns,
    makes its changes and leaves the log empty.  And if the machine stops after
    any number of its disk writes, the recovery that [log_init] does at the next
    boot succeeds and leaves, outside the log, either the disk as it was before
    the transaction or the disk with all of its changes. *)
Theorem transaction_atomic s ups :
  let D := disk (g_bio s) in
  let old := λ sec, aget D (home sec) in
  log_idle s → disk_ok D (log_start s) (log_size s) →
  Forall (λ u, is_home (log_start s) u.1 ∧ u.1 ≠ 1) ups →
  (length ups ≤ 8)%nat → Z.of_nat (length ups) < log_size s →
  ∃ s' ws, transaction ups s = Ok (tt, s') ∧ log_idle s' ∧ homes_are s' (updated ups old)
    ∧ trace (g_bio s') = trace (g_bio s) ++ ws ∧ disk (g_bio s') = do_writes ws D
    ∧ ∀ n m, boots m (do_writes (take n ws) D) →
      ∃ m', log_init m = Ok (tt, m') ∧ log_idle m' ∧ log_start m' = log_start s
        ∧ (homes_are m' old ∨ homes_are m' (updated ups old)).
Proof.
  intros D old Hidle Hdok Hups Hlen Hlen'.
  set (good := λ s' : lgs, ∃ ws, log_idle s' ∧ homes_are s' (updated ups old)
    ∧ trace (g_bio s') = trace (g_bio s) ++ ws ∧ disk (g_bio s') = do_writes ws D
    ∧ ∀ n m, boots m (do_writes (take n ws) D) →
      ∃ m', log_init m = Ok (tt, m') ∧ log_idle m' ∧ log_start m' = log_start s
        ∧ (homes_are m' old ∨ homes_are m' (updated ups old))).
  destruct (wp_run_val (transaction ups) tt good s) as (s' & E & ws & Hg); [|by exists s', ws].
  unfold transaction. wp_step. apply (wp_begin_trans s); [done|]. intros s0 Ht0 Es0 Ez0.
  wp_step. apply (wp_update_blocks ups s0 D (trace (g_bio s)) [] ∅); [done|by rewrite Es0| |
    rewrite map_size_empty; unfold NBUF; lia|].
  { split; cbn; rewrite ?Ez0; unfold LOGSIZE; lia. }
  intros s1 secs pd Ht1 H1 Hroom Hv Es1 Ez1.
  apply (wp_commit_trans s1 D (trace (g_bio s)) secs pd); [done|done|].
  intros s2 Hi2 Es2 Ez2 Ed2 Et2. split; [done|].
  destruct (t_ws _ _ _ _ _ _ Ht1) as (ws & Et1 & Ed1 & Hws).
  exists (ws ++ commit_writes (log_start s1) secs (disk (g_bio s1))).
  split_and!; [done| |by rewrite Et2, Et1, app_assoc|by rewrite Ed2, Ed1, do_writes_app|].
  - intros sec Hs. rewrite Es2 in Hs. rewrite Ed2, <- Hv.
    by apply (commit_homes s1 D (trace (g_bio s)) secs pd).
  - intros n m Hm. rewrite Es0 in Es1. rewrite Ez0 in Ez1. rewrite <- Es1, <- Ez1 in Hdok.
    destruct (trans_crash s1 D _ secs pd ws n m Ht1) as (m' & ? & ? & ? & Hh); try done.
    { by intros ?%H1%elem_of_nil. }
    exists m'. split_and!; [done|done|congruence|]. destruct Hh as [Hh|Hh]; [by left|right].
    by eapply homes_are_ext.
Qed.
End LogOps.

(** ** A concrete run *)

#[local] Existing Instance sample_layout.
#[local] Existing Instance sample_stack.
#[local] Existing Instance sample_ipc_layout.
#[local] Existing Instance sample_buf_layout.

(** Thirty sectors, the last ten of them the log. *)
Definition sample_disk : dmap := {[home 1 := write32 (write32 ∅ 0 30) 12 10]}.

Lemma sample_disk_ok : disk_ok sample_disk 20 10.
Proof. split; (by vm_compute) || lia. Qed.

Lemma sample_log (d : dmap) :
  s32 (read32 (aget d (home 20)) 0) = 0 →
  ∃ s, log_idle s ∧ disk (g_bio s) = d ∧ log_start s = 20 ∧ log_size s = 10.
Proof.
  intros H0. destruct (sample_bio_rep d) as (Hrep & Hd & _).
  generalize dependent (sample_bio d). intros b Hrep Hd.
  exists (Lgs b released 20 10 0 ROOTDEV 0 ∅). split_and!; [|done..].
  split; [by split|done|done|done|done|]. cbn [g_bio log_start]. by rewrite Hd.
Qed.

Definition sample_ups : list (Z * (block → block)) :=
  [(5, λ b, write8 b 0 7); (6, λ b, write8 b 1 8); (5, λ b, write8 b 2 9)].

Lemma transaction_atomic_witness :
  ∃ s s' ws, transaction 4096 sample_ups s = Ok (tt, s')
    ∧ disk (g_bio s') = do_writes ws sample_disk
    ∧ ∀ n m, boots m (do_writes (take n ws) sample_disk) →
      ∃ m', log_init m = Ok (tt, m') ∧ log_idle m'.
Proof.
  destruct (sample_log sample_disk eq_refl) as (s & Hi & Hd & Hs & Hz). exists s.
  destruct (transaction_atomic 4096 s sample_ups) as (s' & ws & E & _ & _ & _ & Ed & Hc).
  - exact Hi.
  - rewrite Hd, Hs, Hz. exact sample_disk_ok.
  - rewrite Hs. repeat constructor; cbn; lia.
  - cbn. lia.
  - rewrite Hz. cbn. lia.
  - rewrite Hd in Ed, Hc. exists s', ws. split_and!; [exact E|exact Ed|]. intros n m Hm.
    destruct (Hc n m Hm) as (m' & E' & Hi' & _). exists m'. split; [exact E'|exact Hi'].
Defined.
