(* ===== verification/Block.v ===== *)
(** * Disk blocks (kern/fs/block.c)

    The allocator of disk blocks: a bitmap on the disk, changed through the log. *)

From stdpp Require Import functions.
From S2P Require Import Prelude Memory Resume Spinlock PhysMap Pmm Container PageTable Isolation.
From S2P Require Import UserCopy Tcb TQueue Thread Signal Ipc Bufcache Log.

(** kern/fs/dinode.h *)
Definition BPB : Z := BSIZE * 8.
Definition IPB : Z := 8.
Definition BBLOCK (b ninodes : Z) : Z := u32 (u32 (b / BPB) + ninodes / IPB + 3).

Section Block.
Context `{B : BufLayout}.

(** A call on the buffer cache. *)
Definition bcache {A} (m : M bio A) : M lgs A := lift l_g_bio m.

Definition block_zero (dev bno : Z) : M lgs unit :=
  bp ← bcache (bufcache_read dev bno);
  _ ← bcache (buf_write bp (λ d, memset d 0 0 BSIZE));
  _ ← log_write bp;
  bcache (bufcache_release bp).

(** The bit of a block in the bytes of its bitmap block. *)
Definition bit_mask (bi : Z) : Z := Z.shiftl 1 (bi mod 8).
Definition bit_free (d : block) (bi : Z) : bool := Z.land (read8 d (bi / 8)) (bit_mask bi) =? 0.

(** The inner loop of [block_alloc] from [bi] on: the first free bit. *)
Fixpoint find_bit (fuel : nat) (d : block) (b bi size : Z) : option Z :=
  match fuel with
  | O => None
  | S fuel =>
    if (bi <? BPB) && (b + bi <? size) then
      if bit_free d bi then Some bi else find_bit fuel d b (bi + 1) size
    else None
  end.

(** The outer loop.  The buffer does not change while it is searched. *)
Fixpoint alloc_scan (fuel : nat) (dev b : Z) (sb : superblock) (junk : Z) : M lgs Z :=
  if b <? sb_size sb then
    match fuel with
    | O => fail OutOfFuel
    | S fuel =>
      bp ← bcache (bufcache_read dev (BBLOCK b (sb_ninodes sb)));
      d ← bcache (buf_get b_data bp);
      match find_bit (Z.to_nat BPB) d b 0 (sb_size sb) with
      | Some bi =>
        _ ← bcache (buf_write bp (λ d,
              write8 d (bi / 8) (Z.lor (read8 d (bi / 8)) (bit_mask bi))));
        _ ← log_write bp;
        _ ← bcache (bufcache_release bp);
        _ ← block_zero dev (b + bi);
        mret (b + bi)
      | None =>
        _ ← bcache (bufcache_release bp);
        alloc_scan fuel dev (b + BPB) sb junk
      end
    end
  else mret junk.

(** With no free block the function ends without a [return]: the caller finds
    [junk], whatever the register holds.  The loop runs once per bitmap block. *)
Definition block_alloc (junk dev : Z) : M lgs Z :=
  sb ← bcache (read_superblock dev);
  alloc_scan (Z.to_nat (sb_size sb / BPB + 1)) dev 0 sb junk.

Definition block_free (dev b : Z) : M lgs unit :=
  sb ← bcache (read_superblock dev);
  bp ← bcache (bufcache_read dev (BBLOCK b (sb_ninodes sb)));
  let bi := b mod BPB in
  d ← bcache (buf_get b_data bp);
  _ ← (if bit_free d bi then fail (Panic "freeing free block") else mret tt);
  _ ← bcache (buf_write bp (λ d,
        write8 d (bi / 8) (Z.land (read8 d (bi / 8)) (Z.lnot (bit_mask bi)))));
  _ ← log_write bp;
  bcache (bufcache_release bp).

(** ** Working inside a transaction

    [trans s V U n]: the transaction sees the blocks [V], holds the buffers [U],
    and has room to log [n] more blocks.  [D], [T0] and [start] are the disk and
    its trace at the beginning of the transaction and the place of the log. *)

Section Trans.
Context (D : dmap) (T0 : list (Z * Z * block)) (start : Z).
Implicit Types (V : Z → block) (U : gmap Z (Z * block)) (s : lgs) (n : nat) (sec i : Z) (d : block).

(** What is common to both: the log and the room. *)
Definition roomy s V (pd : gmap Z block) (secs : list Z) U n : Prop :=
  (∀ sec, view D pd sec = V sec) ∧ log_fits s (length secs + n)
  ∧ (used pd U + n + 2 ≤ Z.to_nat NBUF)%nat ∧ log_start s = start.

Definition trans s V U n : Prop :=
  ∃ secs pd, in_trans s D T0 secs pd U ∧ roomy s V pd secs U n.

(** The same while the block of [sec] is in the buffer [i], with the data [d]. *)
Definition held s V U n sec i d : Prop :=
  ∃ secs pd, in_trans s D T0 secs pd (<[sec := (i, d)]> U) ∧ roomy s V pd secs U n ∧ U !! sec = None.

Lemma used_insert pd U sec x : (used pd (<[sec := x]> U) ≤ S (used pd U))%nat.
Proof.
  unfold used. rewrite dom_insert_L.
  replace (dom pd ∪ ({[sec]} ∪ dom U)) with ({[sec]} ∪ (dom pd ∪ dom U)) by set_solver.
  rewrite size_union_alt, size_singleton.
  pose proof (subseteq_size ((dom pd ∪ dom U) ∖ {[sec]}) (dom pd ∪ dom U) ltac:(set_solver)). lia.
Qed.

Lemma used_log pd U sec d : (used (<[sec := d]> pd) U ≤ S (used pd U))%nat.
Proof.
  unfold used. rewrite dom_insert_L, <- (assoc_L (∪)), size_union_alt, size_singleton.
  pose proof (subseteq_size ((dom pd ∪ dom U) ∖ {[sec]}) (dom pd ∪ dom U) ltac:(set_solver)). lia.
Qed.

Lemma used_mono pd U sec x : (used pd U ≤ used pd (<[sec := x]> U))%nat.
Proof. unfold used. apply subseteq_size. rewrite dom_insert_L. set_solver. Qed.

Lemma wp_read s V U n sec Q :
  trans s V U n → is_home start sec → U !! sec = None →
  (∀ i s', held s' V U n sec i (V sec) → Q i s') →
  wp (bcache (bufcache_read ROOTDEV sec)) Q s.
Proof.
  intros (secs & pd & Ht & Hr) Hh Hu HQ. pose proof Hr as (Hv & _ & Hroom & Hs).
  apply (wp_tr_read s D T0 secs pd U); [done|by rewrite Hs|done|right; lia|].
  intros i b Ht'. rewrite Hv in Ht'. apply HQ. by exists secs, pd.
Qed.

Lemma wp_data {A} (f : block → A) s V U n sec i d Q :
  held s V U n sec i d → Q (f d) s → wp (bcache (buf_get (λ b, f (b_data b)) i)) Q s.
Proof.
  intros (secs & pd & Ht & Hr) HQ. apply wp_lift. unfold buf_get. wp_steps.
  destruct (trans_buf _ _ _ _ _ _ sec i d Ht (lookup_insert_eq _ _ _)) as (Ed & _ & _).
  change (lget l_g_bio s) with (g_bio s). rewrite Ed. by destruct s.
Qed.

Lemma wp_write s V U n sec i d f Q :
  held s V U n sec i d → (∀ s', held s' V U n sec i (f d) → Q tt s') →
  wp (bcache (buf_write i f)) Q s.
Proof.
  intros (secs & pd & Ht & Hr & Hu) HQ.
  eapply wp_tr_write; [exact Ht|apply lookup_insert_eq|]. intros b Ht'.
  rewrite insert_insert_eq in Ht'. apply HQ. exists secs, pd. done.
Qed.

Lemma wp_log s V U n sec i d Q :
  held s V U (S n) sec i d → (∀ s', held s' (<[sec := d]> V) U n sec i d → Q tt s') →
  wp (log_write i) Q s.
Proof.
  intros (secs & pd & Ht & (Hv & [Hf1 Hf2] & Hroom & Hs) & Hu) HQ.
  pose proof (used_insert pd U sec (i, d)) as Hused.
  eapply wp_tr_log_write; [exact Ht|apply lookup_insert_eq|split; lia|lia|].
  intros b Ht'. apply HQ. exists (log_add secs sec), (<[sec := d]> pd).
  split; [done|]. split; [|done]. split; [|split; [|split; [|done]]].
  - intros x. unfold view. destruct (decide (x = sec)) as [-> |Hne].
    + by rewrite lookup_insert_eq, fn_lookup_insert.
    + rewrite lookup_insert_ne, fn_lookup_insert_ne by done. apply Hv.
  - pose proof (log_add_length secs sec (t_nodup _ _ _ _ _ _ Ht)) as El.
    assert (length (log_add secs sec) ≤ S (length secs))%nat by (rewrite El; case_match; lia).
    split; cbn; lia.
  - pose proof (used_log pd U sec d). lia.
Qed.

Lemma wp_release s V U n sec i d Q :
  held s V U n sec i d → d = V sec → (∀ s', trans s' V U n → Q tt s') →
  wp (bcache (bufcache_release i)) Q s.
Proof.
  intros (secs & pd & Ht & Hr & Hu) Ed HQ. pose proof Hr as (Hv & _).
  eapply wp_tr_release; [exact Ht|apply lookup_insert_eq|by rewrite Hv|].
  rewrite delete_insert_id by done. intros b Ht'. apply HQ. exists secs, pd. done.
Qed.

Lemma trans_weaken s V U n k : trans s V U n → (k ≤ n)%nat → trans s V U k.
Proof.
  intros (secs & pd & Ht & Hv & [Hf1 Hf2] & Hr & Hs) Hk. exists secs, pd. split; [done|].
  split; [done|]. split; [|split; [lia|done]]. split; lia.
Qed.

(** A buffer may stay in use while other blocks are worked on. *)
Lemma park s V U n sec i d : held s V U (S n) sec i d → trans s V (<[sec := (i, d)]> U) n.
Proof.
  intros (secs & pd & Ht & (Hv & [Hf1 Hf2] & Hr & Hs) & _). exists secs, pd. split; [done|].
  split; [done|]. split; [split; lia|]. split; [|done].
  pose proof (used_insert pd U sec (i, d)). lia.
Qed.

Lemma unpark s V U n sec i d :
  U !! sec = None → trans s V (<[sec := (i, d)]> U) n → held s V U n sec i d.
Proof.
  intros Hu (secs & pd & Ht & Hv & Hf & Hr & Hs). exists secs, pd. split; [done|]. split; [|done].
  split; [done|]. split; [done|]. split; [|done]. pose proof (used_mono pd U sec (i, d)). lia.
Qed.
End Trans.

Lemma bcache_bind {A C} (m : M bio A) (f : A → M bio C) s :
  bcache (m ≫= f) s = (bcache m ≫= λ a, bcache (f a)) s.
Proof.
  unfold bcache, lift, mbind, M_bind. cbn. destruct (m (g_bio s)) as [[a b]|]; [|done].
  cbn. by destruct (f a b) as [[c b']|].
Qed.

Lemma wp_bcache_bind {A C} (m : M bio A) (f : A → M bio C) Q s :
  wp (bcache m ≫= λ a, bcache (f a)) Q s → wp (bcache (m ≫= f)) Q s.
Proof. unfold wp. by rewrite bcache_bind. Qed.

Lemma wp_superblock D T0 start s V U n Q :
  trans D T0 start s V U n → is_home start 1 → U !! 1 = None →
  (∀ s', trans D T0 start s' V U n → Q (decode_superblock (V 1)) s') →
  wp (bcache (read_superblock ROOTDEV)) Q s.
Proof.
  intros Ht Hh Hu HQ. unfold read_superblock.
  apply wp_bcache_bind, wp_bind. eapply wp_read; [done..|]. intros i s1 H1.
  apply wp_bcache_bind, wp_bind. eapply (wp_data _ _ _ decode_superblock); [exact H1|].
  apply wp_bcache_bind, wp_bind. eapply wp_release; [exact H1|done|]. intros s2 H2.
  apply wp_lift, wp_ret. rewrite lset_lget. by apply HQ.
Qed.

(** *** The bitmap *)

Lemma find_bit_spec fuel d b bi size :
  0 ≤ bi ≤ BPB → (Z.to_nat (BPB - bi) ≤ fuel)%nat →
  match find_bit fuel d b bi size with
  | Some k => bi ≤ k < BPB ∧ b + k < size ∧ bit_free d k = true
              ∧ ∀ j, bi ≤ j < k → bit_free d j = false
  | None => ∀ j, bi ≤ j < BPB → b + j < size → bit_free d j = false
  end.
Proof.
  revert bi. induction fuel as [|fuel IH]; intros bi Hbi Hf; cbn [find_bit]; [lia|].
  destruct (Z.ltb_spec bi BPB), (Z.ltb_spec (b + bi) size); cbn [andb]; try lia.
  destruct (bit_free d bi) eqn:E; [split_and!; [lia|lia|done|done|lia]|].
  specialize (IH (bi + 1) ltac:(lia) ltac:(lia)). destruct (find_bit _ _ _ _ _) as [k|].
  - destruct IH as (? & ? & ? & Hj). split_and!; [lia|lia|done|done|].
    intros j Hj'. destruct (decide (j = bi)) as [-> |]; [done|apply Hj; lia].
  - intros j Hj Hs. destruct (decide (j = bi)) as [-> |]; [done|apply IH; lia].
Qed.

(** The bitmap block of a block, its bit, and whether it is free. *)
Definition bmap_of (sb : superblock) (b : Z) : Z := BBLOCK b (sb_ninodes sb).
Definition is_free (V : Z → block) (sb : superblock) (b : Z) : bool :=
  bit_free (V (bmap_of sb b)) (b mod BPB).
Definition mark_used (b : Z) (d : block) : block :=
  write8 d (b mod BPB / 8) (Z.lor (read8 d (b mod BPB / 8)) (bit_mask (b mod BPB))).
Definition mark_free (b : Z) (d : block) : block :=
  write8 d (b mod BPB / 8) (Z.land (read8 d (b mod BPB / 8)) (Z.lnot (bit_mask (b mod BPB)))).
Definition zeroed_block (d : block) : block := memset d 0 0 BSIZE.

(** A file system with its log at [start]: the superblock, the inodes and the
    bitmap lie before the log and are not free.  The bitmap may well call the
    blocks of the log free. *)
Record fs_map (V : Z → block) (start : Z) : Prop := {
  fm_super : 1 < start ≤ sb_size (decode_superblock (V 1));
  fm_size : 0 ≤ sb_size (decode_superblock (V 1)) < 268435456;
  fm_inodes : 0 ≤ sb_ninodes (decode_superblock (V 1)) < 268435456;
  fm_bitmap b : 0 ≤ b < sb_size (decode_superblock (V 1)) →
    bmap_of (decode_superblock (V 1)) b < start;
  fm_meta b x : 0 ≤ b < sb_size (decode_superblock (V 1)) →
    0 ≤ x ≤ bmap_of (decode_superblock (V 1)) b → is_free V (decode_superblock (V 1)) x = false
}.

(** The lowest free block at or above [b]. *)
Definition lowest_free (V : Z → block) (sb : superblock) (b k : Z) : Prop :=
  b ≤ k < sb_size sb ∧ is_free V sb k = true ∧ ∀ j, b ≤ j < k → is_free V sb j = false.

(** The allocator has something to take before it comes to the log. *)
Definition spares_log (V : Z → block) (sb : superblock) (b start : Z) : Prop :=
  ∀ r, lowest_free V sb b r → r < start.

Lemma bmap_aligned sb b k : b mod BPB = 0 → 0 ≤ k < BPB → bmap_of sb (b + k) = bmap_of sb b.
Proof.
  intros Hb Hk. unfold bmap_of, BBLOCK. do 4 f_equal.
  rewrite (Z.div_mod b BPB) at 1 by done. rewrite Hb, Z.add_0_r.
  rewrite Z.mul_comm, Z.div_add_l, (Z.div_small k) by done. lia.
Qed.

Lemma mod_aligned b k : b mod BPB = 0 → 0 ≤ k < BPB → (b + k) mod BPB = k.
Proof.
  intros Hb Hk. rewrite Z.add_mod, Hb, Z.add_0_l, Z.mod_mod by done. by apply Z.mod_small.
Qed.

Lemma bmap_nonneg sb b : 0 ≤ b → 0 ≤ bmap_of sb b.
Proof. intros. apply u32_range. Qed.

(** The blocks after [b] has been allocated. *)
Definition allocated_view (V : Z → block) (sb : superblock) (b : Z) : Z → block :=
  let V1 := <[bmap_of sb b := mark_used b (V (bmap_of sb b))]> V in
  <[b := zeroed_block (V1 b)]> V1.

Lemma bit_free_testbit d bi : bit_free d bi = negb (Z.testbit (read8 d (bi / 8)) (bi mod 8)).
Proof.
  pose proof (Z.mod_pos_bound bi 8 ltac:(done)) as Hm.
  rewrite <- land_bit, negb_involutive by lia. unfold bit_free, bit_mask. do 2 f_equal.
  symmetry. apply u32_small. rewrite Z.shiftl_mul_pow2, Z.mul_1_l by lia. split; [apply Z.pow_nonneg; lia|].
  change two32 with (2 ^ 32). apply Z.pow_lt_mono_r; lia.
Qed.

(** Changing the bit of a block changes no other. *)
Lemma bit_free_write d b v bi :
  bit_free (write8 d (b / 8) v) bi
  = if decide (bi / 8 = b / 8) then negb (Z.testbit v (bi mod 8)) else bit_free d bi.
Proof.
  rewrite !bit_free_testbit, read8_write8. pose proof (Z.mod_pos_bound bi 8 ltac:(done)) as Hm.
  case_decide as E1; case_decide as E2; try congruence.
  unfold u8. change 256 with (2 ^ 8). by rewrite Z.mod_pow2_bits_low by lia.
Qed.

Lemma mask_bit k j : 0 ≤ k → 0 ≤ j < 8 → Z.testbit (bit_mask k) j = bool_decide (j = k mod 8).
Proof.
  intros Hk Hj. pose proof (Z.mod_pos_bound k 8 ltac:(done)). unfold bit_mask.
  rewrite Z.shiftl_mul_pow2, Z.mul_1_l by lia. case_bool_decide as E; [subst; apply Z.pow2_bits_true; lia|].
  apply Z.pow2_bits_false. done.
Qed.

Lemma same_bit k j : k / 8 = j / 8 → (k mod 8 = j mod 8 ↔ k = j).
Proof.
  intros E. pose proof (Z.div_mod k 8 ltac:(done)). pose proof (Z.div_mod j 8 ltac:(done)). split; lia.
Qed.

Lemma free_mark_used b d k :
  0 ≤ k → bit_free (mark_used b d) k = bit_free d k && bool_decide (k ≠ b mod BPB).
Proof.
  intros Hk. unfold mark_used. rewrite bit_free_write.
  pose proof (Z.mod_pos_bound k 8 ltac:(done)). pose proof (Z.mod_pos_bound b BPB ltac:(done)).
  case_decide as E.
  - rewrite Z.lor_spec, mask_bit, bit_free_testbit, E, negb_orb by lia. f_equal.
    rewrite (bool_decide_ext _ (k = b mod BPB)) by by apply same_bit. by rewrite <- bool_decide_not.
  - rewrite bool_decide_true, andb_true_r; [done|]. by intros ->.
Qed.

Lemma free_mark_free b d k :
  0 ≤ k → bit_free (mark_free b d) k = bit_free d k || bool_decide (k = b mod BPB).
Proof.
  intros Hk. unfold mark_free. rewrite bit_free_write.
  pose proof (Z.mod_pos_bound k 8 ltac:(done)). pose proof (Z.mod_pos_bound b BPB ltac:(done)).
  case_decide as E.
  - rewrite Z.land_spec, Z.lnot_spec, mask_bit, bit_free_testbit, E, negb_andb, negb_involutive by lia.
    f_equal. apply bool_decide_ext, same_bit. done.
  - rewrite bool_decide_false, orb_false_r; [done|]. by intros ->.
Qed.

Section Alloc.
Context (D : dmap) (T0 : list (Z * Z * block)) (start : Z) (V : Z → block)
  (U : gmap Z (Z * block)) (Hfs : fs_map V start).
Let sb := decode_superblock (V 1).

(** The buffers held are not those the allocator needs. *)
Context (HU1 : U !! 1 = None) (HUm : ∀ b, 0 ≤ b < sb_size sb → U !! bmap_of sb b = None)
  (HUf : ∀ b, 0 ≤ b < sb_size sb → is_free V sb b = true → U !! b = None).

Lemma bitmap_home b : 0 ≤ b < sb_size sb → is_home start (bmap_of sb b).
Proof. intros Hb. split; [apply bmap_nonneg; lia|by apply (fm_bitmap _ _ Hfs)]. Qed.

Lemma wp_block_zero s W n b Q :
  trans D T0 start s W U (S n) → is_home start b → U !! b = None →
  (∀ s', trans D T0 start s' (<[b := zeroed_block (W b)]> W) U n → Q tt s') →
  wp (block_zero ROOTDEV b) Q s.
Proof.
  intros Ht Hh Hu HQ. unfold block_zero. apply wp_bind. eapply wp_read; [done..|].
  intros i s1 H1. apply wp_bind. eapply wp_write; [exact H1|]. intros s2 H2.
  apply wp_bind. eapply wp_log; [exact H2|]. intros s3 H3.
  eapply wp_release; [exact H3|by rewrite fn_lookup_insert|done].
Qed.

Lemma wp_alloc_scan junk fuel b s n Q :
  trans D T0 start s V U (S (S n)) → b mod BPB = 0 → 0 ≤ b → spares_log V sb b start →
  (Z.to_nat ((sb_size sb - b) / BPB + 1) ≤ fuel)%nat →
  (∀ k s', lowest_free V sb b k → trans D T0 start s' (allocated_view V sb k) U n → Q k s') →
  ((∀ j, b ≤ j < sb_size sb → is_free V sb j = false) →
     ∀ s', trans D T0 start s' V U (S (S n)) → Q junk s') →
  wp (alloc_scan fuel ROOTDEV b sb junk) Q s.
Proof.
  revert b s. induction fuel as [|fuel IH]; intros b s Ht Hb Hb0 Hsp Hf Hyes Hno; cbn [alloc_scan].
  { destruct (Z.ltb_spec b (sb_size sb)); [|apply wp_ret; apply Hno; [lia|done]].
    assert (0 ≤ (sb_size sb - b) / BPB) by (apply Z.div_pos; [lia|done]). lia. }
  destruct (Z.ltb_spec b (sb_size sb)) as [Hlt|]; [|apply wp_ret; apply Hno; [lia|done]].
  apply wp_bind. eapply wp_read; [done|by apply bitmap_home|by apply HUm|]. intros i s1 H1.
  apply wp_bind. eapply (wp_data _ _ _ id); [exact H1|]. unfold id at 1.
  pose proof (find_bit_spec (Z.to_nat BPB) (V (bmap_of sb b)) b 0 (sb_size sb) ltac:(done) ltac:(lia)) as Hfb.
  assert (∀ j, 0 ≤ j < BPB → is_free V sb (b + j) = bit_free (V (bmap_of sb b)) j) as Hfree.
  { intros j Hj. unfold is_free. by rewrite bmap_aligned, mod_aligned by done. }
  fold (bmap_of sb b). destruct (find_bit _ _ _ _ _) as [k|].
  - destruct Hfb as (Hk & Hs & Hfk & Hmin).
    assert (lowest_free V sb b (b + k)) as Hlow.
    { split_and!; [lia|lia|by rewrite Hfree|]. intros j Hj. replace j with (b + (j - b)) by lia.
      rewrite Hfree by lia. apply Hmin. lia. }
    pose proof Hlow as (Hr & Hf' & _).
    apply wp_bind. eapply wp_write; [exact H1|]. intros s2 H2.
    apply wp_bind. eapply wp_log; [exact H2|]. intros s3 H3.
    apply wp_bind. eapply wp_release; [exact H3|by rewrite fn_lookup_insert|]. intros s4 H4.
    apply wp_bind. eapply wp_block_zero; [exact H4|split; [lia|by apply Hsp]|apply HUf; [lia|done]|].
    intros s5 H5. apply wp_ret, Hyes; [done|].
    unfold allocated_view, mark_used. rewrite bmap_aligned, mod_aligned by done. exact H5.
  - assert (∀ k, lowest_free V sb (b + BPB) k → lowest_free V sb b k) as Hext.
    { intros k (Hk & Hfk & Hmin). split_and!; [unfold BPB, BSIZE in *; lia|lia|done|].
      intros j Hj. destruct (decide (j < b + BPB)); [|apply Hmin; lia].
      replace j with (b + (j - b)) by lia. rewrite Hfree by lia. apply Hfb; lia. }
    apply wp_bind. eapply wp_release; [exact H1|done|]. intros s2 H2.
    apply IH; [done| |unfold BPB, BSIZE in *; lia|intros k Hk; by apply Hsp, Hext| | |].
    + rewrite <- Zplus_mod_idemp_r, Z.mod_same, Z.add_0_r by done. done.
    + replace ((sb_size sb - (b + BPB)) / BPB) with ((sb_size sb - b) / BPB - 1); [lia|].
      replace (sb_size sb - (b + BPB)) with (sb_size sb - b + (-1) * BPB) by lia.
      by rewrite Z.div_add.
    + intros k s' Hk Ht'. apply Hyes; [by apply Hext|done].
    + intros Hall s' Ht'. apply Hno; [|done]. intros j Hj.
      destruct (decide (j < b + BPB)); [|apply Hall; lia].
      replace j with (b + (j - b)) by lia. rewrite Hfree by lia. apply Hfb; lia.
Qed.
End Alloc.

(** Two blocks of the disk with the same bitmap block and bit are one. *)
Lemma bitmap_inj sb b j :
  0 ≤ b < 268435456 → 0 ≤ j < 268435456 → 0 ≤ sb_ninodes sb < 268435456 →
  bmap_of sb b = bmap_of sb j → b mod BPB = j mod BPB → b = j.
Proof.
  intros Hb Hj Hn E Em. unfold bmap_of, BBLOCK in E.
  assert (∀ x, 0 ≤ x < 268435456 → 0 ≤ x / BPB < 268435456) as Hd.
  { intros x Hx. split; [apply Z.div_pos; [lia|done]|]. apply Z.div_lt_upper_bound; unfold BPB, BSIZE; lia. }
  assert (0 ≤ sb_ninodes sb / IPB < 268435456) as Hi.
  { split; [apply Z.div_pos; [lia|done]|]. apply Z.div_lt_upper_bound; unfold IPB; lia. }
  pose proof (Hd b Hb). pose proof (Hd j Hj).
  rewrite !(u32_small (_ / BPB)), !u32_small in E by (unfold is_u32, two32; lia).
  rewrite (Z.div_mod b BPB), (Z.div_mod j BPB) by done. rewrite Em. f_equal. f_equal. lia.
Qed.

Section Change.
Context (V : Z → block) (start : Z) (Hfs : fs_map V start).
Let sb := decode_superblock (V 1).

(** A change of the bit of [b]. *)
Lemma free_change b j f :
  0 ≤ b < sb_size sb → 0 ≤ j < sb_size sb →
  (∀ k, 0 ≤ k → k ≠ b mod BPB → bit_free (f (V (bmap_of sb b))) k = bit_free (V (bmap_of sb b)) k) →
  b ≠ j →
  is_free (<[bmap_of sb b := f (V (bmap_of sb b))]> V) sb j = is_free V sb j.
Proof.
  intros Hb Hj Hf Hne. unfold is_free. pose proof (fm_size _ _ Hfs) as Hs. fold sb in Hs.
  pose proof (fm_inodes _ _ Hfs) as Hi. fold sb in Hi.
  destruct (decide (bmap_of sb j = bmap_of sb b)) as [E|E].
  - rewrite E, fn_lookup_insert. apply Hf; [by apply Z.mod_pos_bound|]. intros Em.
    destruct Hne. apply (bitmap_inj sb); [lia|lia|done|done|done].
  - by rewrite fn_lookup_insert_ne.
Qed.

Lemma bitmap_ge b : 0 ≤ b < sb_size sb → 3 ≤ bmap_of sb b.
Proof.
  intros Hb. pose proof (fm_size _ _ Hfs) as Hs. pose proof (fm_inodes _ _ Hfs) as Hi. fold sb in Hs, Hi.
  assert (0 ≤ b / BPB < 268435456).
  { split; [apply Z.div_pos; [lia|done]|]. apply Z.div_lt_upper_bound; unfold BPB, BSIZE; lia. }
  assert (0 ≤ sb_ninodes sb / IPB < 268435456).
  { split; [apply Z.div_pos; [lia|done]|]. apply Z.div_lt_upper_bound; unfold IPB; lia. }
  unfold bmap_of, BBLOCK. rewrite (u32_small (_ / BPB)), u32_small by (unfold is_u32, two32; lia). lia.
Qed.

(** No metadata block is free. *)
Lemma meta_used b j : 0 ≤ b < sb_size sb → is_free V sb b = true → 0 ≤ j < sb_size sb →
  bmap_of sb j < b.
Proof.
  intros Hb Hf Hj. destruct (decide (bmap_of sb j < b)); [done|].
  pose proof (fm_meta _ _ Hfs j b Hj ltac:(fold sb; lia)) as Hm. fold sb in Hm. congruence.
Qed.

(** A map whose free blocks are among those of [V]. *)
Lemma fs_map_sub W :
  W 1 = V 1 → (∀ j, 0 ≤ j < sb_size sb → is_free V sb j = false → is_free W sb j = false) →
  fs_map W start.
Proof.
  intros E1 Hsub. destruct Hfs as [F1 F2 F3 F4 F5]. fold sb in F1, F2, F3, F4, F5.
  split; rewrite E1; fold sb; [done..|].
  intros b x Hb Hx. apply Hsub; [|by apply (F5 b)]. pose proof (F4 b Hb). lia.
Qed.

(** What an allocation gives. *)
Record allocated (W : Z → block) (b : Z) : Prop := {
  al_zero x : 0 ≤ x < BSIZE → read8 (W b) x = 0;
  al_free j : 0 ≤ j < sb_size sb → is_free W sb j = is_free V sb j && bool_decide (j ≠ b);
  al_same x : x ≠ b → x ≠ bmap_of sb b → W x = V x;
  al_map : fs_map W start
}.

Lemma allocated_view_ok b :
  0 ≤ b < sb_size sb → is_free V sb b = true → allocated (allocated_view V sb b) b.
Proof.
  intros Hb Hf. pose proof (bitmap_ge b Hb) as Hge.
  assert (∀ j, 0 ≤ j < sb_size sb →
    is_free (allocated_view V sb b) sb j = is_free V sb j && bool_decide (j ≠ b)) as Hfree.
  { intros j Hj. pose proof (meta_used b j Hb Hf Hj) as Hm. unfold is_free at 1, allocated_view.
    rewrite fn_lookup_insert_ne by lia. fold (is_free (<[bmap_of sb b := mark_used b (V (bmap_of sb b))]> V) sb j).
    destruct (decide (j = b)) as [-> |Hne].
    - unfold is_free at 1. rewrite fn_lookup_insert, free_mark_used by (by apply Z.mod_pos_bound).
      rewrite bool_decide_false, (bool_decide_false (b ≠ b)), !andb_false_r; [done|naive_solver..].
    - rewrite free_change; [by rewrite bool_decide_true, andb_true_r|done|done| |done].
      intros k Hk Hkb. rewrite free_mark_used by done. by rewrite bool_decide_true, andb_true_r. }
  assert (∀ x, x ≠ b → x ≠ bmap_of sb b → allocated_view V sb b x = V x) as Hsame.
  { intros x H1 H2. unfold allocated_view. by rewrite !fn_lookup_insert_ne. }
  pose proof (meta_used b b Hb Hf Hb) as H1.
  split; [|done|done|].
  - intros x Hx. unfold allocated_view. rewrite fn_lookup_insert. unfold zeroed_block.
    rewrite memset_spec by done. by rewrite decide_True by done.
  - apply fs_map_sub; [apply Hsame; lia|]. intros j Hj Hjf. rewrite Hfree, Hjf by done. done.
Qed.
End Change.

(** [block_free] up to its test of the bit. *)
Lemma wp_block_free D T0 start s V U n b (E : fault → Prop) Q :
  let sb := decode_superblock (V 1) in
  trans D T0 start s V U (S n) → fs_map V start → U !! 1 = None → 0 ≤ b < sb_size sb →
  U !! bmap_of sb b = None →
  (is_free V sb b = true → E (Panic "freeing free block")) →
  (is_free V sb b = false →
     ∀ s', trans D T0 start s' (<[bmap_of sb b := mark_free b (V (bmap_of sb b))]> V) U n → Q tt s') →
  wpe E (block_free ROOTDEV b) Q s.
Proof.
  intros sb Ht Hfs H1 Hb Hm Hyes Hno. unfold block_free. apply wpe_then.
  pose proof (fm_super _ _ Hfs) as Hs.
  eapply wp_superblock; [done|split; lia|done|]. intros s1 Ht1. fold sb. apply wpe_then.
  eapply wp_read; [done|by apply (bitmap_home start V Hfs)|done|]. intros i s2 H2.
  cbv zeta. apply wpe_then. eapply (wp_data _ _ _ id); [exact H2|]. unfold id at 1.
  fold (bmap_of sb b). fold (is_free V sb b). destruct (is_free V sb b) eqn:Ef.
  { apply wpe_bind, wpe_fail. by apply Hyes. }
  apply wpe_then, wp_ret, wpe_then. eapply wp_write; [exact H2|]. intros s3 H3.
  apply wpe_then. eapply wp_log; [exact H3|]. intros s4 H4. apply wpe_wp.
  eapply wp_release; [exact H4|by rewrite fn_lookup_insert|]. by apply Hno.
Qed.

Lemma wp_block_alloc D T0 start junk s V U n Q :
  let sb := decode_superblock (V 1) in
  trans D T0 start s V U (S (S n)) → fs_map V start → spares_log V sb 0 start → U !! 1 = None →
  (∀ b, 0 ≤ b < sb_size sb → U !! bmap_of sb b = None) →
  (∀ b, 0 ≤ b < sb_size sb → is_free V sb b = true → U !! b = None) →
  (∀ r s' W, lowest_free V sb 0 r → allocated V start W r → trans D T0 start s' W U n → Q r s') →
  (∀ s', (∀ b, 0 ≤ b < sb_size sb → is_free V sb b = false) →
     trans D T0 start s' V U (S (S n)) → Q junk s') →
  wp (block_alloc junk ROOTDEV) Q s.
Proof.
  intros sb Ht Hfs Hsp H1 Hm Hf HQ HQ'. unfold block_alloc. apply wp_bind.
  pose proof (fm_super _ _ Hfs) as Hs. pose proof (fm_size _ _ Hfs) as Hz.
  eapply wp_superblock; [done|split; lia|done|]. intros s1 Ht1. fold sb.
  eapply wp_alloc_scan; [done|done|done|exact Ht1|done|done|exact Hsp|by rewrite Z.sub_0_r| |].
  - intros k s2 Hk Ht2. apply (HQ k s2 (allocated_view V sb k)); [done| |done].
    destruct Hk as (Hk & Hkf & _). by apply allocated_view_ok.
  - intros Hall s2 Ht2. by apply HQ'.
Qed.

(** ** Properties *)

(** C32: [block_alloc] inside a transaction returns the lowest free block,
    zeroed and marked in the bitmap, and changes no other block and no other
    bit, as long as that block is not one of the log.  When no block is free it
    changes nothing and returns whatever is in the result register. *)
Theorem block_alloc_correct D T0 start junk s V U n :
  let sb := decode_superblock (V 1) in
  trans D T0 start s V U (S (S n)) → fs_map V start → spares_log V sb 0 start → U !! 1 = None →
  (∀ b, 0 ≤ b < sb_size sb → U !! bmap_of sb b = None) →
  (∀ b, 0 ≤ b < sb_size sb → is_free V sb b = true → U !! b = None) →
  ∃ r s', block_alloc junk ROOTDEV s = Ok (r, s')
    ∧ ((∃ W, lowest_free V sb 0 r ∧ allocated V start W r ∧ trans D T0 start s' W U n)
       ∨ ((∀ b, 0 ≤ b < sb_size sb → is_free V sb b = false) ∧ r = junk
          ∧ trans D T0 start s' V U (S (S n)))).
Proof.
  intros sb Ht Hfs Hsp H1 Hm Hf. apply wp_run. eapply wp_block_alloc; [done..| |].
  - intros r s' W Hl Ha Ht'. left. by exists W.
  - intros s' Hall Ht'. by right.
Qed.

(** [block_free] inside a transaction clears the bit of an allocated block
    and changes no other bit and no other block; of a block that is already free
    it panics. *)
Theorem block_free_correct D T0 start s V U n b :
  let sb := decode_superblock (V 1) in
  trans D T0 start s V U (S n) → fs_map V start → U !! 1 = None → 0 ≤ b < sb_size sb →
  U !! bmap_of sb b = None →
  if is_free V sb b then block_free ROOTDEV b s = Err (Panic "freeing free block")
  else ∃ s' W, block_free ROOTDEV b s = Ok (tt, s') ∧ trans D T0 start s' W U n
    ∧ (∀ j, 0 ≤ j < sb_size sb → is_free W sb j = is_free V sb j || bool_decide (j = b))
    ∧ (∀ x, x ≠ bmap_of sb b → W x = V x).
Proof.
  intros sb Ht Hfs H1 Hb Hm. destruct (is_free V sb b) eqn:Ef.
  { apply wpe_err. eapply wp_block_free; [done..|intros Hf; subst sb; congruence]. }
  destruct (wp_run (block_free ROOTDEV b) (λ _ s',
    trans D T0 start s' (<[bmap_of sb b := mark_free b (V (bmap_of sb b))]> V) U n) s)
    as ([] & s' & E & Ht').
  { eapply (wp_block_free _ _ _ _ _ _ _ _ (λ _, False)); [done..|by fold sb; rewrite Ef|done]. }
  eexists s', _. split; [done|]. split; [done|]. split; [|by intros; rewrite fn_lookup_insert_ne].
  intros j Hj. destruct (decide (j = b)) as [-> |Hne].
  - unfold is_free at 1. rewrite fn_lookup_insert, free_mark_free by by apply Z.mod_pos_bound.
    rewrite !bool_decide_true, !orb_true_r by done. done.
  - rewrite (free_change V start Hfs); [by rewrite bool_decide_false, orb_false_r|done|done| |done].
    intros k Hk Hkb. rewrite free_mark_free by done. by rewrite bool_decide_false, orb_false_r.
Qed.
End Block.

(** ** A concrete file system *)

#[local] Existing Instance sample_layout.
#[local] Existing Instance sample_stack.
#[local] Existing Instance sample_ipc_layout.
#[local] Existing Instance sample_buf_layout.

(** Thirty sectors and eight inodes.  Inode one is an empty file, inode two a
    directory with one entry, of inode three under the name ["a"], in block six.
    The first five blocks and block six are in use, and the log is at block 20. *)
Definition sample_fs : dmap := {[
  home 1 := write32 (write32 (write32 ∅ 0 30) 8 8) 12 10;
  home 2 := write32 (write32 (write8 (write8 (write8 (write8 ∅ 64 2) 70 1) 128 1) 134 1) 136 16) 140 6;
  home 6 := write8 (write8 ∅ 0 3) 2 97;
  home 4 := write8 ∅ 0 95 ]}.

Definition sample_view (sec : Z) : block := aget sample_fs (home sec).

Lemma sample_view_map : fs_map sample_view 20.
Proof.
  assert (sb_size (decode_superblock (sample_view 1)) = 30) as E by by vm_compute.
  assert (∀ b, 0 ≤ b < 30 → bmap_of (decode_superblock (sample_view 1)) b = 4) as Eb.
  { intros b Hb. unfold bmap_of, BBLOCK. rewrite (Z.div_small b) by (unfold BPB, BSIZE; lia). by vm_compute. }
  split; rewrite ?E.
  - lia.
  - lia.
  - by vm_compute.
  - intros b Hb. by rewrite Eb.
  - intros b x Hb. rewrite Eb by done. intros Hx.
    assert (forallb (λ b, negb (is_free sample_view (decode_superblock (sample_view 1)) b))
      (seqZ 0 5) = true) as H by by vm_compute.
    rewrite forallb_forall in H. apply negb_true_iff, H, list_elem_of_In, elem_of_seqZ. lia.
Qed.

(** A transaction has just begun on it. *)
Lemma sample_trans n : (n ≤ 8)%nat → ∃ T0 s, trans sample_fs T0 20 s sample_view ∅ n.
Proof.
  intros Hn.
  destruct (sample_log sample_fs) as (s & Hi & Hd & Hs & Hz); [by vm_compute|].
  destruct (wp_run begin_trans (λ _ s', trans sample_fs (trace (g_bio s)) 20 s' sample_view ∅ n) s)
    as (_ & s' & _ & Ht).
  - apply wp_begin_trans; [done|]. rewrite Hd. intros s' Ht Hs' Hz'. exists [], ∅. split; [done|].
    split; [|split; [|split]].
    + intros sec. unfold view. by rewrite lookup_empty.
    + split; cbn; [unfold LOGSIZE|rewrite Hz', Hz]; lia.
    + unfold used. rewrite !dom_empty_L, union_empty_l_L, size_empty. unfold NBUF. lia.
    + by rewrite Hs', Hs.
  - by exists (trace (g_bio s)), s'.
Qed.

(** The first free block of the sample is block five. *)
Lemma sample_lowest r :
  lowest_free sample_view (decode_superblock (sample_view 1)) 0 r → r = 5.
Proof.
  intros (Hr & Hf & Hlow). destruct (decide (5 < r)) as [H|H].
  { specialize (Hlow 5 ltac:(lia)). by vm_compute in Hlow. }
  assert (r = 0 ∨ r = 1 ∨ r = 2 ∨ r = 3 ∨ r = 4 ∨ r = 5) as Hc by lia.
  destruct_or! Hc; subst r; done || by vm_compute in Hf.
Qed.

Lemma sample_spares : spares_log sample_view (decode_superblock (sample_view 1)) 0 20.
Proof. by intros r ->%sample_lowest. Qed.

Lemma block_alloc_correct_witness :
  ∃ T0 s s' W, trans sample_fs T0 20 s sample_view ∅ 2
    ∧ block_alloc 77 ROOTDEV s = Ok (5, s') ∧ trans sample_fs T0 20 s' W ∅ 0.
Proof.
  destruct (sample_trans 2) as (T0 & s & Ht); [lia|].
  destruct (block_alloc_correct sample_fs T0 20 77 s sample_view ∅ 0 Ht sample_view_map
    sample_spares (lookup_empty _) (λ _ _, lookup_empty _) (λ _ _ _, lookup_empty _))
    as (r & s' & E & [(W & Hl & _ & Ht')|(Hn & _)]).
  - apply sample_lowest in Hl as ->. by exists T0, s, s', W.
  - specialize (Hn 5). vm_compute in Hn. discriminate Hn. split; [discriminate|reflexivity].
Defined.

