(* ===== verification/Inode.v ===== *)
(** * Inodes (kern/fs/inode.c)

    The cache of in-memory inodes and the contents of files. *)

From S2P Require Import Prelude Memory Resume Spinlock PhysMap Pmm Container PageTable Isolation.
From S2P Require Import UserCopy Tcb TQueue Thread Signal Ipc Bufcache Log Block.

Definition NINODE : Z := 50.
Definition NDEV : Z := 10.
Definition NDIRECT : Z := 12.
Definition NINDIRECT : Z := 128.
Definition MAXFILE : Z := NDIRECT + NINDIRECT.
Definition T_DIR : Z := 1.
Definition T_FILE : Z := 2.
Definition T_DEV : Z := 3.
Definition I_BUSY : Z := 1.
Definition I_VALID : Z := 2.
Definition IBLOCK (i : Z) : Z := u32 (i / IPB + 2).

(** [int16_t] *)
Definition s16 (x : Z) : Z := (x + 32768) mod 65536 - 32768.

(** ** State *)

(** [struct inode] *)
Record inode := Inode {
  i_dev : Z; i_inum : Z; i_ref : Z; i_flags : Z;
  i_type : Z; i_major : Z; i_minor : Z; i_nlink : Z; i_size : Z; i_addrs : gmap Z Z
}.

#[export] Instance zeroed_inode : Zeroed inode := Inode 0 0 0 0 0 0 0 0 0 ∅.

Definition set_i_ident (dev inum ref flags : Z) (i : inode) : inode :=
  Inode dev inum ref flags (i_type i) (i_major i) (i_minor i) (i_nlink i) (i_size i) (i_addrs i).
Definition set_i_ref (v : Z) (i : inode) : inode := set_i_ident (i_dev i) (i_inum i) v (i_flags i) i.
Definition set_i_flags (v : Z) (i : inode) : inode := set_i_ident (i_dev i) (i_inum i) (i_ref i) v i.
Definition set_i_meta (type major minor nlink size : Z) (i : inode) : inode :=
  Inode (i_dev i) (i_inum i) (i_ref i) (i_flags i) type major minor nlink size (i_addrs i).
Definition set_i_type (v : Z) (i : inode) : inode :=
  set_i_meta v (i_major i) (i_minor i) (i_nlink i) (i_size i) i.
Definition set_i_nlink (v : Z) (i : inode) : inode :=
  set_i_meta (i_type i) (i_major i) (i_minor i) v (i_size i) i.
Definition set_i_size (v : Z) (i : inode) : inode :=
  set_i_meta (i_type i) (i_major i) (i_minor i) (i_nlink i) v i.
Definition set_i_addrs (a : gmap Z Z) (i : inode) : inode :=
  Inode (i_dev i) (i_inum i) (i_ref i) (i_flags i) (i_type i) (i_major i) (i_minor i) (i_nlink i)
    (i_size i) a.

(** [inode_cache] and the layers below. *)
Record ino := Ino { n_lgs : lgs; ic_lock : spinlock; inodes : gmap Z inode }.

Definition l_n_lgs : lens ino lgs := Lens n_lgs (λ l s, Ino l (ic_lock s) (inodes s)).
Definition l_ic_lock : lens ino spinlock := Lens ic_lock (λ k s, Ino (n_lgs s) k (inodes s)).

(** A pointer to an inode is its index in the cache plus one; zero is the null
    pointer. *)
Definition ip_of (s : ino) (ip : Z) : inode := aget (inodes s) (ip - 1).
Definition ip_get {A} (f : inode → A) (ip : Z) : M ino A :=
  _ ← (if ip =? 0 then fail (NullDeref "ip") else mret tt);
  gets (λ s, f (ip_of s ip)).
Definition ip_upd (ip : Z) (f : inode → inode) : M ino unit :=
  _ ← (if ip =? 0 then fail (NullDeref "ip") else mret tt);
  modify (λ s, Ino (n_lgs s) (ic_lock s) (<[ip - 1 := f (ip_of s ip)]> (inodes s))).

(** ** The on-disk inode: [(struct dinode * ) bp->data + inum % IPB] *)

Definition DINODE_SIZE : Z := 64.
Definition dip (inum : Z) : Z := DINODE_SIZE * (inum mod IPB).

Definition read_addrs (d : block) (a n : Z) : gmap Z Z :=
  list_to_map ((λ i, (i, read32 d (a + 4 * i))) <$> seqZ 0 n).

Fixpoint write_addrs (d : block) (a : Z) (f : Z → Z) (i : Z) (n : nat) : block :=
  match n with
  | O => d
  | S n => write_addrs (write32 d (a + 4 * i) (f i)) a f (i + 1) n
  end.

(** The copy of the fields in [inode_update]. *)
Definition put_dinode (d : block) (a : Z) (i : inode) : block :=
  let d := write16 d a (i_type i) in
  let d := write16 d (a + 2) (i_major i) in
  let d := write16 d (a + 4) (i_minor i) in
  let d := write16 d (a + 6) (i_nlink i) in
  let d := write32 d (a + 8) (i_size i) in
  write_addrs d (a + 12) (λ k, aget (i_addrs i) k) 0 (Z.to_nat (NDIRECT + 1)).

(** And in [inode_lock]. *)
Definition get_dinode (d : block) (a : Z) (i : inode) : inode :=
  set_i_addrs (read_addrs d (a + 12) (NDIRECT + 1))
    (set_i_meta (s16 (read16 d a)) (s16 (read16 d (a + 2))) (s16 (read16 d (a + 4)))
       (s16 (read16 d (a + 6))) (read32 d (a + 8)) i).

Section Inode.
Context `{B : BufLayout} (ip_addr : Z → Z) (junk : Z).

Definition logged_call {A} (m : M lgs A) : M ino A := lift l_n_lgs m.
Definition cached {A} (m : M bio A) : M ino A := lift l_n_lgs (bcache m).
Definition inode_wakeup (ip : Z) : M ino unit := cached (wakeup (ip_addr ip)).

Definition inode_init : M ino unit := lift l_ic_lock spinlock_init.

(** The loop of [inode_get]: the cached inode, or the first free slot. *)
Fixpoint icache_scan (n : nat) (i : Z) (empty dev inum : Z) (s : ino) : Z + Z :=
  match n with
  | O => inr empty
  | S n =>
    let ip := aget (inodes s) i in
    if (0 <? i_ref ip) && (i_dev ip =? dev) && (i_inum ip =? inum) then inl (i + 1)
    else icache_scan n (i + 1) (if (empty =? 0) && (i_ref ip =? 0) then i + 1 else empty) dev inum s
  end.

Definition inode_get (dev inum : Z) : M ino Z :=
  _ ← lift l_ic_lock (spinlock_acquire "inode_cache.lock");
  r ← gets (icache_scan (Z.to_nat NINODE) 0 0 dev inum);
  match r with
  | inl ip =>
    _ ← ip_upd ip (λ i, set_i_ref (s32 (i_ref i + 1)) i);
    _ ← lift l_ic_lock spinlock_release;
    mret ip
  | inr empty =>
    _ ← (if empty =? 0 then fail (Panic "inode_get: no inodes") else mret tt);
    _ ← ip_upd empty (set_i_ident dev inum 1 0);
    _ ← lift l_ic_lock spinlock_release;
    mret empty
  end.

(** The loop of [inode_alloc] from [inum] on. *)
Fixpoint ialloc_scan (fuel : nat) (dev type inum ninodes : Z) : M ino Z :=
  if inum <? ninodes then
    match fuel with
    | O => fail OutOfFuel
    | S fuel =>
      bp ← cached (bufcache_read dev (IBLOCK inum));
      t ← cached (buf_get (λ b, s16 (read16 (b_data b) (dip inum))) bp);
      if t =? 0 then
        _ ← cached (buf_write bp (λ d, memset d (dip inum) 0 DINODE_SIZE));
        _ ← cached (buf_write bp (λ d, write16 d (dip inum) type));
        _ ← logged_call (log_write bp);
        _ ← cached (bufcache_release bp);
        inode_get dev inum
      else
        _ ← cached (bufcache_release bp);
        ialloc_scan fuel dev type (inum + 1) ninodes
    end
  else fail (Panic "inode_alloc: no inodes").

Definition inode_alloc (dev type : Z) : M ino Z :=
  sb ← cached (read_superblock dev);
  ialloc_scan (Z.to_nat (sb_ninodes sb)) dev type 1 (sb_ninodes sb).

Definition inode_update (ip : Z) : M ino unit :=
  i ← ip_get id ip;
  bp ← cached (bufcache_read (i_dev i) (IBLOCK (i_inum i)));
  _ ← cached (buf_write bp (λ d, put_dinode d (dip (i_inum i)) i));
  _ ← logged_call (log_write bp);
  cached (bufcache_release bp).

Definition inode_dup (ip : Z) : M ino Z :=
  _ ← lift l_ic_lock (spinlock_acquire "inode_cache.lock");
  _ ← ip_upd ip (λ i, set_i_ref (s32 (i_ref i + 1)) i);
  _ ← lift l_ic_lock spinlock_release;
  mret ip.

Definition inode_lock (ip : Z) : M ino unit :=
  _ ← (if ip =? 0 then fail (Panic "inode_lock") else mret tt);
  r ← ip_get i_ref ip;
  _ ← (if r <? 1 then fail (Panic "inode_lock") else mret tt);
  _ ← lift l_ic_lock (spinlock_acquire "inode_cache.lock");
  fl ← ip_get i_flags ip;
  _ ← (if flag I_BUSY fl then fail (Blocked "inode_lock") else mret tt);
  _ ← ip_upd ip (set_i_flags (Z.lor fl I_BUSY));
  _ ← lift l_ic_lock spinlock_release;
  fl ← ip_get i_flags ip;
  if flag I_VALID fl then mret tt
  else
    i ← ip_get id ip;
    bp ← cached (bufcache_read (i_dev i) (IBLOCK (i_inum i)));
    d ← cached (buf_get b_data bp);
    _ ← ip_upd ip (get_dinode d (dip (i_inum i)));
    _ ← cached (bufcache_release bp);
    _ ← ip_upd ip (λ i, set_i_flags (Z.lor (i_flags i) I_VALID) i);
    t ← ip_get i_type ip;
    if t =? 0 then fail (Panic "inode_lock: no type") else mret tt.

Definition inode_unlock (ip : Z) : M ino unit :=
  _ ← (if ip =? 0 then fail (Panic "inode_unlock") else mret tt);
  i ← ip_get id ip;
  _ ← (if negb (flag I_BUSY (i_flags i)) || (i_ref i <? 1)
       then fail (Panic "inode_unlock") else mret tt);
  _ ← lift l_ic_lock (spinlock_acquire "inode_cache.lock");
  _ ← ip_upd ip (λ i, set_i_flags (Z.land (i_flags i) (Z.lnot I_BUSY)) i);
  _ ← inode_wakeup ip;
  lift l_ic_lock spinlock_release.

(** *** Contents *)

Definition alloc_block (ip : Z) : M ino Z :=
  dev ← ip_get i_dev ip; logged_call (block_alloc junk dev).

(** [addr = ip->addrs[bn]], allocated if zero. *)
Definition bmap_addr (ip bn : Z) : M ino Z :=
  addr ← ip_get (λ i, aget (i_addrs i) bn) ip;
  if addr =? 0 then
    addr ← alloc_block ip;
    _ ← ip_upd ip (λ i, set_i_addrs (<[bn := addr]> (i_addrs i)) i);
    mret addr
  else mret addr.

(** The rest of [bmap]: entry [bn] of the indirect block [addr]. *)
Definition bmap_entry (ip addr bn : Z) : M ino Z :=
  dev ← ip_get i_dev ip;
  bp ← cached (bufcache_read dev addr);
  addr ← cached (buf_get (λ b, read32 (b_data b) (4 * bn)) bp);
  addr ← (if addr =? 0 then
            addr ← alloc_block ip;
            _ ← cached (buf_write bp (λ d, write32 d (4 * bn) addr));
            _ ← logged_call (log_write bp);
            mret addr
          else mret addr);
  _ ← cached (bufcache_release bp);
  mret addr.

Definition bmap (ip bn : Z) : M ino Z :=
  if bn <? NDIRECT then bmap_addr ip bn
  else
    let bn := bn - NDIRECT in
    if bn <? NINDIRECT then
      addr ← bmap_addr ip NDIRECT;
      bmap_entry ip addr bn
    else fail (Panic "bmap: out of range").

(** The body of the first loop of [inode_trunc]. *)
Definition trunc_direct (ip i : Z) : M ino unit :=
  a ← ip_get (λ x, aget (i_addrs x) i) ip;
  if negb (a =? 0) then
    dev ← ip_get i_dev ip;
    _ ← logged_call (block_free dev a);
    ip_upd ip (λ x, set_i_addrs (<[i := 0]> (i_addrs x)) x)
  else mret tt.

Definition inode_trunc (ip : Z) : M ino unit :=
  _ ← for_range 0 NDIRECT (trunc_direct ip);
  ind ← ip_get (λ x, aget (i_addrs x) NDIRECT) ip;
  dev ← ip_get i_dev ip;
  _ ← (if negb (ind =? 0) then
         bp ← cached (bufcache_read dev ind);
         _ ← for_range 0 NINDIRECT (λ j,
               a ← cached (buf_get (λ b, read32 (b_data b) (4 * j)) bp);
               if negb (a =? 0) then logged_call (block_free dev a) else mret tt);
         _ ← cached (bufcache_release bp);
         _ ← logged_call (block_free dev ind);
         ip_upd ip (λ x, set_i_addrs (<[NDIRECT := 0]> (i_addrs x)) x)
       else mret tt);
  _ ← ip_upd ip (set_i_size 0);
  inode_update ip.

Definition inode_put (ip : Z) : M ino unit :=
  _ ← lift l_ic_lock (spinlock_acquire "inode_cache.lock");
  i ← ip_get id ip;
  _ ← (if (i_ref i =? 1) && flag I_VALID (i_flags i) && (i_nlink i =? 0) then
         _ ← (if flag I_BUSY (i_flags i) then fail (Panic "inode_put busy") else mret tt);
         _ ← ip_upd ip (λ i, set_i_flags (Z.lor (i_flags i) I_BUSY) i);
         _ ← lift l_ic_lock spinlock_release;
         _ ← inode_trunc ip;
         _ ← ip_upd ip (set_i_type 0);
         _ ← inode_update ip;
         _ ← lift l_ic_lock (spinlock_acquire "inode_cache.lock");
         _ ← ip_upd ip (set_i_flags 0);
         inode_wakeup ip
       else mret tt);
  _ ← ip_upd ip (λ i, set_i_ref (s32 (i_ref i - 1)) i);
  lift l_ic_lock spinlock_release.

Definition inode_unlockput (ip : Z) : M ino unit := _ ← inode_unlock ip; inode_put ip.

(** [struct file_stat] *)
Record file_stat := FileStat { st_type : Z; st_dev : Z; st_ino : Z; st_nlink : Z; st_size : Z }.

Definition inode_stat (ip : Z) : M ino file_stat :=
  ip_get (λ i, FileStat (i_type i) (i_dev i) (i_inum i) (u16 (i_nlink i)) (i_size i)) ip.

(** The start of [inode_read] and [inode_write] on a device: [devsw] is a null
    pointer that nothing ever sets. *)
Definition inode_device (ip : Z) : M ino Z :=
  major ← ip_get i_major ip;
  if (major <? 0) || (NDEV <=? major) then mret (-1) else fail (NullDeref "devsw").

(** The loop of [inode_read]: the bytes copied to [dst].  Each turn copies at
    least one byte. *)
Fixpoint read_loop (fuel : nat) (ip off tot n : Z) : M ino (list Z) :=
  if tot <? n then
    match fuel with
    | O => fail OutOfFuel
    | S fuel =>
      a ← bmap ip (off / BSIZE);
      dev ← ip_get i_dev ip;
      bp ← cached (bufcache_read dev a);
      let m := Z.min (n - tot) (BSIZE - off mod BSIZE) in
      bs ← cached (buf_get (λ b, read_bytes (b_data b) (off mod BSIZE) m) bp);
      _ ← cached (bufcache_release bp);
      rest ← read_loop fuel ip (u32 (off + m)) (tot + m) n;
      mret (bs ++ rest)
    end
  else mret [].

(** The result and what was written at [dst]. *)
Definition inode_read (ip off n : Z) : M ino (Z * list Z) :=
  type ← ip_get i_type ip;
  if type =? T_DEV then r ← inode_device ip; mret (r, [])
  else
    size ← ip_get i_size ip;
    if (size <? off) || (u32 (off + n) <? off) then mret (-1, [])
    else
      let n := if size <? u32 (off + n) then u32 (size - off) else n in
      bs ← read_loop (Z.to_nat n) ip off 0 n;
      mret (s32 n, bs).

(** The loop of [inode_write]; the offset it ends at. *)
Fixpoint write_loop (fuel : nat) (ip off tot n : Z) (src : list Z) : M ino Z :=
  if tot <? n then
    match fuel with
    | O => fail OutOfFuel
    | S fuel =>
      a ← bmap ip (off / BSIZE);
      dev ← ip_get i_dev ip;
      bp ← cached (bufcache_read dev a);
      let m := Z.min (n - tot) (BSIZE - off mod BSIZE) in
      _ ← cached (buf_write bp (λ d, write_bytes d (off mod BSIZE) (take (Z.to_nat m) src)));
      _ ← logged_call (log_write bp);
      _ ← cached (bufcache_release bp);
      write_loop fuel ip (u32 (off + m)) (tot + m) n (drop (Z.to_nat m) src)
    end
  else mret off.

Definition inode_write (ip : Z) (src : list Z) (off n : Z) : M ino Z :=
  type ← ip_get i_type ip;
  if type =? T_DEV then inode_device ip
  else
    size ← ip_get i_size ip;
    if (size <? off) || (u32 (off + n) <? off) then mret (-1)
    else if MAXFILE * BSIZE <? u32 (off + n) then mret (-1)
    else
      off' ← write_loop (Z.to_nat n) ip off 0 n src;
      _ ← (if (0 <? n) && (size <? off') then
             _ ← ip_upd ip (set_i_size off'); inode_update ip
           else mret tt);
      mret (s32 n).
End Inode.
