(* ===== verification/Contents.v ===== *)
(** * The contents of files (kern/fs/inode.c)

    Inside a transaction [inode_write] changes the bytes of a file it is given
    and no others, allocating blocks on demand through [bmap], and [inode_read]
    returns them. *)

From stdpp Require Import functions.
From S2P Require Import Prelude Memory Resume Spinlock PhysMap Pmm Container PageTable Isolation.
From S2P Require Import UserCopy Tcb TQueue Thread Signal Ipc Bufcache Log Block Inode.

(** ** The bytes of a file *)

(** Block [k] of the file; [MAXFILE] stands for the indirect block.  Zero is a
    block that is not there. *)
Definition file_block (V : Z → block) (i : inode) (k : Z) : Z :=
  let ind := aget (i_addrs i) NDIRECT in
  if k <? NDIRECT then aget (i_addrs i) k
  else if k =? MAXFILE then ind
  else if ind =? 0 then 0
  else read32 (V ind) (4 * (k - NDIRECT)).

(** Byte [p]; a missing block is all zeros. *)
Definition file_byte (V : Z → block) (i : inode) (p : Z) : Z :=
  let a := file_block V i (p / BSIZE) in
  if a =? 0 then 0 else read8 (V a) (p mod BSIZE).

Section Pure.
Context (start : Z).
Implicit Types (V W : Z → block) (i : inode) (x k r : Z).

Abbreviation sb_of V := (decode_superblock (V 1)).

(** An allocated block past the inodes and the bitmap and before the log. *)
Definition data_block V x : Prop :=
  x < start ∧ (∀ b, 0 ≤ b < sb_size (sb_of V) → bmap_of (sb_of V) b < x)
  ∧ is_free V (sb_of V) x = false.

Record file_ok V i : Prop := {
  fo_data k : 0 ≤ k ≤ MAXFILE → file_block V i k ≠ 0 → data_block V (file_block V i k);
  fo_inj j k : 0 ≤ j ≤ MAXFILE → 0 ≤ k ≤ MAXFILE → file_block V i j ≠ 0 →
    file_block V i j = file_block V i k → j = k;
  fo_full k : 0 ≤ k → k * BSIZE < i_size i → file_block V i k ≠ 0;
  fo_size : 0 ≤ i_size i ≤ MAXFILE * BSIZE
}.

(** A block in use that is neither of the file nor of the bitmap. *)
Definition foreign V i x : Prop :=
  0 ≤ x < sb_size (sb_of V) ∧ is_free V (sb_of V) x = false
  ∧ (∀ b, 0 ≤ b < sb_size (sb_of V) → x ≠ bmap_of (sb_of V) b)
  ∧ ∀ k, 0 ≤ k ≤ MAXFILE → file_block V i k ≠ x.

(** [n] blocks before the log are free. *)
Definition supply V (n : nat) : Prop :=
  ∃ X : gset Z, (n ≤ size X)%nat
    ∧ ∀ b, b ∈ X → 0 ≤ b < start ∧ is_free V (sb_of V) b = true.

(** The file has got the block [r], all zeros, at [k]. *)
Record grown V i k r V' i' : Prop := {
  gr_old : file_block V i k = 0;
  gr_new : 0 ≤ r < start ∧ is_free V (sb_of V) r = true;
  gr_block j : 0 ≤ j ≤ MAXFILE →
    file_block V' i' j = if decide (j = k) then r else file_block V i j;
  gr_zero x : 0 ≤ x < BSIZE → read8 (V' r) x = 0;
  gr_same x : x ≠ r → x ≠ bmap_of (sb_of V) r → x ≠ file_block V i MAXFILE → V' x = V x;
  gr_free j : 0 ≤ j < sb_size (sb_of V) →
    is_free V' (sb_of V) j = is_free V (sb_of V) j && bool_decide (j ≠ r);
  gr_map : fs_map V' start;
  gr_meta : i' = set_i_addrs (i_addrs i') i
}.

(** What every step of a write keeps: the file stays well formed, and nothing but
    the bitmap and the blocks of the file changes. *)
Record extends V i V' i' : Prop := {
  ex_ok : file_ok V' i';
  ex_map : fs_map V' start;
  ex_super : V' 1 = V 1;
  ex_meta : i' = set_i_addrs (i_addrs i') i;
  ex_foreign x : foreign V i x → foreign V' i' x ∧ V' x = V x;
  ex_mapped j : 0 ≤ j ≤ MAXFILE → file_block V i j ≠ 0 → file_block V' i' j ≠ 0
}.

Lemma extends_refl V i : file_ok V i → fs_map V start → extends V i V i.
Proof. intros Hok Hfs. split; try done. by destruct i. Qed.

Lemma extends_trans V i V1 i1 V2 i2 : extends V i V1 i1 → extends V1 i1 V2 i2 → extends V i V2 i2.
Proof.
  intros [] [? ? ? E ? ?]. split; [done|done|congruence| | |auto].
  - rewrite E, ex_meta0. done.
  - intros x Hx. destruct (ex_foreign0 x Hx) as [Hf1 E1]. destruct (ex_foreign1 x Hf1) as [Hf2 E2].
    split; [done|congruence].
Qed.

Lemma ind_slot V i : file_block V i MAXFILE = aget (i_addrs i) NDIRECT.
Proof. done. Qed.

Lemma indirect_block V i j :
  NDIRECT ≤ j < MAXFILE → file_block V i MAXFILE ≠ 0 →
  file_block V i j = read32 (V (file_block V i MAXFILE)) (4 * (j - NDIRECT)).
Proof.
  intros Hj. unfold file_block. change (MAXFILE <? NDIRECT) with false. rewrite Z.eqb_refl.
  destruct (Z.ltb_spec j NDIRECT); [lia|]. destruct (Z.eqb_spec j MAXFILE); [lia|].
  intros Hi. by destruct (Z.eqb_spec (aget (i_addrs i) NDIRECT) 0).
Qed.

Lemma indirect_none V i j :
  NDIRECT ≤ j < MAXFILE → file_block V i MAXFILE = 0 → file_block V i j = 0.
Proof.
  intros Hj. unfold file_block. change (MAXFILE <? NDIRECT) with false. rewrite Z.eqb_refl.
  destruct (Z.ltb_spec j NDIRECT); [lia|]. destruct (Z.eqb_spec j MAXFILE); [lia|].
  by intros ->.
Qed.

Lemma file_block_ext V V' i i' j :
  (∀ k, 0 ≤ k ≤ NDIRECT → aget (i_addrs i') k = aget (i_addrs i) k) →
  V' (file_block V i MAXFILE) = V (file_block V i MAXFILE) → 0 ≤ j →
  file_block V' i' j = file_block V i j.
Proof.
  intros Ha. unfold file_block. change (MAXFILE <? NDIRECT) with false. rewrite Z.eqb_refl.
  intros Hv Hj. rewrite (Ha NDIRECT) by done. rewrite Hv.
  destruct (Z.ltb_spec j NDIRECT); [|done]. apply Ha. lia.
Qed.

(** The entries of an indirect block. *)
Lemma file_block_ext_ind V V' i i' j :
  aget (i_addrs i') NDIRECT = aget (i_addrs i) NDIRECT →
  V' (file_block V i MAXFILE) = V (file_block V i MAXFILE) → NDIRECT ≤ j < MAXFILE →
  file_block V' i' j = file_block V i j.
Proof.
  intros Ha. unfold file_block. change (MAXFILE <? NDIRECT) with false. rewrite Z.eqb_refl.
  intros Hv Hj. rewrite Ha, Hv. by destruct (Z.ltb_spec j NDIRECT); [lia|].
Qed.

Section File.
Context V i (Hfs : fs_map V start) (Hok : file_ok V i).

Lemma size_pos : 0 ≤ 0 < sb_size (sb_of V).
Proof. pose proof (fm_super _ _ Hfs). lia. Qed.

Lemma data_range x : data_block V x → 3 < x < start ∧ x < sb_size (sb_of V).
Proof.
  intros (Hs & Hm & _). specialize (Hm 0 size_pos). pose proof (bitmap_ge V start Hfs 0 size_pos).
  pose proof (fm_super _ _ Hfs). lia.
Qed.

Lemma data_bitmap x b : data_block V x → 0 ≤ b < sb_size (sb_of V) → x ≠ bmap_of (sb_of V) b.
Proof. intros (_ & Hm & _) Hb. specialize (Hm b Hb). lia. Qed.

Lemma before_log x : 0 ≤ x < start → 0 ≤ x < sb_size (sb_of V).
Proof. pose proof (fm_super _ _ Hfs). lia. Qed.

Lemma free_is_data r V' :
  0 ≤ r < start → is_free V (sb_of V) r = true → V' 1 = V 1 →
  is_free V' (sb_of V) r = false → data_block V' r.
Proof.
  intros Hr Hf E1 Hf'. unfold data_block. rewrite E1. split; [|split; [|done]].
  - lia.
  - intros b Hb. apply (meta_used V start); [done|by apply before_log|done|done].
Qed.

Lemma block_data k : 0 ≤ k ≤ MAXFILE → file_block V i k = 0 ∨ data_block V (file_block V i k).
Proof.
  intros Hk. destruct (decide (file_block V i k = 0)); [by left|right]. by apply (fo_data _ _ Hok).
Qed.

Section Grown.
Context k r V' i' (Hk : 0 ≤ k ≤ MAXFILE) (G : grown V i k r V' i').

Lemma grown_new : 0 ≤ r < sb_size (sb_of V) ∧ is_free V (sb_of V) r = true.
Proof. destruct (gr_new _ _ _ _ _ _ G) as [Hr Hf]. split; [by apply before_log|done]. Qed.

Lemma grown_super : V' 1 = V 1.
Proof.
  destruct grown_new as [Hr Hf]. pose proof (meta_used V start Hfs r r Hr Hf Hr).
  pose proof (bitmap_ge V start Hfs r Hr).
  apply (gr_same _ _ _ _ _ _ G); [lia|lia|].
  destruct (block_data MAXFILE ltac:(done)) as [-> |Hd]; [done|]. apply data_range in Hd. lia.
Qed.

Lemma grown_used x : 0 ≤ x < sb_size (sb_of V) → is_free V (sb_of V) x = false →
  is_free V' (sb_of V) x = false.
Proof. intros Hx Hf. by rewrite (gr_free _ _ _ _ _ _ G), Hf. Qed.

Lemma grown_data : data_block V' r.
Proof.
  destruct (gr_new _ _ _ _ _ _ G) as [Hr Hf].
  apply free_is_data; [done|done|apply grown_super|].
  rewrite (gr_free _ _ _ _ _ _ G) by by apply before_log. by rewrite bool_decide_false, andb_false_r by auto.
Qed.

Lemma grown_not j : 0 ≤ j ≤ MAXFILE → file_block V i j ≠ r.
Proof.
  intros Hj. destruct grown_new as [Hr Hf].
  destruct (block_data j Hj) as [-> |(_ & _ & Hu)]; [|congruence].
  intros <-. pose proof (meta_used V start Hfs 0 0 Hr Hf Hr). pose proof (bitmap_ge V start Hfs 0 Hr). lia.
Qed.

Lemma grown_ok : file_ok V' i'.
Proof.
  assert (i_size i' = i_size i) as Ez by by rewrite (gr_meta _ _ _ _ _ _ G).
  assert (0 < r) as Hr0 by (pose proof (grown_not k Hk); rewrite (gr_old _ _ _ _ _ _ G) in *;
    destruct (gr_new _ _ _ _ _ _ G); lia).
  split.
  - intros j Hj. rewrite (gr_block _ _ _ _ _ _ G) by done. case_decide; [intros _; apply grown_data|].
    intros Hn. pose proof (fo_data _ _ Hok j Hj Hn) as Hd. pose proof (data_range _ Hd) as Hx.
    destruct Hd as (H1 & H2 & H3). unfold data_block. rewrite grown_super.
    split; [done|]. split; [done|]. apply grown_used; [lia|done].
  - intros j j' Hj Hj'. rewrite !(gr_block _ _ _ _ _ _ G) by done.
    pose proof (grown_not j Hj). pose proof (grown_not j' Hj').
    repeat case_decide; try congruence. by apply (fo_inj _ _ Hok).
  - intros j Hj Hs. rewrite Ez in Hs. pose proof (fo_size _ _ Hok).
    rewrite (gr_block _ _ _ _ _ _ G) by (unfold MAXFILE, BSIZE, NDIRECT, NINDIRECT in *; lia).
    case_decide; [lia|]. by apply (fo_full _ _ Hok).
  - rewrite Ez. apply (fo_size _ _ Hok).
Qed.

Lemma grown_extends : extends V i V' i'.
Proof.
  destruct grown_new as [Hr Hf].
  split; [apply grown_ok|apply (gr_map _ _ _ _ _ _ G)|apply grown_super|apply (gr_meta _ _ _ _ _ _ G)| |].
  - intros x (Hx & Hu & Hm & Hb). split.
    + unfold foreign. rewrite grown_super. split; [done|]. split; [by apply grown_used|].
      split; [done|]. intros j Hj. rewrite (gr_block _ _ _ _ _ _ G) by done.
      case_decide; [|by apply Hb]. intros ->. congruence.
    + apply (gr_same _ _ _ _ _ _ G); [congruence|by apply Hm|]. intros E.
      by apply (Hb MAXFILE ltac:(done)).
  - intros j Hj Hn. rewrite (gr_block _ _ _ _ _ _ G) by done. case_decide; [|done].
    pose proof (grown_not k Hk) as H0. rewrite (gr_old _ _ _ _ _ _ G) in H0. auto.
Qed.

Lemma grown_bytes p : 0 ≤ p < MAXFILE * BSIZE → file_byte V' i' p = file_byte V i p.
Proof.
  intros Hp. unfold file_byte.
  assert (0 ≤ p / BSIZE < MAXFILE) as Hq.
  { split; [apply Z.div_pos; [lia|done]|apply Z.div_lt_upper_bound; [done|lia]]. }
  rewrite (gr_block _ _ _ _ _ _ G) by lia. case_decide as E.
  - rewrite E, (gr_old _ _ _ _ _ _ G). cbn [Z.eqb]. destruct (r =? 0); [done|].
    apply (gr_zero _ _ _ _ _ _ G). by apply Z.mod_pos_bound.
  - destruct (Z.eqb_spec (file_block V i (p / BSIZE)) 0) as [|Hn]; [done|]. f_equal.
    pose proof (fo_data _ _ Hok (p `div` BSIZE) ltac:(lia) Hn) as Hd.
    apply (gr_same _ _ _ _ _ _ G); [apply grown_not; lia| |].
    + apply data_bitmap; [done|]. apply grown_new.
    + intros Ei. apply (fo_inj _ _ Hok) in Ei; lia || done.
Qed.

Lemma grown_supply n : supply V (S n) → supply V' n.
Proof.
  intros (X & Hn & HX). exists (X ∖ {[r]}). split.
  - pose proof (size_difference_alt X {[r]}) as E.
    pose proof (subseteq_size (X ∩ {[r]}) {[r]} ltac:(set_solver)). rewrite size_singleton in *. lia.
  - intros b Hb. apply elem_of_difference in Hb as [Hb Hne]. destruct (HX b Hb) as [Hr Hf].
    rewrite grown_super. split; [done|]. rewrite (gr_free _ _ _ _ _ _ G), Hf by by apply before_log.
    by rewrite bool_decide_true by set_solver.
Qed.
End Grown.

(** *** Writing a data block *)

Lemma data_free a d j : data_block V a → 0 ≤ j < sb_size (sb_of V) →
  is_free (<[a := d]> V) (sb_of V) j = is_free V (sb_of V) j.
Proof.
  intros Hd Hj. unfold is_free. rewrite fn_lookup_insert_ne; [done|]. by apply data_bitmap.
Qed.

Lemma data_super a d : data_block V a → (<[a := d]> V) 1 = V 1.
Proof. intros Hd. apply data_range in Hd. by rewrite fn_lookup_insert_ne by lia. Qed.

Lemma data_map a d : data_block V a → fs_map (<[a := d]> V) start.
Proof.
  intros Hd. apply (fs_map_sub V start Hfs); [by apply data_super|].
  intros j Hj Hf. by rewrite data_free.
Qed.

Section Write.
Context k (d : block) (Hk : 0 ≤ k < MAXFILE) (Hn : file_block V i k ≠ 0).
Let a := file_block V i k.
Let V' := <[a := d]> V.

Lemma write_data : data_block V a.
Proof. apply (fo_data _ _ Hok); [lia|done]. Qed.

Lemma write_block j : 0 ≤ j → file_block V' i j = file_block V i j.
Proof.
  intros Hj. apply file_block_ext; [done| |done]. unfold V'. rewrite fn_lookup_insert_ne; [done|].
  intros E. apply (fo_inj _ _ Hok) in E; lia || done.
Qed.

Lemma write_extends : extends V i V' i.
Proof.
  pose proof write_data as Hd. pose proof (data_super a d Hd) as E1. fold V' in E1. split.
  - split.
    + intros j Hj. rewrite write_block by lia. intros Hj0.
      pose proof (fo_data _ _ Hok j Hj Hj0) as Hdj. pose proof (data_range _ Hdj).
      destruct Hdj as (H1 & H2 & H3). unfold data_block. rewrite E1. split; [done|]. split; [done|].
      unfold V'. rewrite data_free; [done|done|lia].
    + intros j j' Hj Hj'. rewrite !write_block by lia. by apply (fo_inj _ _ Hok).
    + intros j Hj. rewrite write_block by lia. by apply (fo_full _ _ Hok).
    + apply (fo_size _ _ Hok).
  - by apply data_map.
  - done.
  - by destruct i.
  - intros x (Hx & Hu & Hm & Hb). split.
    + unfold foreign. rewrite E1. split; [done|]. split; [unfold V'; by rewrite data_free|].
      split; [done|]. intros j Hj. rewrite write_block by lia. by apply Hb.
    + unfold V'. rewrite fn_lookup_insert_ne; [done|]. apply Hb. lia.
  - intros j Hj. by rewrite write_block by lia.
Qed.

Lemma write_byte p : 0 ≤ p < MAXFILE * BSIZE →
  file_byte V' i p = if decide (p / BSIZE = k) then read8 d (p mod BSIZE) else file_byte V i p.
Proof.
  intros Hp. unfold file_byte.
  assert (0 ≤ p / BSIZE < MAXFILE) as Hq.
  { split; [apply Z.div_pos; [lia|done]|apply Z.div_lt_upper_bound; [done|lia]]. }
  rewrite write_block by lia. case_decide as E.
  - rewrite E. fold a. destruct (Z.eqb_spec a 0); [done|]. unfold V'. by rewrite fn_lookup_insert.
  - destruct (Z.eqb_spec (file_block V i (p / BSIZE)) 0) as [|Hn']; [done|].
    unfold V'. rewrite fn_lookup_insert_ne; [done|]. intros Ea.
    apply (fo_inj _ _ Hok) in Ea; lia || done.
Qed.

Lemma write_supply n : supply V n → supply V' n.
Proof.
  intros (X & Hs & HX). exists X. split; [done|]. intros b Hb. destruct (HX b Hb) as [Hr Hf].
  pose proof write_data as Hd. unfold V'. rewrite data_super by done. split; [done|].
  rewrite data_free; [done|done|by apply before_log].
Qed.
End Write.

(** *** Taking a block *)

Section Take.
Context W r (Hr : 0 ≤ r < start) (Hf : is_free V (sb_of V) r = true)
  (Ha : allocated V start W r).

Lemma take_ind : file_block V i MAXFILE ≠ 0 →
  W (file_block V i MAXFILE) = V (file_block V i MAXFILE).
Proof.
  intros Hn. pose proof (fo_data _ _ Hok MAXFILE ltac:(done) Hn) as Hd.
  apply (al_same _ _ _ _ Ha); [destruct Hd as (_ & _ & Hu); congruence|]. apply data_bitmap; [done|by apply before_log].
Qed.

Lemma grow_slot slot k :
  0 ≤ k < NDIRECT ∧ slot = k ∨ k = MAXFILE ∧ slot = NDIRECT → aget (i_addrs i) slot = 0 →
  grown V i k r W (set_i_addrs (<[slot := r]> (i_addrs i)) i).
Proof.
  intros Hs H0.
  assert (file_block V i k = 0) as Hk0.
  { unfold file_block. destruct Hs as [[Hk ->]|[-> ->]]; [|done]. by destruct (Z.ltb_spec k NDIRECT); [|lia]. }
  split; [done|done| |apply Ha| |apply Ha|apply Ha|done].
  - intros j Hj. destruct (decide (NDIRECT ≤ j < MAXFILE)) as [Hi|Hi].
    + rewrite decide_False by lia. destruct (decide (file_block V i MAXFILE = 0)) as [E|E].
      * rewrite (indirect_none _ _ j Hi E). destruct Hs as [[Hk ->]|[-> ->]].
        { apply indirect_none; [done|]. rewrite !ind_slot in *. cbn [i_addrs set_i_addrs].
          rewrite aget_ne; [done|lia]. }
        unfold file_block. cbn [i_addrs set_i_addrs]. rewrite aget_eq.
        destruct (Z.ltb_spec j NDIRECT); [lia|]. destruct (Z.eqb_spec j MAXFILE); [lia|].
        case_match; [done|]. unfold read32.
        by rewrite !(al_zero _ _ _ _ Ha) by (unfold MAXFILE, BSIZE, NDIRECT, NINDIRECT in *; lia).
      * destruct Hs as [[Hk ->]|[-> ->]]; [|congruence].
        apply file_block_ext_ind; [|by apply take_ind|done].
        cbn [i_addrs set_i_addrs]. rewrite aget_ne; [done|lia].
    + unfold file_block. cbn [i_addrs set_i_addrs].
      destruct (Z.ltb_spec j NDIRECT), (Z.eqb_spec j MAXFILE); try lia; subst;
      destruct Hs as [[Hk ->]|[-> ->]]; case_decide; subst; try (unfold MAXFILE, NDIRECT in *; lia);
      first [by rewrite aget_eq | by rewrite aget_ne by (unfold NDIRECT in *; lia)].
  - intros x Hx Hm _. by apply (al_same _ _ _ _ Ha).
Qed.

Lemma grow_entry k :
  NDIRECT ≤ k < MAXFILE → file_block V i MAXFILE ≠ 0 → file_block V i k = 0 →
  let a := file_block V i MAXFILE in
  grown V i k r (<[a := write32 (V a) (4 * (k - NDIRECT)) r]> W) i.
Proof.
  intros Hk Hn H0 a. pose proof (fo_data _ _ Hok MAXFILE ltac:(done) Hn) as Hd. fold a in Hd.
  assert (∀ j, 0 ≤ j < sb_size (sb_of V) → a ≠ bmap_of (sb_of V) j) as Hm by (intros; by apply data_bitmap).
  assert (a ≠ r) as Har by (destruct Hd as (_ & _ & Hu); congruence).
  pose proof (fm_size _ _ Hfs) as Hz.
  assert (W 1 = V 1) as E1.
  { pose proof (before_log r Hr) as Hb. pose proof (meta_used V start Hfs r r Hb Hf Hb).
    pose proof (bitmap_ge V start Hfs r Hb). apply (al_same _ _ _ _ Ha); lia. }
  pose proof (data_range _ Hd) as Hra.
  assert (∀ j, 0 ≤ j < sb_size (sb_of V) →
    is_free (<[a := write32 (V a) (4 * (k - NDIRECT)) r]> W) (sb_of V) j = is_free W (sb_of V) j) as Hfr.
  { intros j Hj. unfold is_free. by rewrite fn_lookup_insert_ne by (by apply Hm). }
  split; [done|done| | | | | |by destruct i].
  - intros j Hj. destruct (decide (NDIRECT ≤ j < MAXFILE)) as [Hi|Hi].
    + set (V' := <[a := _]> W). rewrite (indirect_block V' i j) by done.
      change (file_block V' i MAXFILE) with a. unfold V'. rewrite fn_lookup_insert. case_decide as E.
      * subst j. rewrite read32_write32_eq. pose proof (before_log r Hr).
        apply u32_small. unfold is_u32, two32. lia.
      * rewrite read32_write32_ne by lia. by rewrite (indirect_block V).
    + rewrite decide_False by lia. unfold file_block.
      destruct (Z.ltb_spec j NDIRECT), (Z.eqb_spec j MAXFILE); done || lia.
  - intros x Hx. rewrite fn_lookup_insert_ne by done. by apply (al_zero _ _ _ _ Ha).
  - intros x H1 H2 H3. rewrite fn_lookup_insert_ne by auto. by apply (al_same _ _ _ _ Ha).
  - intros j Hj. rewrite Hfr by done. by apply (al_free _ _ _ _ Ha).
  - assert (fs_map W start) as Hw by apply Ha. apply (fs_map_sub W start Hw).
    + by rewrite fn_lookup_insert_ne by lia.
    + intros j Hj Hj'. rewrite E1 in *. by rewrite Hfr.
Qed.
End Take.
End File.
End Pure.

(** ** Offsets and blocks *)

Lemma chunk_place off x :
  0 ≤ x → off mod BSIZE + x < BSIZE →
  (off + x) / BSIZE = off / BSIZE ∧ (off + x) mod BSIZE = off mod BSIZE + x.
Proof.
  intros Hx Hlt. pose proof (Z.mod_pos_bound off BSIZE ltac:(done)).
  pose proof (Z.div_mod off BSIZE ltac:(done)) as E.
  split; symmetry; [apply (Z.div_unique _ _ _ (off mod BSIZE + x))|
    apply (Z.mod_unique _ _ (off / BSIZE))]; lia.
Qed.

Lemma block_range p : 0 ≤ p < MAXFILE * BSIZE → 0 ≤ p / BSIZE < MAXFILE.
Proof. intros. split; [apply Z.div_pos; [lia|done]|apply Z.div_lt_upper_bound; [done|lia]]. Qed.

Lemma seqZ_join a k n : 0 ≤ k → 0 ≤ n → seqZ a k ++ seqZ (a + k) n = seqZ a (k + n).
Proof. intros. by rewrite seqZ_app. Qed.

(** ** The inode on disk *)

Definition small16 (v : Z) : Prop := -32768 ≤ v < 32768.

Lemma s16_read16_write16 d a v : small16 v → s16 (read16 (write16 d a v) a) = v.
Proof.
  intros Hv. unfold read16. rewrite !read8_write16, !decide_True by lia.
  rewrite !byte_of_div by lia. replace (a + 1 - a) with 1 by lia. rewrite Z.sub_diag.
  unfold s16, small16 in *. change (2 ^ (8 * 0)) with 1. change (2 ^ (8 * 1)) with 256.
  rewrite Z.div_1_r. Z.to_euclidean_division_equations. lia.
Qed.

Lemma read8_write_addrs d a f i n x :
  x < a + 4 * i → read8 (write_addrs d a f i n) x = read8 d x.
Proof.
  revert d i. induction n as [|n IH]; intros d i Hx; cbn [write_addrs]; [done|].
  rewrite IH by lia. rewrite read8_write32. by rewrite decide_False by lia.
Qed.

Lemma read32_write_addrs d a f i n j :
  i ≤ j < i + Z.of_nat n → read32 (write_addrs d a f i n) (a + 4 * j) = u32 (f j).
Proof.
  revert d i. induction n as [|n IH]; intros d i Hj; cbn [write_addrs]; [lia|].
  destruct (decide (j = i)) as [-> |]; [|apply IH; lia].
  rewrite <- (read32_write32_eq d (a + 4 * i)). apply read32_ext. intros x Hx.
  apply read8_write_addrs. lia.
Qed.

Lemma aget_read_addrs d a n k : 0 ≤ k < n → aget (read_addrs d a n) k = read32 d (a + 4 * k).
Proof.
  intros Hk. unfold read_addrs, aget.
  rewrite (elem_of_list_to_map_1 _ k (read32 d (a + 4 * k))); [done| |].
  - rewrite <- list_fmap_compose. apply (NoDup_fmap_2 _), NoDup_seqZ.
  - apply list_elem_of_fmap. exists k. split; [done|]. apply elem_of_seqZ. lia.
Qed.

(** What [inode_lock] loads agrees with [i]. *)
Definition agrees (i j : inode) : Prop :=
  i_type j = i_type i ∧ i_major j = i_major i ∧ i_minor j = i_minor i ∧ i_nlink j = i_nlink i
  ∧ i_size j = i_size i ∧ ∀ k, 0 ≤ k ≤ NDIRECT → aget (i_addrs j) k = aget (i_addrs i) k.

Lemma dinode_roundtrip d a i i0 :
  small16 (i_type i) → small16 (i_major i) → small16 (i_minor i) → small16 (i_nlink i) →
  is_u32 (i_size i) → (∀ k, 0 ≤ k ≤ NDIRECT → is_u32 (aget (i_addrs i) k)) →
  agrees i (get_dinode (put_dinode d a i) a i0).
Proof.
  intros Ht Hma Hmi Hl Hs Ha. unfold put_dinode, get_dinode, agrees. cbn [i_type i_major i_minor i_nlink
    i_size i_addrs set_i_meta set_i_addrs].
  set (d1 := write16 d a _). set (d2 := write16 d1 _ _). set (d3 := write16 d2 _ _).
  set (d4 := write16 d3 _ _). set (d5 := write32 d4 _ _). set (d6 := write_addrs d5 _ _ _ _).
  assert (∀ x, x < a + 12 → read8 d6 x = read8 d5 x) as E6 by (intros; apply read8_write_addrs; lia).
  assert (∀ x, x < a + 8 → read8 d6 x = read8 d4 x) as E5.
  { intros x Hx. rewrite E6 by lia. unfold d5. by rewrite read8_write32, decide_False by lia. }
  assert (∀ x, x < a + 6 → read8 d6 x = read8 d3 x) as E4.
  { intros x Hx. rewrite E5 by lia. unfold d4. by rewrite read8_write16, decide_False by lia. }
  assert (∀ x, x < a + 4 → read8 d6 x = read8 d2 x) as E3.
  { intros x Hx. rewrite E4 by lia. unfold d3. by rewrite read8_write16, decide_False by lia. }
  assert (∀ x, x < a + 2 → read8 d6 x = read8 d1 x) as E2.
  { intros x Hx. rewrite E3 by lia. unfold d2. by rewrite read8_write16, decide_False by lia. }
  split; [|split; [|split; [|split; [|split]]]].
  - rewrite (read16_ext d1) by (intros; apply E2; lia). by apply s16_read16_write16.
  - rewrite (read16_ext d2) by (intros; apply E3; lia). by apply s16_read16_write16.
  - rewrite (read16_ext d3) by (intros; apply E4; lia). by apply s16_read16_write16.
  - rewrite (read16_ext d4) by (intros; apply E5; lia). by apply s16_read16_write16.
  - rewrite (read32_ext d5) by (intros; apply E6; lia). unfold d5. rewrite read32_write32_eq. by apply u32_small.
  - intros k Hk. rewrite aget_read_addrs by lia. unfold d6. rewrite read32_write_addrs by (cbn; lia).
    by apply u32_small, Ha.
Qed.

(** ** The inode cache *)

(** Slot [k] holds a reference to the inode. *)
Definition caches (c : gmap Z inode) (dev inum k : Z) : Prop :=
  0 ≤ k < NINODE ∧ 0 < i_ref (aget c k) ∧ i_dev (aget c k) = dev ∧ i_inum (aget c k) = inum.

#[export] Instance caches_dec c dev inum k : Decision (caches c dev inum k).
Proof. unfold caches. apply _. Defined.

(** No inode is in the cache twice, and the counters are in range. *)
Record cache_ok (c : gmap Z inode) : Prop := {
  co_unique dev inum j k : caches c dev inum j → caches c dev inum k → j = k;
  co_refs k : 0 ≤ k < NINODE → 0 ≤ i_ref (aget c k) < 2147483647
}.

Lemma icache_scan_spec n b empty dev inum s :
  0 ≤ b → b + Z.of_nat n = NINODE →
  (empty = 0 ∧ (∀ k, 0 ≤ k < b → i_ref (aget (inodes s) k) ≠ 0)
   ∨ 1 ≤ empty ≤ b ∧ i_ref (aget (inodes s) (empty - 1)) = 0) →
  (∀ k, 0 ≤ k < b → ¬ caches (inodes s) dev inum k) →
  match icache_scan n b empty dev inum s with
  | inl x => caches (inodes s) dev inum (x - 1)
  | inr x => (∀ k, ¬ caches (inodes s) dev inum k)
    ∧ (x = 0 ∧ (∀ k, 0 ≤ k < NINODE → i_ref (aget (inodes s) k) ≠ 0)
       ∨ 1 ≤ x ≤ NINODE ∧ i_ref (aget (inodes s) (x - 1)) = 0)
  end.
Proof.
  revert b empty. induction n as [|n IH]; intros b empty Hb Hn Hempty Hno; cbn [icache_scan].
  - replace b with NINODE in * by lia. split; [|done]. intros k Hk. by apply (Hno k); [apply Hk|].
  - destruct (_ && _ && _) eqn:E.
    + apply andb_true_iff in E as [[E1%Z.ltb_lt E2%Z.eqb_eq]%andb_true_iff E3%Z.eqb_eq].
      unfold caches. replace (b + 1 - 1) with b by lia. split_and!; [lia|lia|done..].
    + apply IH; [lia|lia| |].
      * destruct (Z.eqb_spec (i_ref (aget (inodes s) b)) 0) as [E0|E0], Hempty as [[-> Hf]|[He Hf]];
          cbn [Z.eqb andb].
        -- right. replace (b + 1 - 1) with b by lia. split; [lia|done].
        -- destruct (Z.eqb_spec empty 0); [lia|]. cbn [andb]. right. split; [lia|done].
        -- left. split; [done|]. intros k Hk. destruct (decide (k = b)) as [-> |]; [done|]. apply Hf. lia.
        -- rewrite andb_false_r. right. split; [lia|done].
      * intros k Hk Hc. destruct (decide (k = b)) as [-> |]; [|by apply (Hno k); [lia|]].
        destruct Hc as (_ & H1 & H2 & H3). rewrite H2, H3, !Z.eqb_refl, (proj2 (Z.ltb_lt _ _)) in E by done. done.
Qed.

(** What [inode_get] leaves: a reference to the inode, and the other slots alone. *)
Record got (c : gmap Z inode) (dev inum x : Z) (c' : gmap Z inode) : Prop := {
  gt_slot : caches c' dev inum (x - 1);
  gt_other k : k ≠ x - 1 → c' !! k = c !! k;
  gt_cached : caches c dev inum (x - 1) → aget c' (x - 1) =
    set_i_ref (i_ref (aget c (x - 1)) + 1) (aget c (x - 1));
  gt_new : ¬ caches c dev inum (x - 1) → i_ref (aget c (x - 1)) = 0
    ∧ aget c' (x - 1) = set_i_ident dev inum 1 0 (aget c (x - 1));
  gt_unique d i j k : caches c' d i j → caches c' d i k → j = k
}.

Lemma got_insert c dev inum k f :
  cache_ok c → 0 ≤ k < NINODE → i_dev f = dev → i_inum f = inum → 0 < i_ref f →
  (caches c dev inum k ∧ f = set_i_ref (i_ref (aget c k) + 1) (aget c k)
   ∨ (∀ j, ¬ caches c dev inum j) ∧ i_ref (aget c k) = 0 ∧ f = set_i_ident dev inum 1 0 (aget c k)) →
  got c dev inum (k + 1) (<[k := f]> c).
Proof.
  intros Hc Hk Hd Hi Hr Hcase.
  assert (∀ d i j, caches (<[k := f]> c) d i j → j ≠ k → caches c d i j) as Hne.
  { intros d i j. unfold caches. intros H Hj. by rewrite aget_ne in H by done. }
  assert (∀ d i, caches (<[k := f]> c) d i k → d = dev ∧ i = inum) as Hat.
  { intros d i. unfold caches. rewrite aget_eq. naive_solver. }
  assert (∀ d i j, caches (<[k := f]> c) d i k → caches (<[k := f]> c) d i j → j = k) as Huniq.
  { intros d i j H1 H2. destruct (decide (j = k)) as [|Hj]; [done|]. pose proof (Hne _ _ _ H2 Hj) as H2'.
    destruct (Hat _ _ H1) as [-> ->]. destruct Hcase as [[Hck _]|[Hno _]]; [|by destruct (Hno j)].
    by apply (co_unique _ Hc dev inum). }
  split; replace (k + 1 - 1) with k by lia; rewrite ?aget_eq.
  - unfold caches. by rewrite aget_eq.
  - intros j Hj. by rewrite lookup_insert_ne.
  - intros H. destruct Hcase as [[_ E]|[Hno _]]; [done|by destruct (Hno k)].
  - intros H. destruct Hcase as [[H' _]|[_ H']]; [done|done].
  - intros d i j j' H1 H2. destruct (decide (j = k)) as [-> |H]; [symmetry; by eapply Huniq|].
    destruct (decide (j' = k)) as [-> |H']; [by eapply Huniq|]. by apply (co_unique _ Hc d i); apply Hne.
Qed.

Lemma wp_inode_get s dev inum Q :
  unlocked (ic_lock s) → cache_ok (inodes s) →
  (∃ k, 0 ≤ k < NINODE ∧ (i_ref (aget (inodes s) k) = 0 ∨ caches (inodes s) dev inum k)) →
  (∀ x s', 1 ≤ x ≤ NINODE → got (inodes s) dev inum x (inodes s') → n_lgs s' = n_lgs s →
     unlocked (ic_lock s') → Q x s') →
  wp (inode_get dev inum) Q s.
Proof.
  intros Hl Hc (k & Hk & Hk') HQ. unfold inode_get. wp_steps. wp_lock. wp_steps.
  pose proof (icache_scan_spec (Z.to_nat NINODE) 0 0 dev inum (lset l_ic_lock locked s) ltac:(done)
    ltac:(done) ltac:(left; split; [done|lia]) ltac:(lia)) as Hs.
  change (inodes (lset l_ic_lock locked s)) with (inodes s) in Hs.
  assert (∀ x f, 1 ≤ x ≤ NINODE → got (inodes s) dev inum x (<[x - 1 := f (aget (inodes s) (x - 1))]> (inodes s)) →
    wp (_ ← ip_upd x f; _ ← lift l_ic_lock spinlock_release; mret x) Q (lset l_ic_lock locked s)) as Hend.
  { intros x f Hx Hg. unfold ip_upd. destruct (Z.eqb_spec x 0); [lia|]. wp_steps. wp_lock. wp_steps.
    by apply HQ. }
  destruct (icache_scan _ _ _ _ _ _) as [x|x].
  - apply Hend; [destruct Hs; lia|]. pose proof Hs as (Hx & Hr & Hd & Hi).
    pose proof (co_refs _ Hc _ Hx). rewrite s32_small by lia.
    replace x with (x - 1 + 1) at 1 by lia. apply got_insert; [done|done|done|done|cbn; lia|by left].
  - destruct Hs as (Hno & [[-> Hfull]|[Hx H0]]).
    { destruct Hk' as [E|Hk']; [by destruct (Hfull k Hk)|by destruct (Hno k)]. }
    destruct (Z.eqb_spec x 0); [lia|]. apply wp_bind, wp_ret. apply Hend; [done|].
    replace x with (x - 1 + 1) at 1 by lia. apply got_insert; [done|lia|done|done|cbn; lia|by right].
Qed.

(** ** Inside a transaction *)

#[export] Instance l_n_lgs_ok : LensOk l_n_lgs.
Proof. split; [done|done|by intros []]. Qed.

Section Contents.
Context `{B : BufLayout} (junk : Z) (D : dmap) (T0 : list (Z * Z * block)) (start : Z).

(** The inode [ip] of the cache; [m] are the others. *)
Context (ip : Z) (m : gmap Z inode) (Hip : 0 < ip).
Implicit Types (s : ino) (V W : Z → block) (i : inode) (U : gmap Z (Z * block)) (n : nat).

Definition in_cache s i : Prop := inodes s = <[ip - 1 := i]> m ∧ unlocked (ic_lock s).
Definition opened s V U n i : Prop := trans D T0 start (n_lgs s) V U n ∧ in_cache s i.
Definition borrowed s V U n i sec b d : Prop :=
  held D T0 start (n_lgs s) V U n sec b d ∧ in_cache s i.

Lemma opened_weaken s V U n k i : opened s V U n i → (k ≤ n)%nat → opened s V U k i.
Proof. intros [Ht E] Hk. split; [by eapply trans_weaken|done]. Qed.

Lemma wp_i_get {A} (f : inode → A) s V U n i Q :
  opened s V U n i → Q (f i) s → wp (ip_get f ip) Q s.
Proof.
  intros [_ [E _]] HQ. unfold ip_get. destruct (Z.eqb_spec ip 0); [lia|]. wp_steps.
  unfold ip_of. by rewrite E, aget_eq.
Qed.

Lemma wp_i_upd f s V U n i Q :
  opened s V U n i → (∀ s', opened s' V U n (f i) → Q tt s') → wp (ip_upd ip f) Q s.
Proof.
  intros [Ht [E Hl]] HQ. unfold ip_upd. destruct (Z.eqb_spec ip 0); [lia|]. wp_steps.
  apply HQ. split; [done|]. split; [|done]. cbn. unfold ip_of. by rewrite E, aget_eq, insert_insert_eq.
Qed.

Lemma wp_i_read s V U n i sec Q :
  opened s V U n i → is_home start sec → U !! sec = None →
  (∀ b s', borrowed s' V U n i sec b (V sec) → Q b s') →
  wp (cached (bufcache_read ROOTDEV sec)) Q s.
Proof.
  intros [Ht E] Hh Hu HQ. apply wp_lift. eapply wp_read; [exact Ht|done|done|].
  intros b l Hl. by apply HQ.
Qed.

Lemma wp_i_data {A} (f : block → A) s V U n i sec b d Q :
  borrowed s V U n i sec b d → Q (f d) s → wp (cached (buf_get (λ x, f (b_data x)) b)) Q s.
Proof.
  intros [Ht E] HQ. apply wp_lift. eapply (wp_data _ _ _ f); [exact Ht|]. by rewrite lset_lget.
Qed.

Lemma wp_i_write f s V U n i sec b d Q :
  borrowed s V U n i sec b d → (∀ s', borrowed s' V U n i sec b (f d) → Q tt s') →
  wp (cached (buf_write b f)) Q s.
Proof.
  intros [Ht E] HQ. apply wp_lift. eapply wp_write; [exact Ht|]. intros l Hl. by apply HQ.
Qed.

Lemma wp_i_log s V U n i sec b d Q :
  borrowed s V U (S n) i sec b d →
  (∀ s', borrowed s' (<[sec := d]> V) U n i sec b d → Q tt s') →
  wp (logged_call (log_write b)) Q s.
Proof.
  intros [Ht E] HQ. apply wp_lift. eapply wp_log; [exact Ht|]. intros l Hl. by apply HQ.
Qed.

Lemma wp_i_release s V U n i sec b d Q :
  borrowed s V U n i sec b d → d = V sec → (∀ s', opened s' V U n i → Q tt s') →
  wp (cached (bufcache_release b)) Q s.
Proof.
  intros [Ht E] Ed HQ. apply wp_lift. eapply wp_release; [exact Ht|done|]. intros l Hl. by apply HQ.
Qed.

(** *** [bmap] *)

(** The blocks of the log that [bmap] needs, and the blocks it takes. *)
Definition bmap_cost V i (bn : Z) : nat :=
  if negb (file_block V i bn =? 0) then 0
  else if bn <? NDIRECT then 2 else if file_block V i MAXFILE =? 0 then 6 else 4.
Definition bmap_need V i (bn : Z) : nat :=
  if negb (file_block V i bn =? 0) then 0
  else if bn <? NDIRECT then 1 else if file_block V i MAXFILE =? 0 then 2 else 1.

Lemma wp_alloc_block s V U n k i Q :
  opened s V U (S (S n)) i → fs_map V start → i_dev i = ROOTDEV → supply start V (S k) → U !! 1 = None →
  (∀ b, 0 ≤ b < sb_size (decode_superblock (V 1)) → U !! bmap_of (decode_superblock (V 1)) b = None) →
  (∀ b, 0 ≤ b < sb_size (decode_superblock (V 1)) →
     is_free V (decode_superblock (V 1)) b = true → U !! b = None) →
  (∀ r s' W, 0 ≤ r < start →
     is_free V (decode_superblock (V 1)) r = true → allocated V start W r →
     opened s' W U n i → Q r s') →
  wp (alloc_block junk ip) Q s.
Proof.
  intros Ho Hfs Hdev (X & Hk & HX) H1 Hm Hf HQ. pose proof Ho as [Ht E]. unfold alloc_block.
  apply wp_bind. eapply wp_i_get; [exact Ho|]. rewrite Hdev. apply wp_lift.
  destruct (set_choose_or_empty X) as [[b Hb]|He]; [|apply size_empty_iff in He; lia].
  destruct (HX b Hb) as [Hb1 Hb2]. pose proof (fm_super _ _ Hfs) as Hsz.
  assert (spares_log V (decode_superblock (V 1)) 0 start) as Hsp.
  { intros r (Hr & _ & Hlow). destruct (decide (r ≤ b)); [lia|].
    rewrite Hlow in Hb2 by lia. done. }
  eapply wp_block_alloc; [exact Ht|done|exact Hsp|done|done|done| |].
  - intros r l W Hlow Ha Ht'. pose proof (Hsp r Hlow). destruct Hlow as (Hr & Hfr & _).
    by apply (HQ r _ W); [lia|..].
  - intros l Hall _. rewrite Hall in Hb2 by lia. done.
Qed.

Lemma wp_slot_mapped s V U n i slot Q :
  opened s V U n i → aget (i_addrs i) slot ≠ 0 → Q (aget (i_addrs i) slot) s →
  wp (bmap_addr junk ip slot) Q s.
Proof.
  intros Ho Hn HQ. unfold bmap_addr. apply wp_bind. eapply wp_i_get; [exact Ho|].
  destruct (Z.eqb_spec (aget (i_addrs i) slot) 0); [done|]. by apply wp_ret.
Qed.

Lemma wp_slot_new s V n k i slot bn Q :
  opened s V ∅ (S (S n)) i → fs_map V start → file_ok start V i → i_dev i = ROOTDEV →
  supply start V (S k) → 0 ≤ bn < NDIRECT ∧ slot = bn ∨ bn = MAXFILE ∧ slot = NDIRECT →
  file_block V i bn = 0 →
  (∀ r s' V' i', grown start V i bn r V' i' → opened s' V' ∅ n i' → Q r s') →
  wp (bmap_addr junk ip slot) Q s.
Proof.
  intros Ho Hfs Hok Hdev Hsup Hslot H0 HQ. unfold bmap_addr. apply wp_bind.
  eapply wp_i_get; [exact Ho|].
  assert (aget (i_addrs i) slot = 0) as Ea.
  { rewrite <- H0. unfold file_block. destruct Hslot as [[Hb ->]|[-> ->]]; [|done].
    by destruct (Z.ltb_spec bn NDIRECT); [|lia]. }
  rewrite Ea. cbn [Z.eqb]. apply wp_bind.
  eapply wp_alloc_block; [exact Ho|done|done|done|done..|].
  intros r s1 W Hr Hf Ha Ho1. apply wp_bind. eapply wp_i_upd; [exact Ho1|]. intros s2 Ho2.
  apply wp_ret. eapply HQ; [|exact Ho2]. by apply grow_slot.
Qed.

Lemma data_home V x : fs_map V start → data_block start V x → is_home start x.
Proof. intros Hfs Hd. apply (data_range start V Hfs) in Hd. split; lia. Qed.

Lemma wp_entry_mapped s V n i bn Q :
  opened s V ∅ n i → fs_map V start → file_ok start V i → i_dev i = ROOTDEV →
  NDIRECT ≤ bn < MAXFILE → file_block V i bn ≠ 0 →
  (∀ s', opened s' V ∅ n i → Q (file_block V i bn) s') →
  wp (bmap_entry junk ip (file_block V i MAXFILE) (bn - NDIRECT)) Q s.
Proof.
  intros Ho Hfs Hok Hdev Hbn Hn HQ. unfold bmap_entry.
  assert (file_block V i MAXFILE ≠ 0) as Hi by (intros E; by rewrite (indirect_none _ _ _ Hbn E) in Hn).
  apply wp_bind. eapply wp_i_get; [exact Ho|]. rewrite Hdev. apply wp_bind.
  eapply wp_i_read; [exact Ho|by apply (data_home V), (fo_data _ _ _ Hok)|by rewrite lookup_empty|].
  intros b s1 H1. apply wp_bind.
  eapply (wp_i_data (λ d, read32 d (4 * (bn - NDIRECT)))); [exact H1|].
  rewrite <- indirect_block by done. destruct (Z.eqb_spec (file_block V i bn) 0); [done|].
  apply wp_bind, wp_ret, wp_bind. eapply wp_i_release; [exact H1|done|]. intros s2 H2.
  apply wp_ret. by apply HQ.
Qed.

Lemma wp_entry_new s V n k i bn Q :
  opened s V ∅ (4 + n) i → fs_map V start → file_ok start V i → i_dev i = ROOTDEV →
  supply start V (S k) → NDIRECT ≤ bn < MAXFILE → file_block V i MAXFILE ≠ 0 → file_block V i bn = 0 →
  (∀ r s' V' i', grown start V i bn r V' i' → opened s' V' ∅ n i' → Q r s') →
  wp (bmap_entry junk ip (file_block V i MAXFILE) (bn - NDIRECT)) Q s.
Proof.
  intros Ho Hfs Hok Hdev Hsup Hbn Hi H0 HQ. unfold bmap_entry.
  pose proof (fo_data _ _ _ Hok MAXFILE ltac:(done) Hi) as Hd.
  set (a := file_block V i MAXFILE) in *. pose proof (data_range start V Hfs a Hd) as Ha.
  apply wp_bind. eapply wp_i_get; [exact Ho|]. rewrite Hdev. apply wp_bind.
  eapply wp_i_read; [exact Ho|by apply (data_home V)|by rewrite lookup_empty|].
  intros b s1 H1. apply wp_bind.
  eapply (wp_i_data (λ d, read32 d (4 * (bn - NDIRECT)))); [exact H1|].
  unfold a at 1. rewrite <- indirect_block, H0 by done. cbn [Z.eqb].
  apply wp_bind, wp_bind. destruct H1 as [H1 E1]. apply park in H1.
  eapply wp_alloc_block; [by split|done|done|done| | | |].
  { rewrite lookup_insert_ne; [done|lia]. }
  { intros x Hx. rewrite lookup_insert_ne; [done|]. by apply (data_bitmap start V). }
  { intros x Hx Hf. rewrite lookup_insert_ne; [done|]. destruct Hd as (_ & _ & Hu). congruence. }
  intros r s2 W Hr Hf Hal [H2 E2]. apply unpark in H2; [|by rewrite lookup_empty].
  apply wp_bind. eapply wp_i_write; [by split|]. intros s3 H3.
  apply wp_bind. eapply wp_i_log; [exact H3|]. intros s4 H4. apply wp_ret, wp_bind.
  eapply wp_i_release; [exact H4|by rewrite fn_lookup_insert|]. intros s5 H5. apply wp_ret.
  eapply HQ; [|exact H5]. by apply grow_entry.
Qed.

Lemma wp_bmap_mapped s V n i bn Q :
  opened s V ∅ n i → fs_map V start → file_ok start V i → i_dev i = ROOTDEV →
  0 ≤ bn < MAXFILE → file_block V i bn ≠ 0 →
  (∀ s', opened s' V ∅ n i → Q (file_block V i bn) s') →
  wp (bmap junk ip bn) Q s.
Proof.
  intros Ho Hfs Hok Hdev Hbn Hn HQ. unfold bmap. destruct (Z.ltb_spec bn NDIRECT) as [Hd|Hd].
  - assert (file_block V i bn = aget (i_addrs i) bn) as E.
    { unfold file_block. by destruct (Z.ltb_spec bn NDIRECT); [|lia]. }
    rewrite E in *. eapply wp_slot_mapped; [exact Ho|done|]. by apply HQ.
  - cbv zeta. destruct (Z.ltb_spec (bn - NDIRECT) NINDIRECT); [|unfold MAXFILE in *; lia].
    apply wp_bind. eapply wp_slot_mapped; [exact Ho| |].
    { intros E. by rewrite (indirect_none V i bn ltac:(lia) E) in Hn. }
    apply (wp_entry_mapped s V n i bn); done || lia.
Qed.

(** Blocks were added, the bytes are the same. *)
Definition stretched V i V' i' : Prop :=
  extends start V i V' i' ∧ ∀ p, 0 ≤ p < MAXFILE * BSIZE → file_byte V' i' p = file_byte V i p.

Lemma stretched_trans V i V1 i1 V2 i2 :
  stretched V i V1 i1 → stretched V1 i1 V2 i2 → stretched V i V2 i2.
Proof.
  intros [X1 E1] [X2 E2]. split; [by eapply extends_trans|]. intros p Hp. by rewrite E2, E1.
Qed.

Lemma grown_stretched V i k r V' i' :
  fs_map V start → file_ok start V i → 0 ≤ k ≤ MAXFILE → grown start V i k r V' i' →
  stretched V i V' i' ∧ file_block V' i' k = r ∧ r ≠ 0.
Proof.
  intros Hfs Hok Hk G. split; [split; [by eapply grown_extends|intros p; by eapply grown_bytes]|].
  pose proof (gr_block _ _ _ _ _ _ _ G k Hk) as E. rewrite decide_True in E by done. split; [done|].
  pose proof (grown_not start V i Hfs Hok k r V' i' G k Hk) as Hn.
  rewrite (gr_old _ _ _ _ _ _ _ G) in Hn. auto.
Qed.

Lemma wp_bmap s V n k i bn Q :
  opened s V ∅ (bmap_cost V i bn + n) i → fs_map V start → file_ok start V i → i_dev i = ROOTDEV →
  supply start V (bmap_need V i bn + k) → 0 ≤ bn < MAXFILE →
  (∀ s' V' i', opened s' V' ∅ n i' → stretched V i V' i' → file_block V' i' bn ≠ 0 →
     supply start V' k → (file_block V i bn ≠ 0 → V' = V ∧ i' = i) → Q (file_block V' i' bn) s') →
  wp (bmap junk ip bn) Q s.
Proof.
  intros Ho Hfs Hok Hdev Hsup Hbn HQ. unfold bmap_cost, bmap_need in *.
  destruct (Z.eqb_spec (file_block V i bn) 0) as [H0|Hn]; cbn [negb] in *.
  2:{ eapply wp_bmap_mapped; [exact Ho|done..|]. intros s' Ho'. apply HQ; try done.
      split; [by apply extends_refl|done]. }
  assert (∀ r s' V1 i1 V' i', stretched V i V1 i1 → fs_map V1 start → file_ok start V1 i1 →
    grown start V1 i1 bn r V' i' → supply start V1 (S k) → opened s' V' ∅ n i' → Q r s') as Hnew.
  { intros r s' V1 i1 V' i' X1 Hfs1 Hok1 G Hsup1 Ho'.
    destruct (grown_stretched V1 i1 bn r V' i' Hfs1 Hok1 ltac:(lia) G) as (X & <- & Hr).
    apply HQ; [done|by eapply stretched_trans|done| |done].
    eapply grown_supply; [exact Hfs1|exact Hok1| |exact G|done]. lia. }
  assert (stretched V i V i) as X0 by (split; [by apply extends_refl|done]).
  unfold bmap. destruct (Z.ltb_spec bn NDIRECT) as [Hd|Hd].
  { eapply (wp_slot_new s V n k i bn bn); [exact Ho|done..|left; lia|done|]. intros r s' V' i' G Ho'.
    by eapply Hnew. }
  cbv zeta. destruct (Z.ltb_spec (bn - NDIRECT) NINDIRECT); [|unfold MAXFILE in *; lia].
  apply wp_bind. destruct (Z.eqb_spec (file_block V i MAXFILE) 0) as [Hi|Hi].
  - eapply (wp_slot_new s V (4 + n) (S k) i NDIRECT MAXFILE); [exact Ho|done..|by right|done|].
    intros r s1 V1 i1 G Ho1.
    destruct (grown_stretched V i MAXFILE r V1 i1 Hfs Hok ltac:(done) G) as (X1 & <- & Hr).
    pose proof X1 as [[] _]. pose proof (gr_block _ _ _ _ _ _ _ G bn ltac:(lia)) as Eb.
    rewrite decide_False, H0 in Eb by lia.
    assert (supply start V1 (S k)) by (by eapply grown_supply; [exact Hfs|exact Hok| |exact G|done]).
    eapply (wp_entry_new s1 V1 n k i1 bn); [exact Ho1|done|done| |done|lia|done|done|].
    { by rewrite ex_meta0. }
    intros r' s' V' i' G' Ho'. by eapply Hnew.
  - eapply wp_slot_mapped; [exact Ho|done|].
    eapply (wp_entry_new s V n k i bn); [exact Ho|done..|lia|done|done|].
    intros r s' V' i' G Ho'. by eapply Hnew.
Qed.

(** *** The loops *)

Lemma read_chunk V i off k :
  0 ≤ off → k ≤ BSIZE - off mod BSIZE → file_block V i (off / BSIZE) ≠ 0 →
  read_bytes (V (file_block V i (off / BSIZE))) (off mod BSIZE) k = file_byte V i <$> seqZ off k.
Proof.
  intros Ho Hk Hn. unfold read_bytes. apply list_eq. intros x. rewrite !list_lookup_fmap.
  destruct (decide (Z.of_nat x < k)) as [Hx|Hx]; [|by rewrite !lookup_seqZ_ge by lia].
  rewrite !lookup_seqZ_lt by lia. cbn [fmap option_fmap option_map]. f_equal. unfold file_byte.
  destruct (chunk_place off (Z.of_nat x)) as [-> ->]; [lia|lia|].
  destruct (Z.eqb_spec (file_block V i (off / BSIZE)) 0); [done|]. done.
Qed.

Lemma wp_read_loop fuel off tot (n : Z) s V (r : nat) i Q :
  opened s V ∅ r i → fs_map V start → file_ok start V i → i_dev i = ROOTDEV →
  0 ≤ tot ≤ n → 0 ≤ off → off + (n - tot) ≤ i_size i → (Z.to_nat (n - tot) ≤ fuel)%nat →
  (∀ s', opened s' V ∅ r i → Q (file_byte V i <$> seqZ off (n - tot)) s') →
  wp (read_loop junk fuel ip off tot n) Q s.
Proof.
  intros Ho Hfs Hok Hdev. revert off tot s Q Ho.
  induction fuel as [|fuel IH]; intros off tot s Q Ho Htot Hoff Hsz Hfuel HQ; cbn [read_loop];
    destruct (Z.ltb_spec tot n) as [Hlt|Hge]; try lia;
    try (apply wp_ret; replace (n - tot) with 0 in HQ by lia; by apply HQ).
  pose proof (fo_size _ _ _ Hok) as Hmax. pose proof (Z.mod_pos_bound off BSIZE ltac:(done)) as Hmod.
  assert (0 ≤ off / BSIZE < MAXFILE) as Hb by (apply block_range; lia).
  assert (file_block V i (off / BSIZE) ≠ 0) as Hn.
  { apply (fo_full _ _ _ Hok); [lia|]. pose proof (Z.mul_div_le off BSIZE ltac:(done)). lia. }
  apply wp_bind. eapply wp_bmap_mapped; [exact Ho|done..|]. intros s1 Ho1.
  apply wp_bind. eapply wp_i_get; [exact Ho1|]. rewrite Hdev. apply wp_bind.
  eapply wp_i_read; [exact Ho1|apply (data_home V), (fo_data _ _ _ Hok); lia || done|done|].
  intros b s2 H2. cbv zeta. set (k := Z.min (n - tot) (BSIZE - off mod BSIZE)).
  apply wp_bind. eapply (wp_i_data (λ d, read_bytes d (off mod BSIZE) k)); [exact H2|].
  apply wp_bind. eapply wp_i_release; [exact H2|done|]. intros s3 H3. apply wp_bind.
  assert (u32 (off + k) = off + k) as ->.
  { apply u32_small. unfold is_u32, two32. unfold MAXFILE, BSIZE, NDIRECT, NINDIRECT in *. lia. }
  eapply IH; [exact H3|lia|lia|lia|lia|]. intros s4 H4. apply wp_ret.
  rewrite read_chunk by (done || lia). rewrite <- fmap_app.
  rewrite seqZ_join by lia.
  replace (k + (n - (tot + k))) with (n - tot) by lia. by apply HQ.
Qed.

(** The blocks a write touches, and what they cost. *)
Definition write_blocks (off n : Z) : list Z :=
  if n <=? 0 then [] else seqZ (off / BSIZE) ((off + n - 1) / BSIZE - off / BSIZE + 1).
Definition write_cost V i (off n : Z) : nat :=
  sum_list_with (λ bn, S (bmap_cost V i bn)) (write_blocks off n).
Definition write_need V i (off n : Z) : nat :=
  sum_list_with (bmap_need V i) (write_blocks off n).

Lemma write_blocks_cons (off n : Z) :
  0 ≤ off → 0 < n → let k := Z.min n (BSIZE - off mod BSIZE) in
  write_blocks off n = off / BSIZE :: write_blocks (off + k) (n - k).
Proof.
  intros Ho Hn k. pose proof (Z.mod_pos_bound off BSIZE ltac:(done)) as Hm.
  unfold write_blocks. destruct (Z.leb_spec n 0); [lia|]. destruct (Z.leb_spec (n - k) 0).
  - destruct (chunk_place off (n - 1)) as [E _]; [lia|lia|].
    replace (off + n - 1) with (off + (n - 1)) by lia. rewrite E.
    by replace (off / BSIZE - off / BSIZE + 1) with 1 by lia.
  - assert (k = BSIZE - off mod BSIZE) as Ek by lia.
    assert (off + k = (off / BSIZE + 1) * BSIZE) as Eo by (pose proof (Z.div_mod off BSIZE ltac:(done)); lia).
    rewrite Eo, Z.div_mul by done. rewrite seqZ_cons.
    + unfold Z.succ. f_equal. f_equal. rewrite <- Eo. replace (off + k + (n - k) - 1) with (off + n - 1) by lia. lia.
    + pose proof (Z.div_le_mono off (off + n - 1) BSIZE ltac:(done) ltac:(lia)). lia.
Qed.

Lemma write_blocks_range (off n : Z) bn :
  0 ≤ off → off + n ≤ MAXFILE * BSIZE → bn ∈ write_blocks off n → 0 ≤ bn < MAXFILE.
Proof.
  intros Ho Hn. unfold write_blocks. destruct (Z.leb_spec n 0); [by intros ?%elem_of_nil|].
  rewrite elem_of_seqZ. pose proof (block_range off ltac:(lia)).
  pose proof (block_range (off + n - 1) ltac:(lia)). lia.
Qed.

Lemma extends_cost V i V' i' bn :
  extends start V i V' i' → 0 ≤ bn < MAXFILE →
  (bmap_cost V' i' bn ≤ bmap_cost V i bn)%nat ∧ (bmap_need V' i' bn ≤ bmap_need V i bn)%nat.
Proof.
  intros X Hbn. unfold bmap_cost, bmap_need.
  pose proof (ex_mapped _ _ _ _ _ X bn ltac:(lia)). pose proof (ex_mapped _ _ _ _ _ X MAXFILE ltac:(done)).
  destruct (Z.eqb_spec (file_block V i bn) 0), (Z.eqb_spec (file_block V' i' bn) 0); cbn [negb]; try lia;
  try tauto; destruct (bn <? NDIRECT); try lia;
  destruct (Z.eqb_spec (file_block V i MAXFILE) 0), (Z.eqb_spec (file_block V' i' MAXFILE) 0); try lia; tauto.
Qed.

Lemma sum_list_mono {A} (f g : A → nat) l :
  (∀ x, x ∈ l → (f x ≤ g x)%nat) → (sum_list_with f l ≤ sum_list_with g l)%nat.
Proof.
  induction l as [|x l IH]; intros H; cbn [sum_list_with]; [done|].
  pose proof (H x ltac:(by left)). specialize (IH (λ y Hy, H y (list_elem_of_further _ _ _ Hy))). lia.
Qed.

Lemma write_cost_mono V i V' i' off (n : Z) :
  extends start V i V' i' → 0 ≤ off → off + n ≤ MAXFILE * BSIZE →
  (write_cost V' i' off n ≤ write_cost V i off n)%nat ∧ (write_need V' i' off n ≤ write_need V i off n)%nat.
Proof.
  intros X Ho Hn. split; apply sum_list_mono; intros bn Hbn;
  pose proof (extends_cost V i V' i' bn X (write_blocks_range off n bn Ho Hn Hbn)); lia.
Qed.

Lemma supply_weaken V (n k : nat) : supply start V n → (k ≤ n)%nat → supply start V k.
Proof. intros (X & Hn & HX) Hk. exists X. split; [lia|done]. Qed.

Lemma write_chunk V i off k src p :
  fs_map V start → file_ok start V i → 0 ≤ off → 0 ≤ k ≤ Z.of_nat (length src) →
  off mod BSIZE + k ≤ BSIZE → off < MAXFILE * BSIZE → file_block V i (off / BSIZE) ≠ 0 →
  0 ≤ p < MAXFILE * BSIZE →
  let a := file_block V i (off / BSIZE) in
  file_byte (<[a := write_bytes (V a) (off mod BSIZE) (take (Z.to_nat k) src)]> V) i p
  = if decide (off ≤ p < off + k) then u8 (nth (Z.to_nat (p - off)) src 0) else file_byte V i p.
Proof.
  intros Hfs Hok Ho Hk Hlen Hmax Hn Hp a. pose proof (block_range off ltac:(lia)).
  unfold a. rewrite (write_byte start) by done. fold a.
  pose proof (Z.div_mod off BSIZE ltac:(done)). pose proof (Z.div_mod p BSIZE ltac:(done)).
  case_decide as E.
  - rewrite read8_write_bytes, length_take, Nat.min_l by lia. rewrite E in *.
    repeat case_decide; try lia.
    + f_equal. rewrite !nth_lookup, lookup_take_lt by lia. do 2 f_equal. lia.
    + unfold file_byte. rewrite E. fold a. by destruct (Z.eqb_spec a 0).
  - rewrite decide_False; [done|]. intros Hr. destruct E.
    destruct (chunk_place off (p - off)) as [E _]; [lia|lia|]. rewrite <- E. f_equal. lia.
Qed.

(** What a write of [src] at [off] does to the file. *)
Record wrote V i (off : Z) (src : list Z) V' i' : Prop := {
  wr_ext : extends start V i V' i';
  wr_bytes p : 0 ≤ p < MAXFILE * BSIZE →
    file_byte V' i' p =
    if decide (off ≤ p < off + Z.of_nat (length src)) then u8 (nth (Z.to_nat (p - off)) src 0)
    else file_byte V i p;
  wr_mapped bn : bn ∈ write_blocks off (Z.of_nat (length src)) → file_block V' i' bn ≠ 0;
  wr_inside : off + Z.of_nat (length src) ≤ i_size i → i' = i
}.

Lemma wrote_nil V i off : fs_map V start → file_ok start V i → wrote V i off [] V i.
Proof.
  intros Hfs Hok. split; [by apply extends_refl| |by intros bn ?%elem_of_nil|done].
  intros p Hp. cbn [length]. by rewrite decide_False by lia.
Qed.

Lemma wrote_app V i off src V1 i1 V2 i2 :
  0 ≤ off → src ≠ [] → off + Z.of_nat (length src) ≤ MAXFILE * BSIZE →
  let k := Z.min (Z.of_nat (length src)) (BSIZE - off mod BSIZE) in
  extends start V i V1 i1 →
  (∀ p, 0 ≤ p < MAXFILE * BSIZE → file_byte V1 i1 p =
    if decide (off ≤ p < off + k) then u8 (nth (Z.to_nat (p - off)) src 0) else file_byte V i p) →
  file_block V1 i1 (off / BSIZE) ≠ 0 → (off + k ≤ i_size i → i1 = i) →
  wrote V1 i1 (off + k) (drop (Z.to_nat k) src) V2 i2 →
  wrote V i off src V2 i2.
Proof.
  intros Ho Hne Hmax k X1 Hb1 Hn1 Hin1 [X2 Hb2 Hm2 Hin2].
  pose proof (Z.mod_pos_bound off BSIZE ltac:(done)) as Hm.
  assert (0 < Z.of_nat (length src)) by (destruct src; cbn; [done|lia]).
  assert (Z.of_nat (length (drop (Z.to_nat k) src)) = Z.of_nat (length src) - k) as El
    by (rewrite length_drop; lia). rewrite El in *.
  split.
  - by eapply extends_trans.
  - intros p Hp. rewrite Hb2, Hb1 by done. repeat case_decide; try lia; try done.
    f_equal. rewrite !nth_lookup, lookup_drop. do 2 f_equal. lia.
  - intros bn Hbn. pose proof Hbn as Hr. apply write_blocks_range in Hr; [|lia|lia].
    rewrite write_blocks_cons in Hbn by lia. fold k in Hbn.
    apply elem_of_cons in Hbn as [-> |Hbn]; [|by apply Hm2].
    by apply (ex_mapped _ _ _ _ _ X2); [lia|].
  - intros Hs. assert (i1 = i) as -> by (apply Hin1; lia). apply Hin2. lia.
Qed.

Lemma wp_write_done off tot (n : Z) src s V (r c : nat) i Q :
  opened s V ∅ (c + r) i → fs_map V start → file_ok start V i → tot = n →
  Z.of_nat (length src) = n - tot →
  (∀ s' V' i', opened s' V' ∅ r i' → wrote V i off src V' i' → Q (off + (n - tot)) s') →
  wp (mret off) Q s.
Proof.
  intros Ho Hfs Hok -> Hlen HQ. apply wp_ret. destruct src; cbn [length] in *; [|lia].
  rewrite Z.sub_diag, Z.add_0_r in HQ. eapply HQ; [eapply opened_weaken; [exact Ho|lia]|by apply wrote_nil].
Qed.

Lemma wp_write_loop fuel off tot (n : Z) src s V (r : nat) i Q :
  opened s V ∅ (write_cost V i off (n - tot) + r) i → fs_map V start → file_ok start V i →
  i_dev i = ROOTDEV → supply start V (write_need V i off (n - tot)) →
  0 ≤ tot ≤ n → 0 ≤ off → off + (n - tot) ≤ MAXFILE * BSIZE → Z.of_nat (length src) = n - tot →
  (Z.to_nat (n - tot) ≤ fuel)%nat →
  (∀ s' V' i', opened s' V' ∅ r i' → wrote V i off src V' i' → Q (off + (n - tot)) s') →
  wp (write_loop junk fuel ip off tot n src) Q s.
Proof.
  revert off tot src s V i Q.
  induction fuel as [|fuel IH]; intros off tot src s V i Q Ho Hfs Hok Hdev Hsup Htot Hoff Hmax Hlen Hfuel HQ;
    cbn [write_loop]; destruct (Z.ltb_spec tot n) as [Hlt|Hge]; try lia;
    try (eapply (wp_write_done off tot n src); [exact Ho|done|done|lia|done|done]).
  pose proof (Z.mod_pos_bound off BSIZE ltac:(done)) as Hmod. set (k := Z.min (n - tot) (BSIZE - off mod BSIZE)).
  unfold write_cost, write_need in Ho, Hsup. rewrite write_blocks_cons in Ho, Hsup by lia. fold k in Ho, Hsup.
  cbn [sum_list_with] in Ho, Hsup. fold (write_cost V i (off + k) (n - tot - k)) in Ho.
  fold (write_need V i (off + k) (n - tot - k)) in Hsup.
  pose proof (block_range off ltac:(lia)) as Hb.
  apply wp_bind.
  eapply (wp_bmap s V (S (write_cost V i (off + k) (n - tot - k) + r)) _ i (off / BSIZE));
    [eapply opened_weaken; [exact Ho|lia]|done|done|done|exact Hsup|done|].
  intros s1 V1 i1 Ho1 [X1 Hb1] Hn1 Hsup1 Hold. pose proof X1 as [Hok1 Hfs1 _ Em1 _ _].
  apply wp_bind. eapply wp_i_get; [exact Ho1|]. rewrite Em1. cbn [i_dev set_i_addrs]. rewrite Hdev, <- Em1.
  apply wp_bind.
  eapply wp_i_read; [exact Ho1|apply (data_home V1), (fo_data _ _ _ Hok1); lia || done|done|].
  intros b s2 H2. cbv zeta. fold k. apply wp_bind. eapply wp_i_write; [exact H2|]. intros s3 H3.
  apply wp_bind. eapply wp_i_log; [exact H3|]. intros s4 H4.
  apply wp_bind. eapply wp_i_release; [exact H4|by rewrite fn_lookup_insert|]. intros s5 H5.
  assert (u32 (off + k) = off + k) as ->.
  { apply u32_small. unfold is_u32, two32. unfold MAXFILE, BSIZE, NDIRECT, NINDIRECT in *. lia. }
  set (V2 := <[_ := _]> V1) in H5.
  pose proof (write_extends start V1 i1 Hfs1 Hok1 (off / BSIZE)
    (write_bytes (V1 (file_block V1 i1 (off / BSIZE))) (off mod BSIZE) (take (Z.to_nat k) src)) Hb Hn1) as X2.
  fold V2 in X2. pose proof (extends_trans _ _ _ _ _ _ _ X1 X2) as X.
  destruct (write_cost_mono V i V2 i1 (off + k) (n - tot - k) X) as [Hc Hs]; [lia|lia|].
  replace (n - tot - k) with (n - (tot + k)) in * by lia.
  eapply (IH (off + k) (tot + k) _ s5 V2 i1);
    [eapply opened_weaken; [exact H5|lia]|apply X|apply X|by rewrite Em1| |lia|lia|lia| |lia|].
  - eapply supply_weaken; [|exact Hs]. by apply (write_supply start V1 i1 Hfs1 Hok1).
  - rewrite length_drop. lia.
  - intros s' V' i' Ho' Hw. replace (off + k + (n - (tot + k))) with (off + (n - tot)) by lia.
    eapply HQ; [exact Ho'|].
    eapply wrote_app; [done|by destruct src; [cbn in *; lia|]|lia|exact X| | | |by rewrite Hlen].
    + intros p Hp. rewrite Hlen. fold k. unfold V2. rewrite write_chunk by (done || lia). by rewrite Hb1.
    + unfold V2. by rewrite (write_block start) by (done || lia).
    + rewrite Hlen. fold k. intros Hin. apply Hold. apply (fo_full _ _ _ Hok); [lia|].
      pose proof (Z.mul_div_le off BSIZE ltac:(done)). lia.
Qed.

(** *** The inode block *)

Definition stored V i : Prop :=
  agrees i (get_dinode (V (IBLOCK (i_inum i))) (dip (i_inum i)) i).
Definition inum_ok V i : Prop := 0 ≤ i_inum i < sb_ninodes (decode_superblock (V 1)).
Definition inode_small i : Prop :=
  small16 (i_type i) ∧ small16 (i_major i) ∧ small16 (i_minor i) ∧ small16 (i_nlink i).

Lemma iblock_range V inum b :
  fs_map V start → 0 ≤ inum < sb_ninodes (decode_superblock (V 1)) →
  0 ≤ b < sb_size (decode_superblock (V 1)) →
  2 ≤ IBLOCK inum < bmap_of (decode_superblock (V 1)) b.
Proof.
  intros Hfs Hi Hb. pose proof (fm_size _ _ Hfs). pose proof (fm_inodes _ _ Hfs).
  assert (0 ≤ b / BPB < 268435456).
  { split; [apply Z.div_pos; [lia|done]|]. apply Z.div_lt_upper_bound; unfold BPB, BSIZE; lia. }
  assert (0 ≤ sb_ninodes (decode_superblock (V 1)) / IPB < 268435456).
  { split; [apply Z.div_pos; [lia|done]|]. apply Z.div_lt_upper_bound; unfold IPB; lia. }
  pose proof (Z.div_le_mono inum (sb_ninodes (decode_superblock (V 1))) IPB ltac:(done) ltac:(lia)).
  pose proof (Z.div_pos inum IPB ltac:(lia) ltac:(done)).
  unfold bmap_of, BBLOCK, IBLOCK. rewrite !u32_small by (unfold is_u32, two32; rewrite ?u32_small;
    unfold is_u32, two32; lia). lia.
Qed.

Section Update.
Context V i (Hfs : fs_map V start) (Hok : file_ok start V i) (Hi : inum_ok V i) (d : block).
Let x := IBLOCK (i_inum i).
Let V' := <[x := d]> V.

Lemma iblock_ne y : data_block start V y → x ≠ y.
Proof.
  intros (_ & Hm & _). specialize (Hm 0 (size_pos start V Hfs)).
  pose proof (iblock_range V (i_inum i) 0 Hfs Hi (size_pos start V Hfs)). unfold x. lia.
Qed.

Lemma update_super : V' 1 = V 1.
Proof.
  pose proof (iblock_range V (i_inum i) 0 Hfs Hi (size_pos start V Hfs)).
  unfold V'. rewrite fn_lookup_insert_ne; [done|unfold x; lia].
Qed.

Lemma update_free j : 0 ≤ j < sb_size (decode_superblock (V 1)) →
  is_free V' (decode_superblock (V 1)) j = is_free V (decode_superblock (V 1)) j.
Proof.
  intros Hj. pose proof (iblock_range V (i_inum i) j Hfs Hi Hj). unfold is_free, V'.
  rewrite fn_lookup_insert_ne; [done|unfold x; lia].
Qed.

Lemma update_map : fs_map V' start.
Proof.
  apply (fs_map_sub V start Hfs); [apply update_super|]. intros j Hj Hf. by rewrite update_free.
Qed.

Lemma update_block z k : 0 ≤ k → file_block V' (set_i_size z i) k = file_block V i k.
Proof.
  intros Hk. apply file_block_ext; [done| |done]. unfold V'.
  destruct (block_data start V i Hok MAXFILE ltac:(done)) as [E|Hd].
  - rewrite E. rewrite fn_lookup_insert_ne; [done|].
    pose proof (iblock_range V (i_inum i) 0 Hfs Hi (size_pos start V Hfs)). unfold x. lia.
  - rewrite fn_lookup_insert_ne; [done|]. by apply iblock_ne.
Qed.

Lemma update_byte z p : 0 ≤ p < MAXFILE * BSIZE → file_byte V' (set_i_size z i) p = file_byte V i p.
Proof.
  intros Hp. pose proof (block_range p Hp). unfold file_byte. rewrite update_block by lia.
  destruct (Z.eqb_spec (file_block V i (p / BSIZE)) 0); [done|].
  unfold V'. rewrite fn_lookup_insert_ne; [done|]. apply iblock_ne, (fo_data _ _ _ Hok); [lia|done].
Qed.

Lemma update_ok z :
  0 ≤ z ≤ MAXFILE * BSIZE → (∀ k, 0 ≤ k → k * BSIZE < z → file_block V i k ≠ 0) →
  file_ok start V' (set_i_size z i).
Proof.
  intros Hz Hfull. split; [| | |done].
  - intros k Hk. rewrite update_block by lia. intros Hn.
    pose proof (fo_data _ _ _ Hok k Hk Hn) as Hd. pose proof (data_range start V Hfs _ Hd).
    destruct Hd as (H1 & H2 & H3). unfold data_block. rewrite update_super. split; [done|].
    split; [done|]. rewrite update_free; [done|lia].
  - intros j k Hj Hk. rewrite !update_block by lia. by apply (fo_inj _ _ _ Hok).
  - intros k Hk Hs. rewrite update_block by lia. by apply Hfull.
Qed.

Lemma iblock_foreign : foreign V i x.
Proof.
  pose proof (size_pos start V Hfs) as H0. pose proof (iblock_range V (i_inum i) 0 Hfs Hi H0) as Hr.
  pose proof (fm_bitmap _ _ Hfs 0 H0). pose proof (fm_super _ _ Hfs).
  split; [unfold x; lia|]. split; [apply (fm_meta _ _ Hfs 0); unfold x; lia|]. split.
  - intros b Hb. pose proof (iblock_range V (i_inum i) b Hfs Hi Hb). unfold x. lia.
  - intros k Hk E. destruct (block_data start V i Hok k Hk) as [E0|Hd]; [unfold x in *; lia|].
    by apply (iblock_ne _ Hd).
Qed.
End Update.

Lemma wp_inode_update s V n i Q :
  opened s V ∅ (S n) i → fs_map V start → i_dev i = ROOTDEV → inum_ok V i →
  (∀ s', opened s' (<[IBLOCK (i_inum i) :=
      put_dinode (V (IBLOCK (i_inum i))) (dip (i_inum i)) i]> V) ∅ n i → Q tt s') →
  wp (inode_update ip) Q s.
Proof.
  intros Ho Hfs Hdev Hi HQ. unfold inode_update. apply wp_bind. eapply wp_i_get; [exact Ho|].
  unfold id. rewrite Hdev. apply wp_bind.
  pose proof (size_pos start V Hfs) as H0. pose proof (iblock_range V (i_inum i) 0 Hfs Hi H0) as Hr.
  pose proof (fm_bitmap _ _ Hfs 0 H0).
  eapply wp_i_read; [exact Ho|split; lia|done|]. intros b s1 H1.
  apply wp_bind. eapply wp_i_write; [exact H1|]. intros s2 H2.
  apply wp_bind. eapply wp_i_log; [exact H2|]. intros s3 H3.
  eapply wp_i_release; [exact H3|by rewrite fn_lookup_insert|done].
Qed.

(** *** Reading and writing *)

(** A file of the root device whose inode in memory agrees with the disk. *)
Record file_inv V i : Prop := {
  fi_map : fs_map V start;
  fi_ok : file_ok start V i;
  fi_inum : inum_ok V i;
  fi_small : inode_small i;
  fi_stored : stored V i;
  fi_dev : i_dev i = ROOTDEV
}.

(** [src] has been written at [off]. *)
Record updated V i (off : Z) (src : list Z) V' i' : Prop := {
  up_inv : file_inv V' i';
  up_type : i_type i' = i_type i;
  up_inum : i_inum i' = i_inum i;
  up_size : i_size i' = Z.max (i_size i) (off + Z.of_nat (length src));
  up_bytes p : 0 ≤ p < MAXFILE * BSIZE →
    file_byte V' i' p =
    if decide (off ≤ p < off + Z.of_nat (length src)) then u8 (nth (Z.to_nat (p - off)) src 0)
    else file_byte V i p;
  up_foreign x : foreign V i x → x ≠ IBLOCK (i_inum i) → V' x = V x
}.

Lemma addrs_u32 V i k : fs_map V start → file_ok start V i → 0 ≤ k ≤ NDIRECT → is_u32 (aget (i_addrs i) k).
Proof.
  intros Hfs Hok Hk. pose proof (fm_size _ _ Hfs).
  assert (∃ j, 0 ≤ j ≤ MAXFILE ∧ aget (i_addrs i) k = file_block V i j) as (j & Hj & ->).
  { destruct (decide (k = NDIRECT)) as [-> |]; [by exists MAXFILE|]. exists k. split; [unfold MAXFILE, NINDIRECT; lia|].
    unfold file_block. by destruct (Z.ltb_spec k NDIRECT); [|lia]. }
  destruct (block_data start V i Hok j Hj) as [-> |Hd]; [done|].
  apply (data_range start V Hfs) in Hd. unfold is_u32, two32. lia.
Qed.

(** The write stayed inside the file. *)
Lemma updated_inside V i off src V' :
  file_inv V i → wrote V i off src V' i → off + Z.of_nat (length src) ≤ i_size i →
  updated V i off src V' i.
Proof.
  intros [Hfs Hok Hi Hsm Hst Hdev] [X Hb Hm Hin] Hs.
  destruct (ex_foreign _ _ _ _ _ X _ (iblock_foreign V i Hfs Hok Hi)) as [_ Ei].
  split; [|done|done|lia|done|].
  - split; [apply X|apply X| |done| |done].
    + unfold inum_ok. by rewrite (ex_super _ _ _ _ _ X).
    + unfold stored. by rewrite Ei.
  - intros x Hx _. by apply (ex_foreign _ _ _ _ _ X).
Qed.

(** It made the file longer, and the inode has been written. *)
Lemma updated_longer V i off src V1 i1 :
  file_inv V i → wrote V i off src V1 i1 → 0 ≤ off ≤ i_size i → src ≠ [] →
  i_size i < off + Z.of_nat (length src) ≤ MAXFILE * BSIZE →
  let i2 := set_i_size (off + Z.of_nat (length src)) i1 in
  updated V i off src (<[IBLOCK (i_inum i2) :=
    put_dinode (V1 (IBLOCK (i_inum i2))) (dip (i_inum i2)) i2]> V1) i2.
Proof.
  intros [Hfs Hok Hi Hsm Hst Hdev] [X Hb Hm Hin] Hoff Hne Hs i2. set (z := off + _) in *.
  pose proof X as [Hok1 Hfs1 E1 Em Hfo Hmp].
  assert (inum_ok V1 i1) as Hi1 by (unfold inum_ok; by rewrite E1, Em).
  assert (∀ k, 0 ≤ k → k * BSIZE < z → file_block V1 i1 k ≠ 0) as Hfull.
  { intros k Hk Hkz. destruct (decide (k * BSIZE < i_size i)) as [Hlt|Hge].
    - apply Hmp; [unfold MAXFILE, BSIZE, NDIRECT, NINDIRECT in *; lia|]. by apply (fo_full _ _ _ Hok).
    - apply Hm. unfold write_blocks. destruct (Z.leb_spec (Z.of_nat (length src)) 0); [destruct src; [done|cbn in *; lia]|].
      apply elem_of_seqZ. fold z. pose proof (Z.div_le_mono off (k * BSIZE) BSIZE ltac:(done) ltac:(lia)) as H1.
      pose proof (Z.div_le_mono (k * BSIZE) (z - 1) BSIZE ltac:(done) ltac:(lia)) as H2.
      rewrite Z.div_mul in H1, H2 by done. lia. }
  assert (i_inum i2 = i_inum i1) as -> by done.
  split.
  - split.
    + by apply (update_map V1 i1).
    + apply (update_ok V1 i1); [done|done|done|lia|done].
    + unfold inum_ok. by rewrite (update_super V1 i1).
    + unfold i2, inode_small. rewrite Em. exact Hsm.
    + unfold stored. change (i_inum i2) with (i_inum i1). rewrite fn_lookup_insert.
      unfold inode_small in Hsm. apply dinode_roundtrip; try (unfold i2; rewrite Em; apply Hsm).
      * unfold i2, is_u32, two32. cbn [i_size set_i_size]. unfold MAXFILE, BSIZE, NDIRECT, NINDIRECT in *. cbn. lia.
      * intros k Hk. by apply (addrs_u32 V1 i1).
    + unfold i2. by rewrite Em.
  - unfold i2. by rewrite Em.
  - unfold i2. by rewrite Em.
  - unfold i2. cbn. lia.
  - intros p Hp. unfold i2. rewrite (update_byte V1 i1) by done. by apply Hb.
  - intros x Hx Hne'. destruct (Hfo x Hx) as [_ <-]. rewrite fn_lookup_insert_ne; [done|]. rewrite Em. auto.
Qed.

Lemma range_u32 off (n : Z) :
  is_u32 off → is_u32 n → two32 ≤ off + n → u32 (off + n) < off.
Proof.
  unfold is_u32, u32. intros Ho Hn Hge.
  rewrite <- (Z.mod_unique (off + n) two32 1 (off + n - two32)); lia.
Qed.

Lemma wp_inode_write s V i off src Q :
  let n := Z.of_nat (length src) in
  opened s V ∅ (S (write_cost V i off n)) i → file_inv V i → i_type i ≠ T_DEV →
  supply start V (write_need V i off n) → 0 ≤ off ≤ i_size i → off + n ≤ MAXFILE * BSIZE →
  (∀ s' V' i', opened s' V' ∅ 0 i' → updated V i off src V' i' → Q n s') →
  wp (inode_write junk ip src off n) Q s.
Proof.
  intros n Ho Hinv Hty Hsup Hoff Hmax HQ. pose proof Hinv as [Hfs Hok Hi Hsm Hst Hdev].
  assert (∀ x, 0 ≤ x ≤ MAXFILE * BSIZE → u32 x = x ∧ s32 x = x) as Hw.
  { intros x Hx. unfold MAXFILE, BSIZE, NDIRECT, NINDIRECT in Hx.
    split; [apply u32_small; unfold is_u32, two32; lia|apply s32_small; lia]. }
  unfold inode_write. apply wp_bind. eapply wp_i_get; [exact Ho|].
  destruct (Z.eqb_spec (i_type i) T_DEV); [done|]. apply wp_bind. eapply wp_i_get; [exact Ho|].
  rewrite (proj1 (Hw (off + n) ltac:(lia))). destruct (Z.ltb_spec (i_size i) off); [lia|].
  destruct (Z.ltb_spec (off + n) off); [lia|]. cbn [orb].
  destruct (Z.ltb_spec (MAXFILE * BSIZE) (off + n)); [lia|]. apply wp_bind.
  eapply (wp_write_loop _ _ 0 n src s V 1); [|done|done|done| |lia|lia|lia|lia|lia|].
  { rewrite Z.sub_0_r. eapply opened_weaken; [exact Ho|lia]. }
  { by rewrite Z.sub_0_r. }
  rewrite Z.sub_0_r. intros s1 V1 i1 Ho1 Hwr. apply wp_bind.
  destruct (Z.ltb_spec 0 n), (Z.ltb_spec (i_size i) (off + n)); cbn [andb]; try lia.
  - apply wp_bind. eapply wp_i_upd; [exact Ho1|]. intros s2 Ho2.
    pose proof (wr_ext _ _ _ _ _ _ Hwr) as X. pose proof (ex_meta _ _ _ _ _ X) as Em.
    eapply (wp_inode_update s2 V1 0); [exact Ho2|apply X|by rewrite Em| |].
    { unfold inum_ok. by rewrite (ex_super _ _ _ _ _ X), Em. }
    intros s3 Ho3. apply wp_ret. rewrite (proj2 (Hw n ltac:(lia))). eapply HQ; [exact Ho3|].
    apply updated_longer; [done|done|done|by destruct src|lia].
  - apply wp_ret, wp_ret. rewrite (proj2 (Hw n ltac:(lia))).
    pose proof (wr_inside _ _ _ _ _ _ Hwr ltac:(lia)) as ->.
    eapply HQ; [by eapply opened_weaken; [exact Ho1|lia]|by apply updated_inside].
  - apply wp_ret, wp_ret. rewrite (proj2 (Hw n ltac:(lia))).
    pose proof (wr_inside _ _ _ _ _ _ Hwr ltac:(lia)) as ->.
    eapply HQ; [by eapply opened_weaken; [exact Ho1|lia]|by apply updated_inside].
Qed.

Lemma wp_inode_read s V (r : nat) i off (n : Z) Q :
  opened s V ∅ r i → fs_map V start → file_ok start V i → i_dev i = ROOTDEV → i_type i ≠ T_DEV →
  0 ≤ off ≤ i_size i → 0 ≤ n → off + n < two32 →
  (∀ s', let k := Z.min n (i_size i - off) in
     opened s' V ∅ r i → Q (k, file_byte V i <$> seqZ off k) s') →
  wp (inode_read junk ip off n) Q s.
Proof.
  intros Ho Hfs Hok Hdev Hty Hoff Hn Hmax HQ. pose proof (fo_size _ _ _ Hok) as Hz.
  unfold MAXFILE, BSIZE, NDIRECT, NINDIRECT in Hz.
  unfold inode_read. apply wp_bind. eapply wp_i_get; [exact Ho|].
  destruct (Z.eqb_spec (i_type i) T_DEV); [done|]. apply wp_bind. eapply wp_i_get; [exact Ho|].
  rewrite (u32_small (off + n)) by (unfold is_u32; lia). destruct (Z.ltb_spec (i_size i) off); [lia|].
  destruct (Z.ltb_spec (off + n) off); [lia|]. cbn [orb]. cbv zeta.
  set (k := if i_size i <? off + n then _ else _).
  assert (k = Z.min n (i_size i - off)) as Ek.
  { unfold k. destruct (Z.ltb_spec (i_size i) (off + n)); [|lia].
    rewrite u32_small by (unfold is_u32, two32; lia). lia. }
  apply wp_bind. eapply (wp_read_loop _ off 0 k); [exact Ho|done|done|done|lia|lia|lia|lia|].
  intros s1 H1. rewrite Z.sub_0_r. apply wp_ret. rewrite s32_small by lia. rewrite Ek. by apply HQ.
Qed.

Lemma wp_inode_refuse s i off (n : Z) :
  inodes s = <[ip - 1 := i]> m → i_type i ≠ T_DEV → is_u32 off → is_u32 n →
  (i_size i < off ∨ two32 ≤ off + n → inode_read junk ip off n s = Ok ((-1, []), s))
  ∧ ∀ src : list Z, i_size i < off ∨ MAXFILE * BSIZE < off + n → inode_write junk ip src off n s = Ok (-1, s).
Proof.
  intros E Hty Ho Hn. pose proof (range_u32 off n Ho Hn) as Hov.
  assert (∀ (A : Type) (f : inode → A), ip_get f ip s = Ok (f i, s)) as Eg.
  { intros A f. unfold ip_get. destruct (Z.eqb_spec ip 0); [lia|]. rewrite (bind_run _ _ s s tt) by done. unfold gets, ip_of. by rewrite E, aget_eq. }
  assert (u32 (off + n) = off + n ∨ two32 ≤ off + n) as Hu.
  { destruct (decide (two32 ≤ off + n)); [by right|left]. apply u32_small. unfold is_u32 in *. lia. }
  split.
  - intros Hbad. unfold inode_read. rewrite (bind_run _ _ _ _ _ (Eg _ _)).
    destruct (Z.eqb_spec (i_type i) T_DEV); [done|]. rewrite (bind_run _ _ _ _ _ (Eg _ _)).
    destruct (Z.ltb_spec (i_size i) off); [done|]. destruct (Z.ltb_spec (u32 (off + n)) off); [done|]. lia.
  - intros src Hbad. unfold inode_write. rewrite (bind_run _ _ _ _ _ (Eg _ _)).
    destruct (Z.eqb_spec (i_type i) T_DEV); [done|]. rewrite (bind_run _ _ _ _ _ (Eg _ _)).
    destruct (Z.ltb_spec (i_size i) off); [done|]. destruct (Z.ltb_spec (u32 (off + n)) off); [done|].
    cbn [orb]. destruct (Z.ltb_spec (MAXFILE * BSIZE) (u32 (off + n))); [done|]. lia.
Qed.

(** ** Properties *)

(** C5: inside a transaction with enough room in the log and enough free blocks,
    [inode_write] puts the given bytes at the offset and changes no other byte of
    the file, takes new blocks on demand, through the indirect block too, and
    changes no other block in use; when the file grows the inode is written, so
    the disk agrees with memory.  A write that would start past the end, wrap
    around or exceed the largest file is refused without effect. *)
Theorem inode_write_correct s V i off src :
  let n := Z.of_nat (length src) in
  opened s V ∅ (S (write_cost V i off n)) i → file_inv V i → i_type i ≠ T_DEV →
  supply start V (write_need V i off n) → is_u32 off → is_u32 n →
  if (i_size i <? off) || (MAXFILE * BSIZE <? off + n) then inode_write junk ip src off n s = Ok (-1, s)
  else ∃ s' V' i', inode_write junk ip src off n s = Ok (n, s')
    ∧ opened s' V' ∅ 0 i' ∧ updated V i off src V' i'.
Proof.
  intros n Ho Hinv Hty Hsup Hoff Hn.
  destruct (wp_inode_refuse s i off n (proj1 (proj2 Ho)) Hty Hoff Hn) as [_ Href].
  destruct (Z.ltb_spec (i_size i) off); [by apply Href; left|].
  destruct (Z.ltb_spec (MAXFILE * BSIZE) (off + n)); [by apply Href; right|]. cbn [orb].
  destruct (wp_run (inode_write junk ip src off n)
    (λ r s', r = n ∧ ∃ V' i', opened s' V' ∅ 0 i' ∧ updated V i off src V' i') s)
    as (r & s' & E & -> & V' & i' & Ho' & Hu).
  - eapply wp_inode_write; [exact Ho|done|done|done|destruct Hoff; lia|lia|].
    intros s' V' i' Ho' Hu. split; [done|]. by exists V', i'.
  - by exists s', V', i'.
Qed.

(** C23: inside a transaction [inode_read] returns the bytes of the file from the
    offset on, as many as asked for or as there are, and changes nothing; an
    offset past the end or a range that wraps around gives -1. *)
Theorem inode_read_correct s V (r : nat) i off (n : Z) :
  opened s V ∅ r i → fs_map V start → file_ok start V i → i_dev i = ROOTDEV → i_type i ≠ T_DEV →
  is_u32 off → is_u32 n →
  if (i_size i <? off) || (two32 <=? off + n) then inode_read junk ip off n s = Ok ((-1, []), s)
  else let k := Z.min n (i_size i - off) in
    ∃ s', inode_read junk ip off n s = Ok ((k, file_byte V i <$> seqZ off k), s') ∧ opened s' V ∅ r i.
Proof.
  intros Ho Hfs Hok Hdev Hty Hoff Hn.
  destruct (wp_inode_refuse s i off n (proj1 (proj2 Ho)) Hty Hoff Hn) as [Href _].
  destruct (Z.ltb_spec (i_size i) off); [by apply Href; left|].
  destruct (Z.leb_spec two32 (off + n)); [by apply Href; right|]. cbn [orb].
  eapply wp_run_val. eapply wp_inode_read; [exact Ho|done|done|done|done|destruct Hoff; lia|apply Hn|lia|].
  done.
Qed.

(** C22: what [inode_write] wrote, [inode_read] reads back in the same transaction. *)
Theorem write_read_roundtrip s V i off src :
  let n := Z.of_nat (length src) in
  opened s V ∅ (S (write_cost V i off n)) i → file_inv V i → i_type i ≠ T_DEV →
  supply start V (write_need V i off n) → 0 ≤ off ≤ i_size i → off + n ≤ MAXFILE * BSIZE →
  ∃ s', (_ ← inode_write junk ip src off n; inode_read junk ip off n) s = Ok ((n, u8 <$> src), s').
Proof.
  intros n Ho Hinv Hty Hsup Hoff Hmax.
  destruct (wp_run_val (_ ← inode_write junk ip src off n; inode_read junk ip off n) (n, u8 <$> src)
    (λ _, True) s) as (s' & E & _); [|by exists s'].
  apply wp_bind. eapply wp_inode_write; [exact Ho|done..|]. intros s1 V1 i1 Ho1 [[]].
  eapply wp_inode_read; [exact Ho1|done|done|done|congruence|lia|lia| |].
  { unfold two32. unfold MAXFILE, BSIZE, NDIRECT, NINDIRECT in Hmax. lia. }
  intros s2 k Ho2. assert (k = n) as -> by lia. split; [|done]. f_equal.
  apply list_eq. intros x. rewrite !list_lookup_fmap.
  destruct (decide (x < length src)%nat) as [Hx|Hx].
  - rewrite lookup_seqZ_lt by lia. cbn [fmap option_fmap option_map].
    rewrite up_bytes0, decide_True by lia. replace (Z.to_nat _) with x by lia.
    destruct (lookup_lt_is_Some_2 src x Hx) as [v Ev]. by rewrite nth_lookup, Ev.
  - rewrite lookup_seqZ_ge by lia. by rewrite lookup_ge_None_2 by lia.
Qed.
End Contents.

(** ** A concrete file *)

#[local] Existing Instance sample_layout.
#[local] Existing Instance sample_stack.
#[local] Existing Instance sample_ipc_layout.
#[local] Existing Instance sample_buf_layout.

(** Inode one of [sample_fs], just loaded. *)
Definition sample_inode : inode := Inode ROOTDEV 1 1 I_VALID T_FILE 0 0 1 0 ∅.

Lemma sample_no_block k : file_block sample_view sample_inode k = 0.
Proof. unfold file_block. cbn [i_addrs sample_inode]. rewrite !aget_empty. by repeat case_match. Qed.

Lemma sample_file : file_inv 20 sample_view sample_inode.
Proof.
  split; [exact sample_view_map| |by vm_compute|by vm_compute| |done].
  - split.
    + intros k _. by rewrite sample_no_block.
    + intros j k _ _. by rewrite sample_no_block.
    + cbn. unfold BSIZE. lia.
    + by vm_compute.
  - unfold stored, agrees. split_and!; [by vm_compute..|]. intros k Hk.
    assert (forallb (λ k, aget (i_addrs (get_dinode (sample_view (IBLOCK 1)) (dip 1) sample_inode)) k =? 0)
      (seqZ 0 13) = true) as H by by vm_compute.
    rewrite forallb_forall in H. cbn [i_addrs sample_inode]. rewrite aget_empty.
    apply Z.eqb_eq, H, list_elem_of_In, elem_of_seqZ.
    unfold NDIRECT in Hk. lia.
Qed.

Lemma sample_supply : supply 20 sample_view 1.
Proof.
  exists {[5]}. split; [by rewrite size_singleton|]. intros b ->%elem_of_singleton. by vm_compute.
Qed.

Lemma sample_opened i n : (n ≤ 8)%nat → ∃ T0 s, opened sample_fs T0 20 1 ∅ s sample_view ∅ n i.
Proof.
  intros Hn. destruct (sample_trans n Hn) as (T0 & s & Ht).
  by exists T0, (Ino s released (<[1 - 1 := i]> ∅)).
Qed.

(** Three bytes at the start of the empty file take one block. *)
Lemma sample_cost : write_cost sample_view sample_inode 0 3 = 3%nat
  ∧ write_need sample_view sample_inode 0 3 = 1%nat.
Proof. by vm_compute. Qed.

Lemma inode_write_correct_witness :
  ∃ T0 s s' V' i', opened sample_fs T0 20 1 ∅ s sample_view ∅ 4 sample_inode
    ∧ inode_write 0 1 [7; 8; 9] 0 3 s = Ok (3, s') ∧ i_size i' = 3
    ∧ file_byte V' i' 1 = 8 ∧ updated 20 sample_view sample_inode 0 [7; 8; 9] V' i'.
Proof.
  destruct (sample_opened sample_inode 4 ltac:(lia)) as (T0 & s & Ho). destruct sample_cost as [Ec En].
  destruct (inode_write_correct 0 sample_fs T0 20 1 ∅ ltac:(lia) s sample_view sample_inode 0 [7; 8; 9])
    as (s' & V' & i' & E & _ & Hu).
  - cbn [length]. change (Z.of_nat 3) with 3. rewrite Ec. exact Ho.
  - exact sample_file.
  - discriminate.
  - cbn [length]. change (Z.of_nat 3) with 3. rewrite En. exact sample_supply.
  - by vm_compute.
  - by vm_compute.
  - exists T0, s, s', V', i'. split; [exact Ho|]. split; [exact E|].
    split; [by rewrite (up_size _ _ _ _ _ _ _ Hu)|]. split; [|exact Hu].
    by rewrite (up_bytes _ _ _ _ _ _ _ Hu 1).
Defined.

Lemma inode_read_correct_witness :
  ∃ T0 s s', opened sample_fs T0 20 1 ∅ s sample_view ∅ 0 sample_inode
    ∧ inode_read 0 1 0 10 s = Ok ((0, []), s') ∧ inode_read 0 1 1 10 s = Ok ((-1, []), s).
Proof.
  destruct (sample_opened sample_inode 0 ltac:(lia)) as (T0 & s & Ho).
  destruct (inode_read_correct 0 sample_fs T0 20 1 ∅ ltac:(lia) s sample_view 0 sample_inode 0 10 Ho
    sample_view_map (fi_ok _ _ _ sample_file) eq_refl ltac:(discriminate) ltac:(by vm_compute)
    ltac:(by vm_compute)) as (s' & E & _).
  exists T0, s, s'. split; [exact Ho|]. split; [exact E|].
  exact (inode_read_correct 0 sample_fs T0 20 1 ∅ ltac:(lia) s sample_view 0 sample_inode 1 10 Ho
    sample_view_map (fi_ok _ _ _ sample_file) eq_refl ltac:(discriminate) ltac:(by vm_compute)
    ltac:(by vm_compute)).
Defined.

Lemma write_read_roundtrip_witness :
  ∃ T0 s s', opened sample_fs T0 20 1 ∅ s sample_view ∅ 4 sample_inode
    ∧ (_ ← inode_write 0 1 [7; 8; 9] 0 3; inode_read 0 1 0 3) s = Ok ((3, [7; 8; 9]), s').
Proof.
  destruct (sample_opened sample_inode 4 ltac:(lia)) as (T0 & s & Ho). destruct sample_cost as [Ec En].
  destruct (write_read_roundtrip 0 sample_fs T0 20 1 ∅ ltac:(lia) s sample_view sample_inode 0 [7; 8; 9])
    as (s' & E).
  - cbn [length]. change (Z.of_nat 3) with 3. rewrite Ec. exact Ho.
  - exact sample_file.
  - discriminate.
  - cbn [length]. change (Z.of_nat 3) with 3. rewrite En. exact sample_supply.
  - by vm_compute.
  - by vm_compute.
  - exists T0, s, s'. split; [exact Ho|exact E].
Defined.
