(* ===== verification/Dir.v ===== *)
(** * Directories and path lookup (kern/fs/dir.c, kern/fs/path.c)

    A directory is a file of 16-byte entries: an inode number and a name. *)

From S2P Require Import Prelude Memory Strings Resume Spinlock PhysMap Pmm Container PageTable.
From S2P Require Import Isolation UserCopy Tcb TQueue Thread Signal Ipc Bufcache Log Block Inode.
From S2P Require Import Contents.

Definition ROOTINO : Z := 1.

(** [struct dirent], by its bytes. *)
Definition DE_SIZE : Z := 16.
Definition de_inum (de : list Z) : Z := nth 0 de 0 + 256 * nth 1 de 0.
Definition de_name (de : list Z) : list Z := drop 2 de.
Definition make_de (inum : Z) (name : list Z) : list Z :=
  [byte_of inum 0; byte_of inum 1] ++ strncpy name (Z.to_nat DIRSIZ).

Definition dir_namecmp (s t : list Z) : Z := strncmp s t (Z.to_nat DIRSIZ).

Section Dir.
Context `{B : BufLayout} (ip_addr : Z → Z) (junk : Z).

(** [inode_read] of one entry, with the panic when it is short. *)
Definition read_de (dp off : Z) (msg : string) : M ino (list Z) :=
  r ← inode_read junk dp off DE_SIZE;
  if negb (u32 r.1 =? DE_SIZE) then fail (Panic msg) else mret r.2.

(** The loop of [dir_lookup] from [off] on: the inode and its offset. *)
Fixpoint lookup_scan (fuel : nat) (dp : Z) (name : list Z) (off : Z) : M ino (Z * Z) :=
  size ← ip_get i_size dp;
  if off <? size then
    match fuel with
    | O => fail OutOfFuel
    | S fuel =>
      de ← read_de dp off "wrong in dir_lookup";
      if de_inum de =? 0 then lookup_scan fuel dp name (off + DE_SIZE)
      else if dir_namecmp (de_name de) name =? 0 then
        dev ← ip_get i_dev dp;
        ip ← inode_get dev (de_inum de);
        mret (ip, off)
      else lookup_scan fuel dp name (off + DE_SIZE)
    end
  else mret (0, 0).

(** One turn per entry. *)
Definition dir_fuel (size : Z) : nat := Z.to_nat (size / DE_SIZE + 1).

Definition dir_lookup (dp : Z) (name : list Z) : M ino (Z * Z) :=
  type ← ip_get i_type dp;
  _ ← (if negb (type =? T_DIR) then fail (Panic "dir_lookup not DIR") else mret tt);
  size ← ip_get i_size dp;
  lookup_scan (dir_fuel size) dp name 0.

(** The loop of [dir_link]: the offset of a free entry, or the end. *)
Fixpoint free_scan (fuel : nat) (dp off : Z) : M ino Z :=
  size ← ip_get i_size dp;
  if off <? size then
    match fuel with
    | O => fail OutOfFuel
    | S fuel =>
      de ← read_de dp off "entry size read is not correct, dir_link";
      if de_inum de =? 0 then mret off else free_scan fuel dp (off + DE_SIZE)
    end
  else mret off.

Definition dir_link (dp : Z) (name : list Z) (inum : Z) : M ino Z :=
  r ← dir_lookup dp name;
  if negb (r.1 =? 0) then _ ← inode_put ip_addr r.1; mret (-1)
  else
    size ← ip_get i_size dp;
    off ← free_scan (dir_fuel size) dp 0;
    w ← inode_write junk dp (make_de inum name) off DE_SIZE;
    if negb (u32 w =? DE_SIZE) then fail (Panic "entry size write is not corrent, dir_link")
    else mret 0.

(** ** path.c *)

Definition threads {A} (m : M thr A) : M ino A := cached (lift l_o_ipc (lift l_i_thr m)).

(** The loop of [namex]; [name] is the buffer of the caller. *)
Fixpoint namex_loop (fuel : nat) (ip : Z) (path name : list Z) (nameiparent : bool)
    : M ino (Z * list Z) :=
  match skipelem path with
  | None =>
    if nameiparent then _ ← inode_put ip_addr ip; mret (0, name) else mret (ip, name)
  | Some (name, path) =>
    match fuel with
    | O => fail OutOfFuel
    | S fuel =>
      _ ← inode_lock ip;
      type ← ip_get i_type ip;
      if negb (type =? T_DIR) then _ ← inode_unlockput ip_addr ip; mret (0, name)
      else if nameiparent && (deref path =? NUL) then _ ← inode_unlock ip_addr ip; mret (ip, name)
      else
        r ← dir_lookup ip name;
        if r.1 =? 0 then _ ← inode_unlockput ip_addr ip; mret (0, name)
        else
          _ ← inode_unlockput ip_addr ip;
          namex_loop fuel r.1 path name nameiparent
    end
  end.

(** The inode, zero for none, and the last element.  A path has at most as many
    elements as characters. *)
Definition namex (path : list Z) (nameiparent : bool) (name : list Z) : M ino (Z * list Z) :=
  ip ← (if deref path =? SLASH then inode_get ROOTDEV ROOTINO
        else
          pid ← threads get_curid;
          cwd ← threads (tcb_get_cwd pid);
          inode_dup cwd);
  namex_loop (length path) ip path name nameiparent.

Definition namei (path : list Z) : M ino Z := r ← namex path false []; mret r.1.

Definition nameiparent (path : list Z) : M ino (Z * list Z) := namex path true [].
End Dir.

(** ** Directories as maps *)

(** The entry at [off]. *)
Definition entry (V : Z → block) (i : inode) (off : Z) : list Z := file_byte V i <$> seqZ off DE_SIZE.

(** The first of [n] entries from [off] on with [p]. *)
Fixpoint find_entry (p : Z → bool) (off : Z) (n : nat) : option Z :=
  match n with
  | O => None
  | S n => if p off then Some off else find_entry p (off + DE_SIZE) n
  end.

Definition is_named (V : Z → block) (i : inode) (name : list Z) (off : Z) : bool :=
  negb (de_inum (entry V i off) =? 0) && (dir_namecmp (de_name (entry V i off)) name =? 0).
Definition is_unused (V : Z → block) (i : inode) (off : Z) : bool := de_inum (entry V i off) =? 0.
Definition dir_count (i : inode) : nat := Z.to_nat (i_size i / DE_SIZE).

(** Where [name] is, and where a new entry goes. *)
Definition dir_find (V : Z → block) (i : inode) (name : list Z) : option Z :=
  find_entry (is_named V i name) 0 (dir_count i).
Definition dir_slot (V : Z → block) (i : inode) : Z :=
  default (i_size i) (find_entry (is_unused V i) 0 (dir_count i)).

Lemma find_entry_ext p q off n :
  (∀ k, 0 ≤ k < Z.of_nat n → p (off + DE_SIZE * k) = q (off + DE_SIZE * k)) →
  find_entry p off n = find_entry q off n.
Proof.
  revert off. induction n as [|n IH]; intros off H; cbn [find_entry]; [done|].
  specialize (H 0 ltac:(lia)) as H0. rewrite Z.mul_0_r, Z.add_0_r in H0. rewrite H0.
  case_match; [done|]. apply IH. intros k Hk. replace (off + DE_SIZE + DE_SIZE * k) with (off + DE_SIZE * (k + 1)) by lia.
  apply H. lia.
Qed.

Lemma find_entry_app p off n k :
  find_entry p off (n + k) =
  match find_entry p off n with
  | Some o => Some o
  | None => find_entry p (off + DE_SIZE * Z.of_nat n) k
  end.
Proof.
  revert off. induction n as [|n IH]; intros off; cbn [find_entry Nat.add].
  - by rewrite Z.mul_0_r, Z.add_0_r.
  - case_match; [done|]. rewrite IH. case_match; [done|]. f_equal. lia.
Qed.

Lemma find_entry_Some p off n o :
  find_entry p off n = Some o →
  p o = true ∧ ∃ k, 0 ≤ k < Z.of_nat n ∧ o = off + DE_SIZE * k
    ∧ ∀ j, 0 ≤ j < k → p (off + DE_SIZE * j) = false.
Proof.
  revert off. induction n as [|n IH]; intros off; cbn [find_entry]; [done|].
  destruct (p off) eqn:E.
  - intros [= <-]. split; [done|]. exists 0. split_and!; [lia|lia|lia|]. intros j Hj. lia.
  - intros (Hp & k & Hk & -> & Hj)%IH. split; [done|]. exists (k + 1). split_and!; [lia|lia|lia|].
    intros j Hj'. destruct (decide (j = 0)) as [-> |]; [by rewrite Z.mul_0_r, Z.add_0_r|].
    replace (off + DE_SIZE * j) with (off + DE_SIZE + DE_SIZE * (j - 1)) by lia. apply Hj. lia.
Qed.

Lemma find_entry_None p off n :
  find_entry p off n = None ↔ ∀ k, 0 ≤ k < Z.of_nat n → p (off + DE_SIZE * k) = false.
Proof.
  revert off. induction n as [|n IH]; intros off; cbn [find_entry]; [split; [lia|done]|].
  destruct (p off) eqn:E.
  - split; [done|]. intros H. specialize (H 0 ltac:(lia)). rewrite Z.mul_0_r, Z.add_0_r in H. congruence.
  - rewrite IH. split; intros H k Hk.
    + destruct (decide (k = 0)) as [-> |]; [by rewrite Z.mul_0_r, Z.add_0_r|].
      replace (off + DE_SIZE * k) with (off + DE_SIZE + DE_SIZE * (k - 1)) by lia. apply H. lia.
    + replace (off + DE_SIZE + DE_SIZE * k) with (off + DE_SIZE * (k + 1)) by lia. apply H. lia.
Qed.

Lemma find_entry_first p off n k :
  0 ≤ k < Z.of_nat n → (∀ j, 0 ≤ j < k → p (off + DE_SIZE * j) = false) →
  p (off + DE_SIZE * k) = true → find_entry p off n = Some (off + DE_SIZE * k).
Proof.
  intros Hk Hlow Hp. destruct (find_entry p off n) as [o|] eqn:E.
  - apply find_entry_Some in E as (Ho & j & Hj & -> & Hmin). do 2 f_equal.
    destruct (Z.lt_trichotomy j k) as [H|[H|H]]; [|by subst|].
    + rewrite Hlow in Ho by lia. done.
    + rewrite Hmin in Hp by lia. done.
  - rewrite find_entry_None in E. rewrite E in Hp by done. done.
Qed.

(** Names are compared by their first fourteen characters. *)
Definition same_name (a b : list Z) : Prop :=
  take (Z.to_nat DIRSIZ) (cstr a) = take (Z.to_nat DIRSIZ) (cstr b).

#[export] Instance same_name_dec a b : Decision (same_name a b).
Proof. unfold same_name. apply _. Defined.

Lemma make_de_length inum name : length (make_de inum name) = 16%nat.
Proof. unfold make_de. rewrite length_app, strncpy_length. done. Qed.

Lemma make_de_bytes inum name : Forall is_byte name → Forall is_byte (make_de inum name).
Proof.
  intros Hn. unfold make_de. apply Forall_app. split; [|by apply strncpy_bytes].
  repeat constructor; apply byte_of_range.
Qed.

Lemma make_de_inum inum name : 0 ≤ inum < 65536 → de_inum (make_de inum name) = inum.
Proof.
  intros Hi. unfold de_inum, make_de. cbn [app nth]. rewrite !byte_of_div by lia.
  change (2 ^ (8 * 0)) with 1. change (2 ^ (8 * 1)) with 256. rewrite Z.div_1_r.
  Z.to_euclidean_division_equations. lia.
Qed.

Lemma make_de_name inum a b :
  Forall is_byte a → Forall is_byte b →
  dir_namecmp (de_name (make_de inum a)) b = 0 ↔ same_name a b.
Proof.
  intros Ha Hb. unfold dir_namecmp, de_name, make_de. cbn [app drop].
  rewrite strncmp_spec by (done || by apply strncpy_bytes). rewrite drop_0, cstr_strncpy, take_take, Nat.min_id. done.
Qed.

(** A directory: whole entries. *)
Record dir_ok (start : Z) (V : Z → block) (i : inode) : Prop := {
  do_map : fs_map V start;
  do_file : file_ok start V i;
  do_dev : i_dev i = ROOTDEV;
  do_type : i_type i = T_DIR;
  do_size : i_size i = DE_SIZE * Z.of_nat (dir_count i)
}.

Section Lookup.
Context `{B : BufLayout} (junk : Z) (D : dmap) (T0 : list (Z * Z * block)) (start : Z).
Context (ip : Z) (m : gmap Z inode) (Hip : 0 < ip).
Implicit Types (s : ino) (V : Z → block) (i : inode) (r : nat) (name : list Z).

Abbreviation dir_opened := (opened D T0 start ip m).

Section Scan.
Context V i r (Hd : dir_ok start V i).

Lemma wp_read_de s off msg Q :
  dir_opened s V ∅ r i → 0 ≤ off → off + DE_SIZE ≤ i_size i →
  (∀ s', dir_opened s' V ∅ r i → Q (entry V i off) s') → wp (read_de junk ip off msg) Q s.
Proof.
  intros Ho Hoff Hsz HQ. destruct Hd as [Hfs Hok Hdev Hty Hsize]. unfold read_de. apply wp_bind.
  pose proof (fo_size _ _ _ Hok) as Hmax. unfold MAXFILE, BSIZE, NDIRECT, NINDIRECT, DE_SIZE in *.
  eapply wp_inode_read; [exact Hip|exact Ho|done|done|done|by rewrite Hty|lia|lia|unfold two32; lia|].
  intros s1 k Ho1. assert (k = 16) as -> by (unfold k; lia). by apply wp_ret, HQ.
Qed.

Lemma wp_lookup_scan name fuel n off s Q :
  dir_opened s V ∅ r i → 0 ≤ off → i_size i = off + DE_SIZE * Z.of_nat n → (n ≤ fuel)%nat →
  match find_entry (is_named V i name) off n with
  | None => ∀ s', dir_opened s' V ∅ r i → Q (0, 0) s'
  | Some o => ∀ s', dir_opened s' V ∅ r i →
      wp (x ← inode_get (i_dev i) (de_inum (entry V i o)); mret (x, o)) Q s'
  end →
  wp (lookup_scan junk fuel ip name off) Q s.
Proof.
  revert n off s. induction fuel as [|fuel IH]; intros n off s Ho Hoff Hsz Hf HQ; cbn [lookup_scan];
    apply wp_bind; (eapply wp_i_get; [exact Hip|exact Ho|]); unfold DE_SIZE in Hsz.
  - replace n with 0%nat in * by lia. destruct (Z.ltb_spec off (i_size i)); [lia|]. by apply wp_ret, HQ.
  - destruct n as [|n]; destruct (Z.ltb_spec off (i_size i)); try lia; [by apply wp_ret, HQ|].
    apply wp_bind. eapply wp_read_de; [exact Ho|done|unfold DE_SIZE; lia|]. intros s1 Ho1.
    cbn [find_entry] in HQ. unfold is_named at 1 in HQ.
    destruct (de_inum (entry V i off) =? 0); cbn [negb andb] in HQ.
    { eapply (IH n); [exact Ho1|unfold DE_SIZE; lia|unfold DE_SIZE; lia|lia|done]. }
    destruct (dir_namecmp (de_name (entry V i off)) name =? 0).
    + apply wp_bind. eapply wp_i_get; [exact Hip|exact Ho1|]. by apply HQ.
    + eapply (IH n); [exact Ho1|unfold DE_SIZE; lia|unfold DE_SIZE; lia|lia|done].
Qed.

Lemma wp_dir_lookup name s Q :
  dir_opened s V ∅ r i →
  match dir_find V i name with
  | None => ∀ s', dir_opened s' V ∅ r i → Q (0, 0) s'
  | Some o => ∀ s', dir_opened s' V ∅ r i →
      wp (x ← inode_get (i_dev i) (de_inum (entry V i o)); mret (x, o)) Q s'
  end →
  wp (dir_lookup junk ip name) Q s.
Proof.
  intros Ho HQ. pose proof Hd as [Hfs Hok Hdev Hty Hsize]. unfold dir_lookup.
  apply wp_bind. eapply wp_i_get; [exact Hip|exact Ho|]. rewrite Hty. apply wp_bind, wp_ret, wp_bind.
  eapply wp_i_get; [exact Hip|exact Ho|].
  eapply (wp_lookup_scan name _ (dir_count i)); [exact Ho|done|lia|unfold dir_fuel, dir_count; lia|done].
Qed.

Lemma wp_free_scan fuel n off s Q :
  dir_opened s V ∅ r i → 0 ≤ off → i_size i = off + DE_SIZE * Z.of_nat n → (n ≤ fuel)%nat →
  (∀ s', dir_opened s' V ∅ r i → Q (default (i_size i) (find_entry (is_unused V i) off n)) s') →
  wp (free_scan junk fuel ip off) Q s.
Proof.
  revert n off s. induction fuel as [|fuel IH]; intros n off s Ho Hoff Hsz Hf HQ; cbn [free_scan];
    apply wp_bind; (eapply wp_i_get; [exact Hip|exact Ho|]); unfold DE_SIZE in Hsz.
  - replace n with 0%nat in * by lia. destruct (Z.ltb_spec off (i_size i)); [lia|]. apply wp_ret.
    replace off with (i_size i) by lia. by apply HQ.
  - destruct n as [|n]; destruct (Z.ltb_spec off (i_size i)); try lia.
    { apply wp_ret. replace off with (i_size i) by lia. by apply HQ. }
    apply wp_bind. eapply wp_read_de; [exact Ho|done|unfold DE_SIZE; lia|]. intros s1 Ho1.
    cbn [find_entry] in HQ. unfold is_unused at 1 in HQ.
    destruct (de_inum (entry V i off) =? 0); [by apply wp_ret, HQ|].
    eapply (IH n); [exact Ho1|unfold DE_SIZE; lia|unfold DE_SIZE; lia|lia|done].
Qed.
End Scan.
End Lookup.

(** *** Adding an entry *)

Section Link.
Context (start : Z) (V : Z → block) (i : inode) (Hd : dir_ok start V i).
Context (name : list Z) (inum : Z) (Hname : Forall is_byte name) (Hinum : 0 < inum < 65536).
Context (V' : Z → block) (i' : inode) (Hu : updated start V i (dir_slot V i) (make_de inum name) V' i').
Context (Hmax : dir_slot V i + DE_SIZE ≤ MAXFILE * BSIZE).

Lemma slot_place : ∃ k, 0 ≤ k ≤ Z.of_nat (dir_count i) ∧ dir_slot V i = DE_SIZE * k
  ∧ (k < Z.of_nat (dir_count i) → is_unused V i (dir_slot V i) = true).
Proof.
  unfold dir_slot. destruct (find_entry (is_unused V i) 0 (dir_count i)) as [o|] eqn:E; unfold default, id.
  - apply find_entry_Some in E as (Hp & k & Hk & -> & _). exists k. split_and!; [lia..|done].
  - exists (Z.of_nat (dir_count i)). split_and!; [lia|lia|apply (do_size _ _ _ Hd)|lia].
Qed.

Lemma link_entry k : 0 ≤ k ≤ Z.of_nat (dir_count i) → DE_SIZE * k ≤ dir_slot V i ∨ k < Z.of_nat (dir_count i) →
  entry V' i' (DE_SIZE * k) = if decide (DE_SIZE * k = dir_slot V i) then make_de inum name
                              else entry V i (DE_SIZE * k).
Proof.
  intros Hk Hb. destruct slot_place as (k0 & Hk0 & E0 & _). pose proof (do_size _ _ _ Hd) as Hs.
  pose proof (fo_size _ _ _ (do_file _ _ _ Hd)) as Hz. unfold entry.
  pose proof (make_de_length inum name) as Hl.
  assert (∀ p, DE_SIZE * k ≤ p < DE_SIZE * k + DE_SIZE → file_byte V' i' p =
    if decide (DE_SIZE * k = dir_slot V i) then nth (Z.to_nat (p - DE_SIZE * k)) (make_de inum name) 0
    else file_byte V i p) as Hp.
  { intros p Hp. unfold DE_SIZE in *. rewrite (up_bytes _ _ _ _ _ _ _ Hu) by lia. rewrite Hl.
    case_decide as H1; case_decide as H2; try (done || lia). rewrite H2.
    apply u8_byte, Forall_nth; [by apply make_de_bytes|]. rewrite Hl. lia. }
  case_decide as E.
  - apply list_eq. intros x. rewrite list_lookup_fmap. destruct (decide (x < 16)%nat) as [Hx|Hx].
    + rewrite lookup_seqZ_lt by (unfold DE_SIZE; lia). cbn [fmap option_fmap option_map].
      rewrite Hp by (unfold DE_SIZE; lia). replace (Z.to_nat _) with x by lia.
      destruct (lookup_lt_is_Some_2 (make_de inum name) x ltac:(lia)) as [v Ev]. by rewrite nth_lookup, Ev.
    + rewrite lookup_seqZ_ge by (unfold DE_SIZE; lia). by rewrite lookup_ge_None_2 by lia.
  - apply list_fmap_ext. intros x y Hy. apply lookup_seqZ in Hy as [-> Hy]. rewrite Hp by lia. done.
Qed.

Lemma link_named k b : Forall is_byte b → 0 ≤ k ≤ Z.of_nat (dir_count i) →
  DE_SIZE * k ≤ dir_slot V i ∨ k < Z.of_nat (dir_count i) →
  is_named V' i' b (DE_SIZE * k) =
  if decide (DE_SIZE * k = dir_slot V i) then bool_decide (same_name name b)
  else is_named V i b (DE_SIZE * k).
Proof.
  intros Hb Hk Hr. unfold is_named. rewrite link_entry by done. case_decide; [|done].
  rewrite make_de_inum by lia. destruct (Z.eqb_spec inum 0); [lia|]. cbn [negb andb].
  apply Bool.eq_iff_eq_true. rewrite Z.eqb_eq, bool_decide_eq_true. by apply make_de_name.
Qed.

Lemma link_count : dir_count i' =
  if decide (dir_slot V i = i_size i) then S (dir_count i) else dir_count i.
Proof.
  destruct slot_place as (k & Hk & E & _). pose proof (do_size _ _ _ Hd) as Hs.
  unfold dir_count at 1. rewrite (up_size _ _ _ _ _ _ _ Hu), make_de_length. unfold DE_SIZE in *.
  case_decide as H.
  - rewrite Z.max_r by lia. rewrite H, Hs.
    replace (16 * Z.of_nat (dir_count i) + Z.of_nat 16) with ((Z.of_nat (dir_count i) + 1) * 16) by lia.
    rewrite Z.div_mul by done. lia.
  - rewrite Z.max_l by lia. done.
Qed.

Lemma link_find : dir_find V i name = None → dir_find V' i' name = Some (dir_slot V i).
Proof.
  intros Hn. unfold dir_find in Hn. rewrite find_entry_None in Hn.
  destruct slot_place as (k & Hk & E & _). pose proof (do_size _ _ _ Hd) as Hs. unfold dir_find. rewrite E.
  pose proof (find_entry_first (is_named V' i' name) 0 (dir_count i') k) as Hfirst.
  rewrite !Z.add_0_l in Hfirst. apply Hfirst.
  - rewrite link_count. unfold DE_SIZE in *. case_decide; lia.
  - intros j Hj. rewrite Z.add_0_l, link_named by (done || unfold DE_SIZE in *; lia).
    rewrite decide_False by (unfold DE_SIZE in *; lia). rewrite <- (Z.add_0_l (DE_SIZE * j)). apply Hn. lia.
  - rewrite link_named by (done || unfold DE_SIZE in *; lia). rewrite decide_True by done.
    by apply bool_decide_eq_true.
Qed.

Lemma link_find_other b : Forall is_byte b → ¬ same_name name b → dir_find V' i' b = dir_find V i b.
Proof.
  intros Hb Hne. destruct slot_place as (k0 & Hk0 & E & Hun). pose proof (do_size _ _ _ Hd) as Hs.
  assert (find_entry (is_named V' i' b) 0 (dir_count i) = dir_find V i b) as Hold.
  { apply find_entry_ext. intros k Hk. rewrite Z.add_0_l, link_named by (done || lia).
    case_decide as Hk'; [|done]. rewrite bool_decide_false by done. symmetry. rewrite Hk'.
    unfold is_named. unfold is_unused in Hun. rewrite Hun; [done|]. unfold DE_SIZE in *. lia. }
  unfold dir_find at 1. rewrite link_count. case_decide as H; [|done].
  replace (S (dir_count i)) with (dir_count i + 1)%nat by lia. rewrite find_entry_app, Hold.
  destruct (dir_find V i b); [done|]. cbn [find_entry]. rewrite Z.add_0_l.
  rewrite link_named by (done || lia). rewrite decide_True by lia. by rewrite bool_decide_false.
Qed.
End Link.

Section Links.
Context `{B : BufLayout} (ip_addr : Z → Z) (junk : Z) (D : dmap) (T0 : list (Z * Z * block)) (start : Z).
Context (ip : Z) (m : gmap Z inode) (Hip : 0 < ip).

Lemma wp_dir_link s V i name inum Q :
  let off := dir_slot V i in
  opened D T0 start ip m s V ∅ (S (write_cost V i off DE_SIZE)) i →
  file_inv start V i → dir_ok start V i → supply start V (write_need V i off DE_SIZE) →
  off + DE_SIZE ≤ MAXFILE * BSIZE → dir_find V i name = None →
  (∀ s' V' i', opened D T0 start ip m s' V' ∅ 0 i' → updated start V i off (make_de inum name) V' i' →
     Q 0 s') →
  wp (dir_link ip_addr junk ip name inum) Q s.
Proof.
  intros off Ho Hinv Hd Hsup Hmax Hn HQ. unfold dir_link. apply wp_bind.
  eapply wp_dir_lookup; [exact Hip|exact Hd|exact Ho|]. rewrite Hn. intros s1 Ho1. cbn [fst Z.eqb negb].
  apply wp_bind. eapply wp_i_get; [exact Hip|exact Ho1|]. apply wp_bind.
  eapply (wp_free_scan junk D T0 start ip m Hip V i _ Hd _ (dir_count i)); [exact Ho1|done| | |].
  { by rewrite Z.add_0_l, <- (do_size _ _ _ Hd). }
  { unfold dir_fuel, dir_count. lia. }
  intros s2 Ho2. fold (dir_slot V i). fold off. apply wp_bind.
  change DE_SIZE with (Z.of_nat 16). rewrite <- (make_de_length inum name).
  assert (Z.of_nat (length (make_de inum name)) = DE_SIZE) as El by by rewrite make_de_length.
  eapply wp_inode_write; [exact Hip|rewrite El; exact Ho2|done|by rewrite (do_type _ _ _ Hd)|by rewrite El| |by rewrite El|].
  { destruct (slot_place start V i Hd) as (k & Hk & E & _). pose proof (do_size _ _ _ Hd).
    unfold off. rewrite E. unfold DE_SIZE in *. lia. }
  intros s3 V' i' Ho3 Hu. rewrite El. apply wp_ret. by eapply HQ.
Qed.

(** Giving back a reference [inode_get] has just handed out. *)
Lemma wp_inode_put_got s c dev inum x Q :
  unlocked (ic_lock s) → 1 ≤ x ≤ NINODE → got c dev inum x (inodes s) →
  (∀ s', n_lgs s' = n_lgs s → unlocked (ic_lock s') → Q tt s') →
  wp (inode_put ip_addr x) Q s.
Proof.
  intros Hl Hx Hg HQ. unfold inode_put. wp_steps. wp_lock. unfold ip_get.
  destruct (Z.eqb_spec x 0); [lia|]. wp_steps.
  change (ip_of (lset l_ic_lock locked s) x) with (aget (inodes s) (x - 1)). unfold id.
  assert ((i_ref (aget (inodes s) (x - 1)) =? 1) && flag I_VALID (i_flags (aget (inodes s) (x - 1))) = false) as ->.
  { destruct (decide (caches c dev inum (x - 1))) as [Hc|Hc].
    - rewrite (gt_cached _ _ _ _ _ Hg Hc). destruct Hc as (_ & Hr & _). cbn [i_ref set_i_ref set_i_ident].
      by destruct (Z.eqb_spec (i_ref (aget c (x - 1)) + 1) 1); [lia|].
    - destruct (gt_new _ _ _ _ _ Hg Hc) as [_ ->]. done. }
  cbn [andb]. wp_steps. unfold ip_upd. destruct (Z.eqb_spec x 0); [lia|]. wp_steps. wp_lock. by apply HQ.
Qed.

(** ** Properties *)

(** C24: inside a transaction [dir_lookup] finds the first used entry with the
    name, compared by fourteen characters, and returns its offset and a
    reference to its inode, taken in the inode cache without disturbing it; when
    there is none it returns null and changes nothing. *)
Theorem dir_lookup_correct s V (r : nat) i name :
  opened D T0 start ip m s V ∅ r i → dir_ok start V i → cache_ok (inodes s) →
  (∃ k, 0 ≤ k < NINODE ∧ i_ref (aget (inodes s) k) = 0) →
  match dir_find V i name with
  | None => ∃ s', dir_lookup junk ip name s = Ok ((0, 0), s') ∧ opened D T0 start ip m s' V ∅ r i
  | Some off => ∃ x s', dir_lookup junk ip name s = Ok ((x, off), s') ∧ 1 ≤ x ≤ NINODE
      ∧ got (inodes s) ROOTDEV (de_inum (entry V i off)) x (inodes s')
      ∧ trans D T0 start (n_lgs s') V ∅ r ∧ unlocked (ic_lock s')
  end.
Proof.
  intros Ho Hd Hc (k & Hk & H0). pose proof Ho as (_ & Em & _).
  pose proof (wp_dir_lookup junk D T0 start ip m Hip V i r Hd name s) as Hw.
  destruct (dir_find V i name) as [off|].
  - destruct (wp_run (dir_lookup junk ip name) (λ a s', a.2 = off ∧ 1 ≤ a.1 ≤ NINODE
      ∧ got (inodes s) ROOTDEV (de_inum (entry V i off)) a.1 (inodes s')
      ∧ trans D T0 start (n_lgs s') V ∅ r ∧ unlocked (ic_lock s')) s) as ([x o] & s' & E & Eo & H).
    + apply Hw; [done|]. intros s1 (Ht1 & Em1 & Hl1). apply wp_bind. rewrite (do_dev _ _ _ Hd).
      rewrite <- Em1 in Em. apply wp_inode_get; [done|by rewrite <- Em|exists k; rewrite <- Em; auto|].
      intros x s2 Hx Hg Hn Hl2. apply wp_ret. cbn [fst snd]. rewrite Hn, Em. done.
    + cbn in Eo. subst o. by exists x, s'.
  - destruct (wp_run_val (dir_lookup junk ip name) (0, 0) (λ s', opened D T0 start ip m s' V ∅ r i) s)
      as (s' & E & H); [by apply Hw|by exists s'].
Qed.

(** C11: inside a transaction [dir_link] adds the name to the directory: looking it
    up then finds the new entry with the inode number given, and every other name
    is found where it was, or not, as before.  A name that is already there is
    refused, and the contents of the disk stay as they were. *)
Theorem dir_link_correct s V i name inum :
  let off := dir_slot V i in
  opened D T0 start ip m s V ∅ (S (write_cost V i off DE_SIZE)) i →
  file_inv start V i → dir_ok start V i → supply start V (write_need V i off DE_SIZE) →
  off + DE_SIZE ≤ MAXFILE * BSIZE → Forall is_byte name → 0 < inum < 65536 →
  cache_ok (inodes s) → (∃ k, 0 ≤ k < NINODE ∧ i_ref (aget (inodes s) k) = 0) →
  match dir_find V i name with
  | Some _ => ∃ s', dir_link ip_addr junk ip name inum s = Ok (-1, s')
      ∧ trans D T0 start (n_lgs s') V ∅ (S (write_cost V i off DE_SIZE))
  | None => ∃ s' V' i', dir_link ip_addr junk ip name inum s = Ok (0, s')
      ∧ opened D T0 start ip m s' V' ∅ 0 i' ∧ file_inv start V' i'
      ∧ dir_find V' i' name = Some off ∧ de_inum (entry V' i' off) = inum
      ∧ ∀ b, Forall is_byte b → ¬ same_name name b → dir_find V' i' b = dir_find V i b
  end.
Proof.
  intros off Ho Hinv Hd Hsup Hmax Hname Hinum Hc (k & Hk & H0). pose proof Ho as (_ & Em & _).
  destruct (dir_find V i name) as [o|] eqn:Hf.
  - eapply wp_run_val. unfold dir_link. apply wp_bind. eapply wp_dir_lookup; [exact Hip|exact Hd|exact Ho|].
    rewrite Hf. intros s1 (Ht1 & Em1 & Hl1). apply wp_bind. rewrite <- Em1 in Em.
    apply wp_inode_get; [done|by rewrite <- Em|exists k; rewrite <- Em; auto|].
    intros x s2 Hx Hg Hn Hl2. apply wp_ret. cbn [fst]. destruct (Z.eqb_spec x 0); [lia|]. apply wp_bind.
    eapply wp_inode_put_got; [done|done|exact Hg|]. intros s3 Hn3 Hl3. apply wp_ret.
    split; [done|]. by rewrite Hn3, Hn.
  - destruct (wp_run (dir_link ip_addr junk ip name inum) (λ a s', a = 0 ∧ ∃ V' i',
      opened D T0 start ip m s' V' ∅ 0 i' ∧ updated start V i off (make_de inum name) V' i') s)
      as (a & s' & E & -> & V' & i' & Ho' & Hu).
    { eapply wp_dir_link; [exact Ho|done..|]. intros s' V' i' Ho' Hu. split; [done|]. by exists V', i'. }
    exists s', V', i'. split; [done|]. split; [done|]. split; [apply Hu|]. split; [by eapply link_find|].
    split; [|intros b Hb Hne; by eapply link_find_other; [exact Hd|exact Hname|exact Hinum|exact Hu|..]].
    destruct (slot_place start V i Hd) as (j & Hj & Ej & _). unfold off. rewrite Ej.
    rewrite (link_entry start V i Hd name inum) by (done || lia). rewrite decide_True by lia.
    apply make_de_inum. lia.
Qed.
End Links.

(** ** A concrete directory *)

#[local] Existing Instance sample_layout.
#[local] Existing Instance sample_stack.
#[local] Existing Instance sample_ipc_layout.
#[local] Existing Instance sample_buf_layout.

(** Inode two of [sample_fs]. *)
Definition sample_dir : inode := Inode ROOTDEV 2 1 I_VALID T_DIR 0 0 1 16 {[0 := 6]}.

Lemma sample_dir_block k : file_block sample_view sample_dir k = if decide (k = 0) then 6 else 0.
Proof.
  unfold file_block. cbn [i_addrs sample_dir]. unfold aget. rewrite !lookup_singleton.
  rewrite (decide_False (P := 0 = NDIRECT)) by done. cbn [default Z.eqb].
  destruct (decide (k = 0)) as [-> |]; [done|]. rewrite decide_False by auto. by repeat case_match.
Qed.

Lemma sample_dir_file : file_inv 20 sample_view sample_dir.
Proof.
  split; [exact sample_view_map| |by vm_compute|by vm_compute| |done].
  - split.
    + intros k _. rewrite sample_dir_block. case_decide; [|done]. intros _.
      split; [done|]. split; [|by vm_compute]. intros b Hb.
      assert (sb_size (decode_superblock (sample_view 1)) = 30) as E by by vm_compute. rewrite E in Hb.
      unfold bmap_of, BBLOCK. rewrite (Z.div_small b) by (unfold BPB, BSIZE; lia). by vm_compute.
    + intros j k _ _. rewrite !sample_dir_block. repeat case_decide; congruence.
    + intros k Hk. cbn [i_size sample_dir]. rewrite sample_dir_block. unfold BSIZE. intros H.
      by rewrite decide_True by lia.
    + by vm_compute.
  - unfold stored, agrees. split_and!; [by vm_compute..|]. intros k Hk.
    assert (forallb (λ k, aget (i_addrs (get_dinode (sample_view (IBLOCK 2)) (dip 2) sample_dir)) k
      =? aget (i_addrs sample_dir) k) (seqZ 0 13) = true) as H by by vm_compute.
    rewrite forallb_forall in H. apply Z.eqb_eq, H, list_elem_of_In, elem_of_seqZ.
    unfold NDIRECT in Hk. lia.
Qed.

Lemma sample_dir_ok : dir_ok 20 sample_view sample_dir.
Proof. split; [exact sample_view_map|apply (fi_ok _ _ _ sample_dir_file)|done|done|by vm_compute]. Qed.

(** The cache with [sample_dir] in its first slot. *)
Lemma sample_cache_ok : cache_ok (<[1 - 1 := sample_dir]> ∅) ∧
  ∃ k, 0 ≤ k < NINODE ∧ i_ref (aget (<[1 - 1 := sample_dir]> (∅ : gmap Z inode)) k) = 0.
Proof.
  assert (∀ k, k ≠ 0 → aget (<[1 - 1 := sample_dir]> (∅ : gmap Z inode)) k = zero) as H.
  { intros k Hk. by rewrite aget_ne, aget_empty by done. }
  assert (∀ d i k, caches (<[1 - 1 := sample_dir]> ∅) d i k → k = 0) as H0.
  { intros d i k (_ & Hr & _). destruct (decide (k = 0)); [done|]. rewrite H in Hr by done. done. }
  split; [|exists 1; by rewrite H]. split.
  - intros d i j k ->%H0 ->%H0. done.
  - intros k Hk. destruct (decide (k = 0)) as [-> |]; [by vm_compute|]. by rewrite H.
Qed.

Lemma dir_lookup_correct_witness :
  ∃ T0 s x s' s'', opened sample_fs T0 20 1 ∅ s sample_view ∅ 2 sample_dir
    ∧ dir_lookup 0 1 [97] s = Ok ((x, 0), s') ∧ i_inum (ip_of s' x) = 3
    ∧ dir_lookup 0 1 [98] s = Ok ((0, 0), s'').
Proof.
  destruct (sample_opened sample_dir 2 ltac:(lia)) as (T0 & s & Ho). pose proof Ho as (_ & Em & _).
  destruct sample_cache_ok as [Hc Hk]. rewrite <- Em in Hc, Hk.
  pose proof (dir_lookup_correct 0 sample_fs T0 20 1 ∅ ltac:(lia) s sample_view 2 sample_dir [97]
    Ho sample_dir_ok Hc Hk) as Ha.
  pose proof (dir_lookup_correct 0 sample_fs T0 20 1 ∅ ltac:(lia) s sample_view 2 sample_dir [98]
    Ho sample_dir_ok Hc Hk) as Hb.
  assert (dir_find sample_view sample_dir [97] = Some 0) as E1 by by vm_compute.
  assert (dir_find sample_view sample_dir [98] = None) as E2 by by vm_compute.
  assert (de_inum (entry sample_view sample_dir 0) = 3) as E3 by by vm_compute.
  rewrite E1 in Ha. rewrite E2 in Hb. destruct Ha as (x & s' & Ea & Hx & Hg & _). destruct Hb as (s'' & Eb & _).
  exists T0, s, x, s', s''. split; [exact Ho|]. split; [exact Ea|]. split; [|exact Eb].
  rewrite <- E3. apply (gt_slot _ _ _ _ _ Hg).
Defined.

Lemma dir_link_correct_witness :
  ∃ T0 s s' V' i', opened sample_fs T0 20 1 ∅ s sample_view ∅ 2 sample_dir
    ∧ dir_link (λ _, 0) 0 1 [98] 4 s = Ok (0, s')
    ∧ dir_find V' i' [98] = Some 16 ∧ de_inum (entry V' i' 16) = 4 ∧ dir_find V' i' [97] = Some 0.
Proof.
  destruct (sample_opened sample_dir 2 ltac:(lia)) as (T0 & s & Ho). pose proof Ho as (_ & Em & _).
  destruct sample_cache_ok as [Hc Hk]. rewrite <- Em in Hc, Hk.
  assert (dir_slot sample_view sample_dir = 16) as Es by by vm_compute.
  assert (write_cost sample_view sample_dir 16 DE_SIZE = 1%nat) as Ec by by vm_compute.
  assert (write_need sample_view sample_dir 16 DE_SIZE = 0%nat) as En by by vm_compute.
  assert (dir_find sample_view sample_dir [98] = None) as E2 by by vm_compute.
  pose proof (dir_link_correct (λ _, 0) 0 sample_fs T0 20 1 ∅ ltac:(lia) s sample_view sample_dir [98] 4)
    as Hl. cbv zeta in Hl. rewrite Es, Ec, En, E2 in Hl.
  destruct Hl as (s' & V' & i' & E & _ & _ & Hf & Hi & Hother).
  - exact Ho.
  - exact sample_dir_file.
  - exact sample_dir_ok.
  - exists ∅. split; [lia|]. intros b Hb. set_solver.
  - by vm_compute.
  - repeat constructor; lia.
  - lia.
  - exact Hc.
  - exact Hk.
  - exists T0, s, s', V', i'. split; [exact Ho|]. split; [exact E|]. split; [exact Hf|]. split; [exact Hi|].
    rewrite Hother; [by vm_compute|repeat constructor; lia|by vm_compute].
Defined.
