(* ===== verification/Mkfs.v ===== *)
(** * The disk image (kern/fs/mkfs.c)

    The tool that lays out the file system the kernel mounts.  The image is the
    sequence of its sectors.  The theorem shows that what it writes is a file
    system in the sense of the theorems about the kernel: the maps are
    consistent, the log is empty, and every file can be read back through the
    inodes and the root directory. *)

From Stdlib Require Import FunctionalExtensionality.
From stdpp Require Import functions.
From S2P Require Import Prelude Memory Strings Resume Spinlock PhysMap Pmm Container PageTable.
From S2P Require Import Isolation UserCopy Tcb TQueue Thread Signal Ipc Bufcache Log Block Inode.
From S2P Require Import Contents Dir.

Definition nblocks : Z := 985.
Definition nlog : Z := LOGSIZE.
Definition ninodes : Z := 200.
Definition fs_size : Z := 1024.

(** The sectors of the image file and their number, and the statics. *)
Record mkfs := Mkfs {
  img : gmap Z block;
  img_len : Z;
  freeblock : Z;
  usedblocks : Z;
  freeinode : Z
}.

Definition start_mkfs : mkfs := Mkfs ∅ 0 0 0 1.

(** The bytes of the result are those of the argument, lowest first; on a
    little-endian host this is the value itself. *)
Definition xshort (x : Z) : Z := byte_of x 0 + 256 * byte_of x 1.
Definition xint (x : Z) : Z :=
  byte_of x 0 + 256 * byte_of x 1 + 65536 * byte_of x 2 + 16777216 * byte_of x 3.

(** Writing past the end makes the file longer, reading there gives less than a
    sector and ends the program. *)
Definition wsect (sec : Z) (buf : block) : M mkfs unit :=
  modify (λ s, Mkfs (<[sec := buf]> (img s)) (Z.max (img_len s) (sec + 1))
    (freeblock s) (usedblocks s) (freeinode s)).
Definition rsect (sec : Z) : M mkfs block :=
  len ← gets img_len;
  if sec <? len then gets (λ s, aget (img s) sec) else fail (Panic "read").

Definition i2b (inum : Z) : Z := u32 (inum / IPB + 2).

(** A [struct dinode] is an inode of which only the fields on disk count. *)
Definition dinode0 (inum : Z) : inode := Inode ROOTDEV inum 0 0 0 0 0 0 0 ∅.

Definition winode (inum : Z) (ip : inode) : M mkfs unit :=
  buf ← rsect (i2b inum);
  wsect (i2b inum) (put_dinode buf (dip inum) ip).
Definition rinode (inum : Z) : M mkfs inode :=
  buf ← rsect (i2b inum);
  mret (get_dinode buf (dip inum) (dinode0 inum)).

Definition ialloc (type : Z) : M mkfs Z :=
  inum ← gets freeinode;
  _ ← modify (λ s, Mkfs (img s) (img_len s) (freeblock s) (usedblocks s) (u32 (freeinode s + 1)));
  _ ← winode inum (set_i_meta (xshort type) 0 0 (xshort 1) (xint 0) (dinode0 inum));
  mret inum.

(** The loop of [balloc] from [i] on. *)
Fixpoint set_bits (n : nat) (i : Z) (buf : block) : block :=
  match n with
  | O => buf
  | S n => set_bits n (i + 1) (write8 buf (i / 8) (Z.lor (read8 buf (i / 8)) (Z.shiftl 1 (i mod 8))))
  end.

Definition balloc (used : Z) : M mkfs unit :=
  _ ← kassert (used <? 512 * 8) "used < 512*8";
  wsect (ninodes / IPB + 3) (set_bits (Z.to_nat used) 0 ∅).

(** [freeblock++; usedblocks++] *)
Definition take_block : M mkfs Z :=
  b ← gets freeblock;
  _ ← modify (λ s, Mkfs (img s) (img_len s) (u32 (freeblock s + 1)) (u32 (usedblocks s + 1))
        (freeinode s));
  mret b.

(** A slot of [din.addrs], filled on demand. *)
Definition fill_slot (slot : Z) (din : inode) : M mkfs inode :=
  if xint (aget (i_addrs din) slot) =? 0 then
    b ← take_block; mret (set_i_addrs (<[slot := xint b]> (i_addrs din)) din)
  else mret din.

(** An entry of the indirect block in sector [a], filled on demand. *)
Definition fill_entry (a fbn : Z) (indirect : block) : M mkfs block :=
  if read32 indirect (4 * (fbn - NDIRECT)) =? 0 then
    b ← take_block;
    let indirect := write32 indirect (4 * (fbn - NDIRECT)) (xint b) in
    _ ← wsect a indirect;
    mret indirect
  else mret indirect.

(** The sector [x] of block [fbn] of the file. *)
Definition block_at (fbn : Z) (din : inode) : M mkfs (Z * inode) :=
  if fbn <? NDIRECT then
    din ← fill_slot fbn din;
    mret (xint (aget (i_addrs din) fbn), din)
  else
    din ← fill_slot NDIRECT din;
    let a := xint (aget (i_addrs din) NDIRECT) in
    indirect ← rsect a;
    indirect ← fill_entry a fbn indirect;
    mret (xint (read32 indirect (4 * (fbn - NDIRECT))), din).

(** The loop of [iappend] on the bytes [p] that are left. *)
Fixpoint append_loop (fuel : nat) (din : inode) (off : Z) (p : list Z) : M mkfs (inode * Z) :=
  let n := Z.of_nat (length p) in
  if 0 <? n then
    match fuel with
    | O => fail OutOfFuel
    | S fuel =>
      let fbn := off / 512 in
      _ ← kassert (fbn <? MAXFILE) "fbn < MAXFILE";
      r ← block_at fbn din;
      let n1 := Z.min n ((fbn + 1) * 512 - off) in
      buf ← rsect r.1;
      _ ← wsect r.1 (write_bytes buf (off - fbn * 512) (take (Z.to_nat n1) p));
      append_loop fuel r.2 (u32 (off + n1)) (drop (Z.to_nat n1) p)
    end
  else mret (din, off).

Definition iappend (inum : Z) (p : list Z) : M mkfs unit :=
  din ← rinode inum;
  r ← append_loop (length p) din (xint (i_size din)) p;
  winode inum (set_i_size (xint r.2) r.1).

(** A directory entry: [bzero], the inode number, and the name cut or padded. *)
Definition host_de (inum : Z) (name : list Z) : list Z :=
  [byte_of (xshort inum) 0; byte_of (xshort inum) 1] ++ strncpy name (Z.to_nat DIRSIZ).

(** [while ((cc = read(fd, buf, sizeof(buf))) > 0) iappend(inum, buf, cc)] *)
Fixpoint copy_file (fuel : nat) (inum : Z) (bytes : list Z) : M mkfs unit :=
  match bytes with
  | [] => mret tt
  | _ =>
    match fuel with
    | O => fail OutOfFuel
    | S fuel => _ ← iappend inum (take 512 bytes); copy_file fuel inum (drop 512 bytes)
    end
  end.

(** [if (argv[i][0] == '_') ++argv[i]] *)
Definition strip (name : list Z) : list Z := if deref name =? 95 then tl name else name.

(** One turn of the loop over the arguments: a name, and the bytes of the file if
    it can be opened. *)
Definition add_file (rootino : Z) (arg : list Z * option (list Z)) : M mkfs unit :=
  _ ← kassert (negb (existsb (Z.eqb SLASH) (cstr arg.1))) "index(argv[i], '/') == 0";
  bytes ← match arg.2 with Some bytes => mret bytes | None => fail (Panic "open") end;
  inum ← ialloc T_FILE;
  _ ← iappend rootino (host_de inum (strip arg.1));
  copy_file (length bytes) inum bytes.

Fixpoint add_files (rootino : Z) (args : list (list Z * option (list Z))) : M mkfs unit :=
  match args with
  | [] => mret tt
  | arg :: args => _ ← add_file rootino arg; add_files rootino args
  end.

Definition sb_sector : block :=
  write32 (write32 (write32 (write32 ∅ 0 (xint fs_size)) 4 (xint nblocks)) 8 (xint ninodes)) 12
    (xint nlog).

Definition main (args : list (list Z * option (list Z))) : M mkfs unit :=
  let bitblocks := fs_size / (512 * 8) + 1 in
  let used := ninodes / IPB + 3 + bitblocks in
  _ ← modify (λ s, Mkfs (img s) (img_len s) used used (freeinode s));
  _ ← kassert (nblocks + used + nlog =? fs_size) "nblocks + usedblocks + nlog == size";
  _ ← for_range 0 (nblocks + used + nlog) (λ i, wsect i ∅);
  _ ← wsect 1 sb_sector;
  rootino ← ialloc T_DIR;
  _ ← kassert (rootino =? ROOTINO) "rootino == ROOTINO";
  _ ← iappend rootino (host_de rootino [46]);
  _ ← iappend rootino (host_de rootino [46; 46]);
  _ ← add_files rootino args;
  din ← rinode rootino;
  let off := (xint (i_size din) / BSIZE + 1) * BSIZE in
  _ ← winode rootino (set_i_size (xint off) din);
  used ← gets usedblocks;
  balloc used.

(** ** The image as a file system *)

Lemma xint_u32 x : xint x = u32 x.
Proof. apply bytes_of_word. Qed.

Lemma xint_small x : is_u32 x → xint x = x.
Proof. intros. rewrite xint_u32. by apply u32_small. Qed.

(** Where the log is: its blocks are the last of the disk. *)
Definition log_start : Z := fs_size - nlog.

Definition fs_super : superblock := Superblock fs_size nblocks ninodes nlog.

(** The bitmap [balloc] would write now. *)
Definition bitmap_now (used : Z) : block := set_bits (Z.to_nat used) 0 ∅.
Definition view_now (s : mkfs) : Z → block :=
  <[28 := bitmap_now (usedblocks s)]> (λ sec, aget (img s) sec).

(** What holds of the image from the first inode on: blocks are taken in order,
    and those not taken yet are zero. *)
Record laid (s : mkfs) : Prop := {
  la_len : img_len s = fs_size;
  la_used : usedblocks s = freeblock s;
  la_free : 29 ≤ freeblock s ≤ log_start;
  la_super : decode_superblock (aget (img s) 1) = fs_super;
  la_zero b x : freeblock s ≤ b → 0 ≤ x < BSIZE → read8 (aget (img s) b) x = 0
}.

Lemma set_bits_free n i d k :
  0 ≤ i → i + Z.of_nat n ≤ BPB → 0 ≤ k →
  bit_free (set_bits n i d) k = bit_free d k && negb (bool_decide (i ≤ k < i + Z.of_nat n)).
Proof.
  revert i d. induction n as [|n IH]; intros i d Hi Hn Hk; cbn [set_bits].
  { rewrite bool_decide_false, andb_true_r by lia. done. }
  rewrite IH by lia.
  replace (write8 d (i / 8) (Z.lor (read8 d (i / 8)) (Z.shiftl 1 (i mod 8)))) with (mark_used i d).
  2:{ unfold mark_used, bit_mask. by rewrite (Z.mod_small i BPB) by lia. }
  rewrite free_mark_used, (Z.mod_small i BPB) by lia.
  rewrite <- andb_assoc, <- bool_decide_not, <- !bool_decide_not, <- bool_decide_and. f_equal.
  apply bool_decide_ext. lia.
Qed.

Lemma bmap_28 b : 0 ≤ b < fs_size → bmap_of fs_super b = 28.
Proof.
  intros Hb. unfold bmap_of, BBLOCK, fs_size in *. rewrite (Z.div_small b) by (unfold BPB, BSIZE; lia).
  by vm_compute.
Qed.

Section Laid.
Context (s : mkfs) (Hs : laid s).

Lemma view_super : decode_superblock (view_now s 1) = fs_super.
Proof. unfold view_now. rewrite fn_lookup_insert_ne by done. apply (la_super _ Hs). Qed.

Lemma view_img x : x ≠ 28 → view_now s x = aget (img s) x.
Proof. intros. unfold view_now. by rewrite fn_lookup_insert_ne. Qed.

Lemma view_free b : 0 ≤ b < fs_size → is_free (view_now s) fs_super b = bool_decide (freeblock s ≤ b).
Proof.
  intros Hb. pose proof (la_free _ Hs). unfold log_start, fs_size, nlog, LOGSIZE in *.
  unfold is_free. rewrite bmap_28 by done. unfold view_now. rewrite fn_lookup_insert, (la_used _ Hs).
  rewrite Z.mod_small by (unfold BPB, BSIZE; lia). unfold bitmap_now.
  rewrite set_bits_free by (unfold BPB, BSIZE; lia). rewrite Z2Nat.id, Z.add_0_l by lia.
  rewrite <- bool_decide_not. change (bit_free ∅ b) with true. cbn [andb]. apply bool_decide_ext. lia.
Qed.

Lemma laid_map : fs_map (view_now s) log_start.
Proof.
  pose proof (la_free _ Hs) as Hf. split; rewrite view_super.
  - by vm_compute.
  - by vm_compute.
  - by vm_compute.
  - intros b Hb. by rewrite bmap_28.
  - intros b x Hb. rewrite bmap_28 by done. intros Hx. cbn [sb_size fs_super] in Hb.
    rewrite view_free by (unfold fs_size; lia). apply bool_decide_eq_false. lia.
Qed.
End Laid.

(** ** Taking blocks *)

Definition taken (s : mkfs) : mkfs :=
  Mkfs (img s) (img_len s) (freeblock s + 1) (usedblocks s + 1) (freeinode s).

Lemma taken_laid s : laid s → freeblock s < log_start → laid (taken s).
Proof.
  intros [H1 H2 H3 H4 H5] Hlt. split; cbn; [done|lia|lia|done|]. intros b x Hb. apply H5. lia.
Qed.

Lemma taken_allocated s :
  laid s → freeblock s < log_start →
  allocated (view_now s) log_start (view_now (taken s)) (freeblock s).
Proof.
  intros Hs Hlt. pose proof (taken_laid s Hs Hlt) as Ht. pose proof (la_free _ Hs) as Hf.
  split.
  - intros x Hx. rewrite view_img by lia. by apply (la_zero _ Hs).
  - rewrite view_super by done. intros j Hj. rewrite !view_free by done.
    rewrite <- bool_decide_and. apply bool_decide_ext. cbn. lia.
  - rewrite view_super by done. intros x Hx Hb. rewrite bmap_28 in Hb.
    2:{ unfold log_start, fs_size, nlog, LOGSIZE in *. lia. }
    by rewrite !view_img by done.
  - by apply laid_map.
Qed.

Lemma wp_take_block s Q :
  laid s → freeblock s < log_start → Q (freeblock s) (taken s) → wp take_block Q s.
Proof.
  intros Hs Hlt HQ. pose proof (la_free _ Hs) as Hf. pose proof (la_used _ Hs) as Hu.
  unfold log_start, fs_size, nlog, LOGSIZE in *.
  unfold take_block. wp_steps. unfold taken in HQ.
  by rewrite !u32_small by (unfold is_u32, two32; lia).
Qed.

Lemma wp_rsect s sec Q :
  laid s → sec < fs_size → Q (aget (img s) sec) s → wp (rsect sec) Q s.
Proof.
  intros Hs Hsec HQ. unfold rsect. wp_steps. pose proof (la_len _ Hs).
  destruct (Z.ltb_spec sec (img_len s)); [|lia]. by wp_steps.
Qed.

(** Writing a sector that is in use. *)
Definition stored_at (sec : Z) (d : block) (s : mkfs) : mkfs :=
  Mkfs (<[sec := d]> (img s)) (img_len s) (freeblock s) (usedblocks s) (freeinode s).

Lemma wp_wsect s sec d Q :
  laid s → sec < fs_size → Q tt (stored_at sec d s) → wp (wsect sec d) Q s.
Proof.
  intros Hs Hsec HQ. unfold wsect. wp_steps. unfold stored_at in HQ. pose proof (la_len _ Hs).
  by rewrite Z.max_l by lia.
Qed.

Lemma stored_laid s sec d : laid s → 1 < sec < freeblock s → laid (stored_at sec d s).
Proof.
  intros [H1 H2 H3 H4 H5] Hsec. split; cbn; [done|done|done| |].
  - by rewrite aget_ne by lia.
  - intros b x Hb. rewrite aget_ne by lia. by apply H5.
Qed.

Lemma stored_view s sec d :
  sec ≠ 28 → view_now (stored_at sec d s) = <[sec := d]> (view_now s).
Proof.
  intros Hsec. apply functional_extensionality. intros x. unfold view_now, stored_at. cbn [img usedblocks].
  destruct (decide (x = 28)) as [-> |Hx].
  - by rewrite fn_lookup_insert, fn_lookup_insert_ne, fn_lookup_insert by done.
  - rewrite fn_lookup_insert_ne by done. destruct (decide (x = sec)) as [-> |].
    + by rewrite aget_eq, fn_lookup_insert.
    + by rewrite aget_ne, !fn_lookup_insert_ne by done.
Qed.

(** ** The block of a file at an offset *)

Abbreviation mk_ok s i := (file_ok log_start (view_now s) i).

Lemma block_u32 s i k : laid s → mk_ok s i → 0 ≤ k ≤ MAXFILE → is_u32 (file_block (view_now s) i k).
Proof.
  intros Hs Hok Hk. destruct (block_data _ _ _ Hok k Hk) as [-> |Hd]; [by vm_compute|].
  pose proof (data_range _ _ (laid_map s Hs) _ Hd) as Hr.
  unfold log_start, fs_size, nlog, LOGSIZE in Hr. unfold is_u32, two32. lia.
Qed.

(** The blocks in use lie below the next one to be taken. *)
Lemma block_sector s i k :
  laid s → mk_ok s i → 0 ≤ k ≤ MAXFILE → file_block (view_now s) i k ≠ 0 →
  28 < file_block (view_now s) i k < freeblock s.
Proof.
  intros Hs Hok Hk Hn. pose proof (fo_data _ _ _ Hok k Hk Hn) as Hd. pose proof (laid_map s Hs) as Hm.
  pose proof (data_range _ _ Hm _ Hd) as Hr. pose proof (la_free _ Hs) as Hf.
  destruct Hd as (_ & Hb & Hu). rewrite (view_super s Hs) in Hb, Hu, Hr.
  specialize (Hb 0 ltac:(done)). rewrite bmap_28 in Hb by done. split; [done|].
  rewrite view_free, bool_decide_eq_false in Hu by (cbn in Hr; unfold log_start, fs_size in *; lia || done).
  lia.
Qed.

Section Block_at.
Context (s : mkfs) (i : inode) (Hs : laid s) (Hok : mk_ok s i).
Let V := view_now s.

Definition slot_of (slot k : Z) : Prop := 0 ≤ k < NDIRECT ∧ slot = k ∨ k = MAXFILE ∧ slot = NDIRECT.

Lemma slot_block slot k : slot_of slot k → aget (i_addrs i) slot = file_block V i k.
Proof.
  unfold file_block. intros [[Hk ->]|[-> ->]]; [|done]. by destruct (Z.ltb_spec k NDIRECT); [|lia].
Qed.

Lemma slot_range slot k : slot_of slot k → 0 ≤ k ≤ MAXFILE.
Proof. unfold slot_of, MAXFILE, NDIRECT, NINDIRECT. lia. Qed.

Lemma wp_fill_slot slot k Q :
  slot_of slot k → (file_block V i k = 0 → freeblock s < log_start) →
  (file_block V i k ≠ 0 → Q i s) →
  (file_block V i k = 0 → ∀ i', i' = set_i_addrs (<[slot := freeblock s]> (i_addrs i)) i →
     grown log_start V i k (freeblock s) (view_now (taken s)) i' → Q i' (taken s)) →
  wp (fill_slot slot i) Q s.
Proof.
  intros Hk Hroom Hold Hnew. unfold fill_slot. rewrite (slot_block slot k) by done.
  rewrite xint_small by (by apply block_u32, (slot_range slot)).
  destruct (Z.eqb_spec (file_block V i k) 0) as [E|E]; [|apply wp_ret; by apply Hold].
  apply wp_bind, wp_take_block; [done|by apply Hroom|]. apply wp_ret.
  pose proof (la_free _ Hs) as Hf. unfold log_start, fs_size, nlog, LOGSIZE in Hf.
  rewrite xint_small by (unfold is_u32, two32; lia). apply Hnew; [done|done|].
  specialize (Hroom E). apply grow_slot; [by apply laid_map|done|lia| |by apply taken_allocated|done|].
  - unfold V. rewrite view_super, view_free by (unfold log_start, fs_size, nlog, LOGSIZE in *; done || lia).
    by apply bool_decide_eq_true.
  - by rewrite (slot_block slot k).
Qed.
End Block_at.

(** Block [k] of the file is there, after at most one more block was taken. *)
Record filled (s : mkfs) (i : inode) (k : Z) (s' : mkfs) (i' : inode) : Prop := {
  fl_laid : laid s';
  fl_ext : extends log_start (view_now s) i (view_now s') i';
  fl_bytes p : 0 ≤ p < MAXFILE * BSIZE →
    file_byte (view_now s') i' p = file_byte (view_now s) i p;
  fl_there : file_block (view_now s') i' k ≠ 0;
  fl_other j : 0 ≤ j ≤ MAXFILE → j ≠ k →
    file_block (view_now s') i' j = file_block (view_now s) i j;
  fl_free : freeblock s' = freeblock s + cbool (file_block (view_now s) i k =? 0);
  fl_inode : freeinode s' = freeinode s
}.

Lemma filled_refl s i k :
  laid s → mk_ok s i → file_block (view_now s) i k ≠ 0 → filled s i k s i.
Proof.
  intros Hs Hok Hn. split; try done.
  - by apply extends_refl, laid_map.
  - destruct (Z.eqb_spec (file_block (view_now s) i k) 0); cbn; [done|lia].
Qed.

Lemma filled_grown s i k s' i' :
  laid s → mk_ok s i → 0 ≤ k ≤ MAXFILE → laid s' →
  grown log_start (view_now s) i k (freeblock s) (view_now s') i' →
  freeblock s' = freeblock s + 1 → freeinode s' = freeinode s → filled s i k s' i'.
Proof.
  intros Hs Hok Hk Hs' G Hf Hi. pose proof (laid_map s Hs) as Hm. pose proof (la_free _ Hs).
  split; [done| | | | |by rewrite (gr_old _ _ _ _ _ _ _ G)|done].
  - by eapply grown_extends.
  - intros p Hp. by eapply grown_bytes.
  - rewrite (gr_block _ _ _ _ _ _ _ G), decide_True by done. lia.
  - intros j Hj Hne. by rewrite (gr_block _ _ _ _ _ _ _ G), decide_False by done.
Qed.

Lemma filled_slot s i slot k Q :
  laid s → mk_ok s i → slot_of slot k →
  (file_block (view_now s) i k = 0 → freeblock s < log_start) →
  (∀ s' i', filled s i k s' i' → aget (i_addrs i') slot = file_block (view_now s') i' k → Q i' s') →
  wp (fill_slot slot i) Q s.
Proof.
  intros Hs Hok Hk Hroom HQ. apply (wp_fill_slot s i Hs Hok slot k); [done|done| |].
  - intros Hn. apply HQ; [by apply filled_refl|by apply slot_block].
  - intros E i' Ei G. apply HQ; [|by apply slot_block].
    apply filled_grown; [done|done|by apply (slot_range slot)|apply taken_laid; auto|done|done|done].
Qed.

Lemma wp_fill_entry s i fbn Q :
  let a := file_block (view_now s) i MAXFILE in
  laid s → mk_ok s i → NDIRECT ≤ fbn < MAXFILE → a ≠ 0 →
  (file_block (view_now s) i fbn = 0 → freeblock s < log_start) →
  (∀ s' d, filled s i fbn s' i → read32 d (4 * (fbn - NDIRECT)) = file_block (view_now s') i fbn → Q d s') →
  wp (fill_entry a fbn (aget (img s) a)) Q s.
Proof.
  intros a Hs Hok Hk Ha Hroom HQ. pose proof (block_sector s i MAXFILE Hs Hok ltac:(done) Ha) as Hr.
  fold a in Hr. pose proof (la_free _ Hs) as Hf.
  assert (file_block (view_now s) i fbn = read32 (aget (img s) a) (4 * (fbn - NDIRECT))) as E.
  { rewrite indirect_block by done. fold a. by rewrite view_img by lia. }
  unfold fill_entry. rewrite <- E. destruct (Z.eqb_spec (file_block (view_now s) i fbn) 0) as [E0|E0].
  2:{ apply wp_ret, HQ; [by apply filled_refl|done]. }
  specialize (Hroom E0). apply wp_bind, wp_take_block; [done|done|].
  pose proof (taken_laid s Hs Hroom) as Ht. apply wp_bind, wp_wsect; [done| |].
  { unfold log_start, fs_size, nlog, LOGSIZE in *. lia. }
  apply wp_ret. unfold log_start, fs_size, nlog, LOGSIZE in Hf.
  rewrite xint_small by (unfold is_u32, two32; lia). set (d := write32 _ _ _).
  assert (grown log_start (view_now s) i fbn (freeblock s) (view_now (stored_at a d (taken s))) i) as G.
  { rewrite stored_view by lia. unfold d. rewrite <- (view_img s a) by lia.
    apply grow_entry; [by apply laid_map|done|lia| |by apply taken_allocated|done|done|done].
    rewrite view_super, view_free by (unfold fs_size; done || lia). by apply bool_decide_eq_true. }
  apply HQ.
  - apply filled_grown; [done|done|unfold NDIRECT in *; lia| |done|done|done].
    apply stored_laid; [done|cbn; lia].
  - rewrite (gr_block _ _ _ _ _ _ _ G), decide_True by (done || unfold NDIRECT in *; lia).
    unfold d. rewrite read32_write32_eq, u32_small by (unfold is_u32, two32; lia). done.
Qed.

(** ** Appending *)

(** The blocks of a file of [off] bytes are those it needs. *)
Definition tight (V : Z → block) (i : inode) (off : Z) : Prop :=
  (∀ k, 0 ≤ k < MAXFILE → (file_block V i k = 0 ↔ off ≤ k * BSIZE))
  ∧ (file_block V i MAXFILE = 0 ↔ off ≤ NDIRECT * BSIZE).

(** Their number, with the indirect block. *)
Definition blocks_of (off : Z) : Z :=
  let k := (off + (BSIZE - 1)) / BSIZE in k + cbool (NDIRECT <? k).

Lemma blocks_step off n :
  0 ≤ off → 0 < n → off mod BSIZE + n ≤ BSIZE →
  let f := off / BSIZE in
  blocks_of (off + n) = f + 1 + cbool (NDIRECT <=? f)
  ∧ blocks_of off = if off =? f * BSIZE then f + cbool (NDIRECT <? f)
                    else f + 1 + cbool (NDIRECT <=? f).
Proof.
  intros Ho Hn Hm f. unfold f, blocks_of, BSIZE, NDIRECT in *.
  assert ((off + n + (512 - 1)) / 512 = off / 512 + 1) as ->.
  { Z.to_euclidean_division_equations. lia. }
  split; [f_equal; f_equal; case_cmp; case_cmp; lia || done|].
  destruct (Z.eqb_spec off (off / 512 * 512)) as [E|E].
  - assert ((off + (512 - 1)) / 512 = off / 512) as ->; [|done].
    Z.to_euclidean_division_equations. lia.
  - assert ((off + (512 - 1)) / 512 = off / 512 + 1) as ->.
    { Z.to_euclidean_division_equations. lia. }
    f_equal; f_equal; case_cmp; case_cmp; lia || done.
Qed.

(** Room for [n] more bytes at the end of the file has been made. *)
Record made_room (s : mkfs) (i : inode) (off n : Z) (s' : mkfs) (i' : inode) : Prop := {
  mr_laid : laid s';
  mr_ext : extends log_start (view_now s) i (view_now s') i';
  mr_bytes p : 0 ≤ p < MAXFILE * BSIZE →
    file_byte (view_now s') i' p = file_byte (view_now s) i p;
  mr_tight : tight (view_now s') i' (off + n);
  mr_free : freeblock s' = freeblock s + blocks_of (off + n) - blocks_of off;
  mr_inode : freeinode s' = freeinode s
}.

Section Room.
Context (s : mkfs) (i : inode) (off n : Z) (Hs : laid s) (Hok : mk_ok s i)
  (Ht : tight (view_now s) i off) (Ho : 0 ≤ off) (Hn : 0 < n)
  (Hin : off mod BSIZE + n ≤ BSIZE) (Hmax : off + n ≤ MAXFILE * BSIZE)
  (Hroom : freeblock s + blocks_of (off + n) - blocks_of off ≤ log_start).
Let f := off / BSIZE.

Lemma room_place : 0 ≤ f < MAXFILE ∧ f * BSIZE ≤ off < (f + 1) * BSIZE.
Proof.
  unfold f. pose proof (block_range off ltac:(lia)).
  pose proof (Z.div_mod off BSIZE ltac:(done)). pose proof (Z.mod_pos_bound off BSIZE ltac:(done)). lia.
Qed.

(** The blocks after making room, given those before. *)
Lemma room_tight s' i' :
  file_block (view_now s') i' f ≠ 0 →
  (∀ j, 0 ≤ j < MAXFILE → j ≠ f → file_block (view_now s') i' j = file_block (view_now s) i j) →
  (file_block (view_now s') i' MAXFILE = 0 ↔ file_block (view_now s) i MAXFILE = 0 ∧ f < NDIRECT) →
  tight (view_now s') i' (off + n).
Proof.
  intros H1 H2 H3. destruct Ht as [T1 T2]. pose proof room_place as Hf.
  assert (off + n ≤ (f + 1) * BSIZE) as Hend.
  { pose proof (Z.div_mod off BSIZE ltac:(done)) as E. fold f in E. lia. }
  clearbody f. split; unfold BSIZE, NDIRECT in *.
  - intros k Hk. destruct (decide (k = f)) as [-> |Hne].
    + split; [done|]. lia.
    + rewrite H2, T1 by done. lia.
  - rewrite H3, T2. lia.
Qed.

Lemma room_direct s' i' :
  f < NDIRECT → filled s i f s' i' → made_room s i off n s' i'.
Proof.
  intros Hd [L X B T O F I]. pose proof room_place as Hf. destruct Ht as [T1 T2].
  split; [done|done|done| | |done].
  - apply room_tight; [done|intros; apply O; lia|]. rewrite O by (unfold NDIRECT, MAXFILE in *; lia). naive_solver.
  - destruct (blocks_step off n Ho Hn Hin) as [-> ->]. fold f. rewrite F. specialize (T1 f ltac:(lia)).
    destruct (Z.leb_spec NDIRECT f), (Z.ltb_spec NDIRECT f); try lia.
    destruct (Z.eqb_spec off (f * BSIZE)), (Z.eqb_spec (file_block (view_now s) i f) 0); cbn; lia.
Qed.

Lemma room_indirect s1 i1 s2 :
  NDIRECT ≤ f → filled s i MAXFILE s1 i1 → filled s1 i1 f s2 i1 → made_room s i off n s2 i1.
Proof.
  intros Hd [L1 X1 B1 T1 O1 F1 I1] [L X B T O F I]. pose proof room_place as Hf.
  pose proof Ht as [Ti T2]. split; [done|by eapply extends_trans| | | |congruence].
  - intros p Hp. by rewrite B, B1.
  - apply room_tight; [done| |].
    + intros j Hj Hne. rewrite O, O1 by lia. done.
    + rewrite O by lia. split; [done|lia].
  - destruct (blocks_step off n Ho Hn Hin) as [-> ->]. fold f. rewrite F, F1.
    rewrite O1 by lia. specialize (Ti f ltac:(lia)).
    destruct (Z.leb_spec NDIRECT f); [|lia].
    destruct (Z.eqb_spec (file_block (view_now s) i MAXFILE) 0),
      (Z.eqb_spec (file_block (view_now s) i f) 0), (Z.eqb_spec off (f * BSIZE)),
      (Z.ltb_spec NDIRECT f); unfold BSIZE, NDIRECT in *; cbn; lia.
Qed.

Lemma wp_block_at Q :
  (∀ s' i', made_room s i off n s' i' → Q (file_block (view_now s') i' f, i') s') →
  wp (block_at f i) Q s.
Proof.
  intros HQ. pose proof room_place as Hf. pose proof Ht as [Ti T2].
  destruct (blocks_step off n Ho Hn Hin) as [E1 E2]. fold f in E1, E2. rewrite E1, E2 in Hroom.
  unfold block_at. destruct (Z.ltb_spec f NDIRECT) as [Hd|Hd].
  - apply wp_bind. apply (filled_slot s i f f); [done|done|left; split; [lia|done]| |].
    { specialize (Ti f ltac:(lia)). intros E0.
      destruct (Z.leb_spec NDIRECT f), (Z.ltb_spec NDIRECT f); try lia.
      destruct (Z.eqb_spec off (f * BSIZE)); cbn in *; lia. }
    intros s' i' Hfl E. apply wp_ret. rewrite E, xint_small.
    + by apply HQ, room_direct.
    + apply block_u32; [apply Hfl|apply Hfl|lia].
  - apply wp_bind. apply (filled_slot s i NDIRECT MAXFILE); [done|done|by right| |].
    { intros E0. clearbody f. destruct (Z.leb_spec NDIRECT f), (Z.ltb_spec NDIRECT f),
        (Z.eqb_spec off (f * BSIZE)); unfold BSIZE, NDIRECT in *; cbn in *; lia. }
    intros s1 i1 H1 Ea. pose proof H1 as [L1 X1 B1 T1 O1 F1 I1].
    assert (mk_ok s1 i1) as Hok1 by apply X1.
    pose proof (block_sector s1 i1 MAXFILE L1 Hok1 ltac:(done) T1) as Hsec. pose proof (la_free _ L1) as Hf1.
    cbv zeta. rewrite Ea, xint_small by (by apply block_u32).
    apply wp_bind, wp_rsect; [done|unfold log_start, fs_size, nlog, LOGSIZE in *; lia|].
    apply wp_bind, wp_fill_entry; [done|done|lia|done| |].
    { rewrite O1 by lia. specialize (Ti f ltac:(lia)). intros E0. rewrite F1.
      clearbody f. destruct (Z.eqb_spec (file_block (view_now s) i MAXFILE) 0),
        (Z.leb_spec NDIRECT f), (Z.ltb_spec NDIRECT f), (Z.eqb_spec off (f * BSIZE));
        unfold BSIZE, NDIRECT in *; cbn in *; lia. }
    intros s2 d H2 Ed. apply wp_ret. rewrite Ed, xint_small.
    + by apply HQ, (room_indirect s1).
    + apply block_u32; [apply H2|apply H2|lia].
Qed.
End Room.

Lemma blocks_of_mono a b : a ≤ b → blocks_of a ≤ blocks_of b.
Proof.
  intros H. unfold blocks_of. pose proof (Z.div_le_mono (a + (BSIZE - 1)) (b + (BSIZE - 1)) BSIZE ltac:(done) ltac:(lia)).
  destruct (Z.ltb_spec NDIRECT ((a + (BSIZE - 1)) / BSIZE)),
    (Z.ltb_spec NDIRECT ((b + (BSIZE - 1)) / BSIZE)); cbn; lia.
Qed.

(** [src] has been appended at [off]. *)
Record appended (s : mkfs) (i : inode) (off : Z) (src : list Z) (s' : mkfs) (i' : inode) : Prop := {
  ap_laid : laid s';
  ap_wrote : wrote log_start (view_now s) i off src (view_now s') i';
  ap_tight : tight (view_now s') i' (off + Z.of_nat (length src));
  ap_free : freeblock s' = freeblock s + blocks_of (off + Z.of_nat (length src)) - blocks_of off;
  ap_inode : freeinode s' = freeinode s
}.

Lemma append_step s i off src s1 i1 :
  let k := Z.min (Z.of_nat (length src)) (BSIZE - off mod BSIZE) in
  laid s → mk_ok s i → 0 ≤ off → src ≠ [] → off + Z.of_nat (length src) ≤ MAXFILE * BSIZE →
  i_size i ≤ off → made_room s i off k s1 i1 →
  let x := file_block (view_now s1) i1 (off / BSIZE) in
  let s2 := stored_at x (write_bytes (aget (img s1) x) (off mod BSIZE) (take (Z.to_nat k) src)) s1 in
  28 < x < freeblock s1 ∧ laid s2 ∧ mk_ok s2 i1 ∧ i_size i1 ≤ off + k ∧ tight (view_now s2) i1 (off + k)
  ∧ ∀ s3 i3, appended s2 i1 (off + k) (drop (Z.to_nat k) src) s3 i3 → appended s i off src s3 i3.
Proof.
  intros k Hs Hok Ho Hne Hmax Hsz [L X B T F I] x s2.
  assert (0 < Z.of_nat (length src)) by (destruct src; cbn; [done|lia]).
  pose proof (Z.mod_pos_bound off BSIZE ltac:(done)) as Hm. pose proof (block_range off ltac:(lia)) as Hf.
  pose proof (laid_map s1 L) as M1. assert (mk_ok s1 i1) as Hok1 by apply X.
  assert (x ≠ 0) as Hx.
  { unfold x. rewrite (proj1 T) by done. pose proof (Z.div_mod off BSIZE ltac:(done)). lia. }
  pose proof (block_sector s1 i1 (off / BSIZE) L Hok1 ltac:(lia) Hx) as Hsec. fold x in Hsec.
  assert (laid s2) as L2 by (apply stored_laid; [done|lia]).
  assert (view_now s2 = <[x := write_bytes (view_now s1 x) (off mod BSIZE) (take (Z.to_nat k) src)]> (view_now s1)) as EV.
  { unfold s2. rewrite stored_view by lia. by rewrite (view_img s1) by lia. }
  assert (extends log_start (view_now s1) i1 (view_now s2) i1) as X2 by (rewrite EV; by apply write_extends).
  assert (∀ j, 0 ≤ j → file_block (view_now s2) i1 j = file_block (view_now s1) i1 j) as Eb.
  { intros j Hj. rewrite EV. by apply (write_block log_start). }
  assert (i_size i1 = i_size i) as Ez by by rewrite (ex_meta _ _ _ _ _ X).
  split; [done|]. split; [done|]. split; [apply X2|]. split; [lia|]. split.
  { destruct T as [T1 T2]. split; [intros j Hj|]; rewrite Eb by (lia || done); auto. }
  intros s3 i3 [L3 W3 T3 F3 I3].
  assert (Z.of_nat (length (drop (Z.to_nat k) src)) = Z.of_nat (length src) - k) as El
    by (rewrite length_drop; lia). rewrite El in *.
  replace (off + k + (Z.of_nat (length src) - k)) with (off + Z.of_nat (length src)) in * by lia.
  split; [done| |done|cbn in *; lia|by rewrite I3].
  eapply wrote_app; [done|done|done|by eapply extends_trans| | | |exact W3].
  - intros p Hp. rewrite EV. unfold x.
    rewrite (write_chunk log_start (view_now s1) i1 off k src p); [|done|done|done|lia|lia|lia|done|done].
    by rewrite B.
  - rewrite Eb by lia. done.
  - lia.
Qed.

Lemma appended_nil s i off :
  laid s → mk_ok s i → tight (view_now s) i off → appended s i off [] s i.
Proof.
  intros Hs Hok Ht. split; cbn [length]; rewrite ?Z.add_0_r; [done| |done|lia|done].
  apply wrote_nil; [by apply laid_map|done].
Qed.

Lemma wp_append_loop fuel s i off src Q :
  laid s → mk_ok s i → tight (view_now s) i off → 0 ≤ off → i_size i ≤ off →
  off + Z.of_nat (length src) ≤ MAXFILE * BSIZE → (length src ≤ fuel)%nat →
  freeblock s + blocks_of (off + Z.of_nat (length src)) - blocks_of off ≤ log_start →
  (∀ s' i', appended s i off src s' i' → Q (i', off + Z.of_nat (length src)) s') →
  wp (append_loop fuel i off src) Q s.
Proof.
  revert s i off src. induction fuel as [|fuel IH]; intros s i off src Hs Hok Ht Ho Hsz Hmax Hf Hroom HQ.
  all: destruct (decide (src = [])) as [-> |Hne];
    [apply wp_ret; specialize (HQ s i (appended_nil s i off Hs Hok Ht)); cbn in HQ; by rewrite Z.add_0_r in HQ|].
  { destruct src; [done|cbn in Hf; lia]. }
  assert (0 < Z.of_nat (length src)) by (destruct src; cbn; [done|lia]).
  cbn [append_loop]. destruct (Z.ltb_spec 0 (Z.of_nat (length src))); [|lia].
  change 512 with BSIZE. pose proof (block_range off ltac:(lia)) as Hb.
  pose proof (Z.mod_pos_bound off BSIZE ltac:(done)) as Hm. pose proof (Z.div_mod off BSIZE ltac:(done)) as Hd.
  set (k := Z.min (Z.of_nat (length src)) (BSIZE - off mod BSIZE)).
  replace (Z.min (Z.of_nat (length src)) ((off / BSIZE + 1) * BSIZE - off)) with k by lia.
  replace (off - off / BSIZE * BSIZE) with (off mod BSIZE) by lia.
  pose proof (blocks_of_mono (off + k) (off + Z.of_nat (length src)) ltac:(lia)) as Hmono.
  apply wp_bind. unfold kassert. destruct (Z.ltb_spec (off / BSIZE) MAXFILE); [|lia].
  apply wp_ret, wp_bind. apply (wp_block_at s i off k); [done|done|done|done|lia|lia|lia|lia|].
  intros s1 i1 Hmr. cbn [fst snd].
  destruct (append_step s i off src s1 i1 Hs Hok Ho Hne Hmax Hsz Hmr) as (Hx & L2 & Hok2 & Hsz2 & T2 & Hap).
  pose proof (mr_laid _ _ _ _ _ _ Hmr) as L1. pose proof (la_free _ L1) as Hf1.
  unfold log_start, fs_size, nlog, LOGSIZE in Hf1.
  apply wp_bind, wp_rsect; [done|unfold fs_size; lia|]. apply wp_bind, wp_wsect; [done|unfold fs_size; lia|].
  rewrite u32_small by (unfold is_u32, two32, MAXFILE, BSIZE, NDIRECT, NINDIRECT in *; lia).
  assert (Z.of_nat (length (drop (Z.to_nat k) src)) = Z.of_nat (length src) - k) as El
    by (rewrite length_drop; lia).
  apply IH; [done|done|done|lia|done|rewrite El; lia|rewrite length_drop; lia| |].
  - rewrite El. cbn [freeblock stored_at]. rewrite (mr_free _ _ _ _ _ _ Hmr).
    replace (off + k + (Z.of_nat (length src) - k)) with (off + Z.of_nat (length src)) by lia. lia.
  - intros s3 i3 H3. rewrite El.
    replace (off + k + (Z.of_nat (length src) - k)) with (off + Z.of_nat (length src)) by lia.
    by apply HQ, Hap.
Qed.

(** ** The inode table *)

Definition dinode (V : Z → block) (n : Z) : inode := get_dinode (V (IBLOCK n)) (dip n) (dinode0 n).

Lemma iblock_small n : 0 ≤ n < ninodes → 2 ≤ IBLOCK n < 28 ∧ i2b n = IBLOCK n.
Proof.
  intros Hn. unfold ninodes in *. pose proof (Z.div_pos n IPB ltac:(lia) ltac:(done)).
  assert (n / IPB < 25) by (apply Z.div_lt_upper_bound; unfold IPB; lia).
  unfold IBLOCK, i2b. rewrite u32_small by (unfold is_u32, two32; lia). lia.
Qed.

Lemma wp_rinode s n Q :
  laid s → 0 ≤ n < ninodes → Q (dinode (view_now s) n) s → wp (rinode n) Q s.
Proof.
  intros Hs Hn HQ. destruct (iblock_small n Hn) as [Hb E]. unfold rinode. rewrite E.
  apply wp_bind, wp_rsect; [done|unfold fs_size; lia|]. apply wp_ret.
  unfold dinode in HQ. by rewrite view_img in HQ by lia.
Qed.

Definition put_inode (n : Z) (i : inode) (s : mkfs) : mkfs :=
  stored_at (IBLOCK n) (put_dinode (view_now s (IBLOCK n)) (dip n) i) s.

Lemma wp_winode s n i Q :
  laid s → 0 ≤ n < ninodes → Q tt (put_inode n i s) → wp (winode n i) Q s.
Proof.
  intros Hs Hn HQ. destruct (iblock_small n Hn) as [Hb E]. unfold winode. rewrite E.
  apply wp_bind, wp_rsect; [done|unfold fs_size; lia|]. apply wp_wsect; [done|unfold fs_size; lia|].
  unfold put_inode in HQ. by rewrite view_img in HQ by lia.
Qed.

Lemma read8_write_addrs_above d a f i n x :
  a + 4 * (i + Z.of_nat n) ≤ x → read8 (write_addrs d a f i n) x = read8 d x.
Proof.
  revert d i. induction n as [|n IH]; intros d i Hx; cbn [write_addrs]; [done|].
  rewrite IH by lia. rewrite read8_write32. by rewrite decide_False by lia.
Qed.

Lemma put_dinode_outside d a i x :
  x < a ∨ a + DINODE_SIZE ≤ x → read8 (put_dinode d a i) x = read8 d x.
Proof.
  unfold DINODE_SIZE. intros Hx. unfold put_dinode.
  assert (∀ d, read8 (write_addrs d (a + 12) (λ k, aget (i_addrs i) k) 0 (Z.to_nat (NDIRECT + 1))) x = read8 d x)
    as ->.
  { intros d'. change (Z.to_nat (NDIRECT + 1)) with 13%nat.
    destruct Hx; [apply read8_write_addrs; lia|apply read8_write_addrs_above; cbn; lia]. }
  rewrite read8_write32, !read8_write16. by repeat (rewrite decide_False by lia).
Qed.

Lemma get_dinode_ext d d' a i0 :
  (∀ x, a ≤ x < a + DINODE_SIZE → read8 d' x = read8 d x) → get_dinode d' a i0 = get_dinode d a i0.
Proof.
  unfold DINODE_SIZE. intros H. unfold get_dinode, read_addrs.
  rewrite !(read16_ext d d') by (intros; apply H; lia). rewrite (read32_ext d d') by (intros; apply H; lia).
  do 2 f_equal. apply list_fmap_ext. intros k y Hy%list_elem_of_lookup_2%elem_of_seqZ.
  unfold NDIRECT in Hy. by rewrite (read32_ext d d') by (intros; apply H; lia).
Qed.

Lemma dip_apart n m : n mod IPB ≠ m mod IPB → dip n + DINODE_SIZE ≤ dip m ∨ dip m + DINODE_SIZE ≤ dip n.
Proof. intros H. unfold dip, DINODE_SIZE. lia. Qed.

Lemma iblock_inj n m :
  0 ≤ n < ninodes → 0 ≤ m < ninodes → IBLOCK n = IBLOCK m → n mod IPB = m mod IPB → n = m.
Proof.
  intros Hn Hm E Em. unfold IBLOCK, ninodes in *.
  pose proof (Z.div_mod n IPB ltac:(done)). pose proof (Z.div_mod m IPB ltac:(done)).
  assert (0 ≤ n / IPB < 25 ∧ 0 ≤ m / IPB < 25) as [? ?].
  { split; (split; [apply Z.div_pos; [lia|done]|apply Z.div_lt_upper_bound; unfold IPB; lia]). }
  rewrite !u32_small in E by (unfold is_u32, two32; lia). lia.
Qed.

Lemma put_other V n m i :
  0 ≤ n < ninodes → 0 ≤ m < ninodes → n ≠ m →
  dinode (<[IBLOCK n := put_dinode (V (IBLOCK n)) (dip n) i]> V) m = dinode V m.
Proof.
  intros Hn Hm Hne. unfold dinode. destruct (decide (IBLOCK n = IBLOCK m)) as [E|E].
  - rewrite <- E, fn_lookup_insert. apply get_dinode_ext. intros x Hx. apply put_dinode_outside.
    destruct (dip_apart n m); [|unfold DINODE_SIZE in *; lia..]. intros Em. by destruct Hne; apply iblock_inj.
  - by rewrite fn_lookup_insert_ne.
Qed.

(** ** Files that stay as they are *)

(** The blocks of the file are still there and still in use. *)
Definition kept (V V' : Z → block) (i : inode) : Prop :=
  V' 1 = V 1
  ∧ ∀ k, 0 ≤ k ≤ MAXFILE → file_block V i k ≠ 0 →
      V' (file_block V i k) = V (file_block V i k)
      ∧ is_free V' (decode_superblock (V 1)) (file_block V i k) = false.

Section Kept.
Context (V V' : Z → block) (i j : inode) (Hk : kept V V' i)
  (Ha : ∀ k, 0 ≤ k ≤ NDIRECT → aget (i_addrs j) k = aget (i_addrs i) k).

Lemma kept_block k : 0 ≤ k ≤ MAXFILE → file_block V' j k = file_block V i k.
Proof.
  intros Hr. destruct Hk as [_ Hb]. specialize (Hb MAXFILE ltac:(done)). rewrite ind_slot in Hb.
  unfold file_block. rewrite !(Ha NDIRECT) by done.
  destruct (Z.ltb_spec k NDIRECT); [apply Ha; lia|]. destruct (k =? MAXFILE); [done|].
  destruct (Z.eqb_spec (aget (i_addrs i) NDIRECT) 0) as [|E]; [done|]. by rewrite (proj1 (Hb E)).
Qed.

Lemma kept_byte p : 0 ≤ p < MAXFILE * BSIZE → file_byte V' j p = file_byte V i p.
Proof.
  intros Hp. pose proof (block_range p Hp). unfold file_byte. rewrite kept_block by lia.
  destruct (Z.eqb_spec (file_block V i (p / BSIZE)) 0) as [|E]; [done|].
  by rewrite (proj1 (proj2 Hk (p / BSIZE) ltac:(lia) E)).
Qed.

Lemma kept_tight off : tight V i off → tight V' j off.
Proof. intros [T1 T2]. split; [intros k Hr|]; rewrite kept_block by (lia || done); auto. Qed.

Lemma kept_ok start :
  file_ok start V i → 0 ≤ i_size j ≤ MAXFILE * BSIZE →
  (∀ k, 0 ≤ k → k * BSIZE < i_size j → file_block V i k ≠ 0) → file_ok start V' j.
Proof.
  intros Hok Hz Hfull. destruct Hk as [E1 Hb]. split; [| | |done].
  - intros k Hr. rewrite kept_block by done. intros Hn. destruct (fo_data _ _ _ Hok k Hr Hn) as (H1 & H2 & _).
    unfold data_block. rewrite E1. split; [done|]. split; [done|]. by apply Hb.
  - intros k k' Hr Hr'. rewrite !kept_block by done. by apply (fo_inj _ _ _ Hok).
  - intros k Hr Hs. rewrite kept_block; [by apply Hfull|]. unfold MAXFILE, BSIZE, NDIRECT, NINDIRECT in *. lia.
Qed.

Lemma kept_foreign x : foreign V i x → is_free V' (decode_superblock (V 1)) x = false → foreign V' j x.
Proof.
  intros (H1 & H2 & H3 & H4) Hf. unfold foreign. rewrite (proj1 Hk). split_and!; [lia|lia|done|done|].
  intros k Hr. rewrite kept_block by done. by apply H4.
Qed.
End Kept.

Lemma kept_refl V i : file_ok log_start V i → kept V V i.
Proof. intros Hok. split; [done|]. intros k Hk Hn. split; [done|]. apply (fo_data _ _ _ Hok k Hk Hn). Qed.

(** Writing a file keeps those whose blocks are foreign to it. *)
Lemma extends_kept V V' i i' j :
  extends log_start V i V' i' →
  (∀ k, 0 ≤ k ≤ MAXFILE → file_block V j k ≠ 0 → foreign V i (file_block V j k)) → kept V V' j.
Proof.
  intros X Hf. split; [apply (ex_super _ _ _ _ _ X)|]. intros k Hk Hn.
  destruct (ex_foreign _ _ _ _ _ X _ (Hf k Hk Hn)) as [(_ & H & _) E].
  rewrite (ex_super _ _ _ _ _ X) in H. done.
Qed.

(** Writing the inode table keeps every file. *)
Lemma put_kept s n i j :
  laid s → mk_ok s j → 0 ≤ n < ninodes → laid (put_inode n i s) ∧
  view_now (put_inode n i s) = <[IBLOCK n := put_dinode (view_now s (IBLOCK n)) (dip n) i]> (view_now s)
  ∧ kept (view_now s) (view_now (put_inode n i s)) j.
Proof.
  intros Hs Hok Hn. destruct (iblock_small n Hn) as [Hb _]. pose proof (la_free _ Hs) as Hf.
  assert (laid (put_inode n i s)) as Hp by (apply stored_laid; [done|lia]).
  split; [done|]. unfold put_inode at 1. rewrite stored_view by lia. split; [done|].
  assert (∀ x, x ≠ IBLOCK n → view_now (put_inode n i s) x = view_now s x) as Hx.
  { intros x Hne. unfold put_inode. rewrite stored_view by lia. by rewrite fn_lookup_insert_ne. }
  split; [apply Hx; lia|]. intros k Hk Hn0.
  pose proof (block_sector s j k Hs Hok Hk Hn0) as Hr. split; [apply Hx; lia|].
  rewrite view_super by done. rewrite view_free; [|done|unfold log_start, fs_size, nlog, LOGSIZE in *; lia].
  apply bool_decide_eq_false. cbn. lia.
Qed.

Lemma table_foreign s i m : laid s → mk_ok s i → 0 ≤ m < ninodes → foreign (view_now s) i (IBLOCK m).
Proof.
  intros Hs Hok Hm. destruct (iblock_small m Hm) as [Hb _]. pose proof (la_free _ Hs) as Hf.
  unfold foreign. rewrite view_super by done. split_and!; [lia|cbn; unfold fs_size; lia| | |].
  - rewrite view_free by (unfold fs_size; done || lia). apply bool_decide_eq_false. lia.
  - intros b Hr. rewrite bmap_28 by done. lia.
  - intros k Hk E. destruct (decide (file_block (view_now s) i k = 0)) as [E0|E0]; [lia|].
    pose proof (block_sector s i k Hs Hok Hk E0). lia.
Qed.

(** ** Files of the image *)

Record is_file (V : Z → block) (i : inode) (type : Z) (c : list Z) : Prop := {
  if_ok : file_ok log_start V i;
  if_tight : tight V i (Z.of_nat (length c));
  if_type : i_type i = type;
  if_rest : i_major i = 0 ∧ i_minor i = 0 ∧ i_nlink i = 1;
  if_size : i_size i = Z.of_nat (length c);
  if_bytes p : 0 ≤ p < MAXFILE * BSIZE → file_byte V i p = nth (Z.to_nat p) c 0
}.

(** Inodes are numbered from one on. *)
Definition inum_at (j : nat) : Z := 1 + Z.of_nat j.

Definition total_blocks (C : list (Z * list Z)) : Z :=
  foldr (λ f, Z.add (blocks_of (Z.of_nat (length f.2)))) 0 C.

(** The image holds the files [C], by inode. *)
Record holds (s : mkfs) (C : list (Z * list Z)) : Prop := {
  ho_laid : laid s;
  ho_next : freeinode s = inum_at (length C);
  ho_count : inum_at (length C) ≤ ninodes;
  ho_file j t c : C !! j = Some (t, c) → is_file (view_now s) (dinode (view_now s) (inum_at j)) t c;
  ho_apart j j' k : (j < length C)%nat → (j' < length C)%nat → j ≠ j' → 0 ≤ k ≤ MAXFILE →
    file_block (view_now s) (dinode (view_now s) (inum_at j)) k ≠ 0 →
    foreign (view_now s) (dinode (view_now s) (inum_at j'))
      (file_block (view_now s) (dinode (view_now s) (inum_at j)) k);
  ho_free : freeblock s = 29 + total_blocks C
}.

Lemma total_cons f C : total_blocks (f :: C) = blocks_of (Z.of_nat (length f.2)) + total_blocks C.
Proof. done. Qed.

Lemma total_insert C j t c t' c' :
  C !! j = Some (t, c) →
  total_blocks (<[j := (t', c')]> C) =
  total_blocks C + blocks_of (Z.of_nat (length c')) - blocks_of (Z.of_nat (length c)).
Proof.
  revert j. induction C as [|[u d] C IH]; intros [|j] H; [done|done| |].
  - injection H as -> ->. cbn [insert list_insert]. rewrite !total_cons. cbn [snd]. lia.
  - change (<[S j := (t', c')]> ((u, d) :: C)) with ((u, d) :: <[j := (t', c')]> C).
    rewrite !total_cons, (IH j H). lia.
Qed.

Lemma total_app C f : total_blocks (C ++ [f]) = total_blocks C + blocks_of (Z.of_nat (length f.2)).
Proof. unfold total_blocks. induction C as [|g C IH]; cbn in *; lia. Qed.

Lemma inum_range (C : list (Z * list Z)) j : inum_at (length C) ≤ ninodes → (j < length C)%nat → 0 ≤ inum_at j < ninodes.
Proof. unfold inum_at. lia. Qed.

(** What was put in the table is read back. *)
Lemma put_same V n i :
  small16 (i_type i) → i_major i = 0 → i_minor i = 0 → i_nlink i = 1 → is_u32 (i_size i) →
  (∀ k, 0 ≤ k ≤ NDIRECT → is_u32 (aget (i_addrs i) k)) →
  agrees i (dinode (<[IBLOCK n := put_dinode (V (IBLOCK n)) (dip n) i]> V) n).
Proof.
  intros Ht Hma Hmi Hl Hs Ha. unfold dinode. rewrite fn_lookup_insert.
  apply dinode_roundtrip; [done|by rewrite Hma|by rewrite Hmi|by rewrite Hl|done|done].
Qed.

Lemma addr_u32 s i k : laid s → mk_ok s i → 0 ≤ k ≤ NDIRECT → is_u32 (aget (i_addrs i) k).
Proof.
  intros Hs Hok Hk. destruct (decide (k = NDIRECT)) as [-> |Hne].
  - change (aget (i_addrs i) NDIRECT) with (file_block (view_now s) i MAXFILE). by apply block_u32.
  - rewrite (slot_block s i k k) by (left; lia). apply block_u32; [done|done|].
    unfold MAXFILE, NDIRECT, NINDIRECT in *. lia.
Qed.

Lemma is_file_kept V V' i t c : is_file V i t c → kept V V' i → is_file V' i t c.
Proof.
  intros [Hok Ht Hty Hr Hsz Hb] Hk. split; [| |done|done|done|].
  - apply (kept_ok V V' i); [done|done|done|apply (fo_size _ _ _ Hok)|apply (fo_full _ _ _ Hok)].
  - by apply (kept_tight V V' i).
  - intros p Hp. rewrite (kept_byte V V' i) by done. by apply Hb.
Qed.

Lemma kept_trans V V' V'' i : kept V V' i → kept V' V'' i → kept V V'' i.
Proof.
  intros H1 [E2 H2]. pose proof (kept_block V V' i i H1 (λ _ _, eq_refl)) as Eb. destruct H1 as [E1 H1].
  split; [by rewrite E2|]. intros k Hk Hn. rewrite <- (Eb k Hk) in Hn.
  destruct (H2 k Hk Hn) as [H3 H4]. rewrite (Eb k Hk) in *. rewrite E1 in H4.
  split; [|done]. rewrite H3. by apply H1.
Qed.

(** A block of one file is foreign to another when none of the other's is the same. *)
Lemma foreign_of s i o k :
  laid s → mk_ok s i → 0 ≤ k ≤ MAXFILE → file_block (view_now s) i k ≠ 0 →
  (∀ k', 0 ≤ k' ≤ MAXFILE → file_block (view_now s) o k' ≠ 0 →
     file_block (view_now s) i k ≠ file_block (view_now s) o k') →
  foreign (view_now s) o (file_block (view_now s) i k).
Proof.
  intros Hs Hok Hk Hn Hne. pose proof (block_sector s i k Hs Hok Hk Hn) as Hr.
  pose proof (la_free _ Hs) as Hf. destruct (fo_data _ _ _ Hok k Hk Hn) as (_ & Hb & Hu).
  unfold foreign. split_and!; [lia| |done| |].
  - rewrite view_super by done. unfold log_start in Hf. cbn. unfold nlog, LOGSIZE in *. lia.
  - intros b Hbr. specialize (Hb b Hbr). lia.
  - intros k' Hk' E. apply (Hne k' Hk'); congruence.
Qed.

Section Append.
Context (s : mkfs) (C : list (Z * list Z)) (j : nat) (t : Z) (c src : list Z)
  (H : holds s C) (Hj : C !! j = Some (t, c)) (Hsrc : Forall is_byte src) (Ht16 : small16 t).
Let n := inum_at j.
Let V := view_now s.
Let i := dinode V n.
Let off := Z.of_nat (length c).
Context (s1 : mkfs) (i1 : inode) (Ha : appended s i off src s1 i1)
  (Hmax : off + Z.of_nat (length src) ≤ MAXFILE * BSIZE).
Let V1 := view_now s1.
Let s2 := put_inode n (set_i_size (off + Z.of_nat (length src)) i1) s1.
Let V2 := view_now s2.

Lemma app_n : 0 ≤ n < ninodes.
Proof. apply (inum_range C); [apply H|by eapply lookup_lt_Some]. Qed.

Lemma app_ext : extends log_start V i V1 i1.
Proof. apply (ap_wrote _ _ _ _ _ _ Ha). Qed.

Lemma app_put :
  laid s2 ∧ V2 = <[IBLOCK n := put_dinode (V1 (IBLOCK n)) (dip n)
    (set_i_size (off + Z.of_nat (length src)) i1)]> V1 ∧ kept V1 V2 i1.
Proof. apply put_kept; [apply Ha|apply app_ext|apply app_n]. Qed.

Lemma app_meta : i_type i1 = t ∧ i_major i1 = 0 ∧ i_minor i1 = 0 ∧ i_nlink i1 = 1.
Proof.
  pose proof (ho_file _ _ H j t c Hj) as F. fold V in F. pose proof (ex_meta _ _ _ _ _ app_ext) as Em.
  assert (∀ A (f : inode → A), f i1 = f (set_i_addrs (i_addrs i1) i)) as E by (intros; by rewrite <- Em).
  rewrite (E _ i_type), (E _ i_major), (E _ i_minor), (E _ i_nlink).
  split; [apply (if_type _ _ _ _ F)|apply (if_rest _ _ _ _ F)].
Qed.

Lemma app_agrees : agrees (set_i_size (off + Z.of_nat (length src)) i1) (dinode V2 n).
Proof.
  destruct app_put as (_ & -> & _). destruct app_meta as (M1 & M2 & M3 & M4).
  apply put_same; [by cbn; rewrite M1|done|done|done| |].
  - cbn. unfold is_u32, two32, MAXFILE, BSIZE, NDIRECT, NINDIRECT in *. lia.
  - intros k Hk. apply (addr_u32 s1 i1); [apply Ha|apply app_ext|done].
Qed.

Lemma app_block k : 0 ≤ k ≤ MAXFILE → file_block V2 (dinode V2 n) k = file_block V1 i1 k.
Proof.
  destruct app_put as (_ & _ & K). destruct app_agrees as (_ & _ & _ & _ & _ & A).
  by apply (kept_block V1 V2 i1).
Qed.

Lemma app_file : is_file V2 (dinode V2 n) t (c ++ src).
Proof.
  destruct app_put as (L2 & _ & K). destruct app_agrees as (A1 & A2 & A3 & A4 & A5 & A6).
  pose proof (ho_file _ _ H j t c Hj) as F. fold V in F.
  destruct app_meta as (M1 & M2 & M3 & M4). pose proof (ap_tight _ _ _ _ _ _ Ha) as T. fold V1 in T.
  assert (i_size (dinode V2 n) = off + Z.of_nat (length src)) as Ez by by rewrite A5.
  split; rewrite ?length_app, ?Nat2Z.inj_add; fold off.
  - apply (kept_ok V1 V2 i1); [done|done|apply app_ext|rewrite Ez; lia|]. rewrite Ez. intros k Hk Hs.
    rewrite (proj1 T) by (unfold MAXFILE, BSIZE, NDIRECT, NINDIRECT in *; lia). lia.
  - by apply (kept_tight V1 V2 i1).
  - by rewrite A1.
  - by rewrite A2, A3, A4.
  - done.
  - intros p Hp. rewrite (kept_byte V1 V2 i1) by done.
    rewrite (wr_bytes _ _ _ _ _ _ _ (ap_wrote _ _ _ _ _ _ Ha)), (if_bytes _ _ _ _ F) by done.
    case_decide as E.
    + rewrite app_nth2 by lia. replace (Z.to_nat (p - off)) with (Z.to_nat p - length c)%nat by lia.
      apply u8_byte, Forall_nth; [done|lia].
    + destruct (decide (p < off)); [by rewrite app_nth1 by lia|].
      rewrite !nth_overflow; [done|rewrite length_app; lia|lia].
Qed.

Lemma app_other j' : (j' < length C)%nat → j' ≠ j →
  let o := dinode V (inum_at j') in dinode V2 (inum_at j') = o ∧ kept V V1 o ∧ kept V1 V2 o ∧ mk_ok s1 o.
Proof.
  intros Hj' Hne o. destruct app_put as (L2 & E2 & _).
  destruct (lookup_lt_is_Some_2 C j' Hj') as [[t' c'] Hl]. pose proof (ho_file _ _ H j' t' c' Hl) as F.
  pose proof (inum_range C j' (ho_count _ _ H) Hj') as Hm.
  assert (kept V V1 o) as K1.
  { eapply extends_kept; [apply app_ext|]. intros k Hk. apply (ho_apart _ _ H j' j k); [done| |done|done].
    by eapply lookup_lt_Some. }
  pose proof (is_file_kept _ _ _ _ _ F K1) as F1.
  split_and!; [|done|apply put_kept; [apply Ha|apply F1|apply app_n]|apply F1].
  rewrite E2, put_other by (apply app_n || done || unfold n, inum_at; lia).
  unfold o, dinode at 1 2. f_equal.
  apply (ex_foreign _ _ _ _ _ app_ext), table_foreign; [apply H| |done].
  apply (if_ok _ _ _ _ (ho_file _ _ H j t c Hj)).
Qed.

(** No block is free that a file keeps. *)
Lemma app_kept j' : (j' < length C)%nat → j' ≠ j → kept V V2 (dinode V (inum_at j')).
Proof. intros Hj' Hne. destruct (app_other j' Hj' Hne) as (_ & K1 & K2 & _). exact (kept_trans _ _ _ _ K1 K2). Qed.

Lemma app_apart j1 j2 k :
  (j1 < length C)%nat → (j2 < length C)%nat → j1 ≠ j2 → 0 ≤ k ≤ MAXFILE →
  file_block V2 (dinode V2 (inum_at j1)) k ≠ 0 →
  foreign V2 (dinode V2 (inum_at j2)) (file_block V2 (dinode V2 (inum_at j1)) k).
Proof.
  intros H1 H2 Hne Hk. destruct app_put as (L2 & _ & K). destruct app_agrees as (_ & _ & _ & _ & _ & A).
  destruct (decide (j1 = j)) as [-> |N1].
  - destruct (app_other j2 H2 ltac:(done)) as (E2 & K1 & K2 & Ok1). rewrite E2. intros Hn.
    apply (foreign_of s2); [done|apply app_file|done|done|]. intros k' Hk' Hn'. change n with (inum_at j).
    rewrite app_block by done. intros E. pose proof (app_kept j2 H2 ltac:(done)) as K12.
    rewrite (kept_block _ _ _ _ K12) in E, Hn' by done.
    pose proof (ho_apart _ _ H j2 j k' H2 H1 ltac:(done) Hk' Hn') as Hf.
    apply (ex_foreign _ _ _ _ _ app_ext) in Hf as [(_ & _ & _ & Hb) _]. by apply (Hb k).
  - destruct (app_other j1 H1 N1) as (-> & _). pose proof (app_kept j1 H1 N1) as K1.
    rewrite (kept_block _ _ _ _ K1) by done. intros Hn.
    pose proof (ho_apart _ _ H j1 j2 k H1 H2 Hne Hk Hn) as Hf.
    destruct K1 as [E1 K1]. destruct (K1 k Hk Hn) as [_ Hfree].
    destruct (decide (j2 = j)) as [-> |N2].
    + apply (kept_foreign V1 V2 i1); [done|done|apply (ex_foreign _ _ _ _ _ app_ext); exact Hf|].
      rewrite (ex_super _ _ _ _ _ app_ext). done.
    + destruct (app_other j2 H2 N2) as (-> & _). pose proof (app_kept j2 H2 N2) as K2.
      by apply (kept_foreign V V2 (dinode V (inum_at j2))).
Qed.

Lemma app_holds : holds s2 (<[j := (t, c ++ src)]> C).
Proof.
  destruct app_put as (L2 & _ & _). split; rewrite ?length_insert.
  - done.
  - cbn. rewrite (ap_inode _ _ _ _ _ _ Ha). apply H.
  - apply H.
  - intros j' t' c'. destruct (decide (j' = j)) as [-> |Hne].
    + rewrite list_lookup_insert_eq by (by eapply lookup_lt_Some). intros [= <- <-]. apply app_file.
    + rewrite list_lookup_insert_ne by done. intros Hl.
      pose proof (lookup_lt_Some _ _ _ Hl) as Hlt. fold V2. destruct (app_other j' Hlt Hne) as (-> & _).
      apply (is_file_kept V); [by apply H|by apply app_kept].
  - intros j1 j2 k H1 H2 Hne Hk. by apply app_apart.
  - cbn. rewrite (ap_free _ _ _ _ _ _ Ha), (total_insert C j t c) by done.
    rewrite length_app, Nat2Z.inj_add, (ho_free _ _ H). fold off. lia.
Qed.
End Append.

Lemma wp_iappend s C j t c src Q :
  holds s C → C !! j = Some (t, c) → Forall is_byte src → small16 t →
  Z.of_nat (length c) + Z.of_nat (length src) ≤ MAXFILE * BSIZE →
  29 + total_blocks (<[j := (t, c ++ src)]> C) ≤ log_start →
  (∀ s', holds s' (<[j := (t, c ++ src)]> C) → Q tt s') → wp (iappend (inum_at j) src) Q s.
Proof.
  intros H Hj Hsrc Ht Hmax Hroom HQ. pose proof (ho_laid _ _ H) as L.
  pose proof (ho_file _ _ H j t c Hj) as F. pose proof (if_size _ _ _ _ F) as Ez.
  assert (0 ≤ inum_at j < ninodes) as Hn by (apply (inum_range C); [apply H|by eapply lookup_lt_Some]).
  unfold iappend. apply wp_bind, wp_rinode; [done|done|]. rewrite Ez, xint_small.
  2:{ unfold is_u32, two32, MAXFILE, BSIZE, NDIRECT, NINDIRECT in *. lia. }
  apply wp_bind, wp_append_loop; [done|apply F|apply F|lia|lia|done|done| |].
  { rewrite (total_insert C j t c), length_app, Nat2Z.inj_add in Hroom by done.
    rewrite (ho_free _ _ H). lia. }
  intros s1 i1 Ha. cbn [fst snd]. rewrite xint_small.
  2:{ unfold is_u32, two32, MAXFILE, BSIZE, NDIRECT, NINDIRECT in *. lia. }
  apply wp_winode; [apply Ha|done|]. apply HQ. by apply (app_holds s C j t c src).
Qed.

(** ** New inodes *)

Section Ialloc.
Context (s : mkfs) (C : list (Z * list Z)) (t : Z) (H : holds s C)
  (Hn : inum_at (length C) < ninodes) (Ht : small16 t).
Let n := inum_at (length C).
Let i0 := set_i_meta t 0 0 1 0 (dinode0 n).
Let s1 := Mkfs (img s) (img_len s) (freeblock s) (usedblocks s) (freeinode s + 1).
Let V := view_now s.
Let s2 := put_inode n i0 s1.
Let V2 := view_now s2.

Lemma new_laid : laid s1.
Proof. destruct (ho_laid _ _ H). by split. Qed.

Lemma new_n : 0 ≤ n < ninodes.
Proof. unfold n, inum_at in *. lia. Qed.

Lemma new_put i : mk_ok s i →
  laid s2 ∧ V2 = <[IBLOCK n := put_dinode (V (IBLOCK n)) (dip n) i0]> V ∧ kept V V2 i.
Proof. intros Hok. apply (put_kept s1 n i0 i); [apply new_laid|done|apply new_n]. Qed.

Lemma new_block i k : i_addrs i = ∅ → file_block V i k = 0.
Proof. intros E. unfold file_block. rewrite E, !aget_empty. cbn. by repeat case_match. Qed.

Lemma empty_ok : mk_ok s i0.
Proof.
  assert (∀ k, file_block V i0 k = 0) as E by (intros; by apply new_block).
  split; [| | |cbn; unfold MAXFILE, BSIZE, NDIRECT, NINDIRECT; lia].
  - intros k _. by rewrite E.
  - intros k k' _ _. by rewrite E.
  - intros k Hk. cbn. unfold BSIZE. lia.
Qed.

Lemma new_agrees : agrees i0 (dinode V2 n).
Proof.
  destruct (new_put i0 empty_ok) as (_ & -> & _). apply put_same; [done..|].
  intros k Hk. cbn. rewrite aget_empty. by vm_compute.
Qed.

Lemma new_blocks k : 0 ≤ k ≤ MAXFILE → file_block V2 (dinode V2 n) k = 0.
Proof.
  intros Hk. destruct (new_put i0 empty_ok) as (_ & _ & K). destruct new_agrees as (_ & _ & _ & _ & _ & A).
  rewrite (kept_block V V2 i0) by done. by apply new_block.
Qed.

Lemma new_file : is_file V2 (dinode V2 n) t [].
Proof.
  destruct new_agrees as (A1 & A2 & A3 & A4 & A5 & A6).
  destruct (new_put i0 empty_ok) as (_ & _ & K).
  split; [|split|done|done|done|].
  - apply (kept_ok V V2 i0); [done|done|apply empty_ok|rewrite A5; cbn; unfold MAXFILE, BSIZE, NDIRECT, NINDIRECT; lia|].
    rewrite A5. cbn. unfold BSIZE. lia.
  - intros k Hk. rewrite new_blocks by lia. cbn. unfold BSIZE. lia.
  - rewrite new_blocks by done. cbn. unfold BSIZE, NDIRECT. lia.
  - intros p Hp. pose proof (block_range p Hp). unfold file_byte. rewrite new_blocks by lia.
    by destruct (Z.to_nat p).
Qed.

Lemma new_other j t' c : C !! j = Some (t', c) →
  let o := dinode V (inum_at j) in dinode V2 (inum_at j) = o ∧ kept V V2 o ∧ is_file V2 o t' c.
Proof.
  intros Hj o. pose proof (ho_file _ _ H j t' c Hj) as F. pose proof (lookup_lt_Some _ _ _ Hj) as Hlt.
  destruct (new_put o (if_ok _ _ _ _ F)) as (_ & E & K). split_and!; [|done|by eapply is_file_kept].
  rewrite E. apply put_other; [apply new_n|by apply (inum_range C); [apply H|]|unfold n, inum_at; lia].
Qed.

Lemma new_holds : holds s2 (C ++ [(t, [])]).
Proof.
  destruct (new_put i0 empty_ok) as (L2 & _ & _). split; rewrite ?length_app; cbn [length].
  - done.
  - cbn. rewrite (ho_next _ _ H). unfold inum_at. lia.
  - unfold inum_at in *. lia.
  - intros j t' c [Hj|[Hj E]]%lookup_app_Some.
    + fold V2. by destruct (new_other j t' c Hj) as (-> & _ & F).
    + assert (j = length C) as -> by (destruct (j - length C)%nat eqn:Ed; [lia|done]).
      rewrite Nat.sub_diag in E. injection E as <- <-. apply new_file.
  - intros j1 j2 k H1 H2 Hne Hk Hnz. fold V2 in Hnz |- *. destruct (decide (j1 = length C)) as [-> |N1].
    { destruct Hnz. by apply new_blocks. }
    destruct (lookup_lt_is_Some_2 C j1 ltac:(lia)) as [[t1 c1] L1].
    destruct (new_other j1 t1 c1 L1) as (E1 & K1 & F1). rewrite E1 in *.
    destruct (decide (j2 = length C)) as [-> |N2].
    + apply (foreign_of s2); [done|apply F1|done|done|]. intros k' Hk' Hz. destruct Hz. by apply new_blocks.
    + destruct (lookup_lt_is_Some_2 C j2 ltac:(lia)) as [[t2 c2] L2'].
      destruct (new_other j2 t2 c2 L2') as (-> & K2 & F2).
      rewrite (kept_block _ _ _ _ K1) in * by done.
      apply (kept_foreign V V2 (dinode V (inum_at j2))); [done|done| |].
      * apply (ho_apart _ _ H j1 j2 k); [lia|lia|done|done|done].
      * by apply K1.
  - change (freeblock s2) with (freeblock s). rewrite total_app, (ho_free _ _ H). cbn [snd length].
    change (blocks_of (Z.of_nat 0)) with 0. lia.
Qed.
End Ialloc.

Lemma wp_ialloc s C t Q :
  holds s C → inum_at (length C) < ninodes → 0 ≤ t < 32768 →
  (∀ s', holds s' (C ++ [(t, [])]) → Q (inum_at (length C)) s') → wp (ialloc t) Q s.
Proof.
  intros H Hn Ht HQ. unfold ialloc. wp_steps. rewrite (ho_next _ _ H). unfold inum_at in Hn.
  rewrite u32_small by (unfold is_u32, two32, ninodes, inum_at in *; lia).
  assert (xshort t = t) as ->.
  { unfold xshort. rewrite !byte_of_div by lia. change (2 ^ (8 * 0)) with 1. change (2 ^ (8 * 1)) with 256.
    Z.to_euclidean_division_equations. lia. }
  change (xshort 1) with 1. change (xint 0) with 0.
  pose proof (new_laid s C H) as L. rewrite (ho_next _ _ H) in L.
  apply wp_winode; [exact L|unfold inum_at; lia|]. wp_steps.
  apply HQ. pose proof (new_holds s C t H Hn ltac:(unfold small16; lia)) as H2.
  by rewrite (ho_next _ _ H) in H2.
Qed.

(** ** Copying the files *)

Lemma total_insert_mono C j t c a b :
  C !! j = Some (t, c) → (length a ≤ length b)%nat →
  total_blocks (<[j := (t, a)]> C) ≤ total_blocks (<[j := (t, b)]> C).
Proof.
  intros Hj Hl. rewrite !(total_insert C j t c) by done.
  pose proof (blocks_of_mono (Z.of_nat (length a)) (Z.of_nat (length b)) ltac:(lia)). lia.
Qed.

Lemma wp_copy_file fuel s C j t c bytes Q :
  holds s C → C !! j = Some (t, c) → Forall is_byte bytes → small16 t → (length bytes ≤ fuel)%nat →
  Z.of_nat (length c) + Z.of_nat (length bytes) ≤ MAXFILE * BSIZE →
  29 + total_blocks (<[j := (t, c ++ bytes)]> C) ≤ log_start →
  (∀ s', holds s' (<[j := (t, c ++ bytes)]> C) → Q tt s') →
  wp (copy_file fuel (inum_at j) bytes) Q s.
Proof.
  revert s C c bytes. induction fuel as [|fuel IH]; intros s C c bytes H Hj Hb Ht Hf Hmax Hroom HQ.
  all: destruct bytes as [|x bytes];
    [apply wp_ret, HQ; rewrite app_nil_r; by rewrite list_insert_id by done|].
  { cbn in Hf. lia. }
  cbn [copy_file]. set (all := x :: bytes) in *.
  assert (c ++ all = (c ++ take 512 all) ++ drop 512 all) as Eall
    by by rewrite <- (assoc_L (++)), take_drop.
  assert (j < length C)%nat as Hlt by by eapply lookup_lt_Some.
  assert (1 ≤ length all)%nat by (cbn; lia). clearbody all.
  apply wp_bind, (wp_iappend s C j t c); [done|done|by apply Forall_take|done| | |].
  - rewrite length_take. lia.
  - etrans; [|exact Hroom]. apply Z.add_le_mono_l, (total_insert_mono C j t c); [done|].
    rewrite !length_app, length_take. lia.
  - intros s' H'. apply (IH s' (<[j := (t, c ++ take 512 all)]> C) (c ++ take 512 all)); [exact H'| |by apply Forall_drop|done| | | |].
    + by rewrite list_lookup_insert_eq.
    + rewrite length_drop. lia.
    + rewrite length_app, length_take, length_drop. lia.
    + rewrite list_insert_insert_eq, <- Eall. done.
    + rewrite list_insert_insert_eq, <- Eall. done.
Qed.

(** ** The root directory and the arguments *)

(** Entry [k] of the root is for itself, its parent, or a file. *)
Definition root_inum (k : nat) : Z := Z.max 1 (Z.of_nat k).
Definition root_bytes (names : list (list Z)) : list Z :=
  concat (imap (λ k name, make_de (root_inum k) name) names).

(** The image with root directory [names] and the files [fs]. *)
Definition files_of (names fs : list (list Z)) : list (Z * list Z) :=
  (T_DIR, root_bytes names) :: ((T_FILE,.) <$> fs).

Record arg_ok (arg : list Z * option (list Z)) (bytes : list Z) : Prop := {
  ar_open : arg.2 = Some bytes;
  ar_bytes : Forall is_byte bytes;
  ar_name : Forall is_byte arg.1;
  ar_slash : SLASH ∉ cstr arg.1;
  ar_size : Z.of_nat (length bytes) ≤ MAXFILE * BSIZE
}.

Lemma host_de_make inum name : 0 ≤ inum < 65536 → host_de inum name = make_de inum name.
Proof.
  intros Hi. unfold host_de, make_de. assert (xshort inum = inum) as ->; [|done].
  unfold xshort. rewrite !byte_of_div by lia. change (2 ^ (8 * 0)) with 1. change (2 ^ (8 * 1)) with 256.
  Z.to_euclidean_division_equations. lia.
Qed.

Lemma root_bytes_app names name :
  root_bytes (names ++ [name]) = root_bytes names ++ make_de (root_inum (length names)) name.
Proof.
  unfold root_bytes. rewrite imap_app, concat_app. cbn. by rewrite app_nil_r, Nat.add_0_r.
Qed.

Lemma root_bytes_length names : length (root_bytes names) = (16 * length names)%nat.
Proof.
  induction names as [|name names IH] using rev_ind; [done|].
  rewrite root_bytes_app, !length_app, make_de_length, IH. cbn. lia.
Qed.

Definition sum_blocks (fs : list (list Z)) : Z :=
  foldr (λ f, Z.add (blocks_of (Z.of_nat (length f)))) 0 fs.

Lemma total_files names fs :
  total_blocks (files_of names fs) = blocks_of (16 * Z.of_nat (length names)) + sum_blocks fs.
Proof.
  unfold files_of. rewrite total_cons. cbn [snd]. rewrite root_bytes_length. f_equal; [f_equal; lia|].
  induction fs as [|f fs IH]; [done|]. rewrite fmap_cons, total_cons, IH. done.
Qed.

Lemma sum_blocks_app a b : sum_blocks (a ++ b) = sum_blocks a + sum_blocks b.
Proof. unfold sum_blocks. induction a as [|f a IH]; cbn in *; lia. Qed.

Lemma sum_blocks_nonneg fs : 0 ≤ sum_blocks fs.
Proof.
  induction fs as [|f fs IH]; cbn; [lia|].
  pose proof (blocks_of_mono 0 (Z.of_nat (length f)) ltac:(lia)). change (blocks_of 0) with 0 in *.
  unfold sum_blocks in IH. lia.
Qed.

Lemma files_of_app names fs f : files_of names fs ++ [(T_FILE, f)] = files_of names (fs ++ [f]).
Proof. unfold files_of. by rewrite fmap_app. Qed.

Lemma strip_bytes name : Forall is_byte name → Forall is_byte (strip name).
Proof. intros H. unfold strip. case_match; [|done]. by destruct H. Qed.

Lemma wp_root_entry s names fs inum name Q :
  holds s (files_of names fs) → inum = root_inum (length names) → Forall is_byte name →
  Z.of_nat (length names) < ninodes → 29 + total_blocks (files_of (names ++ [name]) fs) ≤ log_start →
  (∀ s', holds s' (files_of (names ++ [name]) fs) → Q tt s') →
  wp (iappend ROOTINO (host_de inum name)) Q s.
Proof.
  intros H -> Hb Hn Hroom HQ. unfold ninodes in Hn. rewrite host_de_make by (unfold root_inum; lia).
  change ROOTINO with (inum_at 0).
  assert (<[0%nat := (T_DIR, root_bytes names ++ make_de (root_inum (length names)) name)]> (files_of names fs)
          = files_of (names ++ [name]) fs) as E by by rewrite <- root_bytes_app.
  apply (wp_iappend s (files_of names fs) 0 T_DIR (root_bytes names)); [done|done|by apply make_de_bytes|done| | |].
  - rewrite root_bytes_length, make_de_length. unfold MAXFILE, BSIZE, NDIRECT, NINDIRECT. lia.
  - by rewrite E.
  - by rewrite E.
Qed.

Lemma total_snoc names name fs f :
  total_blocks (files_of (names ++ [name]) (fs ++ [f])) =
  blocks_of (16 * Z.of_nat (length names + 1)) + sum_blocks fs + blocks_of (Z.of_nat (length f)).
Proof.
  rewrite total_files, length_app, sum_blocks_app. cbn [length].
  change (sum_blocks [f]) with (blocks_of (Z.of_nat (length f)) + 0). lia.
Qed.

Lemma wp_add_file s names fs arg bytes Q :
  holds s (files_of names fs) → length names = (2 + length fs)%nat → arg_ok arg bytes →
  Z.of_nat (length names) < ninodes →
  29 + total_blocks (files_of (names ++ [strip arg.1]) (fs ++ [bytes])) ≤ log_start →
  (∀ s', holds s' (files_of (names ++ [strip arg.1]) (fs ++ [bytes])) → Q tt s') →
  wp (add_file ROOTINO arg) Q s.
Proof.
  intros H Hl [Ho Hb Hna Hsl Hsz] Hn Hroom HQ. unfold add_file.
  assert (existsb (Z.eqb SLASH) (cstr arg.1) = false) as ->.
  { apply not_true_iff_false. intros (x & Hx & <-%Z.eqb_eq)%existsb_exists. by apply Hsl, list_elem_of_In. }
  rewrite total_snoc in Hroom.
  pose proof (blocks_of_mono 0 (Z.of_nat (length bytes)) ltac:(lia)) as Hm0. change (blocks_of 0) with 0 in Hm0.
  unfold kassert. cbn [negb]. apply wp_bind, wp_ret, wp_bind. rewrite Ho. apply wp_ret, wp_bind.
  assert (length (files_of names fs) = S (length fs)) as El by (cbn; by rewrite length_fmap).
  apply (wp_ialloc s (files_of names fs)); [done|rewrite El; unfold inum_at; lia|done|].
  intros s1 H1. rewrite files_of_app in H1. apply wp_bind.
  apply (wp_root_entry s1 names (fs ++ [[]])); [done| |by apply strip_bytes|done| |].
  { rewrite El. unfold inum_at, root_inum. lia. }
  { rewrite total_snoc. change (blocks_of (Z.of_nat (length []))) with 0. lia. }
  intros s2 H2. rewrite El. set (names' := names ++ [strip arg.1]) in *.
  assert (<[S (length fs) := (T_FILE, [] ++ bytes)]> (files_of names' (fs ++ [[]])) = files_of names' (fs ++ [bytes])) as E.
  { rewrite <- !files_of_app. replace (S (length fs)) with (length (files_of names' fs) + 0)%nat.
    - by rewrite insert_app_r.
    - cbn. rewrite length_fmap. lia. }
  apply (wp_copy_file _ s2 (files_of names' (fs ++ [[]])) (S (length fs)) T_FILE []); [done| |done|done|done|done| |].
  - rewrite <- files_of_app. rewrite lookup_app_r; cbn; rewrite length_fmap; [|lia]. by rewrite Nat.sub_diag.
  - rewrite E. unfold names'. by rewrite total_snoc.
  - by rewrite E.
Qed.

Lemma wp_add_files s names fs args bs Q :
  holds s (files_of names fs) → length names = (2 + length fs)%nat → Forall2 arg_ok args bs →
  Z.of_nat (length names + length args) ≤ ninodes →
  29 + total_blocks (files_of (names ++ (strip ∘ fst <$> args)) (fs ++ bs)) ≤ log_start →
  (∀ s', holds s' (files_of (names ++ (strip ∘ fst <$> args)) (fs ++ bs)) → Q tt s') →
  wp (add_files ROOTINO args) Q s.
Proof.
  intros H Hl Ha. revert s names fs H Hl. induction Ha as [|arg b args bs Harg Ha IH];
    intros s names fs H Hl Hn Hroom HQ; cbn [add_files].
  { rewrite fmap_nil, !app_nil_r in *. by apply wp_ret, HQ. }
  rewrite fmap_cons, cons_middle, (assoc_L (++)), (cons_middle b), (assoc_L (++)) in *. cbn [compose length] in *.
  apply wp_bind, (wp_add_file s names fs arg b); [done|done|done|lia| |].
  - etrans; [|exact Hroom]. rewrite !total_files, (sum_blocks_app (fs ++ [b])), (length_app (names ++ [_])).
    pose proof (sum_blocks_nonneg bs).
    pose proof (blocks_of_mono (16 * Z.of_nat (length (names ++ [strip arg.1])))
      (16 * Z.of_nat (length (names ++ [strip arg.1]) + length (strip ∘ fst <$> args))) ltac:(lia)). lia.
  - intros s' H'. apply (IH s' (names ++ [strip arg.1]) (fs ++ [b])); [done|rewrite !length_app; cbn; lia| |done|done].
    rewrite length_app. cbn. lia.
Qed.

(** ** The finished image *)

Definition root_names (args : list (list Z * option (list Z))) : list (list Z) :=
  [46] :: [46; 46] :: (strip ∘ fst <$> args).

Lemma concat_nth (ls : list (list Z)) (m k x : nat) :
  Forall (λ l, length l = m) ls → (x < m)%nat →
  nth (m * k + x) (concat ls) 0 = nth x (nth k ls []) 0.
Proof.
  intros Hl Hx. revert k. induction Hl as [|l ls Hlen Hl IH]; intros k; cbn [concat].
  { destruct k; cbn; by destruct x, (m * _ + _)%nat. }
  destruct k as [|k]; cbn [nth].
  - rewrite Nat.mul_0_r. apply app_nth1. cbn. lia.
  - rewrite app_nth2 by lia. rewrite <- IH. f_equal. lia.
Qed.

Lemma root_bytes_nth names k x :
  (x < 16)%nat → (k < length names)%nat →
  nth (16 * k + x) (root_bytes names) 0 = nth x (make_de (root_inum k) (nth k names [])) 0.
Proof.
  intros Hx Hk. unfold root_bytes. rewrite concat_nth; [|apply Forall_forall|done].
  - f_equal. rewrite nth_lookup, list_lookup_imap. destruct (lookup_lt_is_Some_2 names k Hk) as [name E].
    rewrite E. cbn. by rewrite (nth_lookup_Some _ _ _ _ E).
  - intros l (k' & name & -> & _)%elem_of_lookup_imap_1. apply make_de_length.
Qed.

(** What the kernel finds on the disk. *)
Record image_ok (V : Z → block) (args : list (list Z * option (list Z))) (bs : list (list Z)) : Prop := {
  im_super : decode_superblock (V 1) = fs_super;
  im_map : fs_map V log_start;
  im_log : read32 (V log_start) 0 = 0;
  im_free b : 0 ≤ b < fs_size →
    is_free V fs_super b = bool_decide (29 + total_blocks (files_of (root_names args) bs) ≤ b);
  im_root : dir_ok log_start V (dinode V ROOTINO);
  im_inv n : 1 ≤ n < 2 + Z.of_nat (length bs) → file_inv log_start V (dinode V n);
  im_find k name : root_names args !! k = Some name →
    (∀ k' name', (k' < k)%nat → root_names args !! k' = Some name' → ¬ same_name name' name) →
    dir_find V (dinode V ROOTINO) name = Some (DE_SIZE * Z.of_nat k)
    ∧ de_inum (entry V (dinode V ROOTINO) (DE_SIZE * Z.of_nat k)) = root_inum k;
  im_file j bytes : bs !! j = Some bytes →
    let i := dinode V (2 + Z.of_nat j) in
    i_type i = T_FILE ∧ i_size i = Z.of_nat (length bytes)
    ∧ file_byte V i <$> seqZ 0 (Z.of_nat (length bytes)) = bytes
}.

Lemma names_bytes args bs : Forall2 arg_ok args bs → Forall (Forall is_byte) (root_names args).
Proof.
  intros Ha. unfold root_names. repeat (constructor; [repeat constructor; done|]).
  apply Forall_fmap. induction Ha as [|arg b args bs Harg _ IH]; [constructor|].
  constructor; [|exact IH]. apply strip_bytes, (ar_name _ _ Harg).
Qed.

Lemma dinode_stored V n : stored V (dinode V n).
Proof. unfold stored, agrees. split_and!; reflexivity || (intros; reflexivity). Qed.

Section Finish.
Context (s : mkfs) (args : list (list Z * option (list Z))) (bs : list (list Z)).
Let names := root_names args.
Let C := files_of names bs.
Context (H : holds s C) (Ha : Forall2 arg_ok args bs) (Hmod : Z.of_nat (length names) mod 32 ≠ 0).
Let V := view_now s.
Let root := dinode V ROOTINO.
Let size := 16 * Z.of_nat (length names).
Let z := (size / BSIZE + 1) * BSIZE.
Let s2 := put_inode ROOTINO (set_i_size z root) s.
Let V2 := view_now s2.

Lemma fin_root : is_file V root T_DIR (root_bytes names).
Proof. by apply (ho_file _ _ H 0%nat). Qed.

Lemma fin_len : length C = S (length bs) ∧ length names = (2 + length bs)%nat.
Proof.
  unfold C, names, files_of, root_names. cbn. rewrite !length_fmap.
  by rewrite (Forall2_length _ _ _ Ha).
Qed.

Lemma fin_size : size < z ∧ z ≤ MAXFILE * BSIZE ∧ (∀ k, k * BSIZE < z → k * BSIZE < size).
Proof.
  pose proof (ho_count _ _ H) as Hc. destruct fin_len as [El En]. rewrite El in Hc.
  unfold inum_at, ninodes in Hc. unfold z, MAXFILE, BSIZE, NDIRECT, NINDIRECT in *.
  assert (size mod 512 ≠ 0) as Hm.
  { unfold size. change 512 with (16 * 32). rewrite Z.mul_mod_distr_l by done. lia. }
  assert (size ≤ 3200) by (unfold size; lia). clearbody size.
  pose proof (Z.div_mod size 512 ltac:(done)). pose proof (Z.mod_pos_bound size 512 ltac:(done)).
  split_and!; [lia|lia|]. intros k Hk. lia.
Qed.

Lemma fin_put i : mk_ok s i →
  laid s2 ∧ V2 = <[IBLOCK ROOTINO := put_dinode (V (IBLOCK ROOTINO)) (dip ROOTINO) (set_i_size z root)]> V
  ∧ kept V V2 i.
Proof. intros Hok. apply put_kept; [apply H|done|done]. Qed.

Lemma fin_agrees : agrees (set_i_size z root) (dinode V2 ROOTINO).
Proof.
  pose proof fin_root as F. destruct (fin_put root (if_ok _ _ _ _ F)) as (_ & -> & _).
  destruct (if_rest _ _ _ _ F) as (R1 & R2 & R3). destruct fin_size as (Hz1 & Hz2 & _).
  apply put_same; [change (small16 (i_type root)); by rewrite (if_type _ _ _ _ F)|done|done|done| |].
  - cbn. unfold is_u32, two32, MAXFILE, BSIZE, NDIRECT, NINDIRECT, size in *. lia.
  - intros k Hk. apply (addr_u32 s root); [apply H|apply F|done].
Qed.

Lemma fin_dir :
  i_type (dinode V2 ROOTINO) = T_DIR ∧ i_size (dinode V2 ROOTINO) = z
  ∧ file_ok log_start V2 (dinode V2 ROOTINO)
  ∧ ∀ p, 0 ≤ p < MAXFILE * BSIZE → file_byte V2 (dinode V2 ROOTINO) p = nth (Z.to_nat p) (root_bytes names) 0.
Proof.
  pose proof fin_root as F. destruct (fin_put root (if_ok _ _ _ _ F)) as (_ & _ & K).
  destruct fin_agrees as (A1 & A2 & A3 & A4 & A5 & A6). destruct fin_size as (Hz1 & Hz2 & Hz3).
  split_and!.
  - rewrite A1. apply (if_type _ _ _ _ F).
  - done.
  - apply (kept_ok V V2 root); [done|done|apply F|rewrite A5; cbn; unfold size in *; lia|].
    rewrite A5. intros k Hk Hs. apply Hz3 in Hs. apply (fo_full _ _ _ (if_ok _ _ _ _ F)); [done|].
    rewrite (if_size _ _ _ _ F), root_bytes_length. unfold size in Hs. lia.
  - intros p Hp. rewrite (kept_byte V V2 root) by done. by apply (if_bytes _ _ _ _ F).
Qed.

Lemma fin_entry k : (k < length names)%nat →
  entry V2 (dinode V2 ROOTINO) (DE_SIZE * Z.of_nat k) = make_de (root_inum k) (nth k names []).
Proof.
  intros Hk. destruct fin_dir as (_ & _ & _ & Hb). destruct fin_size as (Hz1 & Hz2 & _).
  unfold entry, DE_SIZE. apply list_eq. intros x. rewrite list_lookup_fmap.
  destruct (decide (x < 16)%nat) as [Hx|Hx].
  - rewrite lookup_seqZ_lt by lia. cbn [fmap option_fmap option_map].
    rewrite Hb by (unfold size in *; lia). replace (Z.to_nat (16 * Z.of_nat k + Z.of_nat x)) with (16 * k + x)%nat by lia.
    rewrite root_bytes_nth by done. rewrite nth_lookup.
    destruct (lookup_lt_is_Some_2 (make_de (root_inum k) (nth k names [])) x) as [y E]; [by rewrite make_de_length|].
    by rewrite E.
  - rewrite lookup_seqZ_ge by lia. symmetry. apply lookup_ge_None. rewrite make_de_length. lia.
Qed.

Lemma fin_inum k : (k < length names)%nat → 0 < root_inum k < 65536.
Proof.
  intros Hk. pose proof (ho_count _ _ H) as Hc. destruct fin_len as [El En]. rewrite El in Hc.
  unfold inum_at, ninodes, root_inum in *. lia.
Qed.

Lemma fin_find k name : names !! k = Some name →
  (∀ k' name', (k' < k)%nat → names !! k' = Some name' → ¬ same_name name' name) →
  dir_find V2 (dinode V2 ROOTINO) name = Some (DE_SIZE * Z.of_nat k)
  ∧ de_inum (entry V2 (dinode V2 ROOTINO) (DE_SIZE * Z.of_nat k)) = root_inum k.
Proof.
  intros Hk Hfirst. pose proof (lookup_lt_Some _ _ _ Hk) as Hlt. pose proof (names_bytes _ _ Ha) as Hby.
  destruct fin_dir as (_ & Ez & _ & _). destruct fin_size as (Hz1 & _ & _).
  assert (∀ k' name', names !! k' = Some name' →
    is_named V2 (dinode V2 ROOTINO) name (DE_SIZE * Z.of_nat k') = bool_decide (same_name name' name)) as Hn.
  { intros k' name' Hk'. pose proof (lookup_lt_Some _ _ _ Hk') as Hlt'. pose proof (fin_inum k' Hlt').
    unfold is_named. rewrite fin_entry, (nth_lookup_Some _ _ _ _ Hk') by done.
    rewrite make_de_inum by lia. rewrite (proj2 (Z.eqb_neq _ 0)) by lia. cbn [negb andb].
    rewrite Forall_lookup in Hby.
    pose proof (make_de_name (root_inum k') name' name (Hby _ _ Hk') (Hby _ _ Hk)) as E.
    case_bool_decide as D; [by apply Z.eqb_eq, E|]. apply Z.eqb_neq. by rewrite E. }
  split.
  - unfold dir_find. rewrite (find_entry_first _ 0 _ (Z.of_nat k)); [done| | |].
    + unfold dir_count. rewrite Ez. split; [lia|]. rewrite Z2Nat.id.
      * apply Z.lt_le_trans with (size / DE_SIZE); [|apply Z.div_le_mono; unfold DE_SIZE; lia].
        unfold size, DE_SIZE. rewrite Z.mul_comm, Z.div_mul by done. lia.
      * apply Z.div_pos; unfold DE_SIZE, size in *; lia.
    + intros j Hj. destruct (lookup_lt_is_Some_2 names (Z.to_nat j)) as [name' Hj']; [lia|].
      replace j with (Z.of_nat (Z.to_nat j)) by lia. rewrite Z.add_0_l, (Hn _ _ Hj').
      apply bool_decide_eq_false, (Hfirst (Z.to_nat j)); [lia|done].
    + rewrite Z.add_0_l, (Hn _ _ Hk). by apply bool_decide_eq_true.
  - rewrite fin_entry by done. apply make_de_inum. pose proof (fin_inum k Hlt). lia.
Qed.

Lemma fin_file j bytes : bs !! j = Some bytes →
  is_file V2 (dinode V2 (2 + Z.of_nat j)) T_FILE bytes.
Proof.
  intros Hj. assert (C !! S j = Some (T_FILE, bytes)) as Hl.
  { change (C !! S j) with (((T_FILE,.) <$> bs) !! j). by rewrite list_lookup_fmap, Hj. }
 
  pose proof (ho_file _ _ H (S j) _ _ Hl) as F. pose proof (lookup_lt_Some _ _ _ Hl) as Hlt.
  replace (inum_at (S j)) with (2 + Z.of_nat j) in F by (unfold inum_at; lia).
  destruct (fin_put _ (if_ok _ _ _ _ F)) as (_ & E & K). fold V in F, K.
  assert (dinode V2 (2 + Z.of_nat j) = dinode V (2 + Z.of_nat j)) as ->; [|by eapply is_file_kept].
  rewrite E. apply put_other; [done| |unfold ROOTINO; lia].
  pose proof (inum_range C (S j) (ho_count _ _ H) Hlt) as Hr. unfold inum_at in Hr. lia.
Qed.

Lemma fin_inv n : 1 ≤ n < 2 + Z.of_nat (length bs) → file_inv log_start V2 (dinode V2 n).
Proof.
  intros Hn. pose proof (ho_count _ _ H) as Hc. destruct fin_len as [El En]. rewrite El in Hc.
  destruct (fin_put root (if_ok _ _ _ _ fin_root)) as (L2 & _ & _).
  assert (file_ok log_start V2 (dinode V2 n) ∧ small16 (i_type (dinode V2 n))
    ∧ i_major (dinode V2 n) = 0 ∧ i_minor (dinode V2 n) = 0 ∧ i_nlink (dinode V2 n) = 1) as (F & T & R1 & R2 & R3).
  { destruct (decide (n = 1)) as [-> |Hne].
    - destruct fin_dir as (T & _ & F & _). destruct fin_agrees as (_ & A2 & A3 & A4 & _).
      destruct (if_rest _ _ _ _ fin_root) as (R1 & R2 & R3). change 1 with ROOTINO.
      rewrite T, A2, A3, A4. by split_and!.
    - destruct (lookup_lt_is_Some_2 bs (Z.to_nat (n - 2))) as [bytes Hb]; [lia|].
      pose proof (fin_file _ _ Hb) as F. replace (2 + Z.of_nat (Z.to_nat (n - 2))) with n in F by lia.
      rewrite (if_type _ _ _ _ F). split; [apply F|]. split; [done|apply F]. }
  split; [by apply laid_map|done| | |apply dinode_stored|done].
  - unfold inum_ok, V2. rewrite view_super by done. unfold inum_at in Hc. cbn. lia.
  - unfold inode_small. rewrite R1, R2, R3. unfold small16 in *. lia.
Qed.

Lemma fin_image : laid s2 ∧ usedblocks s2 = 29 + total_blocks C ∧ image_ok V2 args bs.
Proof.
  destruct (fin_put root (if_ok _ _ _ _ fin_root)) as (L2 & _ & _). pose proof (la_free _ L2) as Hf.
  pose proof (ho_free _ _ H) as Hfree. destruct fin_dir as (T & Ez & F & _). destruct fin_size as (Hz1 & _ & _).
  split; [done|]. split; [rewrite (la_used _ L2); exact Hfree|]. split.
  - by apply view_super.
  - by apply laid_map.
  - unfold V2. rewrite view_img by done. unfold read32. by rewrite !(la_zero _ L2) by (lia || done).
  - intros b Hb. unfold V2. rewrite view_free by done. change (freeblock s2) with (freeblock s). by rewrite Hfree.
  - split; [by apply laid_map|done|done|done|]. unfold dir_count. rewrite Ez. unfold z.
    rewrite Z2Nat.id by (apply Z.div_pos; unfold size, BSIZE, DE_SIZE in *; lia).
    change BSIZE with (32 * DE_SIZE). rewrite Z.mul_assoc, Z.div_mul by done. lia.
  - exact fin_inv.
  - exact fin_find.
  - intros j bytes Hj. pose proof (fin_file j bytes Hj) as Ff. cbv zeta. split; [apply (if_type _ _ _ _ Ff)|]. split; [apply (if_size _ _ _ _ Ff)|].
    pose proof (fo_size _ _ _ (if_ok _ _ _ _ Ff)) as Hs. rewrite (if_size _ _ _ _ Ff) in Hs.
    apply list_eq. intros x. rewrite list_lookup_fmap. destruct (bytes !! x) as [y|] eqn:E.
    + pose proof (lookup_lt_Some _ _ _ E). rewrite lookup_seqZ_lt by lia. cbn [fmap option_fmap option_map].
      rewrite (if_bytes _ _ _ _ Ff) by lia. rewrite Z.add_0_l, Nat2Z.id. by rewrite (nth_lookup_Some _ _ _ _ E).
    + apply lookup_ge_None in E. by rewrite lookup_seqZ_ge by lia.
Qed.
End Finish.

(** ** The program *)

Lemma wp_zero_image s Q :
  img_len s = 0 → (∀ b, aget (img s) b = ∅) →
  (∀ s', img_len s' = fs_size → (∀ b, aget (img s') b = ∅) → freeblock s' = freeblock s →
     usedblocks s' = usedblocks s → freeinode s' = freeinode s → Q tt s') →
  wp (for_range 0 fs_size (λ i, wsect i ∅)) Q s.
Proof.
  intros Hl He HQ.
  apply (wp_for_range (λ i s', img_len s' = i ∧ (∀ b, aget (img s') b = ∅) ∧ freeblock s' = freeblock s
    ∧ usedblocks s' = usedblocks s ∧ freeinode s' = freeinode s)); [done|done| |].
  - intros i s1 Hi (H1 & H2 & H3 & H4 & H5). unfold wsect. wp_steps. split_and!; [cbn; lia| |done|done|done].
    intros b. cbn [img]. rewrite aget_insert. by case_decide.
  - intros s1 (H1 & H2 & H3 & H4 & H5). by apply HQ.
Qed.

(** The image right after the superblock was written. *)
Lemma holds_nothing s :
  img_len s = fs_size → freeblock s = 29 → usedblocks s = 29 → freeinode s = 1 →
  decode_superblock (aget (img s) 1) = fs_super → (∀ b, 29 ≤ b → aget (img s) b = ∅) → holds s [].
Proof.
  intros Hl Hf Hu Hi Hs He. split.
  - split; [done|by rewrite Hu, Hf|rewrite Hf; by vm_compute|done|].
    intros b x Hb Hx. rewrite Hf in Hb. by rewrite He.
  - done.
  - done.
  - done.
  - cbn. lia.
  - rewrite Hf. done.
Qed.

(** What is left to do when the files are there. *)
Lemma wp_finish s args bs Q :
  holds s (files_of (root_names args) bs) → Forall2 arg_ok args bs →
  Z.of_nat (length (root_names args)) ≤ ninodes → Z.of_nat (length (root_names args)) mod 32 ≠ 0 →
  (∀ s', img_len s' = fs_size → image_ok (λ sec, aget (img s') sec) args bs → Q tt s') →
  wp (din ← rinode ROOTINO;
      _ ← winode ROOTINO (set_i_size (xint ((xint (i_size din) / BSIZE + 1) * BSIZE)) din);
      used ← gets usedblocks; balloc used) Q s.
Proof.
  intros H Ha Hn Hmod HQ.
  pose proof (ho_laid _ _ H) as L. pose proof (fin_root s args bs H) as F.
  destruct (fin_image s args bs H Ha Hmod) as (L7 & Hu & Him).
  apply wp_bind, wp_rinode; [done|done|]. rewrite (if_size _ _ _ _ F), root_bytes_length.
  set (size := 16 * Z.of_nat (length (root_names args))) in *.
  replace (Z.of_nat (16 * length (root_names args))) with size by (unfold size; lia).
  assert (0 ≤ size ≤ 3200) as Hsize by (unfold size, ninodes in *; lia).
  assert (0 ≤ size / BSIZE ≤ 6) as Hq.
  { split; [apply Z.div_pos; [lia|done]|]. apply (Z.div_le_mono size 3200 BSIZE); [done|lia]. }
  rewrite (xint_small size), xint_small by (unfold is_u32, two32; change BSIZE with 512 in *; lia).
  apply wp_bind, wp_winode; [done|done|]. set (s7 := put_inode _ _ _) in *.
  apply wp_bind, wp_gets. unfold balloc. pose proof (la_free _ L7) as Hf7. pose proof (la_used _ L7) as Hu7.
  apply wp_bind, wp_kassert.
  { apply Z.ltb_lt. unfold log_start, fs_size, nlog, LOGSIZE in *. lia. }
  assert (ninodes / IPB + 3 = 28) as -> by by vm_compute.
  apply wp_wsect; [done|done|]. apply HQ; [apply L7|].
  assert ((λ sec, aget (img (stored_at 28 (set_bits (Z.to_nat (usedblocks s7)) 0 ∅) s7)) sec) = view_now s7) as ->; [|done].
  apply functional_extensionality. intros x. unfold view_now, bitmap_now. cbn [img stored_at].
  destruct (decide (x = 28)) as [-> |Hx]; [by rewrite aget_eq, fn_lookup_insert|].
  by rewrite aget_ne, fn_lookup_insert_ne by done.
Qed.

Lemma wp_main args bs Q :
  Forall2 arg_ok args bs → Z.of_nat (length (root_names args)) ≤ ninodes →
  Z.of_nat (length (root_names args)) mod 32 ≠ 0 →
  29 + total_blocks (files_of (root_names args) bs) ≤ log_start →
  (∀ s', img_len s' = fs_size → image_ok (λ sec, aget (img s') sec) args bs → Q tt s') →
  wp (main args) Q start_mkfs.
Proof.
  intros Ha Hn Hmod Hroom HQ. unfold main. cbv zeta.
  assert (ninodes / IPB + 3 + (fs_size / (512 * 8) + 1) = 29) as -> by by vm_compute.
  assert (nblocks + 29 + nlog = fs_size) as -> by by vm_compute. rewrite Z.eqb_refl.
  apply wp_bind, wp_modify, wp_bind, wp_kassert; [done|]. apply wp_bind, wp_zero_image; [done|intros b; apply aget_empty|].
  intros s1 Hl1 He1 Hf1 Hu1 Hi1. apply wp_bind. unfold wsect at 1. apply wp_modify.
  set (s2 := Mkfs _ _ _ _ _).
  assert (holds s2 []) as H2.
  { apply holds_nothing; unfold s2; cbn [img img_len freeblock usedblocks freeinode]; [by rewrite Hl1|done|done|done| |].
    - rewrite aget_eq. by vm_compute.
    - intros b Hb. by rewrite aget_ne by lia. }
  clearbody s2.
  assert (∀ names, (length names ≤ length (root_names args))%nat →
    29 + total_blocks (files_of names []) ≤ log_start) as Hdir.
  { intros names Hle. etrans; [|exact Hroom]. rewrite !total_files. pose proof (sum_blocks_nonneg bs).
    pose proof (blocks_of_mono (16 * Z.of_nat (length names)) (16 * Z.of_nat (length (root_names args))) ltac:(lia)).
    change (sum_blocks []) with 0. lia. }
  assert (2 ≤ length (root_names args))%nat as Hlen by (cbn; lia).
  apply wp_bind, (wp_ialloc s2 []); [done|done|done|]. intros s3 H3.
  change (inum_at (length (@nil (Z * list Z)))) with ROOTINO. change ([] ++ [(T_DIR, [])]) with (files_of [] []) in H3.
  apply wp_bind, wp_kassert; [done|].
  apply wp_bind, (wp_root_entry s3 [] []); [done|done|by repeat constructor|done|apply Hdir; cbn in *; lia|].
  intros s4 H4. apply wp_bind, (wp_root_entry s4 [[46]] []); [done|done|by repeat constructor|done|apply Hdir; cbn in *; lia|].
  intros s5 H5. apply wp_bind, (wp_add_files s5 [[46]; [46; 46]] [] args bs); [done|done|done| |exact Hroom|].
  { unfold root_names in Hn. cbn [length] in Hn |- *. rewrite length_fmap in Hn. lia. }
  intros s6 H6. change ([] ++ bs) with bs in H6. change ([[46]; [46; 46]] ++ _) with (root_names args) in H6.
  by apply (wp_finish s6 args bs).
Qed.

(** ** Property *)

(** C14: [main] of mkfs writes a file system the kernel can use.  For files that
    fit, it returns and leaves an image of [fs_size] sectors whose superblock,
    bitmap and inodes are consistent and whose log is empty; every name leads
    through the root directory to the inode of its file, which holds the bytes of
    the file.  The blocks after those in use, the log among them, are marked free.
    The number of entries of the root must not fill its last block. *)
Theorem mkfs_image_correct args bs :
  Forall2 arg_ok args bs → Z.of_nat (length (root_names args)) ≤ ninodes →
  Z.of_nat (length (root_names args)) mod 32 ≠ 0 →
  29 + total_blocks (files_of (root_names args) bs) ≤ log_start →
  ∃ s, main args start_mkfs = Ok (tt, s) ∧ img_len s = fs_size
    ∧ image_ok (λ sec, aget (img s) sec) args bs.
Proof.
  intros Ha Hn Hmod Hroom.
  edestruct (wp_run (main args) (λ _ s, img_len s = fs_size ∧ image_ok (λ sec, aget (img s) sec) args bs))
    as ([] & s & E & Hs); [|by exists s].
  by apply (wp_main args bs).
Qed.

(** A file of three bytes under the name ["_a"]. *)
Lemma mkfs_image_correct_witness :
  ∃ s, main [([95; 97], Some [1; 2; 3])] start_mkfs = Ok (tt, s)
    ∧ dir_find (λ sec, aget (img s) sec) (dinode (λ sec, aget (img s) sec) ROOTINO) [97] = Some 32.
Proof.
  destruct (mkfs_image_correct [([95; 97], Some [1; 2; 3])] [[1; 2; 3]]) as (s & E & _ & Him).
  - constructor; [|constructor]. split; [done|by repeat constructor|by repeat constructor| |by vm_compute].
    cbn. intros H. repeat (apply elem_of_cons in H as [H|H]; [discriminate H|]). by apply elem_of_nil in H.
  - by vm_compute.
  - by vm_compute.
  - by vm_compute.
  - exists s. split; [exact E|]. apply (im_find _ _ _ Him 2 [97]); [done|].
    intros [|[|k']] name' Hk H; [injection H as <-; by vm_compute|injection H as <-; by vm_compute|lia].
Defined.
