(* ===== verification/File.v ===== *)
(** * Open files (kern/fs/file.c) and the file system calls (kern/fs/sysfile.c) *)

From S2P Require Import Prelude Memory Strings Resume Spinlock PhysMap Pmm Container PageTable.
From S2P Require Import Isolation UserCopy Tcb TQueue Thread Signal Ipc Bufcache Log Block Inode Dir.

Definition NFILE : Z := 100.
Definition FD_NONE : Z := 0.
Definition FD_INODE : Z := 2.
Definition O_RDONLY : Z := 0.
Definition O_WRONLY : Z := 1.
Definition O_RDWR : Z := 2.
Definition O_CREATE : Z := 512.
Definition E_DISK_OP : Z := 13.
Definition E_NEXIST : Z := 26.
Definition E_CREATE : Z := 27.
Definition E_BADF : Z := 29.
Definition KERN_BUF_SIZE : Z := 10000.

(** ** State *)

(** [struct file]; [f_ip] is a pointer to an inode. *)
Record file := File {
  f_type : Z; f_ref : Z; f_readable : Z; f_writable : Z; f_ip : Z; f_off : Z
}.

#[export] Instance zeroed_file : Zeroed file := File 0 0 0 0 0 0.

Definition set_f_ref (v : Z) (f : file) : file :=
  File (f_type f) v (f_readable f) (f_writable f) (f_ip f) (f_off f).
Definition set_f_off (v : Z) (f : file) : file :=
  File (f_type f) (f_ref f) (f_readable f) (f_writable f) (f_ip f) v.
Definition set_f_closed (f : file) : file :=
  File FD_NONE 0 (f_readable f) (f_writable f) (f_ip f) (f_off f).
Definition set_f_open (ip r w : Z) (f : file) : file := File FD_INODE (f_ref f) r w ip 0.

(** [ftable], [buf_lock], the static [first] of [sys_open], and the layers below. *)
Record fsys := Fsys {
  f_ino : ino; ft_lock : spinlock; files : gmap Z file; buf_lock : spinlock; first_open : bool
}.

Definition l_f_ino : lens fsys ino :=
  Lens f_ino (λ i s, Fsys i (ft_lock s) (files s) (buf_lock s) (first_open s)).
Definition l_ft_lock : lens fsys spinlock :=
  Lens ft_lock (λ k s, Fsys (f_ino s) k (files s) (buf_lock s) (first_open s)).
Definition l_buf_lock : lens fsys spinlock :=
  Lens buf_lock (λ k s, Fsys (f_ino s) (ft_lock s) (files s) k (first_open s)).
Definition set_first_open (v : bool) (s : fsys) : fsys :=
  Fsys (f_ino s) (ft_lock s) (files s) (buf_lock s) v.

(** A pointer to a file is its index plus one; zero is the null pointer. *)
Definition fp_get {A} (g : file → A) (f : Z) : M fsys A :=
  _ ← (if f =? 0 then fail (NullDeref "f") else mret tt);
  gets (λ s, g (aget (files s) (f - 1))).
Definition fp_upd (f : Z) (g : file → file) : M fsys unit :=
  _ ← (if f =? 0 then fail (NullDeref "f") else mret tt);
  modify (λ s, Fsys (f_ino s) (ft_lock s) (<[f - 1 := g (aget (files s) (f - 1))]> (files s))
                 (buf_lock s) (first_open s)).

(** Addresses of the log, the inodes, [kern_buf] and the path buffers on the
    kernel stack. *)
Class FsLayout `{B : BufLayout} := {
  log_addr : Z;
  ip_addr : Z → Z;
  kern_buf : Z;
  path_addr : string → Z → Z;
  kern_buf_ok : kernel_buf kern_buf KERN_BUF_SIZE;
  path_ok v pid : 0 ≤ pid < NUM_IDS → kernel_buf (path_addr v pid) 128
}.

Section File.
Context `{FL : FsLayout} (junk : Z).

Definition in_ino {A} (m : M ino A) : M fsys A := lift l_f_ino m.
Definition in_log {A} (m : M lgs A) : M fsys A := in_ino (logged_call m).
Definition in_thr {A} (m : M thr A) : M fsys A := in_ino (threads m).
Definition in_vm {A} (m : M vm A) : M fsys A := in_thr (lift l_t_vm m).

(** ** file.c *)

Definition file_init : M fsys unit := lift l_ft_lock spinlock_init.

(** The loop of [file_alloc]. *)
Fixpoint file_scan (n : nat) (i : Z) (fs : gmap Z file) : Z :=
  match n with
  | O => 0
  | S n => if f_ref (aget fs i) =? 0 then i + 1 else file_scan n (i + 1) fs
  end.

Definition file_alloc : M fsys Z :=
  _ ← lift l_ft_lock (spinlock_acquire "ftable.lock");
  f ← gets (λ s, file_scan (Z.to_nat NFILE) 0 (files s));
  _ ← (if f =? 0 then mret tt else fp_upd f (set_f_ref 1));
  _ ← lift l_ft_lock spinlock_release;
  mret f.

Definition file_dup (f : Z) : M fsys Z :=
  _ ← lift l_ft_lock (spinlock_acquire "ftable.lock");
  r ← fp_get f_ref f;
  _ ← (if r <? 1 then fail (Panic "file_dup") else mret tt);
  _ ← fp_upd f (set_f_ref (s32 (r + 1)));
  _ ← lift l_ft_lock spinlock_release;
  mret f.

Definition file_close (f : Z) : M fsys unit :=
  _ ← lift l_ft_lock (spinlock_acquire "ftable.lock");
  r ← fp_get f_ref f;
  _ ← (if r <? 1 then fail (Panic "file_close") else mret tt);
  _ ← fp_upd f (set_f_ref (r - 1));
  if 0 <? r - 1 then lift l_ft_lock spinlock_release
  else
    ff ← fp_get id f;
    _ ← fp_upd f set_f_closed;
    _ ← lift l_ft_lock spinlock_release;
    if f_type ff =? FD_INODE then
      _ ← in_log begin_trans;
      _ ← in_ino (inode_put ip_addr (f_ip ff));
      in_log (commit_trans log_addr)
    else mret tt.

Definition file_stat_of (f : Z) : M fsys (Z * option file_stat) :=
  ff ← fp_get id f;
  if f_type ff =? FD_INODE then
    _ ← in_ino (inode_lock (f_ip ff));
    st ← in_ino (inode_stat (f_ip ff));
    _ ← in_ino (inode_unlock ip_addr (f_ip ff));
    mret (0, Some st)
  else mret (-1, None).

(** The result and the bytes written at [addr]. *)
Definition file_read (f n : Z) : M fsys (Z * list Z) :=
  ff ← fp_get id f;
  if f_readable ff =? 0 then mret (-1, [])
  else if f_type ff =? FD_INODE then
    _ ← in_ino (inode_lock (f_ip ff));
    r ← in_ino (inode_read junk (f_ip ff) (f_off ff) (u32 n));
    _ ← (if 0 <? r.1 then fp_upd f (set_f_off (u32 (f_off ff + r.1))) else mret tt);
    _ ← in_ino (inode_unlock ip_addr (f_ip ff));
    mret r
  else fail (Panic "file_read").

(** [int max = ((LOGSIZE-1-1-2) / 2) * 512] *)
Definition WRITE_MAX : Z := (LOGSIZE - 1 - 1 - 2) / 2 * 512.

(** The loop of [file_write]: how far it got.  Each turn writes at least a byte. *)
Fixpoint file_write_loop (fuel : nat) (f i n : Z) (addr : list Z) : M fsys Z :=
  if i <? n then
    match fuel with
    | O => fail OutOfFuel
    | S fuel =>
      let n1 := if WRITE_MAX <? n - i then WRITE_MAX else n - i in
      _ ← in_log begin_trans;
      ff ← fp_get id f;
      _ ← in_ino (inode_lock (f_ip ff));
      r ← in_ino (inode_write junk (f_ip ff) (drop (Z.to_nat i) addr) (f_off ff) n1);
      _ ← (if 0 <? r then fp_upd f (set_f_off (u32 (f_off ff + r))) else mret tt);
      _ ← in_ino (inode_unlock ip_addr (f_ip ff));
      _ ← in_log (commit_trans log_addr);
      if r <? 0 then mret i
      else if negb (r =? n1) then fail (Panic "short file_write")
      else file_write_loop fuel f (i + r) n addr
    end
  else mret i.

Definition file_write (f : Z) (addr : list Z) (n : Z) : M fsys Z :=
  ff ← fp_get id f;
  if f_writable ff =? 0 then mret (-1)
  else if f_type ff =? FD_INODE then
    i ← file_write_loop (Z.to_nat n) f 0 n addr;
    mret (if i =? n then n else -1)
  else fail (Panic "file_write").

(** ** sysfile.c *)

Fixpoint fd_scan (n : nat) (idx : Z) (fds : gmap Z Z) : Z :=
  match n with
  | O => -1
  | S n => if aget fds idx =? 0 then idx else fd_scan n (idx + 1) fds
  end.

Definition fdalloc (f : Z) : M fsys Z :=
  curid ← in_thr get_curid;
  fds ← in_thr (tcb_read curid openfiles);
  let idx := fd_scan (Z.to_nat NOFILE) 0 fds in
  _ ← (if idx <? 0 then mret tt else in_thr (tcb_set_openfiles curid idx f));
  mret idx.

(** [syscall_set_errno(tf, e); syscall_set_retval1(tf, v)], in either order. *)
Definition sys_result (t : tf_t) (errno v : Z) : tf_t :=
  syscall_set_retval1 (syscall_set_errno t errno) (u32 v).

(** The two checks at the start of [sys_read] and [sys_write]; [n < 0] never holds
    of an unsigned [n]. *)
Definition bad_fd (fd : Z) : bool := (fd <? 0) || (NOFILE <=? fd).
Definition bad_range (user_buf n : Z) : bool :=
  (user_buf <? VM_USERLO) || (VM_USERHI <? u32 (user_buf + n)) || (KERN_BUF_SIZE <? n).

(** [fp == 0 || fp->ip == 0] *)
Definition no_file (fp : Z) : M fsys bool :=
  if fp =? 0 then mret true else ip ← fp_get f_ip fp; mret (ip =? 0).

Definition sys_read (t : tf_t) : M fsys tf_t :=
  pid ← in_thr get_curid;
  _ ← lift l_buf_lock (spinlock_acquire "buf_lock");
  let fd := s32 (syscall_get_arg2 t) in
  let user_buf := syscall_get_arg3 t in
  let n := syscall_get_arg4 t in
  r ← (if bad_fd fd then mret (sys_result t E_BADF (-1))
       else if bad_range user_buf n then mret (sys_result t E_INVAL_ADDR (-1))
       else
         fp ← in_thr (tcb_get_openfile pid fd);
         no ← no_file fp;
         if (no : bool) then mret (sys_result t E_BADF (-1))
         else
           r ← file_read fp n;
           _ ← in_vm (place kern_buf r.2);
           _ ← (if 0 <? r.1 then _ ← in_vm (pt_copyout kern_buf pid user_buf r.1); mret tt
                else mret tt);
           mret (sys_result t E_SUCC r.1));
  _ ← lift l_buf_lock spinlock_release;
  mret r.

Definition sys_write (t : tf_t) : M fsys tf_t :=
  pid ← in_thr get_curid;
  _ ← lift l_buf_lock (spinlock_acquire "buf_lock");
  let fd := s32 (syscall_get_arg2 t) in
  let user_buf := syscall_get_arg3 t in
  let n := syscall_get_arg4 t in
  r ← (if bad_fd fd then mret (sys_result t E_BADF (-1))
       else if bad_range user_buf n then mret (sys_result t E_INVAL_ADDR (-1))
       else
         fp ← in_thr (tcb_get_openfile pid fd);
         no ← no_file fp;
         if (no : bool) then mret (sys_result t E_BADF (-1))
         else
           _ ← in_vm (pt_copyin pid user_buf kern_buf n);
           bs ← in_vm (gets (λ v, read_bytes (v_mem v) kern_buf n));
           r ← file_write fp bs n;
           mret (sys_result t E_SUCC r));
  _ ← lift l_buf_lock spinlock_release;
  mret r.

Definition sys_close (t : tf_t) : M fsys tf_t :=
  let fd := syscall_get_arg2 t in
  pid ← in_thr get_curid;
  if NOFILE <=? fd then mret (sys_result t E_BADF (-1))
  else
    fp ← in_thr (tcb_get_openfile pid fd);
    if fp =? 0 then mret (sys_result t E_BADF (-1))
    else
      _ ← file_close fp;
      _ ← in_thr (tcb_set_openfiles pid fd 0);
      mret (sys_result t E_SUCC 0).

(** [sizeof(struct file_stat)] is 20.  What [file_stat] stores stays in the
    kernel's [kern_st]. *)
Definition sys_fstat (t : tf_t) : M fsys tf_t :=
  let fd := s32 (syscall_get_arg2 t) in
  let user_stp := syscall_get_arg3 t in
  pid ← in_thr get_curid;
  if bad_fd fd || (user_stp <? VM_USERLO) || (VM_USERHI <? u32 (user_stp + 20))
  then mret (sys_result t E_BADF (-1))
  else
    fp ← in_thr (tcb_get_openfile pid fd);
    if fp =? 0 then mret (sys_result t E_BADF (-1))
    else
      _ ← in_vm (pt_copyin pid user_stp (local_addr "kern_st" pid) 20);
      r ← file_stat_of fp;
      mret (sys_result t (if r.1 =? 0 then E_SUCC else E_BADF) r.1).

(** A path is copied into a buffer of 128 bytes on the stack, cut at 127 bytes;
    whatever was not copied is what the stack held. *)
Definition path_cut (len : Z) : Z := if len <? 128 then len else 127.

Definition path_in (var : string) (uva len : Z) : M fsys unit :=
  pid ← in_thr get_curid;
  _ ← in_vm (pt_copyin pid uva (path_addr var pid) (path_cut len));
  mret tt.

Definition path_end (var : string) (len : Z) : M fsys (list Z) :=
  pid ← in_thr get_curid;
  let buf := path_addr var pid in
  _ ← in_vm (modify (λ v, set_mem (write8 (v_mem v) (buf + path_cut len) NUL) v));
  in_vm (gets (λ v, read_bytes (v_mem v) buf 128)).

Definition copy_path (var : string) (uva len : Z) : M fsys (list Z) :=
  _ ← path_in var uva len; path_end var len.

Definition link_bad (t : tf_t) (ip : Z) : M fsys tf_t :=
  _ ← in_ino (inode_lock ip);
  _ ← in_ino (ip_upd ip (λ i, set_i_nlink (s16 (i_nlink i - 1)) i));
  _ ← in_ino (inode_update ip);
  _ ← in_ino (inode_unlockput ip_addr ip);
  _ ← in_log (commit_trans log_addr);
  mret (syscall_set_errno t E_DISK_OP).

Definition sys_link (t : tf_t) : M fsys tf_t :=
  _ ← path_in "old" (syscall_get_arg2 t) (syscall_get_arg4 t);
  _ ← path_in "new" (syscall_get_arg3 t) (syscall_get_arg5 t);
  old ← path_end "old" (syscall_get_arg4 t);
  new ← path_end "new" (syscall_get_arg5 t);
  ip ← in_ino (namei ip_addr junk old);
  if ip =? 0 then mret (syscall_set_errno t E_NEXIST)
  else
    _ ← in_log begin_trans;
    _ ← in_ino (inode_lock ip);
    type ← in_ino (ip_get i_type ip);
    if type =? T_DIR then
      _ ← in_ino (inode_unlockput ip_addr ip);
      _ ← in_log (commit_trans log_addr);
      mret (syscall_set_errno t E_DISK_OP)
    else
      _ ← in_ino (ip_upd ip (λ i, set_i_nlink (s16 (i_nlink i + 1)) i));
      _ ← in_ino (inode_update ip);
      _ ← in_ino (inode_unlock ip_addr ip);
      r ← in_ino (nameiparent ip_addr junk new);
      if r.1 =? 0 then link_bad t ip
      else
        let dp := r.1 in
        _ ← in_ino (inode_lock dp);
        i ← in_ino (ip_get id ip);
        d ← in_ino (ip_get i_dev dp);
        bad ← (if negb (d =? i_dev i) then mret true
               else l ← in_ino (dir_link ip_addr junk dp r.2 (i_inum i)); mret (l <? 0));
        if (bad : bool) then
          _ ← in_ino (inode_unlockput ip_addr dp);
          link_bad t ip
        else
          _ ← in_ino (inode_unlockput ip_addr dp);
          _ ← in_ino (inode_put ip_addr ip);
          _ ← in_log (commit_trans log_addr);
          mret (syscall_set_errno t E_SUCC).

(** The loop of [isdirempty]. *)
Fixpoint empty_scan (fuel : nat) (dp off : Z) : M ino bool :=
  size ← ip_get i_size dp;
  if off <? size then
    match fuel with
    | O => fail OutOfFuel
    | S fuel =>
      de ← read_de junk dp off "isdirempty: readi";
      if negb (de_inum de =? 0) then mret false else empty_scan fuel dp (off + DE_SIZE)
    end
  else mret true.

Definition isdirempty (dp : Z) : M ino bool :=
  size ← ip_get i_size dp; empty_scan (dir_fuel size) dp (2 * DE_SIZE).

Definition unlink_bad (t : tf_t) (dp : Z) : M fsys tf_t :=
  _ ← in_ino (inode_unlockput ip_addr dp);
  _ ← in_log (commit_trans log_addr);
  mret (syscall_set_errno t E_DISK_OP).

(** The names ["."] and [".."]. *)
Definition DOT : list Z := [46].
Definition DOTDOT : list Z := [46; 46].

(** The removal itself, once the entry at [off] of [dp] has been found. *)
Definition unlink_entry (t : tf_t) (dp ip off : Z) : M fsys tf_t :=
  w ← in_ino (inode_write junk dp (replicate (Z.to_nat DE_SIZE) 0) off DE_SIZE);
  _ ← (if negb (u32 w =? DE_SIZE) then fail (Panic "unlink: writei") else mret tt);
  type ← in_ino (ip_get i_type ip);
  _ ← (if type =? T_DIR then
         _ ← in_ino (ip_upd dp (λ i, set_i_nlink (s16 (i_nlink i - 1)) i));
         in_ino (inode_update dp)
       else mret tt);
  _ ← in_ino (inode_unlockput ip_addr dp);
  _ ← in_ino (ip_upd ip (λ i, set_i_nlink (s16 (i_nlink i - 1)) i));
  _ ← in_ino (inode_update ip);
  _ ← in_ino (inode_unlockput ip_addr ip);
  _ ← in_log (commit_trans log_addr);
  mret (syscall_set_errno t E_SUCC).

Definition sys_unlink (t : tf_t) : M fsys tf_t :=
  path ← copy_path "path" (syscall_get_arg2 t) (syscall_get_arg3 t);
  r ← in_ino (nameiparent ip_addr junk path);
  let dp := r.1 in
  let name := r.2 in
  if dp =? 0 then mret (syscall_set_errno t E_DISK_OP)
  else
    _ ← in_log begin_trans;
    _ ← in_ino (inode_lock dp);
    if (dir_namecmp name DOT =? 0) || (dir_namecmp name DOTDOT =? 0) then unlink_bad t dp
    else
      l ← in_ino (dir_lookup junk dp name);
      let ip := l.1 in
      if ip =? 0 then unlink_bad t dp
      else
        _ ← in_ino (inode_lock ip);
        i ← in_ino (ip_get id ip);
        _ ← (if i_nlink i <? 1 then fail (Panic "unlink: nlink < 1") else mret tt);
        full ← (if i_type i =? T_DIR then e ← in_ino (isdirempty ip); mret (negb e)
                else mret false);
        if (full : bool) then
          _ ← in_ino (inode_unlockput ip_addr ip);
          unlink_bad t dp
        else unlink_entry t dp ip l.2.

(** The new inode of [create], locked, linked into [dp]. *)
Definition create_new (dp : Z) (name : list Z) (type major minor : Z) : M ino Z :=
  dev ← ip_get i_dev dp;
  ip ← inode_alloc dev type;
  _ ← (if ip =? 0 then fail (Panic "create: ialloc") else mret tt);
  _ ← inode_lock ip;
  _ ← ip_upd ip (λ i, set_i_meta (i_type i) major minor 1 (i_size i) i);
  _ ← inode_update ip;
  inum ← ip_get i_inum ip;
  _ ← (if type =? T_DIR then
         _ ← ip_upd dp (λ i, set_i_nlink (s16 (i_nlink i + 1)) i);
         _ ← inode_update dp;
         l ← dir_link ip_addr junk ip DOT inum;
         l' ← (if l <? 0 then mret (-1)
               else pinum ← ip_get i_inum dp; dir_link ip_addr junk ip DOTDOT pinum);
         if l' <? 0 then fail (Panic "create dots") else mret tt
       else mret tt);
  l ← dir_link ip_addr junk dp name inum;
  _ ← (if l <? 0 then fail (Panic "create: dir_link") else mret tt);
  _ ← inode_unlockput ip_addr dp;
  mret ip.

Definition create (path : list Z) (type major minor : Z) : M ino Z :=
  r ← nameiparent ip_addr junk path;
  let dp := r.1 in
  if dp =? 0 then mret 0
  else
    _ ← inode_lock dp;
    l ← dir_lookup junk dp r.2;
    let ip := l.1 in
    if negb (ip =? 0) then
      _ ← inode_unlockput ip_addr dp;
      _ ← inode_lock ip;
      ty ← ip_get i_type ip;
      if (type =? T_FILE) && (ty =? T_FILE) then mret ip
      else _ ← inode_unlockput ip_addr ip; mret 0
    else create_new dp r.2 type major minor.

(** The inode [sys_open] opens, locked, or the error. *)
Definition open_inode (path : list Z) (omode : Z) : M fsys (Z + Z) :=
  if flag O_CREATE omode then
    _ ← in_log begin_trans;
    ip ← in_ino (create path T_FILE 0 0);
    _ ← in_log (commit_trans log_addr);
    mret (if ip =? 0 then inr E_CREATE else inl ip)
  else
    ip ← in_ino (namei ip_addr junk path);
    if ip =? 0 then mret (inr E_NEXIST)
    else
      _ ← in_ino (inode_lock ip);
      type ← in_ino (ip_get i_type ip);
      if (type =? T_DIR) && negb (omode =? O_RDONLY) then
        _ ← in_ino (inode_unlockput ip_addr ip);
        mret (inr E_DISK_OP)
      else mret (inl ip).

Definition sys_open (t : tf_t) : M fsys tf_t :=
  first ← gets first_open;
  _ ← (if (first : bool) then _ ← modify (set_first_open false); in_log log_init else mret tt);
  path ← copy_path "path" (syscall_get_arg2 t) (syscall_get_arg4 t);
  let omode := s32 (syscall_get_arg3 t) in
  o ← open_inode path omode;
  match o with
  | inr e => mret (sys_result t e (-1))
  | inl ip =>
    f ← file_alloc;
    fd ← (if f =? 0 then mret (-1) else fdalloc f);
    if fd <? 0 then
      _ ← (if f =? 0 then mret tt else file_close f);
      _ ← in_ino (inode_unlockput ip_addr ip);
      mret (sys_result t E_DISK_OP (-1))
    else
      _ ← in_ino (inode_unlock ip_addr ip);
      _ ← fp_upd f (set_f_open ip (cbool (negb (flag O_WRONLY omode)))
                      (cbool (flag O_WRONLY omode || flag O_RDWR omode)));
      mret (sys_result t E_SUCC fd)
  end.

Definition sys_mkdir (t : tf_t) : M fsys tf_t :=
  path ← copy_path "path" (syscall_get_arg2 t) (syscall_get_arg3 t);
  _ ← in_log begin_trans;
  ip ← in_ino (create path T_DIR 0 0);
  if ip =? 0 then
    _ ← in_log (commit_trans log_addr);
    mret (syscall_set_errno t E_DISK_OP)
  else
    _ ← in_ino (inode_unlockput ip_addr ip);
    _ ← in_log (commit_trans log_addr);
    mret (syscall_set_errno t E_SUCC).

Definition sys_chdir (t : tf_t) : M fsys tf_t :=
  pid ← in_thr get_curid;
  path ← copy_path "path" (syscall_get_arg2 t) (syscall_get_arg3 t);
  ip ← in_ino (namei ip_addr junk path);
  if ip =? 0 then mret (syscall_set_errno t E_DISK_OP)
  else
    _ ← in_ino (inode_lock ip);
    type ← in_ino (ip_get i_type ip);
    if negb (type =? T_DIR) then
      _ ← in_ino (inode_unlockput ip_addr ip);
      mret (syscall_set_errno t E_DISK_OP)
    else
      _ ← in_ino (inode_unlock ip_addr ip);
      cwd ← in_thr (tcb_get_cwd pid);
      _ ← in_ino (inode_put ip_addr cwd);
      _ ← in_thr (tcb_set_cwd pid ip);
      mret (syscall_set_errno t E_SUCC).
End File.
