(* ===== verification/Console.v ===== *)
(** * The console (kern/dev: keyboard.c, serial.c, video.c, console.c)

    Characters come from the keyboard and the serial line into a ring buffer and
    go to the serial line and the text screen.  The ports are modelled by the
    bytes waiting in the two controllers and the bytes sent. *)

From S2P Require Import Prelude Memory Strings Resume Spinlock PhysMap Pmm Container PageTable.
From S2P Require Import Isolation UserCopy Tcb TQueue Thread.

(** [char], a signed byte. *)
Definition s8 (x : Z) : Z := (x + 128) mod 256 - 128.

Definition CONSOLE_BUFFER_SIZE : Z := 512.
Definition BUFLEN : Z := 1024.
Definition CRT_COLS : Z := 80.
Definition CRT_SIZE : Z := 25 * CRT_COLS.

(** ** State *)

(** The screen: cells of a character and an attribute, and the cursor. *)
Record video := Video { crt_buf : list Z; crt_pos : Z }.

(** [cons], [linebuf], the [shift] of the keyboard, and the devices. *)
Record con := Con {
  cons_lk : spinlock;
  cons_buf : gmap Z Z; rpos : Z; wpos : Z;
  linebuf : gmap Z Z;
  shift : Z; kbd_in : list Z;
  serial_exists : bool; com_in : list Z; com_out : list Z;
  terminal : video
}.

Definition l_cons_lk : lens con spinlock :=
  Lens cons_lk (λ k s, Con k (cons_buf s) (rpos s) (wpos s) (linebuf s) (shift s) (kbd_in s)
                         (serial_exists s) (com_in s) (com_out s) (terminal s)).
Definition l_terminal : lens con video :=
  Lens terminal (λ v s, Con (cons_lk s) (cons_buf s) (rpos s) (wpos s) (linebuf s) (shift s)
                          (kbd_in s) (serial_exists s) (com_in s) (com_out s) v).
Definition set_ring (b : gmap Z Z) (r w : Z) (s : con) : con :=
  Con (cons_lk s) b r w (linebuf s) (shift s) (kbd_in s) (serial_exists s) (com_in s) (com_out s)
    (terminal s).
Definition set_linebuf (b : gmap Z Z) (s : con) : con :=
  Con (cons_lk s) (cons_buf s) (rpos s) (wpos s) b (shift s) (kbd_in s) (serial_exists s)
    (com_in s) (com_out s) (terminal s).
Definition set_kbd (sh : Z) (l : list Z) (s : con) : con :=
  Con (cons_lk s) (cons_buf s) (rpos s) (wpos s) (linebuf s) sh l (serial_exists s) (com_in s)
    (com_out s) (terminal s).
Definition set_com (e : bool) (i o : list Z) (s : con) : con :=
  Con (cons_lk s) (cons_buf s) (rpos s) (wpos s) (linebuf s) (shift s) (kbd_in s) e i o (terminal s).

(** ** keyboard.c *)

Definition NO : Z := 0.
Definition SHIFT : Z := 1.
Definition CTL : Z := 2.
Definition ALT : Z := 4.
Definition CAPSLOCK : Z := 8.
Definition NUMLOCK : Z := 16.
Definition SCROLLLOCK : Z := 32.
Definition E0ESC : Z := 64.

Definition KEY_HOME : Z := 224.
Definition KEY_END : Z := 225.
Definition KEY_UP : Z := 226.
Definition KEY_DN : Z := 227.
Definition KEY_LF : Z := 228.
Definition KEY_RT : Z := 229.
Definition KEY_PGUP : Z := 230.
Definition KEY_PGDN : Z := 231.
Definition KEY_INS : Z := 232.
Definition KEY_DEL : Z := 233.

(** An array initialised by a list and by designated elements; the rest is zero. *)
Definition table (l : list Z) (ds : list (Z * Z)) (i : Z) : Z :=
  match list_find (λ d, d.1 = i) ds with
  | Some (_, d) => d.2
  | None => nth (Z.to_nat i) l 0
  end.

(** The codes of the characters of a string. *)
Definition codes (s : string) : list Z :=
  (λ a, Z.of_N (Ascii.N_of_ascii a)) <$> String.list_ascii_of_string s.

Definition shiftcode : Z → Z :=
  table [] [(29, CTL); (42, SHIFT); (54, SHIFT); (56, ALT); (157, CTL); (184, ALT)].
Definition togglecode : Z → Z := table [] [(58, CAPSLOCK); (69, NUMLOCK); (70, SCROLLLOCK)].

(** The keypad of the first three maps. *)
Definition special_keys : list (Z * Z) :=
  [(200, KEY_UP); (201, KEY_PGUP); (203, KEY_LF); (205, KEY_RT); (207, KEY_END); (208, KEY_DN);
   (209, KEY_PGDN); (210, KEY_INS); (211, KEY_DEL)].
Definition keypad : list Z := replicate 13 NO ++ codes "789-456+1230." ++ replicate 4 NO.

Definition normalmap : Z → Z :=
  table ([NO; 27] ++ codes "1234567890-=" ++ [8; 9] ++ codes "qwertyuiop[]" ++ [10; NO]
         ++ codes "asdfghjkl;'`" ++ [NO; 92] ++ codes "zxcvbnm,./" ++ [NO] ++ codes "*"
         ++ [NO] ++ codes " " ++ keypad)
    ([(199, KEY_HOME); (156, 10); (181, 47)] ++ special_keys).

Definition shiftmap : Z → Z :=
  table ([NO; 27] ++ codes "!@#$%^&*()_+" ++ [8; 9] ++ codes "QWERTYUIOP{}" ++ [10; NO]
         ++ codes "ASDFGHJKL:" ++ [34] ++ codes "~" ++ [NO] ++ codes "|ZXCVBNM<>?" ++ [NO]
         ++ codes "*" ++ [NO] ++ codes " " ++ keypad)
    ([(199, KEY_HOME); (156, 10); (181, 47)] ++ special_keys).

(** [C(x)] *)
Definition ctl (s : string) : list Z := (λ c, c - 64) <$> codes s.

Definition ctlmap : Z → Z :=
  table (replicate 16 NO ++ ctl "QWERTYUIOP" ++ [NO; NO; 13; NO] ++ ctl "ASDFGHJKL"
         ++ replicate 4 NO ++ ctl "\ZXCVBNM" ++ [NO; NO] ++ (u8 <$> ctl "/") ++ [NO; NO])
    ([(151, KEY_HOME); (181, u8 (47 - 64))] ++ special_keys).

Definition charcode (i : Z) : Z → Z :=
  if i =? 0 then normalmap else if i =? 1 then shiftmap else ctlmap.

(** The state of the shift keys and the character for a byte of the keyboard. *)
Definition kbd_decode (sh data : Z) : Z * Z :=
  if data =? 224 then (Z.lor sh E0ESC, 0)
  else if negb (Z.land data 128 =? 0) then
    let data := if negb (Z.land sh E0ESC =? 0) then data else Z.land data 127 in
    (Z.land sh (u32 (Z.lnot (Z.lor (shiftcode data) E0ESC))), 0)
  else
    let '(sh, data) := if negb (Z.land sh E0ESC =? 0)
                       then (Z.land sh (u32 (Z.lnot E0ESC)), Z.lor data 128) else (sh, data) in
    let sh := Z.lor sh (shiftcode data) in
    let sh := Z.lxor sh (togglecode data) in
    let c := charcode (Z.land sh (Z.lor CTL SHIFT)) data in
    let c := if negb (Z.land sh CAPSLOCK =? 0) then
               if (97 <=? c) && (c <=? 122) then c - 32
               else if (65 <=? c) && (c <=? 90) then c + 32 else c
             else c in
    (sh, c).

(** Minus one when the controller has no byte.  Ctrl-Alt-Del resets the machine. *)
Definition kbd_proc_data : M con Z :=
  q ← gets kbd_in;
  match q with
  | [] => mret (-1)
  | data :: q =>
    sh ← gets shift;
    let '(sh', c) := kbd_decode sh data in
    _ ← modify (set_kbd sh' q);
    if (Z.land (Z.lnot sh') (Z.lor CTL ALT) =? 0) && (c =? KEY_DEL)
    then fail (Panic "Rebooting!") else mret c
  end.

(** ** serial.c *)

Definition serial_proc_data : M con Z :=
  q ← gets com_in;
  match q with
  | [] => mret (-1)
  | c :: q => _ ← modify (λ s, set_com (serial_exists s) q (com_out s) s); mret c
  end.

Definition com_send (bs : list Z) : M con unit :=
  modify (λ s, set_com (serial_exists s) (com_in s) (com_out s ++ bs) s).

(** One, and a carriage return before the newline, if [c] is a newline. *)
Definition serial_reformatnewline (c : Z) : M con bool :=
  if c =? 10 then _ ← com_send [13; 10]; mret true else mret false.

(** The wait for the transmitter, bounded, changes nothing. *)
Definition serial_putc (c : Z) : M con unit :=
  e ← gets serial_exists;
  if negb e then mret tt
  else r ← serial_reformatnewline c; if (r : bool) then mret tt else com_send [u8 c].

(** ** video.c *)

(** [terminal.crt_buf[i] = v] *)
Definition crt_put (i v : Z) : M video unit :=
  _ ← chk "crt_buf" CRT_SIZE i;
  modify (λ t, Video (<[Z.to_nat i := u16 v]> (crt_buf t)) (crt_pos t)).

Definition crt_move (f : Z → Z) : M video unit :=
  modify (λ t, Video (crt_buf t) (u16 (f (crt_pos t)))).

Definition crt_scroll : M video unit :=
  pos ← gets crt_pos;
  if CRT_SIZE <=? pos then
    modify (λ t, Video (take (Z.to_nat (CRT_SIZE - CRT_COLS)) (drop (Z.to_nat CRT_COLS) (crt_buf t))
                        ++ replicate (Z.to_nat CRT_COLS) (Z.lor 1792 32))
                   (u16 (crt_pos t - CRT_COLS)))
  else mret tt.

(** The cell for a character: black on white if it has no attribute. *)
Definition with_attr (c : Z) : Z :=
  if Z.land c (Z.lnot 255) =? 0 then Z.lor c 1792 else c.

(** The call for any character but a tab; the cursor registers are not kept. *)
Definition video_char (c : Z) : M video unit :=
  let c := with_attr c in
  pos ← gets crt_pos;
  _ ← (if Z.land c 255 =? 8 then
         if 0 <? pos then
           _ ← crt_move (λ p, p - 1);
           crt_put (pos - 1) (Z.lor (Z.land c (Z.lnot 255)) 32)
         else mret tt
       else if Z.land c 255 =? 10 then
         _ ← crt_move (λ p, p + CRT_COLS);
         crt_move (λ p, p - p mod CRT_COLS)
       else if Z.land c 255 =? 13 then crt_move (λ p, p - p mod CRT_COLS)
       else _ ← crt_put pos c; crt_move (λ p, p + 1));
  crt_scroll.

Definition video_putc (c : Z) : M video unit :=
  if Z.land c 255 =? 9 then _ ← for_range 0 5 (λ _, video_char 32); crt_scroll
  else video_char c.

Definition video_set_cursor (x y : Z) : M video unit := crt_move (λ _, x * CRT_COLS + y).

Definition video_clear_screen : M video unit := for_range 0 CRT_SIZE (λ i, crt_put i 32).

(** ** console.c *)

(** The loop of [cons_intr], which ends when the device has no more. *)
Fixpoint cons_intr_loop (fuel : nat) (proc : M con Z) : M con unit :=
  c ← proc;
  if c =? -1 then mret tt
  else match fuel with
  | O => fail OutOfFuel
  | S fuel =>
    if c =? 0 then cons_intr_loop fuel proc
    else
      _ ← modify (λ s, set_ring (<[wpos s := s8 c]> (cons_buf s)) (rpos s)
                         (if wpos s + 1 =? CONSOLE_BUFFER_SIZE then 0 else wpos s + 1) s);
      cons_intr_loop fuel proc
  end.

(** Each turn takes a byte of the device [dev]. *)
Definition cons_intr (dev : con → list Z) (proc : M con Z) : M con unit :=
  _ ← lift l_cons_lk (spinlock_acquire "cons_lk");
  n ← gets (λ s, length (dev s));
  _ ← cons_intr_loop n proc;
  lift l_cons_lk spinlock_release.

Definition keyboard_intr : M con unit := cons_intr kbd_in kbd_proc_data.

Definition serial_intr : M con unit :=
  e ← gets serial_exists; if (e : bool) then cons_intr com_in serial_proc_data else mret tt.

Definition cons_getc : M con Z :=
  _ ← serial_intr;
  _ ← keyboard_intr;
  _ ← lift l_cons_lk (spinlock_acquire "cons_lk");
  s ← gets id;
  if negb (rpos s =? wpos s) then
    let c := aget (cons_buf s) (rpos s) in
    _ ← modify (set_ring (cons_buf s)
                  (if rpos s + 1 =? CONSOLE_BUFFER_SIZE then 0 else rpos s + 1) (wpos s));
    _ ← lift l_cons_lk spinlock_release;
    mret c
  else
    _ ← lift l_cons_lk spinlock_release;
    mret 0.

Definition cons_putc (c : Z) : M con unit :=
  _ ← serial_putc c; lift l_terminal (video_putc c).

Definition putchar (c : Z) : M con unit := cons_putc c.

(** [dprintf] of a string without conversions. *)
Fixpoint cons_puts (cs : list Z) : M con unit :=
  match cs with
  | [] => mret tt
  | c :: cs => _ ← cons_putc c; cons_puts cs
  end.

(** The devices answer as they do.  [video_init] prints [msg] before it has found the
    text of the screen: the static pointer to it is still null, so that [terminal] is
    the memory at address zero then.  It takes the position from the cursor, which
    follows the text. *)
Definition cons_init (exists_ : bool) (msg screen : list Z) : M con unit :=
  _ ← modify (set_ring ∅ 0 0);
  _ ← modify (λ s, set_com exists_ (com_in s) (com_out s) s);
  _ ← cons_puts msg;
  pos ← lift l_terminal (gets crt_pos);
  _ ← lift l_terminal (modify (λ _, Video screen (u16 pos)));
  lift l_cons_lk spinlock_init.

(** What [readline] does with a character when the line has [i] of them: the end
    of the call with its result, or the new [i]. *)
Definition readline_char (c i : Z) : M con (bool + Z) :=
  if c <? 0 then _ ← cons_puts (codes "read error: %e" ++ [10]); mret (inl false)
  else if c =? 3 then
    _ ← putchar 94; _ ← putchar 67; _ ← putchar 10; mret (inl false)
  else if ((c =? 8) || (c =? 127)) && (0 <? i) then
    _ ← putchar 8; mret (inr (i - 1))
  else if (32 <=? c) && (i <? BUFLEN - 1) then
    _ ← putchar c;
    _ ← chk "linebuf" BUFLEN i;
    _ ← modify (λ s, set_linebuf (<[i := c]> (linebuf s)) s);
    mret (inr (i + 1))
  else if (c =? 10) || (c =? 13) then
    _ ← putchar 10;
    _ ← chk "linebuf" BUFLEN i;
    _ ← modify (λ s, set_linebuf (<[i := 0]> (linebuf s)) s);
    mret (inl true)
  else mret (inr i).

(** The characters of [linebuf] as a pointer to it. *)
Definition line_bytes (s : con) : list Z := (λ i, aget (linebuf s) i) <$> seqZ 0 BUFLEN.

(** [getchar] yields to other threads while there is no character. *)
Section Blocking.
Context {S : Type} (lt : lens S thr) (lc : lens S con).

(** [fuel] bounds the polls of one call. *)
Fixpoint getchar (fuel : nat) : KM S Z :=
  c ← run (lift lc cons_getc);
  if c =? 0 then
    match fuel with
    | O => kfail OutOfFuel
    | Datatypes.S fuel => _ ← klift lt thread_yield; getchar fuel
    end
  else mret c.

Fixpoint readline_loop (polls fuel : nat) (i : Z) : KM S (option (list Z)) :=
  match fuel with
  | O => kfail OutOfFuel
  | Datatypes.S fuel =>
    c ← getchar polls;
    r ← run (lift lc (readline_char (s8 c) i));
    match r with
    | inl true => l ← run (lift lc (gets line_bytes)); mret (Some l)
    | inl false => mret None
    | inr i => readline_loop polls fuel i
    end
  end.

(** [None] is the null pointer.  [fuel] bounds the characters of the line. *)
Definition readline (polls fuel : nat) (prompt : list Z) : KM S (option (list Z)) :=
  _ ← run (lift lc (cons_puts (cstr prompt)));
  readline_loop polls fuel 0.
End Blocking.

(** ** The screen as a window on paper

    [ink] holds everything ever written, one row of 80 cells after the other;
    the screen shows the 25 rows from [top] on. *)

Definition blank : Z := 1824.

Record paper := Paper { ink : Z → Z; top : Z; pen : Z }.

Definition write_at (i v : Z) (f : Z → Z) (j : Z) : Z := if decide (i = j) then v else f j.

(** The window follows the pen. *)
Definition follow (p : paper) : paper :=
  if CRT_SIZE <=? pen p - CRT_COLS * top p then Paper (ink p) (top p + 1) (pen p) else p.

Definition paper_char (c : Z) (p : paper) : paper :=
  let c := with_attr c in
  follow (
    if Z.land c 255 =? 8 then
      if CRT_COLS * top p <? pen p
      then Paper (write_at (pen p - 1) (u16 (Z.lor (Z.land c (Z.lnot 255)) 32)) (ink p)) (top p)
             (pen p - 1)
      else p
    else if Z.land c 255 =? 10 then Paper (ink p) (top p) ((pen p / CRT_COLS + 1) * CRT_COLS)
    else if Z.land c 255 =? 13 then Paper (ink p) (top p) (pen p / CRT_COLS * CRT_COLS)
    else Paper (write_at (pen p) (u16 c) (ink p)) (top p) (pen p + 1)).

Definition paper_putc (c : Z) (p : paper) : paper :=
  if Z.land c 255 =? 9 then Nat.iter 5 (paper_char 32) p else paper_char c p.

Record shows (t : video) (p : paper) : Prop := {
  sh_len : length (crt_buf t) = Z.to_nat CRT_SIZE;
  sh_pos : crt_pos t = pen p - CRT_COLS * top p;
  sh_range : 0 ≤ crt_pos t ≤ CRT_SIZE;
  sh_cells i : 0 ≤ i < CRT_SIZE → nth (Z.to_nat i) (crt_buf t) 0 = ink p (CRT_COLS * top p + i);
  sh_blank j : CRT_COLS * top p + CRT_SIZE ≤ j → ink p j = blank
}.

(** The cursor is on the screen between calls. *)
Definition on_screen (t : video) : Prop := crt_pos t < CRT_SIZE.

Ltac crt := unfold CRT_SIZE, CRT_COLS in *; lia.

Lemma u16_small x : 0 ≤ x < 65536 → u16 x = x.
Proof. intros. by apply Z.mod_small. Qed.

Lemma shows_scroll Q t p :
  shows t p → (∀ t', shows t' (follow p) → on_screen t' → Q tt t') → wp crt_scroll Q t.
Proof.
  intros [Hl Hp Hr Hc Hb] HQ. unfold crt_scroll. apply wp_bind, wp_gets.
  unfold follow in HQ. rewrite <- Hp in HQ.
  destruct (Z.leb_spec CRT_SIZE (crt_pos t)); [|apply wp_ret, HQ; [done|unfold on_screen; lia]].
  apply wp_modify. assert (crt_pos t = CRT_SIZE) as E by lia.
  apply HQ; [|unfold on_screen; cbn [crt_pos]; rewrite E, u16_small; crt].
  assert (crt_pos t - CRT_COLS = u16 (crt_pos t - CRT_COLS)) as Hu by (rewrite u16_small; crt).
  split; cbn [crt_buf crt_pos ink top pen].
  - rewrite length_app, length_take, length_drop, length_replicate, Hl. crt.
  - rewrite <- Hu. crt.
  - rewrite <- Hu. crt.
  - intros i Hi.
    assert (length (take (Z.to_nat (CRT_SIZE - CRT_COLS)) (drop (Z.to_nat CRT_COLS) (crt_buf t)))
            = Z.to_nat (CRT_SIZE - CRT_COLS)) as Hlt.
    { rewrite length_take, length_drop, Hl. crt. }
    destruct (decide (i < CRT_SIZE - CRT_COLS)).
    + rewrite app_nth1, nth_firstn by (rewrite ?Hlt; crt).
      destruct (Nat.ltb_spec (Z.to_nat i) (Z.to_nat (CRT_SIZE - CRT_COLS))); [|crt].
      rewrite nth_skipn. replace (Z.to_nat CRT_COLS + Z.to_nat i)%nat with (Z.to_nat (CRT_COLS + i)) by crt.
      rewrite Hc by crt. f_equal. crt.
    + rewrite app_nth2 by (rewrite Hlt; crt). rewrite nth_lookup, lookup_replicate_2 by (rewrite Hlt; crt).
      rewrite Hb; [done|crt].
  - intros j Hj. apply Hb. crt.
Qed.

Lemma shows_put t p i v Q :
  shows t p → CRT_COLS * top p ≤ i < CRT_COLS * top p + CRT_SIZE →
  (∀ t', shows t' (Paper (write_at i (u16 v) (ink p)) (top p) (pen p)) → crt_pos t' = crt_pos t →
     Q tt t') →
  wp (crt_put (i - CRT_COLS * top p) v) Q t.
Proof.
  intros [Hl Hp Hr Hc Hb] Hi HQ. unfold crt_put. apply wp_bind, wp_chk; [lia|].
  apply wp_modify, HQ; [|done]. split; cbn [crt_buf crt_pos ink top pen]; [|done|done| |].
  - by rewrite length_insert.
  - intros k Hk. rewrite nth_lookup. unfold write_at. case_decide as E.
    + replace (Z.to_nat k) with (Z.to_nat (i - CRT_COLS * top p)) by crt.
      by rewrite list_lookup_insert_eq by (rewrite Hl; crt).
    + rewrite list_lookup_insert_ne by crt. rewrite <- nth_lookup. by apply Hc.
  - intros j Hj. unfold write_at. rewrite decide_False by crt. by apply Hb.
Qed.

Lemma shows_move t p f q Q :
  shows t p → f (crt_pos t) = q - CRT_COLS * top p → 0 ≤ f (crt_pos t) ≤ CRT_SIZE →
  (∀ t', shows t' (Paper (ink p) (top p) q) → Q tt t') →
  wp (crt_move f) Q t.
Proof.
  intros [Hl Hp Hr Hc Hb] Hf Hq HQ. apply wp_modify, HQ.
  assert (u16 (f (crt_pos t)) = f (crt_pos t)) as E by (apply u16_small; crt).
  split; cbn [crt_buf crt_pos ink top pen]; rewrite ?E; done.
Qed.

Lemma crt_move_move f g : (_ ← crt_move f; crt_move g) = crt_move (λ x, g (u16 (f x))).
Proof. done. Qed.

(** The column of a position is the same on the screen and on the paper. *)
Lemma column p k : (p - CRT_COLS * k) mod CRT_COLS = p - p / CRT_COLS * CRT_COLS.
Proof.
  replace (p - CRT_COLS * k) with (p + - k * CRT_COLS) by lia.
  rewrite Z.mod_add by done. pose proof (Z.div_mod p CRT_COLS ltac:(done)). lia.
Qed.

Lemma column_next p k : (p - CRT_COLS * k + CRT_COLS) mod CRT_COLS = p - p / CRT_COLS * CRT_COLS.
Proof.
  replace (p - CRT_COLS * k + CRT_COLS) with (p - CRT_COLS * (k - 1)) by lia. apply column.
Qed.

Lemma video_char_shows c t p Q :
  shows t p → on_screen t →
  (∀ t', shows t' (paper_char c p) → on_screen t' → Q tt t') →
  wp (video_char c) Q t.
Proof.
  intros Hs Ho HQ. pose proof (sh_pos _ _ Hs) as Hp. pose proof (sh_range _ _ Hs) as Hr.
  pose proof (Z.div_mod (pen p) CRT_COLS ltac:(done)) as Hd.
  pose proof (Z.mod_pos_bound (pen p) CRT_COLS ltac:(done)) as Hm.
  unfold on_screen in Ho. unfold video_char. unfold paper_char in HQ.
  set (c' := with_attr c) in *. apply wp_bind, wp_gets, wp_bind.
  destruct (Z.eqb_spec (Z.land c' 255) 8).
  { rewrite Hp. destruct (Z.ltb_spec 0 (pen p - CRT_COLS * top p)).
    - rewrite (proj2 (Z.ltb_lt _ _)) in HQ by lia.
      apply wp_bind. eapply (shows_move _ _ _ (pen p - 1)); [done|crt..|]. intros t1 H1.
      replace (pen p - CRT_COLS * top p - 1) with (pen p - 1 - CRT_COLS * top p) by lia.
      eapply (shows_put _ _ _ _ _ H1); cbn [top ink pen]; [crt|]. intros t2 H2 _.
      by eapply shows_scroll.
    - rewrite (proj2 (Z.ltb_ge _ _)) in HQ by lia. apply wp_ret. by eapply shows_scroll. }
  destruct (Z.eqb_spec (Z.land c' 255) 10).
  { rewrite crt_move_move. eapply (shows_move _ _ _ ((pen p / CRT_COLS + 1) * CRT_COLS));
      [done| | |intros t1 H1; by eapply shows_scroll]; rewrite u16_small by crt;
      rewrite Hp, column_next; crt. }
  destruct (Z.eqb_spec (Z.land c' 255) 13).
  { eapply (shows_move _ _ _ (pen p / CRT_COLS * CRT_COLS));
      [done| | |intros t1 H1; by eapply shows_scroll]; rewrite Hp, column; crt. }
  apply wp_bind. rewrite Hp. eapply shows_put; [done|crt|]. intros t1 H1 E1.
  eapply (shows_move _ _ _ (pen p + 1)); [done|cbn [top pen]; lia..|].
  intros t2 H2. by eapply shows_scroll.
Qed.

(** The tab is five spaces. *)
Lemma video_putc_shows c t p Q :
  shows t p → on_screen t →
  (∀ t', shows t' (paper_putc c p) → on_screen t' → Q tt t') →
  wp (video_putc c) Q t.
Proof.
  intros Hs Ho HQ. unfold video_putc. unfold paper_putc in HQ.
  destruct (Z.eqb_spec (Z.land c 255) 9); [|by eapply video_char_shows].
  apply wp_bind, (wp_for_range (λ i t, shows t (Nat.iter (Z.to_nat i) (paper_char 32) p) ∧ on_screen t));
    [done|done| |].
  - intros j t1 Hj [H1 O1]. eapply video_char_shows; [done..|]. intros t2 H2 O2. split; [|done].
    by replace (Z.to_nat (j + 1)) with (S (Z.to_nat j)) by lia.
  - intros t1 [H1 O1]. unfold crt_scroll. apply wp_bind, wp_gets.
    rewrite (proj2 (Z.leb_gt _ _)) by done. by apply wp_ret, HQ.
Qed.

(** ** The ring buffer as a queue *)

Definition wrap (x : Z) : Z := x mod CONSOLE_BUFFER_SIZE.

Record ring (b : gmap Z Z) (r w : Z) (q : list Z) : Prop := {
  rg_r : 0 ≤ r < CONSOLE_BUFFER_SIZE;
  rg_w : w = wrap (r + Z.of_nat (length q));
  rg_len : Z.of_nat (length q) < CONSOLE_BUFFER_SIZE;
  rg_get i c : q !! i = Some c → aget b (wrap (r + Z.of_nat i)) = c
}.

Lemma wrap_next x : 0 ≤ x < CONSOLE_BUFFER_SIZE →
  (if x + 1 =? CONSOLE_BUFFER_SIZE then 0 else x + 1) = wrap (x + 1).
Proof.
  unfold CONSOLE_BUFFER_SIZE, wrap. intros. destruct (Z.eqb_spec (x + 1) 512) as [-> |]; [done|].
  symmetry. apply Z.mod_small. unfold CONSOLE_BUFFER_SIZE. lia.
Qed.

Lemma wrap_range x : 0 ≤ wrap x < CONSOLE_BUFFER_SIZE.
Proof. by apply Z.mod_pos_bound. Qed.

Lemma wrap_wrap x y : wrap (wrap x + y) = wrap (x + y).
Proof. unfold wrap. by rewrite Z.add_mod_idemp_l. Qed.

Lemma wrap_inj x y : wrap x = wrap y → 0 ≤ x - y < CONSOLE_BUFFER_SIZE → x = y.
Proof.
  intros E H. assert (wrap (x - y) = 0) as E'.
  { unfold wrap in *. by rewrite Zminus_mod, E, Z.sub_diag. }
  unfold wrap in E'. rewrite Z.mod_small in E'; lia.
Qed.

Lemma ring_push b r w q c :
  ring b r w q → Z.of_nat (length q) + 1 < CONSOLE_BUFFER_SIZE →
  ring (<[w := c]> b) r (if w + 1 =? CONSOLE_BUFFER_SIZE then 0 else w + 1) (q ++ [c]).
Proof.
  intros [Hr -> Hl Hg] Hl'. rewrite wrap_next by apply wrap_range. split; [done| | |].
  - rewrite wrap_wrap, length_app. cbn [length]. f_equal. lia.
  - rewrite length_app. cbn [length]. lia.
  - intros i d Hi. apply lookup_app_Some in Hi as [Hi|[Hi Hd]].
    + rewrite aget_ne; [by apply Hg|]. intros E%wrap_inj; apply lookup_lt_Some in Hi; lia.
    + apply list_lookup_singleton_Some in Hd as [Hd <-].
      replace i with (length q) by lia. apply aget_eq.
Qed.

Lemma ring_pop b r w c q :
  ring b r w (c :: q) →
  r ≠ w ∧ aget b r = c ∧ ring b (if r + 1 =? CONSOLE_BUFFER_SIZE then 0 else r + 1) w q.
Proof.
  intros [Hr -> Hl Hg]. rewrite wrap_next by done. cbn [length] in *. split_and!.
  - intros E. rewrite <- (Z.mod_small r CONSOLE_BUFFER_SIZE) in E at 1 by done.
    symmetry in E. apply wrap_inj in E; lia.
  - rewrite <- (Hg 0%nat c eq_refl). rewrite Z.add_0_r. unfold wrap. by rewrite Z.mod_small.
  - split; [apply wrap_range| |lia|].
    + rewrite wrap_wrap. f_equal. lia.
    + intros i d Hi. rewrite wrap_wrap, <- (Hg (S i) d Hi). do 2 f_equal. lia.
Qed.

Lemma ring_empty b r w : ring b r w [] → r = w.
Proof. intros [Hr -> _ _]. cbn. rewrite Z.add_0_r. unfold wrap. by rewrite Z.mod_small. Qed.

(** ** What the devices deliver *)

(** The run of a device from [s] until it has nothing left: [cs] are the
    characters it gives that are not zero.  It does not touch the ring. *)
Inductive gives (proc : M con Z) : nat → con → list Z → con → Prop :=
| gives_end s :
    (∀ b r w, proc (set_ring b r w s) = Ok (-1, set_ring b r w s)) → gives proc 0 s [] s
| gives_more n s c s1 cs s' :
    (∀ b r w, proc (set_ring b r w s) = Ok (c, set_ring b r w s1)) → c ≠ -1 →
    gives proc n s1 cs s' → gives proc (S n) s (if c =? 0 then cs else s8 c :: cs) s'.

Lemma cons_intr_loop_gives proc n s cs s' b r w q :
  gives proc n s cs s' → ring b r w q →
  Z.of_nat (length (q ++ cs)) < CONSOLE_BUFFER_SIZE →
  ∃ b' w', cons_intr_loop n proc (set_ring b r w s) = Ok (tt, set_ring b' r w' s')
    ∧ ring b' r w' (q ++ cs).
Proof.
  intros Hg. revert b w q. induction Hg as [s He|n s c s1 cs s' Hp Hc Hg IH]; intros b w q Hr Hl.
  - exists b, w. rewrite app_nil_r. split; [|done]. cbn. unfold mbind, M_bind. by rewrite He.
  - cbn. unfold mbind, M_bind. rewrite Hp. rewrite (proj2 (Z.eqb_neq _ _)) by done.
    destruct (Z.eqb_spec c 0); [by apply IH|].
    change (s8 c :: cs) with ([s8 c] ++ cs) in *. rewrite (assoc (++)) in Hl.
    assert (Z.of_nat (length q) + 1 < CONSOLE_BUFFER_SIZE) as Hq.
    { rewrite !length_app in Hl. cbn [length] in Hl. lia. }
    destruct (IH _ _ _ (ring_push _ _ _ _ (s8 c) Hr Hq) Hl) as (b' & w' & E & R).
    exists b', w'. rewrite (assoc (++)). split; [exact E|exact R].
Qed.

(** The bytes of the serial line are characters. *)
Definition serial_chars (l : list Z) : list Z := s8 <$> filter (λ c, c ≠ 0) l.

Lemma serial_gives s :
  Forall is_byte (com_in s) →
  gives serial_proc_data (length (com_in s)) s (serial_chars (com_in s))
    (set_com (serial_exists s) [] (com_out s) s).
Proof.
  remember (com_in s) as l eqn:E. intros Hl. revert s E.
  induction Hl as [|c l Hc Hl IH]; intros s E; cbn [length].
  - replace (set_com _ _ _ s) with s by (destruct s; cbn in *; by subst).
    apply gives_end. intros. unfold serial_proc_data, mbind, M_bind, gets.
    destruct s; cbn in *; by subst.
  - assert (serial_chars (c :: l) = if c =? 0 then serial_chars l else s8 c :: serial_chars l) as ->.
    { unfold serial_chars. rewrite filter_cons. destruct (Z.eqb_spec c 0); [rewrite decide_False by naive_solver|rewrite decide_True by done]; done. }
    apply (gives_more _ _ _ _ (set_com (serial_exists s) l (com_out s) s)).
    + intros. unfold serial_proc_data, mbind, M_bind, gets. destruct s; cbn in *; by subst.
    + unfold is_byte in Hc. lia.
    + by apply (IH (set_com (serial_exists s) l (com_out s) s)).
Qed.

(** The keyboard: the state of the shift keys after the bytes, and their
    characters; [None] if they restart the machine. *)
Fixpoint kbd_chars (sh : Z) (l : list Z) : option (Z * list Z) :=
  match l with
  | [] => Some (sh, [])
  | data :: l =>
    let '(sh', c) := kbd_decode sh data in
    if (Z.land (Z.lnot sh') (Z.lor CTL ALT) =? 0) && (c =? KEY_DEL) then None
    else match kbd_chars sh' l with
         | Some (sh'', cs) => Some (sh'', if c =? 0 then cs else s8 c :: cs)
         | None => None
         end
  end.

Lemma table_byte l ds i :
  Forall is_byte l → Forall (λ d, is_byte d.2) ds → is_byte (table l ds i).
Proof.
  intros Hl Hd. unfold table. destruct (list_find _ ds) as [[k d]|] eqn:E.
  - apply list_find_Some in E as (E & _). by apply (Forall_lookup_1 _ _ _ _ Hd E).
  - rewrite nth_lookup. destruct (l !! _) eqn:El; [|done]. by apply (Forall_lookup_1 _ _ _ _ Hl El).
Qed.

#[export] Instance is_byte_dec c : Decision (is_byte c).
Proof. unfold is_byte. apply _. Defined.

Lemma charcode_byte i data : is_byte (charcode i data).
Proof.
  unfold charcode. destruct (i =? 0); [|destruct (i =? 1)]; apply table_byte;
    apply (bool_decide_unpack _); vm_compute; exact I.
Qed.

(** Caps lock exchanges the cases. *)
Lemma kbd_decode_byte sh data : is_byte (kbd_decode sh data).2.
Proof.
  unfold kbd_decode. destruct (data =? 224); [done|]. destruct (negb (Z.land data 128 =? 0)); [done|].
  destruct (negb (Z.land sh E0ESC =? 0)); cbn [snd];
    pose proof charcode_byte as H; case_match; repeat case_match; try apply H;
    match goal with Hc : (_ && _) = true |- _ => apply andb_prop in Hc as [? ?] end;
    unfold is_byte; lia.
Qed.

Lemma kbd_proc_data_run s data l sh' c :
  data :: l = kbd_in s → kbd_decode (shift s) data = (sh', c) →
  (Z.land (Z.lnot sh') (Z.lor CTL ALT) =? 0) && (c =? KEY_DEL) = false →
  kbd_proc_data s = Ok (c, set_kbd sh' l s).
Proof.
  intros E Ed Er. unfold kbd_proc_data, mbind, M_bind, gets. rewrite <- E. cbv beta iota.
  rewrite Ed. cbv beta iota. cbn [modify]. by rewrite Er.
Qed.

Lemma kbd_gives s sh cs :
  kbd_chars (shift s) (kbd_in s) = Some (sh, cs) →
  gives kbd_proc_data (length (kbd_in s)) s cs (set_kbd sh [] s).
Proof.
  remember (kbd_in s) as l eqn:E. revert s E cs.
  induction l as [|data l IH]; intros s E cs; cbn [length kbd_chars].
  - intros [= <- <-]. replace (set_kbd _ _ s) with s by (destruct s; cbn in *; by subst).
    apply gives_end. intros. unfold kbd_proc_data, mbind, M_bind, gets. destruct s; cbn in *; by subst.
  - pose proof (kbd_decode_byte (shift s) data) as [Hc _].
    destruct (kbd_decode (shift s) data) as [sh' c] eqn:Ed.
    destruct (_ && _) eqn:Er; [done|].
    destruct (kbd_chars sh' l) as [[sh'' cs'']|] eqn:Ek; [|done]. intros [= <- <-].
    apply (gives_more _ _ _ _ (set_kbd sh' l s)).
    + intros. by apply (kbd_proc_data_run (set_ring b r w s) data).
    + cbn in Hc. lia.
    + by apply (IH (set_kbd sh' l s)).
Qed.

(** ** The characters waiting, oldest first *)

(** A character of the queue. *)
Definition typed (c : Z) : Prop := c ≠ 0 ∧ -128 ≤ c < 128.

(** [input s cs]: the ring, then the serial line, then the keyboard. *)
Definition input (s : con) (cs : list Z) : Prop :=
  unlocked (cons_lk s) ∧ Forall is_byte (com_in s) ∧
  ∃ q sh ks, ring (cons_buf s) (rpos s) (wpos s) q
    ∧ kbd_chars (shift s) (kbd_in s) = Some (sh, ks)
    ∧ cs = q ++ (if serial_exists s then serial_chars (com_in s) else []) ++ ks
    ∧ Z.of_nat (length cs) < CONSOLE_BUFFER_SIZE ∧ Forall typed q.

Lemma wp_cons_intr dev proc s cs s' q Q :
  gives proc (length (dev s)) (lset l_cons_lk locked s) cs s' →
  (∀ k, dev (lset l_cons_lk k s) = dev s) → unlocked (cons_lk s) →
  ring (cons_buf s) (rpos s) (wpos s) q →
  Z.of_nat (length (q ++ cs)) < CONSOLE_BUFFER_SIZE →
  (∀ b w, ring b (rpos s) w (q ++ cs) →
     Q tt (lset l_cons_lk released (set_ring b (rpos s) w s'))) →
  wp (cons_intr dev proc) Q s.
Proof.
  intros Hg Hd Hu Hr Hl HQ. unfold cons_intr. apply wp_bind, wp_lift. wp_lock.
  apply wp_bind, wp_gets. rewrite Hd. apply wp_bind.
  destruct (cons_intr_loop_gives _ _ _ _ _ _ _ _ _ Hg Hr Hl) as (b & w & E & R).
  replace (lset l_cons_lk locked s)
    with (set_ring (cons_buf s) (rpos s) (wpos s) (lset l_cons_lk locked s)) by by destruct s.
  eapply run_wp; [exact E|]. apply wp_lift. wp_lock. by apply HQ.
Qed.

Lemma wp_serial_intr s q Q :
  serial_exists s = true → Forall is_byte (com_in s) → unlocked (cons_lk s) →
  ring (cons_buf s) (rpos s) (wpos s) q →
  Z.of_nat (length (q ++ serial_chars (com_in s))) < CONSOLE_BUFFER_SIZE →
  (∀ b w, ring b (rpos s) w (q ++ serial_chars (com_in s)) →
     Q tt (lset l_cons_lk released (set_ring b (rpos s) w (set_com true [] (com_out s) s)))) →
  wp serial_intr Q s.
Proof.
  intros He Hb Hu Hr Hl HQ. unfold serial_intr. apply wp_bind, wp_gets. rewrite He.
  eapply wp_cons_intr; [apply (serial_gives (lset l_cons_lk locked s) Hb)|done..|].
  intros b w R. cbn. rewrite He. by apply HQ.
Qed.

Lemma wp_keyboard_intr s q sh ks Q :
  kbd_chars (shift s) (kbd_in s) = Some (sh, ks) → unlocked (cons_lk s) →
  ring (cons_buf s) (rpos s) (wpos s) q → Z.of_nat (length (q ++ ks)) < CONSOLE_BUFFER_SIZE →
  (∀ b w, ring b (rpos s) w (q ++ ks) →
     Q tt (lset l_cons_lk released (set_ring b (rpos s) w (set_kbd sh [] s)))) →
  wp keyboard_intr Q s.
Proof.
  intros Hk Hu Hr Hl HQ.
  eapply wp_cons_intr; [apply (kbd_gives (lset l_cons_lk locked s) _ _ Hk)|done..|].
  intros b w R. by apply HQ.
Qed.

Lemma s8_typed c : is_byte c → c ≠ 0 → typed (s8 c).
Proof.
  unfold is_byte, s8, typed. intros. destruct (decide (c < 128)).
  - rewrite Z.mod_small; lia.
  - replace (c + 128) with (c - 128 + 1 * 256) by lia. rewrite Z.mod_add, Z.mod_small; lia.
Qed.

Lemma s8_small c : typed c → s8 c = c.
Proof. intros [_ Hc]. unfold s8. rewrite Z.mod_small; lia. Qed.

Lemma serial_chars_typed l : Forall is_byte l → Forall typed (serial_chars l).
Proof.
  intros Hl. unfold serial_chars. apply Forall_fmap, Forall_forall. intros c [H0 Hc]%list_elem_of_filter.
  apply s8_typed; [|done]. rewrite Forall_forall in Hl. by apply Hl.
Qed.

Lemma kbd_chars_typed sh l sh' cs :
  kbd_chars sh l = Some (sh', cs) → Forall typed cs.
Proof.
  revert sh cs. induction l as [|data l IH]; intros sh cs; cbn [kbd_chars]; [by intros [= <- <-]|].
  pose proof (kbd_decode_byte sh data) as Hc. destruct (kbd_decode sh data) as [sh1 c].
  destruct (_ && _); [done|]. destruct (kbd_chars sh1 l) as [[sh2 cs']|] eqn:E; [|done].
  intros [= <- <-]. destruct (Z.eqb_spec c 0); [by eapply IH|].
  constructor; [by apply s8_typed|by eapply IH].
Qed.

(** What reading a character leaves alone. *)
Record same_output (s s' : con) : Prop := {
  so_terminal : terminal s' = terminal s;
  so_com : com_out s' = com_out s;
  so_exists : serial_exists s' = serial_exists s;
  so_line : linebuf s' = linebuf s
}.

(** Both devices have been emptied into the ring. *)
Record polled (s s' : con) (cs : list Z) : Prop := {
  po_ring : ring (cons_buf s') (rpos s') (wpos s') cs;
  po_typed : Forall typed cs;
  po_lock : unlocked (cons_lk s');
  po_kbd : kbd_in s' = [];
  po_serial : serial_exists s' = true → com_in s' = [];
  po_bytes : Forall is_byte (com_in s');
  po_same : same_output s s'
}.

Lemma wp_poll {A} s cs (k : M con A) Q :
  input s cs → (∀ s', polled s s' cs → wp k Q s') →
  wp (_ ← serial_intr; _ ← keyboard_intr; k) Q s.
Proof.
  intros (Hu & Hb & q & sh & ks & Hr & Hk & -> & Hl & Hn) HQ. apply wp_bind.
  pose proof (kbd_chars_typed _ _ _ _ Hk) as Hks.
  pose proof (serial_chars_typed _ Hb) as Hss.
  destruct (serial_exists s) eqn:He.
  - rewrite (assoc (++)) in *. eapply wp_serial_intr; [done..| |].
    { rewrite length_app in Hl. lia. }
    intros b w R. apply wp_bind. eapply wp_keyboard_intr; [exact Hk|done|exact R|done|].
    intros b' w' R'. rewrite <- (assoc (++)) in R'. apply HQ. split; cbn; try done.
    by repeat apply Forall_app_2.
  - unfold serial_intr. apply wp_bind, wp_gets. rewrite He. apply wp_ret, wp_bind.
    eapply wp_keyboard_intr; [exact Hk|done|exact Hr|done|].
    intros b w R. apply HQ. split; cbn; try done; [by apply Forall_app_2|congruence].
Qed.

Lemma polled_input s s' cs q b r w :
  polled s s' cs → Z.of_nat (length q) < CONSOLE_BUFFER_SIZE → Forall typed q →
  ring b r w q →
  input (lset l_cons_lk released (set_ring b r w s')) q.
Proof.
  intros Hp Hl Hn Hr. split_and!; [done|apply (po_bytes _ _ _ Hp)|].
  exists q, (shift s'), []. cbn. rewrite (po_kbd _ _ _ Hp). split_and!; [done|done| |done..].
  destruct (serial_exists s') eqn:E; [|by rewrite !app_nil_r].
  by rewrite (po_serial _ _ _ Hp E), !app_nil_r.
Qed.

(** A character waiting is the next one read. *)
Lemma wp_cons_getc s c cs Q :
  input s (c :: cs) →
  (∀ s', input s' cs → same_output s s' → typed c → Q c s') →
  wp cons_getc Q s.
Proof.
  intros Hi HQ. unfold cons_getc. eapply wp_poll; [done|]. intros s1 Hp.
  pose proof (po_lock _ _ _ Hp) as Hu. apply wp_bind, wp_lift. wp_lock. apply wp_bind, wp_gets.
  destruct (ring_pop _ _ _ _ _ (po_ring _ _ _ Hp)) as (Hne & Hg & R).
  change (rpos (id (lset l_cons_lk locked s1))) with (rpos s1).
  change (wpos (id (lset l_cons_lk locked s1))) with (wpos s1).
  change (cons_buf (id (lset l_cons_lk locked s1))) with (cons_buf s1).
  rewrite (proj2 (Z.eqb_neq _ _)), Hg by done. cbn [negb].
  apply wp_bind, wp_modify, wp_bind, wp_lift. wp_lock. apply wp_ret, HQ.
  - apply (polled_input s s1 (c :: cs) cs _ _ _ Hp); [| |exact R].
    + pose proof (rg_len _ _ _ _ R). done.
    + pose proof (po_typed _ _ _ Hp) as Hn. by apply Forall_cons_1 in Hn as [_ Hn].
  - destruct (po_same _ _ _ Hp). by split.
  - pose proof (po_typed _ _ _ Hp) as Hn. by apply Forall_cons_1 in Hn as [Hn _].
Qed.

(** ** Output *)

(** The screen shows [p], and the cursor is on it. *)
Definition displays (s : con) (p : paper) : Prop := shows (terminal s) p ∧ on_screen (terminal s).

(** What printing leaves alone. *)
Record same_input (s s' : con) : Prop := {
  si_ring : cons_lk s' = cons_lk s ∧ cons_buf s' = cons_buf s ∧ rpos s' = rpos s ∧ wpos s' = wpos s;
  si_kbd : shift s' = shift s ∧ kbd_in s' = kbd_in s;
  si_com : serial_exists s' = serial_exists s ∧ com_in s' = com_in s;
  si_line : linebuf s' = linebuf s
}.

Lemma input_same s s' cs : same_input s s' → input s cs → input s' cs.
Proof.
  intros [(El & Eb & Er & Ew) (Es & Ek) (Ee & Ec) _]. unfold input.
  by rewrite El, Eb, Er, Ew, Es, Ek, Ee, Ec.
Qed.

(** The bytes a character is sent as. *)
Definition serial_bytes (c : Z) : list Z := if c =? 10 then [13; 10] else [u8 c].

Lemma wp_cons_putc c s p Q :
  displays s p →
  (∀ s', displays s' (paper_putc c p) → same_input s s' →
     com_out s' = com_out s ++ (if serial_exists s then serial_bytes c else []) → Q tt s') →
  wp (cons_putc c) Q s.
Proof.
  intros [Hs Ho] HQ. unfold cons_putc, serial_putc, serial_reformatnewline. wp_steps.
  destruct (serial_exists s) eqn:He; cbn [negb].
  2: { wp_steps. eapply video_putc_shows; [done..|]. intros t' Hs' Ho'.
       apply HQ; [done|by split|]. by rewrite app_nil_r. }
  destruct (Z.eqb_spec c 10) as [-> |Hc]; unfold com_send; wp_steps; try apply wp_lift;
    (eapply video_putc_shows; [done..|]); intros t' Hs' Ho';
    (apply HQ; [done|by split|]); cbn; unfold serial_bytes; by rewrite ?(proj2 (Z.eqb_neq _ _)).
Qed.

Lemma wp_cons_puts cs s p Q :
  displays s p →
  (∀ s', displays s' (foldl (λ p c, paper_putc c p) p cs) → same_input s s' →
     com_out s' = com_out s ++ (if serial_exists s then concat (serial_bytes <$> cs) else []) →
     Q tt s') →
  wp (cons_puts cs) Q s.
Proof.
  revert s p. induction cs as [|c cs IH]; intros s p Hd HQ; cbn [cons_puts].
  - apply wp_ret, HQ; [done|by split|]. destruct (serial_exists s); by rewrite app_nil_r.
  - apply wp_bind. eapply wp_cons_putc; [done|]. intros s1 H1 E1 O1.
    eapply IH; [done|]. intros s2 H2 E2 O2.
    destruct E1 as [(?&?&?&?) (?&?) (Ee&?) ?], E2 as [(?&?&?&?) (?&?) (?&?) ?].
    apply HQ; [done|split; split_and?; congruence|].
    rewrite O2, O1, Ee. cbn. destruct (serial_exists s); by rewrite <- (assoc (++)).
Qed.

(** ** Reading a line *)

(** The line editor: what a character does to the line, which ends with the line
    or, interrupted, with [None]. *)
Definition edit_char (c : Z) (line : list Z) : option (list Z) + list Z :=
  if (c <? 0) || (c =? 3) then inl None
  else if ((c =? 8) || (c =? 127)) && (0 <? Z.of_nat (length line))
  then inr (take (pred (length line)) line)
  else if (32 <=? c) && (Z.of_nat (length line) <? BUFLEN - 1) then inr (line ++ [c])
  else if (c =? 10) || (c =? 13) then inl (Some line)
  else inr line.

(** The result for the characters typed, and the characters left. *)
Fixpoint edit (line cs : list Z) : option (option (list Z) * list Z) :=
  match cs with
  | [] => None
  | c :: cs =>
    match edit_char c line with
    | inl r => Some (r, cs)
    | inr line => edit line cs
    end
  end.

(** [linebuf] begins with [line]. *)
Record line_is (s : con) (line : list Z) : Prop := {
  li_len : Z.of_nat (length line) ≤ BUFLEN - 1;
  li_nonzero : Forall (λ c, c ≠ 0) line;
  li_get i c : line !! i = Some c → aget (linebuf s) (Z.of_nat i) = c
}.

Lemma cstr_line line rest : Forall (λ c, c ≠ 0) line → cstr (line ++ 0 :: rest) = line.
Proof.
  intros Hl. induction Hl as [|c line Hc Hl IH]; [done|].
  cbn. unfold NUL. rewrite (proj2 (Z.eqb_neq _ _)) by done. by rewrite IH.
Qed.

Lemma line_bytes_cstr s line :
  line_is s line → aget (linebuf s) (Z.of_nat (length line)) = 0 → cstr (line_bytes s) = line.
Proof.
  intros [Hlen Hn Hg] H0. rewrite <- (take_drop (S (length line)) (line_bytes s)).
  assert (take (S (length line)) (line_bytes s) = line ++ [0]) as ->.
  { apply list_eq. intros i. unfold line_bytes. destruct (decide (i < S (length line))%nat) as [Hi|Hi].
    - rewrite lookup_take_lt by done. rewrite list_lookup_fmap, lookup_seqZ_lt by (unfold BUFLEN in *; lia).
      rewrite Z.add_0_l. cbn [fmap option_fmap option_map].
      destruct (decide (i < length line)%nat) as [Hl|Hl].
      + rewrite lookup_app_l by done. destruct (lookup_lt_is_Some_2 _ _ Hl) as [c Hc].
        rewrite Hc. f_equal. by apply Hg.
      + replace i with (length line) by lia. by rewrite list_lookup_middle, H0 by done.
    - rewrite lookup_take_ge by lia. symmetry. apply lookup_ge_None_2. rewrite length_app. cbn. lia. }
  rewrite <- (assoc (++)). by apply cstr_line.
Qed.

Lemma line_is_same s s' line : same_input s s' → line_is s line → line_is s' line.
Proof. intros [_ _ _ E] [Hl Hn Hg]. split; [done..|]. rewrite E. done. Qed.

(** A character stored at the end of the line. *)
Definition store_char (i c : Z) (s : con) : con := set_linebuf (<[i := c]> (linebuf s)) s.

Lemma line_is_push s line c :
  line_is s line → Z.of_nat (length line) < BUFLEN - 1 → c ≠ 0 →
  line_is (store_char (Z.of_nat (length line)) c s) (line ++ [c]).
Proof.
  intros [Hl Hn Hg] Hlt Hc. split.
  - rewrite length_app. cbn. lia.
  - by apply Forall_app_2, Forall_singleton.
  - intros i d Hi. cbn. apply lookup_app_Some in Hi as [Hi|[Hi Hd]].
    + rewrite aget_ne; [by apply Hg|]. apply lookup_lt_Some in Hi. lia.
    + apply list_lookup_singleton_Some in Hd as [Hd <-]. replace i with (length line) by lia.
      apply aget_eq.
Qed.

Lemma line_is_pop s line : line_is s line → line_is s (take (pred (length line)) line).
Proof.
  intros [Hl Hn Hg]. split.
  - rewrite length_take. lia.
  - by apply Forall_take.
  - intros i c Hi. apply lookup_take_Some in Hi as [Hi _]. by apply Hg.
Qed.

(** How [readline_char] and [edit_char] agree. *)
Definition edited (s : con) (e : option (list Z) + list Z) (r : bool + Z) : Prop :=
  match e with
  | inl None => r = inl false
  | inl (Some line) => r = inl true ∧ cstr (line_bytes s) = line
  | inr line => r = inr (Z.of_nat (length line)) ∧ line_is s line
  end.

Lemma wp_readline_char c line s p cs Q :
  displays s p → line_is s line → input s cs →
  (∀ r s' p', displays s' p' → input s' cs → edited s' (edit_char c line) r → Q r s') →
  wp (readline_char c (Z.of_nat (length line))) Q s.
Proof.
  intros Hd Hl Hi HQ. unfold readline_char, putchar. unfold edit_char in HQ.
  pose proof (li_len _ _ Hl) as Hlen.
  destruct (Z.ltb_spec c 0); cbn [orb] in HQ.
  { apply wp_bind. eapply wp_cons_puts; [done|]. intros s1 D1 I1 _. apply wp_ret.
    eapply HQ; [done|by eapply input_same|done]. }
  destruct (Z.eqb_spec c 3).
  { apply wp_bind. eapply (wp_cons_putc 94); [done|]. intros s1 D1 I1 _.
    apply wp_bind. eapply (wp_cons_putc 67); [done|]. intros s2 D2 I2 _.
    apply wp_bind. eapply (wp_cons_putc 10); [done|]. intros s3 D3 I3 _.
    apply wp_ret. eapply HQ; [done|by do 3 (eapply input_same; [done|])|done]. }
  destruct (_ && (0 <? _)) eqn:Eb.
  { apply andb_prop in Eb as [_ Eb]. apply Z.ltb_lt in Eb.
    apply wp_bind. eapply wp_cons_putc; [done|]. intros s1 D1 I1 _. apply wp_ret.
    eapply HQ; [done|by eapply input_same|]. split.
    - rewrite length_take. f_equal. lia.
    - apply line_is_pop. by eapply line_is_same. }
  destruct (_ && (_ <? BUFLEN - 1)) eqn:Ep.
  { apply andb_prop in Ep as [Ec Ep]. apply Z.leb_le in Ec. apply Z.ltb_lt in Ep.
    apply wp_bind. eapply wp_cons_putc; [done|]. intros s1 D1 I1 _.
    apply wp_bind, wp_chk; [lia|]. apply wp_bind, wp_modify, wp_ret.
    eapply HQ; [exact D1|exact (input_same s s1 cs I1 Hi)|]. split.
    - rewrite length_app. cbn. f_equal. lia.
    - apply line_is_push; [by eapply line_is_same|lia..]. }
  clear Eb Ep. destruct ((c =? 10) || (c =? 13)) eqn:En; [|by apply wp_ret; eapply HQ].
  apply wp_bind. eapply wp_cons_putc; [done|]. intros s1 D1 I1 _.
  apply wp_bind, wp_chk; [unfold BUFLEN in *; lia|]. apply wp_bind, wp_modify, wp_ret.
  eapply HQ; [exact D1|exact (input_same s s1 cs I1 Hi)|]. split; [done|].
  destruct (line_is_same _ _ _ I1 Hl) as [? ? Hg]. apply line_bytes_cstr; [|apply aget_eq].
  split; [done..|]. intros i d Hd'. cbn. rewrite aget_ne; [by apply Hg|].
  apply lookup_lt_Some in Hd'. lia.
Qed.

#[global] Opaque line_bytes.

(** [readline] when the whole line has been typed: no poll fails, so it does not
    yield. *)
Section Readline.
Context {S : Type} (lt : lens S thr) (lc : lens S con) `{!LensOk lc}.

Lemma run_lift {A} (m : M con A) (Q : A → con → Prop) s :
  wp m Q (lget lc s) → ∃ a t, run (lift lc m) s = KRet a (lset lc t s) ∧ Q a t.
Proof.
  unfold wp, run, lift. destruct (m (lget lc s)) as [[a t]|e]; [|done]. intros. by exists a, t.
Qed.

Lemma getchar_typed polls c cs s p line :
  displays (lget lc s) p → line_is (lget lc s) line → input (lget lc s) (c :: cs) →
  ∃ t, getchar lt lc polls s = KRet c (lset lc t s) ∧ typed c
    ∧ displays t p ∧ line_is t line ∧ input t cs.
Proof.
  intros Hd Hl Hi.
  destruct (run_lift cons_getc
    (λ a t, a = c ∧ typed c ∧ displays t p ∧ line_is t line ∧ input t cs) s)
    as (a & t & E & -> & Hc & Hd' & Hl' & Hi').
  { eapply wp_cons_getc; [done|]. intros t Hi' [Et _ _ Ell] Hc. split_and!; [done|done| | |done].
    - unfold displays. by rewrite Et.
    - destruct Hl as [? ? Hg]. split; [done..|]. by rewrite Ell. }
  exists t. split; [|done].
  destruct polls; cbn [getchar]; unfold mbind, KM_bind; rewrite E; cbn [kbind];
    rewrite (proj2 (Z.eqb_neq _ _)) by apply Hc; done.
Qed.

Lemma readline_loop_edits polls fuel line cs r rest s p :
  displays (lget lc s) p → line_is (lget lc s) line → input (lget lc s) cs →
  edit line cs = Some (r, rest) → (length cs ≤ fuel)%nat →
  ∃ res t p', readline_loop lt lc polls fuel (Z.of_nat (length line)) s = KRet res (lset lc t s)
    ∧ cstr <$> res = r ∧ displays t p' ∧ input t rest.
Proof.
  revert fuel line s p. induction cs as [|c cs IH]; intros fuel line s p Hd Hl Hi; [done|].
  cbn [edit length]. intros He Hf. destruct fuel as [|fuel]; [lia|]. cbn [readline_loop].
  destruct (getchar_typed polls c cs s p line Hd Hl Hi) as (t1 & E1 & Hc & D1 & L1 & I1).
  unfold mbind at 1, KM_bind at 1. rewrite E1. cbn [kbind]. rewrite s8_small by done.
  destruct (run_lift (readline_char c (Z.of_nat (length line)))
    (λ o t, edited t (edit_char c line) o ∧ input t cs ∧ ∃ p', displays t p') (lset lc t1 s))
    as (o & t2 & E2 & Ho & I2 & p2 & D2).
  { rewrite lget_lset. eapply wp_readline_char; [done..|]. intros. by eauto. }
  unfold mbind at 1, KM_bind at 1. rewrite E2, lset_lset. cbn [kbind].
  destruct (edit_char c line) as [[l|]|line']; cbn [edited] in Ho.
  - destruct Ho as [-> Ho]. apply (inj Some), (inj2 pair) in He as [<- <-].
    destruct (run_lift (gets line_bytes) (λ l t, l = line_bytes t ∧ t = t2) (lset lc t2 s))
      as (l' & t & E3 & -> & ->); [by rewrite lget_lset|].
    unfold mbind, KM_bind. rewrite E3, lset_lset. cbn [kbind].
    exists (Some (line_bytes t2)), t2, p2. rewrite <- Ho. done.
  - subst o. injection He as <- <-. by eauto 10.
  - destruct Ho as [-> L2]. edestruct (IH fuel line' (lset lc t2 s) p2) as (res & t & p' & E & R);
      [by rewrite lget_lset..|done|lia|].
    rewrite lset_lset in E. by eauto.
Qed.
End Readline.

(** ** Properties *)

(** C30: printing any text keeps the cursor on the screen and every store within
    the 2000 cells of the display; afterwards the screen is the window of 25 rows
    that follows the pen on unbounded paper, and the serial line has got the
    bytes, with a carriage return before each newline. *)
Theorem console_prints cs s p :
  displays s p →
  ∃ s', cons_puts cs s = Ok (tt, s')
    ∧ displays s' (foldl (λ p c, paper_putc c p) p cs)
    ∧ com_out s' = com_out s ++ (if serial_exists s then concat (serial_bytes <$> cs) else [])
    ∧ same_input s s'.
Proof.
  intros Hd. destruct (wp_run (cons_puts cs) (λ _ s',
    displays s' (foldl (λ p c, paper_putc c p) p cs)
    ∧ com_out s' = com_out s ++ (if serial_exists s then concat (serial_bytes <$> cs) else [])
    ∧ same_input s s') s) as ([] & s' & E & R); [|by eauto].
  eapply wp_cons_puts; [done|]. by auto.
Qed.

(** C31: [readline] returns the line that a line editor makes of the characters
    typed on the serial line and the keyboard, erasing with backspace and never
    beyond [linebuf], or the null pointer on Ctrl-C; what was typed after the
    line stays queued. *)
Theorem readline_edits {S} (lt : lens S thr) (lc : lens S con) `{!LensOk lc}
    polls fuel prompt cs r rest (s : S) p :
  displays (lget lc s) p → input (lget lc s) cs → edit [] cs = Some (r, rest) →
  (length cs ≤ fuel)%nat →
  ∃ res t p', readline lt lc polls fuel prompt s = KRet res (lset lc t s)
    ∧ cstr <$> res = r ∧ displays t p' ∧ input t rest.
Proof.
  intros Hd Hi He Hf. unfold readline.
  destruct (run_lift lc (cons_puts (cstr prompt))
    (λ _ t, input t cs ∧ ∃ p', displays t p') s) as ([] & t & E & It & p' & Dt).
  { eapply wp_cons_puts; [done|]. intros t D I _. split; [by eapply input_same|by eauto]. }
  unfold mbind, KM_bind. rewrite E. cbn [kbind].
  edestruct (readline_loop_edits lt lc polls fuel [] cs r rest (lset lc t s))
    as (res & t' & q & E' & R); [rewrite lget_lset; exact Dt| |by rewrite lget_lset|done|done|].
  - split; [done|constructor|done].
  - rewrite lset_lset in E'. by eauto.
Qed.

(** Typing ls, a backspace, s and return on the keyboard. *)
Definition sample_keys : list Z := [38; 166; 31; 159; 14; 142; 31; 159; 28; 156].
Definition sample_con : con :=
  Con released ∅ 0 0 ∅ 0 sample_keys true [] [] (Video (replicate 2000 blank) 1990).
Definition sample_paper : paper := Paper (λ _, blank) 0 1990.

Lemma sample_displays : displays sample_con sample_paper.
Proof.
  split; [|done]. split; cbn [sample_con sample_paper terminal crt_buf crt_pos ink top pen].
  - by rewrite length_replicate.
  - done.
  - done.
  - intros i Hi. rewrite nth_lookup, lookup_replicate_2; [done|crt].
  - done.
Qed.

Lemma sample_input : input sample_con [108; 115; 8; 115; 10].
Proof.
  split; [done|]. split; [constructor|]. exists [], 0, [108; 115; 8; 115; 10].
  split; [split; done|]. split; [vm_compute; reflexivity|]. split; [done|]. split; [done|constructor].
Qed.

#[local] Instance lens_snd {A B} : LensOk (l_snd (A:=A) (B:=B)).
Proof. split; by intros; destruct s. Qed.

Lemma console_prints_witness :
  ∃ s', cons_puts [65; 10; 9; 66] sample_con = Ok (tt, s')
    ∧ displays s' (foldl (λ p c, paper_putc c p) sample_paper [65; 10; 9; 66])
    ∧ com_out s' = com_out sample_con
        ++ (if serial_exists sample_con then concat (serial_bytes <$> [65; 10; 9; 66]) else [])
    ∧ same_input sample_con s'.
Proof. apply (console_prints [65; 10; 9; 66] sample_con sample_paper). exact sample_displays. Defined.

Lemma readline_edits_witness :
  ∃ res t p', readline (S:=thr * con) l_fst l_snd 0 5 [62; 0] (sample_sched, sample_con)
      = KRet res (lset l_snd t (sample_sched, sample_con))
    ∧ cstr <$> res = Some [108; 115] ∧ displays t p' ∧ input t [].
Proof.
  apply (readline_edits l_fst l_snd 0 5 [62; 0] [108; 115; 8; 115; 10] (Some [108; 115]) []
           (sample_sched, sample_con) sample_paper).
  - exact sample_displays.
  - exact sample_input.
  - vm_compute. reflexivity.
  - reflexivity.
Defined.
