(* ===== verification/Printf.v ===== *)
(** * Formatted output (kern/lib/printfmt.c, kern/lib/dprintf.c)

    The conversions of [vprintfmt] on a format and the words of its arguments,
    and the line buffer of [dprintf]. *)

From S2P Require Import Prelude Memory Strings Resume Spinlock PhysMap Pmm Container PageTable.
From S2P Require Import Isolation UserCopy Tcb TQueue Thread Console.

(** ** printfmt.c *)

Definition digit (d : Z) : Z := nth (Z.to_nat d) (codes "0123456789abcdef") 0.

(** The characters put, most significant digit first.  [None] when the bound on
    the depth of the recursion is reached. *)
Fixpoint printnum (fuel : nat) (num base width padc : Z) : option (list Z) :=
  match fuel with
  | O => None
  | S fuel =>
    pre ← (if base <=? num then printnum fuel (num / base) base (width - 1) padc
           else Some (replicate (Z.to_nat (width - 1)) padc));
    Some (pre ++ [digit (num mod base)])
  end.

(** A 64-bit number has at most 64 digits. *)
Definition NUM_DIGITS : nat := 64.

(** The next word of the arguments.  [None]: there is none, which C leaves
    undefined. *)
Definition va_arg (ap : list Z) : option (Z * list Z) :=
  match ap with
  | w :: ap => Some (w, ap)
  | [] => None
  end.

Definition va_arg64 (ap : list Z) : option (Z * list Z) :=
  '(lo, ap) ← va_arg ap; '(hi, ap) ← va_arg ap; Some (lo + two32 * hi, ap).

Definition getuint (ap : list Z) (lflag : Z) : option (Z * list Z) :=
  if 2 <=? lflag then va_arg64 ap else va_arg ap.

Definition getint (ap : list Z) (lflag : Z) : option (Z * list Z) :=
  if 2 <=? lflag then '(v, ap) ← va_arg64 ap; Some (s64 v, ap)
  else '(v, ap) ← va_arg ap; Some (s32 v, ap).

(** The flags of a conversion. *)
Record spec := Spec { padc : Z; width : Z; precision : Z; lflag : Z; altflag : bool }.

Definition no_spec : spec := Spec 32 (-1) (-1) 0 false.
Definition set_padc (c : Z) (f : spec) : spec :=
  Spec c (width f) (precision f) (lflag f) (altflag f).

Definition process_precision (f : spec) : spec :=
  if width f <? 0 then Spec (padc f) (precision f) (-1) (lflag f) (altflag f) else f.
Definition set_precision (p : Z) (f : spec) : spec :=
  process_precision (Spec (padc f) (width f) p (lflag f) (altflag f)).

Definition is_digit (c : Z) : bool := (48 <=? c) && (c <=? 57).

(** The loop of the width field: the number so far, and the rest of the format. *)
Fixpoint number_field (p : Z) (fmt : list Z) : Z * list Z :=
  match fmt with
  | c :: fmt' => if is_digit c then number_field (s32 (p * 10 + c - 48)) fmt' else (p, fmt)
  | [] => (p, fmt)
  end.

(** The characters of a string conversion. *)
Fixpoint string_chars (alt : bool) (prec : Z) (p : list Z) : list Z :=
  match p with
  | c :: p =>
    if (c =? NUL) || (prec =? 0) then []
    else (if alt && ((c <? 32) || (126 <? c)) then 63 else c)
           :: string_chars alt (if prec <? 0 then prec else prec - 1) p
  | [] => []
  end.

(** [strnlen(p, precision)], the bound no larger than the string. *)
Definition bounded_len (p : list Z) (prec : Z) : Z :=
  strnlen p (Z.to_nat (Z.min (u32 prec) (Z.of_nat (length p)))).

Definition print_string (f : spec) (p : list Z) : list Z :=
  let '(pad, w) := if (0 <? width f) && negb (padc f =? 45)
                   then let w := width f - bounded_len p (precision f) in
                        (replicate (Z.to_nat w) (padc f), Z.min w 0)
                   else ([], width f) in
  let out := string_chars (altflag f) (precision f) p in
  pad ++ out ++ replicate (Z.to_nat (w - Z.of_nat (length out))) 32.

Definition print_number (num base : Z) (f : spec) : option (list Z) :=
  printnum NUM_DIGITS num base (width f) (padc f).

(** One conversion from after its percent sign: what is put, the format after it
    and the arguments left.  [start] is the format after the percent sign, where
    an unknown conversion resumes; [str p] are the bytes at the pointer [p].
    [octal] is whether [%o] is implemented: it is in the kernel, the copy of the
    user library prints XXX.
    [n] bounds the [reswitch] jumps: each takes a character of the format. *)
Section Conversion.
Context (octal : bool) (str : Z → list Z) (start : list Z).

Fixpoint conversion (n : nat) (f : spec) (fmt ap : list Z)
    : option (list Z * list Z * list Z) :=
  let ch := deref fmt in
  let fmt' := tl fmt in
  if ch =? 99 then '(c, ap) ← va_arg ap; Some ([c], fmt', ap)
  else if ch =? 115 then
    '(p, ap) ← va_arg ap;
    Some (print_string f (if p =? 0 then codes "(null)" else str p), fmt', ap)
  else if ch =? 100 then
    '(num, ap) ← getint ap (lflag f);
    out ← print_number (u64 (Z.abs num)) 10 f;
    Some ((if num <? 0 then [45] else []) ++ out, fmt', ap)
  else if ch =? 117 then
    '(num, ap) ← getuint ap (lflag f); out ← print_number num 10 f; Some (out, fmt', ap)
  else if ch =? 111 then
    if negb octal then Some ([88; 88; 88], fmt', ap) else
    '(num, ap) ← getuint ap (lflag f); out ← print_number num 8 f; Some (out, fmt', ap)
  else if ch =? 112 then
    '(num, ap) ← va_arg ap; out ← print_number num 16 f; Some ([48; 120] ++ out, fmt', ap)
  else if ch =? 120 then
    '(num, ap) ← getuint ap (lflag f); out ← print_number num 16 f; Some (out, fmt', ap)
  else if ch =? 37 then Some ([37], fmt', ap)
  else
    match n with
    | O => Some ([37], start, ap)
    | S n =>
      if ch =? 45 then conversion n (set_padc 45 f) fmt' ap
      else if ch =? 48 then conversion n (set_padc 48 f) fmt' ap
      else if is_digit ch then
        let '(p, fmt') := number_field (ch - 48) fmt' in
        conversion n (set_precision p f) fmt' ap
      else if ch =? 42 then
        '(p, ap) ← va_arg ap; conversion n (set_precision (s32 p) f) fmt' ap
      else if ch =? 46 then
        conversion n (Spec (padc f) (if width f <? 0 then 0 else width f) (precision f) (lflag f)
                        (altflag f)) fmt' ap
      else if ch =? 35 then
        conversion n (Spec (padc f) (width f) (precision f) (lflag f) true) fmt' ap
      else if ch =? 108 then
        conversion n (Spec (padc f) (width f) (precision f) (lflag f + 1) (altflag f)) fmt' ap
      else Some ([37], start, ap)
    end.
End Conversion.

(** Every character put, in order.  Each turn takes a character of the format;
    [None] is an undefined argument. *)
Fixpoint vprintfmt_loop (octal : bool) (fuel : nat) (str : Z → list Z) (fmt ap : list Z) : option (list Z) :=
  match fuel with
  | O => None
  | S fuel =>
    match fmt with
    | [] => Some []
    | ch :: fmt =>
      if ch =? NUL then Some []
      else if ch =? 37 then
        '(out, fmt, ap) ← conversion octal str fmt (length fmt) no_spec fmt ap;
        rest ← vprintfmt_loop octal fuel str fmt ap;
        Some (out ++ rest)
      else rest ← vprintfmt_loop octal fuel str fmt ap; Some (ch :: rest)
    end
  end.

Definition vprintfmt (octal : bool) (str : Z → list Z) (fmt ap : list Z) : option (list Z) :=
  vprintfmt_loop octal (S (length fmt)) str fmt ap.

(** ** dprintf.c *)

(** [putch] for the characters put: [b] is the buffer, printed up to its first
    zero byte when it is full and at the end. *)
Fixpoint putch (b cs : list Z) : list Z :=
  match cs with
  | [] => cstr b
  | ch :: cs =>
    let b := b ++ [s8 ch] in
    if Z.of_nat (length b) =? CONSOLE_BUFFER_SIZE - 1 then cstr b ++ putch [] cs else putch b cs
  end.

Section Dprintf.
Context {S : Type} (serial_lk : lens S spinlock) (lc : lens S con).

Definition vdprintf (str : Z → list Z) (fmt ap : list Z) : M S Z :=
  _ ← lift serial_lk (spinlock_acquire "serial_lk");
  match vprintfmt true str fmt ap with
  | None => fail (OutOfBounds "va_arg" 0)
  | Some cs =>
    _ ← lift lc (cons_puts (putch [] cs));
    _ ← lift serial_lk spinlock_release;
    mret (Z.of_nat (length cs))
  end.
End Dprintf.

(** ** Lemmas *)

(** The number a string of digits stands for. *)
Definition digit_val (c : Z) : Z := if c <=? 57 then c - 48 else c - 87.
Definition parse (base : Z) (ds : list Z) : Z := foldl (λ a c, a * base + digit_val c) 0 ds.

Lemma digit_val_digit d : 0 ≤ d < 16 → digit_val (digit d) = d.
Proof.
  intros Hd. assert (d ∈ seqZ 0 16) as H by (apply elem_of_seqZ; lia). revert d H Hd.
  assert (Forall (λ d, digit_val (digit d) = d) (seqZ 0 16)) as H.
  { apply (bool_decide_unpack _). vm_compute. exact I. }
  rewrite Forall_forall in H. auto.
Qed.

Lemma digit_zero d : 0 ≤ d < 16 → digit d = 48 → d = 0.
Proof. intros Hd E. pose proof (digit_val_digit d Hd) as H. rewrite E in H. by cbn in H. Qed.

(** What a printed number looks like. *)
Record numeral (base num : Z) (ds : list Z) : Prop := {
  nu_val : parse base ds = num;
  nu_digits : Forall (λ c, ∃ d, 0 ≤ d < base ∧ c = digit d) ds;
  nu_short : ds = [48] ∨ (∃ c ds', ds = c :: ds' ∧ c ≠ 48)
}.

Lemma numeral_digit base d : 2 ≤ base ≤ 16 → 0 ≤ d < base → numeral base d [digit d].
Proof.
  intros Hb Hd. split.
  - unfold parse. cbn [foldl]. rewrite digit_val_digit; lia.
  - constructor; [|done]. by exists d.
  - destruct (decide (digit d = 48)) as [-> |]; [by left|right; by eauto].
Qed.

Lemma numeral_snoc base num ds d :
  2 ≤ base ≤ 16 → 0 < num → numeral base num ds → 0 ≤ d < base →
  numeral base (num * base + d) (ds ++ [digit d]).
Proof.
  intros Hb Hn [Hv Hd Hs] Hd'. split.
  - unfold parse in *. rewrite foldl_app. cbn [foldl]. rewrite Hv, digit_val_digit; lia.
  - apply Forall_app_2; [done|]. constructor; [|done]. by exists d.
  - right. destruct Hs as [-> |(c & ds' & -> & Hc)]; [cbn in Hv; lia|].
    exists c, (ds' ++ [digit d]). done.
Qed.

Lemma printnum_numeral fuel num base width padc :
  2 ≤ base ≤ 16 → 0 ≤ num < 2 ^ Z.of_nat fuel → (0 < fuel)%nat →
  ∃ ds, printnum fuel num base width padc
        = Some (replicate (Z.to_nat (width - Z.of_nat (length ds))) padc ++ ds)
    ∧ numeral base num ds.
Proof.
  intros Hb. revert num width. induction fuel as [|fuel IH]; intros num width Hn Hf; [lia|].
  cbn [printnum]. destruct (Z.leb_spec base num).
  - assert (0 < num / base) by (apply Z.div_str_pos; lia).
    pose proof (Z.mod_pos_bound num base ltac:(lia)). pose proof (Z.div_mod num base ltac:(lia)).
    assert (num / base < 2 ^ Z.of_nat fuel) as Hlt.
    { apply Z.div_lt_upper_bound; [lia|]. rewrite Nat2Z.inj_succ, Z.pow_succ_r in Hn by lia. nia. }
    destruct (IH (num / base) (width - 1)) as (ds & E & Hnu); [lia| |].
    { destruct fuel; [cbn in Hlt; lia|lia]. }
    exists (ds ++ [digit (num mod base)]). rewrite E. cbn [mbind option_bind]. split.
    + rewrite (assoc (++)), length_app. cbn [length]. do 5 f_equal. lia.
    + replace num with (num / base * base + num mod base) at 1 by lia. by apply numeral_snoc.
  - exists [digit (num mod base)]. split; [done|]. rewrite Z.mod_small by lia.
    apply numeral_digit; lia.
Qed.

Lemma s32_u32 x : -2147483648 ≤ x < 2147483648 → s32 (u32 x) = x.
Proof.
  intros. unfold s32, u32. rewrite Z.add_mod_idemp_l by done. by apply s32_small.
Qed.

Lemma print_number_numeral num base f :
  2 ≤ base ≤ 16 → 0 ≤ num < two64 →
  ∃ ds, print_number num base f
        = Some (replicate (Z.to_nat (width f - Z.of_nat (length ds))) (padc f) ++ ds)
    ∧ numeral base num ds.
Proof. intros. apply printnum_numeral; [done|done|]. unfold NUM_DIGITS. lia. Qed.

(** A decimal digit is itself. *)
Lemma decimal_digit d : 0 ≤ d < 10 → digit d = 48 + d.
Proof.
  intros Hd. assert (d ∈ seqZ 0 10) as H by (apply elem_of_seqZ; lia). revert d H Hd.
  assert (Forall (λ d, digit d = 48 + d) (seqZ 0 10)) as H.
  { apply (bool_decide_unpack _). vm_compute. exact I. }
  rewrite Forall_forall in H. auto.
Qed.

Definition decimal (c : Z) : Prop := ∃ d, 0 ≤ d < 10 ∧ c = digit d.

Lemma decimal_range c : decimal c → 48 ≤ c ≤ 57.
Proof. intros (d & Hd & ->). rewrite decimal_digit; lia. Qed.

Lemma parse_ge p ds : 0 ≤ p → Forall decimal ds → p ≤ foldl (λ a c, a * 10 + digit_val c) p ds.
Proof.
  intros Hp Hd. revert p Hp. induction Hd as [|c ds (d & Hd & ->) Hds IH]; intros p Hp; [done|].
  cbn [foldl]. rewrite digit_val_digit by lia. etrans; [|apply IH]; lia.
Qed.

(** The width field of the format is read as the number it stands for. *)
Lemma number_field_parse p ds c rest :
  Forall decimal ds → 0 ≤ p → foldl (λ a c, a * 10 + digit_val c) p ds < 2147483648 →
  is_digit c = false →
  number_field p (ds ++ c :: rest) = (foldl (λ a c, a * 10 + digit_val c) p ds, c :: rest).
Proof.
  intros Hd. revert p. induction Hd as [|x ds Hx Hds IH]; intros p Hp Hlt Hc; cbn [foldl app number_field].
  { by rewrite Hc. }
  pose proof (decimal_range _ Hx) as Hr. destruct Hx as (d & Hd & ->).
  unfold is_digit at 1. rewrite (proj2 (Z.leb_le _ _)), (proj2 (Z.leb_le _ _)) by lia. cbn [andb].
  cbn [foldl] in Hlt. rewrite digit_val_digit in Hlt |- * by lia. rewrite decimal_digit by done.
  pose proof (parse_ge (p * 10 + d) ds ltac:(lia) Hds).
  rewrite s32_small by lia. replace (p * 10 + (48 + d) - 48) with (p * 10 + d) by lia.
  apply IH; [lia|done|done].
Qed.

Lemma conversion_width octal str start n f w ws c rest ap :
  numeral 10 w ws → 0 < w < 2147483648 → is_digit c = false → width f < 0 →
  conversion octal str start (S n) f (ws ++ c :: rest) ap
  = conversion octal str start n (Spec (padc f) w (-1) (lflag f) (altflag f)) (c :: rest) ap.
Proof.
  intros [Hv Hd Hs] Hw Hc Hf.
  destruct Hs as [-> |(x & ds & -> & Hx)]; [cbn in Hv; lia|].
  apply Forall_cons_1 in Hd as [Hdx Hd]. pose proof (decimal_range _ Hdx) as Hr.
  cbn [conversion app deref hd tl].
  do 8 (rewrite (proj2 (Z.eqb_neq _ _)) by lia). rewrite (proj2 (Z.eqb_neq _ 45)) by lia.
  rewrite (proj2 (Z.eqb_neq _ 48)) by done.
  unfold is_digit at 1. rewrite (proj2 (Z.leb_le _ _)), (proj2 (Z.leb_le _ _)) by lia. cbn [andb].
  unfold parse in Hv. cbn [foldl] in Hv. unfold digit_val at 2 in Hv.
  rewrite (proj2 (Z.leb_le _ _)) in Hv by lia. rewrite Z.mul_0_l, Z.add_0_l in Hv.
  rewrite number_field_parse; [|done|lia|rewrite Hv; lia|done]. rewrite Hv.
  unfold set_precision, process_precision. cbn [width precision].
  by rewrite (proj2 (Z.ltb_lt _ _)).
Qed.

Lemma conversion_zeros octal str start n f fmt ap :
  conversion octal str start (S n) f (48 :: fmt) ap = conversion octal str start n (set_padc 48 f) fmt ap.
Proof. done. Qed.

Lemma hex_conversion octal str start n f ap num :
  0 ≤ num < two32 → lflag f < 2 →
  ∃ ds, conversion octal str start n f [120] (num :: ap)
        = Some (replicate (Z.to_nat (width f - Z.of_nat (length ds))) (padc f) ++ ds, [], ap)
    ∧ numeral 16 num ds.
Proof.
  intros Hn Hl. destruct (print_number_numeral num 16 f) as (ds & E & Hd);
    [lia|unfold two32, two64 in *; lia|].
  exists ds. split; [|done].
  destruct n; cbn [conversion deref hd tl Z.eqb Pos.eqb]; unfold getuint;
    rewrite (proj2 (Z.leb_gt _ _)) by done; cbn [va_arg mbind option_bind]; rewrite E; done.
Qed.

(** A format that is a single conversion. *)
Lemma vprintfmt_conversion octal str fmt ap out ap' :
  conversion octal str fmt (length fmt) no_spec fmt ap = Some (out, [], ap') →
  vprintfmt octal str (37 :: fmt) ap = Some out.
Proof.
  intros E. unfold vprintfmt. cbn [length vprintfmt_loop]. change (37 =? NUL) with false.
  change (37 =? 37) with true. cbv iota. rewrite E. cbn. by rewrite app_nil_r.
Qed.

Lemma printf_decimal octal str n :
  -2147483648 ≤ n < 2147483648 →
  ∃ ds, vprintfmt octal str (codes "%d") [u32 n] = Some ((if n <? 0 then [45] else []) ++ ds)
    ∧ numeral 10 (Z.abs n) ds.
Proof.
  intros Hn. destruct (print_number_numeral (Z.abs n) 10 no_spec) as (ds & E & Hd);
    [lia|unfold two64; lia|].
  exists ds. split; [|done]. apply (vprintfmt_conversion octal str [100] _ _ []).
  cbn [conversion length deref hd tl Z.eqb Pos.eqb]. unfold getint. change (2 <=? lflag no_spec) with false.
  cbn [va_arg mbind option_bind]. rewrite s32_u32 by done. unfold u64.
  rewrite Z.mod_small by (unfold two64; lia). rewrite E. cbn [width padc no_spec].
  by replace (Z.to_nat (-1 - Z.of_nat (length ds))) with 0%nat by lia.
Qed.

(** [putch] is transparent: output that has no zero byte is printed unchanged,
    however long. *)
Lemma putch_transparent b cs :
  Forall (λ c, s8 c ≠ 0) cs → Forall (λ c, c ≠ 0) b → putch b cs = b ++ (s8 <$> cs).
Proof.
  intros Hc. revert b. assert (∀ l, Forall (λ c, c ≠ 0) l → cstr l = l) as Hcs.
  { intros l Hl. induction Hl as [|c l Hc' Hl IH]; [done|]. cbn. unfold NUL.
    rewrite (proj2 (Z.eqb_neq _ _)) by done. by rewrite IH. }
  induction Hc as [|c cs Hc Hcs' IH]; intros b Hb; cbn [putch fmap list_fmap].
  { by rewrite Hcs, app_nil_r. }
  assert (Forall (λ c, c ≠ 0) (b ++ [s8 c])) as Hb' by (apply Forall_app_2; [done|by constructor]).
  destruct (_ =? _).
  - rewrite Hcs, IH by done. cbn. by rewrite <- (assoc (++)).
  - rewrite IH by done. by rewrite <- (assoc (++)).
Qed.

(** ** Properties *)

(** [vprintfmt], in the kernel and in the user library, prints numbers that read
    back: [%d] gives the sign and the shortest decimal digits of any [int]; [%<w>x],
    with or without the flag [0], gives the hexadecimal digits of any word, padded on
    the left to the width. *)
Theorem printf_numbers octal str n m (zeros : bool) w ws :
  -2147483648 ≤ n < 2147483648 → 0 ≤ m < two32 → numeral 10 w ws → 0 < w < 2147483648 →
  (∃ ds, vprintfmt octal str (codes "%d") [u32 n] = Some ((if n <? 0 then [45] else []) ++ ds)
     ∧ numeral 10 (Z.abs n) ds)
  ∧ (∃ ds, vprintfmt octal str ([37] ++ (if zeros then [48] else []) ++ ws ++ [120]) [m]
           = Some (replicate (Z.to_nat (w - Z.of_nat (length ds))) (if zeros then 48 else 32) ++ ds)
     ∧ numeral 16 m ds).
Proof.
  intros Hn Hm Hws Hw. split.
  - by apply printf_decimal.
  - assert (length (ws ++ [120]) = S (length ws)) as El by (rewrite length_app; cbn; lia).
    destruct zeros; cbn [app].
    + destruct (hex_conversion octal str (48 :: ws ++ [120]) (length ws) (Spec 48 w (-1) 0 false) [] m Hm)
        as (ds & E & Hd); [done|].
      exists ds. split; [|done]. eapply vprintfmt_conversion. cbn [length].
      rewrite El.
      rewrite conversion_zeros, (conversion_width _ _ _ _ _ w ws 120 []); [exact E|done..].
    + destruct (hex_conversion octal str (ws ++ [120]) (length ws) (Spec 32 w (-1) 0 false) [] m Hm)
        as (ds & E & Hd); [done|].
      exists ds. split; [|done]. eapply vprintfmt_conversion.
      rewrite El.
      rewrite (conversion_width _ _ _ _ _ w ws 120 []); [exact E|done..].
Qed.

