(* ===== verification/CallNumbers.v ===== *)
(** * Numbers of the system calls (kern/lib/syscall.h), which the kernel and the
    user library share *)

From S2P Require Import Prelude.

(** [enum __syscall_nr] of kern/lib/syscall.h *)
Definition SYS_puts : Z := 0.
Definition SYS_spawn : Z := 1.
Definition SYS_yield : Z := 2.
Definition SYS_produce : Z := 3.
Definition SYS_consume : Z := 4.
Definition SYS_open : Z := 5.
Definition SYS_close : Z := 6.
Definition SYS_read : Z := 7.
Definition SYS_write : Z := 8.
Definition SYS_mkdir : Z := 9.
Definition SYS_chdir : Z := 10.
Definition SYS_link : Z := 11.
Definition SYS_unlink : Z := 12.
Definition SYS_stat : Z := 13.
Definition SYS_sync_send : Z := 14.
Definition SYS_sync_recv : Z := 15.
Definition SYS_is_dir : Z := 16.
Definition SYS_ls : Z := 17.
Definition SYS_mv : Z := 18.
Definition SYS_rm : Z := 19.
Definition SYS_pwd : Z := 20.
Definition SYS_cp : Z := 21.
Definition SYS_cat : Z := 22.
Definition SYS_touch : Z := 23.
Definition SYS_readline : Z := 24.
Definition SYS_sigaction : Z := 25.
Definition SYS_kill : Z := 26.
Definition SYS_pause : Z := 27.
