(* ===== verification/TrapNumbers.v ===== *)
(** * Numbers of traps and interrupts (kern/dev/intr.h), which the trap handlers and
    the interrupt controllers share *)

From S2P Require Import Prelude.

Definition T_DIVIDE : Z := 0.
Definition T_DEBUG : Z := 1.
Definition T_NMI : Z := 2.
Definition T_BRKPT : Z := 3.
Definition T_OFLOW : Z := 4.
Definition T_BOUND : Z := 5.
Definition T_ILLOP : Z := 6.
Definition T_DEVICE : Z := 7.
Definition T_DBLFLT : Z := 8.
Definition T_COPROC : Z := 9.
Definition T_TSS : Z := 10.
Definition T_SEGNP : Z := 11.
Definition T_STACK : Z := 12.
Definition T_GPFLT : Z := 13.
Definition T_PGFLT : Z := 14.
Definition T_RES : Z := 15.
Definition T_FPERR : Z := 16.
Definition T_ALIGN : Z := 17.
Definition T_MCHK : Z := 18.
Definition T_SIMD : Z := 19.
Definition T_SECEV : Z := 30.
Definition T_IRQ0 : Z := 32.
Definition T_SYSCALL : Z := 48.
Definition T_LERROR : Z := 50.
Definition T_IPI0 : Z := 63.
Definition T_DEFAULT : Z := 254.
Definition IRQ_TIMER : Z := 0.
Definition IRQ_KBD : Z := 1.
Definition IRQ_SLAVE : Z := 2.
Definition IRQ_SERIAL24 : Z := 3.
Definition IRQ_SERIAL13 : Z := 4.
Definition IRQ_LPT2 : Z := 5.
Definition IRQ_FLOPPY : Z := 6.
Definition IRQ_SPURIOUS : Z := 7.
Definition IRQ_RTC : Z := 8.
Definition IRQ_MOUSE : Z := 12.
Definition IRQ_COPROCESSOR : Z := 13.
Definition IRQ_IDE1 : Z := 14.
Definition IRQ_IDE2 : Z := 15.

(** Selectors of the kernel (kern/dev/intr.h). *)
Definition CPU_GDT_KCODE : Z := 8.
Definition CPU_GDT_KDATA : Z := 16.
