(* ===== verification/Proc.v ===== *)
(** * Processes (kern/lib/seg.c, kern/lib/elf.c, kern/proc/PProc)

    The state of the whole kernel, the kernel stacks and segments of processes,
    the program loader and process creation. *)

From S2P Require Import Prelude Memory Strings Resume Spinlock PhysMap Pmm Container PageTable.
From S2P Require Import Isolation UserCopy Tcb TQueue Thread Signal Ipc Bufcache Log Block Inode Dir.
From S2P Require Import File Console Printf TrapNumbers.

(** ** Segments and kernel stacks (kern/lib/seg.h, kern/lib/kstack.h) *)

(** [struct segdesc], its base and limit joined. *)
Record segdesc := Segdesc {
  sd_lim : Z; sd_base : Z; sd_type : Z; sd_s : Z; sd_dpl : Z; sd_p : Z; sd_db : Z; sd_g : Z
}.

#[export] Instance zeroed_segdesc : Zeroed segdesc := Segdesc 0 0 0 0 0 0 0 0.

Definition SEGDESC_NULL : segdesc := zero.
Definition SEGDESC32 (type base lim dpl : Z) : segdesc :=
  Segdesc (Z.shiftr lim 12) base type 1 dpl 1 1 1.
Definition SEGDESC16 (type base lim dpl : Z) : segdesc := Segdesc lim base type 1 dpl 1 1 0.
Definition set_sd_s (v : Z) (d : segdesc) : segdesc :=
  Segdesc (sd_lim d) (sd_base d) (sd_type d) v (sd_dpl d) (sd_p d) (sd_db d) (sd_g d).

Definition STA_X : Z := 8.
Definition STA_W : Z := 2.
Definition STA_R : Z := 2.
Definition STS_T32A : Z := 9.
Definition CPU_GDT_UCODE : Z := 24.
Definition CPU_GDT_UDATA : Z := 32.
Definition CPU_GDT_TSS : Z := 40.
Definition FL_IF : Z := 512.
Definition KSTACK_MAGIC : Z := 2557891634.
Definition TSS_SIZE : Z := 236.
Definition TSS_IOPM : Z := 104.

(** [struct kstack]: the descriptors, the fields of the task state that are set,
    and the last two words. *)
Record kstack := Kstack {
  gdt : gmap Z segdesc;
  ts_esp0 : Z; ts_ss0 : Z; ts_iomb : Z; ts_iopm : list Z;
  ks_cpu_idx : Z; ks_magic : Z
}.

#[export] Instance zeroed_kstack : Zeroed kstack := Kstack ∅ 0 0 0 [] 0 0.

(** The event handlers a trap can have. *)
Inductive trap_cb := exception_cb | interrupt_cb | syscall_cb.

(** ** The kernel *)

Record kern := Kern {
  x_fs : fsys;
  x_con : con;
  debug_lk : spinlock; serial_lk : spinlock;
  uctx_pool : gmap Z tf_t;
  proc_kstack : gmap Z kstack;
  bsp_kstack : kstack;
  TRAP_HANDLER : gmap Z trap_cb;
  trap_inited : bool
}.

Definition l_x_fs : lens kern fsys :=
  Lens x_fs (λ f s, Kern f (x_con s) (debug_lk s) (serial_lk s) (uctx_pool s) (proc_kstack s)
                      (bsp_kstack s) (TRAP_HANDLER s) (trap_inited s)).
Definition l_x_con : lens kern con :=
  Lens x_con (λ c s, Kern (x_fs s) c (debug_lk s) (serial_lk s) (uctx_pool s) (proc_kstack s)
                       (bsp_kstack s) (TRAP_HANDLER s) (trap_inited s)).
Definition l_debug_lk : lens kern spinlock :=
  Lens debug_lk (λ k s, Kern (x_fs s) (x_con s) k (serial_lk s) (uctx_pool s) (proc_kstack s)
                          (bsp_kstack s) (TRAP_HANDLER s) (trap_inited s)).
Definition l_serial_lk : lens kern spinlock :=
  Lens serial_lk (λ k s, Kern (x_fs s) (x_con s) (debug_lk s) k (uctx_pool s) (proc_kstack s)
                           (bsp_kstack s) (TRAP_HANDLER s) (trap_inited s)).
Definition l_uctx_pool : lens kern (gmap Z tf_t) :=
  Lens uctx_pool (λ u s, Kern (x_fs s) (x_con s) (debug_lk s) (serial_lk s) u (proc_kstack s)
                           (bsp_kstack s) (TRAP_HANDLER s) (trap_inited s)).
Definition l_proc_kstack : lens kern (gmap Z kstack) :=
  Lens proc_kstack (λ k s, Kern (x_fs s) (x_con s) (debug_lk s) (serial_lk s) (uctx_pool s) k
                             (bsp_kstack s) (TRAP_HANDLER s) (trap_inited s)).
Definition l_bsp_kstack : lens kern kstack :=
  Lens bsp_kstack (λ k s, Kern (x_fs s) (x_con s) (debug_lk s) (serial_lk s) (uctx_pool s)
                            (proc_kstack s) k (TRAP_HANDLER s) (trap_inited s)).
Definition set_traps (h : gmap Z trap_cb) (i : bool) (s : kern) : kern :=
  Kern (x_fs s) (x_con s) (debug_lk s) (serial_lk s) (uctx_pool s) (proc_kstack s) (bsp_kstack s) h i.

(** The path to the threads, from the file system down. *)
Definition lens_comp {S T U} (l : lens S T) (m : lens T U) : lens S U :=
  Lens (λ s, lget m (lget l s)) (λ u s, lset l (lset m u (lget l s)) s).
Definition l_x_ipc : lens kern ipc :=
  lens_comp l_x_fs (lens_comp l_f_ino (lens_comp l_n_lgs (lens_comp l_g_bio l_o_ipc))).
Definition l_x_thr : lens kern thr := lens_comp l_x_ipc l_i_thr.
Definition l_x_vm : lens kern vm := lens_comp l_x_thr l_t_vm.

(** Addresses fixed by the linker: [proc_kstack[pid].kstack_hi] and [.tss], the
    function [proc_start_user], [sys_buf[pid]], [linebuf], the array of
    [sys_pwd] on the stack, and the program images, by the number [sys_spawn]
    gives them (zero is the idle program). *)
Class KernLayout `{FL : FsLayout} := {
  kstack_hi : Z → Z;
  tss_addr : Z → Z;
  proc_start_user_addr : Z;
  sys_buf : Z → Z;
  linebuf_addr : Z;
  arr_addr : Z → Z;
  elf_image : Z → Z
}.

Section Proc.
Context `{KL : KernLayout}.

(** ** seg.c *)

(** The two assignments of the descriptor of the task state of [pid]. *)
Definition tss_desc (pid : Z) : segdesc :=
  set_sd_s 0 (SEGDESC16 STS_T32A (u32 (tss_addr pid)) (TSS_SIZE - 1) 0).

Definition kstack_switch (pid : Z) : M kern unit :=
  _ ← chk "proc_kstack" NUM_IDS pid;
  lift l_bsp_kstack (modify (λ ks,
    Kstack (<[Z.shiftr CPU_GDT_TSS 3 := tss_desc pid]> (gdt ks)) (u32 (kstack_hi pid)) CPU_GDT_KDATA
      (ts_iomb ks) (ts_iopm ks) (ks_cpu_idx ks) (ks_magic ks))).

Definition seg_init_proc (cpu_idx pid : Z) : M kern unit :=
  _ ← chk "proc_kstack" NUM_IDS pid;
  lift l_proc_kstack (modify (λ m, <[pid :=
    let ks := aget m pid in
    let g := <[0 := SEGDESC_NULL]> (gdt ks) in
    let g := <[Z.shiftr CPU_GDT_KCODE 3 := SEGDESC32 (Z.lor STA_X STA_R) 0 4294967295 0]> g in
    let g := <[Z.shiftr CPU_GDT_KDATA 3 := SEGDESC32 STA_W 0 4294967295 0]> g in
    let g := <[Z.shiftr CPU_GDT_UCODE 3 := SEGDESC32 (Z.lor STA_X STA_R) 0 4294967295 3]> g in
    let g := <[Z.shiftr CPU_GDT_UDATA 3 := SEGDESC32 STA_W 0 4294967295 3]> g in
    let g := <[Z.shiftr CPU_GDT_TSS 3 := tss_desc pid]> g in
    Kstack g (u32 (kstack_hi pid)) CPU_GDT_KDATA TSS_IOPM (replicate 128 0 ++ [255]) cpu_idx
      KSTACK_MAGIC]> m)).

(** ** elf.c *)

Definition ELF_MAGIC : Z := 1179403647.
Definition ELF_SHT_STRTAB : Z := 3.
Definition ELF_PROG_LOAD : Z := 1.
Definition ELF_PROG_FLAG_WRITE : Z := 2.

(** [elfhdr], [proghdr] and [sechdr] in memory, by the offsets of their fields. *)
Definition e_magic (m : mem) (eh : Z) : Z := read32 m eh.
Definition e_entry (m : mem) (eh : Z) : Z := read32 m (eh + 24).
Definition e_phoff (m : mem) (eh : Z) : Z := read32 m (eh + 28).
Definition e_shoff (m : mem) (eh : Z) : Z := read32 m (eh + 32).
Definition e_phnum (m : mem) (eh : Z) : Z := read16 m (eh + 44).
Definition e_shstrndx (m : mem) (eh : Z) : Z := read16 m (eh + 50).
Definition PROGHDR_SIZE : Z := 32.
Definition SECHDR_SIZE : Z := 40.

Record proghdr := Proghdr {
  p_type : Z; p_offset : Z; p_va : Z; p_filesz : Z; p_memsz : Z; p_flags : Z
}.
Definition read_proghdr (m : mem) (ph : Z) : proghdr :=
  Proghdr (read32 m ph) (read32 m (ph + 4)) (read32 m (ph + 8)) (read32 m (ph + 16))
    (read32 m (ph + 20)) (read32 m (ph + 24)).

(** The body of the page loop. *)
Definition load_page (pid perm zva filesz va fa : Z) : M vm unit :=
  _ ← alloc_page pid va perm;
  if va <? rounddown zva PAGESIZE then _ ← pt_copyout fa pid va PAGESIZE; mret tt
  else if (va <? zva) && negb (filesz =? 0) then
    _ ← pt_memset pid va 0 PAGESIZE;
    _ ← pt_copyout fa pid va (zva - va);
    mret tt
  else _ ← pt_memset pid va 0 PAGESIZE; mret tt.

Fixpoint load_pages (fuel : nat) (pid perm zva eva filesz va fa : Z) : M vm unit :=
  if va <? eva then
    match fuel with
    | O => fail OutOfFuel
    | S fuel =>
      _ ← load_page pid perm zva filesz va fa;
      load_pages fuel pid perm zva eva filesz (u32 (va + PAGESIZE)) (u32 (fa + PAGESIZE))
    end
  else mret tt.

(** A segment has at most 2^20 pages. *)
Definition load_segment (eh pid : Z) (ph : proghdr) : M vm unit :=
  if negb (p_type ph =? ELF_PROG_LOAD) then mret tt
  else
    let fa := u32 (eh + rounddown (p_offset ph) PAGESIZE) in
    let va := rounddown (p_va ph) PAGESIZE in
    let zva := u32 (p_va ph + p_filesz ph) in
    let eva := roundup (u32 (p_va ph + p_memsz ph)) PAGESIZE in
    let perm := Z.lor (Z.lor PTE_U PTE_P)
                  (if negb (Z.land (p_flags ph) ELF_PROG_FLAG_WRITE =? 0) then PTE_W else 0) in
    load_pages (Z.to_nat ((eva - va) / PAGESIZE)) pid perm zva eva (p_filesz ph) va fa.

Fixpoint load_segments (n : nat) (eh ph pid : Z) : M vm unit :=
  match n with
  | O => mret tt
  | S n =>
    h ← gets (λ v, read_proghdr (v_mem v) ph);
    _ ← load_segment eh pid h;
    load_segments n eh (u32 (ph + PROGHDR_SIZE)) pid
  end.

Definition elf_load (exe pid : Z) : M vm unit :=
  m ← gets v_mem;
  _ ← kassert (e_magic m exe =? ELF_MAGIC) "eh->e_magic == ELF_MAGIC";
  _ ← kassert (negb (e_shstrndx m exe =? 0)) "eh->e_shstrndx != ELF_SHN_UNDEF";
  let sh := u32 (exe + e_shoff m exe) in
  _ ← kassert (read32 m (u32 (sh + SECHDR_SIZE * e_shstrndx m exe) + 4) =? ELF_SHT_STRTAB)
        "sh[eh->e_shstrndx].sh_type == ELF_SHT_STRTAB";
  load_segments (Z.to_nat (e_phnum m exe)) exe (u32 (exe + e_phoff m exe)) pid.

Definition elf_entry (exe : Z) : M vm Z :=
  m ← gets v_mem;
  _ ← kassert (e_magic m exe =? ELF_MAGIC) "eh->e_magic == ELF_MAGIC";
  mret (e_entry m exe).

(** ** PProc.c *)

(** The registers of a new process. *)
Definition user_tf (entry : Z) (t : tf_t) : tf_t :=
  Tf (edi t) (esi t) (ebp t) (oesp t) (ebx t) (edx t) (ecx t) (eax t)
    (Z.lor CPU_GDT_UDATA 3) (Z.lor CPU_GDT_UDATA 3) (trapno t) (err t) entry
    (Z.lor CPU_GDT_UCODE 3) FL_IF VM_USERHI (Z.lor CPU_GDT_UDATA 3).

Definition proc_create (elf_addr quota : Z) : M kern Z :=
  id ← lift l_x_thr get_curid;
  pid ← lift l_x_thr (thread_spawn kstack_hi proc_start_user_addr id quota);
  _ ← lift l_x_vm (elf_load elf_addr pid);
  _ ← chk "uctx_pool" NUM_IDS pid;
  entry ← lift l_x_vm (elf_entry elf_addr);
  _ ← lift l_uctx_pool (modify (λ u, <[pid := user_tf entry (aget u pid)]> u));
  _ ← seg_init_proc this_cpu pid;
  mret pid.

(** The registers [trap_return] loads. *)
Definition proc_start_user : M kern tf_t :=
  cur_pid ← lift l_x_thr get_curid;
  _ ← kstack_switch cur_pid;
  _ ← lift l_x_vm (set_pdir_base cur_pid);
  _ ← chk "uctx_pool" NUM_IDS cur_pid;
  gets (λ s, aget (uctx_pool s) cur_pid).
End Proc.
