(* ===== verification/Syscall.v ===== *)
(** * The remaining system calls and their dispatch (kern/trap/TSyscall,
    kern/trap/TDispatch) *)

From S2P Require Import Prelude Memory Strings Resume Spinlock PhysMap Pmm Container PageTable.
From S2P Require Import Isolation UserCopy Tcb TQueue Thread Signal Ipc Bufcache Log Block Inode Dir.
From S2P Require Import File Console Printf Proc CallNumbers.

Definition E_INVAL_EVENT : Z := 8.
Definition E_EXCEEDS_QUOTA : Z := 23.
Definition E_MAX_NUM_CHILDEN_REACHED : Z := 24.
Definition E_INVAL_CHILD_ID : Z := 25.

Section Syscall.
Context `{KL : KernLayout}.

(** Values of variables the code reads before it sets them. *)
Context (junk : Z).

Definition in_fs {A} (m : M fsys A) : M kern A := lift l_x_fs m.
Definition with_ino {A} (m : M ino A) : M kern A := in_fs (in_ino m).
Definition with_thr {A} (m : M thr A) : M kern A := lift l_x_thr m.
Definition with_vm {A} (m : M vm A) : M kern A := lift l_x_vm m.

(** [KERN_INFO("%s", ...)], of the string with these bytes. *)
Definition debug_info (s : list Z) : M kern unit :=
  _ ← lift l_debug_lk (spinlock_acquire "debug_lk");
  _ ← vdprintf l_serial_lk l_x_con (λ _, s) (codes "%s") [1];
  lift l_debug_lk spinlock_release.

(** [KERN_DEBUG] of a format without strings. *)
Definition debug_normal (file : list Z) (line : Z) (fmt ap : list Z) : M kern unit :=
  _ ← lift l_debug_lk (spinlock_acquire "debug_lk");
  _ ← vdprintf l_serial_lk l_x_con (λ _, file) (codes "[D] %s:%d: ") [1; line];
  _ ← vdprintf l_serial_lk l_x_con (λ _, []) fmt ap;
  lift l_debug_lk spinlock_release.

(** The bytes of kernel memory at [a] on, at most [n] of them, as [char]s. *)
Definition chars_at (a n : Z) : M kern (list Z) :=
  with_vm (gets (λ v, s8 <$> read_bytes (v_mem v) a n)).
Definition store_byte (a c : Z) : M kern unit :=
  with_vm (modify (λ v, set_mem (write8 (v_mem v) a c) v)).

(** The loop of [sys_puts]: false if a copy failed.  Each turn prints at least a
    byte. *)
Fixpoint puts_loop (fuel : nat) (cur_pid cur_pos remain : Z) : M kern bool :=
  if remain =? 0 then mret true
  else match fuel with
  | O => fail OutOfFuel
  | S fuel =>
    let nbytes := if remain <? PAGESIZE - 1 then remain else PAGESIZE - 1 in
    n ← with_vm (pt_copyin cur_pid cur_pos (sys_buf cur_pid) nbytes);
    if negb (n =? nbytes) then mret false
    else
      _ ← store_byte (sys_buf cur_pid + nbytes) 0;
      s ← chars_at (sys_buf cur_pid) PAGESIZE;
      _ ← debug_info s;
      puts_loop fuel cur_pid (u32 (cur_pos + nbytes)) (remain - nbytes)
  end.

Definition sys_puts (t : tf_t) : M kern tf_t :=
  cur_pid ← with_thr get_curid;
  let str_uva := syscall_get_arg2 t in
  let str_len := syscall_get_arg3 t in
  if negb ((VM_USERLO <=? str_uva) && (u32 (str_uva + str_len) <=? VM_USERHI))
  then mret (syscall_set_errno t E_INVAL_ADDR)
  else
    ok ← puts_loop (Z.to_nat (str_len / (PAGESIZE - 1) + 1)) cur_pid str_uva str_len;
    mret (syscall_set_errno t (if (ok : bool) then E_SUCC else E_MEM)).

(** The quota is checked for the variable [curid] before it is set. *)
Definition sys_spawn (t : tf_t) : M kern tf_t :=
  let elf_id := syscall_get_arg2 t in
  let quota := syscall_get_arg3 t in
  qok ← with_vm (lift l_v_cont (container_can_consume junk quota));
  nc ← with_vm (lift l_v_cont (container_get_nchildren junk));
  curid ← with_thr get_curid;
  if qok =? 0 then mret (sys_result t E_EXCEEDS_QUOTA NUM_IDS)
  else if NUM_IDS <? u32 (curid * MAX_CHILDREN + 1 + MAX_CHILDREN)
  then mret (sys_result t E_MAX_NUM_CHILDEN_REACHED NUM_IDS)
  else if nc =? MAX_CHILDREN then mret (sys_result t E_INVAL_CHILD_ID NUM_IDS)
  else if (1 <=? elf_id) && (elf_id <=? 8) then
    new_pid ← proc_create (elf_image elf_id) quota;
    mret (sys_result t (if new_pid =? NUM_IDS then E_INVAL_PID else E_SUCC) new_pid)
  else mret (sys_result t E_INVAL_PID NUM_IDS).

Definition sys_yield (t : tf_t) : KM thr tf_t :=
  _ ← thread_yield; mret (syscall_set_errno t E_SUCC).

Definition sys_is_dir (t : tf_t) : M kern tf_t :=
  let fd := s32 (syscall_get_arg2 t) in
  pid ← with_thr get_curid;
  fp ← with_thr (tcb_get_openfile pid fd);
  no ← in_fs (no_file fp);
  if (no : bool) then mret (sys_result t E_BADF (-1))
  else
    ip ← in_fs (fp_get f_ip fp);
    type ← with_ino (ip_get i_type ip);
    mret (sys_result t E_SUCC (cbool (type =? T_DIR))).

(** The calls that print with interrupts enabled between the messages: [window i]
    is what the interrupts do that arrive after message [i - 1], and before the
    first message for [i = 0].  [fmt] ends in a newline. *)
Fixpoint reports (window : nat → KM kern unit) (line : Z) (fmt : list Z) (n : nat) (i : nat)
    : KM kern unit :=
  match n with
  | O => mret tt
  | S n =>
    pid ← run (with_thr get_curid);
    _ ← run (debug_normal (codes "kern/trap/TSyscall/TSyscall.c") line (fmt ++ [10])
               [this_cpu; pid; Z.of_nat i]);
    _ ← window (S i);
    reports window line fmt n (S i)
  end.

Definition sys_produce (window : nat → KM kern unit) (t : tf_t) : KM kern tf_t :=
  _ ← reports window 246 (codes "CPU %d: Process %d: Produced %d") 5 0;
  mret (syscall_set_errno t E_SUCC).

Definition sys_consume (window : nat → KM kern unit) (t : tf_t) : KM kern tf_t :=
  _ ← reports window 257 (codes "CPU %d: Process %d: Consumed %d") 5 0;
  mret (syscall_set_errno t E_SUCC).

(** [cwd], set to the root if it is null. *)
Definition cwd_or_root (pid : Z) : M kern Z :=
  dp ← with_thr (tcb_get_cwd pid);
  if dp =? 0 then
    dp ← with_ino (inode_get ROOTDEV ROOTINO);
    _ ← with_thr (tcb_set_cwd pid dp);
    mret dp
  else mret dp.

Definition store_bytes (a : Z) (bs : list Z) : M kern unit := with_vm (place a bs).

(** The loop of [sys_ls]: the end of what it wrote at [buf_p].  A name ends at its
    14 bytes at the latest. *)
Fixpoint ls_loop (fuel : nat) (dp off buf_p : Z) : M kern Z :=
  size ← with_ino (ip_get i_size dp);
  if off <? size then
    match fuel with
    | O => fail OutOfFuel
    | S fuel =>
      r ← with_ino (inode_read junk dp off DE_SIZE);
      if negb (u32 r.1 =? DE_SIZE) then
        _ ← with_ino (inode_unlock ip_addr dp);
        fail (Panic "wrong in dir_lookup")
      else
        let de := r.2 in
        if de_inum de =? 0 then ls_loop fuel dp (off + DE_SIZE) buf_p
        else
          let n := strnlen (de_name de) (Z.to_nat PAGESIZE) in
          _ ← store_bytes buf_p (strncpy (de_name de) (Z.to_nat n));
          _ ← store_byte (buf_p + n) 32;
          ls_loop fuel dp (off + DE_SIZE) (buf_p + n + 1)
    end
  else mret buf_p.

Definition sys_ls (t : tf_t) : M kern tf_t :=
  let user_buf_addr := syscall_get_arg2 t in
  let buf_len := s32 (syscall_get_arg3 t) in
  cur_pid ← with_thr get_curid;
  dp ← cwd_or_root cur_pid;
  _ ← with_ino (inode_lock dp);
  size ← with_ino (ip_get i_size dp);
  buf_p ← ls_loop (dir_fuel size) dp 0 (sys_buf cur_pid);
  _ ← with_ino (inode_unlock ip_addr dp);
  _ ← store_byte (buf_p - 1) 0;
  let n := buf_p - sys_buf cur_pid in
  let len := if n <? buf_len then n else buf_len in
  _ ← with_vm (pt_copyout (sys_buf cur_pid) cur_pid user_buf_addr (u32 len));
  mret (sys_result t E_SUCC len).

(** The search of [sys_pwd] for the name of [inum] in [parent]: row [len] of the
    array at [arr] gets it. *)
Fixpoint pwd_name (fuel : nat) (parent inum off arr len : Z) : M kern Z :=
  size ← with_ino (ip_get i_size parent);
  if off <? size then
    match fuel with
    | O => fail OutOfFuel
    | S fuel =>
      r ← with_ino (inode_read junk parent off DE_SIZE);
      if negb (u32 r.1 =? DE_SIZE) then mret len
      else if de_inum r.2 =? inum then
        _ ← chk "arr" 100 len;
        _ ← store_bytes (arr + 100 * len) (strncpy (de_name r.2) (Z.to_nat DIRSIZ));
        _ ← store_byte (arr + 100 * len + DIRSIZ) 0;
        mret (len + 1)
      else pwd_name fuel parent inum (off + DE_SIZE) arr len
    end
  else mret len.

(** The walk up to the root; [fuel] bounds its length, which the code does not. *)
Fixpoint pwd_loop (fuel : nat) (curi parent arr len : Z) : M kern Z :=
  pn ← with_ino (ip_get i_inum parent);
  cn ← with_ino (ip_get i_inum curi);
  if pn =? cn then mret len
  else match fuel with
  | O => fail OutOfFuel
  | S fuel =>
    size ← with_ino (ip_get i_size parent);
    len ← pwd_name (dir_fuel size) parent cn 0 arr len;
    r ← with_ino (dir_lookup junk parent DOTDOT);
    pwd_loop fuel parent r.1 arr len
  end.

(** The last loop: where [p] ends.  It skips over the names and writes slashes. *)
Fixpoint pwd_join (n : nat) (arr p : Z) : M kern Z :=
  match n with
  | O => mret p
  | S n =>
    row ← chars_at (arr + 100 * Z.of_nat n) 100;
    let p := p + strnlen row 100 in
    _ ← store_byte p SLASH;
    pwd_join n arr (p + 1)
  end.

(** The user address is the argument in [eax], which is the number of the call. *)
Definition sys_pwd (fuel : nat) (t : tf_t) : M kern tf_t :=
  pid ← with_thr get_curid;
  curi ← cwd_or_root pid;
  r ← with_ino (dir_lookup junk curi DOTDOT);
  let arr := arr_addr pid in
  len ← pwd_loop fuel curi r.1 arr 0;
  p ← pwd_join (Z.to_nat len) arr arr;
  _ ← store_byte p 0;
  _ ← with_vm (pt_copyout arr pid (syscall_get_arg1 t) (p - arr + 1));
  mret t.

Definition sys_mv (t : tf_t) : tf_t := t.
Definition sys_cat (t : tf_t) : tf_t := t.
Definition sys_cp (t : tf_t) : tf_t := t.
Definition sys_touch (t : tf_t) : tf_t := t.

Definition sys_rm (t : tf_t) : M kern tf_t :=
  let user_addr_path := syscall_get_arg2 t in
  let length := s32 (syscall_get_arg3 t) in
  cur_pid ← with_thr get_curid;
  let length := if length <? PAGESIZE - 1 then length else PAGESIZE - 1 in
  _ ← with_vm (pt_copyin cur_pid user_addr_path (sys_buf cur_pid) (u32 length));
  _ ← store_byte (sys_buf cur_pid + length) 0;
  mret t.

(** A null line is Ctrl-C: the caller gets SIGINT. *)
Definition sys_readline (polls fuel : nat) (t : tf_t) : KM kern tf_t :=
  kernbuf ← readline l_x_thr l_x_con polls fuel (codes ">:");
  let userbuf := syscall_get_arg2 t in
  cur_pid ← run (with_thr get_curid);
  match kernbuf with
  | None =>
    _ ← run (with_thr (tcb_add_pending_signal cur_pid SIGINT));
    _ ← run (with_thr (copyout_bytes (local_addr "empty" cur_pid) [0] cur_pid userbuf));
    mret (sys_result t E_INVAL_EVENT (-1))
  | Some line =>
    let n_len := strnlen line 1000 + 1 in
    _ ← run (store_bytes linebuf_addr line);
    n ← run (with_vm (pt_copyout linebuf_addr cur_pid userbuf n_len));
    if negb (n =? n_len) then kfail (Panic "Readline fails!")
    else mret (sys_result t E_SUCC 0)
  end.

(** ** TDispatch.c *)

(** What the world does to a call: the bounds on its waits, and the frames of the
    interrupts that arrive in each window in which it enables them. *)
Record patience := Patience {
  wait_turns : nat; polls : nat; line_chars : nat; parents : nat; arrivals : nat → list tf_t }.

(** An unknown number calls [syscall_set_errno] with the error where the frame
    should be: the word at its [eax] is overwritten. *)
Definition bad_callnr (t : tf_t) : M kern tf_t :=
  _ ← with_vm (modify (λ v, set_mem (write32 (v_mem v) (3 + 28) junk) v)); mret t.

Definition in_ipc {A} (m : KM ipc A) : KM kern A := klift l_x_ipc m.
Definition in_threads {A} (m : KM thr A) : KM kern A := klift l_x_thr m.

(** [intr_local_enable] opens [window 0] before the two calls that run with
    interrupts on. *)
Definition syscall_dispatch (w : patience) (window : nat → KM kern unit) (t : tf_t) : KM kern tf_t :=
  let nr := syscall_get_arg1 t in
  if nr =? SYS_sync_send then in_ipc (sys_sync_send (wait_turns w) t)
  else if nr =? SYS_sync_recv then in_ipc (sys_sync_recv (wait_turns w) t)
  else if nr =? SYS_is_dir then run (sys_is_dir t)
  else if nr =? SYS_ls then run (sys_ls t)
  else if nr =? SYS_pwd then run (sys_pwd (parents w) t)
  else if nr =? SYS_cp then mret (sys_cp t)
  else if nr =? SYS_mv then mret (sys_mv t)
  else if nr =? SYS_rm then run (sys_rm t)
  else if nr =? SYS_cat then mret (sys_cat t)
  else if nr =? SYS_touch then sys_readline (polls w) (line_chars w) (sys_touch t)
  else if nr =? SYS_readline then sys_readline (polls w) (line_chars w) t
  else if nr =? SYS_puts then run (sys_puts t)
  else if nr =? SYS_spawn then run (sys_spawn t)
  else if nr =? SYS_yield then in_threads (sys_yield t)
  else if nr =? SYS_produce then (_ ← window 0%nat; sys_produce window t)
  else if nr =? SYS_consume then (_ ← window 0%nat; sys_consume window t)
  else if nr =? SYS_open then run (in_fs (sys_open junk t))
  else if nr =? SYS_close then run (in_fs (sys_close t))
  else if nr =? SYS_read then run (in_fs (sys_read junk t))
  else if nr =? SYS_write then run (in_fs (sys_write junk t))
  else if nr =? SYS_mkdir then run (in_fs (sys_mkdir junk t))
  else if nr =? SYS_chdir then run (in_fs (sys_chdir junk t))
  else if nr =? SYS_link then run (in_fs (sys_link junk t))
  else if nr =? SYS_unlink then run (in_fs (sys_unlink junk t))
  else if nr =? SYS_stat then run (in_fs (sys_fstat t))
  else if nr =? SYS_sigaction then run (with_thr (sys_sigaction t))
  else if nr =? SYS_kill then run (with_thr (sys_kill t))
  else if nr =? SYS_pause then in_threads (sys_pause t)
  else if nr =? SYS_sigreturn then run (with_thr (sys_sigreturn t))
  else run (bad_callnr t).
End Syscall.
