(* ===== verification/Trap.v ===== *)
(** * Traps (kern/trap: TTrapHandler, TTrapInit) and start-up (kern/init/init.c) *)

From S2P Require Import Prelude Memory Strings Resume Spinlock PhysMap Pmm Container PageTable.
From S2P Require Import Isolation UserCopy Tcb TQueue Thread Signal Ipc Bufcache Log Block Inode Dir.
From S2P Require Import Contents File Console Printf TrapNumbers Proc Syscall.

Definition PFE_PR : Z := 1.

Section Trap.
Context `{KL : KernLayout}.

(** Values of variables the code reads before it sets them, and the bounds of
    the calls that wait. *)
Context (junk : Z) (w : patience).

(** ** TTrapHandler.c *)

Definition default_exception_handler (t : tf_t) : M kern unit :=
  _ ← with_thr get_curid; fail (Panic "Trap").

(** [fault_va] is the register CR2. *)
Definition pgflt_handler (fault_va : Z) (t : tf_t) : M kern unit :=
  cur_pid ← with_thr get_curid;
  let errno := err t in
  if (0 <? cur_pid) && (negb (Z.land errno PFE_PR =? 0) || (fault_va <? VM_USERLO))
  then with_thr (tcb_add_pending_signal cur_pid SIGSEGV)
  else if negb (Z.land errno PFE_PR =? 0) then fail (Panic "Permission denied")
  else
    r ← with_vm (alloc_page cur_pid fault_va (Z.lor (Z.lor PTE_W PTE_U) PTE_P));
    if r =? MagicNumber then fail (Panic "Page allocation failed") else mret tt.

Definition exception_handler (cr2 : Z) (t : tf_t) : M kern unit :=
  _ ← with_thr get_curid;
  if trapno t =? T_PGFLT then pgflt_handler cr2 t else default_exception_handler t.

(** The acknowledgement of the interrupt controller changes no memory. *)
Definition timer_intr_handler : KM kern unit := in_threads sched_update.

Definition interrupt_handler (t : tf_t) : KM kern unit :=
  _ ← run (with_thr get_curid);
  if trapno t =? T_IRQ0 + IRQ_SPURIOUS then mret tt
  else if trapno t =? T_IRQ0 + IRQ_TIMER then timer_intr_handler
  else if trapno t =? T_IRQ0 + IRQ_IDE1 then run (with_ino (cached ide_intr))
  else mret tt.

(** [f(tf)].  [window] is what happens while a call has interrupts enabled. *)
Definition call_handler (window : nat → KM kern unit) (f : trap_cb) (cr2 : Z) (t : tf_t) : KM kern tf_t :=
  match f with
  | exception_cb => _ ← run (exception_handler cr2 t); mret t
  | interrupt_cb => _ ← interrupt_handler t; mret t
  | syscall_cb => syscall_dispatch junk w window t
  end.

(** The registers [trap_return] loads. *)
Definition trap_with (window : nat → KM kern unit) (cr2 : Z) (t : tf_t) : KM kern tf_t :=
  cur_pid ← run (with_thr get_curid);
  _ ← run (with_vm (set_pdir_base 0));
  _ ← run (chk "TRAP_HANDLER" 256 (trapno t));
  f ← run (gets (λ s, TRAP_HANDLER s !! trapno t));
  t ← (match f with
       | Some f => call_handler window f cr2 t
       | None => mret t
       end : KM kern tf_t);
  _ ← run (kstack_switch cur_pid);
  t ← in_threads (handle_pending_signals t);
  _ ← run (with_vm (set_pdir_base cur_pid));
  mret t.

(** An interrupt that arrives in the kernel is a trap as well, of which the frame
    is the kernel's; its own gate has disabled interrupts.  [trap_return] loads
    that frame: if it was changed, the kernel goes on where the frame now says. *)
Definition kernel_interrupt (t : tf_t) : KM kern unit :=
  t' ← trap_with (λ _, mret tt) 0 t;
  if decide (t' = t) then mret tt else kfail (Hijacked (eip t')).

Fixpoint kernel_interrupts (l : list tf_t) : KM kern unit :=
  match l with
  | [] => mret tt
  | t :: l => _ ← kernel_interrupt t; kernel_interrupts l
  end.

Definition trap : Z → tf_t → KM kern tf_t := trap_with (λ i, kernel_interrupts (arrivals w i)).

(** ** TTrapInit.c *)

Definition trap_init_array : M kern unit :=
  i ← gets trap_inited;
  _ ← kassert (negb i) "inited == FALSE";
  modify (set_traps ∅ true).

Definition trap_handler_register (cpu_idx trapno : Z) (cb : trap_cb) : M kern unit :=
  _ ← kassert ((0 <=? cpu_idx) && (cpu_idx <? 8)) "0 <= cpu_idx && cpu_idx < 8";
  _ ← kassert ((0 <=? trapno) && (trapno <? 256)) "0 <= trapno && trapno < 256";
  modify (λ s, set_traps (<[trapno := cb]> (TRAP_HANDLER s)) (trap_inited s) s).

Fixpoint register_all (cpu_idx : Z) (l : list (Z * trap_cb)) : M kern unit :=
  match l with
  | [] => mret tt
  | (trapno, cb) :: l => _ ← trap_handler_register cpu_idx trapno cb; register_all cpu_idx l
  end.

(** The calls of [trap_init], in order. *)
Definition registrations : list (Z * trap_cb) :=
  [(T_GPFLT, exception_cb); (T_PGFLT, exception_cb); (T_SYSCALL, syscall_cb);
   (T_DIVIDE, exception_cb); (T_DEBUG, exception_cb); (T_NMI, exception_cb);
   (T_BRKPT, exception_cb); (T_OFLOW, exception_cb); (T_BOUND, exception_cb);
   (T_ILLOP, exception_cb); (T_DEVICE, exception_cb); (T_DBLFLT, exception_cb);
   (T_COPROC, exception_cb); (T_TSS, exception_cb); (T_SEGNP, exception_cb);
   (T_STACK, exception_cb); (T_RES, exception_cb); (T_FPERR, exception_cb);
   (T_ALIGN, exception_cb); (T_MCHK, exception_cb); (T_SIMD, exception_cb);
   (T_SECEV, exception_cb);
   (T_IRQ0 + IRQ_SPURIOUS, interrupt_cb); (T_IRQ0 + IRQ_TIMER, interrupt_cb);
   (T_IRQ0 + IRQ_KBD, interrupt_cb); (T_IRQ0 + IRQ_SERIAL13, interrupt_cb);
   (T_IRQ0 + IRQ_IDE1, interrupt_cb)].

(** The boot processor, index zero; unmasking the interrupts is not kept. *)
Definition trap_init : M kern unit :=
  _ ← trap_init_array; register_all 0 registrations.

(** ** init.c *)

(** The two first processes, and the switch to the shell. *)
Definition kern_main (idle shell : Z) : KM kern unit :=
  _ ← run (proc_create idle 1000);
  pid ← run (proc_create shell 1000);
  _ ← run (with_thr (tqueue_remove NUM_IDS pid));
  _ ← run (with_thr (tcb_set_state pid TSTATE_RUN));
  _ ← run (with_thr (set_curid pid));
  _ ← in_threads (kctx_switch 0 pid);
  kfail (Panic "kern_main_ap() should never reach here.").

Definition kern_init (arg2 : Z → Z) (mbi_addr idle shell : Z) : KM kern unit :=
  _ ← run (with_thr (thread_init arg2 mbi_addr)); kern_main idle shell.

(** ** Page faults *)

#[local] Instance lens_comp_ok {S T U} (l : lens S T) (m : lens T U) :
  LensOk l → LensOk m → LensOk (lens_comp l m).
Proof.
  intros [G1 S1 B1] [G2 S2 B2]. split; cbn.
  - intros u s. by rewrite G1, G2.
  - intros u u' s. by rewrite S1, G1, S2.
  - intros s. by rewrite B2, B1.
Qed.

#[local] Instance l_x_fs_ok : LensOk l_x_fs.
Proof. split; [done|done|by intros []]. Qed.
#[local] Instance l_f_ino_ok : LensOk l_f_ino.
Proof. split; [done|done|by intros []]. Qed.
#[local] Instance l_o_ipc_ok : LensOk l_o_ipc.
Proof. split; [done|done|by intros []]. Qed.
#[local] Instance l_t_vm_ok : LensOk l_t_vm.
Proof. split; [done|done|by intros []]. Qed.
#[local] Instance l_x_thr_ok : LensOk l_x_thr.
Proof. unfold l_x_thr, l_x_ipc. apply _. Qed.
#[local] Instance l_x_vm_ok : LensOk l_x_vm.
Proof. unfold l_x_vm. apply _. Qed.

Lemma lift_get {S T A} (l : lens S T) `{!LensOk l} (m : M T A) s a :
  m (lget l s) = Ok (a, lget l s) → lift l m s = Ok (a, s).
Proof. intros E. rewrite (lift_Ok _ _ _ _ _ E). by rewrite lset_lget. Qed.

(** The page directory of process [i]. *)
Definition at_base (i : Z) (v : vm) : vm := Vm (v_cont v) (v_mem v) (pt_lk v) (pdir_addr i 0) (paging v).

Lemma set_base_Ok i v : 0 ≤ i < NUM_IDS → set_pdir_base i v = Ok (tt, at_base i v).
Proof.
  intros Hi. unfold set_pdir_base, mbind, M_bind, chk.
  by rewrite (proj2 (Z.leb_le 0 i)), (proj2 (Z.ltb_lt i NUM_IDS)) by lia.
Qed.

Lemma at_base_ok i v : vm_ok v → vm_ok (at_base i v).
Proof. intros [[] Hl]. by split. Qed.

(** The kernel after the entry of a trap. *)
Definition entered (s : kern) : kern := lset l_x_vm (at_base 0 (lget l_x_vm s)) s.

(** The way back. *)
Definition leave (cur : Z) (t : tf_t) : KM kern tf_t :=
  _ ← run (kstack_switch cur);
  t ← in_threads (handle_pending_signals t);
  _ ← run (with_vm (set_pdir_base cur));
  mret t.

Lemma trap_enter window cr2 t s cur f :
  aget (CURID (lget l_x_thr s)) this_cpu = cur → 0 ≤ trapno t < 256 → TRAP_HANDLER s !! trapno t = Some f →
  trap_with window cr2 t s = (t' ← call_handler window f cr2 t; leave cur t') (entered s).
Proof.
  intros Hc Hn Hf. unfold trap_with.
  rewrite (kbind_run _ _ s cur s) by (apply lift_get; [apply _|]; unfold get_curid, gets; by rewrite Hc).
  rewrite (kbind_run _ _ s tt (entered s)) by (apply lift_Ok, set_base_Ok; by vm_compute).
  rewrite (kbind_run _ _ (entered s) tt (entered s)).
  2:{ unfold chk. by rewrite (proj2 (Z.leb_le 0 (trapno t))), (proj2 (Z.ltb_lt (trapno t) 256)) by lia. }
  rewrite (kbind_run _ _ (entered s) (Some f) (entered s)); [done|]. unfold gets. by rewrite <- Hf.
Qed.

Lemma curid_Ok s cur : aget (CURID (lget l_x_thr s)) this_cpu = cur → with_thr get_curid s = Ok (cur, s).
Proof. intros E. apply lift_get; [apply _|]. unfold get_curid, gets. by rewrite E. Qed.

(** The kernel after [kstack_switch]; the threads are as they were. *)
Lemma leave_enter cur t s :
  0 ≤ cur < NUM_IDS →
  ∃ s1, lget l_x_thr s1 = lget l_x_thr s ∧
    leave cur t s = kbind (klift_tree l_x_thr s1 (handle_pending_signals t (lget l_x_thr s1)))
                      (λ t', _ ← run (with_vm (set_pdir_base cur)); mret t').
Proof.
  intros Hc. assert (∃ s1, kstack_switch cur s = Ok (tt, s1) ∧ lget l_x_thr s1 = lget l_x_thr s)
    as (s1 & E & E1).
  { eexists. unfold kstack_switch, mbind, M_bind, chk.
    by rewrite (proj2 (Z.leb_le 0 cur)), (proj2 (Z.ltb_lt cur NUM_IDS)) by lia. }
  exists s1. split; [done|]. unfold leave. by rewrite (kbind_run _ _ _ _ _ E).
Qed.

Lemma lowest_None p n : lowest p = None → 1 ≤ n < NSIG → Z.testbit p n = false.
Proof.
  unfold lowest. destruct (list_find _ _) eqn:E; [done|]. intros _ Hn. apply list_find_None in E.
  rewrite Forall_forall in E. apply not_true_is_false, E, elem_of_seqZ. unfold NSIG in *. lia.
Qed.

(** A handler for exceptions between entry and exit. *)
Lemma exception_Ok window cr2 t s s' cur :
  exception_handler cr2 t s = Ok (tt, s') →
  (t' ← call_handler window exception_cb cr2 t; leave cur t') s = leave cur t s'.
Proof. intros E. unfold call_handler, mbind, KM_bind, run. by rewrite E. Qed.

Lemma exception_Err window cr2 t s e cur :
  exception_handler cr2 t s = Err e →
  (t' ← call_handler window exception_cb cr2 t; leave cur t') s = KErr e.
Proof. intros E. unfold call_handler, mbind, KM_bind, run. by rewrite E. Qed.

Section Fault.
Context (s : kern) (cur : Z) (ready : list Z) (t : tf_t) (cr2 : Z).
Let T := lget l_x_thr s.
Context (Hok : sched_ok T cur ready) (Hvm : vm_ok (t_vm T)) (Hpid : user_pid cur).

Lemma entered_sched : sched_ok (lget l_x_thr (entered s)) cur ready ∧ vm_ok (t_vm (lget l_x_thr (entered s))).
Proof.
  split; [|by apply at_base_ok]. change (lget l_x_thr (entered s)) with (lset l_t_vm (at_base 0 (t_vm T)) T).
  by apply sched_ok_vm.
Qed.

Lemma pgflt_bad :
  negb (Z.land (err t) PFE_PR =? 0) || (cr2 <? VM_USERLO) = true →
  pgflt_handler cr2 t (entered s)
  = Ok (tt, lset l_x_thr (put cur (pend_tcb SIGSEGV) (lget l_x_thr (entered s))) (entered s)).
Proof.
  intros Hbad. destruct entered_sched as [Hs _]. unfold pgflt_handler.
  rewrite (bind_run _ _ _ _ _ (curid_Ok (entered s) cur (si_cur _ _ _ (proj1 Hs)))).
  rewrite Hbad. unfold user_pid in Hpid. rewrite (proj2 (Z.ltb_lt 0 cur)) by lia. cbn [andb].
  apply lift_Ok. unfold tcb_add_pending_signal. cbn [Z.leb Z.ltb Z.compare andb NSIG SIGSEGV].
  unfold sig_upd, tcb_upd, mbind, M_bind, chk.
  by rewrite (proj2 (Z.leb_le 0 cur)), (proj2 (Z.ltb_lt cur NUM_IDS)) by lia.
Qed.

(** The pages an allocation for [cr2] takes, and those that can be had. *)
Definition page_to_be_had : bool :=
  pages_needed (v_mem (t_vm T)) cur cr2 <=? pages_left (v_cont (t_vm T)) cur.

Lemma pgflt_demand :
  negb (Z.land (err t) PFE_PR =? 0) || (cr2 <? VM_USERLO) = false → cr2 < VM_USERHI →
  if page_to_be_had then
    ∃ v p, pgflt_handler cr2 t (entered s) = Ok (tt, lset l_x_vm v (entered s)) ∧ vm_ok v
      ∧ same_tree (t_vm T) v ∧ page_added (at_base 0 (t_vm T)) v cur cr2 7 p
  else pgflt_handler cr2 t (entered s) = Err (Panic "Page allocation failed").
Proof.
  intros [Hb1 Hb2]%orb_false_iff Hhi. destruct entered_sched as [Hs Hv]. unfold pgflt_handler, page_to_be_had.
  rewrite (bind_run _ _ _ _ _ (curid_Ok (entered s) cur (si_cur _ _ _ (proj1 Hs)))).
  rewrite Hb1, Hb2, andb_false_r. apply Z.ltb_ge in Hb2.
  destruct (wp_run (alloc_page cur cr2 7) (λ r v,
    if pages_needed (v_mem (t_vm T)) cur cr2 <=? pages_left (v_cont (t_vm T)) cur
    then r ≠ MagicNumber ∧ vm_ok v ∧ ∃ p, page_added (at_base 0 (t_vm T)) v cur cr2 7 p
    else r = MagicNumber) (at_base 0 (t_vm T))) as (r & v & E & Hr).
  { apply wp_alloc_page_left; [done|done|lia|done| |].
    - intros v _ _ _ _ _ Hlt. by rewrite (proj2 (Z.leb_gt _ _)).
    - intros r v p Hn Hv' Hp Hle _. rewrite (proj2 (Z.leb_le _ _)) by done. split_and!; [done|done|by exists p]. }
  rewrite (bind_run _ _ (entered s) (lset l_x_vm v (entered s)) r) by (by apply lift_Ok).
  destruct (_ <=? _); [|by subst r]. destruct Hr as (Hn & Hv' & p & Hp).
  destruct (Z.eqb_spec r MagicNumber); [done|]. exists v, p. split_and!; [done|done| |done].
  apply (keeps_alloc_page cur cr2 7 _ _ _ E).
Qed.

(** An interrupt of the keyboard while a call has interrupts enabled delivers the
    lowest pending signal into the frame of the kernel: the kernel goes on in the
    handler of the process, in kernel mode. *)
Lemma kernel_enters_handler n :
  state (tcb T cur) ≠ TSTATE_READY → 31 ≤ esp t < two32 →
  trapno t = T_IRQ0 + IRQ_KBD → TRAP_HANDLER s !! trapno t = Some interrupt_cb →
  lowest (pending T cur) = Some n → n ≠ SIGKILL → handler T cur n ≠ 0 → eip t ≠ handler T cur n →
  kernel_interrupt t s = KErr (Hijacked (handler T cur n)).
Proof.
  intros Hst Hsp Hno Hh Hn Hk Hhd Hip. destruct entered_sched as [Hs Hv]. unfold kernel_interrupt, mbind at 1, KM_bind.
  rewrite (trap_enter _ _ _ _ cur interrupt_cb) by (done || apply (si_cur _ _ _ (proj1 Hok)) || by rewrite Hno).
  assert (call_handler (λ _, mret tt) interrupt_cb 0 t (entered s) = KRet t (entered s)) as E.
  { assert (interrupt_handler t (entered s) = KRet tt (entered s)) as Ei.
    { unfold interrupt_handler. rewrite (kbind_run _ _ _ _ _ (curid_Ok (entered s) cur (si_cur _ _ _ (proj1 Hs)))).
      by rewrite Hno. }
    cbn [call_handler]. unfold mbind, KM_bind. by rewrite Ei. }
  unfold mbind at 1, KM_bind at 1. rewrite E. cbn [kbind]. unfold user_pid in Hpid.
  destruct (leave_enter cur t (entered s)) as (s1 & E1 & ->); [lia|]. rewrite E1.
  pose proof (handle_pending_serves _ cur ready t Hs Hv Hpid Hst Hsp) as Hp.
  change (pending (lget l_x_thr (entered s)) cur) with (pending T cur) in Hp. rewrite Hn in Hp.
  unfold serves in Hp. rewrite decide_True in Hp by done. destruct Hp as (T' & -> & _). cbn [klift_tree kbind].
  rewrite (kbind_run _ _ _ _ _ (lift_Ok l_x_vm _ _ _ _ (set_base_Ok cur _ ltac:(lia)))). cbn [kbind mret KM_ret].
  rewrite decide_False; [done|]. intros E'. apply Hip. by rewrite <- E' at 1.
Qed.

Context (Hh : TRAP_HANDLER s !! T_PGFLT = Some exception_cb) (Hno : trapno t = T_PGFLT).

Lemma trap_fault window :
  trap_with window cr2 t s = (t' ← call_handler window exception_cb cr2 t; leave cur t') (entered s)
  ∧ exception_handler cr2 t (entered s) = pgflt_handler cr2 t (entered s).
Proof.
  destruct entered_sched as [Hs _]. split.
  - apply trap_enter; [apply (si_cur _ _ _ (proj1 Hok))|by rewrite Hno|by rewrite Hno].
  - unfold exception_handler.
    rewrite (bind_run _ _ _ _ _ (curid_Ok (entered s) cur (si_cur _ _ _ (proj1 Hs)))). by rewrite Hno.
Qed.

Lemma fault_bad :
  state (tcb T cur) ≠ TSTATE_READY → 31 ≤ esp t < two32 →
  negb (Z.land (err t) PFE_PR =? 0) || (cr2 <? VM_USERLO) = true →
  ∃ s1 n r, let T1 := lget l_x_thr s1 in
    pending T1 cur = Z.lor (pending T cur) (2 ^ SIGSEGV)
    ∧ lowest (pending T1 cur) = Some n ∧ n ≤ SIGSEGV ∧ serves T1 cur ready n t r
    ∧ trap cr2 t s = kbind (klift_tree l_x_thr s1 r)
        (λ t', _ ← run (with_vm (set_pdir_base cur)); mret t').
Proof.
  intros Hst Hsp Hbad. destruct entered_sched as [Hs Hv]. unfold trap; destruct (trap_fault (λ i, kernel_interrupts (arrivals w i))) as [-> Ee].
  rewrite (pgflt_bad Hbad) in Ee. rewrite (exception_Ok _ _ _ _ _ _ Ee).
  set (T1 := put cur (pend_tcb SIGSEGV) (lget l_x_thr (entered s))) in *.
  destruct (leave_enter cur t (lset l_x_thr T1 (entered s))) as (s1 & E1 & ->); [unfold user_pid in Hpid; lia|].
  change (lget l_x_thr (lset l_x_thr T1 (entered s))) with T1 in E1.
  assert (tcb T1 cur = pend_tcb SIGSEGV (tcb T cur)) as Et by (unfold T1, put; thr_simpl; by rewrite aget_eq).
  assert (pending T1 cur = Z.lor (pending T cur) (2 ^ SIGSEGV)) as Ep by (unfold pending; by rewrite Et).
  assert (sched_ok T1 cur ready) as Hs1 by by apply sched_ok_put.
  assert (Z.testbit (pending T1 cur) SIGSEGV = true) as Hbit.
  { rewrite Ep, Z.lor_spec, Z.pow2_bits_true, orb_true_r; done. }
  pose proof (handle_pending_serves T1 cur ready t Hs1 Hv Hpid) as Hp. rewrite Et in Hp. specialize (Hp Hst Hsp).
  destruct (lowest (pending T1 cur)) as [n|] eqn:El.
  - pose proof El as (Hn & _ & Hlow)%lowest_spec. exists s1, n, (handle_pending_signals t T1). rewrite E1.
    split_and!; [done|done| |done|done]. destruct (decide (n ≤ SIGSEGV)); [done|].
    rewrite Hlow in Hbit; [done|]. unfold SIGSEGV in *. lia.
  - rewrite (lowest_None _ SIGSEGV El) in Hbit by done. done.
Qed.

Lemma fault_demand :
  state (tcb T cur) ≠ TSTATE_READY → 31 ≤ esp t < two32 →
  negb (Z.land (err t) PFE_PR =? 0) || (cr2 <? VM_USERLO) = false → cr2 < VM_USERHI →
  if page_to_be_had then
    ∃ s1 p, let v1 := lget l_x_vm s1 in
      vm_ok v1 ∧ page_added (at_base 0 (t_vm T)) v1 cur cr2 7 p
      ∧ mmu (v_mem v1) (pdir_addr cur 0) true true cr2 = Some (p * 4096 + cr2 mod 4096)
      ∧ match lowest (pending T cur) with
        | None => trap cr2 t s = KRet t (lset l_x_vm (at_base cur v1) s1)
        | Some n => ∃ r, serves (lget l_x_thr s1) cur ready n t r
            ∧ trap cr2 t s = kbind (klift_tree l_x_thr s1 r)
                (λ t', _ ← run (with_vm (set_pdir_base cur)); mret t')
        end
  else trap cr2 t s = KErr (Panic "Page allocation failed").
Proof.
  intros Hst Hsp Hgood Hhi. unfold trap. destruct (trap_fault (λ i, kernel_interrupts (arrivals w i))) as [-> Ee].
  pose proof (pgflt_demand Hgood Hhi) as Hd. destruct page_to_be_had.
  2: { rewrite Hd in Ee. by apply exception_Err. }
  destruct Hd as (v & p & E & Hv & Htree & Hp). rewrite E in Ee. rewrite (exception_Ok _ _ _ _ _ _ Ee).
  unfold user_pid in Hpid. destruct (leave_enter cur t (lset l_x_vm v (entered s))) as (s1 & E1 & ->); [lia|].
  change (lget l_x_thr (lset l_x_vm v (entered s))) with (lset l_t_vm v T) in E1. exists s1, p. cbv zeta.
  change (lget l_x_vm s1) with (t_vm (lget l_x_thr s1)). rewrite E1. change (t_vm (lset l_t_vm v T)) with v.
  apply orb_false_iff in Hgood as [_ Hlo%Z.ltb_ge].
  assert (mmu (v_mem v) (pdir_addr cur 0) true true cr2 = Some (p * 4096 + cr2 mod 4096)) as Hmmu.
  { destruct Hp as [[_ _ He _ _ _ _] Huf _]. apply (mmu_of_entry v); [apply Hv|done|done|done|by apply user_frame_range]. }
  split_and!; [done|done|done|].
  pose proof (handle_pending_serves (lset l_t_vm v T) cur ready t (sched_ok_vm _ _ _ _ Hok Htree) Hv Hpid Hst Hsp) as Hs'.
  change (pending (lset l_t_vm v T) cur) with (pending T cur) in Hs'. destruct (lowest (pending T cur)) as [n|].
  - by exists (handle_pending_signals t (lset l_t_vm v T)).
  - rewrite Hs'. cbn [klift_tree kbind]. rewrite <- E1, lset_lget.
    rewrite (kbind_run _ _ s1 tt (lset l_x_vm (at_base cur (lget l_x_vm s1)) s1)) by (apply lift_Ok, set_base_Ok; lia).
    change (lget l_x_vm s1) with (t_vm (lget l_x_thr s1)). by rewrite E1.
Qed.
End Fault.

(** ** Properties *)

(** C7: A page fault of a process that blocks no signals.  An access to a page that
    is there, or below the user range, makes SIGSEGV pending, and the lowest pending
    signal is served before the process continues, as on every return to user mode.  A
    fault at an unmapped address of the user range maps a fresh page there, and a
    table if there is none, and changes nothing else of the page structures; then
    the lowest pending signal is served, or with none pending the process resumes
    with the same registers in its own page directory, in which the address is now
    readable and writable.  The kernel panics instead exactly when the pages it takes
    cannot be had: when the quota of the process is used up, or the search for free
    pages reaches the end of memory before it has found them. *)
Theorem page_fault_correct s cur ready t cr2 :
  let T := lget l_x_thr s in
  sched_ok T cur ready → vm_ok (t_vm T) → user_pid cur → state (tcb T cur) ≠ TSTATE_READY →
  31 ≤ esp t < two32 → signal_block_mask (sigstate (tcb T cur)) = 0 →
  TRAP_HANDLER s !! T_PGFLT = Some exception_cb → trapno t = T_PGFLT →
  if negb (Z.land (err t) PFE_PR =? 0) || (cr2 <? VM_USERLO) then
    ∃ s1 n r, let T1 := lget l_x_thr s1 in
      pending T1 cur = Z.lor (pending T cur) (2 ^ SIGSEGV)
      ∧ lowest (pending T1 cur) = Some n ∧ n ≤ SIGSEGV ∧ serves T1 cur ready n t r
      ∧ trap cr2 t s = kbind (klift_tree l_x_thr s1 r)
          (λ t', _ ← run (with_vm (set_pdir_base cur)); mret t')
  else cr2 < VM_USERHI →
    if page_to_be_had s cur cr2 then
      ∃ s1 p, let v1 := lget l_x_vm s1 in
        vm_ok v1 ∧ page_added (at_base 0 (t_vm T)) v1 cur cr2 7 p
        ∧ mmu (v_mem v1) (pdir_addr cur 0) true true cr2 = Some (p * 4096 + cr2 mod 4096)
        ∧ match lowest (pending T cur) with
          | None => trap cr2 t s = KRet t (lset l_x_vm (at_base cur v1) s1)
          | Some n => ∃ r, serves (lget l_x_thr s1) cur ready n t r
              ∧ trap cr2 t s = kbind (klift_tree l_x_thr s1 r)
                  (λ t', _ ← run (with_vm (set_pdir_base cur)); mret t')
          end
    else trap cr2 t s = KErr (Panic "Page allocation failed").
Proof.
  intros T Hok Hvm Hpid Hst Hsp _ Hh Hno.
  destruct (negb (Z.land (err t) PFE_PR =? 0) || (cr2 <? VM_USERLO)) eqn:Hbad.
  - by apply fault_bad.
  - intros Hhi. by apply fault_demand.
Qed.
End Trap.

(** ** A concrete fault *)

#[local] Existing Instance sample_layout.
#[local] Existing Instance sample_stack.
#[local] Existing Instance sample_ipc_layout.
#[local] Existing Instance sample_buf_layout.

Definition sample_fs_layout : FsLayout.
Proof.
  refine {| log_addr := 1120000; ip_addr ip := 1130000 + 88 * ip; kern_buf := 1200000;
            path_addr _ _ := 1250000 |}.
  - split; [done|]. intros k Hk. unfold kernel_byte, VM_USERLO, KERN_BUF_SIZE in *. cbn. lia.
  - intros v pid _. split; [done|]. intros k Hk. unfold kernel_byte, VM_USERLO. cbn. lia.
Defined.

#[local] Existing Instance sample_fs_layout.

Definition sample_kern_layout : KernLayout :=
  {| kstack_hi pid := 1400000 + 4096 * pid; tss_addr pid := 1396000 + 4096 * pid;
     proc_start_user_addr := 1060864; sys_buf pid := 1700000 + 1024 * pid;
     linebuf_addr := 1300000; arr_addr _ := 1310000; elf_image _ := 1320000 |}.

#[local] Existing Instance sample_kern_layout.

(** The threads of [sample_sig] in a kernel that has its page fault handler. *)
Definition sample_kern (v : vm) : kern :=
  Kern (Fsys (Ino (Lgs (Bio (Ipc (sample_sig v) ∅ (Mq NUM_IDS NUM_IDS) released) zero ∅ released [] 1 ∅ [])
          released 0 0 0 0 0 ∅) released ∅) released ∅ released true)
    sample_con released released ∅ ∅ zero {[T_PGFLT := exception_cb]} true.

(** A store to a page that is not there. *)
Definition sample_fault : tf_t := Tf 0 0 0 0 0 0 0 0 35 35 14 6 1073742336 27 512 1073741924 35.

(** The page is mapped, and then the pending SIGINT is served. *)
Lemma page_fault_correct_witness :
  ∃ v s1 p r, vm_ok v
    ∧ mmu (v_mem (lget l_x_vm s1)) (pdir_addr 1 0) true true 1073750016 = Some (p * 4096)
    ∧ serves (lget l_x_thr s1) 1 [0] 2 sample_fault r
    ∧ trap 0 (Patience 10 10 10 10 (λ _, [])) 1073750016 sample_fault (sample_kern v)
      = kbind (klift_tree l_x_thr s1 r) (λ t', _ ← run (with_vm (set_pdir_base 1)); mret t').
Proof.
  destruct sample_vm as (v & Hok & Hc & _). exists v.
  assert (page_to_be_had (sample_kern v) 1 1073750016 = true) as Hp.
  { unfold page_to_be_had. change (t_vm _) with v. apply Z.leb_le. rewrite Hc.
    change (pages_left sample_frames 1) with 3. unfold pages_needed. destruct (_ =? _); lia. }
  pose proof (page_fault_correct 0 (Patience 10 10 10 10 (λ _, [])) (sample_kern v) 1 [0] sample_fault 1073750016
    (sample_sig_ok v Hc) Hok ltac:(done) ltac:(done) ltac:(by vm_compute) ltac:(done) ltac:(done) ltac:(done) ltac:(by vm_compute)) as H.
  rewrite Hp in H. destruct H as (s1 & p & _ & _ & Hm & r & Hs & E). exists s1, p, r.
  rewrite Z.add_0_r in Hm. split; [exact Hok|]. split; [exact Hm|]. split; [exact Hs|exact E].
Defined.
