(* ===== verification/Holds.v ===== *)
(** * Invariants of kernel code

    [holds I m P]: when [m] is run in a state with [I], either it does not return
    or [I] holds again and its value has [P].  [kholds] is the same for code of
    process [c] that switches threads: [I c x] is the invariant while [c] is the
    current process, the switch to another one establishes the invariant of that
    one, and [c] may rely on its own when it is resumed.  The code itself keeps
    [x], which is another one after a switch.  The rules follow the
    code, so that the invariant of a whole system call is proved from those of
    the operations that touch the state [I] is about.

    Whether code may hang, on a lock, in a wait or in a loop that exceeds the bound
    of its model, is the parameter [lenient]. *)

From S2P Require Import Prelude Resume.

Class Lenient : Type := lenient : Prop.

(** A fault of the C code ends the run, except when the kernel goes on in code of
    a process.  Code that hangs (on a lock that is never released, in a wait that
    never ends, in a loop that exceeds its bound) is another matter. *)
Definition tolerated `{LN : Lenient} (e : fault) : Prop :=
  match e with
  | Hijacked _ => False
  | Deadlock _ | Blocked _ | OutOfFuel => lenient
  | _ => True
  end.

Definition holds `{LN : Lenient} {S A} (I : S → Prop) (m : M S A) (P : A → Prop) : Prop :=
  ∀ s, I s → wpe tolerated m (λ a s', P a ∧ I s') s.

Section Fine.
Context `{LN : Lenient} {S X A : Type} (I : Z → X → S → Prop) (c : Z) (P : A → S → Prop).

Fixpoint kfine (x : X) (t : K S A) : Prop :=
  match t with
  | KRet a s => P a s ∧ I c x s
  | KErr e => tolerated e
  | KSwitch from to s k => from = c ∧ I to x s ∧ ∀ x' s', I c x' s' → kfine x' (k s')
  end.
End Fine.

Definition kholds `{LN : Lenient} {S X A} (I : Z → X → S → Prop) (c : Z) (m : KM S A) (P : A → Prop) : Prop :=
  ∀ x s, I c x s → kfine I c (λ a _, P a) x (m s).

(** The part of the state behind a lens, and the part [J] of the invariant it has. *)
Class InvLens {S T} (l : lens S T) (I : S → Prop) (J : T → Prop) : Prop := {
  il_get s : I s → J (lget l s);
  il_set s t : I s → J t → I (lset l t s)
}.
#[export] Hint Mode InvLens - - ! ! - : typeclass_instances.

#[export] Instance inv_comp {S T U} (l : lens S T) (m : lens T U) I J K :
  InvLens l I J → InvLens m J K →
  InvLens (Lens (λ s, lget m (lget l s)) (λ u s, lset l (lset m u (lget l s)) s)) I K.
Proof.
  intros [G1 S1] [G2 S2]. split; cbn; [by auto|]. intros s u Hs Hu.
  apply S1; [done|]. by apply S2; [apply G1|].
Qed.

Section Holds.
Context `{LN : Lenient} {S : Type} (I : S → Prop).

Lemma holds_ret {A} (a : A) (P : A → Prop) : P a → holds I (mret a) P.
Proof. by intros HP s Hs. Qed.

Lemma holds_bind {A B} (m : M S A) (f : A → M S B) P Q :
  holds I m P → (∀ a, P a → holds I (f a) Q) → holds I (m ≫= f) Q.
Proof.
  intros Hm Hf s Hs. apply wpe_bind. eapply wpe_mono; [by apply Hm|]. intros a s' [Ha Hs'].
  by apply Hf.
Qed.

Lemma holds_mono {A} (m : M S A) (P Q : A → Prop) :
  holds I m P → (∀ a, P a → Q a) → holds I m Q.
Proof. intros Hm HPQ s Hs. eapply wpe_mono; [by apply Hm|]. intros a s' [? ?]. auto. Qed.

Lemma holds_gets {A} (f : S → A) (P : A → Prop) : (∀ s, I s → P (f s)) → holds I (gets f) P.
Proof. intros HP s Hs. split; [by apply HP|done]. Qed.

Lemma holds_modify f : (∀ s, I s → I (f s)) → holds I (modify f) (λ _, True).
Proof. intros Hf s Hs. split; [done|by apply Hf]. Qed.

Lemma holds_fail {A} e (P : A → Prop) : tolerated e → holds I (fail e) P.
Proof. by intros He s Hs. Qed.

Lemma holds_chk arr n i : holds I (chk arr n i) (λ _, 0 ≤ i < n).
Proof.
  intros s Hs. unfold chk, wpe. destruct (Z.leb_spec 0 i), (Z.ltb_spec i n); cbn; done.
Qed.

Lemma holds_kassert c msg : holds I (kassert c msg) (λ _, c = true).
Proof. intros s Hs. unfold kassert, wpe. by destruct c. Qed.

Lemma holds_if {A} (b : bool) (m1 m2 : M S A) P :
  (b = true → holds I m1 P) → (b = false → holds I m2 P) → holds I (if b then m1 else m2) P.
Proof. destruct b; auto. Qed.

Lemma holds_for_n n i body :
  (∀ j, i ≤ j < i + Z.of_nat n → holds I (body j) (λ _, True)) → holds I (for_n n i body) (λ _, True).
Proof.
  revert i. induction n as [|n IH]; intros i Hb; cbn [for_n]; [by apply holds_ret|].
  eapply holds_bind; [apply Hb; lia|]. intros _ _. apply IH. intros j Hj. apply Hb. lia.
Qed.

Lemma holds_for_range lo hi body :
  (∀ j, lo ≤ j < hi → holds I (body j) (λ _, True)) → holds I (for_range lo hi body) (λ _, True).
Proof. intros Hb. apply holds_for_n. intros j Hj. apply Hb. lia. Qed.

Lemma holds_lift {T A} (l : lens S T) J (m : M T A) P :
  InvLens l I J → holds J m P → holds I (lift l m) P.
Proof.
  intros [Hg Hset] Hm s Hs. specialize (Hm _ (Hg s Hs)). unfold wpe, lift in *.
  destruct (m (lget l s)) as [[a t]|e]; [|done]. destruct Hm. split; [done|by apply Hset].
Qed.

Lemma holds_and (J : S → Prop) {A} (m : M S A) P Q :
  holds I m P → holds J m Q → holds (λ s, I s ∧ J s) m (λ a, P a ∧ Q a).
Proof.
  intros H1 H2 s [Hi Hj]. specialize (H1 s Hi). specialize (H2 s Hj). unfold wpe in *.
  destruct (m s) as [[a s']|e]; [|done]. tauto.
Qed.

(** An operation that is known to return. *)
Lemma holds_wp {A} (m : M S A) P : (∀ s, I s → wp m (λ a s', P a ∧ I s') s) → holds I m P.
Proof. intros H s Hs. by apply wpe_wp, H. Qed.

(** An operation whose runs are known. *)
Lemma holds_run {A} (m : M S A) P :
  (∀ s a s', I s → m s = Ok (a, s') → P a ∧ I s') → (∀ s e, I s → m s = Err e → tolerated e) → holds I m P.
Proof. intros H He s Hs. unfold wpe. destruct (m s) as [[a s']|e] eqn:E; [by eapply H|by eapply He]. Qed.

Lemma holds_inv {A} (m : M S A) P s a s' : holds I m P → I s → m s = Ok (a, s') → P a ∧ I s'.
Proof. intros H Hs E. specialize (H s Hs). unfold wpe in H. by rewrite E in H. Qed.

End Holds.

(** The same for invariants of each process. *)
Class FamLens {S T X} (l : lens S T) (I : Z → X → S → Prop) (J : Z → X → T → Prop) : Prop := {
  fl_get c x s : I c x s → J c x (lget l s);
  fl_set c c' x s t : I c x s → J c' x t → I c' x (lset l t s)
}.
#[export] Hint Mode FamLens - - - ! ! - : typeclass_instances.

#[export] Instance inv_fam {S T X} (l : lens S T) I J c (x : X) : FamLens l I J → InvLens l (I c x) (J c x).
Proof. intros [Hg Hs]. split; [by apply Hg|by apply Hs]. Qed.

#[export] Instance fam_comp {S T U X} (l : lens S T) (m : lens T U) (I : Z → X → S → Prop) J K :
  FamLens l I J → FamLens m J K →
  FamLens (Lens (λ s, lget m (lget l s)) (λ u s, lset l (lset m u (lget l s)) s)) I K.
Proof.
  intros [G1 S1] [G2 S2]. split; cbn; [by auto|]. intros c c' x s u Hs Hu.
  eapply S1; [done|]. by eapply S2; [apply G1|].
Qed.

Section Kholds.
Context `{LN : Lenient} {S X : Type} (I : Z → X → S → Prop) (c : Z).

Lemma kfine_mono {A} (P Q : A → S → Prop) x t :
  kfine I c P x t → (∀ a s, P a s → Q a s) → kfine I c Q x t.
Proof.
  intros Ht HPQ. revert x Ht. induction t as [a s|e|from to s k IH]; intros x; cbn; [naive_solver|done|].
  intros (? & ? & Hk). split_and!; [done|done|]. intros x' s' Hs'. by apply IH, Hk.
Qed.

Lemma kfine_bind {A B} (t : K S A) (f : A → KM S B) P Q x :
  kfine I c P x t → (∀ a x s, P a s → I c x s → kfine I c Q x (f a s)) → kfine I c Q x (kbind t f).
Proof.
  intros Ht Hf. revert x Ht. induction t as [a s|e|from to s k IH]; intros x; cbn; [|done|].
  - intros [Ha Hs]. by apply Hf.
  - intros (? & ? & Hk). split_and!; [done|done|]. intros x' s' Hs'. by apply IH, Hk.
Qed.

(** The rest of the code after a part with an invariant. *)
Lemma kfine_after {A B} (m : KM S A) (f : A → KM S B) P Q x s :
  kholds I c m P → I c x s → (∀ a x s, P a → I c x s → kfine I c Q x (f a s)) →
  kfine I c Q x ((m ≫= f) s).
Proof. intros Hm Hs Hf. eapply kfine_bind; [by apply Hm|]. intros a x' s' Ha. by apply Hf. Qed.

Lemma kholds_ret {A} (a : A) (P : A → Prop) : P a → kholds I c (mret a) P.
Proof. by intros HP s Hs. Qed.

Lemma kholds_bind {A B} (m : KM S A) (f : A → KM S B) P Q :
  kholds I c m P → (∀ a, P a → kholds I c (f a) Q) → kholds I c (m ≫= f) Q.
Proof. intros Hm Hf x s Hs. eapply kfine_after; [done|done|]. intros a x' s' Ha. by apply Hf. Qed.

Lemma kholds_mono {A} (m : KM S A) (P Q : A → Prop) :
  kholds I c m P → (∀ a, P a → Q a) → kholds I c m Q.
Proof. intros Hm HPQ x s Hs. eapply kfine_mono; [by apply Hm|]. intros a s'. apply HPQ. Qed.

Lemma kholds_run {A} (m : M S A) P : (∀ x, holds (I c x) m P) → kholds I c (run m) P.
Proof. intros Hm x s Hs. specialize (Hm x s Hs). unfold wpe, run in *. by destruct (m s) as [[a s']|e]. Qed.

Lemma kholds_fail {A} e (P : A → Prop) : tolerated e → kholds I c (kfail e) P.
Proof. by intros He x s Hs. Qed.

Lemma kfine_switch x to s : I to x s → kfine I c (λ _ _, True) x (kswitch c to s).
Proof. intros Hs. by split_and!. Qed.

(** Code that makes another process the current one and hands over to it. *)
Lemma kholds_pick {A B} (m : M S A) (f : A → KM S B) P :
  (∀ x s, I c x s → wpe tolerated m (λ a s', kfine I c (λ b _, P b) x (f a s')) s) → kholds I c (run m ≫= f) P.
Proof.
  intros Hm x s Hs. specialize (Hm x s Hs). unfold wpe, run, mbind, KM_bind in *.
  by destruct (m s) as [[a s']|e].
Qed.

Lemma kholds_if {A} (b : bool) (m1 m2 : KM S A) P :
  (b = true → kholds I c m1 P) → (b = false → kholds I c m2 P) → kholds I c (if b then m1 else m2) P.
Proof. destruct b; auto. Qed.

Lemma kfine_klift {T A} (l : lens S T) J (P : A → Prop) (t : K T A) c' x s :
  FamLens l I J → I c' x s → kfine J c (λ a _, P a) x t → kfine I c (λ a _, P a) x (klift_tree l s t).
Proof.
  intros [Hg Hset]. revert c' x s. induction t as [a t|e|from to t k IH]; intros c' x s Hs; cbn.
  - intros [? ?]. split; [done|by eapply Hset].
  - done.
  - intros (-> & Ht & Hk). split_and!; [done|by eapply Hset|]. intros x' s' Hs'. eapply IH; [done|].
    by apply Hk, Hg.
Qed.

Lemma kholds_klift {T A} (l : lens S T) J (m : KM T A) P :
  FamLens l I J → kholds J c m P → kholds I c (klift l m) P.
Proof. intros Hl Hm x s Hs. eapply kfine_klift; [done|done|]. destruct Hl as [Hg _]. by apply Hm, Hg. Qed.

(** Code of the whole kernel may change [x]. *)
Definition some (c : Z) (_ : unit) (s : S) : Prop := ∃ x, I c x s.

Lemma kholds_some {A} (m : KM S A) P : kholds I c m P → kholds some c m P.
Proof.
  intros Hm [] s [x Hs]. specialize (Hm x s Hs). clear Hs. revert x Hm. generalize (m s) as t.
  induction t as [a s'|e|from to s' k IH]; intros x; cbn; [|done|].
  - intros [? ?]. split; [done|by exists x].
  - intros (? & ? & Hk). split_and!; [done|by exists x|]. intros [] s1 [x1 Hs1]. eapply IH. by apply Hk.
Qed.

Lemma holds_some {A} (m : M S A) P : (∀ x, holds (I c x) m P) → ∀ u, holds (some c u) m P.
Proof.
  intros Hm u s [x Hs]. eapply wpe_mono; [by apply (Hm x)|]. intros a s' [? ?]. split; [done|by exists x].
Qed.
End Kholds.

(** A lens to state the invariant does not look at. *)
Definition quiet `{LN : Lenient} {S A} (m : M S A) : Prop := holds (λ _, True) m (λ _, True).

Lemma holds_aside `{LN : Lenient} {S T A} (I : S → Prop) (l : lens S T) (m : M T A) :
  InvLens l I (λ _, True) → quiet m → holds I (lift l m) (λ _, True).
Proof. intros Hl Hm. by eapply holds_lift. Qed.

Lemma quiet_lift `{LN : Lenient} {S T A} (l : lens S T) (m : M T A) : quiet m → quiet (lift l m).
Proof. by apply holds_aside. Qed.

(** ** Following the code

    The operations proved so far are hints; the value of one that is not is not
    looked at. *)

Create HintDb holds.

Ltac holds_hint := solve [eauto 3 with holds nocore].

(** [holds I m ?P] for the first step of a sequence. *)
Ltac holds_first step :=
  lazymatch goal with
  | |- holds _ (chk _ _ _) _ => apply holds_chk
  | |- holds _ (kassert _ _) _ => apply holds_kassert
  | |- holds _ (gets _) _ => first [holds_hint | apply (holds_gets _ _ (λ _, True)); done]
  | |- kholds _ _ (run _) _ => apply kholds_run; intros ?; holds_first step
  | |- _ => first [holds_hint | fail]
  end.

Ltac holds_step :=
  lazymatch goal with
  | |- ∀ _, _ => intros ?
  | |- holds _ (let _ := _ in _) _ => cbv zeta
  | |- kholds _ _ (let _ := _ in _) _ => cbv zeta
  | |- holds _ (mret _) _ => apply holds_ret
  | |- kholds _ _ (mret _) _ => apply kholds_ret
  | |- holds _ (fail _) _ => apply holds_fail; first [exact Logic.I | assumption]
  | |- kholds _ _ (kfail _) _ => apply kholds_fail; first [exact Logic.I | assumption]
  | |- holds _ (_ ≫= _) _ =>
    first [ eapply holds_bind; [holds_first idtac|]; cbv beta
          | apply (holds_bind _ _ _ (λ _, True)) ]
  | |- kholds _ _ (_ ≫= _) _ =>
    first [ eapply kholds_bind; [holds_first idtac|]; cbv beta
          | apply (kholds_bind _ _ _ _ (λ _, True)) ]
  | |- holds _ (match ?x with _ => _ end) _ =>
    lazymatch type of x with bool => apply holds_if; intros ? | _ => destruct x eqn:? end
  | |- kholds _ _ (match ?x with _ => _ end) _ =>
    lazymatch type of x with bool => apply kholds_if; intros ? | _ => destruct x eqn:? end
  | |- holds _ (for_range _ _ _) _ => apply holds_for_range
  | |- kholds _ _ (run _) _ => apply kholds_run; intros ?
  | |- holds _ (modify _) _ => apply holds_modify; first [by intros | intros ? []; by split]
  | |- holds _ (chk _ _ _) _ => eapply holds_mono; [apply holds_chk|]; done
  | |- holds _ (gets _) _ => first [holds_hint | apply holds_gets; done]
  | |- holds _ _ _ => first [holds_hint | eapply holds_mono; [holds_hint|]; by intros]
  | |- kholds _ _ _ _ => first [holds_hint | eapply kholds_mono; [holds_hint|]; by intros]
  | |- True => exact I
  end.
Ltac holds_auto := repeat holds_step.
