(* ===== verification/Confine.v ===== *)
(** * What kernel code does to memory, whatever it is asked to

    The theorems about copies say what they do on proper arguments.  Here the
    arguments are any that a process can pass: addresses that wrap around, lengths
    that do not fit, pages that cannot be had.  The result is weaker, an invariant:
    the page tables stay well-formed and the images of the programs in the kernel
    are not written. *)

From S2P Require Import Prelude Memory Resume Spinlock PhysMap Pmm Container PageTable Isolation.
From S2P Require Import UserCopy Tcb TQueue Thread Signal Holds.

(** The kernel is linked at one megabyte. *)
Definition KERNEL_LOW : Z := 1048576.

(** The bytes of the program images, which are part of the kernel. *)
Class Images `{L : Layout} := {
  image : Z → Prop;
  tables_high : KERNEL_LOW ≤ PDirPool ∧ KERNEL_LOW ≤ IDPTbl;
  image_ok x : image x → kernel_byte x ∧ KERNEL_LOW ≤ x
}.

Section Confine.
Context `{LN : Lenient} `{IM : Images} (m0 : mem).

(** Page tables are in order, one of the page directories is in use, and the images
    are those of the memory [m0] the kernel was loaded with. *)
Record vsafe (s : vm) : Prop := {
  vs_ok : vm_ok s;
  vs_cr3 : ∃ p, 0 ≤ p < NUM_IDS ∧ cr3 s = pdir_addr p 0;
  vs_image x : image x → read8 (v_mem s) x = read8 m0 x
}.

(** A kernel buffer that is not part of an image. *)
Definition buffer (a len : Z) : Prop :=
  kernel_buf a len ∧ ∀ x, image x → ¬ (a ≤ x < a + len).

Lemma ucopy_safe T W K s s' :
  ucopy T W K s s' → (∀ x, image x → ¬ K x) → vsafe s → vsafe s'.
Proof.
  intros Huc HK [Hok (p & Hp & Hc) Him]. split; [apply Huc| |].
  - exists p. split; [done|]. by rewrite (proj1 (uc_regs _ _ _ _ _ Huc)).
  - intros x Hx. rewrite <- Him by done. apply (uc_kernel _ _ _ _ _ Huc); [by apply image_ok|by apply HK].
Qed.

(** A write outside user pages, tables and images. *)
Lemma outer_write s m' lo hi :
  vsafe s → hi ≤ KERNEL_LOW ∨ VM_USERHI ≤ lo →
  (∀ x, ¬ (lo ≤ x < hi) → read8 m' x = read8 (v_mem s) x) → vsafe (set_mem m' s).
Proof.
  intros [[Hok Hlk] Hc Him] Hr Hout. pose proof tables_high as Ht. unfold KERNEL_LOW in *. split; [|done|].
  - split; [|done]. apply (low_change s m' Hok). intros x Hx. apply Hout.
    pose proof PDirPool_low. pose proof IDPTbl_low. unfold VM_USERLO, VM_USERHI in *. lia.
  - intros x Hx. rewrite <- Him by done. apply Hout.
    pose proof (image_ok x Hx) as [[? _] ?]. unfold KERNEL_LOW, VM_USERLO, VM_USERHI in *. lia.
Qed.

Lemma holds_place a bs : buffer a (Z.of_nat (length bs)) → holds vsafe (place a bs) (λ _, True).
Proof.
  intros [Hb Hi]. apply holds_modify. intros s Hs. eapply ucopy_safe; [|apply Hi|done].
  apply place_ucopy; [apply Hs|done].
Qed.

Lemma holds_alloc_page pid va prm :
  user_pid pid → user_va va → 0 ≤ prm < 4096 → holds vsafe (alloc_page pid va prm) (λ _, True).
Proof.
  intros Hpid Hva Hprm. apply holds_wp. intros s [Hok (p & Hp & Hc) Him].
  apply wp_alloc_page; [done|done|done|done| |].
  - intros s' Hok' Em Ec _ _. split; [done|]. split; [done| |by rewrite Em].
    exists p. split; [done|]. congruence.
  - intros r s' q _ Hok' [[[Ec _] _ _ _ _ _ Hk] _ _]. split; [done|]. split; [done| |].
    + exists p. split; [done|]. congruence.
    + intros x Hx. rewrite <- Him by done. apply Hk; apply image_ok in Hx as [[? [? _]] _]; lia || done.
Qed.

Lemma split_tolerated id q s e : alloc_mem_quota id q s = Err e → tolerated e.
Proof.
  assert (quiet (alloc_mem_quota id q)) as H.
  { unfold alloc_mem_quota. eapply (holds_lift _ _ (λ _, True)); [by split|].
    unfold container_split, con_get, con_upd. holds_auto. }
  intros E. specialize (H s I). unfold wpe in H. by rewrite E in H.
Qed.

Lemma holds_alloc_mem_quota id q : holds vsafe (alloc_mem_quota id q) (λ _, True).
Proof.
  apply holds_run; [|intros s e _; apply split_tolerated]. intros s a s' [Hok Hc Him] E.
  destruct (alloc_mem_quota_ok _ _ _ _ _ E Hok) as (Hok' & Em & Ec).
  split; [done|]. split; [done|by rewrite Ec|by rewrite Em].
Qed.

Lemma holds_set_pdir_base i : holds vsafe (set_pdir_base i) (λ _, True).
Proof.
  eapply holds_bind; [apply holds_chk|]. intros [] Hi. apply holds_modify. intros s [[[] Hlk] _ Him].
  split; [by split| |done]. by exists i.
Qed.

(** ** One page of a copy *)

(** The identity entry of an address in directory 0 or in the kernel's part. *)
Lemma identity_entry s pid va :
  vm_ok s → 0 ≤ pid < NUM_IDS → is_u32 va → pid = 0 ∨ ¬ user_va va →
  get_ptbl_entry_by_va pid va s = Ok (va / 4096 * 4096 + id_perm (pde_index_of va), s).
Proof.
  intros [Hok _] Hpid Hva Hor. pose proof (vo_tables s Hok) as Ht.
  pose proof (pde_index_bound va Hva) as Hi. pose proof (pte_index_bound va) as Hj.
  assert (pid = 0 ∨ kernel_pde (pde_index_of va) = true) as Hk.
  { destruct Hor as [?|Hn]; [by left|right]. unfold kernel_pde, user_va, VM_USERLO, VM_USERHI, pde_index_of in *.
    apply orb_true_iff. rewrite Z.ltb_lt, Z.leb_le. Z.to_euclidean_division_equations. lia. }
  destruct (wp_run_val (get_ptbl_entry_by_va pid va) (va_entry (v_mem s) pid va) (λ s', s' = s) s)
    as (s' & E & ->).
  { by apply wp_get_ptbl_entry_by_va. }
  rewrite E. f_equal. f_equal. unfold va_entry, data_entry.
  rewrite (to_kern _ _ Ht) by done. pose proof IDPTbl_low. unfold idptbl_addr.
  rewrite (proj2 (Z.eqb_neq _ 0)) by lia. rewrite (pte_kernel _ _ _ _ _ Ht) by done. f_equal.
  pose proof (va_split va). pose proof (Z.div_mod va 4096). lia.
Qed.

(** What [user_entry] finds. *)
Definition found (pid va e : Z) (s : vm) : Prop :=
  (user_pid pid ∧ user_va va ∧ e = va_entry (v_mem s) pid va)
  ∨ ((pid = 0 ∨ ¬ user_va va) ∧ frame e = va / 4096 * 4096).

Lemma user_entry_safe pid va s :
  vsafe s → is_u32 va →
  wpe tolerated (user_entry pid va) (λ e s', vsafe s' ∧ found pid va e s') s.
Proof.
  intros Hs Hva. pose proof (vs_ok s Hs) as Hok.
  destruct (decide (0 ≤ pid < NUM_IDS)) as [Hpid|Hpid].
  2:{ unfold user_entry, get_ptbl_entry_by_va, get_pdir_entry. do 3 apply wpe_bind.
      pose proof (holds_chk (λ _ : vm, True) "PDirPool" NUM_IDS pid s I) as Hc. unfold wpe in *.
      destruct (chk _ _ _ s) as [[[] s']|]; [lia|done]. }
  destruct (decide (user_pid pid ∧ user_va va)) as [[Hp Hv]|Hn].
  - apply wpe_wp, wp_user_entry; [done|done|done|]. intros s' Huc.
    split; [|by left]. eapply ucopy_safe; [exact Huc|by intros ? ? []|done].
  - assert (pid = 0 ∨ ¬ user_va va) as Hor.
    { destruct (decide (pid = 0)); [by left|right]. intros Hv. apply Hn. split; [|done]. unfold user_pid. lia. }
    unfold user_entry. apply wpe_bind. unfold wpe. rewrite (identity_entry s pid va) by done.
    assert (0 ≤ va / 4096 < 1048576) as Hd.
    { unfold is_u32, two32 in Hva. Z.to_euclidean_division_equations. lia. }
    assert (0 ≤ id_perm (pde_index_of va) < 4096) by (unfold id_perm; case_match; lia).
    assert ((Z.land (va / 4096 * 4096 + id_perm (pde_index_of va)) PTE_P =? 0) = false) as ->.
    { apply Z.eqb_neq. intros E. assert (Z.testbit (Z.land (va / 4096 * 4096 + id_perm (pde_index_of va)) PTE_P) 0
        = false) as Hb by by rewrite E.
      rewrite Z.land_spec, testbit_entry, andb_true_r in Hb by lia.
      unfold id_perm in Hb. by destruct (kernel_pde _). }
    split; [done|]. right. split; [done|]. by rewrite frame_entry.
Qed.

(** The ranges the calls let through: user addresses, or a range that wraps around. *)
Definition roomy (va len : Z) : Prop :=
  is_u32 va ∧ 0 ≤ len ∧
  (in_user va len ∨ (VM_USERHI ≤ va ∧ va + len ≤ two32 + KERNEL_LOW) ∨ va + len ≤ KERNEL_LOW).

(** One turn writes [n] bytes at the physical address of [va]. *)
Lemma out_turn pid va len e s :
  let pa := u32 (frame e + va mod PAGESIZE) in
  let n := chunk pa len in
  vsafe s → user_pid pid → roomy va len → 0 < len → found pid va e s →
  (∀ m', (∀ x, ¬ (pa ≤ x < pa + n) → read8 m' x = read8 (v_mem s) x) → vsafe (set_mem m' s))
  ∧ 0 ≤ pa ∧ 0 < n ≤ len ∧ (pa + n < two32 ∨ VM_USERHI ≤ pa < two32) ∧ roomy (u32 (va + n)) (u32 (len - n)).
Proof.
  intros pa n Hs Hpid (Hva & Hlen & Hr) Hpos Hf. pose proof (vs_ok s Hs) as Hok.
  pose proof (Z.mod_pos_bound va 4096 ltac:(lia)) as Hoff. pose proof (Z.div_mod va 4096 ltac:(lia)) as Hdm.
  assert (len < two32) as Hl32 by (unfold in_user, KERNEL_LOW, is_u32, two32, VM_USERLO, VM_USERHI in *; lia).
  assert (∀ n, 0 < n ≤ len → n ≤ 4096 - va mod 4096 → (n = len ∨ n = 4096 - va mod 4096) →
    roomy (u32 (va + n)) (u32 (len - n))) as Hnext.
  { intros k Hk Hpage Hor. rewrite (u32_small (len - k)) by (unfold is_u32; lia). split; [apply u32_range|].
    split; [lia|]. destruct (decide (va + k < two32)).
    - rewrite u32_small by (unfold is_u32 in *; lia).
      unfold in_user, KERNEL_LOW, is_u32, two32, VM_USERLO, VM_USERHI in *. lia.
    - assert (va + k = two32) as E by (unfold is_u32, two32 in *; Z.to_euclidean_division_equations; lia).
      rewrite E. change (u32 two32) with 0. right. right.
      unfold in_user, KERNEL_LOW, is_u32, two32, VM_USERLO, VM_USERHI in *. lia. }
  destruct Hf as [(_ & Hv & ->)|[Hor Hfe]].
  - destruct (turn_pa s pid va Hok Hpid Hv) as (Epa & Hpa0 & Hpam & Hpahi). fold pa in Epa.
    rewrite <- Epa in Hpa0, Hpam, Hpahi. destruct (chunk_spec pa va len Hpam Hpos) as (Hn1 & Hn2 & Hn3). fold n in Hn1, Hn2, Hn3.
    split_and!; [|done|lia|lia| |by apply Hnext; lia].
    + intros m' Hm'. rewrite Epa in Hm'.
      eapply ucopy_safe; [apply (user_write s m' pid va n); [done|done|done|lia|done]|by intros ? ? []|done].
    + left. unfold VM_USERHI, two32 in *. lia.
  - assert (¬ user_va va) as Hnv.
    { destruct Hor as [->|?]; [unfold user_pid in Hpid; lia|done]. }
    assert (pa = va) as Epa.
    { unfold pa, PAGESIZE. rewrite Hfe. replace (va / 4096 * 4096 + va mod 4096) with va by lia. by apply u32_small. }
    destruct (chunk_spec pa va len ltac:(by rewrite Epa) Hpos) as (Hn1 & Hn2 & Hn3). fold n in Hn1, Hn2, Hn3.
    assert (va + n ≤ KERNEL_LOW ∨ VM_USERHI ≤ va) as Hout.
    { unfold in_user, user_va in *. destruct Hr as [?|[?|?]]; [|by right; lia|left; lia]. destruct Hnv. lia. }
    unfold is_u32 in Hva. rewrite Epa. split_and!; [|lia|lia|lia| |by apply Hnext; lia].
    + intros m' Hm'. by eapply outer_write.
    + unfold KERNEL_LOW, two32 in *. lia.
Qed.

(** ** The copies *)

(** A turn of a copy ends at the end of a page or of the copy, so the bound of the
    loop is enough. *)
Lemma enough_turn fuel e va len :
  let n := chunk (u32 (frame e + va mod PAGESIZE)) len in
  enough (S fuel) va len → 0 < len < two32 → enough fuel (u32 (va + n)) (u32 (len - n)).
Proof.
  intros n He Hl. assert (u32 (frame e + va mod PAGESIZE) mod 4096 = va mod 4096) as Epa.
  { unfold u32, two32, PAGESIZE, frame. rewrite Z.mod_mod_divide by by exists 1048576.
    replace (Z.land e 4294963200) with (Z.shiftl (Z.land (Z.shiftr e 12) 1048575) 12).
    - rewrite Z.shiftl_mul_pow2 by lia. change (2 ^ 12) with 4096. rewrite Z.add_comm, Z.mod_add by lia.
      by rewrite Z.mod_mod by lia.
    - apply Z.bits_inj'. intros i Hi. rewrite Z.shiftl_spec, Z.land_spec by lia. change 4294963200 with (Z.shiftl 1048575 12).
      rewrite Z.land_spec, Z.shiftl_spec by lia. destruct (decide (12 ≤ i)).
      + rewrite Z.shiftr_spec by lia. by replace (i - 12 + 12) with i by lia.
      + rewrite !(Z.testbit_neg_r 1048575) by lia. by rewrite !andb_false_r. }
  destruct (chunk_spec _ va len Epa ltac:(lia)) as (Hn & Hnl & Hor). fold n in Hn, Hnl, Hor.
  assert (enough fuel (va + n) (len - n)) as [H|H] by (eapply enough_step; [done|lia|tauto|lia]).
  - left. by rewrite H.
  - right. rewrite (u32_small (len - n)) by (unfold is_u32; lia). unfold u32, two32.
    by rewrite Z.mod_mod_divide by by exists 1048576.
Qed.

Lemma not_enough va len : 0 ≤ len → len ≠ 0 → ¬ enough 0 va len.
Proof. intros ? ? [?|H]; pose proof (Z.mod_pos_bound va 4096 ltac:(lia)); lia. Qed.

Lemma roomy_check va len :
  is_u32 va → 0 ≤ len ≤ KERNEL_LOW →
  (VM_USERLO <=? va) && (u32 (va + len) <=? VM_USERHI) = true → roomy va len.
Proof.
  intros Hva Hlen [Hlo%Z.leb_le Hhi%Z.leb_le]%andb_true_iff. split; [done|]. split; [lia|].
  unfold in_user, is_u32, KERNEL_LOW, VM_USERLO, VM_USERHI in *.
  destruct (decide (va + len < two32)).
  - rewrite u32_small in Hhi by (unfold is_u32; lia). left. lia.
  - right. left. unfold two32 in *. lia.
Qed.

Lemma holds_copyout_loop fuel kva pid va len copied :
  user_pid pid → roomy va len → 0 ≤ kva → kva + len ≤ VM_USERHI → enough fuel va len →
  holds vsafe (copyout_loop fuel kva pid va len copied) (λ _, True).
Proof.
  intros Hpid. revert kva va len copied.
  induction fuel as [|fuel IH]; intros kva va len copied Hr Hk Hkl He; cbn [copyout_loop];
    apply holds_if; intros Hz; try (by apply holds_ret); pose proof Hr as (Hva & Hlen & _); apply Z.eqb_neq in Hz;
    [by apply not_enough in He|].
  intros s Hs. apply wpe_bind.
  eapply wpe_mono; [by apply user_entry_safe|]. intros e s1 [Hs1 Hf].
  destruct (out_turn pid va len e s1 Hs1 Hpid Hr ltac:(lia) Hf) as (Hw & Hpa & Hn & Hend & Hr'). cbv zeta.
  set (pa := u32 (frame e + va mod PAGESIZE)) in *. set (n := chunk pa len) in *. apply wpe_bind, wpe_wp, wp_modify.
  assert (u32 (kva + n) = kva + n) as Ek.
  { apply u32_small. unfold is_u32, VM_USERHI, two32 in *. lia. }
  apply IH; [done|lia| |apply enough_turn; [done|unfold VM_USERHI, two32 in *; lia]|apply Hw].
  - rewrite Ek, (u32_small (len - n)); [lia|]. unfold is_u32, VM_USERHI, two32 in *. lia.
  - intros x Hx. apply memmove_frame; [lia|lia| |done]. lia.
Qed.

(** Whatever the address: the buffer of the kernel is only read. *)
Lemma holds_pt_copyout kva pid va len :
  user_pid pid → is_u32 va → 0 ≤ len ≤ KERNEL_LOW → 0 ≤ kva → kva + len ≤ VM_USERHI →
  holds vsafe (pt_copyout kva pid va len) (λ _, True).
Proof.
  intros Hpid Hva Hlen Hk Hkl. unfold pt_copyout. apply holds_if; intros Hc; [by apply holds_ret|].
  apply holds_if; intros _; [by apply holds_ret|]. apply negb_false_iff in Hc.
  apply holds_copyout_loop; [done|by apply roomy_check|done|done|apply copy_fuel_enough; lia].
Qed.

Lemma holds_memset_loop fuel pid va c len k :
  user_pid pid → roomy va len → enough fuel va len → holds vsafe (memset_loop fuel pid va c len k) (λ _, True).
Proof.
  intros Hpid. revert va len k.
  induction fuel as [|fuel IH]; intros va len k Hr He; cbn [memset_loop];
    apply holds_if; intros Hz; try (by apply holds_ret); pose proof Hr as (Hva & Hlen & Hl); apply Z.eqb_neq in Hz;
    [by apply not_enough in He|].
  intros s Hs. apply wpe_bind.
  eapply wpe_mono; [by apply user_entry_safe|]. intros e s1 [Hs1 Hf].
  destruct (out_turn pid va len e s1 Hs1 Hpid Hr ltac:(lia) Hf) as (Hw & Hpa & Hn & Hend & Hr'). cbv zeta.
  set (pa := u32 (frame e + va mod PAGESIZE)) in *. set (n := chunk pa len) in *. apply wpe_bind, wpe_wp, wp_modify.
  apply IH; [done| |]; [apply enough_turn; [done|]; unfold roomy in Hr;
    unfold in_user, KERNEL_LOW, is_u32, two32, VM_USERLO, VM_USERHI in *; lia|].
  apply Hw. intros x Hx. rewrite memset_spec by lia. by rewrite decide_False.
Qed.

Lemma holds_pt_memset pid va c len :
  user_pid pid → in_user va len → holds vsafe (pt_memset pid va c len) (λ _, True).
Proof.
  intros Hpid Hin. unfold pt_memset. apply holds_memset_loop; [done| |apply copy_fuel_enough, Hin]. split; [|split; [apply Hin|by left]].
  unfold in_user, is_u32, VM_USERLO, VM_USERHI, two32 in *. lia.
Qed.

(** The part of a buffer behind its first [n] bytes. *)
Lemma buffer_drop a len n : 0 ≤ n ≤ len → n < len ∨ n = len → buffer a len →
  (∀ x, a ≤ x < a + n → kernel_byte x) ∧ (0 < n → a + n < two32)
  ∧ (n < len → buffer (u32 (a + n)) (len - n)).
Proof.
  intros Hn _ [[Ha Hb] Hi].
  assert (∀ x, a ≤ x < a + len → kernel_byte x) as Hall.
  { intros x Hx. replace x with (a + (x - a)) by lia. apply Hb. lia. }
  split_and!.
  - intros x Hx. apply Hall. lia.
  - intros Hpos. destruct (Hall (a + n - 1)) as [? _]; [lia|]. unfold VM_USERLO, two32 in *. lia.
  - intros Hlt. destruct (Hall (a + n)) as [? _]; [lia|]. unfold VM_USERLO in *.
    rewrite u32_small by (unfold is_u32, two32; lia). split; [split; [unfold VM_USERLO; lia|]|].
    + intros k Hk. apply Hall. lia.
    + intros x Hx. specialize (Hi x Hx). lia.
Qed.

Lemma holds_copyin_loop fuel pid va kva len copied :
  is_u32 va → 0 ≤ len → len = 0 ∨ buffer kva len → enough fuel va len →
  holds vsafe (copyin_loop fuel pid va kva len copied) (λ _, True).
Proof.
  revert va kva len copied.
  induction fuel as [|fuel IH]; intros va kva len copied Hva Hlen Hb He; cbn [copyin_loop];
    apply holds_if; intros Hz; try (by apply holds_ret); apply Z.eqb_neq in Hz; [by apply not_enough in He|].
  intros s Hs. apply wpe_bind. destruct Hb as [?|Hb]; [lia|].
  eapply wpe_mono; [by apply user_entry_safe|]. intros e s1 [Hs1 _]. cbv zeta.
  set (pa := u32 (frame e + va mod PAGESIZE)). destruct (chunk_spec pa pa len eq_refl ltac:(lia)) as (Hn1 & Hn2 & _).
  set (n := chunk pa len) in *. apply wpe_bind, wpe_wp, wp_modify.
  destruct (buffer_drop kva len n ltac:(lia) ltac:(lia) Hb) as (Hk & Hend & Hrest).
  assert (len < two32) as Hl.
  { destruct Hb as [[_ Hb] _]. destruct (Hb (len - 1)) as [? _]; [lia|]. destruct (Hb 0) as [? _]; [lia|].
    unfold VM_USERLO, two32 in *. lia. }
  pose proof (enough_turn fuel e va len He ltac:(lia)) as He'. cbv zeta in He'. fold pa n in He'.
  rewrite (u32_small (len - n)) in He' |- * by (unfold is_u32; lia).
  apply IH; [apply u32_range|lia|destruct (decide (n < len)); [right; by apply Hrest|left; lia]|done|].
  eapply ucopy_safe; [apply (kernel_write s1 _ kva (kva + n)); [apply Hs1|done|]| |done].
  - intros x Hx. apply memmove_frame; [|lia| |done].
    + destruct Hb as [[? _] _]. lia.
    + left. apply Hend. lia.
  - intros x Hx Hin. destruct Hb as [_ Hi]. apply (Hi x Hx). unfold kernel_range in Hin. lia.
Qed.

(** Whatever the address and the process: only the buffer is written. *)
Lemma holds_pt_copyin pid va kva len :
  is_u32 va → 0 ≤ len → buffer kva len → holds vsafe (pt_copyin pid va kva len) (λ _, True).
Proof.
  intros Hva Hlen Hb. unfold pt_copyin. apply holds_if; intros _; [by apply holds_ret|].
  apply holds_if; intros _; [by apply holds_ret|]. apply holds_copyin_loop; [done|done|by right|by apply copy_fuel_enough].
Qed.

(** ** The tree of containers

    The numbers of children are small, so a new process never gets the id 0 of the
    kernel. *)

Definition few_children (s : vm) : Prop :=
  ∀ id, 0 ≤ nchildren (aget (CONTAINER (v_cont s)) id) ≤ NUM_IDS.

Definition vkept (s : vm) : Prop := vsafe s ∧ few_children s.

Lemma same_tree_few s s' : same_tree s s' → few_children s → few_children s'.
Proof.
  intros Ht Hf id. specialize (Hf id). specialize (Ht id). apply (f_equal nchildren) in Ht. cbn in Ht.
  by rewrite Ht.
Qed.

Lemma vkept_of {A} (m : M vm A) : keeps same_tree m → holds vsafe m (λ _, True) → holds vkept m (λ _, True).
Proof.
  intros Hk Hm s [Hs Hf]. specialize (Hm s Hs). unfold wpe in *. destruct (m s) as [[a s']|e] eqn:E; [|done].
  destruct Hm. split; [done|]. split; [done|]. eapply same_tree_few; [by eapply Hk|done].
Qed.

Lemma kept_place a bs : buffer a (Z.of_nat (length bs)) → holds vkept (place a bs) (λ _, True).
Proof. intros Hb. apply vkept_of; [|by apply holds_place]. apply keeps_modify. by intros s id. Qed.

Lemma kept_alloc_page pid va prm :
  user_pid pid → user_va va → 0 ≤ prm < 4096 → holds vkept (alloc_page pid va prm) (λ _, True).
Proof. intros. apply vkept_of; [apply keeps_alloc_page|by apply holds_alloc_page]. Qed.

Lemma kept_set_pdir_base i : holds vkept (set_pdir_base i) (λ _, True).
Proof.
  apply vkept_of; [|by apply holds_set_pdir_base]. unfold set_pdir_base. keeps_auto.
  apply keeps_modify. by intros s id.
Qed.

Lemma kept_pt_copyout kva pid va len :
  user_pid pid → is_u32 va → 0 ≤ len ≤ KERNEL_LOW → 0 ≤ kva → kva + len ≤ VM_USERHI →
  holds vkept (pt_copyout kva pid va len) (λ _, True).
Proof. intros. apply vkept_of; [apply keeps_pt_copyout|by apply holds_pt_copyout]. Qed.

Lemma kept_pt_memset pid va c len :
  user_pid pid → in_user va len → holds vkept (pt_memset pid va c len) (λ _, True).
Proof. intros. apply vkept_of; [apply keeps_pt_memset|by apply holds_pt_memset]. Qed.

Lemma kept_pt_copyin pid va kva len :
  is_u32 va → 0 ≤ len → buffer kva len → holds vkept (pt_copyin pid va kva len) (λ _, True).
Proof. intros. apply vkept_of; [apply keeps_pt_copyin|by apply holds_pt_copyin]. Qed.

Lemma kept_alloc_mem_quota id q : holds vkept (alloc_mem_quota id q) (λ child, 0 < child).
Proof.
  apply (holds_mono _ _ (λ a, True ∧ 0 < a)); [|by intros a []].
  apply holds_and; [apply holds_alloc_mem_quota|].
  unfold alloc_mem_quota.
  eapply (holds_lift _ _ (λ c, ∀ id, 0 ≤ nchildren (aget (CONTAINER c) id) ≤ NUM_IDS)).
  { split; [by intros s Hs|]. by intros s c _ Hc. }
  unfold container_split. eapply holds_bind.
  { unfold con_get. eapply holds_bind; [apply holds_chk|]. intros [] Hid.
    apply (holds_gets _ _ (λ c, 0 ≤ nchildren c ≤ NUM_IDS ∧ 0 ≤ id < NUM_IDS)). intros s Hs. by split. }
  intros c [Hc Hid]. cbv zeta. unfold NUM_IDS, MAX_CHILDREN in *.
  rewrite (u32_small (nchildren c)) by (unfold is_u32, two32; lia).
  rewrite u32_small by (unfold is_u32, two32; lia).
  assert (∀ i f, (∀ k, 0 ≤ nchildren k ≤ 64 → 0 ≤ nchildren (f k) ≤ 64) →
    holds (λ s, ∀ j, 0 ≤ nchildren (aget (CONTAINER s) j) ≤ 64) (con_upd i f) (λ _, 0 ≤ i < 64)) as Hupd.
  { intros i f Hf s Hs. unfold con_upd. apply wpe_bind.
    eapply wpe_mono; [apply (holds_chk (λ s, ∀ j, 0 ≤ nchildren (aget (CONTAINER s) j) ≤ 64)), Hs|].
    intros [] s' [Hi Hs']. split; [done|]. intros j. cbn. rewrite aget_insert. case_decide; auto. }
  eapply holds_bind; [apply Hupd; cbn; lia|]. intros [] Hch.
  eapply holds_bind; [apply Hupd; by intros k Hk|]. intros [] _.
  eapply holds_bind; [apply Hupd; cbn; intros; rewrite s32_small; lia|]. intros [] _.
  apply holds_ret. lia.
Qed.
End Confine.
