(* ===== verification/ConfineThr.v ===== *)
(** * Threads, signals and messages keep page tables and links in order

    The invariant of file Confine together with what the scheduler needs to hand the
    processor to processes only: every link of a queue names a process or is null,
    and so does the variable of the current process. *)

From S2P Require Import Prelude Memory Resume Spinlock PhysMap Pmm Container PageTable Isolation.
From S2P Require Import UserCopy Tcb TQueue Thread Signal Ipc Holds Confine.

(** The processes that were spawned, by the saved contexts of the threads. *)
Definition spawned (K : gmap Z kctx) (pid : Z) : Prop := user_pid pid ∧ k_eip (aget K pid) ≠ 0.

(** One of them or null. *)
Definition link (K : gmap Z kctx) (v : Z) : Prop := v = NUM_IDS ∨ spawned K v.

(** The links of the control block of [pid], and the words the delivery of signals uses. *)
Record tcb_good (K : gmap Z kctx) (pid : Z) (t : TCB) : Prop := {
  tg_prev : link K (prev t);
  tg_next : link K (next t);
  tg_sleep : state t = TSTATE_SLEEP → spawned K pid;
  tg_handler n : is_u32 (sa_handler (aget (sigactions (sigstate t)) n));
  tg_esp : is_u32 (saved_esp_addr (sigstate t));
  tg_eip : is_u32 (saved_eip_addr (sigstate t))
}.

(** Acquiring a lock hangs if it is taken. *)
Lemma quiet_acquire `{LN : Lenient} name : lenient → quiet (spinlock_acquire name).
Proof. intros HL. unfold quiet, spinlock_acquire, spinlock_acquire_A, xchg_lock. holds_auto. Qed.
Lemma quiet_release `{LN : Lenient} : quiet spinlock_release.
Proof. unfold quiet, spinlock_release, spinlock_release_A, xchg_lock. holds_auto. Qed.
Lemma quiet_init `{LN : Lenient} : quiet spinlock_init.
Proof. unfold quiet, spinlock_init. holds_auto. Qed.
#[export] Hint Resolve quiet_acquire quiet_release quiet_init : holds.

#[export] Hint Extern 2 (_ ≠ TSTATE_SLEEP) => by vm_compute : holds.

Section Threads.
Context `{LN : Lenient} `{F : Frames} {IM : Images (L:=L)} {Λ : spinlock → Prop}.
Context (m0 : mem) (K : gmap Z kctx) (U : Z → Prop).
Local Abbreviation link := (link K).

(** [U] are the values the current process may have, and [Λ] is what is known of
    the lock of the scheduler. *)
Record tsafe_lk (s : thr) : Prop := {
  ts_vm : vkept m0 (t_vm s);
  ts_kctx : kctx_pool s = K;
  ts_cur : U (aget (CURID s) this_cpu);
  ts_tcb x : 0 ≤ x < NUM_IDS → tcb_good K x (aget (TCBPool s) x);
  ts_queues c : 0 ≤ c < NUM_IDS + 1 →
    link (head (aget (TQueuePool s) (this_cpu, c))) ∧ link (tail (aget (TQueuePool s) (this_cpu, c)));
  ts_lk : Λ (sched_lk s)
}.
Local Abbreviation tsafe := tsafe_lk.

#[export] Instance inv_t_vm : InvLens l_t_vm tsafe (vkept m0).
Proof. split; [by intros s []|]. intros s v [] Hv. by split. Qed.

(** ** Control blocks and queues *)

Lemma holds_get_curid : holds tsafe get_curid U.
Proof. apply holds_gets. by intros s []. Qed.

Lemma holds_set_curid c : U c → holds tsafe (set_curid c) (λ _, True).
Proof. intros Hc. apply holds_modify. intros s []. split; try done. cbn. by rewrite aget_eq. Qed.

Lemma holds_tcb_read {A} pid (f : TCB → A) : holds tsafe (tcb_read pid f) (λ _, True).
Proof. unfold tcb_read. holds_auto. Qed.

Lemma holds_tcb_get {A} pid (f : TCB → A) (P : A → Prop) :
  (∀ t, tcb_good K pid t → P (f t)) → holds tsafe (tcb_read pid f) P.
Proof.
  intros Hf. eapply holds_bind; [apply holds_chk|]. intros [] Hp. apply holds_gets. intros s Hs.
  by apply Hf, Hs.
Qed.

Lemma holds_get_prev pid : holds tsafe (tcb_get_prev pid) link.
Proof. by apply holds_tcb_get; intros t []. Qed.

Lemma holds_get_next pid : holds tsafe (tcb_get_next pid) link.
Proof. by apply holds_tcb_get; intros t []. Qed.

Lemma holds_tcb_upd pid f :
  (∀ t, tcb_good K pid t → tcb_good K pid (f t)) → holds tsafe (tcb_upd pid f) (λ _, 0 ≤ pid < NUM_IDS).
Proof.
  intros Hf s Hs. unfold tcb_upd. apply wpe_bind. eapply wpe_mono; [by apply holds_chk|].
  intros [] s' [Hp [Hv Hk Hc Hl Hq]]. split; [done|]. split; [done|done|done| |done|done].
  intros x Hx. cbn. rewrite aget_insert. case_decide; subst; [by apply Hf, Hl|by apply Hl].
Qed.

Ltac tcb_upd_auto := apply holds_tcb_upd; intros ? []; by split.

Lemma holds_set_prev pid v : link v → holds tsafe (tcb_set_prev pid v) (λ _, 0 ≤ pid < NUM_IDS).
Proof. intros Hv. tcb_upd_auto. Qed.

Lemma holds_set_next pid v : link v → holds tsafe (tcb_set_next pid v) (λ _, 0 ≤ pid < NUM_IDS).
Proof. intros Hv. tcb_upd_auto. Qed.

Lemma holds_tq_read chid f :
  (∀ q, link (head q) ∧ link (tail q) → link (f q)) → holds tsafe (tq_read chid f) link.
Proof.
  intros Hf. eapply holds_bind; [apply holds_chk|]. intros [] Hp. apply holds_gets. intros s Hs.
  by apply Hf, Hs.
Qed.

Lemma holds_get_head chid : holds tsafe (tqueue_get_head chid) link.
Proof. by apply holds_tq_read; intros q []. Qed.

Lemma holds_get_tail chid : holds tsafe (tqueue_get_tail chid) link.
Proof. by apply holds_tq_read; intros q []. Qed.

Lemma holds_tq_upd chid f :
  (∀ q, link (head q) ∧ link (tail q) → link (head (f q)) ∧ link (tail (f q))) →
  holds tsafe (tq_upd this_cpu chid f) (λ _, True).
Proof.
  intros Hf. unfold tq_upd. holds_auto. apply holds_modify. intros s [Hv Hk Hc Hl Hq Hlk]. split; try done.
  intros c Hc'. cbn. rewrite aget_insert. case_decide as E; [injection E as <-; by apply Hf, Hq|by apply Hq].
Qed.

Lemma holds_set_head chid v : link v → holds tsafe (tqueue_set_head chid v) (λ _, True).
Proof. intros Hv. apply holds_tq_upd; by intros q []. Qed.

Lemma holds_set_tail chid v : link v → holds tsafe (tqueue_set_tail chid v) (λ _, True).
Proof. intros Hv. apply holds_tq_upd; by intros q []. Qed.

Lemma link_null : link NUM_IDS.
Proof. by left. Qed.

Lemma link_pid pid : spawned K pid → link pid.
Proof. by right. Qed.

Lemma pid_link pid : link pid → 0 ≤ pid < NUM_IDS → spawned K pid.
Proof. intros [->|H] ?; [unfold NUM_IDS in *; lia|done]. Qed.

Hint Resolve holds_get_curid holds_set_curid holds_tcb_read holds_get_prev holds_get_next holds_set_prev
  holds_set_next holds_get_head holds_get_tail holds_set_head holds_set_tail link_null link_pid pid_link : holds.

Lemma holds_enqueue chid pid : spawned K pid → holds tsafe (tqueue_enqueue chid pid) (λ _, True).
Proof. intros Hp. unfold tqueue_enqueue. holds_auto. Qed.

Lemma holds_dequeue chid : holds tsafe (tqueue_dequeue chid) link.
Proof. unfold tqueue_dequeue. holds_auto; auto with holds nocore. Qed.

Lemma holds_remove chid pid : holds tsafe (tqueue_remove chid pid) (λ _, True).
Proof. unfold tqueue_remove. holds_auto. Qed.

Lemma holds_asleep pid st : spawned K pid → holds tsafe (tcb_set_state pid st) (λ _, 0 ≤ pid < NUM_IDS).
Proof. intros Hp. tcb_upd_auto. Qed.

Lemma holds_awake pid st : st ≠ TSTATE_SLEEP → holds tsafe (tcb_set_state pid st) (λ _, 0 ≤ pid < NUM_IDS).
Proof. intros Hst. tcb_upd_auto. Qed.

Lemma holds_set_chan pid c : holds tsafe (tcb_set_chan pid c) (λ _, 0 ≤ pid < NUM_IDS).
Proof. tcb_upd_auto. Qed.

Hint Resolve holds_enqueue holds_dequeue holds_remove holds_asleep holds_awake holds_set_chan : holds.

(** ** Signals and files *)

Lemma holds_sig_upd pid f :
  (∀ g n, sa_handler (aget (sigactions (f g)) n) = sa_handler (aget (sigactions g) n)) →
  (∀ g, saved_esp_addr (f g) = saved_esp_addr g ∧ saved_eip_addr (f g) = saved_eip_addr g) →
  holds tsafe (sig_upd pid f) (λ _, 0 ≤ pid < NUM_IDS).
Proof.
  intros Ha Hs. apply holds_tcb_upd. intros t []. destruct (Hs (sigstate t)) as [E1 E2].
  split; cbn; rewrite ?E1, ?E2; try done. intros n. by rewrite Ha.
Qed.

Lemma holds_set_pending pid v : holds tsafe (tcb_set_pending_signals pid v) (λ _, True).
Proof. eapply holds_mono; [by apply holds_sig_upd|done]. Qed.

Lemma holds_add_pending pid n : holds tsafe (tcb_add_pending_signal pid n) (λ _, True).
Proof. unfold tcb_add_pending_signal. holds_auto. eapply holds_mono; [by apply holds_sig_upd|done]. Qed.

Lemma holds_clear_pending pid n : holds tsafe (tcb_clear_pending_signal pid n) (λ _, True).
Proof. unfold tcb_clear_pending_signal. holds_auto. eapply holds_mono; [by apply holds_sig_upd|done]. Qed.

Lemma holds_sig_context pid esp eip flag :
  is_u32 esp → is_u32 eip → holds tsafe (sig_upd pid (set_context esp eip flag)) (λ _, True).
Proof.
  intros H1 H2. eapply holds_mono; [|by intros]. apply holds_tcb_upd. intros t []. by split.
Qed.

Lemma holds_set_context pid esp eip :
  is_u32 esp → is_u32 eip → holds tsafe (tcb_set_signal_context pid esp eip) (λ _, True).
Proof. apply holds_sig_context. Qed.

Lemma holds_clear_context pid : holds tsafe (tcb_clear_signal_context pid) (λ _, True).
Proof. by apply holds_sig_context. Qed.

Lemma holds_get_context pid : holds tsafe (tcb_get_signal_context pid) (λ a, is_u32 a.1 ∧ is_u32 a.2).
Proof. by apply holds_tcb_get; intros t []. Qed.

Lemma holds_get_sigaction pid n :
  holds tsafe (tcb_get_sigaction pid n) (λ a, ∀ act, a = Some act → is_u32 (sa_handler act)).
Proof.
  unfold tcb_get_sigaction. apply holds_if; intros _; [by apply holds_ret|].
  apply holds_tcb_get. intros t [] act [= <-]. done.
Qed.

Lemma holds_set_sigaction pid n act :
  is_u32 (sa_handler act) → holds tsafe (tcb_set_sigaction pid n (Some act)) (λ _, True).
Proof.
  intros Ha. unfold tcb_set_sigaction. holds_auto. eapply holds_mono; [|by intros].
  apply holds_tcb_upd. intros t []. split; try done. intros k. cbn. rewrite aget_insert. by case_decide.
Qed.

Lemma holds_set_openfiles pid fd f : holds tsafe (tcb_set_openfiles pid fd f) (λ _, True).
Proof. unfold tcb_set_openfiles. holds_auto. eapply holds_mono; [tcb_upd_auto|done]. Qed.

Lemma holds_set_cwd pid d : holds tsafe (tcb_set_cwd pid d) (λ _, True).
Proof. eapply holds_mono; [tcb_upd_auto|done]. Qed.

Lemma holds_get_openfile pid fd : holds tsafe (tcb_get_openfile pid fd) (λ _, True).
Proof. unfold tcb_get_openfile. holds_auto. Qed.

(** One step of code in which the lock changes. *)
Lemma wpe_step {A B} (m : M thr A) (f : A → M thr B) P Q s :
  holds tsafe m P → tsafe s → (∀ a s', P a → tsafe s' → wpe tolerated (f a) Q s') →
  wpe tolerated (m ≫= f) Q s.
Proof. intros Hm Hs Hf. apply wpe_bind. eapply wpe_mono; [by apply Hm|]. intros a s' []. auto. Qed.

End Threads.

(** The lock of the scheduler is free, or it is not looked at. *)
Abbreviation tsafe := (tsafe_lk (Λ:=unlocked)).
Abbreviation tsafe_any := (tsafe_lk (Λ:=λ _, True)).

Section Lock.
Context `{LN : Lenient} `{F : Frames} {IM : Images (L:=L)} (m0 : mem) (K : gmap Z kctx) (U : Z → Prop).

Lemma lock_acquire_Ok s :
  tsafe m0 K U s → sched_lk_acquire s = Ok (tt, lset l_sched_lk locked s)
  ∧ tsafe_any m0 K U (lset l_sched_lk locked s).
Proof.
  intros [Hv Hk Hc Ht Hq Hl]. split; [|by split]. unfold sched_lk_acquire. apply lift_Ok. cbn [lget l_sched_lk].
  destruct (sched_lk s) as [h l]. unfold unlocked in Hl. cbn in Hl. by subst l.
Qed.

Lemma wpe_acquire {B} (f : unit → M thr B) Q s :
  tsafe m0 K U s → (∀ s', tsafe_any m0 K U s' → wpe tolerated (f tt) Q s') →
  wpe tolerated (sched_lk_acquire ≫= f) Q s.
Proof.
  intros [E Hs]%lock_acquire_Ok Hf. apply wpe_bind. unfold wpe at 1. rewrite E. by apply Hf.
Qed.

Lemma release_unlocks Λ s : tsafe_lk (Λ:=Λ) m0 K U s → wpe tolerated sched_lk_release (λ _, tsafe m0 K U) s.
Proof. intros []. by split. Qed.

Lemma wpe_release {Λ B} (f : unit → M thr B) Q s :
  tsafe_lk (Λ:=Λ) m0 K U s → (∀ s', tsafe m0 K U s' → wpe tolerated (f tt) Q s') →
  wpe tolerated (sched_lk_release ≫= f) Q s.
Proof.
  intros Hs Hf. apply wpe_bind. eapply wpe_mono; [by eapply release_unlocks|]. by intros [].
Qed.

(** Code under the lock. *)
Lemma holds_locked {A} (m : M thr A) P :
  holds (tsafe_any m0 K U) m P → holds (tsafe m0 K U) (_ ← sched_lk_acquire; _ ← m; sched_lk_release) (λ _, True).
Proof.
  intros Hm s Hs. apply wpe_acquire; [done|]. intros s1 Hs1. eapply wpe_step; [done|done|]. intros _ s2 _ Hs2.
  eapply wpe_mono; [by eapply release_unlocks|]. done.
Qed.
End Lock.

#[export] Hint Resolve holds_get_curid holds_tcb_read holds_get_prev holds_get_next holds_set_prev
  holds_set_next holds_get_head holds_get_tail holds_set_head holds_set_tail link_null link_pid pid_link
  holds_enqueue holds_dequeue holds_remove holds_asleep holds_awake holds_set_chan holds_set_curid
  holds_set_pending holds_add_pending holds_clear_pending holds_set_context
  holds_clear_context holds_get_context holds_get_sigaction holds_set_sigaction holds_set_openfiles
  holds_set_cwd holds_get_openfile : holds.

(** ** New threads *)

Section Spawn.
Context `{LN : Lenient} `{F : Frames} {IM : Images (L:=L)} {Λ : spinlock → Prop} (m0 : mem) (U : Z → Prop).
Local Abbreviation tsafe := (tsafe_lk (Λ:=Λ)).

Lemma link_grow (K K' : gmap Z kctx) v : (∀ x, spawned K x → spawned K' x) → link K v → link K' v.
Proof. intros Hg [->|H]; [by left|right; auto]. Qed.

Lemma tsafe_grow K K' s :
  (∀ x, spawned K x → spawned K' x) → tsafe m0 K U s → tsafe m0 K' U (set_kctx_pool K' s).
Proof.
  intros Hg [Hv Hk Hc Ht Hq Hlk]. split; [done|done|done| | |done].
  - intros x Hx. destruct (Ht x Hx). split; try done; [by eapply link_grow..|auto].
  - intros c Hx. destruct (Hq c Hx). split; by eapply link_grow.
Qed.

(** A new process: the only one more that is spawned. *)
Definition grown (K : gmap Z kctx) (pid : Z) (s : thr) : Prop :=
  ∃ K', tsafe m0 K' U s ∧ spawned K' pid ∧ (∀ x, spawned K x → spawned K' x)
    ∧ (∀ x, spawned K' x → x = pid ∨ spawned K x).

Lemma grown_insert K pid k1 k2 s :
  0 < pid < NUM_IDS → k_eip k2 ≠ 0 → tsafe m0 K U s →
  grown K pid (set_kctx_pool (<[pid := k2]> (<[pid := k1]> (kctx_pool s))) s).
Proof.
  intros Hp He Hs. set (K2 := <[pid := k2]> _).
  assert (∀ x, spawned K2 x ↔ x = pid ∨ spawned K x) as Hg.
  { intros x. rewrite <- (ts_kctx _ _ _ _ Hs). unfold spawned, K2, user_pid. rewrite aget_insert.
    case_decide as E; [by subst; naive_solver|]. rewrite aget_ne by done. naive_solver. }
  exists K2. split_and!; [|by apply Hg; left|by intros x Hx; apply Hg; right|by intros x ?%Hg].
  apply (tsafe_grow K); [|done]. intros x Hx. apply Hg. by right.
Qed.

Lemma wpe_kctx_new K kstack_hi entry id q s :
  entry ≠ 0 → tsafe m0 K U s → wpe tolerated (kctx_new kstack_hi entry id q) (grown K) s.
Proof.
  intros He Hs. unfold kctx_new. apply wpe_bind.
  eapply wpe_mono; [eapply (holds_lift (tsafe m0 K U)); [apply _|apply kept_alloc_mem_quota|done]|].
  intros pid s1 [Hp Hs1]. apply wpe_bind. eapply wpe_mono; [by apply (holds_chk (tsafe m0 K U))|].
  intros [] s2 [Hr Hs2]. cbn beta. unfold kctx_set_esp, kctx_set_eip, wpe, mbind, M_bind, chk.
  rewrite !(proj2 (Z.leb_le 0 pid)), !(proj2 (Z.ltb_lt pid NUM_IDS)) by lia. cbn [andb].
  by eapply (grown_insert K pid _ _ s2); [lia| |].
Qed.

End Spawn.

Lemma wpe_thread_spawn `{LN : Lenient} `{F : Frames} {IM : Images (L:=L)} m0 U K kstack_hi entry id q s :
  entry ≠ 0 → tsafe m0 K U s →
  wpe tolerated (thread_spawn kstack_hi entry id q) (grown (Λ:=unlocked) m0 U K) s.
Proof.
  intros He Hs. unfold thread_spawn. eapply wpe_acquire; [done|]. intros s1 Hs1. apply wpe_bind.
  eapply wpe_mono; [by apply (wpe_kctx_new (Λ:=λ _, True) m0 U K)|]. intros pid s2 (K' & Hs2 & Hp & Hg).
  eapply wpe_step; [by apply holds_awake|done|]. intros _ s3 _ Hs3.
  eapply wpe_step; [by apply holds_enqueue|done|]. intros _ s4 _ Hs4.
  eapply wpe_release; [done|]. intros s5 Hs5. exists K'. tauto.
Qed.

(** ** Scheduling *)

(** Process [c] is current. *)
Definition only (K : gmap Z kctx) (c x : Z) : Prop := x = c ∧ spawned K c.

Lemma only_spawned K c x : only K c x → spawned K x.
Proof. by intros [-> Hc]. Qed.

Lemma only_pid K c x : only K c x → user_pid x.
Proof. by intros [-> []]. Qed.
#[export] Hint Resolve only_pid only_spawned : holds.

Section Scheduling.
Context `{LN : Lenient} `{F : Frames} {IM : Images (L:=L)} (m0 : mem).

Lemma holds_sched_tick K U : holds (tsafe m0 K U) sched_tick (λ _, True).
Proof.
  intros s Hs. unfold sched_tick. eapply wpe_acquire; [done|]. intros s1 Hs1.
  eapply (wpe_step _ _ _ _ _ (λ _, True)); [by apply holds_gets|done|]. intros t s2 _ Hs2. cbv zeta.
  eapply (wpe_step _ _ _ _ _ (λ _, True)); [holds_auto|done|]. intros _ s3 _ Hs3. destruct (_ <? _).
  - eapply (wpe_step _ _ _ _ _ (λ _, True)); [holds_auto|done|]. intros _ s4 _ Hs4.
    eapply wpe_release; [done|]. by intros s5 Hs5.
  - eapply wpe_release; [done|]. by intros s5 Hs5.
Qed.

Lemma holds_wakeup_one K U chan pid : 1 ≤ pid < NUM_IDS → holds (tsafe_any m0 K U) (wakeup_one chan pid) (λ _, True).
Proof.
  intros Hp. unfold wakeup_one, tcb_get_chan. eapply holds_bind; [holds_hint|]. intros ch _.
  apply holds_if; intros _; [|by apply holds_ret].
  apply (holds_bind _ _ _ (λ st, st = TSTATE_SLEEP → spawned K pid)).
  { apply holds_tcb_get. by intros t []. }
  intros st Hst.
  apply holds_if; intros E; [|by apply holds_ret]. apply Z.eqb_eq, Hst in E. holds_auto.
Qed.
Hint Resolve holds_wakeup_one : holds.

Lemma holds_thread_wakeup K U chan : holds (tsafe m0 K U) (thread_wakeup chan) (λ _, True).
Proof. apply (holds_locked _ _ _ _ (λ _, True)). holds_auto. Qed.
Hint Resolve holds_sched_tick holds_thread_wakeup : holds.

(** The invariant while [c] is current. *)
Definition psafe (c : Z) (K : gmap Z kctx) : thr → Prop := tsafe m0 K (only K c).

Lemma tsafe_set_curid Λ K U U' c s :
  tsafe_lk (Λ:=Λ) m0 K U s → U' c → tsafe_lk (Λ:=Λ) m0 K U' (set_CURID (<[this_cpu := c]> (CURID s)) s).
Proof. intros [] Hc. split; try done. cbn. by rewrite aget_eq. Qed.

(** The processes that were and became the current one. *)
Definition picked (c : Z) (K : gmap Z kctx) (r : Z * Z) (s : thr) : Prop :=
  r.1 = c ∧ tsafe_any m0 K (only K r.2) s.

Lemma wpe_yield_pick c K s : psafe c K s → wpe tolerated yield_pick (picked c K) s.
Proof.
  intros Hs. unfold yield_pick. eapply wpe_acquire; [done|]. intros s0 Hs0.
  eapply wpe_step; [apply holds_get_curid|done|]. intros old s1 [-> Hc] Hs1.
  do 4 (eapply wpe_step; [holds_hint|done|]; intros ? ? ? ?).
  split; [done|]. eapply tsafe_set_curid; [done|]. split; [done|]. by apply pid_link.
Qed.

(** The next process becomes the current one and the lock is released. *)
Lemma wpe_hand_over {A} K U new (a : A) s :
  spawned K new → tsafe_any m0 K U s →
  wpe tolerated (_ ← set_curid new; _ ← sched_lk_release; mret a) (λ b s', b = a ∧ psafe new K s') s.
Proof.
  intros Hn Hs. apply wpe_bind. cbn [wpe set_curid modify].
  eapply wpe_release; [by eapply (tsafe_set_curid _ K U (only K new))|]. by intros s' Hs'.
Qed.

Lemma wpe_exit_pick c K s : psafe c K s → wpe tolerated exit_pick (λ r s', r.1 = c ∧ psafe r.2 K s') s.
Proof.
  intros Hs. unfold exit_pick. eapply wpe_acquire; [done|]. intros s0 Hs0.
  eapply wpe_step; [apply holds_get_curid|done|]. intros old s1 [-> Hc] Hs1.
  eapply wpe_step; [holds_hint|done|]; intros new s2 Hn Hs2.
  eapply (wpe_step _ _ _ _ _ (λ _, True)); [holds_auto|done|]. intros _ s3 _ Hs3.
  eapply wpe_step; [holds_hint|done|]; intros ? s4 Hn4 Hs4.
  eapply wpe_mono; [eapply wpe_hand_over; [by apply pid_link|done]|]. by intros r s5 [-> Hs5].
Qed.

Lemma wpe_sleep_pick c K chan s :
  tsafe_any m0 K (only K c) s → wpe tolerated (sleep_pick c chan) (λ new s', psafe new K s') s.
Proof.
  intros Hs. pose proof (only_spawned _ _ _ (ts_cur _ _ _ _ Hs)) as Hc. rewrite (proj1 (ts_cur _ _ _ _ Hs)) in Hc.
  unfold sleep_pick. eapply wpe_step; [holds_hint|done|]; intros ? s1 ? Hs1.
  eapply wpe_step; [holds_hint|done|]; intros ? s2 ? Hs2.
  eapply wpe_step; [holds_hint|done|]; intros new s3 Hn Hs3.
  eapply wpe_step; [holds_hint|done|]; intros ? s4 Hn4 Hs4.
  eapply wpe_mono; [eapply wpe_hand_over; [by apply pid_link|done]|]. by intros r s5 [-> Hs5].
Qed.

Lemma kfine_kctx_switch c K to s : psafe to K s → kfine psafe c (λ _ _, True) K (kctx_switch c to s).
Proof.
  intros Hs. unfold kctx_switch, run, mbind, KM_bind, chk. destruct ((0 <=? c) && _); [|done]. cbn.
  destruct ((0 <=? to) && _); [|done]. by apply kfine_switch.
Qed.

Lemma kholds_thread_yield c : kholds psafe c thread_yield (λ _, True).
Proof.
  unfold thread_yield. apply kholds_pick. intros K s Hs.
  eapply wpe_mono; [by apply wpe_yield_pick|]. intros [old new] s1 [Eo Hs1]. cbn in Eo, Hs1. subst old.
  pose proof (release_unlocks _ _ _ _ _ Hs1) as Hr. unfold wpe in Hr. unfold mbind, KM_bind, run.
  destruct (sched_lk_release s1) as [[[] s2]|e]; [|done].
  destruct (c =? new) eqn:E; cbn; [apply Z.eqb_eq in E as ->; by split|by apply kfine_kctx_switch].
Qed.

Lemma kholds_thread_exit c : kholds psafe c thread_exit (λ _, True).
Proof.
  unfold thread_exit. apply kholds_pick. intros K s Hs.
  eapply wpe_mono; [by apply wpe_exit_pick|]. intros [old new] s1 [Eo Hs1]. cbn in Eo, Hs1. subst old.
  by apply kfine_kctx_switch.
Qed.
Hint Resolve kholds_thread_yield kholds_thread_exit : holds.

(** The current process is one that was spawned. *)
Lemma kholds_curid c : kholds psafe c (run get_curid) (λ x, x = c ∧ user_pid c).
Proof. apply kholds_run. intros K. eapply holds_mono; [apply holds_get_curid|]. by intros x (-> & []). Qed.

Lemma holds_current {A} c K (m : M thr A) P :
  (spawned K c → holds (psafe c K) m P) → holds (psafe c K) m P.
Proof. intros Hm s Hs. apply Hm; [|done]. by destruct (ts_cur _ _ _ _ Hs). Qed.

Lemma kholds_sched_update c : kholds psafe c sched_update (λ _, True).
Proof. unfold sched_update. holds_auto. Qed.

(** The lock [l] the caller holds is apart from the threads. *)
Lemma kholds_thread_sleep {S} (I : Z → gmap Z kctx → S → Prop) (lt : lens S thr) c chan (l : lens S spinlock) :
  lenient → FamLens lt I psafe → LensOk lt → (∀ k s, lget lt (lset l k s) = lget lt s) →
  (∀ t t' k s, lset lt t (lset l k (lset lt t' s)) = lset l k (lset lt t s)) →
  (∀ d K, InvLens l (I d K) (λ _, True)) →
  kholds I c (thread_sleep lt chan (Some l)) (λ _, True).
Proof.
  intros HL Ht Hok Hgl Hsl Hl.
  assert (∀ K A (m : M thr A) P, holds (psafe c K) m P → holds (I c K) (lift lt m) P) as Hlift
    by (intros; by eapply holds_lift; [apply (inv_fam lt I psafe)|]).
  unfold thread_sleep. eapply (kholds_bind _ _ _ _ (λ x, x = c)).
  { apply kholds_run. intros K. apply Hlift. eapply holds_mono; [apply holds_get_curid|]. by intros x []. }
  intros ? ->. intros K s Hs. destruct (lock_acquire_Ok m0 K (only K c) (lget lt s)) as [E1 Ht1]; [by apply Ht|].
  rewrite (kbind_run _ _ _ _ _ (lift_Ok _ _ _ _ _ E1)).
  set (t1 := lset l_sched_lk locked (lget lt s)) in *.
  rewrite (kbind_run _ _ _ tt (lset l released (lset lt t1 s))) by done.
  pose proof (wpe_sleep_pick c K chan t1 Ht1) as Hp. unfold wpe in Hp. unfold mbind at 1, KM_bind, run at 1, lift at 1.
  rewrite Hgl, lget_lset. destruct (sleep_pick c chan t1) as [[new t]|e]; [|done]. cbn [kbind].
  assert (I new K (lset lt t (lset l released (lset lt t1 s)))) as Hn.
  { rewrite Hsl. apply (Hl new K); [|done]. by eapply Ht. }
  apply (kfine_bind _ _ _ _ (λ _ _, True)).
  - eapply (kfine_klift _ _ _ psafe (λ _, True)); [done|done|]. apply kfine_kctx_switch. by apply Ht.
  - intros _ K1 s1 _ Hs1. eapply (kfine_after _ _ _ _ (λ _, True)); [|done|].
    { apply kholds_run. intros K'. apply Hlift, (holds_locked _ _ _ _ (λ _, True)). holds_auto. }
    intros _ K2 s2 _. apply kholds_run. intros K'. apply holds_aside; [apply Hl|by apply quiet_acquire].
Qed.
End Scheduling.

#[export] Hint Resolve holds_sched_tick holds_thread_wakeup
  kholds_thread_yield kholds_thread_exit kholds_sched_update : holds.

(** ** Trap frames

    The registers of a process are words, and no call changes the segments or the
    flags it runs with: it returns to user mode as it came. *)

Record tf_ok (t : tf_t) : Prop := {
  tf_general : is_u32 (edi t) ∧ is_u32 (esi t) ∧ is_u32 (ebp t) ∧ is_u32 (oesp t)
    ∧ is_u32 (ebx t) ∧ is_u32 (edx t) ∧ is_u32 (ecx t) ∧ is_u32 (eax t);
  tf_segments : is_u32 (es t) ∧ is_u32 (ds t) ∧ is_u32 (cs t) ∧ is_u32 (ss t);
  tf_trap : is_u32 (trapno t) ∧ is_u32 (err t);
  tf_user : is_u32 (eip t) ∧ is_u32 (eflags t) ∧ is_u32 (esp t)
}.

Definition same_mode (t t' : tf_t) : Prop :=
  es t' = es t ∧ ds t' = ds t ∧ cs t' = cs t ∧ ss t' = ss t ∧ eflags t' = eflags t.

Definition returns (t t' : tf_t) : Prop := tf_ok t' ∧ same_mode t t'.

Lemma returns_refl t : tf_ok t → returns t t.
Proof. by split. Qed.

Lemma returns_errno t t' e : returns t t' → is_u32 e → returns t (syscall_set_errno t' e).
Proof. intros [[] ?] He. split; [split; cbn; tauto|done]. Qed.

Lemma returns_retval1 t t' v : returns t t' → is_u32 v → returns t (syscall_set_retval1 t' v).
Proof. intros [[] ?] He. split; [split; cbn; tauto|done]. Qed.

Lemma returns_jump t t' sp pc : returns t t' → is_u32 sp → is_u32 pc → returns t (set_esp_eip sp pc t').
Proof. intros [[] ?] He. split; [split; cbn; tauto|done]. Qed.

Lemma returns_trans t1 t2 t3 : returns t1 t2 → returns t2 t3 → returns t1 t3.
Proof. intros [_ H1] [? H2]. split; [done|]. unfold same_mode in *. intuition congruence. Qed.

(** The error numbers. *)
Ltac word := first [done | apply u32_range | by vm_compute].

#[export] Hint Resolve returns_refl returns_errno returns_retval1 returns_jump u32_range read32_range : holds.
#[export] Hint Extern 5 (is_u32 _) => by vm_compute : holds.

(** ** Signals *)

(** The buffers of the calls on the stack and in the control blocks are no images. *)
Class ThrBuffers `{I : IpcLayout} {IM : Images (L:=L)} : Prop := {
  local_apart v pid x : 0 ≤ pid < NUM_IDS → image x → ¬ (local_addr v pid ≤ x < local_addr v pid + 32);
  sigaction_apart pid n x : 0 ≤ pid < NUM_IDS → 0 ≤ n < NSIG → image x →
    ¬ (sigaction_addr pid n ≤ x < sigaction_addr pid n + 20);
  msg_buf_apart x : image x → ¬ (msg_buf ≤ x < msg_buf + MSG_BUF_SIZE)
}.

Section Signals.
Context `{LN : Lenient} `{TB : ThrBuffers} (m0 : mem) (K : gmap Z kctx) (U : Z → Prop) (HU : ∀ x, U x → user_pid x).
Local Abbreviation psafe := (tsafe m0 K U).
Hint Resolve HU : holds.

Lemma buffer_le a n k : 0 ≤ k ≤ n → buffer a n → buffer a k.
Proof.
  intros Hk [[Ha Hb] Hi]. split; [split; [done|]|].
  - intros j Hj. apply Hb. lia.
  - intros x Hx. specialize (Hi x Hx). lia.
Qed.

Lemma local_buffer v pid n : user_pid pid → 0 ≤ n ≤ 32 → buffer (local_addr v pid) n.
Proof.
  intros Hp Hn. apply (buffer_le _ 32); [done|]. unfold user_pid in Hp. split; [apply local_ok; lia|].
  intros x. apply local_apart. lia.
Qed.

Lemma sigaction_buffer pid n : user_pid pid → 0 ≤ n < NSIG → buffer (sigaction_addr pid n) 20.
Proof.
  intros Hp Hn. unfold user_pid in Hp. split; [apply sigaction_ok; lia|]. intros x. apply sigaction_apart; lia.
Qed.

Lemma holds_copyout_bytes a bs pid uva :
  user_pid pid → is_u32 uva → (length bs ≤ 32)%nat → buffer a (Z.of_nat (length bs)) →
  holds psafe (copyout_bytes a bs pid uva) (λ _, True).
Proof.
  intros Hp Hu Hn Hb. unfold copyout_bytes. eapply holds_lift; [apply _|].
  eapply holds_bind; [by apply kept_place|]. intros _ _. destruct Hb as [[Ha _] _].
  apply kept_pt_copyout; [done|done| | |]; unfold KERNEL_LOW, VM_USERLO, VM_USERHI in *; lia.
Qed.

Lemma holds_copyin pid va kva len :
  is_u32 va → 0 ≤ len → buffer kva len → holds psafe (lift l_t_vm (pt_copyin pid va kva len)) (λ _, True).
Proof. intros. eapply holds_lift; [apply _|]. by apply kept_pt_copyin. Qed.

Lemma holds_copyout kva pid va len :
  user_pid pid → is_u32 va → 0 ≤ len ≤ KERNEL_LOW → 0 ≤ kva → kva + len ≤ VM_USERHI →
  holds psafe (lift l_t_vm (pt_copyout kva pid va len)) (λ _, True).
Proof. intros. eapply holds_lift; [apply _|]. by apply kept_pt_copyout. Qed.

Lemma holds_sys_kill t : tf_ok t → holds psafe (sys_kill t) (returns t).
Proof.
  intros Ht. unfold sys_kill, tcb_get_state, tcb_is_sleeping, tcb_get_channel.
  holds_auto; eauto 4 with holds nocore.
Qed.

Lemma holds_sys_sigaction t : tf_ok t → holds psafe (sys_sigaction t) (returns t).
Proof.
  intros Ht. pose proof (tf_general t Ht) as Hg. unfold sys_sigaction. cbv zeta.
  eapply holds_bind; [apply holds_get_curid|]. intros cur Hcur%HU.
  apply holds_if; intros Hn; [apply holds_ret; eauto 4 with holds nocore|].
  apply orb_false_iff in Hn as [Hn1%Z.ltb_ge Hn2%Z.leb_gt].
  assert (buffer (sigaction_addr cur (s32 (syscall_get_arg2 t))) 20) as Hb by (apply sigaction_buffer; [done|lia]).
  assert (buffer (local_addr "kern_act" cur) 20) as Hb' by (by apply local_buffer).
  apply (holds_bind _ _ _ (λ _, True)); [|intros _ _; apply (holds_bind _ _ _ (λ _, True))].
  - holds_auto. apply holds_copyout_bytes; [done|apply Hg|cbn; lia|exact Hb].
  - apply holds_if; intros _; [|by apply holds_ret].
    eapply holds_bind; [apply holds_copyin; [apply Hg|done|done]|]. intros _ _.
    eapply holds_bind; [apply (holds_gets _ _ (λ a, is_u32 (sa_handler a))); intros; apply read32_range|].
    intros act Hact. by apply holds_set_sigaction.
  - intros _ _. apply holds_ret. eauto 4 with holds nocore.
Qed.

Lemma holds_sys_sigreturn t : tf_ok t → holds psafe (sys_sigreturn t) (returns t).
Proof.
  intros Ht. unfold sys_sigreturn. eapply holds_bind; [apply holds_get_curid|]. intros cur Hcur%HU.
  eapply holds_bind; [apply holds_get_context|]. intros [a1 a2] [H1 H2]. cbn in H1, H2.
  pose proof (local_buffer "saved_esp" cur 4 Hcur ltac:(lia)).
  pose proof (local_buffer "saved_eip" cur 4 Hcur ltac:(lia)).
  pose proof (returns_refl t Ht).
  apply holds_if; intros _; [apply holds_ret; eauto 4 with holds nocore|].
  eapply holds_bind; [by apply holds_copyin|]. intros n1 _.
  apply holds_if; intros _; [apply holds_ret; eauto 4 with holds nocore|].
  eapply holds_bind; [apply (holds_gets _ _ is_u32); intros; apply read32_range|]. intros sp Hsp.
  eapply holds_bind; [by apply holds_copyin|]. intros n2 _.
  apply holds_if; intros _; [apply holds_ret; eauto 4 with holds nocore|].
  eapply holds_bind; [apply (holds_gets _ _ is_u32); intros; apply read32_range|]. intros pc Hpc.
  eapply holds_bind; [apply holds_clear_context|]. intros _ _. apply holds_ret. eauto 5 with holds nocore.
Qed.

Lemma holds_push v bs pid uva :
  user_pid pid → (length bs ≤ 32)%nat → is_u32 uva →
  holds psafe (copyout_bytes (local_addr v pid) bs pid uva) (λ _, True).
Proof. intros. apply holds_copyout_bytes; [done|done|done|]. apply local_buffer; [done|lia]. Qed.

Lemma holds_deliver_signal t signum : tf_ok t → holds psafe (deliver_signal t signum) (returns t).
Proof.
  intros Ht. unfold deliver_signal. eapply holds_bind; [apply holds_get_curid|]. intros cur Hcur%HU.
  eapply holds_bind; [apply holds_get_sigaction|]. intros [act|] Ha; [|by apply holds_ret, returns_refl].
  specialize (Ha act eq_refl). apply holds_if; intros _; [|by apply holds_ret, returns_refl]. cbv zeta.
  do 5 (eapply holds_bind; [apply holds_push; [done|cbn; lia|apply u32_range]|]; intros _ _).
  eapply holds_bind; [apply holds_set_context; apply u32_range|]. intros _ _. apply holds_ret.
  apply returns_jump; [by apply returns_refl|apply u32_range|done].
Qed.

Lemma holds_terminate_process pid : holds psafe (terminate_process pid) (λ _, True).
Proof. unfold terminate_process, tcb_get_state. holds_auto. Qed.
Hint Resolve holds_deliver_signal holds_terminate_process : holds.

End Signals.

#[export] Hint Resolve holds_sys_kill holds_sys_sigaction holds_sys_sigreturn holds_deliver_signal
  holds_terminate_process : holds.

Section Pending.
Context `{LN : Lenient} `{TB : ThrBuffers} (m0 : mem) (c : Z).
Local Abbreviation psafe := (psafe m0).

Lemma kholds_sys_pause t : tf_ok t → kholds psafe c (sys_pause t) (returns t).
Proof.
  intros Ht. unfold sys_pause, tcb_get_pending_signals. eapply kholds_bind; [apply kholds_curid|]. intros ? [-> _].
  holds_auto; try eauto 4 with holds nocore. apply holds_current. intros Hc. holds_auto.
Qed.

Lemma kholds_serve_signal signum cur t : tf_ok t → kholds psafe c (serve_signal signum cur t) (returns t).
Proof. intros Ht. unfold serve_signal. holds_auto; auto with holds nocore. Qed.

Lemma kholds_handle_pending_signals t : tf_ok t → kholds psafe c (handle_pending_signals t) (returns t).
Proof.
  intros Ht. unfold handle_pending_signals, tcb_get_pending_signals. holds_auto; [|auto with holds nocore].
  generalize (Z.to_nat (NSIG - 1)) as n. intros n. generalize 1 as i. induction n as [|n IH]; intros i; cbn [pending_loop].
  - apply kholds_ret. auto with holds nocore.
  - apply kholds_if; intros _; [by apply kholds_serve_signal|apply IH].
Qed.
End Pending.

#[export] Hint Resolve kholds_sys_pause kholds_handle_pending_signals : holds.

(** ** Messages *)

Section Messages.
Context `{LN : Lenient} (HL : lenient) `{TB : ThrBuffers} (m0 : mem) (K : gmap Z kctx) (U : Z → Prop) (HU : ∀ x, U x → user_pid x).
Local Abbreviation psafe := (tsafe m0 K U).
Hint Resolve HU : holds.

Definition isafe (s : ipc) : Prop := psafe (i_thr s).

#[export] Instance inv_i_thr : InvLens l_i_thr isafe psafe.
Proof. by split. Qed.

#[export] Instance inv_msg_lock : InvLens l_msg_lock isafe (λ _, True).
Proof. by split. Qed.

Lemma holds_in_thr {A} (m : M thr A) P : holds psafe m P → holds isafe (lift l_i_thr m) P.
Proof. apply holds_lift, _. Qed.
Hint Resolve holds_in_thr : holds.

Lemma holds_mb_upd i f : holds isafe (mb_upd i f) (λ _, True).
Proof. unfold mb_upd. holds_auto. Qed.

Lemma holds_mb_get {A} i (f : MsgBlock → A) : holds isafe (mb_get i f) (λ _, True).
Proof. unfold mb_get. holds_auto. Qed.

Lemma holds_mq_set f : holds isafe (mq_set f) (λ _, True).
Proof. unfold mq_set. holds_auto. Qed.
Hint Resolve holds_mb_upd holds_mb_get holds_mq_set : holds.

Lemma holds_msg_enqueue pid : holds isafe (msg_enqueue pid) (λ _, True).
Proof. unfold msg_enqueue. holds_auto. Qed.

Lemma holds_msg_remove pid : holds isafe (msg_remove pid) (λ _, True).
Proof. unfold msg_remove. holds_auto. Qed.

Lemma holds_find_sender fuel pid sender : holds isafe (find_sender fuel pid sender) (λ _, True).
Proof. revert pid. induction fuel as [|fuel IH]; intros pid; cbn [find_sender]; holds_auto. Qed.

Lemma holds_getBlock sender : holds isafe (msg_getBlockBySendID sender) (λ _, True).
Proof. unfold msg_getBlockBySendID. holds_auto. apply holds_find_sender. Qed.
Hint Resolve holds_msg_enqueue holds_msg_remove holds_getBlock : holds.

Lemma holds_ipc_copy_loop fuel dest da src sa len :
  user_pid dest → holds psafe (ipc_copy_loop fuel dest da src sa len) (λ _, True).
Proof.
  intros Hd. revert da sa len. induction fuel as [|fuel IH]; intros da sa len; cbn [ipc_copy_loop];
    apply holds_if; intros Hl; [by apply holds_fail|by apply holds_ret| |by apply holds_ret].
  apply Z.ltb_lt in Hl. cbv zeta. set (n := if len <? MSG_BUF_SIZE then len else MSG_BUF_SIZE).
  assert (0 < n ≤ MSG_BUF_SIZE) as Hn.
  { unfold n, MSG_BUF_SIZE. case_cmp; lia. }
  assert (buffer msg_buf n) as Hb.
  { apply (buffer_le _ MSG_BUF_SIZE); [lia|]. split; [apply msg_buf_ok|apply msg_buf_apart]. }
  eapply holds_bind; [apply holds_copyin; [apply u32_range|lia|done]|]. intros _ _.
  eapply holds_bind; [|by intros _ _; apply IH]. destruct Hb as [[Hb _] _].
  apply holds_copyout; [done|apply u32_range|..];
    unfold MSG_BUF_SIZE, KERNEL_LOW, VM_USERLO, VM_USERHI in *; lia.
Qed.

Lemma holds_recv_take sender addr len cur :
  user_pid cur → is_u32 len → holds isafe (recv_take sender addr len cur) is_u32.
Proof.
  intros Hc Hl. unfold recv_take. eapply holds_bind; [apply holds_mb_get|]. intros sa _.
  eapply holds_bind; [apply holds_mb_get|]. intros sl _. cbv zeta.
  eapply holds_bind.
  { apply holds_in_thr. unfold ipc_copy. apply holds_ipc_copy_loop.
    unfold user_pid, NUM_IDS in *. rewrite s32_small; lia. }
  intros _ _. holds_auto. case_cmp; [apply u32_range|done].
Qed.

End Messages.
#[export] Hint Resolve holds_in_thr holds_mb_upd holds_mb_get holds_mq_set holds_msg_enqueue holds_msg_remove
  holds_getBlock : holds.

Section Waits.
Context `{LN : Lenient} (HL : lenient) `{TB : ThrBuffers} (m0 : mem) (c : Z).
Definition wsafe (c : Z) (K : gmap Z kctx) : ipc → Prop := isafe m0 K (only K c).

#[export] Instance fam_i_thr : FamLens l_i_thr wsafe (psafe m0).
Proof. by split. Qed.

Lemma kholds_sleep chan : kholds wsafe c (thread_sleep l_i_thr chan (Some l_msg_lock)) (λ _, True).
Proof. apply (kholds_thread_sleep m0); [done|apply _| |done|done|by split]. split; [done|done|by intros []]. Qed.
Hint Resolve kholds_sleep : holds.

Lemma kholds_send_wait fuel cur : kholds wsafe c (send_wait fuel cur) (λ _, True).
Proof. induction fuel as [|fuel IH]; cbn [send_wait]; holds_auto. Qed.

Lemma kholds_recv_wait fuel sender cur : kholds wsafe c (recv_wait fuel sender cur) (λ _, True).
Proof.
  assert (∀ K, holds (wsafe c K) (recv_blocked sender cur) (λ _, True)) by (intros K; unfold recv_blocked; holds_auto).
  induction fuel as [|fuel IH]; cbn [recv_wait]; holds_auto.
Qed.
Hint Resolve kholds_send_wait kholds_recv_wait : holds.

Lemma kholds_sys_sync_send fuel t : tf_ok t → kholds wsafe c (sys_sync_send fuel t) (returns t).
Proof. intros Ht. unfold sys_sync_send. holds_auto. eauto 4 with holds nocore. Qed.

Lemma kholds_sys_sync_recv fuel t : tf_ok t → kholds wsafe c (sys_sync_recv fuel t) (returns t).
Proof.
  intros Ht. pose proof (tf_general t Ht) as Hg. unfold sys_sync_recv. cbv zeta.
  apply (kholds_bind _ _ _ _ user_pid); [apply kholds_run; intros K; apply holds_in_thr|].
  { eapply holds_mono; [apply holds_get_curid|apply only_pid]. }
  intros cur Hcur.
  eapply kholds_bind; [apply kholds_recv_wait|]. intros _ _.
  apply (kholds_bind _ _ _ _ is_u32); [apply kholds_run; intros K; apply (holds_recv_take HL); [done|apply Hg]|].
  intros n Hn.
  apply kholds_ret. eauto 5 with holds nocore.
Qed.
End Waits.
#[export] Hint Resolve kholds_sys_sync_send kholds_sys_sync_recv : holds.
