(* ===== verification/ConfineFs.v ===== *)
(** * The file system keeps page tables in order

    The invariant of file ConfineThr lifted through the layers of the file system,
    whose state is apart from it: buffers, log and inodes are not in memory that
    processes or page tables use. *)

From S2P Require Import Prelude Memory Strings Resume Spinlock PhysMap Pmm Container PageTable Isolation.
From S2P Require Import UserCopy Tcb TQueue Thread Signal Ipc Bufcache Log Block Inode Dir File.
From S2P Require Import Holds Confine ConfineThr.

Section Blocks.
Context `{LN : Lenient} (HL : lenient).
Context `{IL : IpcLayout} {B : BufLayout (I:=IL)} {FL : FsLayout (B:=B)} {IM : Images (L:=L)} {TB : ThrBuffers (I:=IL) (IM:=IM)}.
Context (m0 : mem) (K : gmap Z kctx) (U : Z → Prop) (HU : ∀ x, U x → user_pid x) (junk : Z).
Hint Resolve HU : holds.

Definition osafe (s : bio) : Prop := isafe m0 K U (o_ipc s).
Definition gsafe (s : lgs) : Prop := osafe (g_bio s).
Definition nsafe (s : ino) : Prop := gsafe (n_lgs s).
Definition fsafe (s : fsys) : Prop := nsafe (f_ino s) ∧ ∀ i, 0 ≤ f_off (aget (files s) i).

#[export] Instance inv_o_ipc : InvLens l_o_ipc osafe (isafe m0 K U).
Proof. by split. Qed.
#[export] Instance inv_g_bio : InvLens l_g_bio gsafe osafe.
Proof. by split. Qed.
#[export] Instance inv_n_lgs : InvLens l_n_lgs nsafe gsafe.
Proof. by split. Qed.
#[export] Instance inv_f_ino : InvLens l_f_ino fsafe nsafe.
Proof. split; [by intros s []|by intros s t []]. Qed.

(** The locks. *)
Lemma holds_bc_lock {A} (m : M spinlock A) : quiet m → holds osafe (lift l_bc_lock m) (λ _, True).
Proof. apply holds_aside. by split. Qed.
Lemma holds_ide_lk {A} (m : M spinlock A) : quiet m → holds osafe (lift l_ide_lk m) (λ _, True).
Proof. apply holds_aside. by split. Qed.
Lemma holds_log_lock {A} (m : M spinlock A) : quiet m → holds gsafe (lift l_log_lock m) (λ _, True).
Proof. apply holds_aside. by split. Qed.
Lemma holds_ic_lock {A} (m : M spinlock A) : quiet m → holds nsafe (lift l_ic_lock m) (λ _, True).
Proof. apply holds_aside. by split. Qed.
Lemma holds_ft_lock {A} (m : M spinlock A) : quiet m → holds fsafe (lift l_ft_lock m) (λ _, True).
Proof. apply holds_aside. split; [done|by intros s t []]. Qed.
Lemma holds_buf_lock {A} (m : M spinlock A) : quiet m → holds fsafe (lift l_buf_lock m) (λ _, True).
Proof. apply holds_aside. split; [done|by intros s t []]. Qed.

(** ** Buffers *)

Lemma holds_buf_get {A} (f : buf → A) b : holds osafe (buf_get f b) (λ _, True).
Proof. by apply holds_gets. Qed.
Lemma holds_buf_upd b f : holds osafe (buf_upd b f) (λ _, True).
Proof. unfold buf_upd. holds_auto. Qed.
Lemma holds_buf_write b f : holds osafe (buf_write b f) (λ _, True).
Proof. apply holds_buf_upd. Qed.
Lemma holds_wakeup chan : holds osafe (wakeup chan) (λ _, True).
Proof. unfold wakeup. eapply holds_lift; [apply _|]. auto with holds nocore. Qed.
Hint Resolve holds_bc_lock holds_ide_lk holds_log_lock holds_ic_lock holds_ft_lock holds_buf_lock holds_buf_get
  holds_buf_upd holds_buf_write holds_wakeup : holds.

Lemma holds_ide_intr : holds osafe ide_intr (λ _, True).
Proof. unfold ide_intr, ide_start. holds_auto. Qed.
Hint Resolve holds_ide_intr : holds.

Lemma holds_ide_await fuel b : holds osafe (ide_await fuel b) (λ _, True).
Proof. induction fuel as [|fuel IH]; cbn [ide_await]; holds_auto. Qed.
Hint Resolve holds_ide_await : holds.

Lemma holds_ide_rw b : holds osafe (ide_rw b) (λ _, True).
Proof. unfold ide_rw, ide_start. holds_auto. Qed.

Lemma holds_find_cached fuel dev sector b : holds osafe (find_cached fuel dev sector b) (λ _, True).
Proof. revert b. induction fuel as [|fuel IH]; intros b; cbn [find_cached]; holds_auto. Qed.

Lemma holds_find_clean fuel b : holds osafe (find_clean fuel b) (λ _, True).
Proof. revert b. induction fuel as [|fuel IH]; intros b; cbn [find_clean]; holds_auto. Qed.
Hint Resolve holds_ide_rw holds_find_cached holds_find_clean : holds.

Lemma holds_bufcache_get dev sector : holds osafe (bufcache_get dev sector) (λ _, True).
Proof. unfold bufcache_get. holds_auto. Qed.
Hint Resolve holds_bufcache_get : holds.

Lemma holds_bufcache_read dev sector : holds osafe (bufcache_read dev sector) (λ _, True).
Proof. unfold bufcache_read. holds_auto. Qed.

Lemma holds_bufcache_write b : holds osafe (bufcache_write b) (λ _, True).
Proof. unfold bufcache_write. holds_auto. Qed.

Lemma holds_bufcache_release b : holds osafe (bufcache_release b) (λ _, True).
Proof. unfold bufcache_release. holds_auto. Qed.
Hint Resolve holds_bufcache_read holds_bufcache_write holds_bufcache_release : holds.

(** ** Log and blocks *)

Lemma holds_in_bio {A} (m : M bio A) P : holds osafe m P → holds gsafe (lift l_g_bio m) P.
Proof. apply holds_lift, _. Qed.
Lemma holds_bcache {A} (m : M bio A) P : holds osafe m P → holds gsafe (bcache m) P.
Proof. apply holds_in_bio. Qed.
Hint Resolve holds_in_bio holds_bcache : holds.

Lemma holds_read_superblock dev : holds osafe (read_superblock dev) (λ _, True).
Proof. unfold read_superblock. holds_auto. Qed.

Lemma holds_get_sector i : holds gsafe (get_sector i) (λ _, True).
Proof. unfold get_sector. holds_auto. Qed.

Lemma holds_set_sector i v : holds gsafe (set_sector i v) (λ _, True).
Proof. unfold set_sector. holds_auto. Qed.

Lemma holds_log_read sector : holds gsafe (log_read sector) (λ _, True).
Proof. unfold log_read. holds_auto. Qed.
Hint Resolve holds_read_superblock holds_get_sector holds_set_sector holds_log_read : holds.

Lemma holds_install_one tail : holds gsafe (install_one tail) (λ _, True).
Proof. unfold install_one. holds_auto. Qed.
Hint Resolve holds_install_one : holds.

Lemma holds_install_trans : holds gsafe install_trans (λ _, True).
Proof. unfold install_trans. holds_auto. Qed.

Lemma holds_read_head : holds gsafe read_head (λ _, True).
Proof. unfold read_head. holds_auto. Qed.

Lemma holds_write_head : holds gsafe write_head (λ _, True).
Proof. unfold write_head. holds_auto. Qed.
Hint Resolve holds_install_trans holds_read_head holds_write_head : holds.

Lemma holds_log_init : holds gsafe log_init (λ _, True).
Proof. unfold log_init, recover_from_log. holds_auto. Qed.

Lemma holds_begin_trans : holds gsafe begin_trans (λ _, True).
Proof. unfold begin_trans. holds_auto. Qed.

Lemma holds_commit_trans a : holds gsafe (commit_trans a) (λ _, True).
Proof. unfold commit_trans. holds_auto. Qed.

Lemma holds_log_find fuel i sector : holds gsafe (log_find fuel i sector) (λ _, True).
Proof. revert i. induction fuel as [|fuel IH]; intros i; cbn [log_find]; holds_auto. Qed.

Lemma holds_log_copy b dev sector : holds osafe (log_copy b dev sector) (λ _, True).
Proof. unfold log_copy. holds_auto. Qed.
Hint Resolve holds_log_init holds_begin_trans holds_commit_trans holds_log_find holds_log_copy : holds.

Lemma holds_log_write b : holds gsafe (log_write b) (λ _, True).
Proof. unfold log_write. holds_auto. Qed.
Hint Resolve holds_log_write : holds.

Lemma holds_block_zero dev b : holds gsafe (block_zero dev b) (λ _, True).
Proof. unfold block_zero. holds_auto. Qed.
Hint Resolve holds_block_zero : holds.

Lemma holds_alloc_scan fuel dev b sb : holds gsafe (alloc_scan fuel dev b sb junk) (λ _, True).
Proof. revert b. induction fuel as [|fuel IH]; intros b; cbn [alloc_scan]; holds_auto. Qed.
Hint Resolve holds_alloc_scan : holds.

Lemma holds_block_alloc dev : holds gsafe (block_alloc junk dev) (λ _, True).
Proof. unfold block_alloc. holds_auto. Qed.

Lemma holds_block_free dev b : holds gsafe (block_free dev b) (λ _, True).
Proof. unfold block_free. holds_auto. Qed.
Hint Resolve holds_block_alloc holds_block_free : holds.

(** ** Inodes *)

Lemma holds_logged_call {A} (m : M lgs A) P : holds gsafe m P → holds nsafe (logged_call m) P.
Proof. apply holds_lift, _. Qed.
Lemma holds_cached {A} (m : M bio A) P : holds osafe m P → holds nsafe (cached m) P.
Proof. intros Hm. eapply holds_lift; [apply _|]. by apply holds_bcache. Qed.
Lemma holds_ip_get {A} (f : inode → A) ip : holds nsafe (ip_get f ip) (λ _, True).
Proof. unfold ip_get. holds_auto. Qed.
Lemma holds_ip_upd ip f : holds nsafe (ip_upd ip f) (λ _, True).
Proof. unfold ip_upd. holds_auto. Qed.
Hint Resolve holds_logged_call holds_cached holds_ip_get holds_ip_upd : holds.

Lemma holds_inode_get dev inum : holds nsafe (inode_get dev inum) (λ _, True).
Proof. unfold inode_get. holds_auto. Qed.
Hint Resolve holds_inode_get : holds.

Lemma holds_ialloc_scan fuel dev type inum n : holds nsafe (ialloc_scan fuel dev type inum n) (λ _, True).
Proof. revert inum. induction fuel as [|fuel IH]; intros inum; cbn [ialloc_scan]; holds_auto. Qed.
Hint Resolve holds_ialloc_scan : holds.

Lemma holds_inode_alloc dev type : holds nsafe (inode_alloc dev type) (λ _, True).
Proof. unfold inode_alloc. holds_auto. Qed.

Lemma holds_inode_update ip : holds nsafe (inode_update ip) (λ _, True).
Proof. unfold inode_update. holds_auto. Qed.

Lemma holds_inode_dup ip : holds nsafe (inode_dup ip) (λ _, True).
Proof. unfold inode_dup. holds_auto. Qed.

Lemma holds_inode_lock ip : holds nsafe (inode_lock ip) (λ _, True).
Proof. unfold inode_lock. holds_auto. Qed.

Lemma holds_inode_unlock ip : holds nsafe (inode_unlock ip_addr ip) (λ _, True).
Proof. unfold inode_unlock, inode_wakeup. holds_auto. Qed.

Lemma holds_alloc_block ip : holds nsafe (alloc_block junk ip) (λ _, True).
Proof. unfold alloc_block. holds_auto. Qed.
Hint Resolve holds_inode_alloc holds_inode_update holds_inode_dup holds_inode_lock holds_inode_unlock
  holds_alloc_block : holds.

Lemma holds_bmap ip bn : holds nsafe (bmap junk ip bn) (λ _, True).
Proof. unfold bmap, bmap_addr, bmap_entry. holds_auto. Qed.

Lemma holds_inode_trunc ip : holds nsafe (inode_trunc ip) (λ _, True).
Proof. unfold inode_trunc, trunc_direct. holds_auto. Qed.
Hint Resolve holds_bmap holds_inode_trunc : holds.

Lemma holds_inode_put ip : holds nsafe (inode_put ip_addr ip) (λ _, True).
Proof. unfold inode_put, inode_wakeup. holds_auto. Qed.
Hint Resolve holds_inode_put : holds.

Lemma holds_inode_unlockput ip : holds nsafe (inode_unlockput ip_addr ip) (λ _, True).
Proof. unfold inode_unlockput. holds_auto. Qed.

Lemma holds_inode_stat ip : holds nsafe (inode_stat ip) (λ _, True).
Proof. unfold inode_stat. holds_auto. Qed.

Lemma holds_inode_device ip : holds nsafe (inode_device ip) (λ r, r = -1).
Proof. unfold inode_device. by holds_auto. Qed.
Hint Resolve holds_inode_unlockput holds_inode_stat holds_inode_device : holds.

(** A read returns no more bytes than it was asked for. *)
Lemma holds_read_loop fuel ip off tot n :
  holds nsafe (read_loop junk fuel ip off tot n) (λ bs, tot + Z.of_nat (length bs) ≤ Z.max tot n).
Proof.
  revert off tot. induction fuel as [|fuel IH]; intros off tot; cbn [read_loop].
  { apply holds_if; intros _; [by apply holds_fail|]. apply holds_ret. cbn. lia. }
  apply holds_if; intros Ht; [|apply holds_ret; cbn; lia]. apply Z.ltb_lt in Ht.
  eapply holds_bind; [holds_hint|]. intros a _. eapply holds_bind; [holds_hint|]. intros dev _.
  eapply holds_bind; [holds_hint|]. intros bp _. cbv zeta.
  set (m := Z.min (n - tot) (BSIZE - off mod BSIZE)).
  assert (0 ≤ m ≤ n - tot) as Hm.
  { pose proof (Z.mod_pos_bound off BSIZE ltac:(done)). unfold m, BSIZE in *. lia. }
  eapply (holds_bind _ _ _ (λ bs, Z.of_nat (length bs) = m)).
  { apply holds_cached. apply (holds_gets _ _ (λ bs, Z.of_nat (length bs) = m)). intros s _.
    unfold read_bytes. rewrite length_fmap, length_seqZ. lia. }
  intros bs Hbs. eapply holds_bind; [holds_hint|]. intros _ _.
  eapply holds_bind; [apply IH|]. intros rest Hrest. apply holds_ret. cbn in Hrest. rewrite length_app. lia.
Qed.

Lemma holds_inode_read ip off n :
  0 ≤ n < 2147483648 → 0 ≤ off →
  holds nsafe (inode_read junk ip off n) (λ r, Z.of_nat (length r.2) ≤ n ∧ -1 ≤ r.1 ≤ n).
Proof.
  intros Hn Ho. unfold inode_read. eapply holds_bind; [holds_hint|]. intros type _.
  apply holds_if; intros _.
  { eapply holds_bind; [holds_hint|]. intros r ->. apply holds_ret. cbn. lia. }
  eapply holds_bind; [holds_hint|]. intros size _.
  apply holds_if; intros Hc; [apply holds_ret; cbn; lia|].
  apply orb_false_iff in Hc as [Hc1%Z.ltb_ge Hc2%Z.ltb_ge]. cbv zeta.
  set (k := if size <? u32 (off + n) then u32 (size - off) else n).
  assert (0 ≤ k ≤ n) as Hk.
  { unfold k. destruct (Z.ltb_spec size (u32 (off + n))) as [Hlt|]; [|lia].
    pose proof (u32_range (off + n)) as Hu. unfold is_u32 in *.
    assert (u32 (off + n) ≤ off + n) by (unfold u32; apply Z.mod_le; lia).
    rewrite u32_small; unfold is_u32; lia. }
  eapply holds_bind; [apply holds_read_loop|]. intros bs Hbs. cbn in Hbs. apply holds_ret. cbn.
  rewrite s32_small by lia. lia.
Qed.

Lemma holds_inode_read_any ip off n : holds nsafe (inode_read junk ip off n) (λ _, True).
Proof.
  assert (∀ k o, holds nsafe (read_loop junk (Z.to_nat k) ip o 0 k) (λ _, True))
    by (intros; eapply holds_mono; [apply holds_read_loop|done]).
  unfold inode_read. holds_auto.
Qed.
Hint Resolve holds_inode_read_any : holds.

Lemma holds_write_loop fuel ip off tot n src :
  holds nsafe (write_loop junk fuel ip off tot n src) (λ _, True).
Proof. revert off tot src. induction fuel as [|fuel IH]; intros off tot src; cbn [write_loop]; holds_auto. Qed.
Hint Resolve holds_write_loop : holds.

Lemma holds_inode_write ip src off n : holds nsafe (inode_write junk ip src off n) (λ _, True).
Proof. unfold inode_write. holds_auto. Qed.
Hint Resolve holds_inode_write : holds.

(** ** Directories *)

Lemma holds_read_de dp off msg : holds nsafe (read_de junk dp off msg) (λ _, True).
Proof. unfold read_de. holds_auto. Qed.
Hint Resolve holds_read_de : holds.

Lemma holds_lookup_scan fuel dp name off : holds nsafe (lookup_scan junk fuel dp name off) (λ _, True).
Proof. revert off. induction fuel as [|fuel IH]; intros off; cbn [lookup_scan]; holds_auto. Qed.
Hint Resolve holds_lookup_scan : holds.

Lemma holds_dir_lookup dp name : holds nsafe (dir_lookup junk dp name) (λ _, True).
Proof. unfold dir_lookup. holds_auto. Qed.

Lemma holds_free_scan fuel dp off : holds nsafe (free_scan junk fuel dp off) (λ _, True).
Proof. revert off. induction fuel as [|fuel IH]; intros off; cbn [free_scan]; holds_auto. Qed.
Hint Resolve holds_dir_lookup holds_free_scan : holds.

Lemma holds_dir_link dp name inum : holds nsafe (dir_link ip_addr junk dp name inum) (λ _, True).
Proof. unfold dir_link. holds_auto. Qed.

Lemma holds_threads {A} (m : M thr A) P : holds (tsafe m0 K U) m P → holds nsafe (threads m) P.
Proof.
  intros Hm. unfold threads. apply holds_cached. eapply holds_lift; [apply _|]. by apply holds_in_thr.
Qed.
Hint Resolve holds_dir_link holds_threads : holds.

Lemma holds_namex_loop fuel ip path name np : holds nsafe (namex_loop ip_addr junk fuel ip path name np) (λ _, True).
Proof.
  revert ip path name. induction fuel as [|fuel IH]; intros ip path name; cbn [namex_loop]; holds_auto.
Qed.
Hint Resolve holds_namex_loop : holds.

Lemma holds_namex path np name : holds nsafe (namex ip_addr junk path np name) (λ _, True).
Proof. unfold namex, tcb_get_cwd. holds_auto. Qed.
Hint Resolve holds_namex : holds.

Lemma holds_namei path : holds nsafe (namei ip_addr junk path) (λ _, True).
Proof. unfold namei. holds_auto. Qed.

Lemma holds_nameiparent path : holds nsafe (nameiparent ip_addr junk path) (λ _, True).
Proof. unfold nameiparent. holds_auto. Qed.
Hint Resolve holds_namei holds_nameiparent : holds.

Lemma holds_empty_scan fuel dp off : holds nsafe (empty_scan junk fuel dp off) (λ _, True).
Proof. revert off. induction fuel as [|fuel IH]; intros off; cbn [empty_scan]; holds_auto. Qed.
Hint Resolve holds_empty_scan : holds.

Lemma holds_isdirempty dp : holds nsafe (isdirempty junk dp) (λ _, True).
Proof. unfold isdirempty. holds_auto. Qed.

Lemma holds_create path type major minor : holds nsafe (create junk path type major minor) (λ _, True).
Proof. unfold create, create_new. holds_auto. Qed.
Hint Resolve holds_isdirempty holds_create : holds.

(** ** Open files *)

Lemma holds_in_ino {A} (m : M ino A) P : holds nsafe m P → holds fsafe (in_ino m) P.
Proof. apply holds_lift, _. Qed.
Lemma holds_in_log {A} (m : M lgs A) P : holds gsafe m P → holds fsafe (in_log m) P.
Proof. intros Hm. by apply holds_in_ino, holds_logged_call. Qed.
Lemma holds_f_thr {A} (m : M thr A) P : holds (tsafe m0 K U) m P → holds fsafe (in_thr m) P.
Proof. intros Hm. by apply holds_in_ino, holds_threads. Qed.
Lemma holds_f_vm {A} (m : M vm A) P : holds (vkept m0) m P → holds fsafe (in_vm m) P.
Proof. intros Hm. apply holds_f_thr. by eapply holds_lift; [apply _|]. Qed.
Hint Resolve holds_in_ino holds_in_log holds_f_thr holds_f_vm : holds.

Lemma holds_fp_get {A} (g : file → A) f (P : A → Prop) :
  (∀ x, 0 ≤ f_off x → P (g x)) → holds fsafe (fp_get g f) P.
Proof.
  intros Hg. unfold fp_get. apply (holds_bind _ _ _ (λ _, True)); [holds_auto|]. intros _ _.
  apply holds_gets. intros s [_ Hs]. by apply Hg, Hs.
Qed.

Lemma holds_fp_upd f g : (∀ x, 0 ≤ f_off x → 0 ≤ f_off (g x)) → holds fsafe (fp_upd f g) (λ _, True).
Proof.
  intros Hg. unfold fp_upd. holds_auto. apply holds_modify. intros s [H1 H2]. split; [done|].
  intros i. cbn. rewrite aget_insert. case_decide; [by apply Hg, H2|apply H2].
Qed.

Lemma holds_fp_id f : holds fsafe (fp_get id f) (λ x, 0 ≤ f_off x).
Proof. by apply holds_fp_get. Qed.
Lemma holds_fp_field {A} (g : file → A) f : holds fsafe (fp_get g f) (λ _, True).
Proof. by apply holds_fp_get. Qed.
Lemma holds_f_ref f v : holds fsafe (fp_upd f (set_f_ref v)) (λ _, True).
Proof. by apply holds_fp_upd. Qed.
Lemma holds_f_closed f : holds fsafe (fp_upd f set_f_closed) (λ _, True).
Proof. by apply holds_fp_upd. Qed.
Lemma holds_f_open f ip r w : holds fsafe (fp_upd f (set_f_open ip r w)) (λ _, True).
Proof. by apply holds_fp_upd. Qed.
Lemma holds_f_off f v : holds fsafe (fp_upd f (set_f_off (u32 v))) (λ _, True).
Proof. apply holds_fp_upd. intros x _. apply u32_range. Qed.
Hint Resolve holds_fp_id holds_f_ref holds_f_closed holds_f_open holds_f_off | 0 : holds.
Hint Resolve holds_fp_field | 5 : holds.

Lemma holds_file_alloc : holds fsafe file_alloc (λ _, True).
Proof. unfold file_alloc. holds_auto. Qed.

Lemma holds_file_close f : holds fsafe (file_close f) (λ _, True).
Proof. unfold file_close. holds_auto. Qed.

Lemma holds_file_stat f : holds fsafe (file_stat_of f) (λ r, is_u32 (u32 r.1)).
Proof. unfold file_stat_of. holds_auto; apply u32_range. Qed.

Lemma holds_file_read f n :
  0 ≤ n ≤ KERN_BUF_SIZE →
  holds fsafe (file_read junk f n) (λ r, Z.of_nat (length r.2) ≤ n ∧ r.1 ≤ n).
Proof.
  intros Hn. unfold KERN_BUF_SIZE in Hn. unfold file_read. eapply holds_bind; [apply holds_fp_id|]. intros ff Hff.
  apply holds_if; intros _; [apply holds_ret; cbn; lia|].
  apply holds_if; intros _; [|done]. rewrite u32_small by (unfold is_u32, two32; lia).
  eapply holds_bind; [holds_hint|]. intros _ _.
  eapply holds_bind; [apply holds_in_ino, holds_inode_read; [lia|done]|]. intros r [Hr1 Hr2].
  apply (holds_bind _ _ _ (λ _, True)); [holds_auto|]. intros _ _.
  eapply holds_bind; [holds_hint|]. intros _ _. apply holds_ret. lia.
Qed.

Lemma holds_file_write_loop fuel f i n bs : holds fsafe (file_write_loop junk fuel f i n bs) (λ _, True).
Proof. revert i. induction fuel as [|fuel IH]; intros i; cbn [file_write_loop]; holds_auto. Qed.
Hint Resolve holds_file_alloc holds_file_close holds_file_stat holds_file_write_loop : holds.

Lemma holds_file_write f bs n : holds fsafe (file_write junk f bs n) (λ _, True).
Proof. unfold file_write. holds_auto. Qed.

Lemma holds_fdalloc f : holds fsafe (fdalloc f) (λ _, True).
Proof. unfold fdalloc. holds_auto. Qed.

Lemma holds_no_file fp : holds fsafe (no_file fp) (λ _, True).
Proof. unfold no_file. holds_auto. Qed.
Hint Resolve holds_file_write holds_fdalloc holds_no_file : holds.

(** ** Calls *)

(** The bounce buffer and the path buffers are no images. *)
Class FsBuffers : Prop := {
  kern_buf_apart x : image x → ¬ (kern_buf ≤ x < kern_buf + KERN_BUF_SIZE);
  path_apart v pid x : 0 ≤ pid < NUM_IDS → image x → ¬ (path_addr v pid ≤ x < path_addr v pid + 128)
}.
Context {FB : FsBuffers}.

Lemma buffer_of_kern_buf n : 0 ≤ n ≤ KERN_BUF_SIZE → buffer kern_buf n.
Proof.
  intros Hn. apply (buffer_le _ KERN_BUF_SIZE); [done|]. split; [apply kern_buf_ok|apply kern_buf_apart].
Qed.

Lemma buffer_path v pid n : user_pid pid → 0 ≤ n ≤ 128 → buffer (path_addr v pid) n.
Proof.
  unfold user_pid. intros Hp Hn. apply (buffer_le _ 128); [done|]. assert (0 ≤ pid < NUM_IDS) by lia.
  split; [by apply path_ok|]. intros x. by apply path_apart.
Qed.

Lemma path_cut_range len : is_u32 len → 0 ≤ path_cut len ≤ 127.
Proof. unfold path_cut, is_u32. intros. case_match; lia. Qed.

Lemma holds_f_curid : holds fsafe (in_thr get_curid) user_pid.
Proof. apply holds_f_thr. eapply holds_mono; [apply holds_get_curid|done]. Qed.
Hint Resolve holds_f_curid | 0 : holds.

Lemma holds_path_in var uva len : is_u32 uva → is_u32 len → holds fsafe (path_in var uva len) (λ _, True).
Proof.
  intros Hu Hl. pose proof (path_cut_range _ Hl). unfold path_in. eapply holds_bind; [holds_hint|]. intros pid Hp.
  apply (holds_bind _ _ _ (λ _, True)); [|by intros; apply holds_ret].
  apply holds_f_vm, kept_pt_copyin; [done|lia|apply buffer_path; [done|lia]].
Qed.

Lemma holds_path_end var len : is_u32 len → holds fsafe (path_end var len) (λ _, True).
Proof.
  intros Hl. pose proof (path_cut_range _ Hl). unfold path_end. eapply holds_bind; [holds_hint|]. intros pid Hp.
  apply (holds_bind _ _ _ (λ _, True)); [|intros; by apply holds_f_vm, holds_gets].
  apply holds_f_vm. apply (kept_place _ (path_addr var pid + path_cut len) [NUL]).
  destruct (buffer_path var pid 128 Hp) as [[Hk1 Hk2] Ha]; [lia|]. cbn [length]. split; [split|].
  - destruct (Hk2 (path_cut len)) as [Hk _]; lia.
  - intros k Hk. replace (_ + k) with (path_addr var pid + (path_cut len + k)) by lia. apply Hk2. lia.
  - intros x Hx Hr. cbn in Hr. eapply Ha; [done|]. lia.
Qed.
Hint Resolve holds_path_in holds_path_end : holds.

Lemma holds_copy_path var uva len : is_u32 uva → is_u32 len → holds fsafe (copy_path var uva len) (λ _, True).
Proof. intros. unfold copy_path. holds_auto. Qed.
Hint Resolve holds_copy_path : holds.

Lemma returns_result t e v : tf_ok t → is_u32 e → returns t (sys_result t e v).
Proof. intros. unfold sys_result. auto with holds nocore. Qed.
Hint Resolve returns_result : holds.

Lemma holds_sys_read t : tf_ok t → holds fsafe (sys_read junk t) (returns t).
Proof.
  intros Ht. unfold sys_read. eapply holds_bind; [holds_hint|]. intros pid Hp.
  eapply holds_bind; [holds_hint|]. intros _ _. cbv zeta.
  apply (holds_bind _ _ _ (returns t)); [|intros r Hr; by holds_auto].
  apply holds_if; intros _; [apply holds_ret; auto with holds nocore|].
  apply holds_if; intros Hb; [apply holds_ret; auto with holds nocore|].
  eapply holds_bind; [apply holds_f_thr; holds_hint|]. intros fp _.
  eapply holds_bind; [holds_hint|]. intros no _.
  apply holds_if; intros _; [apply holds_ret; auto with holds nocore|].
  destruct (tf_general t Ht) as (Hedi & Hesi & Hebp & Hoesp & Hebx & Hedx & Hecx & Heax).
  unfold bad_range in Hb. apply orb_false_iff in Hb as [_ Hb%Z.ltb_ge].
  assert (0 ≤ syscall_get_arg4 t ≤ KERN_BUF_SIZE) as Hn by (unfold syscall_get_arg4, is_u32 in *; lia).
  eapply holds_bind; [by apply holds_file_read|]. intros [n bs] [Hl Hr]. cbn [fst snd] in Hl, Hr |- *.
  eapply holds_bind; [apply holds_f_vm, kept_place, buffer_of_kern_buf; lia|]. intros _ _.
  apply (holds_bind _ _ _ (λ _, True)); [|intros; apply holds_ret; auto with holds nocore].
  apply holds_if; intros Hpos; [apply Z.ltb_lt in Hpos|by apply holds_ret].
  eapply holds_bind; [|by intros; apply holds_ret].
  destruct kern_buf_ok as [Hk _]. unfold KERN_BUF_SIZE, VM_USERLO, VM_USERHI in *.
  apply holds_f_vm, kept_pt_copyout; [done|done|unfold KERNEL_LOW; lia|lia|unfold VM_USERHI; lia].
Qed.

Lemma holds_sys_write t : tf_ok t → holds fsafe (sys_write junk t) (returns t).
Proof.
  intros Ht. unfold sys_write. eapply holds_bind; [holds_hint|]. intros pid Hp.
  eapply holds_bind; [holds_hint|]. intros _ _. cbv zeta.
  apply (holds_bind _ _ _ (returns t)); [|intros r Hr; by holds_auto].
  apply holds_if; intros _; [apply holds_ret; auto with holds nocore|].
  apply holds_if; intros Hb; [apply holds_ret; auto with holds nocore|].
  eapply holds_bind; [apply holds_f_thr; holds_hint|]. intros fp _.
  eapply holds_bind; [holds_hint|]. intros no _.
  apply holds_if; intros _; [apply holds_ret; auto with holds nocore|].
  destruct (tf_general t Ht) as (Hedi & Hesi & Hebp & Hoesp & Hebx & Hedx & Hecx & Heax).
  unfold bad_range in Hb. apply orb_false_iff in Hb as [_ Hb%Z.ltb_ge].
  assert (0 ≤ syscall_get_arg4 t ≤ KERN_BUF_SIZE) as Hn by (unfold syscall_get_arg4, is_u32 in *; lia).
  eapply holds_bind; [apply holds_f_vm, kept_pt_copyin; [done|lia|by apply buffer_of_kern_buf]|]. intros _ _.
  eapply holds_bind; [by apply holds_f_vm, (holds_gets _ _ (λ _, True))|]. intros bs _.
  eapply holds_bind; [holds_hint|]. intros r _. apply holds_ret; auto with holds nocore.
Qed.

Lemma holds_sys_close t : tf_ok t → holds fsafe (sys_close t) (returns t).
Proof. intros Ht. unfold sys_close. holds_auto; auto with holds nocore. Qed.

Lemma holds_sys_fstat t : tf_ok t → holds fsafe (sys_fstat t) (returns t).
Proof.
  intros Ht. pose proof (tf_general t Ht) as Hg. unfold sys_fstat. cbv zeta. eapply holds_bind; [holds_hint|]. intros pid Hp.
  apply holds_if; intros _; [apply holds_ret; auto with holds nocore|].
  eapply holds_bind; [apply holds_f_thr; holds_hint|]. intros fp _.
  apply holds_if; intros _; [apply holds_ret; auto with holds nocore|].
  eapply holds_bind; [apply holds_f_vm, kept_pt_copyin; [apply Hg|lia|]|]; [by apply local_buffer|].
  intros _ _. eapply holds_bind; [holds_hint|]. intros r _. apply holds_ret. case_match; auto with holds nocore.
Qed.

Lemma holds_link_bad t ip : tf_ok t → holds fsafe (link_bad t ip) (returns t).
Proof. intros Ht. unfold link_bad. holds_auto. auto with holds nocore. Qed.
Hint Resolve holds_link_bad : holds.

Lemma holds_sys_link t : tf_ok t → holds fsafe (sys_link junk t) (returns t).
Proof.
  intros Ht. destruct (tf_general t Ht) as (Hedi & Hesi & Hebp & Hoesp & Hebx & Hedx & Hecx & Heax).
  unfold sys_link. holds_auto; auto with holds nocore.
Qed.

Lemma holds_unlink_bad t dp : tf_ok t → holds fsafe (unlink_bad t dp) (returns t).
Proof. intros Ht. unfold unlink_bad. holds_auto. auto with holds nocore. Qed.

Lemma holds_unlink_entry t dp ip off : tf_ok t → holds fsafe (unlink_entry junk t dp ip off) (returns t).
Proof. intros Ht. unfold unlink_entry. holds_auto. auto with holds nocore. Qed.
Hint Resolve holds_unlink_bad holds_unlink_entry : holds.

Lemma holds_sys_unlink t : tf_ok t → holds fsafe (sys_unlink junk t) (returns t).
Proof.
  intros Ht. destruct (tf_general t Ht) as (Hedi & Hesi & Hebp & Hoesp & Hebx & Hedx & Hecx & Heax).
  unfold sys_unlink. holds_auto; auto with holds nocore.
Qed.

Definition opened (o : Z + Z) : Prop := match o with inr e => is_u32 e | inl _ => True end.

Lemma holds_open_inode path omode : holds fsafe (open_inode junk path omode) opened.
Proof. unfold open_inode. holds_auto; try destruct (_ =? 0); by vm_compute. Qed.
Hint Resolve holds_open_inode : holds.

Lemma holds_sys_open t : tf_ok t → holds fsafe (sys_open junk t) (returns t).
Proof.
  intros Ht. destruct (tf_general t Ht) as (Hedi & Hesi & Hebp & Hoesp & Hebx & Hedx & Hecx & Heax).
  unfold sys_open. holds_auto; auto with holds nocore.
Qed.

Lemma holds_sys_mkdir t : tf_ok t → holds fsafe (sys_mkdir junk t) (returns t).
Proof.
  intros Ht. destruct (tf_general t Ht) as (Hedi & Hesi & Hebp & Hoesp & Hebx & Hedx & Hecx & Heax).
  unfold sys_mkdir. holds_auto; auto with holds nocore.
Qed.

Lemma holds_sys_chdir t : tf_ok t → holds fsafe (sys_chdir junk t) (returns t).
Proof.
  intros Ht. destruct (tf_general t Ht) as (Hedi & Hesi & Hebp & Hoesp & Hebx & Hedx & Hecx & Heax).
  unfold sys_chdir, tcb_get_cwd. holds_auto; auto with holds nocore.
Qed.
End Blocks.

#[export] Hint Resolve holds_fp_field holds_ip_get holds_cached holds_ide_intr holds_in_ino holds_f_thr holds_f_vm holds_no_file holds_sys_read holds_sys_write
  holds_sys_close holds_sys_fstat holds_sys_link holds_sys_unlink holds_sys_open holds_sys_mkdir
  holds_sys_chdir returns_result : holds.
