(* ===== verification/ConfineKern.v ===== *)
(** * Traps and system calls keep page tables in order

    The invariant of files Confine, ConfineThr and ConfineFs for the whole kernel:
    every trap keeps it, the page faults and the system calls but five included,
    whatever other threads do while it is suspended, and returns to the process that
    trapped with registers that are words and with its segments and flags. *)

From S2P Require Import Prelude Memory Strings Resume Spinlock PhysMap Pmm Container PageTable Isolation.
From S2P Require Import UserCopy Tcb TQueue Thread Signal Ipc Bufcache Log Block Inode Dir File Console.
From S2P Require Import Printf TrapNumbers Proc CallNumbers Syscall Trap Holds Confine ConfineThr ConfineFs.

(** The selectors of user mode, and interrupts on. *)
Record user_mode (t : tf_t) : Prop := {
  um_words : tf_ok t;
  um_cs : cs t = Z.lor CPU_GDT_UCODE 3;
  um_ss : ss t = Z.lor CPU_GDT_UDATA 3;
  um_if : Z.testbit (eflags t) 9 = true
}.

(** ** Programs

    The program images are parts of the kernel; their headers and what their
    segments ask for are taken to be as the linker leaves them. *)

Section Programs.
Context `{LN : Lenient} `{F : Frames} {IM : Images (L:=L)} (m0 : mem).

Record segment_ok (exe : Z) (h : proghdr) : Prop := {
  so_user : VM_USERLO ≤ p_va h ∧ p_va h + p_memsz h ≤ VM_USERHI;
  so_file : 0 ≤ exe + p_offset h ∧ exe + p_offset h + p_memsz h + 8192 ≤ VM_USERHI
}.

(** Where the program headers of the image at [exe] begin. *)
Definition phdrs (exe : Z) : Z := u32 (exe + e_phoff m0 exe).

Record program_ok (exe : Z) : Prop := {
  po_range : 0 ≤ exe;
  po_head x : exe ≤ x < exe + 52 → image x;
  po_phdr x : phdrs exe ≤ x < phdrs exe + PROGHDR_SIZE * e_phnum m0 exe → image x;
  po_segment i : 0 ≤ i < e_phnum m0 exe → let h := read_proghdr m0 (phdrs exe + PROGHDR_SIZE * i) in
    p_type h = ELF_PROG_LOAD → segment_ok exe h
}.

Lemma rounddown_eq a : is_u32 a → rounddown a PAGESIZE = a / 4096 * 4096.
Proof.
  unfold rounddown, PAGESIZE, is_u32, two32. intros Ha. rewrite u32_small.
  - Z.to_euclidean_division_equations. lia.
  - unfold is_u32, two32. Z.to_euclidean_division_equations. lia.
Qed.

Lemma holds_load_page pid perm zva filesz va fa :
  user_pid pid → 0 ≤ perm < 4096 → is_u32 zva → VM_USERLO ≤ va → va + 4096 ≤ VM_USERHI → va mod 4096 = 0 →
  0 ≤ fa → fa + 4096 ≤ VM_USERHI →
  holds (vkept m0) (load_page pid perm zva filesz va fa) (λ _, True).
Proof.
  intros Hp Hperm Hz Hlo Hhi Ha Hf Hf'. unfold load_page.
  assert (is_u32 va) by (unfold is_u32, two32, VM_USERLO, VM_USERHI in *; lia).
  eapply holds_bind; [apply kept_alloc_page; [done| |done]|].
  { unfold user_va. lia. }
  intros _ _. assert (in_user va PAGESIZE) as Hin by (unfold in_user, PAGESIZE; lia).
  rewrite rounddown_eq by done. apply holds_if; intros H1.
  { eapply holds_bind; [apply kept_pt_copyout|by intros; apply holds_ret]; unfold PAGESIZE, KERNEL_LOW; auto; lia. }
  apply Z.ltb_ge in H1. apply holds_if; intros H2.
  - apply andb_true_iff in H2 as [H2%Z.ltb_lt _].
    assert (0 ≤ zva - va ≤ 4096) by (Z.to_euclidean_division_equations; lia).
    eapply holds_bind; [by apply kept_pt_memset|]. intros _ _.
    eapply holds_bind; [apply kept_pt_copyout|by intros; apply holds_ret]; unfold KERNEL_LOW; auto; lia.
  - eapply holds_bind; [by apply kept_pt_memset|]. intros _ _. by apply holds_ret.
Qed.

Lemma holds_load_pages fuel pid perm zva eva filesz va fa :
  user_pid pid → 0 ≤ perm < 4096 → is_u32 zva → VM_USERLO ≤ va → eva ≤ VM_USERHI →
  va mod 4096 = 0 → eva mod 4096 = 0 → 0 ≤ fa → fa + (eva - va) ≤ VM_USERHI →
  eva - va ≤ 4096 * Z.of_nat fuel →
  holds (vkept m0) (load_pages fuel pid perm zva eva filesz va fa) (λ _, True).
Proof.
  intros Hp Hperm Hz. revert va fa.
  induction fuel as [|fuel IH]; intros va fa Hlo Hhi Ha He Hf Hf' Hfu; cbn [load_pages];
    apply holds_if; intros Hlt; try (by apply holds_ret); apply Z.ltb_lt in Hlt; [lia|]. assert (va + 4096 ≤ eva) by (Z.to_euclidean_division_equations; lia).
  eapply holds_bind; [apply holds_load_page; auto; lia|]. intros _ _. unfold PAGESIZE.
  rewrite !u32_small by (unfold is_u32, two32, VM_USERLO, VM_USERHI in *; lia).
  apply IH; auto; try lia. Z.to_euclidean_division_equations. lia.
Qed.

Lemma holds_load_segment exe pid h :
  user_pid pid → is_u32 (p_va h) → is_u32 (p_memsz h) → is_u32 (p_offset h) → 0 ≤ exe →
  (p_type h = ELF_PROG_LOAD → segment_ok exe h) → holds (vkept m0) (load_segment exe pid h) (λ _, True).
Proof.
  intros Hp Hva Hm Ho He Hok. unfold load_segment. apply holds_if; intros Ht; [by apply holds_ret|].
  apply negb_false_iff, Z.eqb_eq in Ht. destruct (Hok Ht) as [[Hlo Hhi] [Hf1 Hf2]]. cbv zeta.
  unfold roundup. rewrite !(rounddown_eq (p_va h)), (rounddown_eq (p_offset h)) by done.
  unfold VM_USERLO, VM_USERHI, is_u32, two32 in *.
  rewrite (u32_small (p_va h + p_memsz h)) by (unfold is_u32, two32; lia).
  rewrite rounddown_eq by apply u32_range. unfold PAGESIZE.
  rewrite (u32_small (_ + 4096 - 1)) by (unfold is_u32, two32; lia).
  rewrite (u32_small (exe + _)) by (unfold is_u32, two32; Z.to_euclidean_division_equations; lia).
  apply holds_load_pages; unfold VM_USERLO, VM_USERHI; auto; try (Z.to_euclidean_division_equations; lia).
  - case_match; by vm_compute.
  - apply u32_range.
Qed.

Lemma image_words s m a : vkept m0 s → (∀ x, a ≤ x < a + m → image x) →
  ∀ x, a ≤ x < a + m → read8 (v_mem s) x = read8 m0 x.
Proof. intros [[_ _ Him] _] Hi x Hx. by apply Him, Hi. Qed.

Lemma holds_load_segments n exe pid i :
  program_ok exe → user_pid pid → 0 ≤ i → i + Z.of_nat n = e_phnum m0 exe →
  holds (vkept m0) (load_segments n exe (phdrs exe + PROGHDR_SIZE * i) pid) (λ _, True).
Proof.
  intros [Hr Hh Hph Hseg] Hp. revert i. induction n as [|n IH]; intros i Hi Hn; cbn [load_segments]; [by apply holds_ret|].
  unfold PROGHDR_SIZE in *.
  apply (holds_bind _ _ _ (λ h, h = read_proghdr m0 (phdrs exe + 32 * i))).
  { apply holds_gets. intros s Hs. unfold read_proghdr.
    assert (∀ x, phdrs exe + 32 * i ≤ x < phdrs exe + 32 * i + 32 → read8 (v_mem s) x = read8 m0 x) as Hw
      by (apply (image_words s); [done|]; intros x Hx; apply Hph; lia).
    f_equal; apply read32_ext; intros; apply Hw; lia. }
  intros h ->. eapply holds_bind.
  { apply holds_load_segment; auto; try apply read32_range. apply Hseg. lia. }
  intros _ _. rewrite u32_small; [|].
  - replace (phdrs exe + 32 * i + 32) with (phdrs exe + 32 * (i + 1)) by lia. apply IH; lia.
  - assert (image (phdrs exe + 32 * i + 31)) as [[Hk _] _]%image_ok by (apply Hph; lia).
    unfold is_u32, two32, VM_USERLO in *. lia.
Qed.

Lemma holds_elf_load exe pid :
  program_ok exe → user_pid pid → holds (vkept m0) (elf_load exe pid) (λ _, True).
Proof.
  intros Hok Hp. unfold elf_load.
  apply (holds_bind _ _ _ (λ m, e_phoff m exe = e_phoff m0 exe ∧ e_phnum m exe = e_phnum m0 exe)).
  { apply holds_gets. intros s Hs.
    assert (∀ x, exe ≤ x < exe + 52 → read8 (v_mem s) x = read8 m0 x) as Hw
      by (apply (image_words s); [done|]; apply Hok).
    split; [apply read32_ext|unfold e_phnum, read16; rewrite !Hw by lia; done]. intros; apply Hw; lia. }
  intros m [E1 E2]. do 3 (eapply holds_bind; [apply holds_kassert|]; intros [] _; cbv zeta).
  rewrite E1, E2. fold (phdrs exe). rewrite <- (Z.add_0_r (phdrs exe)). rewrite <- (Z.mul_0_r PROGHDR_SIZE).
  apply holds_load_segments; [done|done|lia|]. unfold e_phnum, read16. pose proof (read8_range m0 (exe + 44)).
  pose proof (read8_range m0 (exe + 44 + 1)). lia.
Qed.

Lemma holds_elf_entry exe : holds (vkept m0) (elf_entry exe) is_u32.
Proof.
  unfold elf_entry. apply (holds_bind _ _ _ (λ _, True)); [by apply holds_gets|]. intros m _.
  eapply holds_bind; [apply holds_kassert|]. intros [] _. apply holds_ret, read32_range.
Qed.
End Programs.

Section Kernel.
Context `{LN : Lenient}.
Context `{IL : IpcLayout} {B : BufLayout (I:=IL)} {FL : FsLayout (B:=B)} {KL : KernLayout (FL:=FL)}.
Context {IM : Images (L:=L)} {TB : ThrBuffers (I:=IL) (IM:=IM)} {FB : FsBuffers (FL:=FL)} (m0 : mem).

(** The invariant: a process that was spawned has the registers of user mode to
    start with. *)
Record ksafe (K : gmap Z kctx) (U : Z → Prop) (s : kern) : Prop := {
  ks_fs : fsafe m0 K U (x_fs s);
  ks_traps n : TRAP_HANDLER s !! n = Some syscall_cb → n = T_SYSCALL;
  ks_words pid : tf_ok (aget (uctx_pool s) pid);
  ks_mode pid : spawned K pid → user_mode (aget (uctx_pool s) pid);
  ks_locks : unlocked (debug_lk s) ∧ unlocked (serial_lk s)
}.

#[export] Instance inv_x_fs K U : InvLens l_x_fs (ksafe K U) (fsafe m0 K U).
Proof. split; [by intros s []|]. intros s f [] Hf. by split. Qed.

#[export] Instance inv_x_ipc K U : InvLens l_x_ipc (ksafe K U) (isafe m0 K U).
Proof. unfold l_x_ipc, lens_comp. apply _. Qed.

#[export] Instance inv_x_thr K U : InvLens l_x_thr (ksafe K U) (tsafe m0 K U).
Proof. unfold l_x_thr, lens_comp. apply _. Qed.

#[export] Instance inv_x_vm K U : InvLens l_x_vm (ksafe K U) (vkept m0).
Proof. unfold l_x_vm, lens_comp. apply _. Qed.

(** The invariants while [c] is current. *)
Definition cksafe (c : Z) (K : gmap Z kctx) : kern → Prop := ksafe K (only K c).
Definition cfsafe (c : Z) (K : gmap Z kctx) : fsys → Prop := fsafe m0 K (only K c).
Definition cosafe (c : Z) (K : gmap Z kctx) : bio → Prop := osafe m0 K (only K c).
Definition cgsafe (c : Z) (K : gmap Z kctx) : lgs → Prop := gsafe m0 K (only K c).
Definition cnsafe (c : Z) (K : gmap Z kctx) : ino → Prop := nsafe m0 K (only K c).

#[export] Instance fam_x_fs : FamLens l_x_fs cksafe cfsafe.
Proof. split; [by intros c K s []|]. intros c c' K s f [] Hf. by split. Qed.
#[export] Instance fam_f_ino : FamLens l_f_ino cfsafe cnsafe.
Proof. split; [by intros c K s []|by intros c c' K s f []]. Qed.
#[export] Instance fam_n_lgs : FamLens l_n_lgs cnsafe cgsafe.
Proof. by split. Qed.
#[export] Instance fam_g_bio : FamLens l_g_bio cgsafe cosafe.
Proof. by split. Qed.
#[export] Instance fam_o_ipc : FamLens l_o_ipc cosafe (wsafe m0).
Proof. by split. Qed.
#[export] Instance fam_x_ipc : FamLens l_x_ipc cksafe (wsafe m0).
Proof. unfold l_x_ipc, lens_comp. apply _. Qed.
#[export] Instance fam_x_thr : FamLens l_x_thr cksafe (psafe m0).
Proof. unfold l_x_thr, lens_comp. apply _. Qed.

(** The buffers of the calls are kernel memory and no images, and the programs are
    as they should be. *)
Class KernBuffers : Prop := {
  start_addr : proc_start_user_addr ≠ 0;
  sys_buf_ok pid : user_pid pid → buffer (sys_buf pid) PAGESIZE;
  linebuf_ok : buffer linebuf_addr BUFLEN;
  programs_ok k : 0 ≤ k ≤ 8 → program_ok m0 (elf_image k)
}.
Context {KB : KernBuffers}.

Section Calls.
Context (K : gmap Z kctx) (U : Z → Prop) (HU : ∀ x, U x → user_pid x).
Local Abbreviation ksafe := (ksafe K U).
Hint Resolve HU : holds.

Lemma holds_in_fs {A} (m : M fsys A) P : holds (fsafe m0 K U) m P → holds ksafe (in_fs m) P.
Proof. apply holds_lift, _. Qed.
Lemma holds_with_ino {A} (m : M ino A) P : holds (nsafe m0 K U) m P → holds ksafe (with_ino m) P.
Proof. intros Hm. by apply holds_in_fs, holds_in_ino. Qed.
Lemma holds_with_thr {A} (m : M thr A) P : holds (tsafe m0 K U) m P → holds ksafe (with_thr m) P.
Proof. apply holds_lift, _. Qed.
Lemma holds_with_vm {A} (m : M vm A) P : holds (vkept m0) m P → holds ksafe (with_vm m) P.
Proof. apply holds_lift, _. Qed.
Hint Resolve holds_in_fs holds_with_ino holds_with_thr holds_with_vm : holds.

Lemma quiet_cons_putc c : quiet (cons_putc c).
Proof.
  assert (quiet crt_scroll) as H1 by (unfold quiet, crt_scroll; holds_auto).
  assert (∀ c, quiet (video_char c)) as H2
    by (intros ch; unfold quiet, video_char, crt_move, crt_put in *; holds_auto).
  assert (quiet (serial_putc c)) as H3
    by (unfold quiet, serial_putc, serial_reformatnewline, com_send; holds_auto).
  assert (quiet (video_putc c)) as H4 by (unfold quiet, video_putc in *; holds_auto).
  unfold cons_putc. eapply holds_bind; [apply H3|]. intros _ _. by apply quiet_lift.
Qed.

Lemma quiet_cons_puts cs : quiet (cons_puts cs).
Proof.
  induction cs as [|c cs IH]; [by apply holds_ret|]. cbn [cons_puts].
  eapply holds_bind; [apply quiet_cons_putc|]. by intros _ _.
Qed.
Hint Resolve quiet_cons_puts : holds.

(** The console is apart from the invariant. *)
Lemma holds_con {A} (m : M con A) : quiet m → holds ksafe (lift l_x_con m) (λ _, True).
Proof. apply holds_aside. split; [done|]. intros s c [] _. by split. Qed.
Hint Resolve holds_con : holds.

(** Both locks of the messages are free before and after one. *)
Lemma holds_debug_info s : holds ksafe (debug_info s) (λ _, True).
Proof.
  intros k Hk. pose proof (ks_locks _ _ _ Hk) as [Hd Hl]. unfold debug_info, vdprintf. apply wpe_bind, wpe_wp.
  apply wp_lift, wp_spinlock_acquire; [done|]. apply wpe_bind, wpe_bind, wpe_wp, wp_lift, wp_spinlock_acquire; [done|].
  destruct (vprintfmt _ _ _ _) as [cs|]; [|done]. apply wpe_bind.
  pose proof (quiet_cons_puts (putch [] cs) (lget l_x_con k) I) as Hp. unfold wpe, lift in *. cbn in *.
  destruct (cons_puts _ _) as [[[] c]|e]; [|done]. destruct Hk. by split.
Qed.

(** ** Segments *)

Lemma holds_kstack_switch pid : holds ksafe (kstack_switch pid) (λ _, True).
Proof.
  unfold kstack_switch. holds_auto. apply holds_aside; [|by apply holds_modify].
  split; [done|]. intros s k [] _. by split.
Qed.

Lemma holds_seg_init_proc i pid : holds ksafe (seg_init_proc i pid) (λ _, True).
Proof.
  unfold seg_init_proc. holds_auto. apply holds_aside; [|by apply holds_modify].
  split; [done|]. intros s k [] _. by split.
Qed.
Hint Resolve holds_debug_info holds_kstack_switch holds_seg_init_proc : holds.

(** ** Calls *)

Lemma holds_curid : holds ksafe (with_thr get_curid) user_pid.
Proof. apply holds_with_thr. eapply holds_mono; [apply holds_get_curid|done]. Qed.
Hint Resolve holds_curid | 0 : holds.

Lemma buffer_inside a n k : 0 ≤ k < n → buffer a n → buffer (a + k) 1.
Proof.
  intros Hk [[Ha Hb] Hi]. split; [split|].
  - destruct (Hb k) as [Hk' _]; lia.
  - intros j Hj. replace (a + k + j) with (a + (k + j)) by lia. apply Hb. lia.
  - intros x Hx Hr. eapply Hi; [done|]. lia.
Qed.

Lemma holds_store_byte a c : buffer a 1 → holds ksafe (store_byte a c) (λ _, True).
Proof. intros Hb. apply holds_with_vm. by apply (kept_place _ a [c]). Qed.

Lemma holds_puts_loop fuel cur pos remain :
  user_pid cur → is_u32 pos → 0 ≤ remain ≤ (PAGESIZE - 1) * Z.of_nat fuel → holds ksafe (puts_loop fuel cur pos remain) (λ _, True).
Proof.
  intros Hc. revert pos remain. pose proof (sys_buf_ok cur Hc) as Hb.
  induction fuel as [|fuel IH]; intros pos remain Hp Hr; cbn [puts_loop];
    (apply holds_if; intros E; [by apply holds_ret|]); apply Z.eqb_neq in E; [lia|]. cbv zeta.
  set (n := if remain <? PAGESIZE - 1 then remain else PAGESIZE - 1).
  assert (0 ≤ n < PAGESIZE ∧ n ≤ remain ∧ remain - n ≤ (PAGESIZE - 1) * Z.of_nat fuel) as (Hn & Hn' & Hn'').
  { unfold n, PAGESIZE in *. destruct (Z.ltb_spec remain (4096 - 1)); lia. }
  eapply holds_bind.
  { apply holds_with_vm, kept_pt_copyin; [done|lia|]. eapply buffer_le; [|exact Hb]. lia. }
  intros r _. apply holds_if; intros _; [by apply holds_ret|].
  eapply holds_bind; [apply holds_store_byte; by eapply buffer_inside|]. intros _ _.
  apply (holds_bind _ _ _ (λ _, True)); [by apply holds_with_vm, holds_gets|]. intros l _.
  eapply holds_bind; [holds_hint|]. intros _ _. apply IH; [apply u32_range|unfold PAGESIZE in *; lia].
Qed.
Hint Resolve holds_puts_loop : holds.

Lemma holds_sys_puts t : tf_ok t → holds ksafe (sys_puts t) (returns t).
Proof.
  intros Ht. destruct (tf_general t Ht) as (Hedi & Hesi & Hebp & Hoesp & Hebx & Hedx & Hecx & Heax).
  unfold sys_puts. eapply holds_bind; [holds_hint|]. intros cur Hc. cbv zeta.
  apply holds_if; intros _; [apply holds_ret; auto with holds nocore|].
  eapply holds_bind; [apply holds_puts_loop; [done|done|]|].
  { unfold syscall_get_arg3, is_u32, PAGESIZE in *. rewrite Z2Nat.id; Z.to_euclidean_division_equations; lia. }
  intros ok _. apply holds_ret. destruct ok; auto with holds nocore.
Qed.

Lemma holds_sys_is_dir t : tf_ok t → holds ksafe (sys_is_dir t) (returns t).
Proof.
  intros Ht. unfold sys_is_dir. holds_auto; auto with holds nocore.
Qed.

Lemma holds_sys_rm t : tf_ok t → 0 ≤ s32 (syscall_get_arg3 t) → holds ksafe (sys_rm t) (returns t).
Proof.
  intros Ht Hl. destruct (tf_general t Ht) as (Hedi & Hesi & Hebp & Hoesp & Hebx & Hedx & Hecx & Heax).
  unfold sys_rm. cbv zeta. eapply holds_bind; [holds_hint|]. intros cur Hc.
  pose proof (sys_buf_ok cur Hc) as Hb.
  set (n := if s32 (syscall_get_arg3 t) <? PAGESIZE - 1 then _ else _).
  assert (0 ≤ n < PAGESIZE) as Hn.
  { unfold n, PAGESIZE. destruct (Z.ltb_spec (s32 (syscall_get_arg3 t)) (4096 - 1)); lia. }
  rewrite u32_small by (unfold is_u32, two32, PAGESIZE in *; lia). eapply holds_bind.
  { apply holds_with_vm, kept_pt_copyin; [done|lia|]. eapply buffer_le; [|exact Hb]. lia. }
  intros _ _. eapply holds_bind; [apply holds_store_byte; by eapply buffer_inside|]. intros _ _.
  apply holds_ret. auto with holds nocore.
Qed.

Lemma holds_bad_callnr junk t : tf_ok t → holds ksafe (bad_callnr junk t) (returns t).
Proof.
  intros Ht. unfold bad_callnr. apply (holds_bind _ _ _ (λ _, True)).
  - apply holds_with_vm. apply vkept_of; [apply keeps_modify; by intros s id|].
    apply holds_modify. intros s Hs. apply (outer_write _ s _ 31 35); [done|unfold KERNEL_LOW; lia|].
    intros x Hx. rewrite read8_write32. by rewrite decide_False by lia.
  - intros _ _. apply holds_ret. auto with holds nocore.
Qed.
End Calls.

(** ** New processes *)

(** The invariant while process [pid] has no registers yet. *)
Record kbut (pid : Z) (K : gmap Z kctx) (U : Z → Prop) (s : kern) : Prop := {
  kb_fs : fsafe m0 K U (x_fs s);
  kb_traps n : TRAP_HANDLER s !! n = Some syscall_cb → n = T_SYSCALL;
  kb_words x : tf_ok (aget (uctx_pool s) x);
  kb_mode x : x ≠ pid → spawned K x → user_mode (aget (uctx_pool s) x);
  kb_locks : unlocked (debug_lk s) ∧ unlocked (serial_lk s)
}.

#[local] Instance inv_but pid K U : InvLens l_x_vm (kbut pid K U) (vkept m0).
Proof.
  unfold l_x_vm, l_x_thr, l_x_ipc, lens_comp. eapply (inv_comp (Lens _ _) _ _ (tsafe m0 K U)); [|apply _].
  eapply (inv_comp (Lens _ _) _ _ (isafe m0 K U)); [|apply _].
  eapply (inv_comp l_x_fs _ _ (fsafe m0 K U)); [|apply _].
  split; [by intros s []|]. intros s f [] Hf. by split.
Qed.

Lemma user_tf_mode entry t : is_u32 entry → tf_ok t → user_mode (user_tf entry t).
Proof. intros He [Hg Hs Ht Hu]. split; [|done|done|done]. split; cbn; [tauto|by vm_compute|tauto|by split_and!]. Qed.

Lemma wpe_proc_create K U exe q s :
  program_ok m0 exe → ksafe K U s →
  wpe tolerated (proc_create exe q) (λ pid s', ∃ K', ksafe K' U s' ∧ spawned K' pid
    ∧ ∀ x, spawned K x → spawned K' x) s.
Proof.
  intros Hprog Hs. unfold proc_create. apply wpe_bind.
  eapply wpe_mono; [by apply (holds_lift (ksafe K U) _ _ _ _ (inv_x_thr K U) (holds_get_curid m0 K U))|].
  intros id s1 [_ Hs1]. apply wpe_bind.
  pose proof (wpe_thread_spawn m0 U K kstack_hi proc_start_user_addr id q (lget l_x_thr s1) start_addr
    (il_get (InvLens:=inv_x_thr K U) _ Hs1)) as Hsp.
  unfold wpe in Hsp |- *. unfold lift at 1.
  destruct (thread_spawn _ _ _ _ _) as [[pid t]|e]; [|done].
  destruct Hsp as (K' & Ht & Hp & Hgrow & Honly).
  assert (kbut pid K' U (lset l_x_thr t s1)) as Hb.
  { destruct Hs1 as [[_ Ho] Htr Hw Hm Hlk]. split; [by split|done|done| |done]. intros x Hx Hsx. apply Hm.
    by destruct (Honly x Hsx). }
  revert Hb. generalize (lset l_x_thr t s1) as s2. intros s2 Hb.
  change (wpe tolerated (_ ← lift l_x_vm (elf_load exe pid); _ ← chk "uctx_pool" NUM_IDS pid;
    entry ← lift l_x_vm (elf_entry exe);
    _ ← lift l_uctx_pool (modify (λ u, <[pid := user_tf entry (aget u pid)]> u));
    _ ← seg_init_proc this_cpu pid; mret pid) (λ pid s', ∃ K', ksafe K' U s' ∧ spawned K' pid
    ∧ ∀ x, spawned K x → spawned K' x) s2).
  apply wpe_bind. eapply wpe_mono; [eapply holds_lift; [apply inv_but|apply holds_elf_load, Hp; done|done]|].
  intros _ s3 [_ Hs3]. apply wpe_bind. eapply wpe_mono; [by apply (holds_chk (kbut pid K' U))|].
  intros _ s4 [_ Hs4]. apply wpe_bind. eapply wpe_mono; [eapply holds_lift; [apply inv_but|apply holds_elf_entry|done]|].
  intros entry s5 [He [Hf Htr Hw Hm Hlk]]. apply wpe_bind. cbn [wpe lift modify].
  set (s6 := lset l_uctx_pool _ s5). assert (ksafe K' U s6) as Hs6.
  { split; [done|done|..|done]; intros x; cbn; rewrite aget_insert; case_decide; auto;
      intros; apply user_tf_mode; auto. }
  apply wpe_bind. eapply wpe_mono; [by apply (holds_seg_init_proc K' U)|]. intros _ s7 [_ Hs7]. by exists K'.
Qed.

Lemma ksafe_mono K U U' s : (∀ x, U x → U' x) → ksafe K U s → ksafe K U' s.
Proof.
  intros HU [[[] Ho] Htr Hw Hm]. split; [|done|done|done|done]. split; [|done]. split; auto.
Qed.

Lemma wpe_new_process c u exe q s :
  program_ok m0 exe → some cksafe c u s →
  wpe tolerated (proc_create exe q) (λ _ s', True ∧ some cksafe c u s') s.
Proof.
  intros Hprog [K Hs]. eapply wpe_mono; [by eapply wpe_proc_create|]. intros pid s' (K' & Hs' & _ & Hg).
  split; [done|]. exists K'. eapply ksafe_mono; [|exact Hs']. intros x [-> Hx]. split; [done|by apply Hg].
Qed.

Lemma holds_container_read {A} i (f : SContainer → A) :
  holds (vkept m0) (lift l_v_cont (c ← con_get i; mret (f c))) (λ _, True).
Proof.
  apply holds_run.
  - intros s a s' Hs. unfold lift, con_get, mbind, M_bind, chk.
    destruct (_ && _); [|done]. cbn. intros [= _ <-]. by destruct s.
  - intros s e Hs. unfold lift, con_get, mbind, M_bind, chk. destruct (_ && _); [done|]. by intros [= <-].
Qed.

Lemma holds_sys_spawn junk t c u : tf_ok t → holds (some cksafe c u) (sys_spawn junk t) (returns t).
Proof.
  intros Ht. unfold sys_spawn, container_can_consume, container_get_nchildren. cbv zeta.
  apply (holds_bind _ _ _ (λ _, True)); [by apply holds_some; intros K; apply holds_with_vm, holds_container_read|].
  intros q _. apply (holds_bind _ _ _ (λ _, True)); [by apply holds_some; intros K; apply holds_with_vm, holds_container_read|].
  intros nc _. apply (holds_bind _ _ _ (λ _, True)).
  { apply holds_some. intros K. apply holds_with_thr. eapply holds_mono; [apply holds_get_curid|done]. }
  intros cur _. do 3 (apply holds_if; intros _; [apply holds_ret; auto with holds nocore|]).
  apply holds_if; intros Hr; [|apply holds_ret; auto with holds nocore].
  apply andb_true_iff in Hr as [H1%Z.leb_le H2%Z.leb_le].
  apply (holds_bind _ _ _ (λ _, True)); [intros s Hs; apply wpe_new_process; [apply programs_ok; lia|done]|].
  intros pid _. apply holds_ret. case_match; auto with holds nocore.
Qed.

(** ** Calls that wait *)

Lemma kholds_in_ipc {A} c (m : KM ipc A) P : kholds (wsafe m0) c m P → kholds cksafe c (in_ipc m) P.
Proof. apply kholds_klift, _. Qed.
Lemma kholds_in_threads {A} c (m : KM thr A) P : kholds (psafe m0) c m P → kholds cksafe c (in_threads m) P.
Proof. apply kholds_klift, _. Qed.
Hint Resolve kholds_in_ipc kholds_in_threads : holds.

Section Waiting.
Context (HL : lenient).

Lemma quiet_con_lk {A} (m : M spinlock A) : quiet m → holds (λ _, True) (lift l_cons_lk m) (λ _, True).
Proof. apply quiet_lift. Qed.
Hint Resolve quiet_con_lk : holds.

Lemma quiet_cons_intr dev proc : quiet proc → quiet (cons_intr dev proc).
Proof.
  intros Hp. assert (∀ n, quiet (cons_intr_loop n proc)) as Hl.
  { induction n as [|n IH]; unfold quiet in *; cbn [cons_intr_loop]; holds_auto. }
  unfold cons_intr. eapply holds_bind; [holds_hint|]. intros _ _. eapply holds_bind; [by apply (holds_gets _ _ (λ _, True))|].
  intros n _. eapply holds_bind; [apply Hl|]. intros _ _. holds_hint.
Qed.

Lemma quiet_cons_getc : quiet cons_getc.
Proof.
  assert (quiet serial_proc_data) as H1 by (unfold quiet, serial_proc_data; holds_auto).
  assert (quiet kbd_proc_data) as H2 by (unfold quiet, kbd_proc_data; holds_auto).
  assert (quiet serial_intr) as H3.
  { unfold serial_intr. eapply holds_bind; [by apply (holds_gets _ _ (λ _, True))|]. intros [] _; [|by apply holds_ret].
    by apply quiet_cons_intr. }
  unfold cons_getc. eapply holds_bind; [apply H3|]. intros _ _. eapply holds_bind; [by apply quiet_cons_intr|]. intros _ _.
  eapply holds_bind; [holds_hint|]. intros _ _. unfold quiet. holds_auto.
Qed.

Lemma quiet_readline_char c i : quiet (readline_char c i).
Proof.
  assert (∀ ch, holds (λ _, True) (putchar ch) (λ _, True)) as H1 by (intros ch; apply quiet_cons_putc).
  assert (∀ cs, holds (λ _, True) (cons_puts cs) (λ _, True)) as H2 by (intros cs; apply quiet_cons_puts).
  unfold quiet, readline_char. holds_auto.
Qed.

Lemma kholds_getchar c fuel : kholds cksafe c (getchar l_x_thr l_x_con fuel) (λ _, True).
Proof.
  induction fuel as [|fuel IH]; cbn [getchar].
  - eapply kholds_bind; [apply kholds_run; intros K; apply holds_con, quiet_cons_getc|]. intros ch _. holds_auto.
  - eapply kholds_bind; [apply kholds_run; intros K; apply holds_con, quiet_cons_getc|]. intros ch _.
    apply kholds_if; intros _; [|by apply kholds_ret].
    eapply kholds_bind; [apply kholds_in_threads, kholds_thread_yield|]. by intros _ _.
Qed.

Lemma line_length s : Z.of_nat (length (line_bytes s)) = BUFLEN.
Proof. with_strategy transparent [line_bytes] unfold line_bytes. by rewrite length_fmap, length_seqZ. Qed.

(** The line that was read, as long as its buffer. *)
Definition a_line (r : option (list Z)) : Prop := ∀ l, r = Some l → Z.of_nat (length l) = BUFLEN.

Lemma kholds_readline c ps fuel prompt : kholds cksafe c (readline l_x_thr l_x_con ps fuel prompt) a_line.
Proof.
  unfold readline. eapply kholds_bind; [apply kholds_run; intros K; apply holds_con, quiet_cons_puts|]. intros _ _.
  generalize 0 as i. induction fuel as [|fuel IH]; intros i; cbn [readline_loop]; [by apply kholds_fail|].
  eapply kholds_bind; [apply kholds_getchar|]. intros ch _.
  eapply kholds_bind; [apply kholds_run; intros K; apply holds_con, quiet_readline_char|]. intros [[|]|j] _.
  - apply (kholds_bind _ _ _ _ (λ l, Z.of_nat (length l) = BUFLEN)).
    + apply kholds_run. intros K. eapply (holds_lift _ _ (λ _, True)).
      * split; [done|]. intros s x [] _. by split.
      * apply holds_gets. intros. apply line_length.
    + intros l Hl. apply kholds_ret. by intros ? [= <-].
  - apply kholds_ret. done.
  - apply IH.
Qed.

Lemma strnlen_range l n : 0 ≤ strnlen l n ≤ Z.of_nat n.
Proof.
  revert l. induction n as [|n IH]; intros l; cbn [strnlen]; [lia|]. specialize (IH (tl l)). case_match; lia.
Qed.

Lemma kholds_sys_readline c ps fuel t :
  tf_ok t → kholds cksafe c (sys_readline ps fuel t) (returns t).
Proof.
  intros Ht. destruct (tf_general t Ht) as (Hedi & Hesi & Hebp & Hoesp & Hebx & Hedx & Hecx & Heax).
  unfold sys_readline. eapply kholds_bind; [apply kholds_readline|]. intros r Hr. cbv zeta.
  apply (kholds_bind _ _ _ _ user_pid); [apply kholds_run; intros K; apply holds_curid, only_pid|]. intros cur Hc.
  destruct r as [line|].
  - specialize (Hr _ eq_refl). pose proof (strnlen_range line 1000) as Hn.
    eapply kholds_bind.
    { apply kholds_run. intros K. apply holds_with_vm, kept_place. rewrite Hr. apply linebuf_ok. }
    intros _ _. apply (kholds_bind _ _ _ _ (λ _, True)).
    { apply kholds_run. intros K. apply holds_with_vm. destruct linebuf_ok as [[Hb _] _].
      apply kept_pt_copyout; unfold KERNEL_LOW, VM_USERLO, VM_USERHI in *; auto; lia. }
    intros n _. apply kholds_if; intros _; [by apply kholds_fail|]. apply kholds_ret. auto with holds nocore.
  - eapply kholds_bind; [apply kholds_run; intros K; apply holds_with_thr; holds_hint|]. intros _ _.
    eapply kholds_bind.
    { apply kholds_run. intros K. apply holds_with_thr, holds_copyout_bytes; [done|done|cbn; lia|].
      by apply local_buffer. }
    intros _ _. apply kholds_ret. auto with holds nocore.
Qed.

End Waiting.

(** ** Dispatch

    The calls the invariant is not proved for: [sys_ls] writes a listing of any
    length into a page, [sys_pwd] has an array on the stack that is larger than the
    stack, [sys_produce] and [sys_consume] let interrupts into the kernel, which
    deliver the signals of the process there, and [sys_rm] with a negative length
    writes in front of its buffer. *)
Definition served (t : tf_t) : Prop :=
  syscall_get_arg1 t ≠ SYS_ls ∧ syscall_get_arg1 t ≠ SYS_pwd
  ∧ syscall_get_arg1 t ≠ SYS_produce ∧ syscall_get_arg1 t ≠ SYS_consume
  ∧ (syscall_get_arg1 t = SYS_rm → 0 ≤ s32 (syscall_get_arg3 t)).

Local Abbreviation running := (some cksafe).

(** The calls that wait for other processes or the keyboard, or use the file
    system: the bounds of their loops are not shown to be enough. *)
Definition slow (nr : Z) : bool :=
  bool_decide (nr ∈ [SYS_sync_send; SYS_sync_recv; SYS_touch; SYS_readline; SYS_open; SYS_close; SYS_read; SYS_write;
    SYS_mkdir; SYS_chdir; SYS_link; SYS_unlink; SYS_stat]).

Definition in_time (t : tf_t) : Prop := slow (syscall_get_arg1 t) = true → lenient.

(** The interrupt of the disk, whose handler waits for the disk. *)
Definition disk_irq (t : tf_t) : Prop := trapno t = T_IRQ0 + IRQ_IDE1.

Lemma kholds_call {A} c (m : M kern A) P : (∀ K, holds (cksafe c K) m P) → kholds running c (run m) P.
Proof. intros Hm. by apply kholds_some, kholds_run. Qed.

Lemma kholds_file_call c (m : M fsys tf_t) P :
  (∀ K U, (∀ x, U x → user_pid x) → holds (fsafe m0 K U) m P) → kholds running c (run (in_fs m)) P.
Proof. intros Hm. apply kholds_call. intros K. apply holds_in_fs, Hm, only_pid. Qed.

Lemma kholds_thread_call c (m : M thr tf_t) P :
  (∀ K U, (∀ x, U x → user_pid x) → holds (tsafe m0 K U) m P) → kholds running c (run (with_thr m)) P.
Proof. intros Hm. apply kholds_call. intros K. apply holds_with_thr, Hm, only_pid. Qed.

Lemma kholds_sys_yield c t : tf_ok t → kholds (psafe m0) c (sys_yield t) (returns t).
Proof. intros Ht. unfold sys_yield. holds_auto. auto with holds nocore. Qed.

Lemma kholds_syscall_dispatch junk w window c t :
  tf_ok t → served t → in_time t → kholds running c (syscall_dispatch junk w window t) (returns t).
Proof.
  intros Ht (Hls & Hpwd & Hpr & Hco & Hrm) Hin. unfold syscall_dispatch. cbv zeta.
  repeat first [apply kholds_if; [intros E|intros _] | progress cbn beta];
    try (apply kholds_ret; auto with holds nocore; done);
    try (assert lenient as HL by (apply Hin; apply Z.eqb_eq in E; by rewrite E));
    try (apply kholds_file_call; intros; auto with holds nocore; done);
    try (apply kholds_thread_call; intros; auto with holds nocore; done).
  - by apply kholds_some, kholds_in_ipc, kholds_sys_sync_send.
  - by apply kholds_some, kholds_in_ipc, kholds_sys_sync_recv.
  - apply kholds_call. intros K. by apply holds_sys_is_dir; [apply only_pid|].
  - by apply Z.eqb_eq in E.
  - by apply Z.eqb_eq in E.
  - apply Z.eqb_eq in E. apply kholds_call. intros K. apply holds_sys_rm; [apply only_pid|done|auto].
  - by apply kholds_some, kholds_sys_readline.
  - by apply kholds_some, kholds_sys_readline.
  - apply kholds_call. intros K. by apply holds_sys_puts; [apply only_pid|].
  - apply kholds_run. intros u. by apply holds_sys_spawn.
  - by apply kholds_some, kholds_in_threads, kholds_sys_yield.
  - by apply Z.eqb_eq in E.
  - by apply Z.eqb_eq in E.
  - apply kholds_thread_call. intros. by apply holds_sys_sigaction.
  - by apply kholds_some, kholds_in_threads, kholds_sys_pause.
  - apply kholds_thread_call. intros. by apply holds_sys_sigreturn.
  - apply kholds_call. intros K. by apply holds_bad_callnr.
Qed.

(** ** Traps *)

(** A fault the page tables have no page for is at a user address. *)
Definition fault_ok (cr2 : Z) (t : tf_t) : Prop :=
  trapno t = T_PGFLT → Z.land (err t) PFE_PR = 0 → VM_USERLO ≤ cr2 → cr2 < VM_USERHI.

Lemma holds_pgflt_handler K U cr2 t :
  (∀ x, U x → user_pid x) → (Z.land (err t) PFE_PR = 0 → VM_USERLO ≤ cr2 → cr2 < VM_USERHI) →
  holds (ksafe K U) (pgflt_handler cr2 t) (λ _, True).
Proof.
  intros HU Hf. unfold pgflt_handler. eapply holds_bind; [by apply holds_curid|]. intros cur Hc. cbv zeta.
  apply holds_if; intros E1; [apply holds_with_thr; holds_hint|].
  apply holds_if; intros E2; [done|]. apply negb_false_iff, Z.eqb_eq in E2.
  assert ((0 <? cur) = true) as Hpos by (apply Z.ltb_lt; unfold user_pid in Hc; lia).
  rewrite Hpos, E2 in E1. cbn in E1. apply Z.ltb_ge in E1.
  apply (holds_bind _ _ _ (λ _, True)); [|intros r _; by holds_auto].
  apply holds_with_vm, kept_alloc_page; [done| |by vm_compute]. split; [done|]. by apply Hf.
Qed.

Lemma holds_exception_handler K U cr2 t :
  (∀ x, U x → user_pid x) → fault_ok cr2 t → holds (ksafe K U) (exception_handler cr2 t) (λ _, True).
Proof.
  intros HU Hf. unfold exception_handler, default_exception_handler. eapply holds_bind; [by apply holds_curid|]. intros cur Hc.
  apply holds_if; intros E; [|by eapply holds_bind; [by apply holds_curid|]].
  apply holds_pgflt_handler; [done|]. apply Hf. by apply Z.eqb_eq.
Qed.

Lemma kholds_interrupt_handler c t : (disk_irq t → lenient) → kholds cksafe c (interrupt_handler t) (λ _, True).
Proof.
  intros Hd. unfold interrupt_handler. apply (kholds_bind _ _ _ _ (λ _, True)).
  { apply kholds_run. intros K. apply holds_with_thr. eapply holds_mono; [apply holds_get_curid|done]. }
  intros _ _. apply kholds_if; intros _; [by apply kholds_ret|].
  apply kholds_if; intros _; [apply kholds_in_threads, kholds_sched_update|].
  apply kholds_if; intros E; [|by apply kholds_ret]. apply Z.eqb_eq, Hd in E.
  apply kholds_run. intros K. by apply holds_with_ino, holds_cached, holds_ide_intr.
Qed.

Lemma kholds_call_handler junk w window c f cr2 t :
  tf_ok t → (f = syscall_cb → served t) → (f = syscall_cb → in_time t) → (disk_irq t → lenient) → fault_ok cr2 t →
  kholds running c (call_handler junk w window f cr2 t) (returns t).
Proof.
  intros Ht Hs Hi Hd Hf. destruct f; cbn [call_handler].
  - apply (kholds_bind _ _ _ _ (λ _, True)); [|intros; apply kholds_ret; auto with holds nocore].
    apply kholds_call. intros K. by apply holds_exception_handler; [apply only_pid|].
  - apply (kholds_bind _ _ _ _ (λ _, True)); [|intros; apply kholds_ret; auto with holds nocore].
    by apply kholds_some, kholds_interrupt_handler.
  - apply kholds_syscall_dispatch; auto.
Qed.

(** A trap of process [c] returns to [c], in its page structure. *)
Definition back_to (c : Z) (s : kern) : Prop := cr3 (lget l_x_vm s) = pdir_addr c 0.

Lemma kfine_base c u (t : tf_t) (P : tf_t → Prop) s :
  P t → running c u s →
  kfine running c (λ t' s', P t' ∧ back_to c s') u ((_ ← run (with_vm (set_pdir_base c)); mret t) s).
Proof.
  intros HP Hs. assert (kholds running c (run (with_vm (set_pdir_base c))) (λ _, True)) as Hk
    by (apply kholds_call; intros K; apply holds_with_vm, kept_set_pdir_base).
  specialize (Hk u s Hs). unfold mbind, KM_bind, run, with_vm, lift, set_pdir_base, M_bind, chk in *.
  destruct (_ && _); cbn in *; [|done]. split; [by split|]. apply Hk.
Qed.

Lemma trap_fine junk w c cr2 t u s :
  tf_ok t → (trapno t = T_SYSCALL → served t ∧ in_time t) → (disk_irq t → lenient) → fault_ok cr2 t →
  running c u s →
  kfine running c (λ t' s', returns t t' ∧ back_to c s') u (trap junk w cr2 t s).
Proof.
  intros Ht Hse Hd Hf Hs. unfold trap, trap_with.
  eapply (kfine_after _ _ _ _ (λ x, x = c)); [|done|].
  { apply kholds_call. intros K. apply holds_with_thr. eapply holds_mono; [apply holds_get_curid|]. by intros x []. }
  intros ? u1 s1 -> Hs1. eapply (kfine_after _ _ _ _ (λ _, True)); [|done|].
  { apply kholds_call. intros K. apply holds_with_vm, kept_set_pdir_base. }
  intros _ u2 s2 _ Hs2. eapply (kfine_after _ _ _ _ (λ _, True)); [|done|].
  { apply kholds_call. intros K. eapply holds_mono; [apply holds_chk|done]. }
  intros _ u3 s3 _ Hs3. eapply (kfine_after _ _ _ _ (λ f, f = Some syscall_cb → trapno t = T_SYSCALL)); [|done|].
  { apply kholds_call. intros K. apply holds_gets. intros s' Hs'. apply (ks_traps _ _ _ Hs'). }
  intros f u4 s4 Hc Hs4. eapply (kfine_after _ _ _ _ (returns t)); [|done|].
  { destruct f as [f|]; [apply kholds_call_handler; auto; intros ->; by apply Hse, Hc|]. apply kholds_ret. auto with holds nocore. }
  intros t1 u5 s5 Ht1 Hs5. eapply (kfine_after _ _ _ _ (λ _, True)); [|done|].
  { apply kholds_call. intros K. apply holds_kstack_switch. }
  intros _ u6 s6 _ Hs6. eapply (kfine_after _ _ _ _ (returns t1)); [|done|].
  { apply kholds_some, kholds_in_threads, kholds_handle_pending_signals, Ht1. }
  intros t2 u7 s7 Ht2 Hs7. apply kfine_base; [|done]. by eapply returns_trans.
Qed.

(** A new process starts in its page structure. *)
Lemma start_fine c u s :
  running c u s → kfine running c (λ t s', user_mode t ∧ back_to c s') u (run proc_start_user s).
Proof.
  intros [K Hs]. assert (holds (cksafe c K) (cur ← lift l_x_thr get_curid; _ ← kstack_switch cur;
    _ ← lift l_x_vm (set_pdir_base cur); mret cur) (λ x, x = c ∧ spawned K c)) as Hpre.
  { eapply holds_bind; [eapply holds_lift; [apply inv_x_thr|apply holds_get_curid]|]. intros cur Hc.
    eapply holds_bind; [apply holds_kstack_switch|]. intros _ _.
    eapply holds_bind; [apply holds_with_vm, kept_set_pdir_base|]. intros _ _. by apply holds_ret. }
  specialize (Hpre s Hs). unfold proc_start_user, run. unfold wpe, mbind, M_bind in *.
  destruct (lift l_x_thr get_curid s) as [[cur s1]|]; [|done].
  destruct (kstack_switch cur s1) as [[[] s2]|]; [|done].
  unfold lift, set_pdir_base, chk, mbind, M_bind in *. destruct ((0 <=? cur) && _); [|done].
  cbn in Hpre |- *. destruct Hpre as [[-> Hc] Hp]. split; [|by exists K].
  split; [by apply (ks_mode _ _ _ Hp)|done].
Qed.
End Kernel.
