(* ===== verification/System.v ===== *)
(** * The whole system

    From the state at boot, through every sequence of traps, thread switches, device
    input and stores and register changes of user programs: a process that runs is in
    user mode and in its own page structure, and reaches no memory of the kernel or
    of another process. *)

From S2P Require Import Prelude Memory Strings Resume Spinlock PhysMap Pmm Container PageTable Isolation.
From S2P Require Import UserCopy Tcb TQueue Thread Signal Ipc Bufcache Log Block Inode Dir File Console.
From S2P Require Import Printf TrapNumbers Proc CallNumbers Syscall Trap.
From S2P Require Import Holds Confine ConfineThr ConfineFs ConfineKern.

(** Code may hang, except where [no_slack] is used. *)
Definition slack : Lenient := True.
Definition no_slack : Lenient := False.

#[local] Existing Instance slack.

Lemma wpe_for_n {S} E (J : Z → S → Prop) body n i Q s :
  J i s →
  (∀ j s, i ≤ j < i + Z.of_nat n → J j s → wpe E (body j) (λ _ s', J (j + 1) s') s) →
  (∀ s, J (i + Z.of_nat n) s → Q tt s) → wpe E (for_n n i body) Q s.
Proof.
  revert i s. induction n as [|n IH]; intros i s Hi Hb HQ; cbn [for_n].
  - apply HQ. by rewrite Z.add_0_r.
  - apply wpe_bind. eapply wpe_mono; [apply Hb; [lia|done]|]. intros [] s' Hs'.
    apply IH; [done| |].
    + intros j s1 Hj. apply Hb. lia.
    + intros s1 Hs1. apply HQ. by replace (i + Z.of_nat (Datatypes.S n)) with (i + 1 + Z.of_nat n) by lia.
Qed.

Lemma wpe_for_range {S} E (J : Z → S → Prop) body lo hi Q s :
  lo ≤ hi → J lo s →
  (∀ j s, lo ≤ j < hi → J j s → wpe E (body j) (λ _ s', J (j + 1) s') s) →
  (∀ s, J hi s → Q tt s) → wpe E (for_range lo hi body) Q s.
Proof.
  intros Hle Hlo Hb HQ. apply (wpe_for_n _ J); [done| |].
  - intros j s' Hj. apply Hb. lia.
  - intros s'. replace (lo + Z.of_nat (Z.to_nat (hi - lo))) with hi by lia. apply HQ.
Qed.

(** ** Start-up *)

Section Startup.
Context `{F : Frames} {IM : Images (L:=L)} (m : mem).

(** What start-up leaves of memory and of the container tree. *)
Definition untouched (s : vm) : Prop :=
  (∀ x, image x → read8 (v_mem s) x = read8 m x) ∧ few_children s.

Lemma holds_store32_untouched a v :
  (∀ x, image x → ¬ (a ≤ x < a + 4)) → holds untouched (store32 a v) (λ _, True).
Proof.
  intros Ha. apply holds_modify. intros s [Hi Hf]. split; [|done]. intros x Hx. cbn.
  rewrite read8_write32, decide_False by by apply Ha. by apply Hi.
Qed.

Lemma holds_put_pdir_untouched pid i v : holds untouched (put_pdir_entry pid i v) (λ _, True).
Proof.
  unfold put_pdir_entry. eapply holds_bind; [apply holds_chk|]. intros ? Hp.
  eapply holds_bind; [apply holds_chk|]. intros ? Hi. apply holds_store32_untouched. intros x Hx Hr.
  destruct (image_ok x Hx) as [(_ & Hn & _) _]. apply Hn. unfold pdir_addr in Hr. cbn beta in *. lia.
Qed.

Lemma holds_idptbl_untouched i j prm : holds untouched (set_ptbl_entry_identity i j prm) (λ _, True).
Proof.
  unfold set_ptbl_entry_identity. eapply holds_bind; [apply holds_chk|]. intros ? Hi.
  eapply holds_bind; [apply holds_chk|]. intros ? Hj. apply holds_store32_untouched. intros x Hx Hr.
  destruct (image_ok x Hx) as [(_ & _ & Hn) _]. apply Hn. unfold idptbl_addr in Hr. cbn beta in *. lia.
Qed.

(** The container tree has few children, whatever the other components do. *)
Definition few (c : cont) : Prop := ∀ id, 0 ≤ nchildren (aget (CONTAINER c) id) ≤ NUM_IDS.

Lemma quiet_pmmap_init mem mbi : quiet (pmmap_init mem mbi).
Proof.
  assert (∀ l, holds (λ _, True) (pmmap_classify l) (λ _, True)) as H1.
  { induction l as [|e l IH]; cbn [pmmap_classify]; holds_auto. }
  assert (∀ fuel a n p, holds (λ _, True) (pmmap_read fuel mem a n p) (λ _, True)) as H2.
  { assert lenient by done.
    assert (∀ a e t, holds (λ _, True) (pmmap_insert a e t) (λ _, True))
      by (intros; unfold pmmap_insert, pmmap_alloc_slot; holds_auto).
    induction fuel as [|fuel IH]; intros; cbn [pmmap_read]; holds_auto. }
  unfold quiet, pmmap_init, pmmap_merge. holds_auto.
Qed.

Lemma quiet_pmem_init mem mbi : quiet (pmem_init mem mbi).
Proof.
  unfold pmem_init, mem_spinlock_init. eapply holds_bind; [apply quiet_lift, quiet_pmmap_init|]. intros _ _.
  eapply holds_bind; [apply quiet_lift, quiet_init|]. intros _ _. unfold quiet, set_nps, pmem_init_page, at_set_perm.
  holds_auto.
Qed.

Lemma holds_container_init mem mbi : holds few (container_init mem mbi) (λ _, True).
Proof.
  assert (∀ A (p : M pmm A), quiet p → holds few (lift l_c_pmm p) (λ _, True)) as Hp
    by (intros; by apply holds_aside).
  assert (∀ i, quiet (at_is_norm i) ∧ quiet (at_is_allocated i)) as Hat
    by (intros i; unfold quiet, at_is_norm, at_is_allocated; split; holds_auto).
  unfold container_init. eapply holds_bind; [apply Hp, quiet_pmem_init|]. intros _ _.
  eapply holds_bind; [by apply Hp, holds_gets|]. intros nps _.
  apply (holds_bind _ _ _ (λ _, True)).
  { assert (∀ n i q, holds few (count_free n i q) (λ _, True)) as H; [|apply H].
    induction n as [|n IH]; intros i q; cbn [count_free]; [by apply holds_ret|].
    eapply holds_bind; [apply Hp, Hat|]. intros b1 _. eapply holds_bind; [apply Hp, Hat|]. intros b2 _. apply IH. }
  intros q _. unfold con_upd. eapply holds_bind; [apply holds_chk|]. intros _ _. apply holds_modify.
  intros c1 Hc1 id. cbn. rewrite aget_insert. case_decide; [cbn; unfold NUM_IDS; lia|apply Hc1].
Qed.

Lemma holds_paging_init_untouched mbi : holds untouched (paging_init mbi) (λ _, True).
Proof.
  assert (∀ A (p : M spinlock A), quiet p → holds untouched (lift l_pt_lk p) (λ _, True)) as Hlk
    by (intros; by apply holds_aside).
  assert (∀ pid i, holds untouched (set_pdir_entry_identity pid i) (λ _, True)) as Hid
    by (intros; apply holds_put_pdir_untouched).
  unfold paging_init, pt_spinlock_init, pt_spinlock_acquire, pt_spinlock_release, set_pdir_base, enable_paging.
  eapply holds_bind; [apply Hlk, quiet_init|]. intros _ _. apply (holds_bind _ _ _ (λ _, True)); [|intros _ _].
  - unfold pdir_init_kern, pdir_init, idptbl_init.
    apply (holds_bind _ _ _ (λ _, True)); [|intros _ _; by apply holds_for_range].
    apply (holds_bind _ _ _ (λ _, True)); [|intros _ _; apply holds_for_range; intros i _; apply holds_for_range; intros j _;
      apply holds_if; intros _; [done|apply holds_put_pdir_untouched]].
    apply (holds_bind _ _ _ (λ _, True)); [by apply holds_gets|]. intros m1 _. apply (holds_bind _ _ _ (λ _, True)).
    + eapply (holds_lift _ _ few); [|apply holds_container_init]. split; [by intros s []|]. intros s c [] Hc. by split.
    + intros _ _. apply holds_for_range. intros i _. apply holds_for_range. intros j _. apply holds_idptbl_untouched.
  - eapply holds_bind; [by apply Hlk, quiet_acquire|]. intros _ _. eapply holds_bind; [holds_auto|]. intros _ _. holds_auto.
Qed.

(** The machine after [paging_init]. *)
Lemma paging_init_kept mbi pm s :
  pmmap_init m mbi boot_physmap = Ok (tt, pm) → pmmap_list pm ≠ [] →
  paging_init mbi (boot_vm m) = Ok (tt, s) → vkept m s.
Proof.
  intros Hpm Hne E.
  assert (wp (paging_init mbi) (λ _ s, vm_ok s ∧ cr3 s = pdir_addr 0 0) (boot_vm m)) as Hwp
    by by eapply wp_paging_init.
  unfold wp in Hwp. rewrite E in Hwp. destruct Hwp as [Hok Hc].
  assert (untouched (boot_vm m)) as Hu by (split; [done|]; intros id; cbn; rewrite aget_empty; by vm_compute).
  destruct (holds_inv _ _ _ _ _ _ (holds_paging_init_untouched mbi) Hu E) as [_ [Hi Hf]].
  split; [|done]. split; [done| |done]. exists 0. by split.
Qed.

(** Start-up is to reach every control block; see [tcb_init]. *)
Definition reaches_all (arg2 : Z → Z) : Prop :=
  ∀ pid, 0 ≤ pid < NUM_IDS → ∃ i, 0 ≤ i < NUM_IDS ∧ arg2 i = pid.

(** The threads before and after [paging_init], and with the control blocks of the
    first [i] calls set up. *)
Definition raw (t : thr) : Prop := t_vm t = boot_vm m ∧ kctx_pool t = ∅.
Definition paged (t : thr) : Prop := vkept m (t_vm t) ∧ kctx_pool t = ∅ ∧ unlocked (sched_lk t).
Definition tcbs_up (arg2 : Z → Z) (i : Z) (t : thr) : Prop :=
  paged t ∧ ∀ k, 0 ≤ k < i → tcb_good ∅ (arg2 k) (aget (TCBPool t) (arg2 k)).
Definition queues_up (i : Z) (t : thr) : Prop :=
  ∀ c, 0 ≤ c < i → aget (TQueuePool t) (this_cpu, c) = Tq NUM_IDS NUM_IDS.

Lemma wpe_tcb_init arg2 mbi pm Q t :
  pmmap_init m mbi boot_physmap = Ok (tt, pm) → pmmap_list pm ≠ [] → raw t → unlocked (sched_lk t) →
  (∀ t', tcbs_up arg2 NUM_IDS t' → Q tt t') → wpe tolerated (tcb_init arg2 mbi) Q t.
Proof.
  intros Hpm Hne [Hv Hk] Hul HQ. unfold tcb_init. apply wpe_bind. unfold wpe at 1, lift. cbn [lget l_t_vm]. rewrite Hv.
  assert (wp (paging_init mbi) (λ _ s, vm_ok s ∧ cr3 s = pdir_addr 0 0) (boot_vm m)) as Hwp
    by by eapply wp_paging_init.
  unfold wp in Hwp. destruct (paging_init mbi (boot_vm m)) as [[[] v]|e] eqn:E; [|done].
  apply (wpe_for_range _ (tcbs_up arg2)); [by vm_compute| | |done].
  - split; [|lia]. split; [|done]. by eapply paging_init_kept.
  - intros j t1 Hj [Hp Hg]. unfold tcb_init_at_id, tcb_upd. apply wpe_bind. unfold wpe, chk.
    destruct (_ && _); [|done]. cbn. split; [done|]. intros k Hk'. cbn. rewrite aget_insert.
    case_decide as Ek; [|apply Hg; assert (k ≠ j) by congruence; lia].
    split; cbn; [by left|by left|done|intros n; by rewrite aget_empty|done|done].
Qed.

Lemma wpe_queue_row cpu t :
  queues_up (if this_cpu <? cpu then NUM_IDS + 1 else 0) t →
  ∀ Q, (∀ t', queues_up (if this_cpu <? cpu + 1 then NUM_IDS + 1 else 0) t' → TCBPool t' = TCBPool t →
    t_vm t' = t_vm t → kctx_pool t' = kctx_pool t → sched_lk t' = sched_lk t → Q tt t') →
  wpe tolerated (for_range 0 (NUM_IDS + 1) (λ chid, tqueue_init_at_id cpu chid)) Q t.
Proof.
  intros Hq Q HQ.
  apply (wpe_for_range _ (λ i t', (if this_cpu <? cpu then queues_up (NUM_IDS + 1) t' else
      if cpu =? this_cpu then queues_up i t' else True) ∧ TCBPool t' = TCBPool t
      ∧ t_vm t' = t_vm t ∧ kctx_pool t' = kctx_pool t ∧ sched_lk t' = sched_lk t)); [by vm_compute| | |].
  - split; [|done]. revert Hq. destruct (this_cpu <? cpu); [done|]. intros _.
    destruct (cpu =? this_cpu); [intros c; lia|done].
  - intros j t1 Hj (H1 & H2 & H3 & H4). unfold tqueue_init_at_id, tq_upd. unfold wpe, mbind, M_bind, chk.
    repeat (destruct (_ && _); [|done]). cbn -[this_cpu]. split; [|done]. revert H1.
    destruct (Z.ltb_spec this_cpu cpu); [|destruct (Z.eqb_spec cpu this_cpu); [|done]]; intros H1 c Hc;
      cbn -[this_cpu];      rewrite aget_insert; case_decide as E; [done|by apply H1|done|]. apply H1. assert (c ≠ j) by congruence. lia.
  - intros t1 (H1 & H2 & H3 & H4 & H5). apply HQ; [|done..]. revert H1.
    destruct (Z.ltb_spec this_cpu cpu), (Z.ltb_spec this_cpu (cpu + 1)); try lia; [done| |intros _ c; lia].
    by rewrite (proj2 (Z.eqb_eq cpu this_cpu)) by lia.
Qed.

(** After [thread_init] no process was spawned, and the current id is zero. *)
Lemma wpe_thread_init arg2 mbi pm t :
  pmmap_init m mbi boot_physmap = Ok (tt, pm) → pmmap_list pm ≠ [] → reaches_all arg2 → raw t →
  wpe tolerated (thread_init arg2 mbi) (λ _ t', tsafe m ∅ (λ x, x = 0) t') t.
Proof.
  intros Hpm Hne Hall Hraw. unfold thread_init, tqueue_init. apply wpe_bind.
  assert (holds raw (for_range 0 NUM_CPUS (λ i, modify (λ s, set_sched_ticks (<[i := 0]> (sched_ticks s)) s)))
    (λ _, True)) as H1 by (apply holds_for_range; intros; by apply holds_modify).
  eapply wpe_mono; [by apply H1|]. intros _ t1 [_ Hr1]. apply wpe_bind.
  assert (raw (lset l_sched_lk released t1)) as Hr2 by by destruct Hr1.
  apply wpe_wp, wp_lift, wp_spinlock_init, wpe_bind, wpe_bind.
  eapply wpe_tcb_init; [done|done|done|done|]. intros t3 Hup.
  apply (wpe_for_range _ (λ cpu t', tcbs_up arg2 NUM_IDS t' ∧
    queues_up (if this_cpu <? cpu then NUM_IDS + 1 else 0) t')); [by vm_compute| | |].
  - split; [done|]. intros c. cbn. lia.
  - intros cpu t4 _ [Hu Hq]. eapply wpe_queue_row; [done|]. intros t5 Hq5 E1 E2 E3 E4. split; [|done].
    unfold tcbs_up, paged in *. by rewrite E1, E2, E3, E4.
  - intros t4 [[(Hv & Hk & Hl) Ht] Hq]. change (this_cpu <? NUM_CPUS) with true in Hq. cbv iota in Hq.
    assert (tsafe m ∅ (λ _, True) t4) as Hs.
    { split; [done|done|done| | |done].
      - intros x Hx. destruct (Hall x Hx) as (i & Hi & <-). by apply Ht.
      - intros c Hc. rewrite Hq by done. by split; left. }
    apply wpe_bind. unfold set_curid, wpe at 1, modify. cbn beta iota.
    eapply wpe_mono; [apply (holds_awake (Λ:=unlocked) m ∅ (λ x, x = 0)); [done|]|by intros _ t' []].
    eapply tsafe_set_curid; [done|reflexivity].
Qed.
End Startup.

(** ** The machine *)

Section System.
Context `{IL : IpcLayout} {B : BufLayout (I:=IL)} {FL : FsLayout (B:=B)} {KL : KernLayout (FL:=FL)}.
Context {IM : Images (L:=L)} {TB : ThrBuffers (I:=IL) (IM:=IM)} {FB : FsBuffers (FL:=FL)}.
Context (m : mem) {KB : KernBuffers (KL:=KL) m} (junk : Z).

(** The kernel when it calls [thread_init]: memory is [m], and what is not set up
    yet is zero. *)
Record at_boot (s : kern) : Prop := {
  ab_vm : lget l_x_vm s = boot_vm m;
  ab_kctx : kctx_pool (lget l_x_thr s) = ∅;
  ab_files : files (x_fs s) = ∅;
  ab_uctx : uctx_pool s = ∅;
  ab_traps n : TRAP_HANDLER s !! n = Some syscall_cb → n = T_SYSCALL;
  ab_locks : unlocked (debug_lk s) ∧ unlocked (serial_lk s)
}.

(** A process runs with registers [t], or the kernel runs, on its way to a process. *)
Inductive activity :=
| InUser (t : tf_t) (s : kern)
| InKernel (r : K kern tf_t).

(** The kernel threads that are switched out, and what the processor does. *)
Record system := System { asleep : gmap Z (KM kern tf_t); active : activity }.

(** A thread that never ran starts at [proc_start_user]. *)
Definition resume (cs : gmap Z (KM kern tf_t)) (pid : Z) : KM kern tf_t :=
  default (run proc_start_user) (cs !! pid).

(** Bytes arrive at the keyboard and the serial line. *)
Definition arrive (kb cm : list Z) (s : kern) : kern :=
  lset l_x_con (let c := x_con s in
    set_kbd (shift c) (kbd_in c ++ kb) (set_com (serial_exists c) (com_in c ++ cm) (com_out c) c)) s.

(** The frame the processor and the entry code push. *)
Definition trap_frame (n e : Z) (t : tf_t) : tf_t :=
  Tf (edi t) (esi t) (ebp t) (oesp t) (ebx t) (edx t) (ecx t) (eax t) (es t) (ds t) n e (eip t) (cs t)
    (eflags t) (esp t) (ss t).

Definition the_vm (s : kern) : vm := lget l_x_vm s.

(** A store of the program: the memory management unit looks [va] up in the current
    page structure, with the rights of user mode. *)
Definition user_store (pa v : Z) (s : kern) : kern :=
  lset l_x_vm (set_mem (write8 (v_mem (the_vm s)) pa v) (the_vm s)) s.

Inductive sys_step : system → system → Prop :=
| sys_return cs t s : sys_step (System cs (InKernel (KRet t s))) (System cs (InUser t s))
| sys_switch cs from to s k kb cm :
    let cs' := <[from := k]> cs in
    sys_step (System cs (InKernel (KSwitch from to s k))) (System cs' (InKernel (resume cs' to (arrive kb cm s))))
| sys_compute cs t t' s : user_mode t' → sys_step (System cs (InUser t s)) (System cs (InUser t' s))
| sys_input cs t s kb cm : sys_step (System cs (InUser t s)) (System cs (InUser t (arrive kb cm s)))
| sys_store cs t s va pa v :
    is_u32 va → mmu (v_mem (the_vm s)) (cr3 (the_vm s)) true true va = Some pa →
    sys_step (System cs (InUser t s)) (System cs (InUser t (user_store pa v s)))
| sys_trap cs t s w n e cr2 :
    0 ≤ n < 256 → is_u32 e → is_u32 cr2 → (n = T_SYSCALL → served t) →
    (n = T_PGFLT → Z.land e PFE_PR = 0 → mmu (v_mem (the_vm s)) (cr3 (the_vm s)) false false cr2 = None) →
    sys_step (System cs (InUser t s)) (System cs (InKernel (trap junk w cr2 (trap_frame n e t) s))).

(** Start-up, which ends in the switch to the first process. *)
Definition start_up (arg2 : Z → Z) (mbi k : Z) : KM kern tf_t :=
  _ ← kern_init arg2 mbi (elf_image 0) (elf_image k); kfail (Panic "kern_init returned").

(** ** The invariant *)

Local Abbreviation running := (some (cksafe m)).

(** Process [c] runs in its page structure. *)
Definition runs (c : Z) (t : tf_t) (s : kern) : Prop := user_mode t ∧ back_to c s.

Definition booting (r : K kern tf_t) : Prop :=
  match r with
  | KRet _ _ => False
  | KErr e => tolerated e
  | KSwitch from to s k => from = 0 ∧ running to tt s
  end.

Definition active_ok (a : activity) : Prop :=
  match a with
  | InUser t s => ∃ c, running c tt s ∧ runs c t s
  | InKernel r => booting r ∨ ∃ c, kfine running c (runs c) tt r
  end.

Definition sys_ok (S : system) : Prop :=
  active_ok (active S) ∧
  ∀ pid k, asleep S !! pid = Some k → ∀ s, running pid tt s → kfine running pid (runs pid) tt (k s).

Lemma boot_kept (s : kern) : at_boot s → ∀ t', tsafe m ∅ (λ x, x = 0) t' → ksafe m ∅ (λ x, x = 0) (lset l_x_thr t' s).
Proof.
  intros [Hv Hk Hf Hu Ht Hl] t' Ht'. split; [..|exact Hl].
  - split; [exact Ht'|]. intros i. cbn. rewrite Hf. by rewrite aget_empty.
  - exact Ht.
  - intros pid. cbn. rewrite Hu, aget_empty. by repeat split.
  - intros pid [_ Hs]. cbn in Hs. by rewrite aget_empty in Hs.
Qed.

(** Steps of start-up, none of which switches before the last. *)
Lemma boots_after {A C} (n : M kern A) (f : A → KM kern C) g s :
  wpe tolerated n (λ a s', booting (kbind (f a s') g)) s → booting (kbind ((run n ≫= f) s) g).
Proof. unfold wpe, run, mbind, KM_bind. by destruct (n s) as [[a s']|e]. Qed.

Lemma boots_switch pid g (f : unit → KM kern unit) s :
  running pid tt s → booting (kbind ((in_threads (kctx_switch 0 pid) ≫= f) s) g).
Proof.
  intros [K Hs]. unfold in_threads, klift, kctx_switch, mbind, KM_bind, run, chk.
  destruct (_ && _); [|done]. cbn [kbind]. destruct (_ && _); [|done]. split; [done|]. exists K.
  apply (il_set (InvLens:=inv_x_thr m K (only K pid))); [done|].
  by apply (il_get (InvLens:=inv_x_thr m K (only K pid))).
Qed.

Local Strategy 1000 [thread_init proc_create kbind].

Lemma start_up_ok arg2 mbi pm k s :
  pmmap_init m mbi boot_physmap = Ok (tt, pm) → pmmap_list pm ≠ [] → reaches_all arg2 → 0 ≤ k ≤ 8 →
  at_boot s → booting (start_up arg2 mbi k s).
Proof.
  intros Hpm Hne Hall Hk Hb.
  assert (raw m (lget l_x_thr s)) as Hraw by (split; [apply Hb|apply Hb]).
  pose proof (wpe_thread_init m arg2 mbi pm _ Hpm Hne Hall Hraw) as Hinit.
  unfold start_up, kern_init, kern_main. apply boots_after. unfold wpe, with_thr, lift in Hinit |- *.
  destruct (thread_init arg2 mbi (lget l_x_thr s)) as [[[] t1]|e]; [|done].
  pose proof (boot_kept s Hb t1 Hinit) as Hs1. revert Hs1. generalize (lset l_x_thr t1 s) as s1. intros s1 Hs1.
  apply boots_after. eapply wpe_mono; [by apply (wpe_proc_create m ∅ (λ x, x = 0)); [apply programs_ok|]|].
  intros _ s2 (K1 & Hs2 & _).
  apply boots_after. eapply wpe_mono; [by apply (wpe_proc_create m K1 (λ x, x = 0)); [apply programs_ok|]|].
  intros pid s3 (K2 & Hs3 & Hpid & _).
  apply boots_after. eapply wpe_mono; [by apply (holds_with_thr m K2 (λ x, x = 0)), Hs3; apply holds_remove|].
  intros _ s4 [_ Hs4].
  apply boots_after. eapply wpe_mono; [by apply (holds_with_thr m K2 (λ x, x = 0)), Hs4; apply holds_awake|].
  intros _ s5 [_ Hs5].
  apply boots_after. unfold wpe, with_thr, lift, set_curid, modify. apply boots_switch. exists K2.
  destruct Hs5 as [[Ht Ho] H5 H6 H7 H8]. split; [|exact H5|exact H6|exact H7|exact H8]. split; [|exact Ho].
  by eapply tsafe_set_curid.
Qed.

Lemma mmu_identity s pid w va :
  vm_core s → 0 ≤ pid < NUM_IDS → is_u32 va → ¬ user_va va → mmu (v_mem s) (pdir_addr pid 0) false w va = Some va.
Proof.
  intros Hok Hpid Hva Hn. pose proof (vo_tables s Hok) as Ht.
  pose proof (pde_index_bound va Hva) as Hi. pose proof (pte_index_bound va) as Hj.
  assert (kernel_pde (pde_index_of va) = true) as Hk.
  { unfold kernel_pde, user_va, VM_USERLO, VM_USERHI, pde_index_of in *.
    apply orb_true_iff. rewrite Z.ltb_lt, Z.leb_le. Z.to_euclidean_division_equations. lia. }
  unfold mmu.
  replace (pdir_addr pid 0 + pde_index_of va * 4) with (pdir_addr pid (pde_index_of va))
    by (unfold pdir_addr; lia).
  fold (pde_at (v_mem s) pid (pde_index_of va)).
  fold (pte_at (v_mem s) pid (pde_index_of va) (pte_index_of va)).
  rewrite (pte_kernel (v_mem s) _ pid _ _ Ht) by (auto || lia).
  rewrite (to_kern _ _ Ht) by (auto || lia). unfold idptbl_addr.
  pose proof IDPTbl_aligned as Hal. apply Z.mod_divide in Hal as [q Hq]; [|done].
  rewrite Hq. replace (q * 4096 + pde_index_of va * 4096 + 0 * 4 + 7)
    with ((q + pde_index_of va) * 4096 + 7) by lia.
  unfold entry_allows. rewrite !testbit_entry by lia. unfold id_perm. rewrite Hk.
  rewrite frame_entry by (unfold is_u32, two32 in Hva; lia). rewrite <- va_split.
  by destruct w.
Qed.

Lemma running_vm c s : running c tt s → vkept m (the_vm s) ∧ user_pid c.
Proof.
  intros [K Hs]. split; [by apply (il_get (InvLens:=inv_x_vm m K (only K c)))|].
  assert (tsafe m K (only K c) (lget l_x_thr s)) as Ht by by apply (il_get (InvLens:=inv_x_thr m K (only K c))).
  destruct (ts_cur _ _ _ _ Ht) as [_ []]. done.
Qed.

Lemma running_set_vm c s v : running c tt s → vkept m v → running c tt (lset l_x_vm v s).
Proof. intros [K Hs] Hv. exists K. by apply (il_set (InvLens:=inv_x_vm m K (only K c))). Qed.

Lemma running_arrive c s kb cm : running c tt s → running c tt (arrive kb cm s).
Proof. intros [K []]. exists K. by split. Qed.

Lemma user_store_ok c s va pa v :
  running c tt s → back_to c s → is_u32 va →
  mmu (v_mem (the_vm s)) (cr3 (the_vm s)) true true va = Some pa →
  running c tt (user_store pa v s) ∧ back_to c (user_store pa v s).
Proof.
  intros Hs Hb Hva Hm. destruct (running_vm c s Hs) as [[[Hok Hc Hi] Hf] Hp]. split; [|done].
  unfold back_to in Hb. change (lget l_x_vm s) with (the_vm s) in Hb. rewrite Hb in Hm.
  destruct (user_store_effect (the_vm s) c va pa v Hok Hp Hva Hm) as [Hok' _].
  destruct (vm_ok_isolated _ Hok c va pa true Hp Hva Hm) as [Hpa _].
  apply running_set_vm; [done|]. split; [|done]. split; [done|done|].
  intros x Hx. cbn. rewrite read8_write8_ne; [by apply Hi|].
  destruct (image_ok x Hx) as [[Hk _] _]. intros ->. lia.
Qed.

Lemma trap_frame_mode n e t : 0 ≤ n < 256 → is_u32 e → user_mode t → user_mode (trap_frame n e t).
Proof.
  intros Hn He [[Hg Hs Ht Hu] Hc Hss Hi]. split; [|done|done|done]. split; [exact Hg|exact Hs| |exact Hu].
  split; [|done]. unfold is_u32, two32. cbn. lia.
Qed.

Lemma sys_step_ok S S' : sys_step S S' → sys_ok S → sys_ok S'.
Proof.
  intros Hstep [Ha Hc]. destruct Hstep as [cs t s|cs from to s k kb cm cs'|cs t t' s Ht|cs t s kb cm
    |cs t s va pa v Hva Hm|cs t s w n e cr2 Hn He Hcr Hse Hpf]; cbn [active active_ok asleep] in *.
  - destruct Ha as [[]|(c & Hr & Hs)]. split; [|done]. by exists c.
  - assert (∃ c, from = c ∧ running to tt s ∧ ∀ s', running c tt s' → kfine running c (runs c) tt (k s'))
      as (c & -> & Hs & Hk).
    { destruct Ha as [[-> Hs]|(c & -> & Hs & Hk)]; [exists 0|exists c]; split_and!; try done.
      - intros s' Hs'. by apply running_vm in Hs' as [_ []].
      - intros s'. apply Hk. }
    assert (∀ pid k', cs' !! pid = Some k' → ∀ s, running pid tt s → kfine running pid (runs pid) tt (k' s)) as Hc'.
    { intros pid k'. unfold cs'. destruct (decide (pid = c)) as [->|].
      - rewrite lookup_insert_eq. by intros [= <-].
      - rewrite lookup_insert_ne by done. apply Hc. }
    split; [|done]. right. exists to. apply (running_arrive _ _ kb cm) in Hs. unfold resume.
    destruct (cs' !! to) as [k'|] eqn:E; cbn; [by eapply Hc'|by apply start_fine].
  - destruct Ha as (c & Hr & _ & Hb). split; [|done]. by exists c.
  - destruct Ha as (c & Hr & Hu & Hb). split; [|done]. exists c. split; [by apply running_arrive|by split].
  - destruct Ha as (c & Hr & Hu & Hb). split; [|done]. exists c.
    destruct (user_store_ok c s va pa v Hr Hb Hva Hm). by split.
  - destruct Ha as (c & Hr & Hu & Hb). split; [|done]. right. exists c.
    pose proof (trap_frame_mode n e t Hn He Hu) as Hu'. destruct (running_vm c s Hr) as [[[[Hok _] _ _] _] [Hp1 Hp2]].
    eapply kfine_mono.
    + apply (trap_fine m junk w c cr2 (trap_frame n e t)); [apply Hu'|intros E; split; [by apply Hse|done]|done| |done].
      intros En Hpr Hlo. destruct (decide (cr2 < VM_USERHI)) as [|Hge]; [done|].
      specialize (Hpf En Hpr). change (cr3 (the_vm s) = pdir_addr c 0) in Hb. rewrite Hb in Hpf.
      rewrite mmu_identity in Hpf; [done|done|lia|done|]. unfold user_va. lia.
    + intros t' s' [[Hw Hm] Hb']. split; [|done]. destruct Hm as (H1 & H2 & H3 & H4 & H5), Hu' as [_ Hu1 Hu2 Hu3].
      split; [done|congruence..].
Qed.

(** ** What the invariant says *)

Definition current (s : kern) : Z := aget (CURID (lget l_x_thr s)) this_cpu.

(** A process that runs is the current one, in user mode with interrupts on, and in
    its own page structure; and at every moment the program of one process cannot
    reach the pages of another, page tables or kernel memory.  The last holds also
    when the kernel hands over to another thread, which is the current one then.  A
    kernel that stops with a fault has not gone on in code of a process. *)
Definition confined (S : system) : Prop :=
  match active S with
  | InUser t s => user_mode t ∧ user_pid (current s) ∧ cr3 (the_vm s) = pdir_addr (current s) 0 ∧ isolated (the_vm s)
  | InKernel (KSwitch _ to s _) => user_pid to ∧ current s = to ∧ isolated (the_vm s)
  | InKernel (KRet t s) => user_mode t ∧ isolated (the_vm s)
  | InKernel (KErr e) => ∀ a, e ≠ Hijacked a
  end.

Lemma running_confined c s : running c tt s → user_pid c ∧ current s = c ∧ isolated (the_vm s).
Proof.
  intros Hs. destruct (running_vm c s Hs) as [[[Hok _ _] _] Hp]. destruct Hs as [K Hs].
  assert (tsafe m K (only K c) (lget l_x_thr s)) as Ht by by apply (il_get (InvLens:=inv_x_thr m K (only K c))).
  destruct (ts_cur _ _ _ _ Ht) as [Hc _]. split_and!; [done|done|]. by apply vm_ok_isolated.
Qed.

Lemma sys_ok_confined S : sys_ok S → confined S.
Proof.
  intros [Ha _]. unfold confined. destruct (active S) as [t s|r]; cbn [active_ok] in Ha.
  - destruct Ha as (c & Hr & Hu & Hb). destruct (running_confined c s Hr) as (Hp & Hc & Hi). rewrite Hc. by split_and!.
  - destruct r as [t s|e|from to s k]; [|by intros a ->; destruct Ha as [[]|(c & [])]|].
    + destruct Ha as [[]|(c & (Hu & _) & Hr)]. split; [done|]. by apply (running_confined c s).
    + assert (running to tt s) as Hr by (destruct Ha as [[_ Hr]|(c & _ & Hr & _)]; done).
      by apply running_confined.
Qed.

Lemma sys_reach S S' : rtc sys_step S S' → sys_ok S → sys_ok S'.
Proof. intros Hr. induction Hr as [|S1 S2 S3 H12 _ IH]; [done|]. intros H. by eapply IH, sys_step_ok. Qed.

(** C2: isolation by the whole kernel.  From start-up on, through every sequence of
    register changes and stores of user programs, traps, switches of kernel threads
    and device input: a process that runs is in user mode with interrupts on, is the
    current one and is in its own page structure, under which it reaches only pages
    of its own; no kernel memory, no page table and no page of another process.
    Traps are all exceptions, all interrupts, and the system calls but SYS_ls,
    SYS_pwd, SYS_produce, SYS_consume and SYS_rm with a negative length, for which
    nothing is claimed.  A run that reaches a panic, an access outside an array or a
    null pointer ends there.  A process that waits for the disk keeps the processor
    until the disk has answered.  Assumed are a memory map at boot, control blocks
    that start-up reaches, program images as [program_ok] says, and a processor that
    reports a missing page only where the page structure has none. *)
Theorem system_isolated arg2 mbi pm k s S' :
  pmmap_init m mbi boot_physmap = Ok (tt, pm) → pmmap_list pm ≠ [] → reaches_all arg2 → 0 ≤ k ≤ 8 →
  at_boot s → rtc sys_step (System ∅ (InKernel (start_up arg2 mbi k s))) S' → confined S'.
Proof.
  intros Hpm Hne Hall Hk Hb Hr. apply sys_ok_confined. eapply sys_reach; [exact Hr|]. split; [|done].
  left. by eapply start_up_ok.
Qed.

(** C3: the types of a trap.  A trap frame of 32-bit words becomes a trap frame of
    32-bit words, with the segments and the flags of the process unchanged, whatever
    other processes do while the call waits for a message, for input or for its turn
    on the processor; the process that trapped returns in its own page structure, and
    at every switch the kernel's invariant holds for the process that goes on.  The
    trap is any exception or interrupt, or a system call but SYS_ls, SYS_pwd,
    SYS_produce, SYS_consume and SYS_rm with a negative length; it may instead end in
    a panic or another fault that stops the kernel. *)
Theorem trap_returns w c cr2 t s :
  tf_ok t → (trapno t = T_SYSCALL → served t) → fault_ok cr2 t → running c tt s →
  kfine running c (λ t' s', returns t t' ∧ back_to c s') tt (trap junk w cr2 t s).
Proof.
  intros Ht Hs Hf Hr. apply (trap_fine m junk w c cr2 t tt s Ht); [|done|exact Hf|exact Hr].
  intros Hn. split; [auto|done].
Qed.

(** Code that neither returns nor halts: it spins on a lock that is never released,
    waits for ever or goes round a loop beyond its bound. *)
Definition hangs (e : fault) : bool :=
  match e with Deadlock _ | Blocked _ | OutOfFuel => true | _ => false end.

(** The locks of the scheduler, of memory and of the messages. *)
Definition locks_free (s : kern) : Prop :=
  unlocked (sched_lk (lget l_x_thr s)) ∧ unlocked (pt_lk (the_vm s))
  ∧ unlocked (mem_lk (c_pmm (v_cont (the_vm s)))) ∧ unlocked (debug_lk s) ∧ unlocked (serial_lk s).

(** The runs of a tree that a thread is resumed in with [R]: none hangs or keeps a
    lock. *)
Fixpoint terminates {A} (R : kern → Prop) (r : K kern A) : Prop :=
  match r with
  | KRet _ s => locks_free s
  | KErr e => hangs e = false
  | KSwitch _ _ s k => locks_free s ∧ ∀ s', R s' → terminates R (k s')
  end.

Lemma running_locks c s : running c tt s → locks_free s.
Proof.
  intros Hs. destruct (running_vm c s Hs) as [[[[Hok Hp] _ _] _] _]. destruct Hs as [K Hs].
  assert (tsafe m K (only K c) (lget l_x_thr s)) as Ht by by apply (il_get (InvLens:=inv_x_thr m K (only K c))).
  split_and!; [apply (ts_lk _ _ _ _ Ht)|done|apply (vo_pages _ Hok)|apply (ks_locks _ _ _ _ Hs)..].
Qed.

Lemma kfine_terminates {A} c (P : A → kern → Prop) r :
  kfine (LN:=no_slack) running c P tt r → terminates (running c tt) r.
Proof.
  induction r as [a s|e|from to s k IH]; cbn; [intros [_ Hs]; by eapply running_locks|by destruct e|].
  intros (_ & Hs & Hk). split; [by eapply running_locks|]. intros s' Hs'. by apply IH, Hk.
Qed.

(** C4: traps end.  In every state with the kernel's invariant, in which all locks a
    trap takes are free, a trap takes no lock that is held, gives back each it took
    before it returns or another thread runs, and its loops stay within their bounds:
    the copies from and to user memory, the search for a free page, the loader, the
    printing of a string of any length, and the walks over threads and signals.  It
    returns, or halts in a panic or another fault.  Excluded are the calls that wait
    for another process or the keyboard and those of the file system, the interrupt
    of the disk, whose handler waits for the disk, and SYS_ls, SYS_pwd, SYS_produce,
    SYS_consume and SYS_rm with a negative length. *)
Theorem trap_terminates w c cr2 t s :
  tf_ok t → (trapno t = T_SYSCALL → served t ∧ slow (syscall_get_arg1 t) = false) → ¬ disk_irq t →
  fault_ok cr2 t → running c tt s →
  terminates (running c tt) (trap junk w cr2 t s).
Proof.
  intros Ht Hs Hd Hf Hr. eapply kfine_terminates.
  apply (trap_fine (LN:=no_slack) m junk w c cr2 t tt s Ht); [|exact Hd|exact Hf|exact Hr].
  intros Hn. destruct (Hs Hn) as [H1 H2]. split; [done|]. intros H3. congruence.
Qed.
End System.

(** ** A concrete machine *)

#[local] Existing Instance sample_layout.
#[local] Existing Instance sample_stack.
#[local] Existing Instance sample_ipc_layout.
#[local] Existing Instance sample_buf_layout.
#[local] Existing Instance sample_fs_layout.
#[local] Existing Instance sample_kern_layout.

(** The program images are one image with one segment. *)
#[local] Instance sample_images : Images.
Proof.
  refine {| image x := 1320000 ≤ x < 1320084 |}; [by vm_compute|].
  intros x Hx. unfold kernel_byte, KERNEL_LOW, VM_USERLO. cbn. lia.
Defined.

#[local] Instance sample_thr_buffers : ThrBuffers.
Proof. split; unfold MSG_BUF_SIZE; cbn; lia. Qed.

#[local] Instance sample_fs_buffers : FsBuffers.
Proof. split; unfold KERN_BUF_SIZE; cbn; lia. Qed.

(** The memory the kernel is loaded with: the memory map and the image. *)
Definition sample_loaded : mem :=
  let h := 1320000 in
  let m := write32 (write32 sample_mboot h ELF_MAGIC) (h + 24) 1073741824 in
  let m := write32 (write32 (write32 m (h + 28) 52) (h + 44) 1) (h + 48) 65536 in
  let m := write32 (write32 (write32 m (h + 52) ELF_PROG_LOAD) (h + 60) 1073741824) (h + 68) 84 in
  write32 (write32 m (h + 72) 4096) (h + 76) 5.

#[local] Instance sample_kern_buffers : KernBuffers sample_loaded.
Proof.
  split; [done|..].
  - intros pid Hp. unfold user_pid, NUM_IDS in Hp. split; [split; [unfold VM_USERLO; cbn; lia|]|cbn; lia].
    intros k Hk. unfold kernel_byte, VM_USERLO, PAGESIZE in *. cbn. lia.
  - split; [split; [unfold VM_USERLO; cbn; lia|]|unfold BUFLEN; cbn; lia].
    intros k Hk. unfold kernel_byte, VM_USERLO, BUFLEN in *. cbn. lia.
  - intros k _. assert (e_phoff sample_loaded 1320000 = 52 ∧ e_phnum sample_loaded 1320000 = 1) as [E1 E2] by by vm_compute.
    split; cbn [elf_image sample_kern_layout]; unfold phdrs, PROGHDR_SIZE; rewrite ?E1, ?E2.
    + lia.
    + cbn. lia.
    + intros x. change (u32 (1320000 + 52)) with 1320052. cbn. lia.
    + intros i Hi. assert (i = 0) as -> by lia. cbv zeta.
      assert (read_proghdr sample_loaded (u32 (1320000 + 52) + 32 * 0) = Proghdr 1 0 1073741824 84 4096 5) as -> by by vm_compute.
      intros _. split; cbn; unfold VM_USERLO, VM_USERHI; lia.
Qed.

(** The machine as it is loaded. *)
Definition sample_boot : kern :=
  Kern (Fsys (Ino (Lgs (Bio (Ipc (Thr (boot_vm sample_loaded) ∅ ∅ ∅ ∅ ∅ zero) ∅ (Mq 0 0) zero) zero ∅ zero [] 1 ∅ [])
          zero 0 0 0 0 0 ∅) zero ∅) zero ∅ zero true)
    sample_con zero zero ∅ ∅ zero {[T_PGFLT := exception_cb; T_SYSCALL := syscall_cb]} true.

Lemma system_isolated_witness :
  ∃ pm, pmmap_init sample_loaded 4096 boot_physmap = Ok (tt, pm) ∧ at_boot sample_loaded sample_boot
    ∧ confined (System ∅ (InKernel (start_up id 4096 1 sample_boot))).
Proof.
  assert (at_boot sample_loaded sample_boot) as Hb.
  { split; try done. intros n. cbn. rewrite !lookup_insert_Some, lookup_empty. naive_solver. }
  eexists. split; [by vm_compute|]. split; [exact Hb|].
  eapply (system_isolated sample_loaded 0 id 4096 _ 1 sample_boot); [by vm_compute|done| |lia|exact Hb|constructor].
  intros pid Hp. by exists pid.
Defined.

Definition fresh_tcb : TCB := Tcb TSTATE_DEAD NUM_IDS NUM_IDS 0 ∅ 0 zero.
Definition sample_tcbs : gmap Z TCB := list_to_map ((λ i, (i, fresh_tcb)) <$> seqZ 0 NUM_IDS).
Definition sample_queues : gmap (Z * Z) TQueue :=
  list_to_map ((λ i, ((this_cpu, i), Tq NUM_IDS NUM_IDS)) <$> seqZ 0 (NUM_IDS + 1)).

(** Process 1 runs and no other was spawned; the machine is as [paging_init] left it,
    in the page structure of process 1. *)
Definition sample_user (v : vm) : kern :=
  Kern (Fsys (Ino (Lgs (Bio (Ipc (Thr (at_base 1 v) sample_tcbs sample_queues
          (<[this_cpu := 1]> ∅) (<[1 := Kctx 0 0 0 0 0 1060864]> ∅) ∅ released)
          ∅ (Mq NUM_IDS NUM_IDS) released) zero ∅ released [] 1 ∅ [])
          released 0 0 0 0 0 ∅) released ∅) released ∅ released true)
    sample_con released released (<[1 := user_tf 1073741824 zero]> ∅) ∅ zero
    {[T_PGFLT := exception_cb; T_SYSCALL := syscall_cb]} true.

(** A system call: [SYS_is_dir] of a descriptor that is not open. *)
Definition sample_call : tf_t := trap_frame T_SYSCALL 0 (set_eax SYS_is_dir (user_tf 1073741824 zero)).

Lemma aget_table {K A} `{Countable K} `{!Zeroed A} (g : Z → K) (v : A) n i :
  (∀ i j, g i = g j → i = j) → 0 ≤ i < n →
  aget (list_to_map ((λ i, (g i, v)) <$> seqZ 0 n) : gmap K A) (g i) = v.
Proof.
  intros Hg Hi. unfold aget. erewrite elem_of_list_to_map_1; [done| |].
  - rewrite <- list_fmap_compose. apply NoDup_fmap_2, NoDup_seqZ. intros a b. apply Hg.
  - apply list_elem_of_fmap. exists i. split; [done|]. apply elem_of_seqZ. lia.
Qed.

Lemma sample_user_running v : vkept sample_loaded v → some (cksafe sample_loaded) 1 tt (sample_user v).
Proof.
  intros [[Hok Hc Hi] Hf]. set (K := <[1 := Kctx 0 0 0 0 0 1060864]> ∅ : gmap Z kctx). exists K.
  assert (∀ x, spawned K x → x = 1) as Hsp.
  { intros x [_ Hx]. destruct (decide (x = 1)) as [|Hn]; [done|]. unfold K in Hx. by rewrite aget_ne, aget_empty in Hx by done. }
  split; [split; [split|]|..].
  - split; [|done]. split; [by apply at_base_ok|by exists 1|done].
  - done.
  - by vm_compute.
  - intros x Hx. change (tcb_good K x (aget sample_tcbs x)). unfold sample_tcbs.
    rewrite (aget_table (λ i, i)) by done. split; cbn; [by left|by left|done|intros n; by rewrite aget_empty|done|done].
  - intros c Hc'. change (link K (head (aget sample_queues (this_cpu, c))) ∧ link K (tail (aget sample_queues (this_cpu, c)))).
    unfold sample_queues. rewrite (aget_table (λ i, (this_cpu, i))); [by split; left|by intros i j [=]|done].
  - done.
  - intros i. cbn. by rewrite aget_empty.
  - intros n. cbn. rewrite !lookup_insert_Some, lookup_empty. naive_solver.
  - intros pid. cbn. destruct (decide (pid = 1)) as [->|]; [by rewrite aget_eq; vm_compute|].
    rewrite aget_ne, aget_empty by done. by vm_compute.
  - intros pid ->%Hsp. cbn. rewrite aget_eq. by apply user_tf_mode; vm_compute.
  - done.
Qed.

Lemma sample_call_ok :
  tf_ok sample_call ∧ (trapno sample_call = T_SYSCALL → served sample_call) ∧ fault_ok 0 sample_call.
Proof. split_and!; [split; by vm_compute|by vm_compute|by vm_compute]. Qed.

Lemma sample_paged : ∃ v, vkept sample_loaded v.
Proof.
  assert (∃ pm, pmmap_init sample_loaded 4096 boot_physmap = Ok (tt, pm) ∧ pmmap_list pm ≠ []) as (pm & E & Hne)
    by (eexists; split; [by vm_compute|done]).
  destruct (paging_init_correct sample_loaded 4096 pm E Hne) as (v & Hv & _). exists v.
  exact (paging_init_kept _ _ _ _ E Hne Hv).
Qed.

Lemma trap_returns_witness :
  ∃ v s', some (cksafe sample_loaded) 1 tt (sample_user v)
    ∧ trap 0 (Patience 9 9 9 9 (λ _, [])) 0 sample_call (sample_user v) = KRet (sys_result sample_call E_BADF (-1)) s'
    ∧ back_to 1 s'.
Proof.
  destruct sample_paged as [v Hv]. pose proof (sample_user_running v Hv) as Hr. exists v.
  destruct sample_call_ok as (H1 & H2 & H3).
  pose proof (trap_returns sample_loaded 0 (Patience 9 9 9 9 (λ _, [])) 1 0 sample_call (sample_user v) H1 H2 H3 Hr) as Hk.
  exists (match trap 0 (Patience 9 9 9 9 (λ _, [])) 0 sample_call (sample_user v) with KRet _ s' => s' | _ => sample_user v end).
  assert (trap 0 (Patience 9 9 9 9 (λ _, [])) 0 sample_call (sample_user v) = KRet (sys_result sample_call E_BADF (-1))
    (match trap 0 (Patience 9 9 9 9 (λ _, [])) 0 sample_call (sample_user v) with KRet _ s' => s' | _ => sample_user v end)) as E
    by (vm_compute; reflexivity).
  rewrite E in Hk. destruct Hk as [[_ Hb] _]. exact (conj Hr (conj E Hb)).
Defined.

(** A system call that prints a string longer than a page. *)
Definition sample_puts : tf_t :=
  trap_frame T_SYSCALL 0 (Tf 0 0 0 0 1073741824 0 100000 SYS_puts 35 35 0 0 1073741824 27 512 4026531840 35).

Lemma trap_terminates_witness :
  ∃ v, some (cksafe sample_loaded) 1 tt (sample_user v) ∧ slow (syscall_get_arg1 sample_puts) = false
    ∧ terminates (some (cksafe sample_loaded) 1 tt) (trap 0 (Patience 9 9 9 9 (λ _, [])) 0 sample_puts (sample_user v)).
Proof.
  assert (tf_ok sample_puts) as H1 by (split; by vm_compute).
  assert (trapno sample_puts = T_SYSCALL → served sample_puts ∧ slow (syscall_get_arg1 sample_puts) = false) as H2
    by (intros _; split; by vm_compute).
  assert (¬ disk_irq sample_puts) as Hd by by vm_compute.
  assert (fault_ok 0 sample_puts) as H3 by by vm_compute.
  destruct sample_paged as [v Hv]. pose proof (sample_user_running v Hv) as Hr. exists v. split; [exact Hr|].
  split; [exact (proj2 (H2 eq_refl))|].
  exact (trap_terminates sample_loaded 0 (Patience 9 9 9 9 (λ _, [])) 1 0 sample_puts (sample_user v) H1 H2 Hd H3 Hr).
Defined.
