(* ===== verification/UserLib.v ===== *)
(** * The user library (user/lib, user/include/syscall.h)

    A pointer is the list of the bytes from there to the end of its object; an
    access past the end is undefined and gives [None], or the fault
    [OutOfBounds] where the code does more than compute.  System calls go through
    a gate, the only thing the library knows of the kernel. *)

From S2P Require Import Prelude Memory Spinlock Console Printf CallNumbers.

(** ** string.c *)

Fixpoint strlen (s : list Z) : option Z :=
  match s with
  | [] => None
  | c :: s => if c =? 0 then Some 0 else Z.succ <$> strlen s
  end.

Fixpoint strnlen (s : list Z) (size : nat) : option Z :=
  match size with
  | O => Some 0
  | S size =>
    match s with
    | [] => None
    | c :: s => if c =? 0 then Some 0 else Z.succ <$> strnlen s size
    end
  end.

(** The copies give the object at [dst] after them. *)
Fixpoint strcpy (dst src : list Z) : option (list Z) :=
  match dst, src with
  | _ :: dst, c :: src => if c =? 0 then Some (c :: dst) else cons c <$> strcpy dst src
  | _, _ => None
  end.

Fixpoint strncpy (dst src : list Z) (size : nat) : option (list Z) :=
  match size with
  | O => Some dst
  | S size =>
    match dst, src with
    | _ :: dst, c :: src' =>
      cons c <$> strncpy dst (if negb (c =? 0) then src' else src) size
    | _, _ => None
    end
  end.

(** The loop of [strlcpy] once [size] has been decremented, and the terminator: what
    is at [dst], and how far it moved. *)
Fixpoint strlcpy_loop (dst src : list Z) (size : nat) : option (list Z * Z) :=
  match dst with
  | [] => None
  | _ :: dst' =>
    match size with
    | O => Some (0 :: dst', 0)
    | S size =>
      match src with
      | [] => None
      | c :: src =>
        if c =? 0 then Some (0 :: dst', 0)
        else '(d, n) ← strlcpy_loop dst' src size; Some (c :: d, n + 1)
      end
    end
  end.

Definition strlcpy (dst src : list Z) (size : nat) : option (list Z * Z) :=
  match size with
  | O => Some (dst, 0)
  | S size => strlcpy_loop dst src size
  end.

Fixpoint strcmp (p q : list Z) : option Z :=
  match p, q with
  | c :: p, d :: q =>
    if negb (c =? 0) && (c =? d) then strcmp p q else Some (u8 c - u8 d)
  | _, _ => None
  end.

Fixpoint strncmp (p q : list Z) (n : nat) : option Z :=
  match n with
  | O => Some 0
  | S n =>
    match p, q with
    | c :: p, d :: q =>
      if negb (c =? 0) && (c =? d) then strncmp p q n else Some (u8 c - u8 d)
    | _, _ => None
    end
  end.

(** The suffix found, or the null pointer. *)
Fixpoint strchr (s : list Z) (c : Z) : option (option (list Z)) :=
  match s with
  | [] => None
  | x :: s' => if x =? 0 then Some None else if x =? c then Some (Some s) else strchr s' c
  end.

Fixpoint strfind (s : list Z) (c : Z) : option (list Z) :=
  match s with
  | [] => None
  | x :: s' => if (x =? 0) || (x =? c) then Some s else strfind s' c
  end.

Fixpoint skip_blanks (s : list Z) : list Z :=
  match s with
  | c :: s' => if (c =? 32) || (c =? 9) then skip_blanks s' else s
  | [] => []
  end.

Definition dig (c : Z) : option Z :=
  if (48 <=? c) && (c <=? 57) then Some (c - 48)
  else if (97 <=? c) && (c <=? 122) then Some (c - 97 + 10)
  else if (65 <=? c) && (c <=? 90) then Some (c - 65 + 10)
  else None.

(** The value so far, and where the digits end. *)
Fixpoint strtol_digits (base val : Z) (s : list Z) : option (Z * list Z) :=
  match s with
  | [] => None
  | c :: s' =>
    match dig c with
    | None => Some (val, s)
    | Some d =>
      if base <=? d then Some (val, s) else strtol_digits base (s32 (val * base + d)) s'
    end
  end.

(** A base prefix: the base, and where the digits start. *)
Definition strtol_prefix (base : Z) (s : list Z) : option (Z * list Z) :=
  c ← head s;
  if ((base =? 0) || (base =? 16)) && (c =? 48) then
    x ← head (tail s);
    Some (if x =? 120 then (16, tail (tail s)) else if base =? 0 then (8, tail s) else (base, s))
  else Some (if base =? 0 then 10 else base, s).

(** The value and [*endptr]. *)
Definition strtol (s : list Z) (base : Z) : option (Z * list Z) :=
  let s := skip_blanks s in
  c ← head s;
  let s := if (c =? 43) || (c =? 45) then tail s else s in
  '(base, s) ← strtol_prefix base s;
  '(val, s) ← strtol_digits base 0 s;
  Some (if c =? 45 then s32 (- val) else val, s).

(** The code of these four is that of the kernel's. *)
Definition memset : mem → Z → Z → Z → mem := Memory.memset.
Definition memmove : mem → Z → Z → Z → mem := Memory.memmove.
Definition memcpy (m : mem) (dst src n : Z) : mem := memmove m dst src n.
Definition memzero (m : mem) (v n : Z) : mem := memset m v 0 n.

Fixpoint memcmp (s1 s2 : list Z) (n : nat) : option Z :=
  match n with
  | O => Some 0
  | S n =>
    match s1, s2 with
    | c :: s1, d :: s2 => if negb (u8 c =? u8 d) then Some (u8 c - u8 d) else memcmp s1 s2 n
    | _, _ => None
    end
  end.

Fixpoint memchr (s : list Z) (c : Z) (n : nat) : option (option (list Z)) :=
  match n with
  | O => Some None
  | S n =>
    match s with
    | [] => None
    | x :: s' => if u8 x =? u8 c then Some (Some s) else memchr s' c n
    end
  end.

(** ** atoi.c

    [None] is undefined behaviour: a read after the end of the object, or a number
    that does not fit an [int]. *)

Fixpoint atoi_digits (buf : list Z) (acc loc : Z) : option (Z * Z) :=
  match buf with
  | [] => None
  | c :: buf =>
    if (48 <=? c) && (c <=? 57) then
      let acc := acc * 10 + (c - 48) in
      if acc <? 2147483648 then atoi_digits buf acc (loc + 1) else None
    else Some (acc, loc)
  end.

(** The result, and the number stored through [i], if one is. *)
Definition atoi (buf : list Z) : option (Z * option Z) :=
  c ← head buf;
  let negative := negb (c =? 43) && (c =? 45) in
  let numstart := if (c =? 43) || (c =? 45) then 1 else 0 in
  '(acc, loc) ← atoi_digits (drop (Z.to_nat numstart) buf) 0 numstart;
  Some (if numstart =? loc then (0, None)
        else (loc, Some (if negative then - acc else acc))).

(** ** spinlock.c: the state is the word of the lock *)

Definition xchg (newval : Z) : M Z Z :=
  result ← gets id;
  _ ← modify (λ _, newval);
  mret result.

Definition user_spinlock_init : M Z unit := modify (λ _, 0).

Definition user_spinlock_holding : M Z Z := gets (λ l, cbool (negb (l =? 0))).

(** No other thread shares the memory: a lock that is held stays so. *)
Definition user_spinlock_acquire : M Z unit :=
  old ← xchg 1;
  if negb (old =? 0) then fail (Deadlock "lk") else mret tt.

Definition user_spinlock_release : M Z unit :=
  h ← user_spinlock_holding;
  if h =? 0 then mret tt
  else _ ← xchg 0; mret tt.

(** ** printfmt.c *)

(** A register or an argument: a number, or an address, which is what lies there. *)
Inductive val :=
| Num (z : Z)
| Ptr (p : list Z).

Definition NULL : val := Num 0.

(** The words of variadic arguments: the address of the [i]-th is taken as [i + 1],
    as only what lies there matters. *)
Definition words (vs : list val) : list Z :=
  imap (λ i v, match v with Num z => u32 z | Ptr _ => Z.of_nat i + 1 end) vs.
Definition strs (vs : list val) (p : Z) : list Z :=
  match vs !! Z.to_nat (p - 1) with Some (Ptr s) => s | _ => [] end.

(** The characters put.  The code is that of the kernel's, apart from octal numbers,
    which are not implemented ([SOL] is not defined). *)
Definition vprintfmt (fmt : list Z) (ap : list val) : option (list Z) :=
  Printf.vprintfmt false (strs ap) fmt (words ap).

(** [struct sprintbuf]: the object, and offsets in it.  [sb_ebuf] is [None] for the
    address ~0, which no object reaches. *)
Record sprintbuf := Sprintbuf {
  sb_obj : list Z; sb_buf : Z; sb_ebuf : option Z; sb_cnt : Z
}.

(** [*b->buf = c] *)
Definition sb_store (c : Z) (b : sprintbuf) : option (list Z) :=
  if sb_buf b <? Z.of_nat (length (sb_obj b))
  then Some (<[Z.to_nat (sb_buf b) := s8 c]> (sb_obj b)) else None.

Definition sprintputch (ch : Z) (b : sprintbuf) : option sprintbuf :=
  if match sb_ebuf b with None => true | Some e => sb_buf b <? e end then
    o ← sb_store ch b; Some (Sprintbuf o (sb_buf b + 1) (sb_ebuf b) (sb_cnt b + 1))
  else Some (Sprintbuf (sb_obj b) (sb_buf b) (sb_ebuf b) (sb_cnt b + 1)).

Fixpoint sprint_chars (cs : list Z) (b : sprintbuf) : option sprintbuf :=
  match cs with
  | [] => Some b
  | ch :: cs => b ← sprintputch ch b; sprint_chars cs b
  end.

(** The count and the object at [buf]. *)
Definition sprint_to (b : sprintbuf) (fmt : list Z) (ap : list val) : option (Z * list Z) :=
  cs ← vprintfmt fmt ap;
  b ← sprint_chars cs b;
  o ← sb_store 0 b;
  Some (sb_cnt b, o).

Definition vsprintf (buf fmt : list Z) (ap : list val) : option (Z * list Z) :=
  sprint_to (Sprintbuf buf 0 None 0) fmt ap.
Definition sprintf (buf fmt : list Z) (ap : list val) : option (Z * list Z) :=
  vsprintf buf fmt ap.
Definition vsnprintf (buf : list Z) (n : Z) (fmt : list Z) (ap : list val) : option (Z * list Z) :=
  sprint_to (Sprintbuf buf 0 (Some (n - 1)) 0) fmt ap.
Definition snprintf (buf : list Z) (n : Z) (fmt : list Z) (ap : list val) : option (Z * list Z) :=
  vsnprintf buf n fmt ap.

(** ** user/include/syscall.h *)

(** The registers at the trap instruction; the number of the call is in [eax]. *)
Record regs := Regs { r_eax : Z; r_ebx : val; r_ecx : val; r_edx : val; r_esi : val }.

(** After it: [eax], [ebx], and what lies at the buffer the call may write. *)
Record reply := Reply { p_eax : Z; p_ebx : Z; p_mem : list Z }.

(** The kernel, as seen by one process: [int $48]. *)
Class Gate (W : Type) := int_syscall : regs → M W reply.

(** What is needed, or the access is outside its object. *)
Definition within {S A} (what : string) (o : option A) : M S A :=
  match o with
  | Some a => mret a
  | None => fail (OutOfBounds what 0)
  end.

(** [errno ? -1 : v] *)
Definition errno_or (r : reply) (v : Z) : Z := if negb (p_eax r =? 0) then -1 else s32 v.

Section Stubs.
Context {W : Type} `{G : Gate W}.

(** Registers a stub does not set hold what they held. *)
Context (old : val).

Definition sys_puts (s : list Z) (len : Z) : M W unit :=
  _ ← int_syscall (Regs SYS_puts (Ptr s) (Num len) old old);
  mret tt.

Definition sys_sync_send (recv_pid : Z) (addr : list Z) (len : Z) : M W unit :=
  _ ← int_syscall (Regs SYS_sync_send (Num recv_pid) (Ptr addr) (Num len) old);
  mret tt.

Definition sys_sync_receive (send_pid : Z) (addr : list Z) (len : Z) : M W (Z * list Z) :=
  r ← int_syscall (Regs SYS_sync_recv (Num send_pid) (Ptr addr) (Num len) old);
  mret (errno_or r (p_ebx r), p_mem r).

Definition sys_spawn (exec quota : Z) : M W Z :=
  r ← int_syscall (Regs SYS_spawn (Num exec) (Num quota) old old);
  mret (errno_or r (p_ebx r)).

Definition sys_yield : M W unit :=
  _ ← int_syscall (Regs SYS_yield old old old old); mret tt.
Definition sys_produce : M W unit :=
  _ ← int_syscall (Regs SYS_produce old old old old); mret tt.
Definition sys_consume : M W unit :=
  _ ← int_syscall (Regs SYS_consume old old old old); mret tt.

Definition sys_read (fd : Z) (buf : list Z) (n : Z) : M W (Z * list Z) :=
  r ← int_syscall (Regs SYS_read (Num fd) (Ptr buf) (Num n) old);
  mret (errno_or r (p_ebx r), p_mem r).

Definition sys_write (fd : Z) (p : list Z) (n : Z) : M W Z :=
  r ← int_syscall (Regs SYS_write (Num fd) (Ptr p) (Num n) old);
  mret (errno_or r (p_ebx r)).

Definition sys_close (fd : Z) : M W Z :=
  r ← int_syscall (Regs SYS_close (Num fd) old old old);
  mret (errno_or r 0).

Definition sys_fstat (fd : Z) (st : list Z) : M W (Z * list Z) :=
  r ← int_syscall (Regs SYS_stat (Num fd) (Ptr st) old old);
  mret (errno_or r 0, p_mem r).

Definition sys_link (old_ new : list Z) : M W Z :=
  old_len ← within "old" (strlen old_);
  new_len ← within "new" (strlen new);
  r ← int_syscall (Regs SYS_link (Ptr old_) (Ptr new) (Num old_len) (Num new_len));
  mret (errno_or r 0).

Definition sys_unlink (path : list Z) : M W Z :=
  len ← within "path" (strlen path);
  r ← int_syscall (Regs SYS_unlink (Ptr path) (Num len) old old);
  mret (errno_or r 0).

Definition sys_open (path : list Z) (omode : Z) : M W Z :=
  len ← within "path" (strlen path);
  r ← int_syscall (Regs SYS_open (Ptr path) (Num omode) (Num len) old);
  mret (errno_or r (p_ebx r)).

Definition sys_mkdir (path : list Z) : M W Z :=
  len ← within "path" (strlen path);
  r ← int_syscall (Regs SYS_mkdir (Ptr path) (Num len) old old);
  mret (errno_or r 0).

Definition sys_is_dir (fd : Z) : M W Z :=
  r ← int_syscall (Regs SYS_is_dir (Num fd) old old old);
  mret (errno_or r (p_ebx r)).

Definition sys_chdir (path : list Z) : M W Z :=
  len ← within "path" (strlen path);
  r ← int_syscall (Regs SYS_chdir (Ptr path) (Num len) old old);
  mret (errno_or r 0).

Definition sys_readline (start : list Z) : M W (Z * list Z) :=
  r ← int_syscall (Regs SYS_readline (Ptr start) old old old);
  mret (errno_or r 0, p_mem r).

Definition sys_ls (buf : list Z) (buf_len : Z) : M W (Z * list Z) :=
  r ← int_syscall (Regs SYS_ls (Ptr buf) (Num buf_len) old old);
  mret (errno_or r (p_ebx r), p_mem r).

Definition sys_pwd (buf : list Z) : M W (Z * list Z) :=
  r ← int_syscall (Regs SYS_pwd (Ptr buf) old old old);
  mret (errno_or r 0, p_mem r).

Definition sys_cp (path1 path2 path3 : list Z) : M W Z :=
  r ← int_syscall (Regs SYS_cp (Ptr path1) (Ptr path2) (Ptr path3) old);
  mret (errno_or r 0).
Definition sys_mv : M W Z :=
  r ← int_syscall (Regs SYS_mv old old old old); mret (errno_or r 0).

Definition sys_rm (isRecursive : Z) (path : list Z) : M W Z :=
  len ← within "path" (strlen path);
  r ← int_syscall (Regs SYS_rm (Ptr path) (Num len) (Num isRecursive) old);
  mret (errno_or r 0).

Definition sys_cat : M W Z :=
  r ← int_syscall (Regs SYS_cat old old old old); mret (errno_or r 0).
Definition sys_touch : M W Z :=
  r ← int_syscall (Regs SYS_touch old old old old); mret (errno_or r 0).

(** [act] and [oldact] may be null; what is at [oldact] after. *)
Definition sys_sigaction (signum : Z) (act oldact : val) : M W (Z * list Z) :=
  r ← int_syscall (Regs SYS_sigaction (Num signum) act oldact old);
  mret (errno_or r 0, p_mem r).

Definition sys_kill (pid signum : Z) : M W Z :=
  r ← int_syscall (Regs SYS_kill (Num pid) (Num signum) old old);
  mret (errno_or r 0).

Definition sys_pause : M W Z :=
  r ← int_syscall (Regs SYS_pause old old old old); mret (errno_or r 0).

(** ** proc.c and signal.c *)

Definition spawn (exec quota : Z) : M W Z := sys_spawn exec quota.
Definition yield : M W unit := sys_yield.
Definition produce : M W unit := sys_produce.
Definition consume : M W unit := sys_consume.
Definition sigaction (signum : Z) (act oldact : val) : M W (Z * list Z) :=
  sys_sigaction signum act oldact.
Definition kill (pid signum : Z) : M W Z := sys_kill pid signum.
Definition pause : M W Z := sys_pause.

(** ** printf.c *)

Definition MAX_BUF : Z := 4096.

(** [struct printbuf]; [idx] is the length of what is in the buffer. *)
Record printbuf := Printbuf { pb_buf : list Z; pb_cnt : Z }.

Definition putch (ch : Z) (b : printbuf) : M W printbuf :=
  let buf := pb_buf b ++ [s8 ch] in
  let idx := Z.of_nat (length buf) in
  if idx =? MAX_BUF - 1 then
    _ ← sys_puts (buf ++ [0]) idx;
    mret (Printbuf [] (pb_cnt b + 1))
  else mret (Printbuf buf (pb_cnt b + 1)).

Fixpoint put_all (cs : list Z) (b : printbuf) : M W printbuf :=
  match cs with
  | [] => mret b
  | ch :: cs => b ← putch ch b; put_all cs b
  end.

Definition vcprintf (fmt : list Z) (ap : list val) : M W Z :=
  cs ← within "va_arg" (vprintfmt fmt ap);
  b ← put_all cs (Printbuf [] 0);
  _ ← sys_puts (pb_buf b ++ [0]) (Z.of_nat (length (pb_buf b)));
  mret (pb_cnt b).

Definition printf (fmt : list Z) (ap : list val) : M W Z := vcprintf fmt ap.

(** ** debug.c *)

Definition debug (file : list Z) (line : Z) (fmt : list Z) (ap : list val) : M W unit :=
  _ ← printf (codes "[D] %s:%d: ") [Ptr file; Num line]; _ ← vcprintf fmt ap; mret tt.
Definition warn (file : list Z) (line : Z) (fmt : list Z) (ap : list val) : M W unit :=
  _ ← printf (codes "[W] %s:%d: ") [Ptr file; Num line]; _ ← vcprintf fmt ap; mret tt.

(** [while (1) yield()]: it never returns. *)
Fixpoint yield_for_ever (fuel : nat) : M W unit :=
  match fuel with
  | O => fail OutOfFuel
  | S fuel => _ ← yield; yield_for_ever fuel
  end.
Definition panic (fuel : nat) (file : list Z) (line : Z) (fmt : list Z) (ap : list val) : M W unit :=
  _ ← printf (codes "[P] %s:%d: ") [Ptr file; Num line]; _ ← vcprintf fmt ap; yield_for_ever fuel.
End Stubs.

(** ** Lemmas *)

(** C strings: no zero byte inside. *)
Definition chars (s : list Z) : Prop := Forall (λ c, c ≠ 0) s.

#[export] Instance chars_dec s : Decision (chars s).
Proof. unfold chars. apply _. Defined.

Lemma strlen_chars s rest : chars s → strlen (s ++ 0 :: rest) = Some (Z.of_nat (length s)).
Proof.
  induction 1 as [|c s Hc Hs IH]; [done|]. cbn [app strlen length].
  rewrite (proj2 (Z.eqb_neq _ _)) by done. rewrite IH. cbn. f_equal. lia.
Qed.

Lemma strcpy_chars dst s rest :
  chars s → (length s < length dst)%nat →
  strcpy dst (s ++ 0 :: rest) = Some (s ++ 0 :: drop (S (length s)) dst).
Proof.
  intros Hs. revert dst. induction Hs as [|c s Hc Hs IH]; intros [|d dst] Hl; cbn in Hl; try lia.
  { cbn. by rewrite drop_0. }
  cbn [app strcpy length drop]. rewrite (proj2 (Z.eqb_neq _ _)) by done.
  rewrite IH by lia. done.
Qed.

Definition is_char (c : Z) : Prop := -128 ≤ c < 128.

Lemma u8_char_inj c d : is_char c → is_char d → u8 c - u8 d = 0 → c = d.
Proof.
  unfold is_char, u8. intros Hc Hd E.
  pose proof (Z.div_mod c 256 ltac:(lia)). pose proof (Z.div_mod d 256 ltac:(lia)). lia.
Qed.

(** [strcmp] of C strings decides their equality. *)
Lemma strcmp_chars s t r1 r2 :
  chars s → chars t → Forall is_char s → Forall is_char t →
  ∃ z, strcmp (s ++ 0 :: r1) (t ++ 0 :: r2) = Some z ∧ (z = 0 ↔ s = t).
Proof.
  assert (is_char 0) as B0 by (unfold is_char; lia).
  intros Hs. revert t. induction Hs as [|c s Hc Hs IH]; intros t Ht Bs Bt.
  - destruct Ht as [|d t Hd Ht]; [by exists 0|].
    apply Forall_cons_1 in Bt as [Bd _]. exists (u8 0 - u8 d). split; [done|]. split; [|done].
    intros E. by apply u8_char_inj in E.
  - apply Forall_cons_1 in Bs as [Bc Bs]. cbn [app strcmp].
    rewrite (proj2 (Z.eqb_neq c 0)) by done. destruct Ht as [|d t Hd Ht]; cbn [app negb andb].
    + rewrite (proj2 (Z.eqb_neq c 0)) by done. exists (u8 c - u8 0). split; [done|].
      split; [|done]. intros E. by apply u8_char_inj in E.
    + apply Forall_cons_1 in Bt as [Bd Bt]. destruct (Z.eqb_spec c d) as [-> |Hcd].
      * destruct (IH t Ht Bs Bt) as (z & E & Hz). exists z. split; [done|].
        rewrite Hz. split; [by intros ->|by intros [= ->]].
      * exists (u8 c - u8 d). split; [done|]. split; [|congruence].
        intros E. by apply u8_char_inj in E.
Qed.

(** Bounded formatting keeps a prefix of the characters put. *)
Lemma sprint_chars_bounded cs pre rest e c :
  Z.of_nat (length pre) ≤ e ≤ Z.of_nat (length (pre ++ rest)) →
  let k := Nat.min (length cs) (Z.to_nat (e - Z.of_nat (length pre))) in
  sprint_chars cs (Sprintbuf (pre ++ rest) (Z.of_nat (length pre)) (Some e) c)
  = Some (Sprintbuf (pre ++ (s8 <$> take k cs) ++ drop k rest) (Z.of_nat (length pre + k))
            (Some e) (c + Z.of_nat (length cs))).
Proof.
  revert pre rest c. induction cs as [|ch cs IH]; intros pre rest c He k; subst k.
  { cbn. rewrite drop_0, Nat.add_0_r, Z.add_0_r. done. }
  cbn [sprint_chars]. unfold sprintputch. cbn [sb_ebuf sb_buf sb_obj sb_cnt].
  rewrite length_app in He. destruct (Z.ltb_spec (Z.of_nat (length pre)) e) as [Hlt|Hge].
  - destruct rest as [|d rest]; cbn [length] in He; [lia|].
    unfold sb_store. cbn [sb_buf sb_obj]. rewrite (proj2 (Z.ltb_lt _ _)) by (rewrite length_app; cbn; lia).
    cbn [mbind option_bind]. rewrite Nat2Z.id, insert_app_r_alt, Nat.sub_diag by lia. cbn [insert list_insert].
    replace (pre ++ s8 ch :: rest) with ((pre ++ [s8 ch]) ++ rest) by by rewrite <- (assoc (++)).
    replace (Z.of_nat (length pre) + 1) with (Z.of_nat (length (pre ++ [s8 ch])))
      by (rewrite length_app; cbn; lia).
    rewrite IH by (rewrite !length_app; cbn [length]; lia).
    rewrite length_app. cbn [length].
    replace (Z.to_nat (e - Z.of_nat (length pre)))
      with (S (Z.to_nat (e - Z.of_nat (length pre + 1)))) by lia.
    cbn [Nat.min take drop fmap list_fmap]. rewrite <- !(assoc (++)). cbn [app].
    f_equal. f_equal; lia.
  - cbn [mbind option_bind]. rewrite IH by (rewrite length_app; lia).
    replace (Z.to_nat (e - Z.of_nat (length pre))) with 0%nat by lia. rewrite !Nat.min_0_r.
    cbn. f_equal. f_equal. lia.
Qed.

Lemma vsnprintf_prefix buf n fmt ap cs :
  vprintfmt fmt ap = Some cs → 0 < n ≤ Z.of_nat (length buf) →
  let k := Nat.min (length cs) (Z.to_nat (n - 1)) in
  vsnprintf buf n fmt ap
  = Some (Z.of_nat (length cs), (s8 <$> take k cs) ++ 0 :: drop (S k) buf).
Proof.
  intros Ev Hn k. unfold vsnprintf, sprint_to. rewrite Ev. cbn [mbind option_bind].
  pose proof (sprint_chars_bounded cs [] buf (n - 1) 0) as E. cbn [app length] in E.
  change (Z.of_nat 0) with 0 in E. rewrite Z.sub_0_r, Nat.add_0_l in E. rewrite E by lia. fold k. cbn [mbind option_bind].
  unfold sb_store. cbn [sb_buf sb_obj sb_cnt].
  assert (k < length buf)%nat as Hk by lia.
  assert (length (s8 <$> take k cs) = k) as Ek by (rewrite length_fmap, length_take; lia).
  rewrite (proj2 (Z.ltb_lt _ _)) by (rewrite length_app, length_drop, Ek; lia).
  cbn [mbind option_bind]. rewrite Nat2Z.id, insert_app_r_alt, Ek, Nat.sub_diag by lia.
  destruct (drop k buf) as [|d rest] eqn:Ed.
  { apply (f_equal length) in Ed. rewrite length_drop in Ed. cbn in Ed. lia. }
  cbn [insert list_insert]. change (s8 0) with 0. do 4 f_equal.
  rewrite <- Nat.add_1_r, <- drop_drop, Ed. done.
Qed.

(** Reading decimal digits. *)
Lemma decimal_value d : decimal d → digit_val d = d - 48 ∧ 48 ≤ d ≤ 57.
Proof.
  intros Hd. pose proof (decimal_range _ Hd). unfold digit_val. by rewrite (proj2 (Z.leb_le _ _)) by lia.
Qed.

Lemma parse_grows ds acc : Forall decimal ds → 0 ≤ acc → acc ≤ foldl (λ a c, a * 10 + digit_val c) acc ds.
Proof.
  intros Hd. revert acc. induction Hd as [|d ds Hd Hds IH]; intros acc Ha; cbn [foldl]; [done|].
  destruct (decimal_value d Hd) as [E ?]. specialize (IH (acc * 10 + digit_val d)). lia.
Qed.

Lemma atoi_digits_parse ds c rest acc loc :
  Forall decimal ds → ¬ (48 ≤ c ≤ 57) → 0 ≤ acc →
  foldl (λ a c, a * 10 + digit_val c) acc ds < 2147483648 →
  atoi_digits (ds ++ c :: rest) acc loc
  = Some (foldl (λ a c, a * 10 + digit_val c) acc ds, loc + Z.of_nat (length ds)).
Proof.
  intros Hd Hc. revert acc loc. induction Hd as [|d ds Hd Hds IH]; intros acc loc Ha Hf; cbn [app atoi_digits foldl length].
  - rewrite Z.add_0_r. destruct (Z.leb_spec 48 c), (Z.leb_spec c 57); cbn [andb]; [lia|done..].
  - destruct (decimal_value d Hd) as [E ?]. cbn [foldl] in Hf. rewrite E in Hf.
    pose proof (parse_grows ds (acc * 10 + (d - 48)) Hds). rewrite !(proj2 (Z.leb_le _ _)), (proj2 (Z.ltb_lt _ _)) by lia.
    cbn [andb]. rewrite IH, E by (done || lia). do 2 f_equal. lia.
Qed.

Lemma numeral_atoi n ds rest :
  -2147483648 < n < 2147483648 → numeral 10 (Z.abs n) ds →
  atoi ((if n <? 0 then [45] else []) ++ ds ++ 0 :: rest)
  = Some (Z.of_nat (length ((if n <? 0 then [45] else []) ++ ds)), Some n).
Proof.
  intros Hn [Hv Hd Hs].
  assert (1 ≤ Z.of_nat (length ds)) by (destruct Hs as [-> |(? & ? & -> & _)]; cbn; lia).
  assert (∀ loc, atoi_digits (ds ++ 0 :: rest) 0 loc = Some (Z.abs n, loc + Z.of_nat (length ds))) as E.
  { intros loc. rewrite atoi_digits_parse by (done || (try fold (parse 10 ds); lia)). fold (parse 10 ds). by rewrite Hv. }
  unfold atoi. destruct (Z.ltb_spec n 0).
  - cbn [app head mbind option_bind].
    change (45 =? 43) with false. change (45 =? 45) with true. cbn [negb andb orb].
    change (drop (Z.to_nat 1) (45 :: ds ++ 0 :: rest)) with (ds ++ 0 :: rest). rewrite E.
    cbn [mbind option_bind length]. rewrite (proj2 (Z.eqb_neq _ _)) by lia. repeat f_equal; lia.
  - destruct ds as [|x ds]; cbn [length] in *; [lia|]. cbn [app head mbind option_bind].
    apply Forall_cons_1 in Hd as [Hx Hd']. pose proof (decimal_range _ Hx).
    rewrite (proj2 (Z.eqb_neq x 43)), (proj2 (Z.eqb_neq x 45)) by lia. cbn [negb andb orb].
    change (Z.to_nat 0) with 0%nat. rewrite drop_0. cbn [app] in E. rewrite E.
    cbn [mbind option_bind length]. rewrite (proj2 (Z.eqb_neq _ _)) by lia. repeat f_equal; lia.
Qed.

(** A decimal of an [int] has at most ten digits. *)
Lemma parse_length ds : Forall decimal ds →
  (∃ c ds', ds = c :: ds' ∧ c ≠ 48) → 10 ^ (Z.of_nat (length ds) - 1) ≤ parse 10 ds.
Proof.
  intros Hd. induction ds as [|d ds IH] using rev_ind; [by intros (? & ? & ? & ?)|].
  intros (c & ds' & E & Hc). apply Forall_app in Hd as [Hds Hd'].
  apply Forall_cons_1 in Hd' as [Hd' _]. pose proof (decimal_range _ Hd').
  unfold parse in *. rewrite foldl_app, length_app. cbn [foldl length].
  assert (digit_val d = d - 48) as -> by (unfold digit_val; by rewrite (proj2 (Z.leb_le _ _)) by lia).
  destruct ds as [|x ds]; cbn [app] in E.
  - injection E as -> <-. cbn. lia.
  - injection E as -> E. assert (10 ^ (Z.of_nat (length (c :: ds)) - 1)
      ≤ foldl (λ a c, a * 10 + digit_val c) 0 (c :: ds)) as IH' by (apply IH; eauto).
    cbn [length] in IH' |- *.
    replace (Z.of_nat (S (length ds) + 1) - 1) with (Z.succ (Z.of_nat (S (length ds)) - 1)) by lia.
    rewrite Z.pow_succ_r by lia. lia.
Qed.

Lemma numeral_short n ds :
  -2147483648 ≤ n < 2147483648 → numeral 10 (Z.abs n) ds →
  Z.of_nat (length ((if n <? 0 then [45] else []) ++ ds)) ≤ 11.
Proof.
  intros Hn [Hv Hd Hs]. assert (Z.of_nat (length ds) ≤ 10).
  { destruct Hs as [-> |Hs]; [cbn; lia|]. pose proof (parse_length ds Hd Hs) as H.
    rewrite Hv in H. destruct (decide (Z.of_nat (length ds) ≤ 10)); [done|].
    assert (10 ^ 10 ≤ 10 ^ (Z.of_nat (length ds) - 1)) by (apply Z.pow_le_mono_r; lia). lia. }
  rewrite length_app. destruct (n <? 0); cbn [length]; lia.
Qed.

Lemma numeral_chars n ds : numeral 10 (Z.abs n) ds →
  let cs := (if n <? 0 then [45] else []) ++ ds in chars cs ∧ s8 <$> cs = cs.
Proof.
  intros [_ Hd _] cs. assert (Forall (λ c, 45 ≤ c ≤ 57) cs) as H.
  { apply Forall_app_2; [destruct (n <? 0); repeat constructor; lia|].
    eapply Forall_impl; [exact Hd|]. intros c Hc%decimal_range. lia. }
  split; [by eapply Forall_impl; [exact H|]; cbn; lia|].
  rewrite <- (list_fmap_id cs) at 2. apply list_fmap_ext. intros i c Hi.
  eapply Forall_lookup_1 in H; [|exact Hi]. unfold s8. rewrite Z.mod_small; cbn; lia.
Qed.

(** ** Properties *)

(** C40: A number printed into a buffer.  For every [int] and every buffer of at least
    one byte, [snprintf] with [%d] and the size of the buffer or less writes as much of
    the decimal text of the number (a sign and digits without leading zeros, at most 11
    characters) as fits before a terminator, nothing after it, and returns the length of
    the whole text.  If all of it fits, [atoi] takes every character and gives the number
    back, except for the smallest [int], the digits of which overflow [atoi]. *)
Theorem snprintf_atoi_roundtrip n buf size :
  -2147483648 ≤ n < 2147483648 → 0 < size ≤ Z.of_nat (length buf) → Z.of_nat (length buf) < 2147483648 →
  ∃ ds, numeral 10 (Z.abs n) ds ∧
    let cs := (if n <? 0 then [45] else []) ++ ds in
    let k := Nat.min (length cs) (Z.to_nat (size - 1)) in
    let buf' := take k cs ++ 0 :: drop (S k) buf in
    Z.of_nat (length cs) ≤ 11
    ∧ snprintf buf size (codes "%d") [Num n] = Some (Z.of_nat (length cs), buf')
    ∧ (Z.of_nat (length cs) < size → strlen buf' = Some (Z.of_nat (length cs))
        ∧ (n ≠ -2147483648 → atoi buf' = Some (Z.of_nat (length cs), Some n))).
Proof.
  intros Hn Hb Hl. destruct (printf_decimal false (strs [Num n]) n Hn) as (ds & E & Hd). exists ds. split; [done|].
  intros cs k buf'. fold cs in E.
  pose proof (numeral_chars n ds Hd) as [Hc Hs]. fold cs in Hc, Hs.
  split; [by apply numeral_short|]. split.
  - pose proof (vsnprintf_prefix buf size (codes "%d") [Num n] cs E Hb) as P. cbv zeta in P. fold k in P.
    unfold snprintf. by rewrite P, fmap_take, Hs.
  - intros Hfit. assert (k = length cs) as Ek by (unfold k; lia). unfold buf'. rewrite Ek, take_ge by done.
    split; [by apply strlen_chars|]. intros Hmin. unfold cs. rewrite <- (assoc (++)). apply numeral_atoi; [lia|done].
Qed.

(** In a buffer of three bytes and in one of sixteen. *)
Lemma snprintf_atoi_roundtrip_witness :
  (∃ cs : list Z, Z.of_nat (length cs) ≤ 11
     ∧ snprintf (replicate 16 7) 3 (codes "%d") [Num (-2147483648)]
       = Some (Z.of_nat (length cs), [45; 50; 0] ++ replicate 13 7))
  ∧ ∃ k buf', snprintf (replicate 16 7) 16 (codes "%d") [Num (-1234)] = Some (k, buf')
      ∧ atoi buf' = Some (k, Some (-1234)).
Proof.
  split.
  - destruct (snprintf_atoi_roundtrip (-2147483648) (replicate 16 7) 3) as (ds & _ & Hl & E & _);
      [lia|cbn; lia|cbn; lia|]. eexists. split; [exact Hl|].
    assert (snprintf (replicate 16 7) 3 (codes "%d") [Num (-2147483648)]
      = Some (11, [45; 50; 0] ++ replicate 13 7)) as F by (vm_compute; reflexivity).
    pose proof F as G. rewrite E in G. apply (f_equal (option_map fst)) in G. cbn [option_map fst] in G.
    injection G as G. rewrite F. by rewrite <- G.
  - destruct (snprintf_atoi_roundtrip (-1234) (replicate 16 7) 16) as (ds & _ & Hl & E & Hr);
      [lia|cbn; lia|cbn; lia|]. eexists _, _. split; [exact E|]. destruct Hr as [_ Hr]; [lia|]. by apply Hr.
Defined.
