(* ===== verification/FileTree.v ===== *)
(** * What the file system calls promise to a process

    The view a process has of the file system: a tree, its working directory and
    its open files.  [FileCalls] states, call by call, what the shell assumes of the
    kernel; it is not derived from the model of the kernel, whose file calls keep less
    (see [sys_ls] and [sys_pwd]).  [tree_gate] is an executable system
    that keeps these promises, for examples.  The names lead to
    files, which have contents of their own: a file may have several names, or none
    while it is open. *)

From S2P Require Import Prelude Memory Strings Console Printf CallNumbers UserLib.

(** ** Trees *)

#[local] Set Warnings "-register-all".

Inductive node :=
| File (ino : Z)
| Dir (es : list (list Z * node)).

Abbreviation name := (list Z).

Fixpoint child (es : list (name * node)) (e : name) : option node :=
  match es with
  | [] => None
  | (x, n) :: es => if decide (x = e) then Some n else child es e
  end.

(** Replace the entry of a name, and delete it. *)
Fixpoint repl (es : list (name * node)) (e : name) (m : node) : list (name * node) :=
  match es with
  | [] => []
  | (x, n) :: es => if decide (x = e) then (x, m) :: es else (x, n) :: repl es e m
  end.

Fixpoint del (es : list (name * node)) (e : name) : list (name * node) :=
  match es with
  | [] => []
  | (x, n) :: es => if decide (x = e) then es else (x, n) :: del es e
  end.

(** The node at a path from the root, and the tree with another node there. *)
Fixpoint look (n : node) (p : list name) : option node :=
  match p with
  | [] => Some n
  | e :: p => match n with Dir es => c ← child es e; look c p | File _ => None end
  end.

Fixpoint upd (n : node) (p : list name) (m : node) : node :=
  match p with
  | [] => m
  | e :: p =>
    match n with
    | Dir es => match child es e with Some c => Dir (repl es e (upd c p m)) | None => n end
    | File _ => n
    end
  end.

Definition is_directory (n : node) : bool := match n with Dir _ => true | File _ => false end.

(** ** The view of a process *)

(** An open file: where the next read or write is, and what is allowed. *)
Record descr := Descr { d_dir : bool; d_ino : Z; d_off : Z; d_readable : bool; d_writable : bool }.

Record fsview := FsView {
  fs_root : node;
  fs_cwd : list name;
  fs_data : gmap Z (list Z);   (** the contents of the files *)
  fs_open : gmap Z descr;
  fs_out : list Z              (** what was printed *)
}.

Definition with_root (r : node) (v : fsview) : fsview :=
  FsView r (fs_cwd v) (fs_data v) (fs_open v) (fs_out v).
Definition with_cwd (p : list name) (v : fsview) : fsview :=
  FsView (fs_root v) p (fs_data v) (fs_open v) (fs_out v).
Definition with_data (d : gmap Z (list Z)) (v : fsview) : fsview :=
  FsView (fs_root v) (fs_cwd v) d (fs_open v) (fs_out v).
Definition with_open (o : gmap Z descr) (v : fsview) : fsview :=
  FsView (fs_root v) (fs_cwd v) (fs_data v) o (fs_out v).
Definition with_out (o : list Z) (v : fsview) : fsview :=
  FsView (fs_root v) (fs_cwd v) (fs_data v) (fs_open v) o.

(** The descriptor [open] makes for a node. *)
Definition open_descr (n : node) (omode : Z) : descr :=
  let w := Z.testbit omode 0 in
  Descr (is_directory n) (match n with File i => i | Dir _ => 0 end) 0 (negb w)
    (w || Z.testbit omode 1).

Definition dot : name := [46].
Definition dotdot : name := [46; 46].

(** Following the elements of a path: the path from the root it leads to. *)
Fixpoint walk (r : node) (p : list name) (es : list name) : option (list name) :=
  match es with
  | [] => Some p
  | e :: es =>
    match look r p with
    | Some (Dir ds) =>
      if decide (e = dot) then walk r p es
      else if decide (e = dotdot) then walk r (removelast p) es
      else match child ds e with Some _ => walk r (p ++ [e]) es | None => None end
    | _ => None
    end
  end.

Definition start_of (v : fsview) (path : list Z) : list name :=
  if decide (head path = Some SLASH) then [] else fs_cwd v.

Definition resolve (v : fsview) (path : list Z) : option (list name) :=
  walk (fs_root v) (start_of v path) (elements_of path).

(** The directory and the last element. *)
Definition resolve_parent (v : fsview) (path : list Z) : option (list name * name) :=
  match reverse (elements_of path) with
  | [] => None
  | e :: es =>
    p ← walk (fs_root v) (start_of v path) (reverse es);
    match look (fs_root v) p with Some (Dir _) => Some (p, e) | _ => None end
  end.

(** The names in a directory, as listed: a space after each, but zero at the end. *)
Definition dir_names (es : list (name * node)) : list name := dot :: dotdot :: es.*1.
Definition ended (c : Z) (ns : list name) : list Z := concat ((λ e, e ++ [c]) <$> ns).
Definition listing (es : list (name * node)) : list Z :=
  let l := ended 32 (dir_names es) in take (length l - 1) l ++ [0].

(** A process has sixteen descriptors. *)
Definition FDS : Z := 16.

(** A string no longer than the buffers of the kernel for paths. *)
Definition path_string (s : list Z) : Prop := chars s ∧ Z.of_nat (length s) < 128.

(** ** The promises *)

Class FileCalls (W : Type) `{G : Gate W} (old : val) := {
  view : W → fsview;
  open_found w s rest p n :
    path_string s → resolve (view w) s = Some p → look (fs_root (view w)) p = Some n →
    Z.of_nat (size (fs_open (view w))) < FDS →
    wp (sys_open old (s ++ 0 :: rest) 0) (λ fd w',
      0 ≤ fd ∧ fs_open (view w) !! fd = None
      ∧ view w' = with_open (<[fd := open_descr n 0]> (fs_open (view w))) (view w)) w;
  open_missing w s rest :
    path_string s → resolve (view w) s = None →
    wp (sys_open old (s ++ 0 :: rest) 0) (λ fd w', fd = -1 ∧ view w' = view w) w;
  close_done w fd d :
    fs_open (view w) !! fd = Some d →
    wp (sys_close old fd) (λ r w', r = 0 ∧ view w' = with_open (delete fd (fs_open (view w))) (view w)) w;
  is_dir_done w fd d :
    fs_open (view w) !! fd = Some d →
    wp (sys_is_dir old fd) (λ r w', r = cbool (d_dir d) ∧ view w' = view w) w;
  chdir_done w s rest p es :
    path_string s → resolve (view w) s = Some p → look (fs_root (view w)) p = Some (Dir es) →
    wp (sys_chdir old (s ++ 0 :: rest)) (λ r w', r = 0 ∧ view w' = with_cwd p (view w)) w;
  ls_done w buf buf_len es :
    look (fs_root (view w)) (fs_cwd (view w)) = Some (Dir es) →
    Z.of_nat (length (listing es)) ≤ buf_len ≤ Z.of_nat (length buf) → buf_len < 2147483648 →
    wp (sys_ls old buf buf_len) (λ r w',
      r = (Z.of_nat (length (listing es)), listing es ++ drop (length (listing es)) buf)
      ∧ view w' = view w) w;
  unlink_done w s rest p e es n :
    path_string s → resolve_parent (view w) s = Some (p, e) → e ≠ dot → e ≠ dotdot →
    look (fs_root (view w)) p = Some (Dir es) → child es e = Some n →
    (∀ ds, n = Dir ds → ds = []) → ¬ (p ++ [e]) `prefix_of` fs_cwd (view w) →
    wp (sys_unlink old (s ++ 0 :: rest)) (λ r w',
      r = 0 ∧ view w' = with_root (upd (fs_root (view w)) p (Dir (del es e))) (view w)) w;
  puts_done w s len :
    0 ≤ len ≤ Z.of_nat (length s) →
    wp (sys_puts old s len) (λ _ w',
      view w' = with_out (fs_out (view w) ++ take (Z.to_nat len) s) (view w)) w
}.

(** ** An executable system *)

(** The first descriptor that is not open, and a file that does not exist. *)
Definition free_fd (o : gmap Z descr) : Z :=
  default FDS (snd <$> list_find (λ fd, o !! fd = None) (seqZ 0 FDS)).
Definition new_ino (d : gmap Z (list Z)) : Z := map_fold (λ i _ m, Z.max m (i + 1)) 1 d.

Definition done (eax ebx : Z) (m : list Z) : M fsview reply := mret (Reply eax ebx m).
Definition refuse : M fsview reply := done 13 0 [].

(** A new entry in a directory that has no entry of this name. *)
Definition tree_add (path : list Z) (n : node) : M fsview bool :=
  v ← gets id;
  match resolve_parent v path with
  | None => mret false
  | Some (p, e) =>
    if decide (e = dot ∨ e = dotdot) then mret false
    else match look (fs_root v) p with
    | Some (Dir es) =>
      if decide (child es e = None) then
        _ ← modify (with_root (upd (fs_root v) p (Dir (es ++ [(e, n)])))); mret true
      else mret false
    | _ => mret false
    end
  end.

Definition tree_find (path : list Z) : M fsview (option node) :=
  gets (λ v, p ← resolve v path; look (fs_root v) p).

Definition open_node (n : node) (omode : Z) : M fsview reply :=
  v ← gets id;
  let fd := free_fd (fs_open v) in
  if FDS <=? fd then refuse
  else
    _ ← modify (with_open (<[fd := open_descr n omode]> (fs_open v)));
    done 0 fd [].

Definition tree_open (path : list Z) (omode : Z) : M fsview reply :=
  found ← tree_find path;
  if Z.testbit omode 9 then
    match found with
    | Some (Dir _) => refuse
    | Some n => open_node n omode
    | None =>
      i ← gets (λ v, new_ino (fs_data v));
      ok ← tree_add path (File i);
      if (ok : bool) then
        _ ← modify (λ v, with_data (<[i := []]> (fs_data v)) v); open_node (File i) omode
      else refuse
    end
  else
    match found with
    | None => refuse
    | Some n => if is_directory n && negb (omode =? 0) then refuse else open_node n omode
    end.

Definition tree_mkdir (path : list Z) : M fsview reply :=
  ok ← tree_add path (Dir []); if (ok : bool) then done 0 0 [] else refuse.

Definition tree_link (old new : list Z) : M fsview reply :=
  found ← tree_find old;
  match found with
  | Some (File i) => ok ← tree_add new (File i); if (ok : bool) then done 0 0 [] else refuse
  | _ => refuse
  end.

(** A failed read or write gives -1 without an error number. *)
Definition tree_read (fd : Z) (buf : list Z) (n : Z) : M fsview reply :=
  v ← gets id;
  match fs_open v !! fd with
  | None => refuse
  | Some d =>
    if negb (d_readable d) || d_dir d then done 0 (-1) buf
    else
      let bs := take (Z.to_nat n) (drop (Z.to_nat (d_off d)) (default [] (fs_data v !! d_ino d))) in
      let k := Z.of_nat (length bs) in
      _ ← modify (with_open (<[fd := Descr false (d_ino d) (d_off d + k) true (d_writable d)]> (fs_open v)));
      done 0 k (bs ++ drop (length bs) buf)
  end.

(** The largest file: 12 direct and 128 indirect blocks. *)
Definition MAXSIZE : Z := 140 * 512.

Definition tree_write (fd : Z) (p : list Z) (n : Z) : M fsview reply :=
  v ← gets id;
  match fs_open v !! fd with
  | None => refuse
  | Some d =>
    if negb (d_writable d) || d_dir d || (MAXSIZE <? d_off d + n) then done 0 (-1) []
    else
      let bs := take (Z.to_nat n) p in
      let data := default [] (fs_data v !! d_ino d) in
      let data := take (Z.to_nat (d_off d)) data ++ bs ++ drop (Z.to_nat (d_off d + n)) data in
      _ ← modify (with_data (<[d_ino d := data]> (fs_data v)));
      _ ← modify (with_open (<[fd := Descr false (d_ino d) (d_off d + n) (d_readable d) true]> (fs_open v)));
      done 0 n []
  end.

Definition tree_chdir (path : list Z) : M fsview reply :=
  v ← gets id;
  match resolve v path with
  | None => refuse
  | Some p =>
    match look (fs_root v) p with
    | Some (Dir _) => _ ← modify (with_cwd p); done 0 0 []
    | _ => refuse
    end
  end.

Definition tree_ls (buf : list Z) (len : Z) : M fsview reply :=
  v ← gets id;
  match look (fs_root v) (fs_cwd v) with
  | Some (Dir es) =>
    let l := take (Z.to_nat len) (listing es) in
    done 0 (Z.of_nat (length l)) (l ++ drop (length l) buf)
  | _ => refuse
  end.

Definition tree_unlink (path : list Z) : M fsview reply :=
  v ← gets id;
  match resolve_parent v path with
  | None => refuse
  | Some (p, e) =>
    if decide (e = dot ∨ e = dotdot) then refuse
    else match look (fs_root v) p with
    | Some (Dir es) =>
      match child es e with
      | None | Some (Dir (_ :: _)) => refuse
      | Some _ => _ ← modify (with_root (upd (fs_root v) p (Dir (del es e)))); done 0 0 []
      end
    | _ => refuse
    end
  end.

(** The bytes of a path argument. *)
Definition path_arg (p len : val) : list Z :=
  match p, len with Ptr s, Num n => take (Z.to_nat n) s | _, _ => [] end.
Definition num_arg (v : val) : Z := match v with Num n => n | Ptr _ => 0 end.

(** Calls that concern no files are accepted without effect. *)
#[export] Instance tree_gate : Gate fsview := λ r,
  let nr := r_eax r in
  if nr =? SYS_open then tree_open (path_arg (r_ebx r) (r_edx r)) (num_arg (r_ecx r))
  else if nr =? SYS_mkdir then tree_mkdir (path_arg (r_ebx r) (r_ecx r))
  else if nr =? SYS_link then tree_link (path_arg (r_ebx r) (r_edx r)) (path_arg (r_ecx r) (r_esi r))
  else if nr =? SYS_read then
    match r_ecx r with Ptr buf => tree_read (num_arg (r_ebx r)) buf (num_arg (r_edx r)) | Num _ => refuse end
  else if nr =? SYS_write then
    match r_ecx r with Ptr p => tree_write (num_arg (r_ebx r)) p (num_arg (r_edx r)) | Num _ => refuse end
  else if nr =? SYS_close then
    v ← gets id;
    match fs_open v !! num_arg (r_ebx r) with
    | None => refuse
    | Some _ => _ ← modify (with_open (delete (num_arg (r_ebx r)) (fs_open v))); done 0 0 []
    end
  else if nr =? SYS_is_dir then
    v ← gets id;
    match fs_open v !! num_arg (r_ebx r) with None => refuse | Some d => done 0 (cbool (d_dir d)) [] end
  else if nr =? SYS_chdir then tree_chdir (path_arg (r_ebx r) (r_ecx r))
  else if nr =? SYS_ls then
    match r_ebx r with Ptr buf => tree_ls buf (num_arg (r_ecx r)) | Num _ => refuse end
  else if nr =? SYS_unlink then tree_unlink (path_arg (r_ebx r) (r_ecx r))
  else if nr =? SYS_puts then
    _ ← modify (λ v, with_out (fs_out v ++ path_arg (r_ebx r) (r_ecx r)) v); done 0 0 []
  else done 0 0 [].

(** ** It keeps the promises *)

Lemma path_arg_string s rest : chars s →
  path_arg (Ptr (s ++ 0 :: rest)) (Num (Z.of_nat (length s))) = s.
Proof. intros _. cbn. by rewrite Nat2Z.id, take_app_length. Qed.

Lemma free_fd_free o : Z.of_nat (size o) < FDS →
  0 ≤ free_fd o < FDS ∧ o !! free_fd o = None.
Proof.
  intros Hs. unfold free_fd. destruct (list_find _ _) as [[i fd]|] eqn:E; cbn.
  - apply list_find_Some in E as (Hl & Hn & _). apply lookup_seqZ in Hl. lia || (split; [lia|done]).
  - exfalso. apply list_find_None in E. rewrite Forall_forall in E.
    assert (list_to_set (seqZ 0 FDS) ⊆ dom o) as Hsub.
    { intros fd Hfd. apply elem_of_list_to_set in Hfd. apply elem_of_dom.
      apply not_eq_None_Some. by apply E. }
    apply subseteq_size in Hsub. rewrite size_list_to_set in Hsub by apply NoDup_seqZ.
    rewrite size_dom, length_seqZ in Hsub. unfold FDS in *. lia.
Qed.

#[export] Instance tree_calls (old : val) : FileCalls fsview old.
Proof.
  refine {| view := id |}; cbn [id].
  - intros w s rest p n [Hc _] Hr Hl Hs. unfold sys_open. rewrite strlen_chars by done.
    apply wp_bind, wp_ret, wp_bind. rewrite <- (path_arg_string s rest) in Hr by done.
    change (int_syscall _) with (tree_open (path_arg (Ptr (s ++ 0 :: rest)) (Num (Z.of_nat (length s)))) 0).
    unfold tree_open. apply wp_bind, wp_gets. rewrite Hr. cbn [mbind option_bind]. rewrite Hl.
    change (Z.testbit 0 9) with false. change (0 =? 0) with true. rewrite andb_false_r. unfold open_node.
    wp_steps. unfold id. destruct (free_fd_free _ Hs) as [Hf Hn]. rewrite (proj2 (Z.leb_gt _ _)) by lia. wp_steps.
    unfold done. wp_steps. unfold errno_or. cbn [negb p_eax p_ebx Z.eqb]. rewrite s32_small by (unfold FDS in *; lia).
    by destruct Hf.
  - intros w s rest [Hc _] Hr. unfold sys_open. rewrite strlen_chars by done.
    apply wp_bind, wp_ret, wp_bind. rewrite <- (path_arg_string s rest) in Hr by done.
    change (int_syscall _) with (tree_open (path_arg (Ptr (s ++ 0 :: rest)) (Num (Z.of_nat (length s)))) 0).
    unfold tree_open. apply wp_bind, wp_gets. by rewrite Hr.
  - intros w fd b Hf. unfold sys_close, int_syscall, tree_gate. apply wp_bind. cbn. wp_steps.
    unfold id. rewrite Hf. done.
  - intros w fd d Hf. unfold sys_is_dir, int_syscall, tree_gate. apply wp_bind. cbn. wp_steps.
    unfold id. rewrite Hf. by destruct (d_dir d).
  - intros w s rest p es [Hc _] Hr Hl. unfold sys_chdir. rewrite strlen_chars by done.
    apply wp_bind, wp_ret, wp_bind. rewrite <- (path_arg_string s rest) in Hr by done.
    change (int_syscall _) with (tree_chdir (path_arg (Ptr (s ++ 0 :: rest)) (Num (Z.of_nat (length s))))).
    unfold tree_chdir. wp_steps. unfold id. by rewrite Hr, Hl.
  - intros w buf len es Hl Hb Hlt. unfold sys_ls. apply wp_bind.
    change (int_syscall _) with (tree_ls buf len). unfold tree_ls. wp_steps. unfold id. rewrite Hl.
    rewrite take_ge by lia. unfold done. wp_steps. unfold errno_or. cbn [negb p_eax p_ebx p_mem Z.eqb].
    by rewrite s32_small by lia.
  - intros w s rest p e es n [Hc _] Hr Hd Hdd Hl Hch Hn _. unfold sys_unlink.
    rewrite strlen_chars by done. apply wp_bind, wp_ret, wp_bind.
    rewrite <- (path_arg_string s rest) in Hr by done.
    change (int_syscall _) with (tree_unlink (path_arg (Ptr (s ++ 0 :: rest)) (Num (Z.of_nat (length s))))).
    unfold tree_unlink. wp_steps. unfold id. rewrite Hr, decide_False by tauto. rewrite Hl, Hch.
    destruct n as [d|ds]; [done|]. by rewrite (Hn ds).
  - intros w s len Hlen. done.
Defined.

(** ** Lemmas on trees *)

Lemma child_repl es e m : is_Some (child es e) → child (repl es e m) e = Some m.
Proof.
  induction es as [|[x n] es IH]; cbn; [by intros []|]. case_decide as Hx; cbn.
  - by rewrite decide_True.
  - rewrite decide_False by done. exact IH.
Qed.

Lemma repl_repl es e m m' : repl (repl es e m) e m' = repl es e m'.
Proof.
  induction es as [|[x n] es IH]; cbn; [done|]. case_decide; cbn.
  - by rewrite decide_True.
  - rewrite decide_False by done. by rewrite IH.
Qed.

Lemma repl_id es e n : child es e = Some n → repl es e n = es.
Proof.
  induction es as [|[x c] es IH]; cbn; [done|]. case_decide; cbn.
  - by intros [= ->].
  - intros Hc. by rewrite IH.
Qed.

Lemma del_repl es e m : del (repl es e m) e = del es e.
Proof.
  induction es as [|[x n] es IH]; cbn; [done|]. case_decide; cbn.
  - by rewrite decide_True.
  - rewrite decide_False by done. by rewrite IH.
Qed.

Lemma look_snoc r p e : look r (p ++ [e])
  = match look r p with Some (Dir es) => child es e | _ => None end.
Proof.
  revert r. induction p as [|x p IH]; intros [d|es]; cbn; try done.
  - by destruct (child es e).
  - destruct (child es x); cbn; [apply IH|done].
Qed.

Lemma look_upd r p n m : look r p = Some n → look (upd r p m) p = Some m.
Proof.
  revert r. induction p as [|x p IH]; intros [d|es]; cbn; try done.
  destruct (child es x) as [c|] eqn:E; cbn; [|done]. intros H.
  rewrite child_repl by eauto. cbn. by apply IH.
Qed.

Lemma upd_upd r p m m' : upd (upd r p m) p m' = upd r p m'.
Proof.
  revert r. induction p as [|x p IH]; intros [d|es]; cbn; try done.
  destruct (child es x) as [c|] eqn:E; cbn; [|by rewrite E].
  rewrite child_repl by eauto. by rewrite repl_repl, IH.
Qed.

Lemma upd_id r p n : look r p = Some n → upd r p n = r.
Proof.
  revert r. induction p as [|x p IH]; intros [d|es]; cbn; try congruence.
  destruct (child es x) as [c|] eqn:E; cbn; [|done]. intros H.
  rewrite IH by done. by rewrite repl_id.
Qed.

Lemma upd_snoc r p e es n m : look r p = Some (Dir es) → child es e = Some n →
  upd r (p ++ [e]) m = upd r p (Dir (repl es e m)).
Proof.
  revert r. induction p as [|x p IH]; intros [d|ds]; cbn; try done.
  - intros [= ->] E. by rewrite E.
  - destruct (child ds x) as [c|] eqn:E; cbn; [|done]. intros Hl Hc. by rewrite IH.
Qed.

(** Names a directory may hold, as far as the shell is concerned. *)
Record good_name (e : name) : Prop := {
  gn_some : e ≠ [];
  gn_chars : chars e;
  gn_bytes : Forall is_char e;
  gn_slash : SLASH ∉ e;
  gn_space : 32 ∉ e;
  gn_short : (length e ≤ 13)%nat;
  gn_dot : e ≠ dot;
  gn_dotdot : e ≠ dotdot
}.

(** A tree of at most [n] levels whose directories hold good names, each once, and
    can be listed in a buffer of the shell. *)
Fixpoint tree_ok (n : nat) (t : node) : Prop :=
  match n with
  | O => False
  | S n =>
    match t with
    | File _ => True
    | Dir es =>
      NoDup es.*1 ∧ Forall good_name es.*1 ∧ Z.of_nat (length (listing es)) ≤ 1024
      ∧ Forall (tree_ok n) es.*2
    end
  end.

Lemma split_single s : SLASH ∉ s → split s = [s].
Proof.
  induction s as [|c s IH]; [done|]. intros H. cbn [split]. apply not_elem_of_cons in H as [Hc Hs].
  rewrite (proj2 (Z.eqb_neq _ _)) by done. by rewrite IH.
Qed.

Lemma cstr_chars s : chars s → cstr s = s.
Proof.
  induction 1 as [|c s Hc Hs IH]; [done|]. cbn [cstr]. unfold NUL.
  rewrite (proj2 (Z.eqb_neq _ _)) by done. by rewrite IH.
Qed.

Lemma elements_single s : s ≠ [] → chars s → SLASH ∉ s → (length s ≤ 13)%nat → elements_of s = [s].
Proof.
  intros Hn Hc Hs Hl. unfold elements_of. rewrite cstr_chars, split_single by done.
  rewrite filter_cons_True by done. cbn. rewrite take_ge; [done|]. exact Hl.
Qed.

Lemma good_elements e : good_name e → elements_of e = [e].
Proof. intros []. by apply elements_single. Qed.

Lemma good_start v e : good_name e → start_of v e = fs_cwd v.
Proof.
  intros [Hn _ _ Hs _ _ _ _]. unfold start_of. rewrite decide_False; [done|].
  destruct e as [|c e]; [done|]. cbn. intros [= ->]. apply Hs. by left.
Qed.

Lemma good_path e : good_name e → path_string e.
Proof. intros []. split; [done|]. lia. Qed.

(** A good name leads to the entry of the working directory. *)
Lemma resolve_good v e es n :
  good_name e → look (fs_root v) (fs_cwd v) = Some (Dir es) → child es e = Some n →
  resolve v e = Some (fs_cwd v ++ [e]).
Proof.
  intros He Hl Hc. unfold resolve. rewrite good_elements, good_start by done. cbn [walk].
  rewrite Hl. rewrite !decide_False by apply He. by rewrite Hc.
Qed.

Lemma resolve_parent_good v e es :
  good_name e → look (fs_root v) (fs_cwd v) = Some (Dir es) →
  resolve_parent v e = Some (fs_cwd v, e).
Proof.
  intros He Hl. unfold resolve_parent. rewrite good_elements, good_start by done.
  cbn. by rewrite Hl.
Qed.

Lemma resolve_dotdot v p e es :
  fs_cwd v = p ++ [e] → look (fs_root v) (fs_cwd v) = Some (Dir es) →
  resolve v dotdot = Some p.
Proof.
  intros Hp Hl. unfold resolve. assert (elements_of dotdot = [dotdot]) as -> by done.
  assert (start_of v dotdot = fs_cwd v) as -> by done. cbn [walk]. rewrite Hl.
  rewrite decide_False, decide_True by done. cbn [walk]. by rewrite Hp, removelast_last.
Qed.
