(* ===== verification/Shell.v ===== *)
(** * The shell (user/shell/shell.c)

    The commands of the shell, its line parser and its main loop, over the system
    calls of the user library.  Arrays on the stack start with unknown contents;
    an access outside an array, or through a null pointer, is a fault. *)

From S2P Require Import Prelude Memory Console Printf CallNumbers UserLib.

Definition O_RDONLY : Z := 0.
Definition O_RDWR : Z := 2.
Definition O_CREATE : Z := 512.
Definition BUFLEN : Z := 1024.
Definition MAXARGS : Z := 16.
Definition SIGINT : Z := 2.
Definition SIGKILL : Z := 9.
Definition SIGUSR1 : Z := 10.
Definition SIGUSR2 : Z := 12.

(** A message that ends its line, and a description with a second line. *)
Definition ln (s : string) : list Z := codes s ++ [10].
Definition nt (s s' : string) : list Z := codes s ++ [10; 9] ++ codes s'.

(** A string literal. *)
Definition lit (s : string) : list Z := codes s ++ [0].

(** ** The line parser *)

Definition WHITESPACE : list Z := [9; 13; 10; 32; 0].

(** White space, which is not zero. *)
Definition is_white (c : Z) : bool :=
  negb (c =? 0) && match strchr WHITESPACE c with Some (Some _) => true | _ => false end.

(** The first inner loop, which clears white space: the zeros, and the rest. *)
Fixpoint skip_white (s : list Z) : option (list Z * list Z) :=
  match s with
  | [] => None
  | c :: s' =>
    if is_white c then '(zs, r) ← skip_white s'; Some (0 :: zs, r) else Some ([], s)
  end.

(** The second inner loop: the word, and the rest. *)
Fixpoint skip_word (s : list Z) : option (list Z * list Z) :=
  match s with
  | [] => None
  | c :: s' =>
    if negb (c =? 0) && negb (is_white c) then '(w, r) ← skip_word s'; Some (c :: w, r)
    else Some ([], s)
  end.

(** The loop of [runcmd]: the bytes of the line after it, and [argv], whose elements
    point into them; [None] inside if there are too many words.  Each turn takes a
    character off the line, which bounds the turns. *)
Fixpoint tokens (fuel : nat) (argc : Z) (s : list Z) : option (list Z * option (list (list Z))) :=
  match fuel with
  | O => None
  | S fuel =>
    '(zs, s) ← skip_white s;
    c ← head s;
    if c =? 0 then Some (zs ++ s, Some [])
    else if argc =? MAXARGS - 1 then Some (zs ++ s, None)
    else
      '(w, s) ← skip_word s;
      '(s', argv) ← tokens fuel (argc + 1) s;
      let p := w ++ s' in
      Some (zs ++ p, option_map (cons p) argv)
  end.

(** ** State *)

(** The variables of shell.c, and the rest of the machine. *)
Record sh (W : Type) := Sh {
  world : W; foreground_pid : Z; foreground_signal : Z; shell_buf : list Z
}.
Arguments Sh {W} _ _ _ _.
Arguments world {W} _.
Arguments foreground_pid {W} _.
Arguments foreground_signal {W} _.
Arguments shell_buf {W} _.

Definition l_world {W} : lens (sh W) W :=
  Lens world (λ w s, Sh w (foreground_pid s) (foreground_signal s) (shell_buf s)).
#[export] Instance l_world_ok {W} : LensOk (@l_world W).
Proof. by split; [| |intros []]. Qed.

Definition set_foreground {W} (pid sig : Z) (s : sh W) : sh W :=
  Sh (world s) pid sig (shell_buf s).
Definition set_shell_buf {W} (b : list Z) (s : sh W) : sh W :=
  Sh (world s) (foreground_pid s) (foreground_signal s) b.

(** [p[i]] and [p[i] = c] *)
Definition load {S} (p : list Z) (i : Z) : M S Z :=
  within "load" (if 0 <=? i then p !! Z.to_nat i else None).
Definition store {S} (p : list Z) (i c : Z) : M S (list Z) :=
  _ ← chk "store" (Z.of_nat (length p)) i;
  mret (<[Z.to_nat i := c]> p).

(** [argv[i]], about to be used as a string: [argv[argc]] is null. *)
Definition arg {S} (argv : list (list Z)) (i : nat) : M S (list Z) :=
  match argv !! i with
  | Some p => mret p
  | None => fail (if decide (i = length argv) then NullDeref "argv" else OutOfBounds "argv" (Z.of_nat i))
  end.

Section Shell.
Context {W : Type} `{G : Gate W}.

(** Registers the stubs do not set; what a function that ends without a value
    returns, and an uninitialised variable holds; the first contents of the arrays
    on the stack, by name and size; the addresses of the handlers. *)
Context (old : val) (junk : Z) (garbage : string → nat → list Z).
Context (signal_handler_addr sigint_handler_addr : Z).

Definition sys {A} (m : M W A) : M (sh W) A := lift l_world m.

(** The macros of user/include/file.h, and the calls. *)
Definition open (path : list Z) (omode : Z) : M (sh W) Z := sys (sys_open old path omode).
Definition close (fd : Z) : M (sh W) Z := sys (sys_close old fd).
Definition read (fd : Z) (buf : list Z) (n : Z) : M (sh W) (Z * list Z) := sys (sys_read old fd buf n).
Definition write (fd : Z) (p : list Z) (n : Z) : M (sh W) Z := sys (sys_write old fd p n).
Definition print (fmt : list Z) (ap : list val) : M (sh W) unit := _ ← sys (printf old fmt ap); mret tt.
Definition say (s : string) : M (sh W) unit := print (ln s) [].
Definition strlen_of (p : list Z) : M (sh W) Z := within "strlen" (strlen p).
Definition strcmp_of (p q : list Z) : M (sh W) Z := within "strcmp" (strcmp p q).
Definition strcpy_to (dst src : list Z) : M (sh W) (list Z) := within "strcpy" (strcpy dst src).

(** [strncpy(p + i, src, n)] *)
Definition strncpy_at (p : list Z) (i : Z) (src : list Z) (n : Z) : M (sh W) (list Z) :=
  _ ← chk "strncpy" (Z.of_nat (length p) + 1) i;
  q ← within "strncpy" (strncpy (drop (Z.to_nat i) p) src (Z.to_nat n));
  mret (take (Z.to_nat i) p ++ q).

(** Copy [dir], a slash after it, and [name] after that. *)
Definition join (buf dir name : list Z) : M (sh W) (list Z) :=
  buf ← strcpy_to buf dir;
  n ← strlen_of buf;
  buf ← store buf n 47;
  q ← strcpy_to (drop (Z.to_nat (n + 1)) buf) name;
  mret (take (Z.to_nat (n + 1)) buf ++ q).

(** A wrapper of [atoi]. *)
Definition str_to_int (s : list Z) : M (sh W) Z :=
  r ← within "atoi" (atoi s); mret (default 0 r.2).

Definition getpid : Z := 1.

(** ** Files *)

Definition is_file_exist (path : list Z) : M (sh W) bool :=
  fd ← open path O_RDONLY;
  if fd =? -1 then mret false else _ ← close fd; mret true.

(** [fd] is not set if the path does not exist. *)
Definition is_dir (path : list Z) : M (sh W) Z :=
  e ← is_file_exist path;
  fd ← (if (e : bool) then open path O_RDONLY else mret junk);
  isDir ← sys (sys_is_dir old fd);
  _ ← close fd;
  mret isDir.

(** The loop of [ls_dir] that ends each name. *)
Definition zero_spaces (buf : list Z) (len : Z) : M (sh W) (list Z) :=
  if Z.of_nat (length buf) <? len then fail (OutOfBounds "buf" len)
  else mret (((λ c, if c =? 32 then 0 else c) <$> take (Z.to_nat len) buf)
               ++ drop (Z.to_nat len) buf).

(** [path] is [None] for the null pointer. *)
Definition ls_dir (buf : list Z) (path : option (list Z)) : M (sh W) (Z * list Z) :=
  r ← (match path with
       | None => sys (sys_ls old buf BUFLEN)
       | Some path =>
         r ← sys (sys_pwd old (garbage "pwd" (Z.to_nat BUFLEN)));
         _ ← sys (sys_chdir old path);
         l ← sys (sys_ls old buf BUFLEN);
         _ ← sys (sys_chdir old r.2);
         mret l
       end : M (sh W) (Z * list Z));
  buf ← zero_spaces r.2 r.1;
  mret (r.1, buf).

Definition is_dir_empty (dirname : list Z) : M (sh W) Z :=
  b ← gets shell_buf;
  r ← ls_dir b None;
  _ ← modify (set_shell_buf r.2);
  mret (cbool (r.1 =? 5)).

Definition rm_file (filename : list Z) : M (sh W) Z :=
  errno ← sys (sys_unlink old filename);
  _ ← (if errno =? -1 then print (ln "rm: can not remove %s: sys_unlink error.") [Ptr filename]
       else mret tt);
  mret errno.

(** The loops over a listing: [body] is run on every name but "." and "..".  Each
    turn moves on by a character at least. *)
Fixpoint names_loop (n : nat) (buf : list Z) (off len : Z) (body : list Z → M (sh W) unit)
    : M (sh W) unit :=
  if off <? len then
    match n with
    | O => fail OutOfFuel
    | S n =>
      let p := drop (Z.to_nat off) buf in
      d ← strcmp_of p (lit ".");
      dd ← (if negb (d =? 0) then strcmp_of p (lit "..") else mret 0);
      _ ← (if negb (dd =? 0) then body p else mret tt);
      k ← strlen_of p;
      names_loop n buf (off + k + 1) len body
    end
  else mret tt.

(** [fuel] bounds the depth of the tree. *)
Fixpoint _shell_rm (fuel : nat) (path : list Z) (isRecursive : bool) : M (sh W) Z :=
  match fuel with
  | O => fail OutOfFuel
  | S fuel =>
    d ← is_dir path;
    if isRecursive then
      if d =? 0 then rm_file path
      else
        _ ← sys (sys_chdir old path);
        r ← ls_dir (garbage "rm_buf" (Z.to_nat BUFLEN)) None;
        _ ← names_loop (S (Z.to_nat BUFLEN)) r.2 0 r.1
              (λ sub_path, _ ← _shell_rm fuel sub_path isRecursive; mret tt);
        _ ← sys (sys_chdir old (lit ".."));
        _ ← rm_file path;
        mret 0
    else if negb (d =? 0) then
      _ ← print (ln "rm: can not remove %s: is a directory. try '-r' ?") [Ptr path];
      mret (-1)
    else rm_file path
  end.

(** The position of the last slash among the first [k] characters, or -1. *)
Fixpoint last_slash (path : list Z) (k : nat) : M (sh W) Z :=
  match k with
  | O => mret (-1)
  | S k => c ← load path (Z.of_nat k); if c =? 47 then mret (Z.of_nat k) else last_slash path k
  end.

(** The result, and the array [filename] after: nothing terminates the name. *)
Definition extract_filename (path filename : list Z) : M (sh W) (Z * list Z) :=
  n ← strlen_of path;
  if n =? 0 then mret (0, filename)
  else
    pos ← last_slash path (Z.to_nat n);
    filename ← strncpy_at filename 0 (drop (Z.to_nat (pos + 1)) path) (n - (pos + 1));
    mret (n - (pos + 1), filename).

(** At most 1000 bytes are copied, up to the first zero of the buffer. *)
Definition cp_file (dest_filename src_filename : list Z) : M (sh W) Z :=
  d ← is_dir src_filename;
  if negb (d =? 0) then _ ← sys (sys_mkdir old dest_filename); mret 0
  else
    fd ← open src_filename O_RDONLY;
    r ← read fd (garbage "buf" 1000) 1000;
    _ ← close fd;
    fd ← open dest_filename (Z.lor O_CREATE O_RDWR);
    n ← strlen_of r.2;
    _ ← write fd r.2 n;
    _ ← close fd;
    mret 0.

(** [dest_path/filename], for the last element of [src_path]. *)
Definition into_dir (dest_path src_path : list Z) : M (sh W) (list Z) :=
  r ← extract_filename src_path (garbage "filename" 100);
  join (garbage "path" (Z.to_nat BUFLEN)) dest_path r.2.

Fixpoint _shell_cp (fuel : nat) (dest_path src_path : list Z) (isRecursive : bool) : M (sh W) Z :=
  match fuel with
  | O => fail OutOfFuel
  | S fuel =>
    e ← is_file_exist src_path;
    if negb e then
      _ ← print (ln "cp: %s does not exist.") [Ptr src_path]; mret 0
    else
      d ← is_dir src_path;
      if negb isRecursive then
        if negb (d =? 0) then
          _ ← print (ln "cp: omitting directory '%s'. try '-r' ?") [Ptr src_path]; mret 0
        else
          e ← is_file_exist dest_path;
          dd ← (if (e : bool) then is_dir dest_path else mret 0);
          _ ← (if negb (dd =? 0) then
                 path ← into_dir dest_path src_path; _shell_cp fuel path src_path isRecursive
               else cp_file dest_path src_path);
          mret 0
      else if negb (d =? 0) then
        e ← is_file_exist dest_path;
        if (e : bool) then
          dd ← is_dir dest_path;
          if negb (dd =? 0) then
            path ← into_dir dest_path src_path;
            _ ← _shell_cp fuel path src_path isRecursive; mret 0
          else
            _ ← print (ln "cp: can not copy a dir to a file '%s'.") [Ptr dest_path]; mret 0
        else
          _ ← cp_file dest_path src_path;
          r ← ls_dir (garbage "path" (Z.to_nat BUFLEN)) (Some src_path);
          _ ← names_loop (S (Z.to_nat BUFLEN)) r.2 0 r.1 (λ p,
                dest ← join (garbage "dest_path_buf" (Z.to_nat BUFLEN)) dest_path p;
                src ← join (garbage "src_path_buf" (Z.to_nat BUFLEN)) src_path p;
                _ ← _shell_cp fuel dest src isRecursive; mret tt);
          mret 0
      else _ ← _shell_cp fuel dest_path src_path false; mret 0
  end.
(** ** Commands: [argv] has [argc] elements *)

Definition command : Type := list (list Z) → M (sh W) Z.

Definition shell_pwd : command := λ argv,
  b ← gets shell_buf;
  r ← sys (sys_pwd old b);
  _ ← modify (set_shell_buf r.2);
  _ ← print (ln "%s") [Ptr r.2];
  mret 0.

(** Lists into [shell_buf] and prints it. *)
Definition ls_print : M (sh W) unit :=
  b ← gets shell_buf;
  r ← sys (sys_ls old b BUFLEN);
  _ ← modify (set_shell_buf r.2);
  print (ln "%s") [Ptr r.2].

Definition shell_ls : command := λ argv,
  match length argv with
  | 1%nat => _ ← ls_print; mret 0
  | 2%nat =>
    r ← sys (sys_pwd old (garbage "path" 100));
    a ← arg argv 1;
    _ ← sys (sys_chdir old a);
    _ ← ls_print;
    _ ← sys (sys_chdir old r.2);
    mret 0
  | _ => _ ← say "ls: too many arguments."; mret 0
  end.

(** Without an argument, a string is copied from the null pointer. *)
Definition shell_cd : command := λ argv,
  match argv with
  | [_] => fail (NullDeref "strcpy")
  | _ =>
    a ← arg argv 1;
    path ← strcpy_to (garbage "path" 1024) a;
    _ ← sys (sys_chdir old path);
    mret junk
  end.

Definition shell_cp (fuel : nat) : command := λ argv,
  let argc := Z.of_nat (length argv) in
  if argc <? 3 then _ ← say "cp: too few arguments."; mret 0
  else if 4 <? argc then _ ← say "cp: too many arguments."; mret 0
  else if argc =? 3 then
    src_path ← arg argv 1;
    dest_path ← arg argv 2;
    _ ← _shell_cp fuel dest_path src_path false;
    mret 0
  else
    opt ← arg argv 1;
    r ← strcmp_of opt (lit "-r");
    if negb (r =? 0) then _ ← say "cp: invalid option. try '-r' ?"; mret 0
    else
      src_path ← arg argv 2;
      dest_path ← arg argv 3;
      _ ← _shell_cp fuel dest_path src_path true;
      mret 0.

Definition shell_mv (fuel : nat) : command := λ argv,
  if negb (Z.of_nat (length argv) =? 3) then _ ← say "mv: argument invalid."; mret 0
  else
    src ← arg argv 1;
    dest ← arg argv 2;
    e ← is_file_exist src;
    if negb e then _ ← print (ln "mv: sorce file %s does not exist.") [Ptr src]; mret 0
    else
      d ← is_dir src;
      if negb (d =? 0) then
        e ← is_file_exist dest;
        dd ← (if (e : bool) then is_dir dest else mret 1);
        if dd =? 0 then _ ← say "mv: cannot move a dir to a file"; mret 0
        else
          _ ← _shell_cp fuel dest src true;
          _ ← _shell_rm fuel src true;
          mret 0
      else
        _ ← _shell_cp fuel dest src true;
        _ ← _shell_rm fuel src false;
        mret 0.

(** The test of [pathIdx] never holds: it is 1 or 2, and [argc] at least 2. *)
Definition shell_rm (fuel : nat) : command := λ argv,
  let argc := Z.of_nat (length argv) in
  if argc =? 1 then _ ← say "Too few arguments."; mret 0
  else
    a ← arg argv 1;
    r ← strcmp_of a (lit "-r");
    let isRecursive := r =? 0 in
    let pathIdx := if isRecursive then 2%nat else 1%nat in
    if argc + 1 <? Z.of_nat pathIdx then _ ← say "rm: no path argument."; mret 0
    else
      path ← arg argv pathIdx;
      e ← is_file_exist path;
      if negb e then
        _ ← print (ln "rm: can not remove %s: is not a file or directory.") [Ptr path]; mret 0
      else _ ← _shell_rm fuel path isRecursive; mret 0.

(** [for (i = 1; i < argc; i++)] over the arguments. *)
Fixpoint each_arg (args : list (list Z)) (body : list Z → M (sh W) unit) : M (sh W) unit :=
  match args with
  | [] => mret tt
  | a :: args => _ ← body a; each_arg args body
  end.

Definition shell_mkdir : command := λ argv,
  _ ← (if Z.of_nat (length argv) =? 1 then say "mkdir failed, no path" else mret tt);
  _ ← each_arg (tail argv) (λ a,
        r ← sys (sys_mkdir old a);
        if r =? 0 then mret tt else say "make dir failed.");
  mret 0.

Definition _shell_cat (path : list Z) : M (sh W) Z :=
  fd ← open path O_RDONLY;
  if fd =? -1 then mret (-1)
  else
    r ← read fd (garbage "buf" 100) (100 - 1);
    buf ← store r.2 r.1 0;
    _ ← print (ln "%s") [Ptr buf];
    _ ← close fd;
    mret 0.

Definition shell_cat : command := λ argv,
  if Z.of_nat (length argv) =? 1 then _ ← say "touch failed. No Path. "; mret junk
  else
    _ ← each_arg (tail argv) (λ a,
          r ← _shell_cat a; if r =? -1 then say "Path is invalid. " else mret tt);
    mret 0.

Definition shell_touch : command := λ argv,
  if Z.of_nat (length argv) =? 1 then _ ← say "touch failed. No Path. "; mret junk
  else
    _ ← each_arg (tail argv) (λ a,
          fd ← open a O_RDONLY;
          if 0 <=? fd then
            _ ← print (ln "%s file exist") [Ptr a]; _ ← close fd; mret tt
          else fd ← open a O_CREATE; _ ← close fd; mret tt);
    mret 0.

Definition shell_write : command := λ argv,
  if Z.of_nat (length argv) =? 1 then _ ← say "write failed, too few arguments."; mret 0
  else
    path ← arg argv 2;
    fd ← open path (Z.lor O_CREATE O_RDWR);
    if 0 <=? fd then
      a ← arg argv 1;
      len ← strlen_of a;
      n ← write fd a len;
      _ ← (if negb (n =? len) then say "shell write fail" else mret tt);
      _ ← close fd;
      mret 0
    else _ ← say "shell write fail"; mret 0.

Definition shell_append : command := λ argv,
  if Z.of_nat (length argv) =? 1 then _ ← say "append failed, too few arguments."; mret 0
  else
    path ← arg argv 2;
    fd ← open path O_RDONLY;
    if 0 <=? fd then
      r ← read fd (garbage "buf" 1000) 1000;
      let n := r.1 in
      _ ← close fd;
      buf ← (if n =? 0 then store r.2 0 0 else mret r.2);
      fd ← open path (Z.lor O_CREATE O_RDWR);
      if fd <? 0 then _ ← say "create: append failed!"; mret 0
      else
        a ← arg argv 1;
        len ← strlen_of a;
        buf ← strncpy_at buf n a len;
        m ← strlen_of buf;
        _ ← write fd buf m;
        _ ← close fd;
        mret 0
    else _ ← say "open append failed!"; mret 0.

(** The bytes of a [struct sigaction] whose handler, flags and mask are set. *)
Definition le32 (v : Z) : list Z := (λ k, byte_of v k) <$> [0; 1; 2; 3].
Definition sa_bytes (handler flags mask : Z) : list Z :=
  le32 handler ++ garbage "sa_sigaction" 4 ++ le32 flags ++ garbage "sa_restorer" 4 ++ le32 mask.

Definition sigaction_call (signum : Z) (sa : list Z) : M (sh W) Z :=
  r ← sys (sigaction old signum (Ptr sa) NULL); mret r.1.

(** The result is whatever the last call left in a register. *)
Definition shell_kill : command := λ argv,
  if Z.of_nat (length argv) <? 3 then
    _ ← say "Usage: kill -<signal> <pid>"; _ ← say "Example: kill -9 2"; mret junk
  else
    a ← arg argv 1;
    c ← load a 0;
    sig ← str_to_int (if c =? 45 then tail a else a);
    b ← arg argv 2;
    pid ← str_to_int b;
    if (sig <? 1) || (31 <? sig) then
      _ ← print (ln "Invalid signal number: %d (must be 1-31)") [Num sig]; mret junk
    else if (pid <? 1) || (63 <? pid) then
      _ ← print (ln "Invalid PID: %d (must be 1-63)") [Num pid]; mret junk
    else
      _ ← print (ln "Sending signal %d to process %d...") [Num sig; Num pid];
      result ← sys (kill old pid sig);
      _ ← (if result =? 0 then say "Signal sent successfully."
           else print (ln "Failed to send signal (error: %d)") [Num result]);
      mret junk.

Definition signal_handler (signum : Z) : M (sh W) unit :=
  _ ← print ([10] ++ ln "*** Received signal %d ***") [Num signum];
  print (codes ">:") [].

Definition sigint_handler (signum : Z) : M (sh W) unit :=
  pid ← gets foreground_pid;
  sig ← gets foreground_signal;
  if 0 <? pid then
    _ ← print ([10] ++ ln "[SHELL] Ctrl+C: sending signal %d to process %d...") [Num sig; Num pid];
    _ ← sys (kill old pid sig);
    if sig =? SIGKILL then modify (λ s, set_foreground 0 (foreground_signal s) s) else mret tt
  else say "[SHELL] You pressed Ctrl+C!".

Definition shell_trap : command := λ argv,
  if Z.of_nat (length argv) <? 2 then
    _ ← say "Usage: trap <signum>";
    _ ← say "Example: trap 2   (register handler for SIGINT)";
    mret (-1)
  else
    a ← arg argv 1;
    signum ← str_to_int a;
    if (signum <? 1) || (32 <=? signum) then
      _ ← print (ln "Invalid signal number: %d (must be 1-31)") [Num signum]; mret (-1)
    else
      _ ← print (ln "Registering handler for signal %d at address %x...")
            [Num signum; Num signal_handler_addr];
      r ← sigaction_call signum (sa_bytes signal_handler_addr 0 0);
      if r <? 0 then _ ← say "Failed to register signal handler"; mret (-1)
      else _ ← say "Handler registered successfully."; mret 0.

Definition shell_spawn : command := λ argv,
  if Z.of_nat (length argv) <? 2 then
    _ ← say "Usage: spawn <elf_id>";
    _ ← say "  elf_id: 1=ping, 2=pong, 3=ding";
    mret (-1)
  else
    a ← arg argv 1;
    elf_id ← str_to_int a;
    if (elf_id <? 1) || (8 <? elf_id) then
      _ ← print (ln "Invalid elf_id: %d (must be 1-8)") [Num elf_id]; mret (-1)
    else
      _ ← print (ln "Spawning process with elf_id %d...") [Num elf_id];
      new_pid ← sys (spawn old elf_id 1000);
      if negb (new_pid =? -1) then
        _ ← print (ln "Process spawned with PID %d") [Num new_pid]; mret 0
      else _ ← say "Failed to spawn process"; mret (-1).

(** The tests of [shell_test_signal] that put a process in the foreground. *)
Definition spawn_foreground (elf_id sig : Z) (failed : string) : M (sh W) Z :=
  pid ← sys (spawn old elf_id 1000);
  if pid =? -1 then _ ← say failed; mret (-1)
  else
    _ ← print (ln "Test process spawned (PID %d).") [Num pid];
    _ ← modify (set_foreground pid sig);
    mret 0.

Definition shell_test_signal : command := λ argv,
  if Z.of_nat (length argv) <? 2 then
    _ ← say "Usage: test <test_name>";
    _ ← say "Available tests:";
    _ ← say "  sigsegv       - trigger segmentation fault (NULL pointer dereference)";
    _ ← say "  sigint        - continuous print, terminate with Ctrl+C";
    _ ← say "  sigint-custom - custom SIGINT handler demo (catches Ctrl+C)";
    mret (-1)
  else
    a ← arg argv 1;
    r ← strcmp_of a (lit "sigsegv");
    if r =? 0 then
      _ ← say "=== SIGSEGV Test ===";
      _ ← say "Spawning process that will dereference a NULL pointer...";
      _ ← print (ln "Expected: process terminates with 'Segmentation fault' instead of kernel panic."
                 ++ [10]) [];
      pid ← sys (spawn old 6 1000);
      if pid =? -1 then _ ← say "Failed to spawn sigsegv test process"; mret (-1)
      else
        _ ← print (ln "Test process spawned (PID %d). It should crash gracefully.") [Num pid];
        _ ← sys (sys_yield old);
        _ ← print ([10] ++ ln "=== OS is still running! Shell is alive. ===") [];
        mret 0
    else
    r ← strcmp_of a (lit "sigint");
    if r =? 0 then
      _ ← say "=== SIGINT Test ===";
      _ ← say "Spawning process that prints continuously...";
      _ ← print (ln "Press Ctrl+C to terminate it." ++ [10]) [];
      spawn_foreground 7 SIGKILL "Failed to spawn sigint test process"
    else
    r ← strcmp_of a (lit "sigint-custom");
    if r =? 0 then
      _ ← say "=== SIGINT Custom Handler Test ===";
      _ ← say "Spawning process with custom SIGINT handler...";
      _ ← print (codes "Press Ctrl+C " ++ [226 - 256; 128 - 256; 148 - 256]
                 ++ ln " the process will catch it!") [];
      spawn_foreground 8 SIGINT "Failed to spawn sigint-custom test process"
    else
      _ ← print (ln "Unknown test: '%s'") [Ptr a];
      _ ← say "Available tests: sigsegv, sigint, sigint-custom";
      mret (-1).

(** The table [commands], with what [shell_help] prints of it. *)
Definition descriptions : list (list Z) :=
  [codes "list all files and directories under working directory";
   codes "print working directory";
   nt "cd <path> " " change directory";
   nt "cp <-r> <src_path> <dest_path> " " copy file or directory ";
   nt "mv <src_path> <dest_path> " " move file or directory";
   nt "rm <-r> <filename> " " remove file or directory";
   nt "mkdir <dirname> " " create directory";
   nt "cat <filename> " " print file content";
   nt "touch <filename> " " create new empty file";
   nt "write <string> <filename> " " write a string to file";
   nt "append <string> <filename> " " append a string to file";
   nt "help " " print this help message";
   nt "kill <signal> <pid> " " send signal to process";
   nt "trap <signum> <handler> " " register signal handler";
   nt "spawn <elf_id> " " spawn a new process (1=ping, 2=pong, 3=ding)";
   nt "test <test_name> " " run signal tests (sigsegv, sigint)"].

Definition shell_help : command := λ argv,
  _ ← each_arg descriptions (λ d, print (ln "%s") [Ptr (d ++ [0])]); mret 0.

(** [fuel] bounds the depth of the directories a command walks. *)
Definition commands (fuel : nat) : list (string * command) :=
  [("ls", shell_ls); ("pwd", shell_pwd); ("cd", shell_cd); ("cp", shell_cp fuel);
   ("mv", shell_mv fuel); ("rm", shell_rm fuel); ("mkdir", shell_mkdir); ("cat", shell_cat);
   ("touch", shell_touch); ("write", shell_write); ("append", shell_append);
   ("help", shell_help); ("kill", shell_kill); ("trap", shell_trap); ("spawn", shell_spawn);
   ("test", shell_test_signal)]%string.

Fixpoint run_named (cs : list (string * command)) (argv : list (list Z)) : M (sh W) Z :=
  a ← arg argv 0;
  match cs with
  | [] =>
    _ ← print (ln "Unknown command '%s'") [Ptr a];
    _ ← say "try 'help' to see all supported commands.";
    mret 0
  | (name, func) :: cs =>
    r ← strcmp_of a (lit name);
    if r =? 0 then func argv else run_named cs argv
  end.

Definition runcmd (fuel : nat) (buf : list Z) : M (sh W) Z :=
  r ← within "buf" (tokens (S (length buf)) 0 buf);
  match r.2 with
  | None => _ ← print (ln "Too many arguments (max %d)") [Num MAXARGS]; mret 0
  | Some [] => mret 0
  | Some argv => run_named (commands fuel) argv
  end.

(** ** The main loop *)

Definition shell_readline (buf : list Z) : M (sh W) (Z * list Z) := sys (sys_readline old buf).

(** [turns] bounds the lines read. *)
Fixpoint main_loop (turns fuel : nat) (buf : list Z) : M (sh W) unit :=
  match turns with
  | O => fail OutOfFuel
  | S turns =>
    buf ← store buf 0 0;
    r ← shell_readline buf;
    let buf := r.2 in
    if r.1 <? 0 then main_loop turns fuel buf
    else
      c ← load buf 0;
      if negb (c =? 0) then
        v ← runcmd fuel buf;
        if v <? 0 then mret tt
        else
          t ← within "buf" (tokens (S (length buf)) 0 buf);
          main_loop turns fuel t.1
      else main_loop turns fuel buf
  end.

Definition shell_test : M (sh W) unit :=
  _ ← say "Test 1: Basic signal handling";
  r ← sigaction_call SIGUSR1 (sa_bytes signal_handler_addr 0 0);
  if r <? 0 then say "Failed to register signal handler"
  else
    _ ← say "Registered handler for SIGUSR1";
    _ ← say "Sending SIGUSR1 to self...";
    _ ← sys (kill old getpid SIGUSR1);
    _ ← print ([10] ++ ln "Test 2: Signal blocking") [];
    r ← sigaction_call SIGUSR2 (sa_bytes signal_handler_addr 0 (Z.shiftl 1 SIGUSR2));
    if r <? 0 then say "Failed to register signal handler"
    else
      _ ← say "Registered handler for SIGUSR2 (blocked)";
      _ ← say "Sending SIGUSR2 to self...";
      _ ← sys (kill old getpid SIGUSR2);
      _ ← print ([10] ++ ln "Test 3: pause() functionality") [];
      _ ← say "Process will pause until SIGUSR1 is received...";
      _ ← sys (pause old);
      say "Resumed after receiving signal".

(** The counting loop at its end only takes time. *)
Definition ipc_test : M (sh W) unit :=
  _ ← say "ipc test begin";
  ping_pid ← sys (spawn old 1 1000);
  _ ← (if negb (ping_pid =? -1) then print (ln "ping in process %d.") [Num ping_pid]
       else say "Failed to launch ping.");
  pong_pid ← sys (spawn old 2 1000);
  _ ← (if negb (pong_pid =? -1) then print (ln "pong in process %d.") [Num pong_pid]
       else say "Failed to launch pong.");
  say "ipc test pass!!".

(** [mode] is 0 in the code. *)
Definition shell_main (mode : Z) (turns fuel : nat) : M (sh W) unit :=
  _ ← print ([10] ++ ln "********Welcome to left-mid-right shell*********") [];
  _ ← say "********This is the final project for CPSC 422/522 Operating Systems in Yale********";
  _ ← say "********Author: Bo Song, Haoliang Zhang********";
  _ ← say "********Date: 12/18/2015 ********";
  _ ← sigaction_call SIGINT (sa_bytes sigint_handler_addr 0 0);
  if mode =? 1 then shell_test
  else if mode =? 2 then ipc_test
  else main_loop turns fuel (garbage "buf" 1024).
End Shell.
