(* ===== verification/ShellProps.v ===== *)
(** * Correctness of the shell

    The line parser against a reference that splits a line into words, and the
    commands against the promises of the file system calls ([FileCalls]). *)

From S2P Require Import Prelude Memory Strings Console Printf CallNumbers UserLib FileTree Shell.

(** ** Listings *)

Lemma ended_cons c e ns : ended c (e :: ns) = e ++ c :: ended c ns.
Proof. unfold ended. cbn. by rewrite <- (assoc (++)). Qed.

Lemma ended_snoc c ns : ns ≠ [] →
  take (length (ended c ns) - 1) (ended c ns) ++ [c] = ended c ns.
Proof.
  intros Hn. destruct ns as [|e ns _] using rev_ind; [done|].
  unfold ended. rewrite fmap_app, concat_app. cbn. rewrite app_nil_r, (assoc (++)).
  rewrite length_app. cbn. rewrite Nat.add_sub. by rewrite take_app_length.
Qed.

Definition clear_space (c : Z) : Z := if c =? 32 then 0 else c.

Lemma clear_ended ns : Forall (λ e, 32 ∉ e) ns → clear_space <$> ended 32 ns = ended 0 ns.
Proof.
  induction 1 as [|e ns He Hns IH]; [done|]. rewrite !ended_cons, fmap_app. cbn [fmap list_fmap].
  change (clear_space 32) with 0. f_equal; [|by rewrite <- IH].
  rewrite <- (list_fmap_id e) at 2. apply list_fmap_ext. intros i c Hi.
  unfold clear_space. rewrite (proj2 (Z.eqb_neq _ _)); [done|].
  intros ->. by apply list_elem_of_lookup_2 in Hi.
Qed.

Lemma length_ended c c' ns : length (ended c ns) = length (ended c' ns).
Proof.
  induction ns as [|e ns IH]; [done|]. rewrite !ended_cons, !length_app. cbn. by rewrite IH.
Qed.

Lemma dir_names_spaces es : Forall good_name es.*1 → Forall (λ e, 32 ∉ e) (dir_names es).
Proof.
  intros H. unfold dir_names. repeat constructor; [set_solver..|].
  eapply Forall_impl; [exact H|]. by intros e [].
Qed.

Lemma length_listing es : length (listing es) = length (ended 0 (dir_names es)).
Proof.
  unfold listing. rewrite length_app, length_take. cbn [length].
  rewrite (length_ended 0 32). assert (1 ≤ length (ended 32 (dir_names es)))%nat; [|lia].
  unfold dir_names. rewrite ended_cons, length_app. cbn. lia.
Qed.

Lemma clear_listing es : Forall good_name es.*1 →
  clear_space <$> listing es = ended 0 (dir_names es).
Proof.
  intros H. unfold listing. rewrite fmap_app, fmap_take, clear_ended by by apply dir_names_spaces.
  change (clear_space <$> [0]) with [0]. rewrite (length_ended 32 0). by apply ended_snoc.
Qed.

(** ** Comparing with the names of the directories themselves *)

(** A string literal: its characters are neither zero nor outside the type. *)
Definition literal (d : string) : Prop := Forall (λ c, c ≠ 0 ∧ -128 ≤ c < 128) (codes d).
#[export] Instance literal_dec d : Decision (literal d).
Proof. unfold literal. apply _. Defined.

Lemma strcmp_lit e rest (d : string) :
  chars e → Forall is_char e → bool_decide (literal d) = true →
  ∃ z, strcmp (e ++ 0 :: rest) (lit d) = Some z ∧ (z = 0 ↔ e = codes d).
Proof.
  intros Hc Hb Hd%bool_decide_eq_true. apply (strcmp_chars e (codes d) rest []); [done| |done|].
  all: eapply Forall_impl; [exact Hd|]; by intros c [].
Qed.

Section Loops.
Context {W : Type} `{G : Gate W} (old : val).

Lemma wp_within {S A} what (o : option A) a (Q : A → S → Prop) s :
  o = Some a → Q a s → wp (within what o) Q s.
Proof. by intros ->. Qed.

(** Every name of a listing but the dots is visited, in order. *)
Lemma wp_names_loop (P : list name → sh W → Prop) body n ns pre rest s Q :
  Forall (λ e, e = dot ∨ e = dotdot ∨ good_name e) ns → (length (ended 0 ns) ≤ n)%nat →
  (∀ e ns s, e = dot ∨ e = dotdot → P (e :: ns) s → P ns s) →
  (∀ e ns tl s, good_name e → P (e :: ns) s → wp (body (e ++ 0 :: tl)) (λ _ s', P ns s') s) →
  P ns s → (∀ s', P [] s' → Q tt s') →
  wp (names_loop (S n) (pre ++ ended 0 ns ++ rest) (Z.of_nat (length pre))
        (Z.of_nat (length pre + length (ended 0 ns))) body) Q s.
Proof.
  intros Hns Hn Hdot Hbody HP HQ. revert n pre s Hn HP.
  induction Hns as [|e ns He Hns IH]; intros n pre s Hn HP.
  { cbn [names_loop]. rewrite (proj2 (Z.ltb_ge _ _)) by (cbn; lia). by apply wp_ret, HQ. }
  rewrite ended_cons in Hn |- *. rewrite length_app in Hn |- *. cbn [length] in Hn |- *.
  cbn [names_loop]. rewrite (proj2 (Z.ltb_lt _ _)) by lia.
  assert ((e ++ 0 :: ended 0 ns) ++ rest = e ++ 0 :: ended 0 ns ++ rest) as ->
    by by rewrite <- (assoc (++)).
  rewrite Nat2Z.id, drop_app_length.
  assert (chars e ∧ Forall is_char e) as [Hc Hb].
  { destruct He as [-> |[-> |[]]]; [split; repeat constructor; unfold is_char; lia..|done]. }
  destruct (strcmp_lit e (ended 0 ns ++ rest) ".") as (z & E & Hz);
    [done..|].
  destruct (strcmp_lit e (ended 0 ns ++ rest) "..") as (z' & E' & Hz');
    [done..|].
  apply wp_bind. eapply wp_within; [exact E|]. cbn beta.
  assert (∀ s, P ns s → wp (k ← strlen_of (e ++ 0 :: ended 0 ns ++ rest);
    names_loop n (pre ++ e ++ 0 :: ended 0 ns ++ rest) (Z.of_nat (length pre) + k + 1)
      (Z.of_nat (length pre + (length e + S (length (ended 0 ns))))) body) Q s) as Hnext.
  { intros s' HP'. apply wp_bind. eapply wp_within; [by apply strlen_chars|]. cbn beta.
    destruct n as [|n]; [lia|].
    specialize (IH n (pre ++ e ++ [0]) s' ltac:(lia) HP').
    rewrite !length_app in IH. cbn [length] in IH. rewrite <- !(assoc (++)) in IH. cbn [app] in IH.
    replace (Z.of_nat (length pre) + Z.of_nat (length e) + 1)
      with (Z.of_nat (length pre + (length e + 1))) by lia.
    replace (length pre + (length e + S (length (ended 0 ns))))%nat
      with (length pre + (length e + 1) + length (ended 0 ns))%nat by lia.
    exact IH. }
  destruct (decide (e = dot)) as [Hd|Hd].
  { rewrite (proj2 (Z.eqb_eq z 0)) by by apply Hz. cbn [negb]. apply wp_bind, wp_ret, wp_bind, wp_ret.
    apply Hnext. eapply Hdot; [|exact HP]. by left. }
  rewrite (proj2 (Z.eqb_neq z 0)) by by rewrite Hz. cbn [negb]. apply wp_bind.
  eapply wp_within; [exact E'|]. cbn beta. apply wp_bind.
  destruct (decide (e = dotdot)) as [Hdd|Hdd].
  { rewrite (proj2 (Z.eqb_eq z' 0)) by by apply Hz'. cbn [negb]. apply wp_ret.
    apply Hnext. eapply Hdot; [|exact HP]. by right. }
  rewrite (proj2 (Z.eqb_neq z' 0)) by by rewrite Hz'. cbn [negb].
  eapply wp_mono; [apply Hbody; [|exact HP]|]. { by destruct He as [|[|]]. }
  intros [] s' HP'. by apply Hnext.
Qed.
End Loops.

(** The pointer [p] is to the string [w]. *)
Definition points_to (p w : list Z) : Prop := ∃ tl, p = w ++ 0 :: tl.

(** ** Files and directories *)

Section Files.
Context {W : Type} `{G : Gate W} (old : val) `{FC : !FileCalls W old}.
Context (junk : Z) (garbage : string → nat → list Z).
Hypothesis garbage_length : ∀ x n, length (garbage x n) = n.

(** The process sees [v]; its variables are those of [s0]. *)
Definition sees (s0 : sh W) (v : fsview) (s : sh W) : Prop :=
  view (world s) = v ∧ ∃ w, s = lset l_world w s0.

Lemma sees_self s : sees s (view (world s)) s.
Proof. split; [done|]. exists (world s). by destruct s. Qed.

Lemma wp_sys {A} (m : M W A) P Q s0 v s :
  sees s0 v s → wp m P (world s) →
  (∀ a w' s', P a w' → sees s0 (view w') s' → Q a s') → wp (sys m) Q s.
Proof.
  intros [_ [w0 ->]] Hm HQ. apply wp_lift. eapply wp_mono; [exact Hm|].
  intros a w' HP. eapply HQ; [exact HP|]. split; [done|]. by exists w'.
Qed.

Definition room (v : fsview) : Prop := Z.of_nat (size (fs_open v)) < FDS.

Lemma with_open_back v fd b : fs_open v !! fd = None →
  with_open (delete fd (fs_open (with_open (<[fd := b]> (fs_open v)) v)))
    (with_open (<[fd := b]> (fs_open v)) v) = v.
Proof. intros H. destruct v as [r c da o out]; cbn in *. unfold with_open; cbn. by rewrite delete_insert_id. Qed.

Lemma wp_open_found s0 v s e rest p n Q :
  sees s0 v s → path_string e → resolve v e = Some p → look (fs_root v) p = Some n → room v →
  (∀ fd s', 0 ≤ fd → fs_open v !! fd = None →
    sees s0 (with_open (<[fd := open_descr n 0]> (fs_open v)) v) s' → Q fd s') →
  wp (open old (e ++ 0 :: rest) O_RDONLY) Q s.
Proof.
  intros Hs He Hr Hl Hroom HQ. pose proof Hs as [Hv _]. subst v.
  eapply wp_sys; [exact Hs|by eapply open_found|].
  intros fd w' s' (H1 & H2 & Hw) Hs'. rewrite Hw in Hs'. by apply HQ.
Qed.

Lemma wp_open_missing s0 v s e rest Q :
  sees s0 v s → path_string e → resolve v e = None →
  (∀ s', sees s0 v s' → Q (-1) s') → wp (open old (e ++ 0 :: rest) O_RDONLY) Q s.
Proof.
  intros Hs He Hr HQ. pose proof Hs as [Hv _]. subst v. eapply wp_sys; [exact Hs|by eapply open_missing|].
  intros fd w' s' (-> & Hw) Hs'. rewrite Hw in Hs'. by apply HQ.
Qed.

Lemma wp_close s0 v s fd b Q :
  sees s0 v s → fs_open v !! fd = Some b →
  (∀ s', sees s0 (with_open (delete fd (fs_open v)) v) s' → Q 0 s') → wp (close old fd) Q s.
Proof.
  intros Hs Hf HQ. pose proof Hs as [Hv _]. subst v. eapply wp_sys; [exact Hs|by eapply close_done|].
  intros r w' s' (-> & Hw) Hs'. rewrite Hw in Hs'. by apply HQ.
Qed.

Lemma wp_is_file_exist s0 v s e rest p n Q :
  sees s0 v s → path_string e → resolve v e = Some p → look (fs_root v) p = Some n → room v →
  (∀ s', sees s0 v s' → Q true s') → wp (is_file_exist old (e ++ 0 :: rest)) Q s.
Proof.
  intros Hs He Hr Hl Hroom HQ. apply wp_bind. eapply wp_open_found; [done..|].
  intros fd s' Hfd Hn Hs'. rewrite (proj2 (Z.eqb_neq _ _)) by lia. apply wp_bind.
  eapply wp_close; [exact Hs'|by apply lookup_insert_eq|]. intros s2 Hs2.
  rewrite with_open_back in Hs2 by done. by apply wp_ret, HQ.
Qed.

Lemma wp_is_dir s0 v s e rest p n Q :
  sees s0 v s → path_string e → resolve v e = Some p → look (fs_root v) p = Some n → room v →
  (∀ s', sees s0 v s' → Q (cbool (is_directory n)) s') → wp (is_dir old junk (e ++ 0 :: rest)) Q s.
Proof.
  intros Hs He Hr Hl Hroom HQ. apply wp_bind. eapply wp_is_file_exist; [done..|]. intros s1 Hs1.
  apply wp_bind. eapply wp_open_found; [done..|]. intros fd s2 Hfd Hn Hs2. apply wp_bind.
  pose proof Hs2 as [Hv2 _].
  eapply wp_sys; [exact Hs2|eapply is_dir_done; rewrite Hv2; by apply lookup_insert_eq|].
  intros r w' s3 (-> & Hw) Hs3. rewrite Hw, Hv2 in Hs3. apply wp_bind.
  eapply wp_close; [exact Hs3|by apply lookup_insert_eq|]. intros s4 Hs4.
  rewrite with_open_back in Hs4 by done. by apply wp_ret, HQ.
Qed.

Lemma wp_chdir s0 v s e rest p es Q :
  sees s0 v s → path_string e → resolve v e = Some p → look (fs_root v) p = Some (Dir es) →
  (∀ s', sees s0 (with_cwd p v) s' → Q 0 s') → wp (sys (sys_chdir old (e ++ 0 :: rest))) Q s.
Proof.
  intros Hs He Hr Hl HQ. pose proof Hs as [Hv _]. subst v. eapply wp_sys; [exact Hs|by eapply chdir_done|].
  intros r w' s' (-> & Hw) Hs'. rewrite Hw in Hs'. by apply HQ.
Qed.

Lemma wp_rm_file s0 v s e rest es n Q :
  sees s0 v s → good_name e → look (fs_root v) (fs_cwd v) = Some (Dir es) →
  child es e = Some n → (∀ ds, n = Dir ds → ds = []) →
  (∀ s', sees s0 (with_root (upd (fs_root v) (fs_cwd v) (Dir (del es e))) v) s' → Q 0 s') →
  wp (rm_file old (e ++ 0 :: rest)) Q s.
Proof.
  intros Hs He Hl Hc Hn HQ. pose proof Hs as [Hv _]. subst v. apply wp_bind.
  eapply wp_sys; [exact Hs| |].
  - eapply unlink_done; [by apply good_path|by eapply resolve_parent_good|by apply He
      |by apply He|exact Hl|exact Hc|exact Hn|].
    intros [k Hk]. apply (f_equal length) in Hk. rewrite !length_app in Hk. cbn in Hk. lia.
  - intros r w' s' (-> & Hw) Hs'. rewrite Hw in Hs'. apply wp_bind, wp_ret, wp_ret. by apply HQ.
Qed.

(** The names of the working directory, each ended by a zero. *)
Lemma wp_ls_dir s0 v s es x Q :
  sees s0 v s → look (fs_root v) (fs_cwd v) = Some (Dir es) → Forall good_name es.*1 →
  Z.of_nat (length (listing es)) ≤ 1024 →
  (∀ s' rest, sees s0 v s' →
    Q (Z.of_nat (length (ended 0 (dir_names es))), ended 0 (dir_names es) ++ rest) s') →
  wp (ls_dir old garbage (garbage x (Z.to_nat BUFLEN)) None) Q s.
Proof.
  intros Hs Hl Hg Hlen HQ. pose proof Hs as [Hv _]. subst v. apply wp_bind.
  eapply wp_sys; [exact Hs| |].
  - eapply ls_done; [exact Hl| |done]. rewrite garbage_length. unfold BUFLEN. lia.
  - intros r w' s' (-> & Hw) Hs'. rewrite Hw in Hs'. cbn [fst snd]. apply wp_bind. unfold zero_spaces.
    rewrite (proj2 (Z.ltb_ge _ _)) by (rewrite length_app; lia).
    apply wp_ret, wp_ret. rewrite Nat2Z.id, take_app_length. fold clear_space.
    change (λ c : Z, if c =? 32 then 0 else c) with clear_space.
    rewrite clear_listing, length_listing by done. by apply HQ.
Qed.

Lemma dir_names_kinds es : Forall good_name es.*1 →
  Forall (λ e, e = dot ∨ e = dotdot ∨ good_name e) (dir_names es).
Proof.
  intros H. unfold dir_names. constructor; [by left|]. constructor; [by right; left|].
  eapply Forall_impl; [exact H|]. by right; right.
Qed.

Lemma child_in es e : is_Some (child es e) ↔ e ∈ es.*1.
Proof.
  induction es as [|[x n] es IH]; cbn; [split; [by intros []|set_solver]|].
  case_decide; subst; [split; [set_solver|by eauto]|]. rewrite IH. set_solver.
Qed.

(** While the loop of [_shell_rm] runs in the directory [p]: its entries are those
    still to come. *)
Definition emptying (s0 : sh W) (v : fsview) (n : nat) (ns : list name) (s : sh W) : Prop :=
  ∃ es, sees s0 (with_root (upd (fs_root v) (fs_cwd v) (Dir es)) v) s
    ∧ (ns = dir_names es ∨ ns = dotdot :: es.*1 ∨ ns = es.*1)
    ∧ NoDup es.*1 ∧ Forall good_name es.*1 ∧ Forall (tree_ok n) es.*2.

Lemma emptying_dots s0 v n e ns s :
  e = dot ∨ e = dotdot → emptying s0 v n (e :: ns) s → emptying s0 v n ns s.
Proof.
  intros He (es & Hs & Hns & Hd & Hg & Ht). exists es. split; [done|]. split; [|done].
  destruct Hns as [[= -> ->]|[[= -> ->]|Hns]]; [by right; left|by right; right|].
  rewrite <- Hns in Hg. apply Forall_cons_1 in Hg as [[] _]. naive_solver.
Qed.

Lemma rm_tree n s0 v s e rest t es :
  sees s0 v s → room v → good_name e → look (fs_root v) (fs_cwd v) = Some (Dir es) →
  child es e = Some t → tree_ok n t →
  wp (_shell_rm old junk garbage n (e ++ 0 :: rest) true) (λ r s',
    r = 0 ∧ sees s0 (with_root (upd (fs_root v) (fs_cwd v) (Dir (del es e))) v) s') s.
Proof.
  revert v s e rest t es. induction n as [|n IH]; intros v s e rest t es Hs Hroom He Hl Hc Ht; [done|].
  assert (look (fs_root v) (fs_cwd v ++ [e]) = Some t) as Hle by by rewrite look_snoc, Hl.
  cbn [_shell_rm]. apply wp_bind.
  eapply wp_is_dir; [exact Hs|by apply good_path|by eapply resolve_good|exact Hle|done|].
  intros s1 Hs1. destruct t as [d|ds]; cbn [is_directory cbool].
  { eapply wp_rm_file; [done..|]. intros s2 Hs2. by split. }
  change (1 =? 0) with false. cbv iota. destruct Ht as (Hnd & Hg & Hlen & Hts). apply wp_bind.
  eapply wp_chdir; [exact Hs1|by apply good_path|by eapply resolve_good|exact Hle|].
  intros s2 Hs2. apply wp_bind. eapply wp_ls_dir; [exact Hs2|exact Hle|done|done|].
  intros s3 rest' Hs3. cbn [fst snd]. apply wp_bind.
  eapply (wp_names_loop (emptying s0 (with_cwd (fs_cwd v ++ [e]) v) n) _ _ _ []).
  - by apply dir_names_kinds.
  - rewrite <- length_listing. unfold BUFLEN. lia.
  - intros e' ns s'. apply emptying_dots.
  - intros e' ns tl s' He' (es' & Hs' & Hns & Hd' & Hg' & Ht').
    destruct es' as [|[x c] es'].
    { destruct Hns as [[= -> ->]|[[= -> ->]|?]]; [by destruct He'|by destruct He'|done]. }
    destruct Hns as [[= -> ->]|[[= -> ->]|[= -> ->]]]; [by destruct He'|by destruct He'|].
    cbn in Hd', Hg', Ht'. apply NoDup_cons in Hd' as [Hx Hd'].
    apply Forall_cons_1 in Hg' as [_ Hg'], Ht' as [Hc' Ht']. apply wp_bind.
    eapply wp_mono; [eapply (IH _ _ _ _ c ((x, c) :: es')); [exact Hs'|exact Hroom|done| | |done]|].
    + cbn. by eapply look_upd.
    + cbn. by rewrite decide_True.
    + intros r s4 [_ Hs4]. apply wp_ret. exists es'. split; [|by auto].
      cbn in Hs4. rewrite upd_upd, decide_True in Hs4 by done. exact Hs4.
  - exists ds. split; [|by auto]. cbn. rewrite upd_id by done. exact Hs3.
  - intros s4 (es' & Hs4 & Hns & _). destruct es'; [|by destruct Hns as [|[|]]].
    apply wp_bind.
    eapply (wp_chdir _ _ _ dotdot []); [exact Hs4|split; [by repeat constructor|done]| | |].
    + eapply resolve_dotdot; [done|]. cbn. by eapply look_upd.
    + cbn. erewrite upd_snoc by done. by eapply look_upd.
    + intros s5 Hs5. cbn in Hs5. apply wp_bind.
      eapply (wp_rm_file _ _ _ e rest (repl es e (Dir [])));
        [exact Hs5|done| |by apply child_repl; eauto|by intros ? [= <-]|].
      * cbn. erewrite upd_snoc by done. by eapply look_upd.
      * intros s6 Hs6. apply wp_ret. split; [done|]. cbn in Hs6.
        erewrite upd_snoc, upd_upd, del_repl in Hs6 by done.
        destruct v. exact Hs6.
Qed.
(** The command, given a name in the working directory. *)
Lemma wp_shell_rm n s p0 p1 p2 e t es :
  let v := view (world s) in
  points_to p1 (codes "-r") → points_to p2 e →
  room v → good_name e → look (fs_root v) (fs_cwd v) = Some (Dir es) →
  child es e = Some t → tree_ok n t →
  wp (shell_rm old junk garbage n [p0; p1; p2]) (λ r s',
    r = 0 ∧ sees s (with_root (upd (fs_root v) (fs_cwd v) (Dir (del es e))) v) s') s.
Proof.
  intros v [tl1 ->] [tl2 ->] Hroom He Hl Hc Ht. unfold shell_rm. cbn [length].
  change (Z.of_nat 3 =? 1) with false. cbv iota. apply wp_bind, wp_ret, wp_bind.
  apply (wp_within _ _ 0); [done|]. change (0 =? 0) with true. cbv iota.
  change (Z.of_nat 3 + 1 <? Z.of_nat 2) with false. cbv iota. apply wp_bind, wp_ret, wp_bind.
  eapply (wp_is_file_exist s v); [apply sees_self|by apply good_path|by eapply resolve_good
    |rewrite look_snoc, Hl; exact Hc|done|].
  intros s1 Hs1. cbn [negb]. apply wp_bind. eapply wp_mono; [by eapply rm_tree|].
  intros r s2 [_ Hs2]. by apply wp_ret.
Qed.
End Files.

(** ** The line parser *)

(** A line split at every white space, and its words. *)
Fixpoint split_white (l : list Z) : list (list Z) :=
  match l with
  | [] => [[]]
  | c :: l =>
    if is_white c then [] :: split_white l
    else match split_white l with
         | w :: ws => (c :: w) :: ws
         | [] => [[c]]
         end
  end.
Definition words_of (l : list Z) : list (list Z) := filter (λ w, w ≠ []) (split_white l).

Definition white (c : Z) : Prop := is_white c = true.

Lemma words_white ws l : Forall white ws → words_of (ws ++ l) = words_of l.
Proof.
  induction 1 as [|c ws Hc Hws IH]; [done|]. unfold words_of in *. cbn [app split_white].
  rewrite Hc. rewrite filter_cons_False by by intros []. exact IH.
Qed.

(** Where a word may end. *)
Definition at_end (l : list Z) : Prop := l = [] ∨ ∃ c l', l = c :: l' ∧ white c.

Lemma split_white_word w l : Forall (λ c, ¬ white c) w → at_end l →
  ∃ ws, split_white l = [] :: ws ∧ split_white (w ++ l) = w :: ws.
Proof.
  intros Hw Hl. assert (∃ ws, split_white l = [] :: ws) as [ws E].
  { destruct Hl as [-> |(c & l' & -> & Hc)]; cbn; [by eauto|]. rewrite Hc. eauto. }
  exists ws. split; [done|]. induction Hw as [|c w Hc Hw IH]; [done|]. cbn [app split_white].
  unfold white in Hc. destruct (is_white c); [by destruct Hc|]. by rewrite IH.
Qed.

Lemma words_word w l : w ≠ [] → Forall (λ c, ¬ white c) w → at_end l →
  words_of (w ++ l) = w :: words_of l.
Proof.
  intros Hn Hw Hl. destruct (split_white_word w l Hw Hl) as (ws & E1 & E2).
  unfold words_of. rewrite E1, E2, filter_cons_True by done.
  by rewrite filter_cons_False by by intros [].
Qed.

Lemma skip_white_spec l rest : chars l →
  ∃ ws l', l = ws ++ l' ∧ Forall white ws ∧ (l' = [] ∨ ∃ c l1, l' = c :: l1 ∧ ¬ white c)
    ∧ skip_white (l ++ 0 :: rest) = Some (replicate (length ws) 0, l' ++ 0 :: rest).
Proof.
  induction 1 as [|c l Hc Hl IH].
  { exists [], []. split; [done|]. split; [done|]. split; [by left|done]. }
  cbn [app skip_white]. destruct (is_white c) eqn:E.
  - destruct IH as (ws & l' & -> & Hws & Hl' & ->). exists (c :: ws), l'. cbn. by auto.
  - exists [], (c :: l). split; [done|]. split; [done|]. split; [|done].
    right. exists c, l. split; [done|]. unfold white. by rewrite E.
Qed.

Lemma skip_word_spec l rest : chars l →
  ∃ w l', l = w ++ l' ∧ Forall (λ c, ¬ white c) w ∧ at_end l'
    ∧ skip_word (l ++ 0 :: rest) = Some (w, l' ++ 0 :: rest).
Proof.
  induction 1 as [|c l Hc Hl IH].
  { exists [], []. split; [done|]. split; [done|]. split; [by left|done]. }
  cbn [app skip_word]. rewrite (proj2 (Z.eqb_neq _ _)) by done. destruct (is_white c) eqn:E; cbn.
  - exists [], (c :: l). split; [done|]. split; [done|]. split; [|done]. right. by exists c, l.
  - destruct IH as (w & l' & -> & Hw & Hl' & ->). exists (c :: w), l'.
    split; [done|]. split; [|done]. constructor; [|done]. unfold white. by rewrite E.
Qed.

Lemma tokens_spec n argc l rest :
  chars l → (length l < n)%nat → 0 ≤ argc ≤ 15 →
  ∃ s' r, tokens n argc (l ++ 0 :: rest) = Some (s', r)
    ∧ (at_end l → ∃ tl, s' = 0 :: tl)
    ∧ match r with
      | Some argv => Forall2 points_to argv (words_of l) ∧ argc + Z.of_nat (length argv) ≤ 15
      | None => 15 < argc + Z.of_nat (length (words_of l))
      end.
Proof.
  revert argc l. induction n as [|n IH]; intros argc l Hc Hn Ha; [lia|]. cbn [tokens].
  destruct (skip_white_spec l rest Hc) as (ws & l' & -> & Hws & Hl' & ->).
  cbn [mbind option_bind]. rewrite words_white by done. apply Forall_app in Hc as [_ Hc].
  rewrite length_app in Hn. destruct Hl' as [-> |(c & l1 & -> & Hw)].
  { cbn. exists (replicate (length ws) 0 ++ 0 :: rest), (Some []). split; [done|]. split; [|by cbn; auto with lia].
    intros _. destruct ws; cbn; eauto. }
  cbn [app head mbind option_bind]. rewrite (proj2 (Z.eqb_neq c 0)) by by apply Forall_cons_1 in Hc as [].
  assert (at_end (ws ++ c :: l1) → ws ≠ []) as Hend.
  { intros [?|(c' & l2 & E & Hc')] ->; [done|]. cbn in E. by injection E as -> ->. }
  destruct (skip_word_spec (c :: l1) rest Hc) as (w & l2 & E & Hww & Hl2 & E2).
  assert (w ≠ []) as Hw0.
  { intros ->. cbn in E. subst l2. by destruct Hl2 as [?|(c' & ? & [= -> ->] & ?)]. }
  change (c :: l1 ++ 0 :: rest) with ((c :: l1) ++ 0 :: rest).
  rewrite E in Hc, Hn |- *. rewrite words_word by done. rewrite length_app in Hn.
  apply Forall_app in Hc as [_ Hc]. unfold MAXARGS. destruct (Z.eqb_spec argc (16 - 1)) as [-> |Hne].
  { exists (replicate (length ws) 0 ++ (w ++ l2) ++ 0 :: rest), None. split; [done|].
    split; [|cbn; lia]. rewrite <- E. intros H%Hend. destruct ws; [done|]. cbn; eauto. }
  rewrite E in E2. rewrite E2. cbn [mbind option_bind].
  assert (0 < length w)%nat by (destruct w; [done|cbn; lia]).
  destruct (IH (argc + 1) l2 Hc ltac:(lia) ltac:(lia)) as (s' & r & -> & Hs' & Hr).
  cbn [mbind option_bind]. exists (replicate (length ws) 0 ++ w ++ s'), (option_map (cons (w ++ s')) r).
  split; [done|]. split.
  { rewrite <- E. intros H'%Hend. destruct ws; [done|]. cbn; eauto. }
  destruct r as [argv|]; cbn [option_map]; [|cbn [length]; lia]. destruct Hr as [Hr Hlen].
  split; [|cbn [length]; lia]. constructor; [|done]. destruct (Hs' Hl2) as [tl ->]. by exists tl.
Qed.

Lemma rm_line_words e : e ≠ [] → Forall (λ c, ¬ white c) e →
  words_of (codes "rm -r " ++ e) = [codes "rm"; codes "-r"; e].
Proof.
  intros Hn Hw. destruct (split_white_word e [] Hw) as (ws & [= <-] & E); [by left|].
  rewrite app_nil_r in E. unfold words_of.
  assert (split_white (codes "rm -r " ++ e) = [codes "rm"; codes "-r"; e]) as ->.
  { cbn -[is_white]. rewrite E. done. }
  rewrite !filter_cons_True by done. done.
Qed.

(** The characters of a word are characters of the line. *)
Lemma words_all l : Forall (λ w, ∀ c, c ∈ w → c ∈ l) (words_of l).
Proof.
  apply Forall_forall. intros w Hw c Hc. apply list_elem_of_filter in Hw as [_ Hw].
  revert w Hw Hc. induction l as [|x l IH]; intros w Hw Hc; cbn in Hw.
  { apply list_elem_of_singleton in Hw as ->. by apply not_elem_of_nil in Hc. }
  destruct (is_white x).
  - apply elem_of_cons in Hw as [-> |Hw]; [by apply not_elem_of_nil in Hc|].
    right. by eapply IH.
  - destruct (split_white l) as [|w' ws].
    { apply list_elem_of_singleton in Hw as ->. apply list_elem_of_singleton in Hc as ->. by left. }
    apply elem_of_cons in Hw as [-> |Hw]; [|right; eapply IH; [by right|done]].
    apply elem_of_cons in Hc as [-> |Hc]; [by left|]. right. eapply IH; [by left|done].
Qed.

Section Parser.
Context {W : Type} `{G : Gate W} (old : val) (junk : Z) (garbage : string → nat → list Z) (ha : Z).

(** The command of a name. *)
Definition find_command (w : list Z) (cs : list (string * command (W:=W))) : option command :=
  snd <$> (snd <$> list_find (λ c, codes c.1 = w) cs).

Definition unknown (p : list Z) : M (sh W) Z :=
  _ ← print old (ln "Unknown command '%s'") [Ptr p];
  _ ← say old "try 'help' to see all supported commands.";
  mret 0.

Lemma run_named_find cs p argv w :
  points_to p w → chars w → Forall is_char w → Forall (λ c, literal c.1) cs →
  run_named old cs (p :: argv)
  = match find_command w cs with Some f => f (p :: argv) | None => unknown p end.
Proof.
  intros [tl ->] Hw Hb. induction 1 as [|[x f] cs Hx Hcs IH]; [done|]. cbn [run_named].
  unfold arg at 1. cbn [lookup list_lookup].
  destruct (strcmp_lit w tl x Hw Hb) as (z & E & Hz); [by apply bool_decide_eq_true|].
  unfold find_command. cbn [list_find fst].
  transitivity (r ← strcmp_of (W:=W) (w ++ 0 :: tl) (lit x);
    if r =? 0 then f ((w ++ 0 :: tl) :: argv) else run_named old cs ((w ++ 0 :: tl) :: argv));
    [reflexivity|].
  unfold strcmp_of. rewrite E. transitivity (if z =? 0 then f ((w ++ 0 :: tl) :: argv)
    else run_named old cs ((w ++ 0 :: tl) :: argv)); [reflexivity|].
  destruct (Z.eqb_spec z 0) as [Hz0|Hz0].
  - by rewrite decide_True by by rewrite (proj1 Hz).
  - rewrite decide_False by (intros <-; by apply Hz0, Hz). rewrite IH. unfold find_command.
    by destruct (list_find _ cs) as [[]|].
Qed.

Lemma commands_literal fuel : Forall (λ c, literal c.1) (commands old junk garbage ha fuel).
Proof.
  change (Forall (literal ∘ fst) (commands old junk garbage ha fuel)). apply Forall_fmap.
  apply (bool_decide_unpack _). vm_compute. exact I.
Qed.

(** What a line means: the command named by its first word, run on its words. *)
Definition line_meaning (fuel : nat) (ws : list (list Z)) (argv : list (list Z)) : M (sh W) Z :=
  match ws, argv with
  | w :: _, p :: _ =>
    match find_command w (commands old junk garbage ha fuel) with
    | Some f => f argv
    | None => unknown p
    end
  | _, _ => mret 0
  end.

Lemma runcmd_line fuel line rest :
  chars line → Forall is_char line → (length (words_of line) ≤ 15)%nat →
  ∃ argv, Forall2 points_to argv (words_of line)
    ∧ runcmd old junk garbage ha fuel (line ++ 0 :: rest)
      = line_meaning fuel (words_of line) argv.
Proof.
  intros Hc Hb Hl.
  destruct (tokens_spec (S (length (line ++ 0 :: rest))) 0 line rest Hc) as (s' & r & E & _ & Hr);
    [rewrite length_app; lia|lia|].
  destruct r as [argv|]; [|lia]. destruct Hr as [Hr _]. exists argv. split; [done|].
  unfold runcmd. rewrite E. transitivity (match argv with [] => mret 0
    | _ => run_named old (commands old junk garbage ha fuel) argv end); [by destruct argv|].
  unfold line_meaning. pose proof (words_all line) as Hw.
  destruct Hr as [|p w argv ws Hp Hr]; [done|]. apply Forall_cons_1 in Hw as [Hw _].
  rewrite (run_named_find _ p argv w); [done|done| | |apply commands_literal].
  - apply Forall_forall. intros c Hcw. by eapply Forall_forall in Hc; [|by apply Hw].
  - apply Forall_forall. intros c Hcw. by eapply Forall_forall in Hb; [|by apply Hw].
Qed.

Lemma runcmd_too_many fuel line rest :
  chars line → (15 < length (words_of line))%nat →
  runcmd old junk garbage ha fuel (line ++ 0 :: rest)
  = (_ ← print old (ln "Too many arguments (max %d)") [Num MAXARGS]; mret 0).
Proof.
  intros Hc Hl.
  destruct (tokens_spec (S (length (line ++ 0 :: rest))) 0 line rest Hc) as (s' & r & E & _ & Hr);
    [rewrite length_app; lia|lia|].
  destruct r as [argv|].
  { destruct Hr as [Hr%Forall2_length Hlen]. lia. }
  unfold runcmd. by rewrite E.
Qed.
End Parser.

(** ** Properties *)

(** C16: The line parser.  [runcmd] splits a line exactly as the reference does, at
    every run of white space: a line of more than fifteen words is refused with a
    message, an empty one does nothing, and otherwise the command whose name is the
    first word gets pointers to the words, each terminated, or the name is reported as
    unknown. *)
Theorem runcmd_runs_the_words {W : Type} `{G : Gate W} old junk garbage ha fuel line rest :
  chars line → Forall is_char line →
  if decide (15 < length (words_of line))%nat
  then runcmd old junk garbage ha fuel (line ++ 0 :: rest)
       = (_ ← print old (ln "Too many arguments (max %d)") [Num MAXARGS]; mret 0)
  else ∃ argv, Forall2 points_to argv (words_of line)
    ∧ runcmd old junk garbage ha fuel (line ++ 0 :: rest)
      = line_meaning old junk garbage ha fuel (words_of line) argv.
Proof.
  intros Hc Hb. case_decide; [by apply runcmd_too_many|]. apply runcmd_line; [done..|lia].
Qed.

Lemma runcmd_runs_the_words_witness :
  ∃ argv, Forall2 points_to argv [codes "kill"; codes "-9"; codes "2"]
    ∧ runcmd NULL 0 (λ _ n, replicate n 0) 0 5 (codes " kill   -9 2" ++ 0 :: [7])
      = line_meaning (G:=tree_gate) NULL 0 (λ _ n, replicate n 0) 0 5
          (words_of (codes " kill   -9 2")) argv.
Proof.
  apply (runcmd_runs_the_words NULL 0 (λ _ n, replicate n 0) 0 5 (codes " kill   -9 2") [7]).
  - apply (bool_decide_unpack _). vm_compute. exact I.
  - repeat constructor; unfold is_char; cbn; lia.
Defined.

(** Removing a tree, relative to the promises [FileCalls], which are not proved of the
    kernel.  On a system that keeps them the line [rm -r e], for one name [e], removes
    the entry [e] of the working directory with the
    whole tree under it, of any depth within the bound on recursion and with any
    number of entries that fit the buffer for a listing; it returns to the directory
    it was started in and changes nothing else in the file system, the open files, what
    is printed, or the variables of the shell. *)
Lemma rm_removes_the_tree {W : Type} `{G : Gate W} old `{FC : !FileCalls W old}
    junk garbage ha n s e rest t es :
  let v := view (world s) in
  (∀ x k, length (garbage x k) = k) → room v → good_name e → Forall (λ c, ¬ white c) e →
  look (fs_root v) (fs_cwd v) = Some (Dir es) → child es e = Some t → tree_ok n t →
  ∃ s', runcmd old junk garbage ha n (codes "rm -r " ++ e ++ 0 :: rest) s = Ok (0, s')
    ∧ sees old s (with_root (upd (fs_root v) (fs_cwd v) (Dir (del es e))) v) s'.
Proof.
  intros v Hgar Hroom He Hw Hl Hc Ht. set (line := codes "rm -r " ++ e).
  assert (words_of line = [codes "rm"; codes "-r"; e]) as Ew by (by apply rm_line_words; [apply He|]).
  destruct (runcmd_line old junk garbage ha n line rest) as (argv & Hargv & E).
  { apply Forall_app_2; [repeat constructor; cbn; lia|apply He]. }
  { apply Forall_app_2; [repeat constructor; unfold is_char; cbn; lia|apply He]. }
  { rewrite Ew. cbn. lia. }
  rewrite Ew in Hargv.
  replace (codes "rm -r " ++ e ++ 0 :: rest) with (line ++ 0 :: rest)
    by (unfold line; by rewrite <- (app_assoc (codes "rm -r ") e)).
  rewrite E, Ew.
  apply Forall2_cons_inv_r in Hargv as (p0 & ? & _ & Hargv & ->).
  apply Forall2_cons_inv_r in Hargv as (p1 & ? & Hp1 & Hargv & ->).
  apply Forall2_cons_inv_r in Hargv as (p2 & ? & Hp2 & Hargv & ->).
  apply Forall2_nil_inv_r in Hargv as ->.
  apply wp_run_val. change (line_meaning _ _ _ _ _ _ _) with
    (shell_rm old junk garbage n [p0; p1; p2]).
  by eapply wp_shell_rm.
Qed.

(** A directory [a] with a file [b] and a directory [c] that holds a file [x], and a
    file [d] beside it. *)
Definition sample_dir : node :=
  Dir [(codes "b", File 1); (codes "c", Dir [(codes "x", File 2)])].
Definition sample_entries : list (name * node) := [(codes "a", sample_dir); (codes "d", File 3)].
Definition sample_tree : node := Dir sample_entries.
Definition sample_view (r : node) (cwd : list name) : fsview := FsView r cwd ∅ ∅ [].
Definition sample_shell : sh fsview :=
  Sh (sample_view sample_tree []) 0 SIGKILL (replicate 1024 0).
Definition zeros (x : string) (k : nat) : list Z := replicate k 0.

(** The tree and the working directory after a line. *)
Definition after_line (line : list Z) : option (node * list name) :=
  match runcmd (G:=tree_gate) NULL 0 zeros 0 5 (line ++ [0]) sample_shell with
  | Ok (_, s) => Some (fs_root (world s), fs_cwd (world s))
  | Err _ => None
  end.

(** Given a path of two elements, [rm -r] empties the directory but then looks for it
    from the wrong place: the directory stays, and the shell is left in another
    working directory than it was started in. *)
Lemma rm_recursive_path_goes_astray :
  after_line (codes "rm -r a/c") = Some
    (Dir [(codes "a", Dir [(codes "b", File 1); (codes "c", Dir [])]); (codes "d", File 3)],
     [codes "a"]).
Proof. vm_compute. done. Qed.
