(* ===== verification/UserKernel.v ===== *)
(** * A system call from the user library to the kernel and back

    The stubs of the user library and the trap handler of the kernel put together:
    the registers a stub sets are the trap frame the kernel finds, and the ones the
    kernel leaves are the answer. *)

From S2P Require Import Prelude Memory Strings Resume Spinlock PhysMap Pmm Container PageTable.
From S2P Require Import Isolation UserCopy Tcb TQueue Thread Signal Ipc Bufcache Log Block Inode Dir.
From S2P Require Import Contents File Console Printf Proc CallNumbers TrapNumbers Syscall Trap UserLib.

#[local] Existing Instance l_x_thr_ok.
#[local] Existing Instance l_x_vm_ok.

Section UserKernel.
Context `{KL : KernLayout}.
Context (junk : Z) (w : patience).

(** Where the objects of the process lie, and its frame but for the registers of the
    call. *)
Context (addr : list Z → Z) (t0 : tf_t).

Definition reg_word (v : val) : Z := match v with Num z => u32 z | Ptr p => addr p end.

(** The frame pushed by [int $48] and the entry code. *)
Definition enter (r : regs) : tf_t :=
  Tf (edi t0) (reg_word (r_esi r)) (ebp t0) (oesp t0) (reg_word (r_ebx r)) (reg_word (r_edx r))
    (reg_word (r_ecx r)) (r_eax r) (es t0) (ds t0) T_SYSCALL (err t0) (eip t0) (cs t0) (eflags t0)
    (esp t0) (ss t0).

(** The kernel as the gate of a process, for calls that write no buffer of the caller.
    A call during which the process is switched out, and one after which it goes on in
    a signal handler on another stack frame, is [Blocked]. *)
Definition kernel_gate : Gate kern := λ r s,
  match trap junk w 0 (enter r) s with
  | KRet t s' => if esp t =? esp t0 then Ok (Reply (eax t) (ebx t) [], s') else Err (Blocked "handler")
  | KErr e => Err e
  | KSwitch _ _ _ _ => Err (Blocked "int")
  end.

Section Kill.
Context (s : kern) (cur : Z) (ready : list Z) (pid sig : Z) (old : val).
Let T := lget l_x_thr (entered s).
Context (Hok : sched_ok (lget l_x_thr s) cur ready) (Hvm : vm_ok (lget l_x_vm s)) (Hcur : user_pid cur).
Context (Hb : busy T cur).

(** What [kill] leaves of the caller, which may be the target. *)
Lemma kill_outcome_caller errno T' :
  kill_outcome T cur ready pid sig errno T' →
  (∃ ready', sched_ok T' cur ready') ∧ t_vm T' = t_vm T ∧ state (tcb T' cur) ≠ TSTATE_READY.
Proof.
  assert (sched_ok T cur ready) as HokT by by apply entered_sched.
  destruct Hb as [Hb1 Hb2]. unfold kill_outcome. repeat case_decide.
  - intros [_ ->]. eauto.
  - intros [_ ->]. eauto.
  - intros (_ & Hs & Hv & Ht & _). specialize (Ht cur). apply nolinks_fields in Ht as (Es & _ & _).
    rewrite Es. split; [eauto|]. split; [done|]. unfold Thread.upd. by case_decide.
  - intros (_ & Hv & Hs & Ht). specialize (Ht cur). unfold woken_tcbs in Ht.
    set (T1 := put pid (pend_tcb sig) T) in *.
    assert (state (tcb T1 cur) = state (tcb T cur)) as Ec.
    { clear Ht. unfold T1, put. thr_simpl. rewrite aget_insert. case_decide as Ep; [by rewrite Ep|done]. }
    rewrite decide_False in Ht by (unfold sleeps_on; rewrite Ec; tauto).
    apply nolinks_fields in Ht as (Es & _ & _). rewrite Es, Ec. eauto.
  - intros (_ & Hv & ->). split; [|split; [done|]].
    + exists ready. by apply sched_ok_put.
    + unfold put. thr_simpl. rewrite aget_insert. case_decide as Ep; [by rewrite Ep|done].
Qed.

Context (Hh : TRAP_HANDLER s !! T_SYSCALL = Some syscall_cb) (Hsp : 31 ≤ esp t0 < two32).
Context (Hpid : -2147483648 ≤ pid < 2147483648) (Hsig : -2147483648 ≤ sig < 2147483648).
Context (Hlive : is_pid pid → live T pid).

(** The registers the stub sets. *)
Let r : regs := Regs SYS_kill (Num pid) (Num sig) old old.

(** The way back after [T']: the lowest signal pending for the caller is served, and
    with none it returns. *)
Definition kill_returns (errno : Z) (T' : thr) : Prop :=
  let t := syscall_set_errno (enter r) errno in
  match lowest (pending T' cur) with
  | None => ∃ s', trap junk w 0 (enter r) s = KRet t s'
      ∧ lget l_x_thr s' = lset l_t_vm (at_base cur (t_vm T')) T'
  | Some n => ∃ ready' s1 k, sched_ok T' cur ready' ∧ serves T' cur ready' n t k
      ∧ trap junk w 0 (enter r) s = kbind (klift_tree l_x_thr s1 k)
          (λ t', _ ← run (with_vm (set_pdir_base cur)); mret t')
  end.

Lemma trap_kill :
  ∃ errno T', kill_outcome T cur ready pid sig errno T' ∧ kill_returns errno T'.
Proof.
  assert (sched_ok T cur ready ∧ vm_ok (t_vm T)) as [HokT HvmT] by by apply entered_sched.
  destruct (wp_run (Signal.sys_kill (enter r)) (λ t' T', ∃ errno, t' = syscall_set_errno (enter r) errno
    ∧ kill_outcome T cur ready pid sig errno T') T) as (t' & T' & E & errno & -> & Ho).
  { apply (wp_sys_kill T cur ready); [done|done| |].
    - cbn. by rewrite s32_u32.
    - cbn. rewrite !s32_u32 by done. intros errno T' Ho. by exists errno. }
  destruct (kill_outcome_caller errno T' Ho) as ((ready' & Hok') & Hv' & Hst').
  exists errno, T'. split; [done|]. unfold user_pid in Hcur. unfold kill_returns, trap. cbv zeta.
  set (window := λ i, kernel_interrupts junk w (arrivals w i)).
  rewrite (trap_enter junk w window 0 (enter r) s cur syscall_cb);
    [|apply (si_cur _ _ _ (proj1 Hok))|done|done].
  assert (call_handler junk w window syscall_cb 0 (enter r) (entered s)
    = KRet (syscall_set_errno (enter r) errno) (lset l_x_thr T' (entered s))) as Ec.
  { cbn [call_handler].
    change (syscall_dispatch junk w window (enter r)) with (run (with_thr (Signal.sys_kill (enter r)))).
    apply run_Ok. by apply lift_Ok. }
  change ((t' ← call_handler junk w window syscall_cb 0 (enter r); leave cur t') (entered s))
    with (kbind (call_handler junk w window syscall_cb 0 (enter r) (entered s)) (leave cur)).
  rewrite Ec. cbn [kbind].
  destruct (leave_enter cur (syscall_set_errno (enter r) errno) (lset l_x_thr T' (entered s)))
    as (s1 & E1 & ->); [lia|]. rewrite lget_lset in E1. rewrite E1.
  pose proof (handle_pending_serves T' cur ready' (syscall_set_errno (enter r) errno) Hok'
    ltac:(by rewrite Hv') Hcur Hst' Hsp) as Hs.
  destruct (lowest (pending T' cur)) as [n|].
  { by eexists ready', s1, _. }
  rewrite Hs. cbn [klift_tree kbind].
  replace (lset l_x_thr T' s1) with s1 by by rewrite <- E1, lset_lget.
  rewrite (kbind_run _ _ s1 tt (lset l_x_vm (at_base cur (lget l_x_vm s1)) s1))
    by (apply lift_Ok, set_base_Ok; lia).
  eexists. split; [reflexivity|].
  change (lget l_x_vm s1) with (t_vm (lget l_x_thr s1)). rewrite E1.
  change (lget l_x_thr (lset l_x_vm ?v s1)) with (lset l_t_vm v (lget l_x_thr s1)). by rewrite E1.
Qed.
End Kill.
(** ** Properties *)

End UserKernel.

(** ** A concrete call *)

#[local] Existing Instance sample_layout.
#[local] Existing Instance sample_stack.
#[local] Existing Instance sample_ipc_layout.
#[local] Existing Instance sample_buf_layout.
#[local] Existing Instance sample_fs_layout.
#[local] Existing Instance sample_kern_layout.

(** Process 1 runs with no signal pending, process 0 waits. *)
Definition calm_threads (v : vm) : thr := put 1 (clear_tcb 2) (sample_sig v).
Definition calm_kern (v : vm) : kern :=
  Kern (Fsys (Ino (Lgs (Bio (Ipc (calm_threads v) ∅ (Mq NUM_IDS NUM_IDS) released) zero ∅ released [] 1 ∅ [])
          released 0 0 0 0 0 ∅) released ∅) released ∅ released true)
    sample_con released released ∅ ∅ zero {[T_SYSCALL := syscall_cb]} true.

(** The cases of [kill_outcome] that do not apply. *)
Ltac calm_case :=
  first [ unfold NSIG, SIGKILL; lia
        | intros [H|H]; [apply H; unfold is_pid, NUM_IDS; lia|vm_compute in H; discriminate H]
        | intros [H _]; vm_compute in H; discriminate H ].

