(* ===== verification/Programs.v ===== *)
(** * The other user programs (user/idle, user/pingpong, the signal tests, user/fstest)

    The processes that end in an endless loop are given as what they do before it.
    The tests of the file system are run on the executable system of [FileTree]. *)

From S2P Require Import Prelude Memory Strings Console Printf CallNumbers UserLib FileTree Shell.

(** ** idle, ding, ping, pong *)

Section Small.
Context {W : Type} `{G : Gate W} (old : val) (garbage : string → nat → list Z) (handler : string → Z).

Definition out (fmt : list Z) (ap : list val) : M W unit := _ ← printf old fmt ap; mret tt.
Definition tell (s : string) : M W unit := out (ln s) [].

Definition idle_main : M W unit := tell "idle".
Definition ding_main : M W unit := tell "ding started.".

(** [sizeof] counts the terminating zero. *)
Definition ping_main : M W unit :=
  _ ← tell "[ping] ping started.";
  let msg := lit "Hello pong, this is ping." in
  _ ← tell "[ping] sending msg...";
  _ ← sys_sync_send old 8 msg (Z.of_nat (length msg));
  _ ← tell "[ping] msg sent.";
  _ ← tell "[ping] recving msg...";
  r ← sys_sync_receive old 8 msg (Z.of_nat (length msg));
  out (ln "[ping] msg from proc %d: %s") [Num 5; Ptr r.2].

Definition pong_main : M W unit :=
  let msg := lit "Hello ping, this is pong." in
  _ ← tell "[pong] started.";
  _ ← tell "[pong] recving msg...";
  r ← sys_sync_receive old 7 (garbage "msg_buf" 100) 100;
  _ ← out (ln "[pong] msg from proc %d: %s") [Num 4; Ptr r.2];
  _ ← tell "[pong] sending msg...";
  _ ← sys_sync_send old 7 msg (Z.of_nat (length msg));
  out (codes "[pong] msg sent.") [].

(** ** The signal tests *)

(** A write through the null pointer. *)
Definition sigsegv_main : M W unit :=
  _ ← tell "[sigsegv_test] Process started.";
  _ ← tell "[sigsegv_test] Attempting to dereference NULL pointer...";
  fail (NullDeref "bad_ptr").

(** [turns] of the loop; [count] wraps around. *)
Fixpoint sigint_loop (turns : nat) (count : Z) : M W unit :=
  match turns with
  | O => mret tt
  | S turns =>
    _ ← out (ln "[sigint_test] Hello World! (%d)") [Num count];
    sigint_loop turns (s32 (count + 1))
  end.
Definition sigint_main (turns : nat) : M W unit :=
  _ ← tell "[sigint_test] Process started. Printing continuously...";
  _ ← tell "[sigint_test] Press Ctrl+C to terminate.";
  sigint_loop turns 0.

Definition my_sigint_handler (signum : Z) : M W unit := out ([10] ++ ln "YOU CAN'T KILL ME!!") [].

Fixpoint dots_loop (turns : nat) : M W unit :=
  match turns with
  | O => mret tt
  | S turns => _ ← out (codes ".") []; dots_loop turns
  end.
Definition sigint_custom_main (turns : nat) : M W unit :=
  _ ← sigaction old SIGINT (Ptr (sa_bytes garbage (handler "my_sigint_handler") 0 0)) NULL;
  _ ← tell "[sigint_custom] Process started with custom SIGINT handler.";
  dots_loop turns.

(** user/signal_test.c; the escaped backslashes of its messages are printed. *)
Definition st_sigint_handler (signum : Z) : M W unit := out (ln "Received SIGINT (%d)") [Num signum].
Definition st_sigusr1_handler (signum : Z) : M W unit := out (ln "Received SIGUSR1 (%d)") [Num signum].

Fixpoint pause_loop (turns : nat) : M W unit :=
  match turns with
  | O => mret tt
  | S turns => _ ← pause old; pause_loop turns
  end.
Definition signal_test_main (turns : nat) : M W Z :=
  _ ← out (codes "Signal test program\n") [];
  r ← sigaction old SIGINT (Ptr (sa_bytes garbage (handler "sigint_handler") 0 0)) NULL;
  if r.1 <? 0 then _ ← out (codes "Failed to register SIGINT handler\n") []; mret (-1)
  else
    r ← sigaction old SIGUSR1 (Ptr (sa_bytes garbage (handler "sigusr1_handler") 0 0)) NULL;
    if r.1 <? 0 then _ ← tell "Failed to register SIGUSR1 handler"; mret (-1)
    else
      _ ← tell "Handlers registered. Waiting for signals...";
      _ ← pause_loop turns;
      mret 0.
End Small.

(** ** fstest *)

(** The array [buf], and the rest of the machine. *)
Record ft (W : Type) := Ft { ft_world : W; ft_buf : list Z }.
Arguments Ft {W} _ _.
Arguments ft_world {W} _.
Arguments ft_buf {W} _.

Definition l_ft_world {W} : lens (ft W) W := Lens ft_world (λ w s, Ft w (ft_buf s)).
Definition set_ft_buf {W} (b : list Z) (s : ft W) : ft W := Ft (ft_world s) b.

Section Fstest.
Context {W : Type} `{G : Gate W} (old : val).

Definition put_ (fmt : list Z) (ap : list val) : M (ft W) unit :=
  _ ← lift l_ft_world (printf old fmt ap); mret tt.
Definition puts_ (s : string) : M (ft W) unit := put_ (ln s) [].
Definition title (s : string) : M (ft W) unit := put_ (ln s) [].
Definition passed (s : string) : M (ft W) unit := put_ (ln s ++ [10]) [].

Definition open_ (p : string) (omode : Z) : M (ft W) Z := lift l_ft_world (sys_open old (lit p) omode).
Definition close_ (fd : Z) : M (ft W) Z := lift l_ft_world (sys_close old fd).
Definition unlink_ (p : string) : M (ft W) Z := lift l_ft_world (sys_unlink old (lit p)).
Definition mkdir_ (p : string) : M (ft W) Z := lift l_ft_world (sys_mkdir old (lit p)).
Definition chdir_ (p : string) : M (ft W) Z := lift l_ft_world (sys_chdir old (lit p)).
Definition link_ (p q : string) : M (ft W) Z := lift l_ft_world (sys_link (lit p) (lit q)).
Definition write_ (fd : Z) (p : list Z) (n : Z) : M (ft W) Z := lift l_ft_world (sys_write old fd p n).

(** [read(fd, buf, n)] and [write(fd, buf, n)] of the array [buf]. *)
Definition read_buf (fd n : Z) : M (ft W) Z :=
  b ← gets ft_buf;
  r ← lift l_ft_world (sys_read old fd b n);
  _ ← modify (set_ft_buf r.2);
  mret r.1.
Definition write_buf (fd n : Z) : M (ft W) Z := b ← gets ft_buf; write_ fd b n.
Definition buf_at (i : nat) : M (ft W) Z := b ← gets ft_buf; within "buf" (b !! i).

(** The first word of [buf], as an [int]. *)
Definition set_word (i : Z) : M (ft W) unit :=
  modify (λ s, set_ft_buf (le32 i ++ drop 4 (ft_buf s)) s).
Definition get_word : M (ft W) Z :=
  b ← gets ft_buf; mret (s32 (foldr (λ c a, u8 c + 256 * a) 0 (take 4 b))).

(** [if (!c) { printf(m); exit(); }] before the rest [k]; [exit] returns. *)
Definition ensure (c : bool) (m : list Z) (k : M (ft W) unit) : M (ft W) unit :=
  if c then k else put_ m [].

(** A loop of [n] turns that stops when its body gives false. *)
Fixpoint loop_ok (n : nat) (i : Z) (body : Z → M (ft W) bool) : M (ft W) bool :=
  match n with
  | O => mret true
  | S n => ok ← body i; if (ok : bool) then loop_ok n (i + 1) body else mret false
  end.

Definition CREATE_RDWR : Z := Z.lor O_CREATE O_RDWR.

Definition smallfile : M (ft W) unit :=
  _ ← title "=====small file test=====";
  fd ← open_ "small" CREATE_RDWR;
  if negb (0 <=? fd) then puts_ "error: creat small failed!"
  else
  _ ← put_ (ln "creat small succeeded; ok, fd: %d") [Num fd];
  ok ← loop_ok 100 0 (λ i,
    n ← write_ fd (codes "aaaaaaaaaa") 10;
    if negb (n =? 10) then _ ← put_ (ln "error: write aa %d new file failed") [Num i]; mret false
    else
    n ← write_ fd (codes "bbbbbbbbbb") 10;
    if negb (n =? 10) then _ ← put_ (ln "error: write bb %d new file failed") [Num i]; mret false
    else mret true);
  if negb ok then mret tt
  else
  _ ← puts_ "writes ok";
  _ ← close_ fd;
  fd ← open_ "small" O_RDONLY;
  if negb (0 <=? fd) then puts_ "error: open small failed!"
  else
  _ ← puts_ "open small succeeded ok";
  i ← read_buf fd 2000;
  if negb (i =? 2000) then puts_ "read failed"
  else
  _ ← puts_ "read succeeded ok";
  _ ← close_ fd;
  r ← unlink_ "small";
  ensure (negb (r <? 0)) (ln "unlink small failed")
  (passed "=====small file test ok=====").

Definition MAXFILE : Z := 12 + 512 / 4.

(** The loop that reads [big]: [None] after a message; [turns] bounds the blocks. *)
Fixpoint read_blocks (turns : nat) (fd n : Z) : M (ft W) bool :=
  match turns with
  | O => fail OutOfFuel
  | S turns =>
    i ← read_buf fd 512;
    if i =? 0 then
      if n =? MAXFILE - 1 then
        _ ← put_ (codes "read only %d blocks from big") [Num n]; mret false
      else mret true
    else if negb (i =? 512) then _ ← put_ (ln "read failed %d") [Num i]; mret false
    else
    x ← get_word;
    if negb (x =? n) then
      _ ← put_ (ln "read content of block %d is %d") [Num n; Num x]; mret false
    else read_blocks turns fd (n + 1)
  end.

Definition bigfile1 : M (ft W) unit :=
  _ ← title "=====big files test=====";
  fd ← open_ "big" CREATE_RDWR;
  ensure (negb (fd <? 0)) (ln "error: creat big failed!") (
  ok ← loop_ok (Z.to_nat MAXFILE) 0 (λ i,
    _ ← set_word i;
    n ← write_buf fd 512;
    if negb (n =? 512) then _ ← puts_ "error: write big file failed"; mret false else mret true);
  if negb ok then mret tt
  else
  _ ← close_ fd;
  fd ← open_ "big" O_RDONLY;
  ensure (negb (fd <? 0)) (ln "error: open big failed!") (
  ok ← read_blocks (S (Z.to_nat MAXFILE)) fd 0;
  if negb ok then mret tt
  else
  _ ← close_ fd;
  r ← unlink_ "big";
  ensure (negb (r <? 0)) (ln "unlink big failed")
  (passed "=====big files ok====="))).

(** Open or unlink by the array [name]: an 'a' and a character. *)
Definition open_name (name : list Z) (omode : Z) : M (ft W) Z := lift l_ft_world (sys_open old name omode).
Definition unlink_name (name : list Z) : M (ft W) Z := lift l_ft_world (sys_unlink old name).

Definition createtest : M (ft W) unit :=
  _ ← title "=====many creates, followed by unlink test=====";
  _ ← for_range 0 52 (λ i,
    fd ← open_name [97; 48 + i; 0] CREATE_RDWR;
    _ ← close_ fd;
    mret tt);
  _ ← for_range 0 52 (λ i, _ ← unlink_name [97; 48 + i; 0]; mret tt);
  passed "=====many creates, followed by unlink; ok=====".

Definition rmdot : M (ft W) unit :=
  _ ← title "=====rmdot test=====";
  r ← mkdir_ "dots"; ensure (r =? 0) (ln "mkdir dots failed") (
  r ← chdir_ "dots"; ensure (r =? 0) (ln "chdir dots failed") (
  r ← unlink_ "."; ensure (negb (r =? 0)) (ln "rm . worked!") (
  r ← unlink_ ".."; ensure (negb (r =? 0)) (ln "rm .. worked!") (
  r ← chdir_ "/";
  _ ← (if negb (r =? 0) then puts_ "chdir '/' failed" else mret tt);
  r ← unlink_ "dots/."; ensure (negb (r =? 0)) (ln "unlink dots/. worked!") (
  r ← unlink_ "dots/.."; ensure (negb (r =? 0)) (ln "unlink dots/.. worked!") (
  r ← unlink_ "dots"; ensure (r =? 0) (ln "unlink dots failed!")
  (passed "=====rmdot ok====="))))))).

Definition fourteen : M (ft W) unit :=
  _ ← title "=====fourteen test=====";
  r ← mkdir_ "12345678901234"; ensure (r =? 0) (ln "mkdir 12345678901234 failed") (
  r ← mkdir_ "12345678901234/123456789012345";
  ensure (r =? 0) (ln "mkdir 12345678901234/123456789012345 failed") (
  fd ← open_ "123456789012345/123456789012345/123456789012345" O_CREATE;
  ensure (negb (fd <? 0)) (ln "create 123456789012345/123456789012345/123456789012345 failed") (
  _ ← close_ fd;
  fd ← open_ "12345678901234/12345678901234/12345678901234" 0;
  ensure (negb (fd <? 0)) (ln "open 12345678901234/12345678901234/12345678901234 failed") (
  _ ← close_ fd;
  r ← mkdir_ "12345678901234/12345678901234";
  ensure (negb (r =? 0)) (ln "mkdir 12345678901234/12345678901234 succeeded!") (
  r ← mkdir_ "12345678901234/123456789012345";
  ensure (negb (r =? 0)) (ln "mkdir 12345678901234/123456789012345 succeeded!")
  (passed "=====fourteen ok=====")))))).

(** The loop that reads [bigfile]: the total, or [None] after a message. *)
Fixpoint read_300 (turns : nat) (fd i total : Z) : M (ft W) (option Z) :=
  match turns with
  | O => fail OutOfFuel
  | S turns =>
    cc ← read_buf fd 300;
    if cc <? 0 then _ ← puts_ "read bigfile failed"; mret None
    else if cc =? 0 then mret (Some total)
    else if negb (cc =? 300) then _ ← puts_ "short read bigfile"; mret None
    else
    a ← buf_at 0;
    b ← buf_at 299;
    if negb (a =? i / 2) || negb (b =? i / 2) then _ ← puts_ "read bigfile wrong data"; mret None
    else read_300 turns fd (i + 1) (total + cc)
  end.

Definition bigfile2 : M (ft W) unit :=
  _ ← title "=====bigfile test=====";
  _ ← unlink_ "bigfile";
  fd ← open_ "bigfile" CREATE_RDWR;
  ensure (negb (fd <? 0)) (codes "cannot create bigfile") (
  ok ← loop_ok 20 0 (λ i,
    _ ← modify (λ s, set_ft_buf (replicate 600 (s8 i) ++ drop 600 (ft_buf s)) s);
    n ← write_buf fd 600;
    if negb (n =? 600) then _ ← puts_ "write bigfile failed"; mret false else mret true);
  if negb ok then mret tt
  else
  _ ← close_ fd;
  fd ← open_ "bigfile" 0;
  ensure (negb (fd <? 0)) (ln "cannot open bigfile") (
  t ← read_300 50 fd 0 0;
  match t with
  | None => mret tt
  | Some total =>
    _ ← close_ fd;
    ensure (total =? 20 * 600) (ln "read bigfile wrong total") (
    _ ← unlink_ "bigfile";
    passed "=====bigfile test ok=====")
  end)).
(** The calls of [subdir] and others that must fail, or must succeed: the message
    tells which. *)
Definition fails (m : M (ft W) Z) (msg : string) (k : M (ft W) unit) : M (ft W) unit :=
  r ← m; ensure (negb (r =? 0)) (ln msg) k.
Definition succeeds (m : M (ft W) Z) (msg : string) (k : M (ft W) unit) : M (ft W) unit :=
  r ← m; ensure (r =? 0) (ln msg) k.
Definition negative (m : M (ft W) Z) (msg : string) (k : M (ft W) unit) : M (ft W) unit :=
  r ← m; ensure (negb (0 <=? r)) (ln msg) k.
Definition not_negative (m : M (ft W) Z) (msg : string) (k : M (ft W) unit) : M (ft W) unit :=
  r ← m; ensure (negb (r <? 0)) (ln msg) k.

(** From [dd/dd/ffff] to the end. *)
Definition subdir_refusals : M (ft W) unit :=
  negative (open_ "dd/dd/ff" O_RDONLY) "open (unlinked) dd/dd/ff succeeded!" (
  negative (open_ "dd/ff/ff" CREATE_RDWR) "create dd/ff/ff succeeded!" (
  negative (open_ "dd/xx/ff" CREATE_RDWR) "create dd/xx/ff succeeded!" (
  negative (open_ "dd" O_CREATE) "create dd succeeded!" (
  negative (open_ "dd" O_RDWR) "open dd rdwr succeeded!" (
  negative (open_ "dd" 1) "open dd wronly succeeded!" (
  fails (link_ "dd/ff/ff" "dd/dd/xx") "link dd/ff/ff dd/dd/xx succeeded!" (
  fails (link_ "dd/xx/ff" "dd/dd/xx") "link dd/xx/ff dd/dd/xx succeeded!" (
  fails (link_ "dd/ff" "dd/dd/ffff") "link dd/ff dd/dd/ffff succeeded!" (
  fails (mkdir_ "dd/ff/ff") "mkdir dd/ff/ff succeeded!" (
  fails (mkdir_ "dd/xx/ff") "mkdir dd/xx/ff succeeded!" (
  fails (mkdir_ "dd/dd/ffff") "mkdir dd/dd/ffff succeeded!" (
  fails (unlink_ "dd/xx/ff") "unlink dd/xx/ff succeeded!" (
  fails (unlink_ "dd/ff/ff") "unlink dd/ff/ff succeeded!" (
  fails (chdir_ "dd/ff") "chdir dd/ff succeeded!" (
  fails (chdir_ "dd/xx") "chdir dd/xx succeeded!" (
  succeeds (unlink_ "dd/dd/ffff") "unlink dd/dd/ff failed" (
  succeeds (unlink_ "dd/ff") "unlink dd/ff failed" (
  fails (unlink_ "dd") "unlink non-empty dd succeeded!" (
  not_negative (unlink_ "dd/dd") "unlink dd/dd failed" (
  not_negative (unlink_ "dd") "unlink dd failed"
  (passed "=====subdir ok====="))))))))))))))))))))).

Definition subdir : M (ft W) unit :=
  _ ← title "=====subdir test=====";
  _ ← unlink_ "ff";
  succeeds (mkdir_ "dd") "subdir mkdir dd failed" (
  fd ← open_ "dd/ff" CREATE_RDWR; ensure (negb (fd <? 0)) (ln "create dd/ff failed") (
  _ ← write_ fd (codes "ff") 2;
  _ ← close_ fd;
  negative (unlink_ "dd") "unlink dd (non-empty dir) succeeded!" (
  succeeds (mkdir_ "dd/dd") "subdir mkdir dd/dd failed" (
  fd ← open_ "dd/dd/ff" CREATE_RDWR; ensure (negb (fd <? 0)) (ln "create dd/dd/ff failed") (
  _ ← write_ fd (codes "FF") 2;
  _ ← close_ fd;
  fd ← open_ "dd/dd/../ff" 0; ensure (negb (fd <? 0)) (ln "open dd/dd/../ff failed") (
  cc ← read_buf fd 8192;
  c ← buf_at 0;
  if negb (cc =? 2) || negb (c =? 102) then
    _ ← put_ (ln "cc = %d, buf[0] = %c") [Num cc; Num c]; puts_ "dd/dd/../ff wrong content"
  else
  _ ← close_ fd;
  succeeds (link_ "dd/dd/ff" "dd/dd/ffff") "link dd/dd/ff dd/dd/ffff failed" (
  succeeds (unlink_ "dd/dd/ff") "unlink dd/dd/ff failed" (
  negative (open_ "dd/dd/ff" O_RDONLY) "open (unlinked) dd/dd/ff succeeded" (
  succeeds (chdir_ "dd") "chdir dd failed" (
  succeeds (chdir_ "dd/../../dd") "chdir dd/../../dd failed" (
  succeeds (chdir_ "dd/../../../dd") "chdir dd/../../dd failed" (
  succeeds (chdir_ "./..") "chdir ./.. failed" (
  fd ← open_ "dd/dd/ffff" 0; ensure (negb (fd <? 0)) (ln "open dd/dd/ffff failed") (
  n ← read_buf fd 8192; ensure (n =? 2) (ln "read dd/dd/ffff wrong len") (
  _ ← close_ fd;
  subdir_refusals))))))))))))))).

Definition linktest : M (ft W) unit :=
  _ ← title "=====linktest=====";
  _ ← unlink_ "lf1";
  _ ← unlink_ "lf2";
  fd ← open_ "lf1" CREATE_RDWR; ensure (negb (fd <? 0)) (ln "create lf1 failed") (
  n ← write_ fd (codes "hello") 5; ensure (n =? 5) (ln "write lf1 failed") (
  _ ← close_ fd;
  not_negative (link_ "lf1" "lf2") "link lf1 lf2 failed" (
  _ ← unlink_ "lf1";
  negative (open_ "lf1" 0) "unlinked lf1 but it is still there!" (
  fd ← open_ "lf2" 0; ensure (negb (fd <? 0)) (ln "open lf2 failed") (
  n ← read_buf fd 8192; ensure (n =? 5) (ln "read lf2 failed") (
  _ ← close_ fd;
  negative (link_ "lf2" "lf2") "link lf2 lf2 succeeded! oops" (
  _ ← unlink_ "lf2";
  negative (link_ "lf2" "lf1") "link non-existant succeeded! oops" (
  negative (link_ "." "lf1") "link . lf1 succeeded! oops"
  (passed "=====linktest ok====="))))))))).

Definition unlinkread : M (ft W) unit :=
  _ ← title "=====unlinkread test=====";
  fd ← open_ "unlinkread" CREATE_RDWR; ensure (negb (fd <? 0)) (ln "create unlinkread failed") (
  _ ← write_ fd (codes "hello") 5;
  _ ← close_ fd;
  fd ← open_ "unlinkread" O_RDWR; ensure (negb (fd <? 0)) (ln "open unlinkread failed") (
  succeeds (unlink_ "unlinkread") "unlink unlinkread failed" (
  fd1 ← open_ "unlinkread" CREATE_RDWR;
  _ ← write_ fd1 (codes "yyy") 3;
  _ ← close_ fd1;
  n ← read_buf fd 8192; ensure (n =? 5) (codes "unlinkread read failed") (
  c ← buf_at 0; ensure (c =? 104) (ln "unlinkread wrong data") (
  n ← write_buf fd 10; ensure (n =? 10) (ln "unlinkread write failed") (
  _ ← close_ fd;
  _ ← unlink_ "unlinkread";
  passed "=====unlinkread ok=====")))))).

Definition dirfile : M (ft W) unit :=
  _ ← title "=====dir vs file=====";
  fd ← open_ "dirfile" O_CREATE; ensure (negb (fd <? 0)) (ln "create dirfile failed") (
  _ ← close_ fd;
  fails (chdir_ "dirfile") "chdir dirfile succeeded!" (
  negative (open_ "dirfile/xx" 0) "create dirfile/xx succeeded!" (
  negative (open_ "dirfile/xx" O_CREATE) "create dirfile/xx succeeded!" (
  fails (mkdir_ "dirfile/xx") "mkdir dirfile/xx succeeded!" (
  fails (unlink_ "dirfile/xx") "unlink dirfile/xx succeeded!" (
  fails (link_ "README" "dirfile/xx") "link to dirfile/xx succeeded!" (
  succeeds (unlink_ "dirfile") "unlink dirfile failed!" (
  negative (open_ "." O_RDWR) "open . for writing succeeded!" (
  fd ← open_ "." 0;
  n ← write_ fd (codes "x") 1; ensure (negb (0 <? n)) (ln "write . succeeded!") (
  _ ← close_ fd;
  passed "=====dir vs file OK=====")))))))))).

(** [if (fd >= 0) close(fd)] *)
Definition close_if (fd : Z) : M (ft W) unit := if 0 <=? fd then _ ← close_ fd; mret tt else mret tt.

Definition iref : M (ft W) unit :=
  _ ← title "=====empty file name=====";
  ok ← loop_ok 51 0 (λ i,
    r ← mkdir_ "irefd";
    if negb (r =? 0) then _ ← puts_ "mkdir irefd failed"; mret false
    else
    r ← chdir_ "irefd";
    if negb (r =? 0) then _ ← puts_ "chdir irefd failed"; mret false
    else
    _ ← mkdir_ EmptyString;
    _ ← link_ "README" EmptyString;
    fd ← open_ EmptyString O_CREATE;
    _ ← close_if fd;
    fd ← open_ "xx" O_CREATE;
    _ ← close_if fd;
    _ ← unlink_ "xx";
    mret true);
  if negb ok then mret tt
  else
  _ ← chdir_ "/";
  passed "=====empty file name OK=====".

(** The array [namel] for [i]. *)
Definition namel (i : Z) : list Z := [120; 48 + i / 64; 48 + i mod 64; 0].

Definition bigdir : M (ft W) unit :=
  _ ← title "=====bigdir test=====";
  _ ← unlink_ "bd";
  fd ← open_ "bd" O_CREATE; ensure (negb (fd <? 0)) (ln "bigdir create failed") (
  _ ← close_ fd;
  ok ← loop_ok 500 0 (λ i,
    r ← lift l_ft_world (sys_link (lit "bd") (namel i));
    if negb (r =? 0) then _ ← puts_ "bigdir link failed"; mret false else mret true);
  if negb ok then mret tt
  else
  _ ← unlink_ "bd";
  ok ← loop_ok 500 0 (λ i,
    r ← unlink_name (namel i);
    if negb (r =? 0) then _ ← put_ (codes "bigdir unlink failed") []; mret false else mret true);
  if negb ok then mret tt
  else passed "=====bigdir ok=====").

Definition fstest_main : M (ft W) unit :=
  _ ← passed "*******usertests starting*******";
  _ ← title "=====test file usertests.ran does not exists=====";
  fd ← open_ "usertests.ran" O_RDONLY;
  if 0 <=? fd then
    puts_ "already ran user tests (file usertests.ran exists) -- recreate certikos_disk.img"
  else
  _ ← passed "=====test file usertests.ran does not exists: ok";
  fd ← open_ "usertests.ran" O_CREATE;
  _ ← close_ fd;
  _ ← smallfile; _ ← bigfile1; _ ← createtest; _ ← rmdot; _ ← fourteen; _ ← bigfile2;
  _ ← subdir; _ ← linktest; _ ← unlinkread; _ ← dirfile; _ ← iref; _ ← bigdir;
  puts_ "*******end of tests*******".
End Fstest.

(** An empty file system, and what the tests print on it. *)
Definition empty_disk : ft fsview := Ft (FsView (Dir []) [] ∅ ∅ []) (replicate (Z.to_nat 8192) 0).

Definition fstest_transcript : list Z :=
  concat (ln <$>
    ["*******usertests starting*******"; EmptyString;
     "=====test file usertests.ran does not exists=====";
     "=====test file usertests.ran does not exists: ok"; EmptyString;
     "=====small file test====="; "creat small succeeded; ok, fd: 0"; "writes ok";
     "open small succeeded ok"; "read succeeded ok"; "=====small file test ok====="; EmptyString;
     "=====big files test====="; "=====big files ok====="; EmptyString;
     "=====many creates, followed by unlink test=====";
     "=====many creates, followed by unlink; ok====="; EmptyString;
     "=====rmdot test====="; "=====rmdot ok====="; EmptyString;
     "=====fourteen test====="; "=====fourteen ok====="; EmptyString;
     "=====bigfile test====="; "=====bigfile test ok====="; EmptyString;
     "=====subdir test====="; "=====subdir ok====="; EmptyString;
     "=====linktest====="; "=====linktest ok====="; EmptyString;
     "=====unlinkread test====="; "=====unlinkread ok====="; EmptyString;
     "=====dir vs file====="; "=====dir vs file OK====="; EmptyString;
     "=====empty file name====="; "=====empty file name OK====="; EmptyString;
     "=====bigdir test====="; "=====bigdir ok====="; EmptyString; "*******end of tests*******"])%string.

(** What the run gives, as a value. *)
Definition fstest_output : option (list Z) :=
  match fstest_main NULL empty_disk with
  | Ok (_, s) => Some (fs_out (ft_world s))
  | Err _ => None
  end.

(** The tests of the file system pass.  Run on an empty file system, the test
    program prints the title and the success of every test and no other line. *)
Theorem fstest_run : fstest_output = Some fstest_transcript.
Proof. vm_compute. reflexivity. Qed.
