(* ===== verification/Machine.v ===== *)
(** * The machine behind the device drivers

    What the drivers do to the hardware goes through an interface: ports, registers
    mapped into memory, the time stamp counter and the identification of the
    processor.  The theorems about a driver are proved for devices that behave as
    their data sheets say: the pair of 8259A interrupt controllers, the I/O APIC and
    the ATA disk controller are given here as state machines. *)

From S2P Require Import Prelude Memory.

(** The instructions and accesses of kern/lib/x86.c and of the drivers; [cpuid] takes
    the leaf and the subleaf, [insl] a number of words and gives their bytes. *)
Class Hw (D : Type) := {
  inb : Z → M D Z;
  outb : Z → Z → M D unit;
  insl : Z → Z → M D (list Z);
  outsl : Z → list Z → M D unit;
  mmio_read : Z → M D Z;
  mmio_write : Z → Z → M D unit;
  rdtsc : M D Z;
  cpuid : Z → Z → M D (Z * Z * Z * Z)
}.

(** ** The pair of 8259A controllers *)

(** One controller: the initialisation words given so far (in reverse order) while
    it is being initialised, and what it was programmed to. *)
Record pic8259 := Pic8259 {
  p_words : option (list Z);
  p_vector : Z;              (* ICW2: the vector of its first line *)
  p_cascade : Z;             (* ICW3 *)
  p_mode : Z;                (* ICW4 *)
  p_imr : Z                  (* the mask of its lines *)
}.

(** A write to the first port: a word with bit 4 starts the initialisation and
    clears the mask; other words are commands that change none of the above. *)
Definition pic_command (v : Z) (p : pic8259) : pic8259 :=
  if Z.testbit v 4 then Pic8259 (Some [v]) (p_vector p) (p_cascade p) (p_mode p) 0 else p.

(** A write to the second port: the next word of the initialisation, where the first
    word tells whether a fourth is to come (bit 0), or the mask.  Both controllers
    are cascaded, so there is a third. *)
Definition pic_data (v : Z) (p : pic8259) : pic8259 :=
  match p_words p with
  | None => Pic8259 None (p_vector p) (p_cascade p) (p_mode p) v
  | Some [icw1] => Pic8259 (Some [v; icw1]) v (p_cascade p) (p_mode p) (p_imr p)
  | Some [icw2; icw1] =>
    Pic8259 (if Z.testbit icw1 0 then Some [v; icw2; icw1] else None)
      (p_vector p) v (p_mode p) (p_imr p)
  | Some _ => Pic8259 None (p_vector p) (p_cascade p) v (p_imr p)
  end.

Record pics := Pics { master : pic8259; slave : pic8259 }.

Definition pics_out (port v : Z) (s : pics) : pics :=
  if port =? 32 then Pics (pic_command v (master s)) (slave s)
  else if port =? 33 then Pics (pic_data v (master s)) (slave s)
  else if port =? 160 then Pics (master s) (pic_command v (slave s))
  else if port =? 161 then Pics (master s) (pic_data v (slave s))
  else s.

#[export] Instance pics_hw : Hw pics := {|
  inb := λ _, mret 255;
  outb := λ port v, modify (pics_out port v);
  insl := λ _ _, mret [];
  outsl := λ _ _, mret tt;
  mmio_read := λ _, mret 0;
  mmio_write := λ _ _, mret tt;
  rdtsc := mret 0;
  cpuid := λ _ _, mret (0, 0, 0, 0)
|}.

(** Whether a line is let through: 0 to 7 at the master; 8 to 15 at the slave, and
    from it through line 2 of the master. *)
Definition line_open (s : pics) (irq : Z) : bool :=
  if irq <? 8 then negb (Z.testbit (p_imr (master s)) irq)
  else negb (Z.testbit (p_imr (slave s)) (irq - 8)) && negb (Z.testbit (p_imr (master s)) 2).

(** ** I/O APICs *)

(** The register selected, and the registers; the one of the version cannot be
    written. *)
Record ioapic_dev := IoapicDev { io_sel : Z; io_regs : gmap Z Z }.
#[export] Instance ioapic_dev_zero : Zeroed ioapic_dev := IoapicDev 0 ∅.

(** The controllers, by their addresses: the selector is there, the window 16 bytes
    further. *)
Abbreviation ioapic_bus := (gmap Z ioapic_dev).

Definition bus_write (a v : Z) (b : ioapic_bus) : ioapic_bus :=
  match b !! a with
  | Some d => <[a := IoapicDev v (io_regs d)]> b
  | None =>
    match b !! (a - 16) with
    | Some d =>
      <[a - 16 := IoapicDev (io_sel d)
          (if io_sel d =? 1 then io_regs d else <[io_sel d := v]> (io_regs d))]> b
    | None => b
    end
  end.

Definition bus_read (a : Z) (b : ioapic_bus) : Z :=
  match b !! a with
  | Some d => io_sel d
  | None =>
    match b !! (a - 16) with Some d => aget (io_regs d) (io_sel d) | None => 0 end
  end.

#[export] Instance bus_hw : Hw ioapic_bus := {|
  inb := λ _, mret 255;
  outb := λ _ _, mret tt;
  insl := λ _ _, mret [];
  outsl := λ _ _, mret tt;
  mmio_read := λ a, gets (bus_read a);
  mmio_write := λ a v, modify (bus_write a v);
  rdtsc := mret 0;
  cpuid := λ _ _, mret (0, 0, 0, 512)
|}.

(** ** An ATA controller with two disks *)

(** Sectors of 512 bytes by disk and number, the registers of the ports 0x1F2 to
    0x1F6, the bytes waiting to be read, the sector waiting to be written, and how many
    looks at the status it stays busy: [a_latency] after a transfer, [a_prep] after a
    write command, before it asks for the data (the phase of PIO data-out in which the
    host waits for DRQ).  A sector that is stored with another length is defective.
    [a_err] says that the last command failed. *)
Record ata := Ata {
  a_disk : gmap (Z * Z) (list Z);
  a_count : Z; a_low : Z; a_mid : Z; a_high : Z; a_drive : Z;
  a_in : list Z; a_write : option (Z * Z); a_busy : nat; a_latency : nat; a_prep : nat; a_err : bool
}.

Definition sector_at (a : ata) (k : Z * Z) : list Z := default (replicate 512 0) (a_disk a !! k).

Definition defective (a : ata) (k : Z * Z) : bool := negb (Nat.eqb (length (sector_at a k)) 512).

(** The disk and the sector the registers name: 28 bits. *)
Definition ata_key (a : ata) : Z * Z :=
  (Z.land (Z.shiftr (a_drive a) 4) 1,
   a_low a + 256 * a_mid a + 65536 * a_high a + 16777216 * Z.land (a_drive a) 15).

(** The end of a command: busy for [n] looks. *)
Definition ata_end (d : gmap (Z * Z) (list Z)) (i : list Z) (w : option (Z * Z)) (n : nat) (err : bool)
    (a : ata) : ata :=
  Ata d (a_count a) (a_low a) (a_mid a) (a_high a) (a_drive a) i w n (a_latency a) (a_prep a) err.

(** Commands for one sector; others have no effect here.  Nothing is to be read from a
    defective sector. *)
Definition ata_command (v : Z) (a : ata) : ata :=
  if negb (a_count a =? 1) then a
  else if v =? 32 then
    let bad := defective a (ata_key a) in
    ata_end (a_disk a) (if bad then [] else sector_at a (ata_key a)) None (a_latency a) bad a
  else if v =? 48 then ata_end (a_disk a) [] (Some (ata_key a)) (a_prep a) false a
  else a.

(** A busy controller ignores writes. *)
Definition ata_out (port v : Z) (a : ata) : ata :=
  if negb (Nat.eqb (a_busy a) 0) then a
  else
    let '(Ata d c l m h dr i w b t p e) := a in
    if port =? 498 then Ata d v l m h dr i w b t p e
    else if port =? 499 then Ata d c v m h dr i w b t p e
    else if port =? 500 then Ata d c l v h dr i w b t p e
    else if port =? 501 then Ata d c l m v dr i w b t p e
    else if port =? 502 then Ata d c l m h v i w b t p e
    else if port =? 503 then ata_command v a
    else a.

Definition ata_set_busy (n : nat) (a : ata) : ata :=
  ata_end (a_disk a) (a_in a) (a_write a) n (a_err a) a.

(** The controller asks for a transfer. *)
Definition ata_drq (a : ata) : bool :=
  match a_in a, a_write a with [], None => false | _, _ => true end.

(** The status has BSY while it is busy, and after that DRDY, with DRQ and ERR. *)
Definition ata_status (a : ata) : Z :=
  if Nat.eqb (a_busy a) 0 then 64 + (if ata_drq a then 8 else 0) + (if a_err a then 1 else 0) else 128.

(** The bytes of the sector to write come: before the controller has asked for them
    they are lost. *)
Definition ata_data_out (bs : list Z) (a : ata) : ata :=
  if negb (Nat.eqb (a_busy a) 0) then a
  else match a_write a with
  | Some k =>
    if decide (length bs = 512%nat) then
      if defective a k then ata_end (a_disk a) (a_in a) None (a_latency a) true a
      else ata_end (<[k := bs]> (a_disk a)) (a_in a) None (a_latency a) false a
    else a
  | None => a
  end.

Definition ata_data_in (n : nat) (a : ata) : ata :=
  ata_end (a_disk a) (drop n (a_in a)) (a_write a) (a_busy a) (a_err a) a.

#[export] Instance ata_hw : Hw ata := {|
  inb := λ port,
    if port =? 503 then
      st ← gets ata_status; _ ← modify (λ a, ata_set_busy (pred (a_busy a)) a); mret st
    else mret 0;
  outb := λ port v, modify (ata_out port v);
  insl := λ port cnt,
    if port =? 496 then
      bs ← gets (λ a, if Nat.eqb (a_busy a) 0 then take (Z.to_nat (4 * cnt)) (a_in a) else []);
      _ ← modify (ata_data_in (Z.to_nat (4 * cnt))); mret bs
    else mret [];
  outsl := λ port bs, if port =? 496 then modify (ata_data_out bs) else mret tt;
  mmio_read := λ _, mret 0;
  mmio_write := λ _ _, mret tt;
  rdtsc := mret 0;
  cpuid := λ _ _, mret (0, 0, 0, 0)
|}.
