(* ===== verification/ConsolePorts.v ===== *)
(** * The ports of the console (kern/dev: serial.c, keyboard.c, video.c)

    [Console] models the devices by queues: bytes that wait, bytes that were sent.
    Here are the port accesses of the drivers, a 16550 serial controller, a keyboard
    controller and the cursor of the screen as state machines, and the theorem that
    on these devices the accesses do what [Console] takes for granted. *)

From S2P Require Import Prelude Memory Strings Resume Spinlock PhysMap Pmm Container PageTable.
From S2P Require Import Isolation UserCopy Tcb TQueue Thread Console Printf Machine.

(** ** The devices *)

(** A 16550: what it was programmed to, the bytes that arrived, the bytes in the
    transmitter, the bytes that went out, and how many looks at the status the
    transmitter stays busy: [u_latency] after each byte. *)
Record uart := Uart {
  u_present : bool;
  u_ier : Z; u_fcr : Z; u_lcr : Z; u_mcr : Z; u_dll : Z; u_dlm : Z;
  u_rx : list Z; u_tx : list Z; u_line : list Z;
  u_busy : nat; u_latency : nat
}.

Definition FIFO_DEPTH : nat := 16.
Definition dlab (u : uart) : bool := Z.testbit (u_lcr u) 7.
Definition fifo (u : uart) : bool := Z.testbit (u_fcr u) 0.

(** A byte for the transmitter: behind the others while there is room, or in the place
    of the last one when the queue is off. *)
Definition uart_send (v : Z) (u : uart) : uart :=
  Uart (u_present u) (u_ier u) (u_fcr u) (u_lcr u) (u_mcr u) (u_dll u) (u_dlm u) (u_rx u)
    (if fifo u then if (length (u_tx u) <? FIFO_DEPTH)%nat then u_tx u ++ [v] else u_tx u else [v])
    (u_line u) (u_latency u) (u_latency u).

(** A write to the queue control: bit 1 empties the receiver, bit 2 the transmitter. *)
Definition uart_control (v : Z) (u : uart) : uart :=
  Uart (u_present u) (u_ier u) v (u_lcr u) (u_mcr u) (u_dll u) (u_dlm u)
    (if Z.testbit v 1 then [] else u_rx u) (if Z.testbit v 2 then [] else u_tx u)
    (u_line u) (u_busy u) (u_latency u).

Definition uart_out (reg v : Z) (u : uart) : uart :=
  let '(Uart p ier fcr lcr mcr dll dlm rx tx line b t) := u in
  if negb p then u
  else if reg =? 0 then
    if dlab u then Uart p ier fcr lcr mcr v dlm rx tx line b t else uart_send v u
  else if reg =? 1 then
    if dlab u then Uart p ier fcr lcr mcr dll v rx tx line b t
    else Uart p v fcr lcr mcr dll dlm rx tx line b t
  else if reg =? 2 then uart_control v u
  else if reg =? 3 then Uart p ier fcr v mcr dll dlm rx tx line b t
  else if reg =? 4 then Uart p ier fcr lcr v dll dlm rx tx line b t
  else u.

(** The line status: bit 0 when bytes wait, bits 5 and 6 when the transmitter has sent
    everything. *)
Definition uart_status (u : uart) : Z :=
  Z.lor (if u_rx u is [] then 0 else 1) (if u_busy u is O then 96 else 0).

Definition uart_tick (u : uart) : uart :=
  let '(Uart p ier fcr lcr mcr dll dlm rx tx line b t) := u in
  match b with
  | O => Uart p ier fcr lcr mcr dll dlm rx [] (line ++ tx) O t
  | S b => Uart p ier fcr lcr mcr dll dlm rx tx line b t
  end.

Definition uart_take (u : uart) : uart :=
  Uart (u_present u) (u_ier u) (u_fcr u) (u_lcr u) (u_mcr u) (u_dll u) (u_dlm u) (tl (u_rx u))
    (u_tx u) (u_line u) (u_busy u) (u_latency u).

(** Where nothing is, reads give ones. *)
Definition uart_in (reg : Z) (u : uart) : Z * uart :=
  if negb (u_present u) then (255, u)
  else if reg =? 0 then if dlab u then (u_dll u, u) else (hd 0 (u_rx u), uart_take u)
  else if reg =? 1 then (if dlab u then u_dlm u else u_ier u, u)
  else if reg =? 2 then (193, u)
  else if reg =? 3 then (u_lcr u, u)
  else if reg =? 4 then (u_mcr u, u)
  else if reg =? 5 then (uart_status u, uart_tick u)
  else (0, u).

(** A byte arrives: it is lost when there is no room. *)
Definition uart_arrive (v : Z) (u : uart) : uart :=
  if u_present u && (length (u_rx u) <? FIFO_DEPTH)%nat then
    Uart (u_present u) (u_ier u) (u_fcr u) (u_lcr u) (u_mcr u) (u_dll u) (u_dlm u) (u_rx u ++ [v])
      (u_tx u) (u_line u) (u_busy u) (u_latency u)
  else u.

(** The screen: whether it is the colour adapter, its memory in words, the register
    selected and the registers. *)
Record crt := Crt { v_color : bool; v_text : gmap Z Z; v_index : Z; v_regs : gmap Z Z }.

(** The serial line, the bytes of the keyboard, whether the machine was reset, and the
    screen. *)
Record tty := Tty { t_uart : uart; t_kbd : list Z; t_reset : bool; t_crt : crt }.

Definition set_uart (u : uart) (d : tty) : tty := Tty u (t_kbd d) (t_reset d) (t_crt d).

(** The controller of the screen answers at 0x3D4 with colour and at 0x3B4 without. *)
Definition crt_base (c : crt) : Z := if v_color c then 980 else 948.
Definition crt_mem (c : crt) : Z := if v_color c then 753664 else 720896.

Definition crt_out (port v : Z) (c : crt) : crt :=
  if port =? crt_base c then Crt (v_color c) (v_text c) v (v_regs c)
  else if port =? crt_base c + 1 then
    Crt (v_color c) (v_text c) (v_index c) (<[v_index c := v]> (v_regs c))
  else c.

Definition tty_in (port : Z) (d : tty) : Z * tty :=
  if (1016 <=? port) && (port <? 1024) then
    let '(v, u) := uart_in (port - 1016) (t_uart d) in (v, set_uart u d)
  else if port =? 100 then (if t_kbd d is [] then 0 else 1, d)
  else if port =? 96 then (hd 0 (t_kbd d), Tty (t_uart d) (tl (t_kbd d)) (t_reset d) (t_crt d))
  else if port =? crt_base (t_crt d) + 1 then (aget (v_regs (t_crt d)) (v_index (t_crt d)), d)
  else (255, d).

Definition tty_out (port v : Z) (d : tty) : tty :=
  if (1016 <=? port) && (port <? 1024) then set_uart (uart_out (port - 1016) v (t_uart d)) d
  else if port =? 146 then Tty (t_uart d) (t_kbd d) (Z.testbit v 0) (t_crt d)
  else Tty (t_uart d) (t_kbd d) (t_reset d) (crt_out port v (t_crt d)).

(** The memory of the adapter that is there. *)
Definition text_has (c : crt) (a : Z) : bool := (crt_mem c <=? a) && (a <? crt_mem c + 4000).

#[export] Instance tty_hw : Hw tty := {|
  inb := λ port d, Ok (tty_in port d);
  outb := λ port v, modify (tty_out port v);
  insl := λ _ _, mret [];
  outsl := λ _ _, mret tt;
  mmio_read := λ a, gets (λ d, if text_has (t_crt d) a then aget (v_text (t_crt d)) a else 65535);
  mmio_write := λ a v, modify (λ d,
    if text_has (t_crt d) a then
      Tty (t_uart d) (t_kbd d) (t_reset d)
        (Crt (v_color (t_crt d)) (<[a := v]> (v_text (t_crt d))) (v_index (t_crt d)) (v_regs (t_crt d)))
    else d);
  rdtsc := mret 0;
  cpuid := λ _ _, mret (0, 0, 0, 0)
|}.

(** ** The drivers *)

Definition COM1 : Z := 1016.
Definition COM_RX : Z := 0.
Definition COM_TX : Z := 0.
Definition COM_DLL : Z := 0.
Definition COM_DLM : Z := 1.
Definition COM_IER : Z := 1.
Definition COM_IIR : Z := 2.
Definition COM_FCR : Z := 2.
Definition COM_LCR : Z := 3.
Definition COM_LCR_DLAB : Z := 128.
Definition COM_LCR_WLEN8 : Z := 3.
Definition COM_MCR : Z := 4.
Definition COM_LSR : Z := 5.
Definition COM_LSR_DATA : Z := 1.
Definition COM_LSR_TXRDY : Z := 32.
Definition KBSTATP : Z := 100.
Definition KBS_DIB : Z := 1.
Definition KBDATAP : Z := 96.
Definition MONO_BASE : Z := 948.
Definition MONO_BUF : Z := 720896.
Definition CGA_BASE : Z := 980.
Definition CGA_BUF : Z := 753664.

Section Drivers.
Context {D : Type} `{HW : Hw D}.

(** *** serial.c *)

(** [delay] *)
Definition com_delay : M D unit :=
  _ ← inb 132; _ ← inb 132; _ ← inb 132; _ ← inb 132; mret tt.

Definition serial_proc_data_ports : M D Z :=
  v ← inb (COM1 + COM_LSR);
  if Z.land v COM_LSR_DATA =? 0 then mret (-1) else inb (COM1 + COM_RX).

Definition serial_reformatnewline_ports (c p : Z) : M D bool :=
  if c =? 10 then _ ← outb p 13; _ ← outb p 10; mret true else mret false.

(** The loop of [serial_putc], with [n] turns left. *)
Fixpoint com_wait (n : nat) : M D unit :=
  v ← inb (COM1 + COM_LSR);
  if negb (Z.land v COM_LSR_TXRDY =? 0) then mret tt
  else match n with O => mret tt | S n => _ ← com_delay; com_wait n end.

Definition COM_TURNS : nat := Z.to_nat 12800.

Definition serial_putc_ports (exists_ : bool) (c : Z) : M D unit :=
  if negb exists_ then mret tt
  else
    _ ← com_wait COM_TURNS;
    r ← serial_reformatnewline_ports c (COM1 + COM_TX);
    if negb r then outb (COM1 + COM_TX) (u8 c) else mret tt.

(** The result is [serial_exists]. *)
Definition serial_init : M D bool :=
  _ ← outb (COM1 + COM_IER) 0;
  _ ← outb (COM1 + COM_LCR) COM_LCR_DLAB;
  _ ← outb (COM1 + COM_DLL) (Z.land 1 255);
  _ ← outb (COM1 + COM_DLM) (Z.shiftr 1 8);
  _ ← outb (COM1 + COM_LCR) (Z.land COM_LCR_WLEN8 (Z.lnot COM_LCR_DLAB));
  _ ← outb (COM1 + COM_FCR) 199;
  _ ← outb (COM1 + COM_MCR) 11;
  v ← inb (COM1 + COM_LSR);
  _ ← inb (COM1 + COM_IIR);
  _ ← inb (COM1 + COM_RX);
  mret (negb (v =? 255)).

(** *** video.c *)

(** Which adapter is there: [addr_6845] and [cp]. *)
Definition probe_adapter : M D (Z * Z) :=
  was ← mmio_read CGA_BUF;
  _ ← mmio_write CGA_BUF 42330;
  v ← mmio_read CGA_BUF;
  if negb (v =? 42330) then mret (MONO_BASE, MONO_BUF)
  else _ ← mmio_write CGA_BUF was; mret (CGA_BASE, CGA_BUF).

Definition read_cursor (addr_6845 : Z) : M D Z :=
  _ ← outb addr_6845 14;
  hi ← inb (addr_6845 + 1);
  _ ← outb addr_6845 15;
  lo ← inb (addr_6845 + 1);
  mret (u16 (Z.lor (Z.shiftl hi 8) lo)).

(** The end of [video_putc]. *)
Definition move_cursor (addr_6845 pos : Z) : M D unit :=
  _ ← outb addr_6845 14;
  _ ← outb (addr_6845 + 1) (u8 (Z.shiftr pos 8));
  _ ← outb addr_6845 15;
  outb (addr_6845 + 1) (u8 pos).

(** *** The drivers with their variables

    The variables of the drivers are those of [Console]; its queues of bytes are not
    used. *)

Definition show_cursor (addr_6845 : Z) : M (con * D) unit :=
  pos ← lift l_fst (gets (λ s, crt_pos (terminal s)));
  lift l_snd (move_cursor addr_6845 pos).

Definition video_putc_ports (addr_6845 c : Z) : M (con * D) unit :=
  if Z.land c 255 =? 9 then
    _ ← for_range 0 5 (λ _, _ ← lift l_fst (lift l_terminal (video_char 32)); show_cursor addr_6845);
    _ ← lift l_fst (lift l_terminal crt_scroll);
    show_cursor addr_6845
  else
    _ ← lift l_fst (lift l_terminal (video_char c)); show_cursor addr_6845.

Definition kbd_proc_data_ports : M (con * D) Z :=
  st ← lift l_snd (inb KBSTATP);
  if Z.land st KBS_DIB =? 0 then mret (-1)
  else
    data ← lift l_snd (inb KBDATAP);
    sh ← lift l_fst (gets shift);
    let '(sh', c) := kbd_decode sh data in
    _ ← lift l_fst (modify (λ s, set_kbd sh' (kbd_in s) s));
    if (Z.land (Z.lnot sh') (Z.lor CTL ALT) =? 0) && (c =? KEY_DEL)
    then _ ← lift l_snd (outb 146 3); fail (Panic "Rebooting!") else mret c.

Definition cons_putc_ports (addr_6845 c : Z) : M (con * D) unit :=
  e ← lift l_fst (gets serial_exists);
  _ ← lift l_snd (serial_putc_ports e c);
  video_putc_ports addr_6845 c.

(** A poll of the serial line by [serial_intr]. *)
Definition serial_poll_ports : M (con * D) Z :=
  e ← lift l_fst (gets serial_exists);
  if (e : bool) then lift l_snd serial_proc_data_ports else mret (-1).

(** [cons_intr] over the ports; [fuel] bounds the bytes of one call. *)
Fixpoint cons_intr_ports_loop (fuel : nat) (proc : M (con * D) Z) : M (con * D) unit :=
  c ← proc;
  if c =? -1 then mret tt
  else match fuel with
  | O => fail OutOfFuel
  | S fuel =>
    if c =? 0 then cons_intr_ports_loop fuel proc
    else
      _ ← lift l_fst (modify (λ s, set_ring (<[wpos s := s8 c]> (cons_buf s)) (rpos s)
                         (if wpos s + 1 =? CONSOLE_BUFFER_SIZE then 0 else wpos s + 1) s));
      cons_intr_ports_loop fuel proc
  end.
Definition cons_intr_ports (fuel : nat) (proc : M (con * D) Z) : M (con * D) unit :=
  _ ← lift l_fst (lift l_cons_lk (spinlock_acquire "cons_lk"));
  _ ← cons_intr_ports_loop fuel proc;
  lift l_fst (lift l_cons_lk spinlock_release).

Definition serial_intr_ports (fuel : nat) : M (con * D) unit :=
  e ← lift l_fst (gets serial_exists);
  if (e : bool) then cons_intr_ports fuel (lift l_snd serial_proc_data_ports) else mret tt.

Definition serial_intenable (fuel : nat) : M (con * D) unit :=
  e ← lift l_fst (gets serial_exists);
  if (e : bool) then _ ← lift l_snd (outb (COM1 + COM_IER) 1); serial_intr_ports fuel else mret tt.

(** [dprintf] over the ports, of a format without strings.  The lock of the messages,
    which is free until [debug_init], is not part of this state. *)
Fixpoint cons_puts_ports (addr_6845 : Z) (cs : list Z) : M (con * D) unit :=
  match cs with
  | [] => mret tt
  | c :: cs => _ ← cons_putc_ports addr_6845 c; cons_puts_ports addr_6845 cs
  end.

Definition dprintf_ports (addr_6845 : Z) (fmt ap : list Z) : M (con * D) unit :=
  match vprintfmt true (λ _, []) fmt ap with
  | None => fail (OutOfBounds "va_arg" 0)
  | Some cs => cons_puts_ports addr_6845 (putch [] cs)
  end.

(** [screen] is the text at [cp], to which [terminal.crt_buf] is set last: the message
    goes to the memory at address zero.  The result is [addr_6845] and [cp]. *)
Definition video_init (screen : list Z) : M (con * D) (Z * Z) :=
  r ← lift l_snd probe_adapter;
  let '(addr_6845, cp) := r in
  _ ← dprintf_ports addr_6845 (codes "addr_6845:%x" ++ [10]) [addr_6845];
  pos ← lift l_snd (read_cursor addr_6845);
  _ ← lift l_fst (lift l_terminal (modify (λ _, Video screen pos)));
  mret (addr_6845, cp).

(** The result is [addr_6845]. *)
Definition cons_init_ports (screen : list Z) : M (con * D) Z :=
  _ ← lift l_fst (modify (set_ring ∅ 0 0));
  e ← lift l_snd serial_init;
  _ ← lift l_fst (modify (λ s, set_com e (com_in s) (com_out s) s));
  v ← video_init screen;
  _ ← lift l_fst (lift l_cons_lk spinlock_init);
  mret v.1.
End Drivers.

(** ** Refinement *)

(** What happens at the console: a character is printed, the serial line or the
    keyboard is polled once, a byte arrives at one of them. *)
Inductive tty_op := OpPut (c : Z) | OpSerial | OpKeyboard | OpByte (v : Z) | OpKey (v : Z).

Definition queue_up (v : Z) (l : list Z) : list Z :=
  if (length l <? FIFO_DEPTH)%nat then l ++ [v] else l.

(** With the queues of [Console], *)
Definition op_spec (o : tty_op) : M con Z :=
  match o with
  | OpPut c => _ ← cons_putc c; mret 0
  | OpSerial => e ← gets serial_exists; if (e : bool) then serial_proc_data else mret (-1)
  | OpKeyboard => kbd_proc_data
  | OpByte v =>
    _ ← modify (λ s, set_com (serial_exists s)
                       (if serial_exists s then queue_up v (com_in s) else com_in s) (com_out s) s);
    mret 0
  | OpKey v => _ ← modify (λ s, set_kbd (shift s) (queue_up v (kbd_in s)) s); mret 0
  end.

(** and with the devices. *)
Definition op_ports (addr_6845 : Z) (o : tty_op) : M (con * tty) Z :=
  match o with
  | OpPut c => _ ← cons_putc_ports addr_6845 c; mret 0
  | OpSerial => serial_poll_ports
  | OpKeyboard => kbd_proc_data_ports
  | OpByte v => _ ← lift l_snd (modify (λ d, set_uart (uart_arrive v (t_uart d)) d)); mret 0
  | OpKey v =>
    _ ← lift l_snd (modify (λ d, Tty (t_uart d) (queue_up v (t_kbd d)) (t_reset d) (t_crt d)));
    mret 0
  end.

Fixpoint ops {S} (f : tty_op → M S Z) (os : list tty_op) : M S (list Z) :=
  match os with
  | [] => mret []
  | o :: os => r ← f o; rs ← ops f os; mret (r :: rs)
  end.

(** The variables without the queues. *)
Definition vars (s : con) : con := set_com (serial_exists s) [] [] (set_kbd (shift s) [] s).

(** The serial controller is programmed for the driver. *)
Definition uart_ready (u : uart) : Prop :=
  (u_present u = true → dlab u = false ∧ fifo u = true)
  ∧ (u_busy u ≤ COM_TURNS)%nat ∧ (u_latency u ≤ COM_TURNS)%nat.

Definition cursor (c : crt) : Z := 256 * aget (v_regs c) 14 + aget (v_regs c) 15.

(** Before the first character the cursor may be elsewhere; [b] is whether it is known
    to be where the text is. *)
Record agrees_upto (b : bool) (addr : Z) (s : con) (x : con * tty) : Prop := {
  ag_vars : vars x.1 = vars s;
  ag_uart : uart_ready (t_uart x.2);
  ag_exists : serial_exists s = u_present (t_uart x.2);
  ag_in : com_in s = u_rx (t_uart x.2);
  ag_out : com_out s = u_line (t_uart x.2) ++ u_tx (t_uart x.2);
  ag_kbd : kbd_in s = t_kbd x.2;
  ag_addr : addr = crt_base (t_crt x.2);
  ag_cursor : b = true → cursor (t_crt x.2) = crt_pos (terminal s);
  ag_pos : 0 ≤ crt_pos (terminal s) < 65536;
  ag_regs i : 0 ≤ aget (v_regs (t_crt x.2)) i < 256
}.

Abbreviation agrees := (agrees_upto true).

(** *** The serial line *)

Definition drained (u : uart) : uart :=
  Uart (u_present u) (u_ier u) (u_fcr u) (u_lcr u) (u_mcr u) (u_dll u) (u_dlm u) (u_rx u) []
    (u_line u ++ u_tx u) 0 (u_latency u).

Lemma com_delay_run d : com_delay (D:=tty) d = Ok (tt, d).
Proof.
  assert (tty_in 132 d = (255, d)) as E.
  { unfold tty_in. change ((1016 <=? 132) && (132 <? 1024)) with false. cbn iota.
    unfold crt_base. by destruct (v_color (t_crt d)). }
  unfold com_delay, mbind, M_bind. cbn [inb tty_hw]. by rewrite !E.
Qed.

Lemma status_run d :
  u_present (t_uart d) = true →
  inb (COM1 + COM_LSR) d = Ok (uart_status (t_uart d), set_uart (uart_tick (t_uart d)) d).
Proof.
  intros Hp. cbn [inb tty_hw]. unfold tty_in. change (COM1 + COM_LSR - 1016) with 5. unfold uart_in.
  by rewrite Hp.
Qed.

Lemma com_wait_run n d :
  u_present (t_uart d) = true → (u_busy (t_uart d) ≤ n)%nat →
  com_wait n d = Ok (tt, set_uart (drained (t_uart d)) d).
Proof.
  revert d. induction n as [|n IH]; intros [u k r c] Hp Hb; cbn [t_uart] in Hp, Hb.
  - destruct u as [p ier fcr lcr mcr dll dlm rx tx line b t]. cbn in Hp, Hb. subst p.
    destruct b; [|lia]. by destruct rx.
  - destruct u as [p ier fcr lcr mcr dll dlm rx tx line b t]. cbn in Hp, Hb. subst p.
    cbn [com_wait]. unfold mbind at 1, M_bind at 1. rewrite status_run by done. cbn [t_uart].
    destruct b as [|b]; [by destruct rx|].
    assert (Z.land (uart_status (Uart true ier fcr lcr mcr dll dlm rx tx line (S b) t)) COM_LSR_TXRDY = 0)
      as -> by (by destruct rx).
    cbn [negb Z.eqb]. unfold mbind at 1, M_bind at 1. rewrite com_delay_run.
    rewrite IH; [|done|cbn; lia]. done.
Qed.

Lemma send_run v d :
  u_present (t_uart d) = true → dlab (t_uart d) = false →
  outb (COM1 + COM_TX) v d = Ok (tt, set_uart (uart_send v (t_uart d)) d).
Proof.
  intros Hp Hd. cbn [outb tty_hw]. unfold modify, tty_out. change (COM1 + COM_TX - 1016) with 0.
  destruct d as [[p ier fcr lcr mcr dll dlm rx tx line b t] k r c]. cbn [t_uart u_present] in *.
  subst p. unfold uart_out. cbn [negb Z.eqb]. by rewrite Hd.
Qed.

(** What goes over the line for a character. *)
Definition line_bytes_of (c : Z) : list Z := if c =? 10 then [13; 10] else [u8 c].

Lemma serial_putc_run s c :
  serial_putc c s = Ok (tt, if serial_exists s
    then set_com true (com_in s) (com_out s ++ line_bytes_of c) s else s).
Proof.
  unfold serial_putc, serial_reformatnewline, line_bytes_of, com_send, mbind, M_bind, gets, modify.
  destruct (serial_exists s) eqn:E; [|done]. cbn [negb].
  destruct (c =? 10); unfold mret, M_ret; by rewrite E.
Qed.

Lemma serial_putc_ports_run c d :
  u_present (t_uart d) = true → uart_ready (t_uart d) →
  ∃ u, serial_putc_ports true c d = Ok (tt, set_uart u d)
    ∧ uart_ready u ∧ u_present u = true ∧ u_rx u = u_rx (t_uart d)
    ∧ u_line u ++ u_tx u = (u_line (t_uart d) ++ u_tx (t_uart d)) ++ line_bytes_of c.
Proof.
  intros Hp (Hdf & Hb & Hl). destruct (Hdf Hp) as [Hd Hf]. clear Hdf. unfold serial_putc_ports. cbn [negb].
  rewrite (bind_run _ _ _ _ _ (com_wait_run _ d Hp Hb)).
  destruct d as [[p ier fcr lcr mcr dll dlm rx tx line b t] k r cr].
  unfold serial_reformatnewline_ports, line_bytes_of, dlab, fifo in *. cbn in Hp, Hd, Hf, Hl. subst p.
  destruct (c =? 10).
  - unfold mbind, M_bind. rewrite send_run by done. rewrite send_run by done. eexists.
    split; [reflexivity|]. unfold uart_ready, dlab, fifo. cbn. by rewrite Hf.
  - unfold mbind, M_bind, mret, M_ret. cbn [negb]. rewrite send_run by done. eexists. split; [reflexivity|]. unfold uart_ready, dlab, fifo. cbn. by rewrite Hf.
Qed.

(** *** The screen *)

Lemma crt_port_run d v (i : Z) :
  i = 0 ∨ i = 1 →
  outb (crt_base (t_crt d) + i) v d
  = Ok (tt, Tty (t_uart d) (t_kbd d) (t_reset d) (crt_out (crt_base (t_crt d) + i) v (t_crt d))).
Proof.
  intros Hi. cbn [outb tty_hw]. unfold modify, tty_out, crt_base.
  destruct Hi as [-> | ->]; by destruct (v_color (t_crt d)).
Qed.

Lemma move_cursor_run d pos :
  0 ≤ pos < 65536 → (∀ i, 0 ≤ aget (v_regs (t_crt d)) i < 256) →
  ∃ c, move_cursor (crt_base (t_crt d)) pos d = Ok (tt, Tty (t_uart d) (t_kbd d) (t_reset d) c)
    ∧ crt_base c = crt_base (t_crt d) ∧ cursor c = pos ∧ ∀ i, 0 ≤ aget (v_regs c) i < 256.
Proof.
  intros Hp Hr. destruct d as [u k r [col text idx regs]].
  assert (u8 (Z.shiftr pos 8) = pos / 256) as E.
  { rewrite Z.shiftr_div_pow2 by lia. apply Z.mod_small. split; [apply Z.div_pos; lia|].
    apply Z.div_lt_upper_bound; lia. }
  exists (Crt col text 15 (<[15 := u8 pos]> (<[14 := u8 (Z.shiftr pos 8)]> regs))).
  split; [by destruct col|]. split; [done|]. split.
  2: { intros i. cbn [v_regs]. rewrite !aget_insert. repeat case_decide; try (apply Z.mod_pos_bound; lia). apply Hr. }
  unfold cursor. cbn [v_regs]. rewrite aget_eq, aget_ne, aget_eq, E by done. unfold u8.
  pose proof (Z.div_mod pos 256). lia.
Qed.

(** The position stays a 16-bit number. *)
Definition keeps_pos {A} (m : M video A) : Prop :=
  ∀ v a v', 0 ≤ crt_pos v < 65536 → m v = Ok (a, v') → 0 ≤ crt_pos v' < 65536.

Lemma keeps_pos_bind {A B} (m : M video A) (f : A → M video B) :
  keeps_pos m → (∀ a, keeps_pos (f a)) → keeps_pos (m ≫= f).
Proof.
  intros Hm Hf v b v' Hv E. apply bind_Ok in E as (a & w & E & E').
  by eapply Hf; [|exact E']; eapply Hm.
Qed.

Lemma keeps_same {A} (m : M video A) :
  (∀ v a v', m v = Ok (a, v') → crt_pos v' = crt_pos v) → keeps_pos m.
Proof. intros H v a v' Hv E. by rewrite (H _ _ _ E). Qed.

Lemma keeps_set (m : M video unit) :
  (∀ v v', m v = Ok (tt, v') → ∃ x, crt_pos v' = u16 x) → keeps_pos m.
Proof.
  intros H v [] v' Hv E. destruct (H _ _ E) as [x ->]. apply Z.mod_pos_bound. lia.
Qed.

Lemma crt_move_pos f : keeps_pos (crt_move f).
Proof. apply keeps_set. intros v v' [= <-]. by eexists. Qed.

Lemma crt_put_pos i c : keeps_pos (crt_put i c).
Proof.
  apply keeps_same. unfold crt_put, chk. intros v a v'. case_match; [|done].
  by intros [= _ <-].
Qed.

Lemma crt_scroll_pos : keeps_pos crt_scroll.
Proof.
  apply keeps_pos_bind; [by apply keeps_same; intros v a v' [= _ <-]|]. intros pos. case_match.
  - apply keeps_set. intros v v' [= <-]. by eexists.
  - apply keeps_same. by intros v a v' [= _ <-].
Qed.

Lemma video_char_pos c : keeps_pos (video_char c).
Proof.
  assert (∀ p : video → Z, keeps_pos (gets p)) as Hg
    by (intros p; apply keeps_same; by intros v a v' [= _ <-]).
  apply keeps_pos_bind; [done|]. intros pos. apply keeps_pos_bind; [|intros _; apply crt_scroll_pos].
  repeat case_match; try (apply keeps_pos_bind; [|intros _]); try apply crt_move_pos; try apply crt_put_pos.
  apply keeps_same. by intros v a v' [= _ <-].
Qed.

(** *** Composition *)

(** [n] does with the devices what [m] does with the queues. *)
Definition refines_upto (b b' : bool) {A} (addr : Z) (m : M con A) (n : M (con * tty) A) : Prop :=
  ∀ s x, agrees_upto b addr s x →
    match m s with
    | Ok (a, s') => ∃ x', n x = Ok (a, x') ∧ agrees_upto b' addr s' x'
    | Err e => n x = Err e
    end.
Abbreviation refines := (refines_upto true true).

Lemma refines_bind {A B} b b1 b2 addr (m : M con A) n (f : A → M con B) g :
  refines_upto b b1 addr m n → (∀ a, refines_upto b1 b2 addr (f a) (g a)) →
  refines_upto b b2 addr (m ≫= f) (n ≫= g).
Proof.
  intros Hm Hf s x Hx. specialize (Hm s x Hx). unfold mbind, M_bind.
  destruct (m s) as [[a s']|e]; [|by rewrite Hm]. destruct Hm as (x' & -> & Hx'). by apply Hf.
Qed.

Lemma refines_ret {A} addr (a : A) : refines addr (mret a) (mret a).
Proof. intros s x Hx. by exists x. Qed.

Lemma refines_for addr n i (m : Z → M con unit) (k : Z → M (con * tty) unit) :
  (∀ i, refines addr (m i) (k i)) → refines addr (for_n n i m) (for_n n i k).
Proof.
  intros H. revert i. induction n as [|n IH]; intros i; cbn [for_n]; [apply refines_ret|].
  eapply refines_bind; auto.
Qed.

Lemma refines_ext {A} addr (m m' : M con A) n :
  (∀ s, m s = m' s) → refines addr m' n → refines addr m n.
Proof. intros E H s x Hx. rewrite E. by apply H. Qed.

Lemma lift_bind {A B} (m : M video A) (f : A → M video B) s :
  lift l_terminal (m ≫= f) s = (lift l_terminal m ≫= λ a, lift l_terminal (f a)) s.
Proof.
  unfold lift, mbind, M_bind. destruct (m _) as [[a v]|e]; [|done]. cbn [lget lset l_terminal terminal].
  by destruct (f a v) as [[b v']|e].
Qed.

Lemma lift_for n i (m : Z → M video unit) s :
  lift l_terminal (for_n n i m) s = for_n n i (λ i, lift l_terminal (m i)) s.
Proof.
  revert i s. induction n as [|n IH]; intros i s; cbn [for_n]; [by destruct s|].
  rewrite lift_bind. unfold mbind, M_bind. destruct (lift l_terminal (m i) s) as [[a s']|e]; [|done].
  apply IH.
Qed.

(** *** The operations *)

Lemma vars_terminal t s v :
  vars t = vars s → terminal t = terminal s ∧ vars (lset l_terminal v t) = vars (lset l_terminal v s).
Proof.
  destruct t, s. unfold vars, set_com, set_kbd. cbn. intros [= -> -> -> -> -> -> -> ->]. done.
Qed.

Lemma vars_same t s : vars t = vars s → serial_exists t = serial_exists s ∧ shift t = shift s.
Proof. destruct t, s. unfold vars, set_com, set_kbd. cbn. by intros [= -> -> -> -> -> -> -> ->]. Qed.

Lemma refines_video b addr (m : M video unit) :
  keeps_pos m →
  refines_upto b true addr (lift l_terminal m) (_ ← lift l_fst (lift l_terminal m); show_cursor addr).
Proof.
  intros Hm s [t d] [Hv Hu He Hi Ho Hk -> Hc Hp Hg]. cbn [fst snd] in *.
  assert (∀ v, terminal (lset l_terminal v t) = v) as Hset by done.
  destruct (vars_terminal t s (terminal s) Hv) as [Et _].
  unfold show_cursor, mbind, M_bind, gets. unfold lift. cbn [lget lset l_fst l_snd l_terminal fst snd].
  rewrite Et. destruct (m (terminal s)) as [[[] v]|e] eqn:E; [|done]. cbn [fst snd terminal].
  pose proof (Hm _ _ _ Hp E) as Hp'.
  destruct (move_cursor_run d (crt_pos v) Hp' Hg) as (c & -> & Hb & Hcur & Hg'). eexists. split; [done|].
  destruct (vars_terminal t s v Hv) as [_ Ev]. by split; cbn [fst snd t_uart t_kbd t_crt].
Qed.

Lemma refines_scroll addr :
  refines addr (lift l_terminal crt_scroll)
    (_ ← lift l_fst (lift l_terminal crt_scroll); show_cursor addr).
Proof. apply refines_video, crt_scroll_pos. Qed.

Lemma refines_video_putc addr c :
  refines addr (lift l_terminal (video_putc c)) (video_putc_ports addr c).
Proof.
  unfold video_putc, video_putc_ports. case_match; [|apply refines_video, video_char_pos].
  eapply refines_ext; [intros s; apply lift_bind|].
  eapply refines_bind; [|intros _; apply refines_scroll].
  eapply refines_ext; [intros s; apply lift_for|]. apply refines_for. intros _.
  apply refines_video, video_char_pos.
Qed.

Lemma refines_serial b addr c :
  refines_upto b b addr (serial_putc c)
    (e ← lift l_fst (gets serial_exists); lift l_snd (serial_putc_ports e c)).
Proof.
  intros s [t d] [Hv Hu He Hi Ho Hk Ha Hc Hp Hg]. cbn [fst snd] in *. rewrite serial_putc_run.
  destruct (vars_same _ _ Hv) as [Ee _].
  unfold mbind, M_bind, gets. unfold lift. cbn [lget lset l_fst l_snd fst snd]. rewrite Ee.
  destruct (serial_exists s) eqn:E.
  - symmetry in He. destruct (serial_putc_ports_run c d He Hu) as (u & -> & Hu' & Hp' & Hr & Hl).
    eexists. split; [done|]. split; cbn [fst snd t_uart set_uart t_kbd t_crt]; try done.
    + rewrite Hv. unfold vars. cbn. by rewrite E.
    + cbn. by rewrite Hr.
    + cbn. by rewrite Hl, Ho.
  - exists (t, d). split; [done|]. split; try done. by rewrite E.
Qed.

Lemma refines_put addr c : refines addr (cons_putc c) (cons_putc_ports addr c).
Proof.
  assert (∀ x, cons_putc_ports addr c x =
    (_ ← (e ← lift l_fst (gets serial_exists); lift l_snd (serial_putc_ports e c));
     video_putc_ports addr c) x) as E by done.
  intros s x Hx. rewrite E. revert s x Hx.
  eapply refines_bind; [apply refines_serial|intros _; apply refines_video_putc].
Qed.

(** The first character, which is no tab, and the rest of a text. *)
Lemma refines_first addr c :
  Z.land c 255 ≠ 9 → refines_upto false true addr (cons_putc c) (cons_putc_ports addr c).
Proof.
  intros Hc. assert (∀ x, cons_putc_ports addr c x =
    (_ ← (e ← lift l_fst (gets serial_exists); lift l_snd (serial_putc_ports e c));
     video_putc_ports addr c) x) as E by done.
  intros s x Hx. rewrite E. revert s x Hx.
  eapply refines_bind; [apply refines_serial|intros _]. unfold video_putc, video_putc_ports.
  rewrite (proj2 (Z.eqb_neq _ 9)) by done. apply refines_video, video_char_pos.
Qed.

Lemma refines_puts addr cs : refines addr (cons_puts cs) (cons_puts_ports addr cs).
Proof.
  induction cs as [|c cs IH]; cbn [cons_puts cons_puts_ports]; [apply refines_ret|].
  eapply refines_bind; [apply refines_put|by intros _].
Qed.

Lemma serial_proc_data_run d :
  u_present (t_uart d) = true → uart_ready (t_uart d) →
  ∃ u, serial_proc_data_ports d
       = Ok (match u_rx (t_uart d) with [] => -1 | v :: _ => v end, set_uart u d)
    ∧ uart_ready u ∧ u_present u = true ∧ u_rx u = tl (u_rx (t_uart d))
    ∧ u_line u ++ u_tx u = u_line (t_uart d) ++ u_tx (t_uart d).
Proof.
  intros Hp Hu. unfold serial_proc_data_ports. rewrite (bind_run _ _ _ _ _ (status_run d Hp)).
  destruct d as [[p ier fcr lcr mcr dll dlm rx tx line b n] k r cr].
  destruct Hu as (Hdf & Hb & Hl). destruct (Hdf Hp) as [Hd Hf].
  unfold uart_ready, dlab, fifo in *. cbn in Hp, Hdf, Hd, Hf, Hb, Hl. subst p.
  assert (∀ b' tx' line', uart_in 0 (Uart true ier fcr lcr mcr dll dlm rx tx' line' b' n)
    = (hd 0 rx, Uart true ier fcr lcr mcr dll dlm (tl rx) tx' line' b' n)) as Hin.
  { intros. unfold uart_in, dlab. cbn. by rewrite Hd. }
  assert (∀ x d', t_uart d' = x → inb (COM1 + COM_RX) d'
    = Ok ((uart_in 0 x).1, set_uart (uart_in 0 x).2 d')) as Hrx.
  { intros x d' <-. cbn [inb tty_hw]. unfold tty_in. change (COM1 + COM_RX - 1016) with 0.
    change ((1016 <=? COM1 + COM_RX) && (COM1 + COM_RX <? 1024)) with true. cbn iota.
    by destruct (uart_in 0 (t_uart d')). }
  destruct rx as [|v rx].
  - destruct b; (eexists; split; [reflexivity|]); cbn; rewrite ?app_nil_r; auto with lia.
  - destruct b; change (Z.land (uart_status _) COM_LSR_DATA =? 0) with false; cbn iota;
      rewrite (Hrx _ _ eq_refl); cbn [t_uart set_uart uart_tick]; rewrite Hin;
      (eexists; split; [reflexivity|]); cbn; rewrite ?app_nil_r; auto with lia.
Qed.

Lemma refines_poll addr : refines addr (op_spec OpSerial) serial_poll_ports.
Proof.
  intros s [t d] [Hv Hu He Hi Ho Hk Ha Hc Hp Hg]. cbn [fst snd] in *.
  destruct (vars_same _ _ Hv) as [Ee _]. unfold serial_poll_ports, op_spec, mbind, M_bind, gets.
  unfold lift at 1. cbn [lget lset l_fst fst snd]. rewrite Ee.
  destruct (serial_exists s) eqn:E; [|exists (t, d); split; [done|split; try done; by rewrite E]].
  symmetry in He. destruct (serial_proc_data_run d He Hu) as (u & Er & Hu' & Hp' & Hr & Hl).
  unfold serial_proc_data, lift, mbind, M_bind, gets. cbn [lget lset l_snd fst snd].
  rewrite Er, Hi. destruct (u_rx (t_uart d)) as [|v rx]; cbn [modify tl] in *; (eexists; split; [done|]);
    split; cbn [fst snd t_uart set_uart t_kbd t_crt]; try done; try congruence;
    cbn; congruence.
Qed.

Lemma refines_keyboard addr : refines addr kbd_proc_data kbd_proc_data_ports.
Proof.
  intros s [t d] [Hv Hu He Hi Ho Hk Ha Hc Hp Hg]. cbn [fst snd] in *.
  destruct (vars_same _ _ Hv) as [_ Es]. destruct d as [u k r cr]. cbn [t_kbd] in Hk.
  unfold kbd_proc_data, kbd_proc_data_ports, mbind, M_bind, gets. rewrite Hk.
  destruct k as [|data k]; [exists (t, Tty u [] r cr); split; [done|by split]|].
  unfold lift. cbn -[kbd_decode]. change (Z.land 1 KBS_DIB =? 0) with false. cbn -[kbd_decode]. rewrite Es.
  destruct (kbd_decode (shift s) data) as [sh c]. cbn [modify].
  destruct ((Z.land (Z.lnot sh) (Z.lor CTL ALT) =? 0) && (c =? KEY_DEL)); [done|].
  eexists. split; [done|]. split; try done. cbn [fst]. unfold modify. cbn.
  destruct t, s. unfold vars, set_com, set_kbd in *. cbn in *. congruence.
Qed.

Lemma uart_arrive_ok v u :
  uart_ready u →
  uart_ready (uart_arrive v u) ∧ u_present (uart_arrive v u) = u_present u
  ∧ u_rx (uart_arrive v u) = (if u_present u then queue_up v (u_rx u) else u_rx u)
  ∧ u_line (uart_arrive v u) ++ u_tx (uart_arrive v u) = u_line u ++ u_tx u.
Proof.
  intros Hu. unfold uart_arrive, queue_up. destruct (u_present u) eqn:E; [|done].
  cbn [andb]. case_match; [|done]. destruct u. by cbn in *; subst.
Qed.

Lemma refines_byte addr v : refines addr (op_spec (OpByte v)) (op_ports addr (OpByte v)).
Proof.
  intros s [t d] [Hv Hu He Hi Ho Hk Ha Hc Hp Hg]. cbn [fst snd] in *.
  destruct (uart_arrive_ok v _ Hu) as (Hu' & Ep & Er & El).
  exists (t, set_uart (uart_arrive v (t_uart d)) d). split; [done|].
  split; cbn [fst snd t_uart set_uart t_kbd t_crt]; try done.
  - cbn. by rewrite Ep.
  - cbn. by rewrite Er, He, Hi.
  - cbn. by rewrite El.
Qed.

Lemma refines_key addr v : refines addr (op_spec (OpKey v)) (op_ports addr (OpKey v)).
Proof.
  intros s [t d] [Hv Hu He Hi Ho Hk Ha Hc Hp Hg]. cbn [fst snd] in *.
  eexists. split; [reflexivity|]. split; cbn; try done. by rewrite Hk.
Qed.

Lemma op_refines addr o : refines addr (op_spec o) (op_ports addr o).
Proof.
  destruct o.
  - eapply refines_bind; [apply refines_put|intros _; apply refines_ret].
  - apply refines_poll.
  - apply refines_keyboard.
  - apply refines_byte.
  - apply refines_key.
Qed.

Lemma ops_refine addr os : refines addr (ops op_spec os) (ops (op_ports addr) os).
Proof.
  induction os as [|o os IH]; cbn [ops]; [apply refines_ret|].
  eapply refines_bind; [apply op_refines|]. intros r. eapply refines_bind; [done|intros rs; apply refines_ret].
Qed.

(** *** Initialisation *)

(** The line after [serial_init]: eight bits at the highest rate, the queues on and
    empty; interrupts are off if the first write reached their register. *)
Definition line_programmed (u u' : uart) : Prop :=
  u_present u' = u_present u ∧ u_rx u' = (if u_present u then [] else u_rx u)
  ∧ u_tx u' = (if u_present u then [] else u_tx u)
  ∧ u_line u' = u_line u ∧ u_latency u' = u_latency u ∧ (u_busy u' ≤ u_busy u)%nat
  ∧ (u_present u = true →
     u_lcr u' = COM_LCR_WLEN8 ∧ u_dll u' = 1 ∧ u_dlm u' = 0 ∧ fifo u' = true
     ∧ (dlab u = false → u_ier u' = 0)).

Lemma serial_init_run d :
  ∃ u, serial_init d = Ok (u_present (t_uart d), set_uart u d) ∧ line_programmed (t_uart d) u.
Proof.
  destruct d as [[p ier fcr lcr mcr dll dlm rx tx line b n] k r cr].
  destruct p; [|by eexists].
  assert (∃ ier' dlm', (dlab (Uart true ier fcr lcr mcr dll dlm rx tx line b n) = false → ier' = 0)
    ∧ outb (COM1 + COM_IER) 0 (Tty (Uart true ier fcr lcr mcr dll dlm rx tx line b n) k r cr)
      = Ok (tt, Tty (Uart true ier' fcr lcr mcr dll dlm' rx tx line b n) k r cr)) as (ier' & dlm' & Hi & E).
  { assert (∀ d, outb (COM1 + COM_IER) 0 d = Ok (tt, set_uart (uart_out 1 0 (t_uart d)) d)) as Ho by done.
    unfold dlab in *. cbn [u_lcr]. rewrite Ho. unfold uart_out, dlab, set_uart.
    cbn [t_uart t_kbd t_reset t_crt u_lcr negb Z.eqb].
    destruct (Z.testbit lcr 7); [exists ier, 0|exists 0, dlm]; done. }
  unfold serial_init. rewrite (bind_run _ _ _ _ _ E). clear E.
  exists (Uart true ier' 199 3 11 1 0 [] [] (if b is O then line ++ [] else line) (pred b) n).
  split; [by destruct b|]. unfold line_programmed. destruct b; rewrite ?app_nil_r; cbn;
    repeat split; try done; lia.
Qed.

Lemma lor_high_byte h l : 0 ≤ l < 256 → Z.lor (Z.shiftl h 8) l = 256 * h + l.
Proof.
  intros Hl. rewrite Z.shiftl_mul_pow2 by lia.
  pose proof (Z.add_lor_land (h * 2 ^ 8) l) as E.
  enough (Z.land (h * 2 ^ 8) l = 0) by lia. apply Z.bits_inj'. intros n Hn. rewrite Z.land_spec, Z.bits_0.
  destruct (decide (n < 8)); [by rewrite Z.mul_pow2_bits_low by lia|].
  replace l with (l mod 2 ^ 8) by (by apply Z.mod_small). rewrite Z.mod_pow2_bits_high by lia.
  apply andb_false_r.
Qed.

(** The adapter is found, and its text is as it was. *)
Lemma probe_adapter_run d :
  ∃ text, probe_adapter d = Ok ((crt_base (t_crt d), crt_mem (t_crt d)),
      Tty (t_uart d) (t_kbd d) (t_reset d)
        (Crt (v_color (t_crt d)) text (v_index (t_crt d)) (v_regs (t_crt d))))
    ∧ ∀ a, aget text a = aget (v_text (t_crt d)) a.
Proof.
  destruct d as [u k r [col text idx regs]]. cbn [t_uart t_kbd t_reset t_crt v_color v_text v_index v_regs].
  destruct col; [|by exists text].
  exists (<[753664 := aget text 753664]> (<[753664 := 42330]> text)).
  assert (∀ text, text_has (Crt true text idx regs) CGA_BUF = true) as Ht by done.
  split.
  - unfold probe_adapter, mbind, M_bind, mmio_read, mmio_write, tty_hw, gets, modify.
    cbn [t_crt]. rewrite Ht. cbn [t_crt v_text t_uart t_kbd t_reset v_color v_index v_regs].
    rewrite Ht, aget_eq. cbn [negb Z.eqb]. rewrite Pos.eqb_refl. cbn [negb t_crt].
    by rewrite Ht.
  - intros a. rewrite !aget_insert. repeat case_decide; congruence.
Qed.

Lemma read_cursor_run d :
  (∀ i, 0 ≤ aget (v_regs (t_crt d)) i < 256) →
  read_cursor (crt_base (t_crt d)) d = Ok (cursor (t_crt d),
    Tty (t_uart d) (t_kbd d) (t_reset d)
      (Crt (v_color (t_crt d)) (v_text (t_crt d)) 15 (v_regs (t_crt d)))).
Proof.
  destruct d as [u k r [col text idx regs]]. cbn [t_uart t_kbd t_reset t_crt v_color v_text v_regs].
  intros Hr. pose proof (Hr 14). pose proof (Hr 15).
  assert (u16 (Z.lor (Z.shiftl (aget regs 14) 8) (aget regs 15)) = cursor (Crt col text idx regs)) as <-.
  { rewrite lor_high_byte by done. unfold cursor. cbn [v_regs]. apply Z.mod_small. lia. }
  by destruct col.
Qed.

(** The message of [video_init]. *)
Definition video_message (addr_6845 : Z) : list Z :=
  default [] (putch [] <$> vprintfmt true (λ _, []) (codes "addr_6845:%x" ++ [10]) [addr_6845]).

Lemma message_printed c :
  dprintf_ports (D:=tty) (crt_base c) (codes "addr_6845:%x" ++ [10]) [crt_base c]
  = cons_puts_ports (crt_base c) (video_message (crt_base c)).
Proof. unfold crt_base. by destruct (v_color c). Qed.

Lemma refines_message c : 
  refines_upto false true (crt_base c) (cons_puts (video_message (crt_base c)))
    (cons_puts_ports (crt_base c) (video_message (crt_base c))).
Proof.
  assert (∃ cs, video_message (crt_base c) = 97 :: cs) as [cs ->]
    by (unfold crt_base; destruct (v_color c); by eexists).
  cbn [cons_puts cons_puts_ports]. eapply refines_bind; [by apply refines_first|intros _; apply refines_puts].
Qed.

(** The fourteen characters fit the first two lines. *)
Lemma message_fits c s :
  crt_pos (terminal s) = 0 → ∃ s', cons_puts (video_message (crt_base c)) s = Ok (tt, s').
Proof.
  intros Hp. destruct s as [lk cb rp wp lb sh kb se ci co [buf pos]]. cbn in Hp. subst pos.
  destruct (v_color c) eqn:E; unfold crt_base; rewrite E; destruct se; eexists; vm_compute; reflexivity.
Qed.

(** The state of [Console] at the start: what waits at the serial line is dropped. *)
Definition start (s : con) (d : tty) : con :=
  let u := t_uart d in
  set_com (serial_exists s) (if u_present u then [] else u_rx u)
    (u_line u ++ (if u_present u then [] else u_tx u)) (set_kbd (shift s) (t_kbd d) s).

(** The screen is taken over at the cursor. *)
Lemma refines_take_over addr screen :
  refines addr (pos ← lift l_terminal (gets crt_pos); lift l_terminal (modify (λ _, Video screen (u16 pos))))
    (pos ← lift l_snd (read_cursor addr); lift l_fst (lift l_terminal (modify (λ _, Video screen pos)))).
Proof.
  intros s [t d] [Hv Hu He Hi Ho Hk -> Hc Hp Hg]. cbn [fst snd] in *. specialize (Hc eq_refl).
  assert (u16 (crt_pos (terminal s)) = crt_pos (terminal s)) as E16 by by apply Z.mod_small.
  unfold mbind, M_bind, gets, modify. unfold lift. cbn [lget lset l_fst l_snd l_terminal fst snd terminal].
  rewrite (read_cursor_run d Hg), Hc, E16. eexists. split; [reflexivity|]. cbn [fst snd].
  destruct (vars_terminal t s (Video screen (crt_pos (terminal s))) Hv) as [_ Ev].
  by split; cbn [fst snd t_uart t_kbd t_crt].
Qed.

Lemma refines_lock addr : refines addr (lift l_cons_lk spinlock_init) (lift l_fst (lift l_cons_lk spinlock_init)).
Proof.
  intros s [t d] [Hv Hu He Hi Ho Hk Ha Hc Hp Hg]. eexists. split; [reflexivity|].
  split; try done. cbn [fst snd] in *. destruct t, s. unfold vars, set_com, set_kbd in *. cbn in *. congruence.
Qed.

(** After the serial line was programmed and the adapter was found, only the cursor may
    be elsewhere. *)
Lemma started_agrees s d u text :
  line_programmed (t_uart d) u → (u_busy (t_uart d) ≤ COM_TURNS)%nat → (u_latency (t_uart d) ≤ COM_TURNS)%nat →
  (∀ i, 0 ≤ aget (v_regs (t_crt d)) i < 256) → crt_pos (terminal s) = 0 →
  agrees_upto false (crt_base (t_crt d))
    (set_com (u_present (t_uart d)) (com_in (start s d)) (com_out (start s d)) (set_ring ∅ 0 0 (start s d)))
    (set_com (u_present (t_uart d)) (com_in s) (com_out s) (set_ring ∅ 0 0 s),
     Tty u (t_kbd d) (t_reset d) (Crt (v_color (t_crt d)) text (v_index (t_crt d)) (v_regs (t_crt d)))).
Proof.
  intros (Hp & Hx & Htx & Hln & Hlat & Hbusy & Hprog) Hb Hl Hr H0.
  split; cbn [fst snd t_uart t_kbd t_crt]; try done.
  - split; [|lia]. intros E. rewrite Hp in E. destruct (Hprog E) as (Elcr & _ & _ & Hf & _).
    unfold dlab. by rewrite Elcr.
  - cbn. by rewrite Hln, Htx.
  - cbn. by rewrite H0.
Qed.

Lemma cons_init_refines s d screen :
  (u_busy (t_uart d) ≤ COM_TURNS)%nat → (u_latency (t_uart d) ≤ COM_TURNS)%nat →
  (∀ i, 0 ≤ aget (v_regs (t_crt d)) i < 256) → crt_pos (terminal s) = 0 →
  let base := crt_base (t_crt d) in
  ∃ s' x, cons_init (u_present (t_uart d)) (video_message base) screen (start s d) = Ok (tt, s')
    ∧ cons_init_ports screen (s, d) = Ok (base, x) ∧ agrees base s' x.
Proof.
  intros Hb Hl Hr H0 base. destruct (serial_init_run d) as (u & E1 & Hu).
  destruct (probe_adapter_run (set_uart u d)) as (text & E2 & _). cbn [t_uart t_kbd t_reset t_crt set_uart] in E2.
  pose proof (started_agrees s d u text Hu Hb Hl Hr H0) as Ha. fold base in Ha, E2.
  set (s1 := set_com _ _ _ (set_ring ∅ 0 0 (start s d))) in *.
  destruct (message_fits (t_crt d) s1) as [s2 E3]; [done|]. fold base in E3.
  pose proof (refines_message (t_crt d) _ _ Ha) as Hm. fold base in Hm. rewrite E3 in Hm. destruct Hm as (x2 & E4 & Ha2).
  pose proof (refines_take_over base screen s2 x2 Ha2) as Ht.
  set (s3 := lset l_terminal (Video screen (u16 (crt_pos (terminal s2)))) s2).
  change ((pos ← lift l_terminal (gets crt_pos); lift l_terminal (modify (λ _, Video screen (u16 pos)))) s2)
    with (Ok (tt, s3)) in Ht. destruct Ht as (x3 & E5 & Ha3).
  destruct (refines_lock base s3 x3 Ha3) as (x4 & E6 & Ha4).
  assert (video_init screen (set_com (u_present (t_uart d)) (com_in s) (com_out s) (set_ring ∅ 0 0 s), set_uart u d)
    = Ok ((base, crt_mem (t_crt d)), x3)) as E7.
  { unfold video_init. erewrite bind_run by (unfold lift; cbn [lget lset l_snd fst snd]; rewrite E2; reflexivity).
    cbn iota. unfold base at 1 2 3. rewrite message_printed. fold base. rewrite (bind_run _ _ _ _ _ E4).
    revert E5. unfold mbind, M_bind. destruct (lift l_snd (read_cursor base) x2) as [[pos y]|]; [|done].
    by intros ->. }
  exists (lset l_cons_lk released s3), x4. split; [|split; [|exact Ha4]].
  - change (cons_init _ _ _ (start s d)) with ((_ ← cons_puts (video_message base);
      pos ← lift l_terminal (gets crt_pos); _ ← lift l_terminal (modify (λ _, Video screen (u16 pos)));
      lift l_cons_lk spinlock_init) s1). by rewrite (bind_run _ _ _ _ _ E3).
  - unfold cons_init_ports. rewrite (bind_run _ _ (s, d) (set_ring ∅ 0 0 s, d) tt) by done.
    erewrite bind_run by (unfold lift; cbn [lget lset l_snd fst snd]; rewrite E1; reflexivity).
    erewrite bind_run by reflexivity. cbn [fst snd]. erewrite bind_run by (exact E7). by rewrite (bind_run _ _ _ _ _ E6).
Qed.

(** C19: The port accesses of the console.  On a 16550 whose transmitter is free after
    at most 12800 looks, a keyboard controller and a text adapter, [serial_init] programs
    the line, and [cons_init], the message [video_init] prints on the way included, and
    after it every sequence of characters printed, polls and arrivals have the results
    and the effects that the queues of [Console] have: no byte is lost or doubled, and
    the cursor follows the text.  The static position on the screen is zero at the
    start. *)
Theorem console_ports_refine (s : con) (d : tty) (screen : list Z) (os : list tty_op) :
  (u_busy (t_uart d) ≤ COM_TURNS)%nat → (u_latency (t_uart d) ≤ COM_TURNS)%nat →
  (∀ i, 0 ≤ aget (v_regs (t_crt d)) i < 256) → crt_pos (terminal s) = 0 →
  let base := crt_base (t_crt d) in
  (∃ u, serial_init d = Ok (u_present (t_uart d), set_uart u d) ∧ line_programmed (t_uart d) u)
  ∧ ∃ s0 x0, cons_init (u_present (t_uart d)) (video_message base) screen (start s d) = Ok (tt, s0)
    ∧ cons_init_ports screen (s, d) = Ok (base, x0) ∧ agrees base s0 x0
    ∧ match ops op_spec os s0 with
      | Ok (rs, s') => ∃ x', ops (op_ports base) os x0 = Ok (rs, x') ∧ agrees base s' x'
      | Err e => ops (op_ports base) os x0 = Err e
      end.
Proof.
  intros Hb Hl Hr H0 base. split; [apply serial_init_run|].
  destruct (cons_init_refines s d screen Hb Hl Hr H0) as (s0 & x0 & E & E' & Ha).
  exists s0, x0. split; [done|]. split; [done|]. split; [done|]. by apply ops_refine.
Qed.

Definition sample_tty : tty :=
  Tty (Uart true 0 0 0 0 0 0 [65] [] [] 2 3) [] false (Crt true ∅ 0 {[14 := 1; 15 := 64]}).

(** The static variables before [cons_init]. *)
Definition boot_con : con := lset l_terminal (Video (replicate 2000 0) 0) sample_con.

(** What goes out is the message and the two lines printed after it. *)
Lemma console_ports_refine_witness :
  ∃ x0 x', cons_init_ports (replicate 2000 32) (boot_con, sample_tty) = Ok (980, x0)
    ∧ ops (op_ports 980) [OpPut 72; OpPut 10; OpByte 13; OpSerial; OpKey 30; OpKeyboard] x0
      = Ok ([0; 0; 0; 13; 0; 97], x')
    ∧ u_line (t_uart x'.2) ++ u_tx (t_uart x'.2) = codes "addr_6845:3d4" ++ [13; 10; 72; 13; 10]
    ∧ cursor (t_crt x'.2) = 160.
Proof.
  destruct (console_ports_refine boot_con sample_tty (replicate 2000 32)
    [OpPut 72; OpPut 10; OpByte 13; OpSerial; OpKey 30; OpKeyboard]) as (_ & s0 & x0 & E0 & E & _ & H).
  - cbn [t_uart sample_tty u_busy]. unfold COM_TURNS. lia.
  - cbn [t_uart sample_tty u_latency]. unfold COM_TURNS. lia.
  - intros i. cbn [t_crt sample_tty v_regs]. unfold aget.
    destruct (decide (i = 14)) as [-> |]; [by vm_compute|].
    destruct (decide (i = 15)) as [-> |]; [by vm_compute|].
    rewrite lookup_insert_ne, lookup_singleton_ne by done. done.
  - done.
  - change (crt_base (t_crt sample_tty)) with 980 in *.
    assert (∃ s', ops op_spec [OpPut 72; OpPut 10; OpByte 13; OpSerial; OpKey 30; OpKeyboard] s0
      = Ok ([0; 0; 0; 13; 0; 97], s') ∧ com_out s' = codes "addr_6845:3d4" ++ [13; 10; 72; 13; 10]
      ∧ crt_pos (terminal s') = 160) as (s' & Es & Eo & Ep).
    { vm_compute in E0. injection E0 as <-. eexists. split; [vm_compute; reflexivity|]. split; reflexivity. }
    rewrite Es in H. destruct H as (x' & E' & Ha). exists x0, x'. split; [exact E|]. split; [exact E'|].
    rewrite <- Eo, <- Ep. split; [symmetry; apply (ag_out _ _ _ _ Ha)|by apply (ag_cursor _ _ _ _ Ha)].
Defined.
