(* ===== verification/Intc.v ===== *)
(** * Interrupt controllers and clocks (kern/dev/pic.c, timer.c, tsc.c, lapic.c, ioapic.c)

    The drivers, over any hardware.  Messages for diagnosis are left out. *)

From S2P Require Import Prelude Memory TrapNumbers Machine.

(** ** State *)

(** One I/O APIC that was registered: [ioapics], [ioapicid] and [gsi] at an index. *)
Record ioapic := Ioapic { io_addr : Z; io_id : Z; io_gsi : Z }.

(** [struct gatedesc] of kern/lib/seg.h. *)
Record gatedesc := Gatedesc {
  gd_off_15_0 : Z; gd_ss : Z; gd_args : Z; gd_rsv1 : Z; gd_type : Z; gd_s : Z;
  gd_dpl : Z; gd_p : Z; gd_off_31_16 : Z
}.
#[export] Instance gatedesc_zero : Zeroed gatedesc := Gatedesc 0 0 0 0 0 0 0 0 0.

(** [struct pcpuinfo] of kern/dev/pcpu_mp_intro.h *)
Inductive cpu_vendor := UNKNOWN_CPU | INTEL | AMD.
Record pcpuinfo := Pcpuinfo {
  lapicid : Z; bsp : bool;
  cpuid_high : Z; vendor : list Z; vendor_of : cpu_vendor;
  family : Z; model : Z; step : Z; ext_family : Z; ext_model : Z; brand_idx : Z;
  clflush_size : Z; max_cpu_id : Z; apic_id : Z; feature1 : Z; feature2 : Z;
  l1_cache_size : Z; l1_cache_line_size : Z; cpuid_exthigh : Z
}.
#[export] Instance pcpuinfo_zero : Zeroed pcpuinfo :=
  Pcpuinfo 0 false 0 (replicate 20 0) UNKNOWN_CPU 0 0 0 0 0 0 0 0 0 0 0 0 0 0.

(** [struct pcpu] of kern/pcpu/PCPUIntro/PCPUIntro.c *)
Record pcpu_t := Pcpu {
  inited : bool; booted : bool; kstack_ptr : Z; arch_info : pcpuinfo; cpu_index : Z
}.
#[export] Instance pcpu_zero : Zeroed pcpu_t := Pcpu false false 0 zero 0.

(** The static variables of the drivers, by file. *)
Record pic_vars := PicVars { irqmask : Z; pic_inited : bool }.
Record apic_vars := ApicVars { lapic : Z; ioapics : list ioapic }.
Record intr_vars := IntrVars {
  using_apic : bool; intr_inited : bool; idt : gmap Z gatedesc;
  idt_loaded : bool;         (* [lidt] was executed *)
  intr_flag : bool           (* the interrupt flag of the processor *)
}.
Record mp_vars := MpVars {
  ncpu : Z; mp_inited : bool; ismp : bool; pcpus : gmap Z pcpu_t; pcpu_inited : bool
}.

Record dev (D : Type) := Dev {
  hw : D; bios : mem; pic_v : pic_vars; apic_v : apic_vars; intr_v : intr_vars; mp_v : mp_vars;
  tsc_per_ms : Z
}.
Arguments Dev {D} _ _ _ _ _ _ _.
Arguments hw {D} _.
Arguments bios {D} _.
Arguments pic_v {D} _.
Arguments apic_v {D} _.
Arguments intr_v {D} _.
Arguments mp_v {D} _.
Arguments tsc_per_ms {D} _.

Section Setters.
Context {D : Type}.
Implicit Types s : dev D.
Definition set_hw (h : D) s : dev D :=
  Dev h (bios s) (pic_v s) (apic_v s) (intr_v s) (mp_v s) (tsc_per_ms s).
Definition set_bios (m : mem) s : dev D :=
  Dev (hw s) m (pic_v s) (apic_v s) (intr_v s) (mp_v s) (tsc_per_ms s).
Definition set_pic (p : pic_vars) s : dev D :=
  Dev (hw s) (bios s) p (apic_v s) (intr_v s) (mp_v s) (tsc_per_ms s).
Definition set_apic (a : apic_vars) s : dev D :=
  Dev (hw s) (bios s) (pic_v s) a (intr_v s) (mp_v s) (tsc_per_ms s).
Definition set_intr (i : intr_vars) s : dev D :=
  Dev (hw s) (bios s) (pic_v s) (apic_v s) i (mp_v s) (tsc_per_ms s).
Definition set_mp (m : mp_vars) s : dev D :=
  Dev (hw s) (bios s) (pic_v s) (apic_v s) (intr_v s) m (tsc_per_ms s).
Definition set_tsc (t : Z) s : dev D :=
  Dev (hw s) (bios s) (pic_v s) (apic_v s) (intr_v s) (mp_v s) t.

Definition l_hw : lens (dev D) D := Lens hw set_hw.
#[export] Instance l_hw_ok : LensOk l_hw.
Proof. by split; [| |intros []]. Qed.

(** The variables as the program starts: interrupt 2 is open for the slave. *)
Definition dev_start (h : D) (m : mem) : dev D :=
  Dev h m (PicVars (Z.land 65535 (Z.lnot (Z.shiftl 1 IRQ_SLAVE))) false)
    (ApicVars 0 []) (IntrVars false false ∅ false false) (MpVars 0 false false ∅ false) 0.
End Setters.

Section Drivers.
Context {D : Type} `{HW : Hw D}.

Definition in_ (port : Z) : M (dev D) Z := lift l_hw (inb port).
Definition out_ (port v : Z) : M (dev D) unit := lift l_hw (outb port (u8 v)).

(** ** pic.c *)

Definition IO_PIC1 : Z := 32.
Definition IO_PIC2 : Z := 160.

Definition pic_init : M (dev D) unit :=
  i ← gets (λ s, pic_inited (pic_v s));
  if (i : bool) then mret tt
  else
    _ ← modify (λ s, set_pic (PicVars (irqmask (pic_v s)) true) s);
    _ ← out_ (IO_PIC1 + 1) 255;
    _ ← out_ (IO_PIC2 + 1) 255;
    _ ← out_ IO_PIC1 17;
    _ ← out_ (IO_PIC1 + 1) T_IRQ0;
    _ ← out_ (IO_PIC1 + 1) (Z.shiftl 1 IRQ_SLAVE);
    _ ← out_ (IO_PIC1 + 1) 1;
    _ ← out_ IO_PIC2 17;
    _ ← out_ (IO_PIC2 + 1) (T_IRQ0 + 8);
    _ ← out_ (IO_PIC2 + 1) IRQ_SLAVE;
    _ ← out_ (IO_PIC2 + 1) 1;
    _ ← out_ IO_PIC1 104;
    _ ← out_ IO_PIC1 10;
    _ ← out_ IO_PIC2 104;
    _ ← out_ IO_PIC2 10;
    _ ← out_ (IO_PIC1 + 1) 255;
    out_ (IO_PIC2 + 1) 255.

Definition pic_setmask (mask : Z) : M (dev D) unit :=
  _ ← modify (λ s, set_pic (PicVars mask (pic_inited (pic_v s))) s);
  _ ← out_ (IO_PIC1 + 1) mask;
  out_ (IO_PIC2 + 1) (Z.shiftr mask 8).

Definition pic_enable (irq : Z) : M (dev D) unit :=
  m ← gets (λ s, irqmask (pic_v s));
  pic_setmask (u16 (Z.land m (Z.lnot (Z.shiftl 1 irq)))).

Definition pic_eoi : M (dev D) unit := _ ← out_ IO_PIC1 32; out_ IO_PIC2 32.

Definition pic_reset : M (dev D) unit :=
  _ ← out_ (IO_PIC1 + 1) 0;
  _ ← out_ (IO_PIC2 + 1) 0;
  _ ← out_ IO_PIC1 17;
  _ ← out_ (IO_PIC1 + 1) T_IRQ0;
  _ ← out_ (IO_PIC1 + 1) (Z.shiftl 1 IRQ_SLAVE);
  _ ← out_ (IO_PIC1 + 1) 3;
  _ ← out_ IO_PIC2 17;
  _ ← out_ (IO_PIC2 + 1) (T_IRQ0 + 8);
  _ ← out_ (IO_PIC2 + 1) IRQ_SLAVE;
  _ ← out_ (IO_PIC2 + 1) 1;
  _ ← out_ IO_PIC1 104;
  _ ← out_ IO_PIC1 10;
  _ ← out_ IO_PIC2 104;
  out_ IO_PIC2 10.

(** ** timer.c *)

Definition TIMER_FREQ : Z := 1193182.
Definition FREQ : Z := 100.
Definition CAL_MS : Z := 10.
Definition CAL_LATCH : Z := TIMER_FREQ / (1000 / CAL_MS).
Definition CAL_PIT_LOOPS : Z := 1000.
Definition TIMER_DIV (x : Z) : Z := (TIMER_FREQ + x / 2) / x.
Definition LATCH : Z := TIMER_DIV FREQ.
Definition PIT_CONTROL : Z := 67.
Definition PIT_CHANNEL0 : Z := 64.

Definition timer_hw_init : M (dev D) unit :=
  _ ← out_ PIT_CONTROL (Z.lor (Z.lor 0 4) 48);
  _ ← out_ PIT_CHANNEL0 (Z.land LATCH 255);
  out_ PIT_CHANNEL0 (Z.land (Z.shiftr LATCH 8) 255).

(** ** The calibration loops of tsc.c and lapic.c *)

(** The gate of channel 2 high, and its counter started at [latch]. *)
Definition start_countdown (latch : Z) : M (dev D) unit :=
  v ← in_ 97;
  _ ← out_ 97 (Z.lor (Z.land v (Z.lnot 2)) 1);
  _ ← out_ 67 176;
  _ ← out_ 66 (Z.land latch 255);
  out_ 66 (Z.shiftr latch 8).

(** The loop until the counter has run out: [sample] reads a clock and [since] gives
    the time between two values; the result is the last value, the number of turns and
    the shortest and longest of them.  [polls] bounds the turns. *)
Fixpoint poll_pit (polls : nat) (sample : M (dev D) Z) (since : Z → Z → Z)
    (t : Z) (pitcnt tmin tmax : Z) : M (dev D) (Z * Z * Z * Z) :=
  v ← in_ 97;
  if negb (Z.land v 32 =? 0) then mret (t, pitcnt, tmin, tmax)
  else
    match polls with
    | O => fail OutOfFuel
    | S polls =>
      t2 ← sample;
      let delta := since t t2 in
      poll_pit polls sample since t2 (s32 (pitcnt + 1))
        (if delta <? tmin then delta else tmin) (if tmax <? delta then delta else tmax)
    end.

(** ** tsc.c *)

Definition NO_TSC : Z := two64 - 1.
Definition tsc_since (t t2 : Z) : Z := u64 (t2 - t).

Definition tsc_calibrate (polls : nat) (latch ms loopmin : Z) : M (dev D) Z :=
  _ ← start_countdown latch;
  t1 ← lift l_hw rdtsc;
  r ← poll_pit polls (lift l_hw rdtsc) tsc_since t1 0 NO_TSC 0;
  let '(t2, pitcnt, tscmin, tscmax) := r in
  if (pitcnt <? loopmin) || (u64 (10 * tscmin) <? tscmax) then mret NO_TSC
  else mret (tsc_since t1 t2 / ms).

(** At most [n] attempts: the first that succeeds, or the last. *)
Fixpoint attempts (n : nat) (failed : Z) (m : M (dev D) Z) : M (dev D) Z :=
  match n with
  | O => mret failed
  | S n => r ← m; if negb (r =? failed) then mret r else attempts n failed m
  end.

Definition tsc_init (polls : nat) : M (dev D) Z :=
  _ ← timer_hw_init;
  _ ← modify (set_tsc 0);
  ret ← attempts 10 NO_TSC (tsc_calibrate polls CAL_LATCH CAL_MS CAL_PIT_LOOPS);
  if ret =? NO_TSC then
    _ ← modify (set_tsc 1000000); _ ← timer_hw_init; mret 1
  else _ ← modify (set_tsc ret); _ ← timer_hw_init; mret 0.

(** [while (rdtsc() < limit);] *)
Fixpoint wait_tsc (polls : nat) (limit : Z) : M (dev D) unit :=
  t ← lift l_hw rdtsc;
  if t <? limit then match polls with O => fail OutOfFuel | S polls => wait_tsc polls limit end
  else mret tt.

Definition delay (polls : nat) (ms : Z) : M (dev D) unit :=
  t ← gets tsc_per_ms;
  start ← lift l_hw rdtsc;
  wait_tsc polls (u64 (start + u64 (t * ms))).

Definition udelay (polls : nat) (us : Z) : M (dev D) unit :=
  t ← gets tsc_per_ms;
  start ← lift l_hw rdtsc;
  wait_tsc polls (u64 (start + u64 (t / 1000 * us))).

(** ** lapic.c *)

Definition LAPIC_ID : Z := 32 / 4.
Definition LAPIC_VER : Z := 48 / 4.
Definition LAPIC_TPR : Z := 128 / 4.
Definition LAPIC_EOI : Z := 176 / 4.
Definition LAPIC_LDR : Z := 208 / 4.
Definition LAPIC_DFR : Z := 224 / 4.
Definition LAPIC_SVR : Z := 240 / 4.
Definition LAPIC_ESR : Z := 640 / 4.
Definition LAPIC_ICRLO : Z := 768 / 4.
Definition LAPIC_ICRHI : Z := 784 / 4.
Definition LAPIC_TIMER : Z := 800 / 4.
Definition LAPIC_PCINT : Z := 832 / 4.
Definition LAPIC_LINT0 : Z := 848 / 4.
Definition LAPIC_LINT1 : Z := 864 / 4.
Definition LAPIC_ERROR : Z := 880 / 4.
Definition LAPIC_TICR : Z := 896 / 4.
Definition LAPIC_TCCR : Z := 912 / 4.
Definition LAPIC_TDCR : Z := 992 / 4.
Definition LAPIC_SVR_ENABLE : Z := 256.
Definition LAPIC_TIMER_X1 : Z := 11.
Definition LAPIC_TIMER_PERIODIC : Z := 131072.
Definition LAPIC_LINT_MASKED : Z := 65536.
Definition APIC_LVTT_M : Z := 65536.
Definition LAPIC_DFR_FLAT_MODE : Z := Z.shiftl 15 28.
Definition LAPIC_ICRLO_INIT : Z := 1280.
Definition LAPIC_ICRLO_STARTUP : Z := 1536.
Definition LAPIC_ICRLO_DELIVS : Z := 4096.
Definition LAPIC_ICRLO_ASSERT : Z := 16384.
Definition LAPIC_ICRLO_LEVEL : Z := 32768.
Definition LAPIC_ICRLO_NOBCAST : Z := 0.
Definition LAPIC_ICRLO_BCAST : Z := 524288.
Definition LAPIC_TIMER_INTR_FREQ : Z := 1000.
Definition NO_TICKS : Z := two32 - 1.

Definition lapic_read (index : Z) : M (dev D) Z :=
  a ← gets (λ s, lapic (apic_v s));
  lift l_hw (mmio_read (u32 (a + 4 * index))).

(** The read after the write waits for its end. *)
Definition lapic_write (index value : Z) : M (dev D) unit :=
  a ← gets (λ s, lapic (apic_v s));
  _ ← lift l_hw (mmio_write (u32 (a + 4 * index)) (u32 value));
  _ ← lapic_read LAPIC_ID;
  mret tt.

(** Its body is empty. *)
Definition microdelay (us : Z) : M (dev D) unit := mret tt.

Definition lapic_register (lapic_addr : Z) : M (dev D) unit :=
  modify (λ s, set_apic (ApicVars lapic_addr (ioapics (apic_v s))) s).

(** The timer counts down. *)
Definition ticks_since (t t2 : Z) : Z := u32 (t - t2).

Definition lapic_calibrate_timer (polls : nat) (latch ms loopmin : Z) : M (dev D) Z :=
  _ ← lapic_write LAPIC_TICR NO_TICKS;
  _ ← start_countdown latch;
  timer1 ← lapic_read LAPIC_TCCR;
  r ← poll_pit polls (lapic_read LAPIC_TCCR) ticks_since timer1 0 NO_TICKS 0;
  let '(timer2, pitcnt, timermin, timermax) := r in
  if (pitcnt <? loopmin) || (u32 (10 * timermin) <? timermax) then mret NO_TICKS
  else mret (ticks_since timer1 timer2 / ms).

(** [while(lapic_read(LAPIC_ICRLO) & LAPIC_ICRLO_DELIVS);] *)
Fixpoint await_delivery (polls : nat) : M (dev D) unit :=
  v ← lapic_read LAPIC_ICRLO;
  if Z.land v LAPIC_ICRLO_DELIVS =? 0 then mret tt
  else match polls with O => fail OutOfFuel | S polls => await_delivery polls end.

Definition lapic_init (polls : nat) : M (dev D) unit :=
  a ← gets (λ s, lapic (apic_v s));
  _ ← (if a =? 0 then fail (Panic "NO LAPIC") else mret tt);
  _ ← lapic_write LAPIC_SVR (Z.lor LAPIC_SVR_ENABLE (T_IRQ0 + IRQ_SPURIOUS));
  _ ← lapic_write LAPIC_TDCR LAPIC_TIMER_X1;
  _ ← lapic_write LAPIC_TIMER (Z.lor LAPIC_TIMER_PERIODIC (T_IRQ0 + IRQ_TIMER));
  t ← attempts 5 NO_TICKS (lapic_calibrate_timer polls CAL_LATCH CAL_MS CAL_PIT_LOOPS);
  let lapic_ticks_per_ms := if t =? NO_TICKS then 500000 else t in
  _ ← lapic_write LAPIC_TICR (u32 (lapic_ticks_per_ms * 1000) / LAPIC_TIMER_INTR_FREQ);
  _ ← lapic_write LAPIC_LINT0 LAPIC_LINT_MASKED;
  _ ← lapic_write LAPIC_LINT1 LAPIC_LINT_MASKED;
  v ← lapic_read LAPIC_VER;
  _ ← (if 4 <=? Z.land (Z.shiftr v 16) 255 then lapic_write LAPIC_PCINT APIC_LVTT_M else mret tt);
  _ ← lapic_write LAPIC_DFR LAPIC_DFR_FLAT_MODE;
  _ ← lapic_write LAPIC_LDR 0;
  _ ← lapic_write LAPIC_ERROR T_LERROR;
  _ ← lapic_write LAPIC_ESR 0;
  _ ← lapic_write LAPIC_ESR 0;
  _ ← lapic_write LAPIC_EOI 0;
  _ ← lapic_write LAPIC_ICRHI 0;
  _ ← lapic_write LAPIC_ICRLO (Z.lor (Z.lor LAPIC_ICRLO_BCAST LAPIC_ICRLO_INIT) LAPIC_ICRLO_LEVEL);
  _ ← await_delivery polls;
  lapic_write LAPIC_TPR 0.

Definition lapic_eoi : M (dev D) unit :=
  a ← gets (λ s, lapic (apic_v s));
  if negb (a =? 0) then lapic_write LAPIC_EOI 0 else mret tt.

Definition put16 (m : mem) (a v : Z) : mem := write8 (write8 m a v) (a + 1) (Z.shiftr v 8).

Definition startup_ipi (apicid addr : Z) : M (dev D) unit :=
  _ ← lapic_write LAPIC_ICRHI (Z.shiftl apicid 24);
  _ ← lapic_write LAPIC_ICRLO (Z.lor LAPIC_ICRLO_STARTUP (Z.shiftr addr 12));
  microdelay 200.

(** The warm reset vector is at 0x40:0x67. *)
Definition lapic_startcpu (apicid addr : Z) : M (dev D) unit :=
  _ ← out_ 112 15;
  _ ← out_ (112 + 1) 10;
  let wrv := Z.lor (Z.shiftl 64 4) 103 in
  _ ← modify (λ s, set_bios (put16 (put16 (bios s) wrv 0) (wrv + 2) (u16 (Z.shiftr addr 4))) s);
  _ ← lapic_write LAPIC_ICRHI (Z.shiftl apicid 24);
  _ ← lapic_write LAPIC_ICRLO (Z.lor (Z.lor LAPIC_ICRLO_INIT LAPIC_ICRLO_LEVEL) LAPIC_ICRLO_ASSERT);
  _ ← microdelay 200;
  _ ← lapic_write LAPIC_ICRLO (Z.lor LAPIC_ICRLO_INIT LAPIC_ICRLO_LEVEL);
  _ ← microdelay 100;
  _ ← startup_ipi apicid addr;
  startup_ipi apicid addr.

Definition lapic_read_debug (index : Z) : M (dev D) Z := lapic_read index.

Definition lapic_send_ipi (polls : nat) (apicid vector deliver_mode shorthand_mode : Z)
    : M (dev D) unit :=
  _ ← kassert (negb (deliver_mode =? LAPIC_ICRLO_INIT) && negb (deliver_mode =? LAPIC_ICRLO_STARTUP))
        "deliver_mode";
  _ ← kassert (T_IPI0 <=? vector) "vector";
  _ ← await_delivery polls;
  _ ← (if shorthand_mode =? LAPIC_ICRLO_NOBCAST
       then lapic_write LAPIC_ICRHI (Z.land (Z.shiftl apicid 24) 4278190080) else mret tt);
  lapic_write LAPIC_ICRLO (Z.lor (Z.lor shorthand_mode deliver_mode) (Z.land vector 255)).

(** ** ioapic.c *)

Definition MAX_IOAPIC : Z := 16.
Definition IOAPIC_ID : Z := 0.
Definition IOAPIC_VER : Z := 1.
Definition IOAPIC_TABLE : Z := 16.
Definition IOAPIC_INT_DISABLED : Z := 65536.

(** [reg] is at the base, [data] 16 bytes further. *)
Definition ioapic_read (base reg : Z) : M (dev D) Z :=
  _ ← lift l_hw (mmio_write base reg);
  lift l_hw (mmio_read (u32 (base + 16))).

Definition ioapic_write (base reg data : Z) : M (dev D) unit :=
  _ ← lift l_hw (mmio_write base reg);
  lift l_hw (mmio_write (u32 (base + 16)) data).

Definition ioapic_register (addr id g : Z) : M (dev D) unit :=
  l ← gets (λ s, ioapics (apic_v s));
  if MAX_IOAPIC <=? Z.of_nat (length l) then mret tt
  else modify (λ s, set_apic (ApicVars (lapic (apic_v s)) (l ++ [Ioapic addr (u8 id) (s32 g)])) s).

(** The number of the last interrupt of a controller. *)
Definition io_maxintr (base : Z) : M (dev D) Z :=
  v ← ioapic_read base IOAPIC_VER;
  mret (Z.land (Z.shiftr v 16) 255).

Definition ioapic_init_one (io : ioapic) : M (dev D) unit :=
  _ ← kassert (negb (io_addr io =? 0)) "ioapic != NULL";
  v ← ioapic_read (io_addr io) IOAPIC_ID;
  _ ← (if u8 (Z.shiftr v 24) =? 0
       then ioapic_write (io_addr io) IOAPIC_ID (u32 (Z.shiftl (io_id io) 24)) else mret tt);
  maxintr ← io_maxintr (io_addr io);
  for_range 0 (maxintr + 1) (λ j,
    _ ← ioapic_write (io_addr io) (IOAPIC_TABLE + 2 * j) (Z.lor IOAPIC_INT_DISABLED (T_IRQ0 + j));
    ioapic_write (io_addr io) (IOAPIC_TABLE + 2 * j + 1) 0).

Fixpoint ioapic_init_all (l : list ioapic) : M (dev D) unit :=
  match l with
  | [] => mret tt
  | io :: l => _ ← ioapic_init_one io; ioapic_init_all l
  end.
Definition ioapic_init : M (dev D) unit :=
  l ← gets (λ s, ioapics (apic_v s)); ioapic_init_all l.

(** The loop of [ioapic_enable] and the panic after it. *)
Fixpoint ioapic_enable_at (l : list ioapic) (irq apicid : Z) (trigger_mode polarity : bool)
    : M (dev D) unit :=
  match l with
  | [] => fail (Panic "Cannot enable IRQ on IOAPIC.")
  | io :: l =>
    maxintr ← io_maxintr (io_addr io);
    if (io_gsi io <=? irq) && (irq <=? s32 (io_gsi io + maxintr)) then
      _ ← ioapic_write (io_addr io) (IOAPIC_TABLE + 2 * (irq - io_gsi io))
            (Z.lor (Z.lor (Z.shiftl (cbool trigger_mode) 15) (Z.shiftl (cbool polarity) 13)) (T_IRQ0 + irq));
      ioapic_write (io_addr io) (IOAPIC_TABLE + 2 * (irq - io_gsi io) + 1) (u32 (Z.shiftl apicid 24))
    else ioapic_enable_at l irq apicid trigger_mode polarity
  end.
Definition ioapic_enable (irq apicid : Z) (trigger_mode polarity : bool) : M (dev D) unit :=
  l ← gets (λ s, ioapics (apic_v s)); ioapic_enable_at l irq apicid trigger_mode polarity.

Definition ioapic_number : M (dev D) Z := gets (λ s, Z.of_nat (length (ioapics (apic_v s)))).

Definition ioapic_get (idx : Z) : M (dev D) Z :=
  l ← gets (λ s, ioapics (apic_v s));
  if Z.of_nat (length l) <=? idx then mret 0
  else mret (match l !! Z.to_nat idx with Some io => io_addr io | None => 0 end).
End Drivers.
