(* ===== verification/IntcProps.v ===== *)
(** * Theorems about the interrupt controllers

    The drivers of [Intc] on controllers that behave as [Machine] says. *)

From S2P Require Import Prelude Memory TrapNumbers Machine Intc.

(** ** The 8259A controllers *)

(** Enables a list of lines, one after the other. *)
Fixpoint pic_enable_all (irqs : list Z) : M (dev pics) unit :=
  match irqs with
  | [] => mret tt
  | irq :: irqs => _ ← pic_enable irq; pic_enable_all irqs
  end.

(** A pair that is initialised, with the mask [m] for its sixteen lines. *)
Definition programmed (m : Z) : pics :=
  Pics (Pic8259 None T_IRQ0 4 1 (u8 m)) (Pic8259 None (T_IRQ0 + 8) 2 1 (u8 (Z.shiftr m 8))).

Lemma pic_init_run (s : dev pics) :
  pic_inited (pic_v s) = false →
  pic_init s = Ok (tt, set_pic (PicVars (irqmask (pic_v s)) true) (set_hw (programmed 65535) s)).
Proof. destruct s as [[m sl] b [k i] a it mp t]. cbn. intros ->. reflexivity. Qed.

Lemma pic_setmask_run (s : dev pics) m m' :
  hw s = programmed m →
  pic_setmask m' s = Ok (tt, set_pic (PicVars m' (pic_inited (pic_v s))) (set_hw (programmed m') s)).
Proof. destruct s as [h b [k i] a it mp t]. cbn. intros ->. reflexivity. Qed.

(** The mask with the bits of some lines cleared. *)
Lemma clear_bit_spec m irq i :
  0 ≤ irq → 0 ≤ i < 16 →
  Z.testbit (u16 (Z.land m (Z.lnot (Z.shiftl 1 irq)))) i = Z.testbit m i && negb (i =? irq).
Proof.
  intros Hq Hi. unfold u16. change 65536 with (2 ^ 16).
  rewrite Z.mod_pow2_bits_low by lia. rewrite Z.land_spec, Z.lnot_spec by lia.
  rewrite Z.shiftl_1_l, Z.pow2_bits_eqb by lia. by rewrite (Z.eqb_sym i).
Qed.

Lemma programmed_line m irq :
  0 ≤ irq < 16 →
  line_open (programmed m) irq
  = negb (Z.testbit m irq) && ((irq <? 8) || negb (Z.testbit m 2)).
Proof.
  intros Hi. unfold line_open, programmed, u8. cbn [master slave p_imr]. change 256 with (2 ^ 8).
  case_cmp.
  - rewrite Z.mod_pow2_bits_low by lia. by rewrite andb_true_r.
  - rewrite !Z.mod_pow2_bits_low by lia. rewrite Z.shiftr_spec by lia.
    by replace (irq - 8 + 8) with irq by lia.
Qed.

Lemma pic_enable_all_run irqs : ∀ (s : dev pics) m,
  Forall (λ irq, 0 ≤ irq < 16) irqs → irqs ≠ [] →
  pic_inited (pic_v s) = true → hw s = programmed m →
  ∃ s' m', pic_enable_all irqs s = Ok (tt, s') ∧ hw s' = programmed m'
    ∧ irqmask (pic_v s') = m'
    ∧ ∀ i, 0 ≤ i < 16 → Z.testbit m' i = Z.testbit (irqmask (pic_v s)) i && negb (bool_decide (i ∈ irqs)).
Proof.
  induction irqs as [|irq irqs IH]; [done|]. intros s m Hr _ Hi Hh.
  apply Forall_cons in Hr as [Hq Hr]. cbn [pic_enable_all].
  set (k := u16 (Z.land (irqmask (pic_v s)) (Z.lnot (Z.shiftl 1 irq)))).
  assert (pic_enable irq s
    = Ok (tt, set_pic (PicVars k (pic_inited (pic_v s))) (set_hw (programmed k) s))) as E.
  { unfold pic_enable. apply (pic_setmask_run _ m k Hh). }
  destruct irqs as [|irq' irqs].
  - exists (set_pic (PicVars k (pic_inited (pic_v s))) (set_hw (programmed k) s)), k.
    split_and!; [|done|done|].
    + cbn [pic_enable_all]. by rewrite (bind_run _ _ _ _ _ E).
    + intros i Hb. unfold k. rewrite clear_bit_spec by lia. f_equal. f_equal.
      apply eq_bool_prop_intro. rewrite bool_decide_spec, Is_true_true, Z.eqb_eq.
      by rewrite list_elem_of_singleton.
  - destruct (IH (set_pic (PicVars k (pic_inited (pic_v s))) (set_hw (programmed k) s)) k)
      as (s' & m' & E' & Hh' & Hk' & Hb'); [done|done|done|done|].
    exists s', m'. split_and!; [|done|done|].
    + by rewrite (bind_run _ _ _ _ _ E).
    + intros i Hb. rewrite Hb' by done. cbn. unfold k. rewrite clear_bit_spec by lia.
      rewrite <- andb_assoc. f_equal. rewrite <- negb_orb. f_equal.
      apply eq_bool_prop_intro. rewrite orb_True, !bool_decide_spec, Is_true_true, Z.eqb_eq.
      by rewrite (elem_of_cons _ i irq).
Qed.

(** The 8259A controllers.  From any state of the hardware, [pic_init] programs
    both controllers (vectors 32 and 40, cascaded on line 2, x86 mode), and after
    enabling some lines exactly those lines, and line 2 for the slave, are open. *)
Theorem pic_opens_lines (h : pics) (b : mem) (irqs : list Z) :
  irqs ≠ [] → Forall (λ irq, 0 ≤ irq < 16) irqs →
  ∃ s m, (_ ← pic_init; pic_enable_all irqs) (dev_start h b) = Ok (tt, s)
    ∧ hw s = programmed m
    ∧ ∀ irq, 0 ≤ irq < 16 → line_open (hw s) irq = true ↔ irq = 2 ∨ irq ∈ irqs.
Proof.
  intros Hne Hr.
  assert (pic_init (dev_start h b) = Ok (tt, set_pic (PicVars 65531 true) (set_hw (programmed 65535) (dev_start h b))))
    as E by by apply pic_init_run.
  destruct (pic_enable_all_run irqs (set_pic (PicVars 65531 true)
    (set_hw (programmed 65535) (dev_start h b))) 65535) as (s & m & E' & Hh & _ & Hb); [done..|].
  exists s, m. split_and!; [by rewrite (bind_run _ _ _ _ _ E)|done|].
  intros irq Hi. rewrite Hh, programmed_line, (Hb irq), (Hb 2) by lia.
  cbn [set_pic pic_v irqmask].
  assert (∀ i, 0 ≤ i < 16 → Z.testbit 65531 i = negb (i =? 2)) as Hm.
  { intros i Hi'. apply Bool.eqb_prop.
    assert (forallb (λ i, Bool.eqb (Z.testbit 65531 i) (negb (i =? 2))) (seqZ 0 16) = true) as Hall
      by reflexivity.
    rewrite forallb_forall in Hall. apply Hall, list_elem_of_In, elem_of_seqZ. lia. }
  rewrite (Hm irq Hi), (Hm 2) by lia. cbn.
  destruct (Z.eqb_spec irq 2) as [->|Hne2]; [by split; [left|]|]. cbn.
  rewrite orb_true_r, andb_true_r, negb_involutive, bool_decide_eq_true.
  split; [by right|by intros [?|?]].
Qed.


(** ** The I/O APICs *)

(** Registers of the controllers on a bus. *)
Definition regs_of (b : ioapic_bus) : gmap Z (gmap Z Z) := io_regs <$> b.

(** The two words of a controller do not overlap with another one's. *)
Definition bus_ok (b : ioapic_bus) : Prop :=
  ∀ a, is_Some (b !! a) → 0 < a < two32 - 16 ∧ b !! (a + 16) = None.

Lemma bus_ok_insert b a d : bus_ok b → is_Some (b !! a) → bus_ok (<[a := d]> b).
Proof.
  intros Hb Ha a' Ha'. assert (is_Some (b !! a')) as Hs.
  { destruct (decide (a = a')) as [->|]; [done|]. by rewrite lookup_insert_ne in Ha'. }
  destruct (Hb a' Hs) as [Hr Hn]. split; [done|].
  rewrite lookup_insert_ne; [done|]. intros ->. rewrite Hn in Ha. by destruct Ha.
Qed.

Lemma regs_of_lookup b a r : regs_of b !! a = Some r → ∃ d, b !! a = Some d ∧ io_regs d = r.
Proof. unfold regs_of. rewrite lookup_fmap. destruct (b !! a) as [d|]; naive_solver. Qed.

Section Bus.
Implicit Types s : dev ioapic_bus.

(** What an access to the window of a selected register finds. *)
Lemma bus_window b a d : bus_ok b → b !! a = Some d →
  u32 (a + 16) = a + 16 ∧ b !! (a + 16) = None ∧ a + 16 - 16 = a.
Proof.
  intros Hb Ha. destruct (Hb a) as [Hr Hn]; [by eexists|].
  split_and!; [apply u32_small; unfold is_u32; lia|done|lia].
Qed.

Lemma wp_ioapic_read s base reg r Q :
  bus_ok (hw s) → regs_of (hw s) !! base = Some r →
  (∀ b, bus_ok b → regs_of b = regs_of (hw s) → Q (aget r reg) (set_hw b s)) →
  wp (ioapic_read base reg) Q s.
Proof.
  intros Hb (d & Hd & <-)%regs_of_lookup HQ.
  destruct (bus_window (hw s) base d Hb Hd) as (Eu & Hn & Ea).
  set (b := <[base := IoapicDev reg (io_regs d)]> (hw s)).
  assert (bus_ok b) as Hb' by (apply bus_ok_insert; [done|by eexists]).
  assert (ioapic_read base reg s = Ok (aget (io_regs d) reg, set_hw b s)) as E.
  { unfold ioapic_read, lift, mbind, M_bind. cbn. rewrite Eu. unfold bus_write. rewrite Hd. unfold bus_read.
    rewrite lookup_insert_ne by lia. rewrite Hn, Ea, lookup_insert_eq. by destruct s. }
  eapply run_wp; [exact E|]. apply HQ; [done|].
  unfold b, regs_of. rewrite fmap_insert. apply insert_id. cbn. by rewrite lookup_fmap, Hd.
Qed.

Lemma wp_ioapic_write s base reg v r Q :
  bus_ok (hw s) → regs_of (hw s) !! base = Some r → reg ≠ IOAPIC_VER →
  (∀ b, bus_ok b → regs_of b = <[base := <[reg := v]> r]> (regs_of (hw s)) → Q tt (set_hw b s)) →
  wp (ioapic_write base reg v) Q s.
Proof.
  intros Hb (d & Hd & <-)%regs_of_lookup Hreg HQ.
  destruct (bus_window (hw s) base d Hb Hd) as (Eu & Hn & Ea).
  set (b := <[base := IoapicDev reg (<[reg := v]> (io_regs d))]> (hw s)).
  assert (bus_ok b) as Hb' by (apply bus_ok_insert; [done|by eexists]).
  assert (ioapic_write base reg v s = Ok (tt, set_hw b s)) as E.
  { unfold ioapic_write, lift, mbind, M_bind. cbn. rewrite Eu. unfold bus_write at 2. rewrite Hd. unfold bus_write.
    rewrite lookup_insert_ne by lia. rewrite Hn, Ea, lookup_insert_eq. cbn.
    destruct (Z.eqb_spec reg 1); [done|]. rewrite insert_insert_eq. by destruct s. }
  eapply run_wp; [exact E|]. apply HQ; [done|]. unfold b, regs_of. by rewrite fmap_insert.
Qed.

(** The last line of a controller, and the two words of a line in its table. *)
Definition maxintr (r : gmap Z Z) : Z := Z.land (Z.shiftr (aget r IOAPIC_VER) 16) 255.
Definition line_entry (r : gmap Z Z) (j : Z) : Z * Z :=
  (aget r (IOAPIC_TABLE + 2 * j), aget r (IOAPIC_TABLE + 2 * j + 1)).

(** A masked line. *)
Definition masked_entry (j : Z) : Z * Z := (Z.lor IOAPIC_INT_DISABLED (T_IRQ0 + j), 0).
Definition all_masked (r : gmap Z Z) : Prop :=
  ∀ j, 0 ≤ j ≤ maxintr r → line_entry r j = masked_entry j.

Lemma line_entry_set r j k lo hi :
  line_entry (<[IOAPIC_TABLE + 2 * j + 1 := hi]> (<[IOAPIC_TABLE + 2 * j := lo]> r)) k
  = if decide (k = j) then (lo, hi) else line_entry r k.
Proof.
  unfold line_entry. case_decide as E.
  - subst k. rewrite aget_eq, aget_ne, aget_eq by lia. done.
  - rewrite !aget_ne by lia. done.
Qed.

Lemma maxintr_set r j lo hi : 0 ≤ j →
  maxintr (<[IOAPIC_TABLE + 2 * j + 1 := hi]> (<[IOAPIC_TABLE + 2 * j := lo]> r)) = maxintr r.
Proof. intros Hj. unfold maxintr. by rewrite !aget_ne by (unfold IOAPIC_TABLE, IOAPIC_VER; lia). Qed.

(** Both words of a line. *)
Lemma wp_write_entry s base j lo hi r Q :
  bus_ok (hw s) → regs_of (hw s) !! base = Some r → 0 ≤ j →
  (∀ b, bus_ok b → regs_of b = <[base := <[IOAPIC_TABLE + 2 * j + 1 := hi]>
           (<[IOAPIC_TABLE + 2 * j := lo]> r)]> (regs_of (hw s)) → Q tt (set_hw b s)) →
  wp (_ ← ioapic_write base (IOAPIC_TABLE + 2 * j) lo;
      ioapic_write base (IOAPIC_TABLE + 2 * j + 1) hi) Q s.
Proof.
  intros Hb Hr Hj HQ. apply wp_bind.
  eapply wp_ioapic_write; [done|done|unfold IOAPIC_TABLE, IOAPIC_VER; lia|]. intros b1 Hb1 E1.
  eapply wp_ioapic_write; [done|cbn [hw set_hw]; rewrite E1; apply lookup_insert_eq
    |unfold IOAPIC_TABLE, IOAPIC_VER; lia|].
  intros b2 Hb2 E2. cbn [hw set_hw] in E2. rewrite E1, insert_insert_eq in E2. apply (HQ b2 Hb2 E2).
Qed.

(** The loop that masks the lines. *)
Lemma wp_mask_lines s base r n Q :
  bus_ok (hw s) → regs_of (hw s) !! base = Some r → 0 ≤ n →
  (∀ b r', bus_ok b → regs_of b = <[base := r']> (regs_of (hw s)) → maxintr r' = maxintr r →
     (∀ j, 0 ≤ j < n → line_entry r' j = masked_entry j) → Q tt (set_hw b s)) →
  wp (for_range 0 n (λ j,
    _ ← ioapic_write base (IOAPIC_TABLE + 2 * j) (Z.lor IOAPIC_INT_DISABLED (T_IRQ0 + j));
    ioapic_write base (IOAPIC_TABLE + 2 * j + 1) 0)) Q s.
Proof.
  intros Hb Hr Hn HQ.
  apply (wp_for_range (λ i s1, ∃ b r', s1 = set_hw b s ∧ bus_ok b
    ∧ regs_of b = <[base := r']> (regs_of (hw s)) ∧ maxintr r' = maxintr r
    ∧ ∀ j, 0 ≤ j < i → line_entry r' j = masked_entry j)); [done| | |].
  - exists (hw s), r. split_and!; [by destruct s|done|by rewrite insert_id|done|lia].
  - intros i s1 Hi (b & r' & -> & Hb' & E & Hm & Hj).
    eapply (wp_write_entry (set_hw b s)); [done|cbn [hw set_hw]; rewrite E; apply lookup_insert_eq|lia|].
    intros b2 Hb2 E2. cbn [hw set_hw] in E2. rewrite E, insert_insert_eq in E2.
    eexists b2, _. split_and!; [done|done|exact E2|rewrite maxintr_set by lia; done|].
    intros j Hj'. rewrite line_entry_set. case_decide as Ej; [by subst j|apply Hj; lia].
  - intros s1 (b & r' & -> & Hb' & E & Hm & Hj). by apply (HQ b r').
Qed.

Lemma maxintr_nonneg r : 0 ≤ maxintr r.
Proof. unfold maxintr. apply Z.land_nonneg. lia. Qed.

(** What [ioapic_init] leaves of one controller. *)
Lemma wp_ioapic_init_one s io r Q :
  bus_ok (hw s) → regs_of (hw s) !! io_addr io = Some r →
  (∀ b r', bus_ok b → regs_of b = <[io_addr io := r']> (regs_of (hw s)) →
     maxintr r' = maxintr r → all_masked r' → Q tt (set_hw b s)) →
  wp (ioapic_init_one io) Q s.
Proof.
  intros Hb Hr HQ. pose proof (maxintr_nonneg r) as Hm. unfold ioapic_init_one, io_maxintr.
  assert (io_addr io ≠ 0) as Hne.
  { apply regs_of_lookup in Hr as (d & Hd & _). destruct (Hb (io_addr io)); [by eexists|lia]. }
  apply wp_bind, wp_kassert; [by destruct (Z.eqb_spec (io_addr io) 0)|].
  apply wp_bind. eapply wp_ioapic_read; [done|done|]. intros b1 Hb1 E1. apply wp_bind.
  set (s1 := set_hw b1 s). assert (regs_of (hw s1) !! io_addr io = Some r) as Hr1.
  { unfold s1. cbn [hw set_hw]. by rewrite E1. }
  apply (wp_mono _ (λ _ s2, ∃ b2 r2, s2 = set_hw b2 s ∧ bus_ok b2
    ∧ regs_of b2 = <[io_addr io := r2]> (regs_of (hw s)) ∧ maxintr r2 = maxintr r)).
  { case_match.
    - eapply (wp_ioapic_write s1); [done|done|done|]. intros b2 Hb2 E2.
      eexists b2, _. split_and!; [done|done|by rewrite <- E1; exact E2|].
      unfold maxintr. by rewrite aget_ne.
    - apply wp_ret. exists b1, r. split_and!; [done|done|by rewrite insert_id|done]. }
  intros [] s2 (b2 & r2 & -> & Hb2 & E2 & Hm2). apply wp_bind, wp_bind.
  eapply wp_ioapic_read; [done|cbn [hw set_hw]; rewrite E2; apply lookup_insert_eq|].
  intros b3 Hb3 E3. apply wp_ret. fold (maxintr r2).
  cbn [hw set_hw] in E3. rewrite E2 in E3.
  eapply (wp_mask_lines (set_hw b3 s)); [done|cbn [hw set_hw]; rewrite E3; apply lookup_insert_eq|lia|].
  intros b4 r4 Hb4 E4 Hm4 Hj. cbn [hw set_hw] in E4. rewrite E3, insert_insert_eq in E4.
  apply (HQ b4 r4 Hb4 E4); [congruence|]. intros j Hj'. apply Hj. lia.
Qed.

(** What [ioapic_init] leaves of all: [after b b' l] for the controllers [l]. *)
Record after_init (b b' : ioapic_bus) (l : list ioapic) : Prop := {
  ai_bus : bus_ok b';
  ai_masked : ∀ io r, io ∈ l → regs_of b !! io_addr io = Some r →
    ∃ r', regs_of b' !! io_addr io = Some r' ∧ maxintr r' = maxintr r ∧ all_masked r';
  ai_other : ∀ a, a ∉ io_addr <$> l → regs_of b' !! a = regs_of b !! a
}.

Lemma wp_ioapic_init_all l : ∀ s Q,
  bus_ok (hw s) → NoDup (io_addr <$> l) →
  (∀ io, io ∈ l → is_Some (regs_of (hw s) !! io_addr io)) →
  (∀ b, after_init (hw s) b l → Q tt (set_hw b s)) →
  wp (ioapic_init_all l) Q s.
Proof.
  induction l as [|io l IH]; intros s Q Hb Hnd Hon HQ; cbn [ioapic_init_all].
  - apply wp_ret. replace s with (set_hw (hw s) s) by by destruct s. apply HQ.
    split; [done|by intros ?? ?%elem_of_nil|done].
  - cbn in Hnd. apply NoDup_cons in Hnd as [Hni Hnd].
    destruct (Hon io) as [r Hr]; [left|]. apply wp_bind.
    eapply wp_ioapic_init_one; [done|done|]. intros b r' Hb' E Hm Hmask.
    assert (∀ a, a ∈ io_addr <$> l → regs_of b !! a = regs_of (hw s) !! a) as Hsame.
    { intros a Ha. rewrite E, lookup_insert_ne; [done|]. intros <-. by apply Hni. }
    apply IH; [done|done| |].
    { intros i Hi. cbn [hw set_hw]. rewrite Hsame by (by apply list_elem_of_fmap_2). apply Hon. by right. }
    intros b2 [Hb2 Hm2 Ho2]. apply (HQ b2). cbn [hw set_hw] in *. split; [done| |].
    + intros i ri Hi Hri. apply elem_of_cons in Hi as [->|Hi].
      * rewrite Hr in Hri. injection Hri as <-. exists r'. rewrite Ho2 by done.
        split_and!; [by rewrite E, lookup_insert_eq|done|done].
      * apply (Hm2 i ri Hi). rewrite Hsame; [done|by apply list_elem_of_fmap_2].
    + intros a Ha. cbn in Ha. apply not_elem_of_cons in Ha as [Ha1 Ha2].
      rewrite Ho2 by done. by rewrite E, lookup_insert_ne.
Qed.

(** A controller serves an interrupt: its registers, and that the number is in its
    range. *)
Definition serves (b : ioapic_bus) (io : ioapic) (irq : Z) : bool :=
  match regs_of b !! io_addr io with
  | Some r => (io_gsi io <=? irq) && (irq <=? io_gsi io + maxintr r)
  | None => false
  end.

(** The registered controllers are on the bus, and their ranges are [int]s. *)
Definition wired (b : ioapic_bus) (io : ioapic) : Prop :=
  is_Some (regs_of b !! io_addr io) ∧ 0 ≤ io_gsi io < 2147483392.

Lemma maxintr_bound r : maxintr r ≤ 255.
Proof.
  unfold maxintr. change 255 with (Z.ones 8). rewrite Z.land_ones by lia.
  pose proof (Z.mod_pos_bound (Z.shiftr (aget r IOAPIC_VER) 16) (2 ^ 8) ltac:(done)). change (Z.ones 8) with 255. change (2 ^ 8) with 256 in *. lia.
Qed.

Lemma wp_ioapic_enable_at l1 : ∀ s io l2 irq apicid r Q,
  bus_ok (hw s) → Forall (wired (hw s)) (l1 ++ io :: l2) →
  (∀ i, i ∈ l1 → serves (hw s) i irq = false) →
  regs_of (hw s) !! io_addr io = Some r → io_gsi io ≤ irq ≤ io_gsi io + maxintr r →
  (∀ b, bus_ok b →
     regs_of b = <[io_addr io := <[IOAPIC_TABLE + 2 * (irq - io_gsi io) + 1 := u32 (Z.shiftl apicid 24)]>
        (<[IOAPIC_TABLE + 2 * (irq - io_gsi io) := T_IRQ0 + irq]> r)]> (regs_of (hw s)) →
     Q tt (set_hw b s)) →
  wp (ioapic_enable_at (l1 ++ io :: l2) irq apicid false false) Q s.
Proof.
  induction l1 as [|i l1 IH]; intros s io l2 irq apicid r Q Hb Hw Hno Hr Hirq HQ;
    cbn [app ioapic_enable_at].
  - apply Forall_cons in Hw as [[_ Hg] _]. unfold io_maxintr. apply wp_bind, wp_bind.
    eapply wp_ioapic_read; [done|done|]. intros b1 Hb1 E1. apply wp_ret. fold (maxintr r).
    pose proof (maxintr_bound r). rewrite s32_small by lia.
    destruct (Z.leb_spec (io_gsi io) irq), (Z.leb_spec irq (io_gsi io + maxintr r)); try lia. cbn [andb].
    eapply (wp_write_entry (set_hw b1 s)); [done|by cbn [hw set_hw]; rewrite E1|lia|].
    intros b2 Hb2 E2. cbn [hw set_hw] in E2. rewrite E1 in E2. by apply (HQ b2).
  - cbn in Hw. apply Forall_cons in Hw as [[[ri Hri] Hg] Hw]. unfold io_maxintr. apply wp_bind, wp_bind.
    eapply wp_ioapic_read; [done|done|]. intros b1 Hb1 E1. apply wp_ret. fold (maxintr ri).
    pose proof (maxintr_bound ri). pose proof (maxintr_nonneg ri). rewrite s32_small by lia.
    assert (serves (hw s) i irq = false) as Hs by (apply Hno; left).
    unfold serves in Hs. rewrite Hri in Hs. rewrite Hs.
    apply (IH (set_hw b1 s) io l2 irq apicid r); cbn [hw set_hw]; [done| | |by rewrite E1|done|].
    + eapply Forall_impl; [exact Hw|]. unfold wired. by rewrite E1.
    + intros j Hj. unfold serves. rewrite E1. apply Hno. by right.
    + rewrite E1. intros b2 Hb2 E2. by apply (HQ b2).
Qed.
End Bus.

(** Routing by the I/O APICs.  After [ioapic_init] and [ioapic_enable irq], every
    line of every controller is masked, except the line of [irq] at the first
    controller that serves it: that one is sent to [apicid] with vector [32 + irq],
    edge-triggered and active high. *)
Theorem ioapic_routes (s : dev ioapic_bus) l1 io l2 irq apicid :
  bus_ok (hw s) → ioapics (apic_v s) = l1 ++ io :: l2 →
  NoDup (io_addr <$> l1 ++ io :: l2) → Forall (wired (hw s)) (l1 ++ io :: l2) →
  (∀ i, i ∈ l1 → serves (hw s) i irq = false) → serves (hw s) io irq = true →
  ∃ b, (_ ← ioapic_init; ioapic_enable irq apicid false false) s = Ok (tt, set_hw b s)
    ∧ ∀ i r, i ∈ l1 ++ io :: l2 → regs_of (hw s) !! io_addr i = Some r →
        ∃ r', regs_of b !! io_addr i = Some r' ∧ maxintr r' = maxintr r
        ∧ ∀ j, 0 ≤ j ≤ maxintr r → line_entry r' j =
            if decide (io_addr i = io_addr io ∧ j = irq - io_gsi io)
            then (T_IRQ0 + irq, u32 (Z.shiftl apicid 24)) else masked_entry j.
Proof.
  intros Hb Hl Hnd Hw Hno Hs.
  assert (wp (_ ← ioapic_init; ioapic_enable irq apicid false false) (λ _ s',
    ∃ b, s' = set_hw b s ∧ ∀ i r, i ∈ l1 ++ io :: l2 → regs_of (hw s) !! io_addr i = Some r →
        ∃ r', regs_of b !! io_addr i = Some r' ∧ maxintr r' = maxintr r
        ∧ ∀ j, 0 ≤ j ≤ maxintr r → line_entry r' j =
            if decide (io_addr i = io_addr io ∧ j = irq - io_gsi io)
            then (T_IRQ0 + irq, u32 (Z.shiftl apicid 24)) else masked_entry j) s) as Hwp.
  2: { apply wp_run in Hwp as ([] & s' & E & b & -> & Hp). by exists b. }
  apply wp_bind. unfold ioapic_init, ioapic_enable. apply wp_bind, wp_gets. rewrite Hl.
  apply wp_ioapic_init_all; [done|done| |].
  { intros i Hi. rewrite Forall_forall in Hw. by destruct (Hw i Hi). }
  intros b [Hb' Hm _]. apply wp_bind, wp_gets. cbn [apic_v set_hw]. rewrite Hl.
  assert (∀ i, i ∈ l1 ++ io :: l2 → serves b i irq = serves (hw s) i irq) as Hsame.
  { intros i Hi. rewrite Forall_forall in Hw. destruct (Hw i Hi) as [[r Hr] _].
    destruct (Hm i r Hi Hr) as (r' & Hr' & Em & _). unfold serves. by rewrite Hr, Hr', Em. }
  assert (io ∈ l1 ++ io :: l2) as Hio by (apply elem_of_app; right; left).
  unfold serves in Hs. destruct (regs_of (hw s) !! io_addr io) as [r|] eqn:Hr; [|done].
  apply andb_true_iff in Hs as [Hs1%Z.leb_le Hs2%Z.leb_le].
  destruct (Hm io r Hio Hr) as (r1 & Hr1 & Em1 & Hma1).
  apply (wp_ioapic_enable_at l1 (set_hw b s) io l2 irq apicid r1); cbn [hw set_hw];
    [done| | |done|rewrite Em1; lia|].
  { rewrite Forall_forall in Hw |- *. intros i Hi. destruct (Hw i Hi) as [[ri Hri] Hg].
    destruct (Hm i ri Hi Hri) as (r' & Hr' & _). split; [by eexists|done]. }
  { intros i Hi. rewrite Hsame; [by apply Hno|]. apply elem_of_app. by left. }
  intros b2 Hb2 E2. exists b2. split; [done|]. intros i ri Hi Hri.
  destruct (Hm i ri Hi Hri) as (r' & Hr' & Em & Hma). rewrite E2.
  destruct (decide (io_addr i = io_addr io)) as [Ea|Ea].
  - rewrite Ea, lookup_insert_eq. rewrite Ea, Hr in Hri. injection Hri as <-.
    eexists. split_and!; [done|by rewrite maxintr_set by lia|]. intros j Hj. rewrite line_entry_set.
    destruct (decide (j = irq - io_gsi io)) as [->|Ej].
    + by rewrite decide_True.
    + rewrite decide_False by naive_solver. apply Hma1. lia.
  - rewrite lookup_insert_ne by done. exists r'. split_and!; [done|done|]. intros j Hj.
    rewrite decide_False by naive_solver. apply Hma. lia.
Qed.
