(* ===== verification/Cpus.v ===== *)
(** * Processors and interrupts (kern/dev/acpi.c, kern/dev/pcpu_mp.c, kern/pcpu, kern/dev/intr.c)

    The tables of the firmware are found by their signatures and checksums and
    walked to register the processors and the I/O APICs; the table of interrupt
    gates is filled.  Addresses are 32 bits wide and the memory is flat. *)

From S2P Require Import Prelude Memory Strings Spinlock Console TrapNumbers Machine Intc.

(** ** acpi.c *)

(** The sum of the bytes, as a byte; the length is an [int]. *)
Definition sum (m : mem) (addr len : Z) : Z :=
  u8 (foldr Z.add 0 (read_bytes m addr (s32 len))).

Definition ACPI_RSDP_SIG1 : Z := 541348690.
Definition ACPI_RSDP_SIG2 : Z := 542266448.
Definition ACPI_RSDT_SIG : Z := 1413763922.
Definition ACPI_XSDT_SIG : Z := 1413763928.
Definition ACPI_MADT_SIG : Z := 1128878145.

(** Offsets in the structures of acpi.h. *)
Definition RSDP_SIZE : Z := 36.
Definition rsdt_addr (m : mem) (rsdp : Z) : Z := read32 m (rsdp + 16).
Definition xsdt_addr (m : mem) (rsdp : Z) : Z := read32 m (rsdp + 24).
Definition sdt_sig (m : mem) (t : Z) : Z := read32 m t.
Definition sdt_length (m : mem) (t : Z) : Z := read32 m (t + 4).
Definition SDT_ENT : Z := 36.
Definition madt_lapic_addr (m : mem) (t : Z) : Z := read32 m (t + 36).
Definition madt_flags (m : mem) (t : Z) : Z := read32 m (t + 40).
Definition MADT_ENT : Z := 44.

(** A place that passes the tests of the search. *)
Definition is_rsdp (m : mem) (p : Z) : bool :=
  (read32 m p =? ACPI_RSDP_SIG1) && (read32 m (p + 4) =? ACPI_RSDP_SIG2)
  && (sum m p RSDP_SIZE =? 0).

(** The loop, from [p] to [e] in steps of 16; [n] bounds the steps. *)
Fixpoint rsdp_scan (n : nat) (m : mem) (p e : Z) : Z :=
  match n with
  | O => 0
  | S n => if p <? e then if is_rsdp m p then p else rsdp_scan n m (p + 16) e else 0
  end.
Definition acpi_probe_rsdp_aux (m : mem) (addr length : Z) : Z :=
  rsdp_scan (Z.to_nat (length / 16 + 1)) m addr (addr + length).

(** A pointer of the BIOS data area at 0x400, as a segment. *)
Definition bda_word (m : mem) (off : Z) : Z :=
  Z.lor (Z.shiftl (read8 m (1024 + off + 1)) 8) (read8 m (1024 + off)).

Definition acpi_probe_rsdp (m : mem) : Z :=
  let p := Z.shiftl (bda_word m 14) 4 in
  let rsdp := if negb (p =? 0) then acpi_probe_rsdp_aux m p 1024 else 0 in
  if negb (rsdp =? 0) then rsdp else acpi_probe_rsdp_aux m 917504 131071.

(** A table with its signature and checksum, or null. *)
Definition checked_table (m : mem) (t sig : Z) : Z :=
  if t =? 0 then 0
  else if (sdt_sig m t =? sig) && (sum m t (sdt_length m t) =? 0) then t else 0.

Section Cpus.
Context {D : Type} `{HW : Hw D}.

Definition acpi_probe_rsdt (rsdp : Z) : M (dev D) Z :=
  _ ← kassert (negb (rsdp =? 0)) "rsdp != NULL";
  gets (λ s, checked_table (bios s) (rsdt_addr (bios s) rsdp) ACPI_RSDT_SIG).

Definition acpi_probe_xsdt (rsdp : Z) : M (dev D) Z :=
  _ ← kassert (negb (rsdp =? 0)) "rsdp != NULL";
  gets (λ s, checked_table (bios s) (xsdt_addr (bios s) rsdp) ACPI_XSDT_SIG).

(** The loops over the entries of the two root tables, whose entries have 4 and 8
    bytes; of the latter the lower half is used. *)
Fixpoint sdt_scan (fuel : nat) (width p e sig : Z) : M (dev D) Z :=
  if p <? e then
    match fuel with
    | O => fail OutOfFuel
    | S fuel =>
      m ← gets bios;
      let hdr := read32 m p in
      if (sdt_sig m hdr =? sig) && (sum m hdr (sdt_length m hdr) =? 0) then mret hdr
      else sdt_scan fuel width (u32 (p + width)) e sig
    end
  else mret 0.

Definition acpi_probe_rsdt_ent (rsdt sig : Z) : M (dev D) Z :=
  _ ← kassert (negb (rsdt =? 0)) "rsdt != NULL";
  len ← gets (λ s, sdt_length (bios s) rsdt);
  sdt_scan (Z.to_nat len) 4 (u32 (rsdt + SDT_ENT)) (u32 (rsdt + len)) sig.

Definition acpi_probe_xsdt_ent (xsdt sig : Z) : M (dev D) Z :=
  _ ← kassert (negb (xsdt =? 0)) "xsdt != NULL";
  len ← gets (λ s, sdt_length (bios s) xsdt);
  sdt_scan (Z.to_nat len) 8 (u32 (xsdt + SDT_ENT)) (u32 (xsdt + len)) sig.

(** ** PCPUIntro.c *)

(** The index in the kernel stack the code runs on, and the address of that stack. *)
Context (kstack_cpu_idx kstack_addr : Z).

Definition pcpu_at (i : Z) : M (dev D) pcpu_t :=
  _ ← chk "pcpu" NUM_CPUS i; gets (λ s, aget (pcpus (mp_v s)) i).
Definition set_pcpus (f : gmap Z pcpu_t → gmap Z pcpu_t) (s : dev D) : dev D :=
  set_mp (let v := mp_v s in MpVars (ncpu v) (mp_inited v) (ismp v) (f (pcpus v)) (pcpu_inited v)) s.
Definition set_pcpu_at (i : Z) (f : pcpu_t → pcpu_t) : M (dev D) unit :=
  p ← pcpu_at i; modify (set_pcpus (<[i := f p]>)).

Definition pcpu_set_zero : M (dev D) unit := modify (set_pcpus (λ _, ∅)).

Definition pcpu_fields_init (cpu_idx : Z) : M (dev D) unit :=
  set_pcpu_at cpu_idx (λ p, Pcpu true (booted p) (kstack_ptr p) (arch_info p) cpu_idx).

Definition pcpu_cur : M (dev D) pcpu_t := pcpu_at kstack_cpu_idx.
Definition get_pcpu_idx : M (dev D) Z := p ← pcpu_cur; mret (cpu_index p).
Definition set_pcpu_idx (index cpu_idx : Z) : M (dev D) unit :=
  set_pcpu_at index (λ p, Pcpu (inited p) (booted p) (kstack_ptr p) (arch_info p) cpu_idx).
Definition get_pcpu_kstack_pointer (cpu_idx : Z) : M (dev D) Z :=
  p ← pcpu_at cpu_idx; mret (kstack_ptr p).
Definition set_pcpu_kstack_pointer (cpu_idx ks : Z) : M (dev D) unit :=
  set_pcpu_at cpu_idx (λ p, Pcpu (inited p) (booted p) ks (arch_info p) (cpu_index p)).
Definition get_pcpu_boot_info (cpu_idx : Z) : M (dev D) bool :=
  p ← pcpu_at cpu_idx; mret (booted p).
Definition set_pcpu_boot_info (cpu_idx : Z) (boot_info : bool) : M (dev D) unit :=
  set_pcpu_at cpu_idx (λ p, Pcpu (inited p) boot_info (kstack_ptr p) (arch_info p) (cpu_index p)).
Definition get_pcpu_cpu_vendor (cpu_idx : Z) : M (dev D) cpu_vendor :=
  p ← pcpu_at cpu_idx; mret (vendor_of (arch_info p)).
Definition get_pcpu_inited_info (cpu_idx : Z) : M (dev D) bool :=
  p ← pcpu_at cpu_idx; mret (inited p).

(** Access through [get_pcpu_arch_info_pointer]. *)
Definition arch_info_at (i : Z) : M (dev D) pcpuinfo := p ← pcpu_at i; mret (arch_info p).
Definition set_arch_info (i : Z) (f : pcpuinfo → pcpuinfo) : M (dev D) unit :=
  set_pcpu_at i (λ p, Pcpu (inited p) (booted p) (kstack_ptr p) (f (arch_info p)) (cpu_index p)).

(** ** pcpu_mp.c: identification *)

Definition le_bytes (v : Z) : list Z := byte_of v <$> [0; 1; 2; 3].

Definition identify_vendor (v : list Z) : cpu_vendor :=
  if strncmp v (codes "GenuineIntel" ++ [0]) 20 =? 0 then INTEL
  else if strncmp v (codes "AuthenticAMD" ++ [0]) 20 =? 0 then AMD
  else UNKNOWN_CPU.

(** The rows of [intel_cache_info], which has 255 of them. *)
Definition intel_cache_info (d : Z) : Z * Z :=
  if d =? 10 then (8, 32) else if d =? 12 then (16, 32) else if d =? 13 then (16, 64)
  else if d =? 14 then (24, 64) else if d =? 44 then (32, 64) else if d =? 96 then (16, 64)
  else if d =? 102 then (8, 64) else if d =? 103 then (16, 64) else if d =? 104 then (32, 64)
  else (0, 0).

(** [while (i--) cpuid(2)]: the registers of the last call. *)
Fixpoint cpuid2_loop (i : nat) (r : Z * Z * Z * Z) : M (dev D) (Z * Z * Z * Z) :=
  match i with
  | O => mret r
  | S i => r ← lift l_hw (cpuid 2 0); cpuid2_loop i r
  end.

(** The loops over the descriptors: every one overwrites the result of the last. *)
Fixpoint descriptors_loop (ds : list Z) (size line : Z) : M (dev D) (Z * Z) :=
  match ds with
  | [] => mret (size, line)
  | d :: ds =>
    _ ← chk "intel_cache_info" 255 d;
    let '(size, line) := intel_cache_info d in descriptors_loop ds size line
  end.

(** The search among the first leaves of [cpuid(4)]: [None] when it ends without a
    break. *)
Fixpoint cpuid4_loop (n : nat) (i : Z) : M (dev D) (option (Z * Z * Z * Z)) :=
  match n with
  | O => mret None
  | S n =>
    r ← lift l_hw (cpuid 4 i);
    let '(eax, _, _, _) := r in
    if (Z.land eax 15 =? 1) && (Z.shiftr (Z.land eax 224) 5 =? 1) then mret (Some r)
    else cpuid4_loop n (i + 1)
  end.

(** Size and line of the first cache, by [cpuid] 2 and 4. *)
Definition intel_l1 : M (dev D) (Z * Z) :=
  r ← lift l_hw (cpuid 2 0);
  let '(eax, _, _, _) := r in
  r ← cpuid2_loop (Z.to_nat (Z.land eax 255)) r;
  let '(eax, ebx, ecx, edx) := r in
  l1 ← descriptors_loop (le_bytes eax ++ le_bytes ebx ++ le_bytes ecx ++ le_bytes edx) 0 0;
  if negb (l1.1 =? 0) && negb (l1.2 =? 0) then mret l1
  else
    r ← cpuid4_loop 3 0;
    match r with
    | None => mret l1
    | Some (_, ebx, ecx, _) =>
      let ways := Z.shiftr (Z.land ebx 4290772992) 22 + 1 in
      let partitions := Z.shiftr (Z.land ebx 4190208) 12 + 1 in
      let line := Z.land ebx 4095 + 1 in
      mret (u32 (u32 (u32 (ways * partitions) * line) * u32 (ecx + 1)) / 1024, line)
    end.

Definition l1_cache (v : cpu_vendor) : M (dev D) (Z * Z) :=
  match v with
  | INTEL => intel_l1
  | AMD =>
    r ← lift l_hw (cpuid 2147483653 0);
    let '(_, _, ecx, _) := r in
    mret (Z.shiftr (Z.land ecx 4278190080) 24, Z.land ecx 255)
  | UNKNOWN_CPU => mret (0, 0)
  end.

Definition pcpu_identify : M (dev D) unit :=
  cpu_idx ← get_pcpu_idx;
  info ← arch_info_at cpu_idx;
  r0 ← lift l_hw (cpuid 0 0);
  let '(eax0, ebx0, ecx0, edx0) := r0 in
  let v := le_bytes ebx0 ++ le_bytes edx0 ++ le_bytes ecx0 ++ [0] ++ drop 13 (vendor info) in
  let cv := identify_vendor v in
  r1 ← lift l_hw (cpuid 1 0);
  let '(eax, ebx, ecx, edx) := r1 in
  l1 ← l1_cache cv;
  rx ← lift l_hw (cpuid 2147483648 0);
  let '(eaxx, _, _, _) := rx in
  set_arch_info cpu_idx (λ i,
    Pcpuinfo (lapicid i) (bsp i) eax0 v cv
      (Z.land (Z.shiftr eax 8) 15) (Z.land (Z.shiftr eax 4) 15) (Z.land eax 15)
      (Z.land (Z.shiftr eax 20) 255) (Z.land (Z.shiftr eax 16) 255)
      (Z.land ebx 255) (Z.land (Z.shiftr ebx 8) 255) (Z.land (Z.shiftr ebx 16) 255)
      (Z.land (Z.shiftr ebx 24) 255) ecx edx l1.1 l1.2 eaxx).

Definition pcpu_init_cpu : M (dev D) unit := pcpu_identify.

(** ** pcpu_mp.c: the processors *)

Definition pcpu_mp_init_cpu (idx lapic_id : Z) (is_bsp : bool) : M (dev D) unit :=
  _ ← kassert ((is_bsp && (idx =? 0)) || negb is_bsp) "is_bsp";
  if NUM_CPUS <=? idx then mret tt
  else set_arch_info idx (λ i,
    Pcpuinfo lapic_id is_bsp (cpuid_high i) (vendor i) (vendor_of i) (family i) (model i) (step i)
      (ext_family i) (ext_model i) (brand_idx i) (clflush_size i) (max_cpu_id i) (apic_id i)
      (feature1 i) (feature2 i) (l1_cache_size i) (l1_cache_line_size i) (cpuid_exthigh i)).

Definition set_mp_vars (n : Z) (ini smp : bool) (s : dev D) : dev D :=
  set_mp (MpVars n ini smp (pcpus (mp_v s)) (pcpu_inited (mp_v s))) s.
Definition set_ncpu (n : Z) (s : dev D) : dev D :=
  set_mp_vars n (mp_inited (mp_v s)) (ismp (mp_v s)) s.
Definition set_ismp (b : bool) (s : dev D) : dev D :=
  set_mp_vars (ncpu (mp_v s)) (mp_inited (mp_v s)) b s.
Definition set_mp_inited (s : dev D) : dev D :=
  set_mp_vars (ncpu (mp_v s)) true (ismp (mp_v s)) s.

(** An enabled processor: the boot processor has index 0, the others the next free
    index. *)
Definition add_cpu (id : Z) (boot : bool) (ap_idx : Z) : M (dev D) Z :=
  _ ← (if boot then pcpu_mp_init_cpu 0 id true else pcpu_mp_init_cpu ap_idx id false);
  _ ← modify (λ s, set_ncpu (u32 (ncpu (mp_v s) + 1)) s);
  mret (if boot then ap_idx else u32 (ap_idx + 1)).

(** The code for other processors, an object file, goes to 0x8000. *)
Context (boot_ap : list Z).
Definition copy_boot_ap : M (dev D) unit :=
  modify (λ s, set_bios (write_bytes (bios s) 32768 boot_ap) s).

(** Route the lines of the 8259A through the APIC. *)
Definition imcr : M (dev D) unit :=
  _ ← out_ 34 112;
  v ← in_ 35;
  out_ 35 (Z.lor v 1).

(** *** The fallback: the tables of the MultiProcessor Specification *)

Definition MP_SIZE : Z := 16.
Definition MPCONF_SIZE : Z := 44.

Definition is_mp (m : mem) (p : Z) : bool :=
  (memcmp (read_bytes m p 4) (codes "_MP_") 4 =? 0) && (sum m p MP_SIZE =? 0).

Fixpoint mp_scan (n : nat) (m : mem) (p e : Z) : Z :=
  match n with
  | O => 0
  | S n => if p <? e then if is_mp m p then p else mp_scan n m (p + MP_SIZE) e else 0
  end.
Definition mpsearch1 (m : mem) (addr len : Z) : Z :=
  mp_scan (Z.to_nat (len / MP_SIZE + 1)) m addr (u32 (addr + len)).

Definition mpsearch (m : mem) : Z :=
  let p := Z.shiftl (bda_word m 14) 4 in
  let mp := if negb (p =? 0) then mpsearch1 m p 1024
            else mpsearch1 m (u32 (bda_word m 19 * 1024 - 1024)) 1024 in
  if negb (mp =? 0) then mp else mpsearch1 m 983040 65536.

Definition mp_physaddr (m : mem) (mp : Z) : Z := read32 m (mp + 4).
Definition mp_imcrp (m : mem) (mp : Z) : Z := read8 m (mp + 12).
Definition conf_length (m : mem) (c : Z) : Z := read8 m (c + 4) + 256 * read8 m (c + 5).
Definition conf_version (m : mem) (c : Z) : Z := read8 m (c + 6).
Definition conf_lapicaddr (m : mem) (c : Z) : Z := read32 m (c + 36).

(** The table and the structure that points to it. *)
Definition mpconfig (m : mem) : option (Z * Z) :=
  let mp := mpsearch m in
  if (mp =? 0) || (mp_physaddr m mp =? 0) then None
  else
    let conf := mp_physaddr m mp in
    if negb (memcmp (read_bytes m conf 4) (codes "PCMP") 4 =? 0) then None
    else if negb (conf_version m conf =? 1) && negb (conf_version m conf =? 4) then None
    else if negb (sum m conf (conf_length m conf) =? 0) then None
    else Some (conf, mp).

Definition MPPROC : Z := 0.
Definition MPBUS : Z := 1.
Definition MPIOAPIC : Z := 2.
Definition MPIOINTR : Z := 3.
Definition MPLINTR : Z := 4.

(** The loop over the entries.  An unknown entry is not stepped over. *)
Fixpoint mp_entries (fuel : nat) (p e ap_idx : Z) : M (dev D) unit :=
  if p <? e then
    match fuel with
    | O => fail OutOfFuel
    | S fuel =>
      m ← gets bios;
      let t := read8 m p in
      if t =? MPPROC then
        let flags := read8 m (p + 3) in
        if Z.land flags 1 =? 0 then mp_entries fuel (u32 (p + 20)) e ap_idx
        else
          ap_idx ← add_cpu (read8 m (p + 1)) (negb (Z.land flags 2 =? 0)) ap_idx;
          mp_entries fuel (u32 (p + 20)) e ap_idx
      else if t =? MPIOAPIC then
        _ ← ioapic_register (read32 m (p + 4)) (read8 m (p + 1)) 0;
        mp_entries fuel (u32 (p + 8)) e ap_idx
      else if (t =? MPBUS) || (t =? MPIOINTR) || (t =? MPLINTR) then
        mp_entries fuel (u32 (p + 8)) e ap_idx
      else mp_entries fuel p e ap_idx
    end
  else mret tt.

Definition mp_init_fallback : M (dev D) bool :=
  i ← gets (λ s, mp_inited (mp_v s));
  if (i : bool) then mret true
  else
    m ← gets bios;
    match mpconfig m with
    | None => mret false
    | Some (conf, mp) =>
      _ ← modify (set_ismp true);
      _ ← modify (set_ncpu 0);
      _ ← lapic_register (conf_lapicaddr m conf);
      _ ← mp_entries (S (Z.to_nat (conf_length m conf))) (u32 (conf + MPCONF_SIZE))
            (u32 (conf + conf_length m conf)) 1;
      _ ← (if negb (mp_imcrp m mp =? 0) then imcr else mret tt);
      _ ← copy_boot_ap;
      _ ← modify set_mp_inited;
      mret true
    end.

(** *** ACPI *)

Definition ACPI_MADT_APIC_LAPIC : Z := 0.
Definition ACPI_MADT_APIC_IOAPIC : Z := 1.
Definition ACPI_APIC_ENABLED : Z := 1.
Definition APIC_MADT_PCAT_COMPAT : Z := 1.

(** The loop over the entries of the table of APICs; each has its length in its
    second byte. *)
Fixpoint madt_entries (fuel : nat) (p e ap_idx : Z) (found_bsp : bool) : M (dev D) unit :=
  if p <? e then
    match fuel with
    | O => fail OutOfFuel
    | S fuel =>
      m ← gets bios;
      let t := read8 m p in
      let next := u32 (p + read8 m (p + 1)) in
      if t =? ACPI_MADT_APIC_LAPIC then
        if Z.land (read32 m (p + 4)) ACPI_APIC_ENABLED =? 0 then
          madt_entries fuel next e ap_idx found_bsp
        else
          ap_idx ← add_cpu (read8 m (p + 3)) (negb found_bsp) ap_idx;
          madt_entries fuel next e ap_idx true
      else if t =? ACPI_MADT_APIC_IOAPIC then
        _ ← ioapic_register (read32 m (p + 4)) (read8 m (p + 2)) (read32 m (p + 8));
        madt_entries fuel next e ap_idx found_bsp
      else madt_entries fuel next e ap_idx found_bsp
    end
  else mret tt.

(** The table of APICs, or null when one of the tables on the way is missing. *)
Definition find_madt : M (dev D) Z :=
  rsdp ← gets (λ s, acpi_probe_rsdp (bios s));
  if rsdp =? 0 then mret 0
  else
    xsdt ← acpi_probe_xsdt rsdp;
    if negb (xsdt =? 0) then acpi_probe_xsdt_ent xsdt ACPI_MADT_SIG
    else
      rsdt ← acpi_probe_rsdt rsdp;
      if rsdt =? 0 then mret 0 else acpi_probe_rsdt_ent rsdt ACPI_MADT_SIG.

Definition pcpu_mp_init : M (dev D) bool :=
  i ← gets (λ s, mp_inited (mp_v s));
  if (i : bool) then mret true
  else
    madt ← find_madt;
    if madt =? 0 then
      ok ← mp_init_fallback;
      if (ok : bool) then mret true
      else _ ← modify (set_ismp false); _ ← modify (set_ncpu 1); mret false
    else
      m ← gets bios;
      _ ← modify (set_ismp true);
      _ ← lapic_register (madt_lapic_addr m madt);
      _ ← modify (set_ncpu 0);
      _ ← madt_entries (Z.to_nat (sdt_length m madt)) (u32 (madt + MADT_ENT))
            (u32 (madt + sdt_length m madt)) 1 false;
      _ ← (if Z.land (madt_flags m madt) APIC_MADT_PCAT_COMPAT =? 0 then imcr else mret tt);
      _ ← copy_boot_ap;
      _ ← modify set_mp_inited;
      mret true.

Definition pcpu_ncpu : M (dev D) Z := gets (λ s, ncpu (mp_v s)).
Definition pcpu_is_smp : M (dev D) bool := gets (λ s, ismp (mp_v s)).

Definition pcpu_onboot : M (dev D) bool :=
  cpu_idx ← get_pcpu_idx;
  i ← gets (λ s, mp_inited (mp_v s));
  if (i : bool) then info ← arch_info_at cpu_idx; mret (bsp info) else mret (cpu_idx =? 0).

Definition pcpu_cpu_lapicid (cpu_idx : Z) : M (dev D) Z :=
  n ← gets (λ s, ncpu (mp_v s));
  _ ← kassert ((0 <=? cpu_idx) && (cpu_idx <? n)) "0 <= cpu_idx && cpu_idx < ncpu";
  info ← arch_info_at cpu_idx;
  mret (u8 (lapicid info)).

(** Waiting for the other processor: [others] is what it does between two looks. *)
Fixpoint await_boot (polls : nat) (others : M (dev D) unit) (cpu_idx : Z) : M (dev D) unit :=
  b ← get_pcpu_boot_info cpu_idx;
  if (b : bool) then mret tt
  else match polls with O => fail OutOfFuel | S polls => _ ← others; await_boot polls others cpu_idx end.

Definition pcpu_boot_ap (polls : nat) (others : M (dev D) unit) (kern_init_ap : Z)
    (cpu_idx f stack_addr : Z) : M (dev D) Z :=
  n ← pcpu_ncpu;
  _ ← kassert ((0 <? cpu_idx) && (cpu_idx <? n)) "cpu_idx > 0 && cpu_idx < pcpu_ncpu()";
  i ← get_pcpu_inited_info cpu_idx;
  _ ← kassert i "get_pcpu_inited_info(cpu_idx) == TRUE";
  _ ← kassert (negb (f =? 0)) "f != NULL";
  boot ← pcpu_onboot;
  if negb boot then mret 1
  else
    b ← get_pcpu_boot_info cpu_idx;
    if (b : bool) then mret 0
    else
      _ ← modify (λ s, set_bios (write32 (write32 (write32 (bios s) (32768 - 4) (u32 (stack_addr + 4096)))
                       (32768 - 8) f) (32768 - 12) kern_init_ap) s);
      id ← pcpu_cpu_lapicid cpu_idx;
      _ ← lapic_startcpu id 32768;
      _ ← await_boot polls others cpu_idx;
      b ← get_pcpu_boot_info cpu_idx;
      _ ← kassert b "get_pcpu_boot_info(cpu_idx) == TRUE";
      mret 0.

(** ** PCPUInit.c *)

Definition set_pcpu_inited (s : dev D) : dev D :=
  set_mp (let v := mp_v s in MpVars (ncpu v) (mp_inited v) (ismp v) (pcpus v) true) s.

(** What every processor does. *)
Definition pcpu_init_self : M (dev D) unit :=
  _ ← set_pcpu_idx kstack_cpu_idx kstack_cpu_idx;
  _ ← set_pcpu_kstack_pointer kstack_cpu_idx kstack_addr;
  _ ← set_pcpu_boot_info kstack_cpu_idx true;
  pcpu_init_cpu.

Definition pcpu_init : M (dev D) unit :=
  if kstack_cpu_idx =? 0 then
    i ← gets (λ s, pcpu_inited (mp_v s));
    if (i : bool) then mret tt
    else
      _ ← pcpu_set_zero;
      _ ← pcpu_mp_init;
      _ ← for_range 0 NUM_CPUS pcpu_fields_init;
      _ ← modify set_pcpu_inited;
      pcpu_init_self
  else pcpu_init_self.

(** ** intr.c *)

Definition STS_IG32 : Z := 14.
Definition STS_TG32 : Z := 15.

Definition SETGATE (istrap : bool) (sel off dpl : Z) : gatedesc :=
  Gatedesc (Z.land (u32 off) 65535) sel 0 0 (if istrap then STS_TG32 else STS_IG32) 0 dpl 1
    (Z.shiftr (u32 off) 16).

(** The entries of the handlers in idt.S, by their names. *)
Context (handler : string → Z).

(** The gates that are set one by one: vector, handler and privilege. *)
Definition idt_gates : list (Z * string * Z) :=
  [(T_DIVIDE, "Xdivide", 0); (T_DEBUG, "Xdebug", 0); (T_NMI, "Xnmi", 0); (T_BRKPT, "Xbrkpt", 3);
   (T_OFLOW, "Xoflow", 3); (T_BOUND, "Xbound", 0); (T_ILLOP, "Xillop", 0);
   (T_DEVICE, "Xdevice", 0); (T_DBLFLT, "Xdblflt", 0); (T_TSS, "Xtss", 0);
   (T_SEGNP, "Xsegnp", 0); (T_STACK, "Xstack", 0); (T_GPFLT, "Xgpflt", 0);
   (T_PGFLT, "Xpgflt", 0); (T_FPERR, "Xfperr", 0); (T_ALIGN, "Xalign", 0); (T_MCHK, "Xmchk", 0);
   (T_IRQ0 + IRQ_TIMER, "Xirq_timer", 0); (T_IRQ0 + IRQ_KBD, "Xirq_kbd", 0);
   (T_IRQ0 + IRQ_SLAVE, "Xirq_slave", 0); (T_IRQ0 + IRQ_SERIAL24, "Xirq_serial2", 0);
   (T_IRQ0 + IRQ_SERIAL13, "Xirq_serial1", 0); (T_IRQ0 + IRQ_LPT2, "Xirq_lpt", 0);
   (T_IRQ0 + IRQ_FLOPPY, "Xirq_floppy", 0); (T_IRQ0 + IRQ_SPURIOUS, "Xirq_spurious", 0);
   (T_IRQ0 + IRQ_RTC, "Xirq_rtc", 0); (T_IRQ0 + 9, "Xirq9", 0); (T_IRQ0 + 10, "Xirq10", 0);
   (T_IRQ0 + 11, "Xirq11", 0); (T_IRQ0 + IRQ_MOUSE, "Xirq_mouse", 0);
   (T_IRQ0 + IRQ_COPROCESSOR, "Xirq_coproc", 0); (T_IRQ0 + IRQ_IDE1, "Xirq_ide1", 0);
   (T_IRQ0 + IRQ_IDE2, "Xirq_ide2", 0); (T_SYSCALL, "Xsyscall", 3);
   (T_DEFAULT, "Xdefault", 0)]%string.

Definition set_idt (i : Z) (g : gatedesc) : M (dev D) unit :=
  _ ← chk "idt" 256 i;
  modify (λ s, set_intr (let v := intr_v s in
    IntrVars (using_apic v) (intr_inited v) (<[i := g]> (idt v)) (idt_loaded v) (intr_flag v)) s).

Fixpoint set_gates (gs : list (Z * string * Z)) : M (dev D) unit :=
  match gs with
  | [] => mret tt
  | (i, h, dpl) :: gs => _ ← set_idt i (SETGATE false CPU_GDT_KCODE (handler h) dpl); set_gates gs
  end.

Definition lidt (s : dev D) : dev D :=
  set_intr (let v := intr_v s in IntrVars (using_apic v) (intr_inited v) (idt v) true (intr_flag v)) s.

Definition intr_init_idt : M (dev D) unit :=
  _ ← kassert (Z.land T_IRQ0 7 =? 0) "(T_IRQ0 & 7) == 0";
  _ ← for_range 0 256 (λ i, set_idt i (SETGATE false CPU_GDT_KCODE (handler "Xdefault") 0));
  _ ← set_gates idt_gates;
  modify lidt.

Definition set_intr_flags (apic ini fl : bool) (s : dev D) : dev D :=
  set_intr (IntrVars apic ini (idt (intr_v s)) (idt_loaded (intr_v s)) fl) s.

Definition intr_init (polls : nat) : M (dev D) unit :=
  _ ← pic_init;
  r ← lift l_hw (cpuid 1 0);
  let '(_, _, _, edx) := r in
  let apic := negb (Z.land edx 512 =? 0) in
  _ ← modify (λ s, set_intr_flags apic (intr_inited (intr_v s)) (intr_flag (intr_v s)) s);
  _ ← kassert apic "using_apic == TRUE";
  b ← pcpu_onboot;
  _ ← (if (b : bool) then ioapic_init else mret tt);
  _ ← lapic_init polls;
  _ ← intr_init_idt;
  modify (λ s, set_intr_flags (using_apic (intr_v s)) true (intr_flag (intr_v s)) s).

(** The end of both functions that enable an interrupt. *)
Definition route (irq apicid : Z) : M (dev D) unit :=
  a ← gets (λ s, using_apic (intr_v s));
  if (a : bool) then ioapic_enable irq apicid false false
  else _ ← kassert (irq <? 16) "irq < 16"; pic_enable irq.

Definition intr_enable (irq cpunum : Z) : M (dev D) unit :=
  n ← pcpu_ncpu;
  _ ← kassert ((cpunum =? 255) || ((0 <=? cpunum) && (cpunum <? s32 n))) "cpunum";
  if 24 <=? irq then mret tt
  else
    a ← gets (λ s, using_apic (intr_v s));
    id ← (if (a : bool) then if cpunum =? 255 then mret 255 else pcpu_cpu_lapicid cpunum else mret 0);
    route irq id.

Definition intr_enable_lapicid (irq lapic_id : Z) : M (dev D) unit :=
  if 24 <? irq then mret tt else route irq (u8 lapic_id).

Definition intr_eoi : M (dev D) unit :=
  a ← gets (λ s, using_apic (intr_v s)); if (a : bool) then lapic_eoi else pic_eoi.

Definition intr_local_enable : M (dev D) unit :=
  modify (λ s, set_intr_flags (using_apic (intr_v s)) (intr_inited (intr_v s)) true s).
Definition intr_local_disable : M (dev D) unit :=
  modify (λ s, set_intr_flags (using_apic (intr_v s)) (intr_inited (intr_v s)) false s).
End Cpus.
