(* ===== verification/CpusProps.v ===== *)
(** * Theorems about processors and interrupt gates *)

From S2P Require Import Prelude Memory Spinlock TrapNumbers Machine Intc Cpus.

(** ** The search for the root pointer of ACPI *)

(** The places looked at: every 16 bytes of the area. *)
Definition places (addr len : Z) : list Z := (λ k, addr + 16 * k) <$> seqZ 0 ((len + 15) / 16).

(** The first place that passes, or null. *)
Definition first_rsdp (m : mem) (ps : list Z) : Z := default 0 (head (filter (λ p, is_rsdp m p) ps)).

Lemma rsdp_scan_first m k : ∀ n p e,
  p + 16 * Z.of_nat k < e + 16 → e ≤ p + 16 * Z.of_nat k → (k ≤ n)%nat →
  rsdp_scan n m p e = first_rsdp m ((λ i, p + 16 * i) <$> seqZ 0 (Z.of_nat k)).
Proof.
  induction k as [|k IH]; intros n p e Hlo Hhi Hn; (destruct n as [|n]; [done || lia|]); cbn [rsdp_scan].
  - destruct (Z.ltb_spec p e); [lia|done].
  - destruct (Z.ltb_spec p e); [|lia]. rewrite seqZ_cons by lia. unfold first_rsdp. cbn [fmap list_fmap].
    rewrite filter_cons. replace (p + 16 * 0) with p by lia. destruct (is_rsdp m p) eqn:E.
    + by rewrite decide_True.
    + rewrite decide_False by (intros []). rewrite (IH n (p + 16) e) by lia.
      unfold first_rsdp. do 3 f_equal. replace (Z.pred (Z.of_nat (S k))) with (Z.of_nat k) by lia.
      apply list_eq. intros i. rewrite !list_lookup_fmap.
      destruct (decide (Z.of_nat i < Z.of_nat k)).
      * rewrite !lookup_seqZ_lt by lia. cbn. f_equal. lia.
      * by rewrite !lookup_seqZ_ge by lia.
Qed.

Lemma acpi_probe_rsdp_aux_first m addr len :
  0 ≤ len → acpi_probe_rsdp_aux m addr len = first_rsdp m (places addr len).
Proof.
  intros Hl. unfold acpi_probe_rsdp_aux, places.
  pose proof (Z.div_mod (len + 15) 16 ltac:(lia)). pose proof (Z.mod_pos_bound (len + 15) 16 ltac:(lia)).
  pose proof (Z.div_mod len 16 ltac:(lia)). pose proof (Z.mod_pos_bound len 16 ltac:(lia)).
  rewrite (rsdp_scan_first m (Z.to_nat ((len + 15) / 16))) by lia. by rewrite Z2Nat.id by lia.
Qed.

(** ** The gates *)

Section Gates.
Context {D : Type} (handler : string → Z).
Implicit Types s : dev D.

(** The handler and the privilege of a vector: the last entry of the list that has
    it, or the default. *)
Definition gate_of (gs : list (Z * string * Z)) (v : Z) : string * Z :=
  match last (filter (λ g, g.1.1 = v) gs) with
  | Some (_, h, dpl) => (h, dpl)
  | None => ("Xdefault", 0)%string
  end.

Definition the_gate (gs : list (Z * string * Z)) (v : Z) : gatedesc :=
  SETGATE false CPU_GDT_KCODE (handler (gate_of gs v).1) (gate_of gs v).2.

Definition with_idt (t : gmap Z gatedesc) (l : bool) s : dev D :=
  set_intr (IntrVars (using_apic (intr_v s)) (intr_inited (intr_v s)) t l (intr_flag (intr_v s))) s.

Lemma wp_set_idt s i g Q :
  0 ≤ i < 256 → Q tt (with_idt (<[i := g]> (idt (intr_v s))) (idt_loaded (intr_v s)) s) →
  wp (set_idt i g) Q s.
Proof. intros Hi HQ. unfold set_idt. apply wp_bind, wp_chk; [done|]. by apply wp_modify. Qed.

Lemma wp_set_gates gs : ∀ s Q,
  Forall (λ g, 0 ≤ g.1.1 < 256) gs →
  (∀ t, (∀ v, aget t v = match last (filter (λ g, g.1.1 = v) gs) with
           | Some (_, h, dpl) => SETGATE false CPU_GDT_KCODE (handler h) dpl
           | None => aget (idt (intr_v s)) v end) →
     Q tt (with_idt t (idt_loaded (intr_v s)) s)) →
  wp (set_gates handler gs) Q s.
Proof.
  induction gs as [|[[i h] dpl] gs IH]; intros s Q Hr HQ; cbn [set_gates].
  - apply wp_ret. replace s with (with_idt (idt (intr_v s)) (idt_loaded (intr_v s)) s)
      by by destruct s as [? ? ? ? [] ? ?]. by apply HQ.
  - apply Forall_cons in Hr as [Hi Hr]. apply wp_bind, wp_set_idt; [done|]. apply IH; [done|].
    intros t Ht. apply (HQ t). intros v. rewrite Ht. cbn [intr_v set_intr with_idt idt].
    rewrite filter_cons, aget_insert. cbn. case_decide as E1; [subst v; rewrite last_cons|];
      destruct (last _) as [[[? ?] ?]|]; try done; by rewrite ?decide_True, ?decide_False.
Qed.

Lemma wp_default_gates s Q :
  (∀ t, (∀ v, 0 ≤ v < 256 → aget t v = SETGATE false CPU_GDT_KCODE (handler "Xdefault") 0) →
     Q tt (with_idt t (idt_loaded (intr_v s)) s)) →
  wp (for_range 0 256 (λ i, set_idt i (SETGATE false CPU_GDT_KCODE (handler "Xdefault") 0))) Q s.
Proof.
  intros HQ. apply (wp_for_range (λ i s1, ∃ t, s1 = with_idt t (idt_loaded (intr_v s)) s
    ∧ ∀ v, 0 ≤ v < i → aget t v = SETGATE false CPU_GDT_KCODE (handler "Xdefault") 0)); [lia| | |].
  - exists (idt (intr_v s)). split; [by destruct s as [? ? ? ? [] ? ?]|lia].
  - intros i s1 Hi (t & -> & Ht). apply wp_set_idt; [lia|]. eexists. split; [done|].
    intros v Hv. cbn [intr_v set_intr with_idt idt]. rewrite aget_insert.
    case_decide; [done|]. apply Ht. lia.
  - intros s1 (t & -> & Ht). apply HQ. intros v Hv. apply Ht. lia.
Qed.

(** The vectors a process may use with the [int] instruction. *)
Lemma user_vectors v :
  0 ≤ v < 256 → ((gate_of idt_gates v).2 = 3 ↔ v = T_BRKPT ∨ v = T_OFLOW ∨ v = T_SYSCALL)
                ∧ ((gate_of idt_gates v).2 = 3 ∨ (gate_of idt_gates v).2 = 0).
Proof.
  intros Hv.
  assert (forallb (λ v, Bool.eqb ((gate_of idt_gates v).2 =? 3) ((v =? 3) || (v =? 4) || (v =? 48))
    && (((gate_of idt_gates v).2 =? 3) || ((gate_of idt_gates v).2 =? 0))) (seqZ 0 256) = true) as H
    by (vm_compute; reflexivity).
  rewrite forallb_forall in H. specialize (H v ltac:(apply list_elem_of_In, elem_of_seqZ; lia)).
  apply andb_true_iff in H as [H1%Bool.eqb_prop H2]. unfold T_BRKPT, T_OFLOW, T_SYSCALL.
  rewrite <- Z.eqb_eq, H1. rewrite !orb_true_iff, !Z.eqb_eq in *. lia.
Qed.

(** The offset of a gate. *)
Definition gate_offset (g : gatedesc) : Z := gd_off_15_0 g + 65536 * gd_off_31_16 g.

Lemma gate_offset_set istrap sel off dpl : gate_offset (SETGATE istrap sel off dpl) = u32 off.
Proof.
  unfold gate_offset, SETGATE. cbn [gd_off_15_0 gd_off_31_16].
  change 65535 with (Z.ones 16). rewrite Z.land_ones, Z.shiftr_div_pow2 by lia.
  change (2 ^ 16) with 65536. pose proof (Z.div_mod (u32 off) 65536 ltac:(lia)). lia.
Qed.

Lemma wp_intr_init_idt s (Q : unit → dev D → Prop) :
  (∀ t, (∀ v, 0 ≤ v < 256 → aget t v = the_gate idt_gates v) → Q tt (with_idt t true s)) →
  wp (intr_init_idt handler) Q s.
Proof.
  intros HQ. unfold intr_init_idt. apply wp_bind, wp_kassert; [done|]. apply wp_bind, wp_default_gates.
  intros t0 Ht0. apply wp_bind, wp_set_gates; [by repeat constructor|]. intros t Ht. apply wp_modify.
  apply (HQ t). intros v Hv. rewrite Ht. unfold the_gate, gate_of.
  destruct (last _) as [[[? ?] ?]|]; [done|]. by apply Ht0.
Qed.

(** C33: The interrupt gates.  After [intr_init_idt] all 256 vectors have an interrupt
    gate into the kernel with the entry of their handler, and a process can raise with
    [int] only the breakpoint, the overflow and the system call; nothing else of the
    state has changed. *)
Theorem idt_correct s :
  ∃ t, intr_init_idt handler s = Ok (tt, with_idt t true s)
    ∧ ∀ v, 0 ≤ v < 256 →
        gd_p (aget t v) = 1 ∧ gd_ss (aget t v) = CPU_GDT_KCODE ∧ gd_type (aget t v) = STS_IG32
        ∧ gate_offset (aget t v) = u32 (handler (gate_of idt_gates v).1)
        ∧ (gd_dpl (aget t v) = 3 ↔ v = T_BRKPT ∨ v = T_OFLOW ∨ v = T_SYSCALL)
        ∧ (gd_dpl (aget t v) = 3 ∨ gd_dpl (aget t v) = 0).
Proof.
  destruct (wp_run (intr_init_idt handler) (λ _ s', ∃ t, s' = with_idt t true s
      ∧ ∀ v, 0 ≤ v < 256 → aget t v = the_gate idt_gates v) s) as ([] & s' & E & t & -> & Ht).
  { apply wp_intr_init_idt. by eauto. }
  exists t. split; [done|]. intros v Hv.
  rewrite Ht by done. unfold the_gate. rewrite gate_offset_set. cbn [SETGATE gd_p gd_ss gd_type gd_dpl].
  destruct (user_vectors v Hv). by split_and!.
Qed.
End Gates.

(** ** The table of APICs *)

(** The entries of the table, and their bytes. *)
Inductive madt_entry :=
| MLapic (proc id flags : Z)
| MIoapic (id addr gsi : Z)
| MOther (type : Z) (body : list Z).

Definition encode (x : madt_entry) : list Z :=
  match x with
  | MLapic proc id flags => [ACPI_MADT_APIC_LAPIC; 8; proc; id] ++ le_bytes flags
  | MIoapic id addr gsi => [ACPI_MADT_APIC_IOAPIC; 12; id; 0] ++ le_bytes addr ++ le_bytes gsi
  | MOther type body => type :: Z.of_nat (S (S (length body))) :: body
  end.

Definition entry_ok (x : madt_entry) : Prop :=
  match x with
  | MLapic _ id flags => 0 ≤ id < 256 ∧ is_u32 flags
  | MIoapic id addr gsi => 0 ≤ id < 256 ∧ is_u32 addr ∧ 0 ≤ gsi < 2147483648
  | MOther type body => 2 ≤ type < 256 ∧ (length body ≤ 253)%nat
  end.

(** The identifiers of the enabled processors, and the I/O APICs, in their order. *)
Definition enabled_ids (xs : list madt_entry) : list Z :=
  omap (λ x, match x with
             | MLapic _ id flags => if Z.land flags ACPI_APIC_ENABLED =? 0 then None else Some id
             | _ => None
             end) xs.
Definition listed_ioapics (xs : list madt_entry) : list ioapic :=
  omap (λ x, match x with MIoapic id addr gsi => Some (Ioapic addr id gsi) | _ => None end) xs.

(** The bytes lie at an address. *)
Definition bytes_at (m : mem) (p : Z) (bs : list Z) : Prop :=
  ∀ i b, bs !! i = Some b → read8 m (p + Z.of_nat i) = b.

Lemma bytes_at_app m p bs cs :
  bytes_at m p (bs ++ cs) → bytes_at m p bs ∧ bytes_at m (p + Z.of_nat (length bs)) cs.
Proof.
  intros H. split; intros i b Hi.
  - apply H. by apply lookup_app_l_Some.
  - rewrite <- Z.add_assoc, <- Nat2Z.inj_add. apply H.
    rewrite lookup_app_r by lia. by replace (_ - _)%nat with i by lia.
Qed.

Lemma read32_at m p v : bytes_at m p (le_bytes v) → is_u32 v → read32 m p = v.
Proof.
  intros H Hv. unfold read32.
  replace p with (p + Z.of_nat 0) at 1 by lia. rewrite (H 0%nat (byte_of v 0)) by done.
  rewrite (H 1%nat (byte_of v 1) eq_refl : read8 m (p + 1) = _).
  rewrite (H 2%nat (byte_of v 2) eq_refl : read8 m (p + 2) = _).
  rewrite (H 3%nat (byte_of v 3) eq_refl : read8 m (p + 3) = _).
  by rewrite bytes_of_word, u32_small.
Qed.

Section Madt.
Context {D : Type} `{HW : Hw D}.
Implicit Types s : dev D.

(** The table of processors holds the given identifiers: the first is the boot
    processor, and those beyond the table are only counted. *)
Definition cpus_are (ids : list Z) (v : mp_vars) : Prop :=
  ncpu v = Z.of_nat (length ids)
  ∧ ∀ i id, ids !! i = Some id → Z.of_nat i < NUM_CPUS →
      lapicid (arch_info (aget (pcpus v) (Z.of_nat i))) = id
      ∧ bsp (arch_info (aget (pcpus v) (Z.of_nat i))) = (Z.of_nat i =? 0).

(** What a walk of the table may change, and how. *)
Record walked (s s' : dev D) : Prop := {
  wk_hw : hw s' = hw s; wk_bios : bios s' = bios s; wk_pic : pic_v s' = pic_v s;
  wk_intr : intr_v s' = intr_v s; wk_tsc : tsc_per_ms s' = tsc_per_ms s;
  wk_lapic : lapic (apic_v s') = lapic (apic_v s);
  wk_mp : mp_inited (mp_v s') = mp_inited (mp_v s) ∧ ismp (mp_v s') = ismp (mp_v s)
          ∧ pcpu_inited (mp_v s') = pcpu_inited (mp_v s)
}.
#[local] Instance walked_preorder : PreOrder walked.
Proof.
  split; [by intros []|]. intros s1 s2 s3 [] []. split; try congruence.
  destruct wk_mp0 as (?&?&?), wk_mp1 as (?&?&?). split_and!; congruence.
Qed.

(** One processor was entered at an index, if the table reaches it. *)
Record entered (s : dev D) (id j : Z) (s' : dev D) : Prop := {
  en_walked : walked s s';
  en_apic : apic_v s' = apic_v s;
  en_ncpu : ncpu (mp_v s') = ncpu (mp_v s);
  en_at : ∀ i, 0 ≤ i < NUM_CPUS → if decide (i = j)
    then lapicid (arch_info (aget (pcpus (mp_v s')) i)) = id
         ∧ bsp (arch_info (aget (pcpus (mp_v s')) i)) = (i =? 0)
    else aget (pcpus (mp_v s')) i = aget (pcpus (mp_v s)) i
}.

Lemma wp_pcpu_mp_init_cpu s j id :
  0 ≤ j → wp (pcpu_mp_init_cpu j id (j =? 0)) (λ _, entered s id j) s.
Proof.
  intros Hj. unfold pcpu_mp_init_cpu. apply wp_bind, wp_kassert; [by destruct (j =? 0)|].
  destruct (Z.leb_spec NUM_CPUS j).
  - apply wp_ret. split; [done|done|done|]. intros i Hi. by rewrite decide_False by lia.
  - unfold set_arch_info, set_pcpu_at, pcpu_at. apply wp_bind, wp_bind, wp_chk; [lia|].
    apply wp_gets, wp_modify. split; [by split|done|done|]. intros i Hi. cbn.
    rewrite aget_insert. by case_decide as E1; case_decide as E2; subst.
Qed.

(** The next index for a processor that does not boot, after [ids]. *)
Definition next_ap (ids : list Z) : Z := Z.of_nat (Nat.max 1 (length ids)).

Lemma wp_add_cpu s ids id Q :
  cpus_are ids (mp_v s) → Z.of_nat (length ids) < two32 - 1 →
  (∀ s', walked s s' → apic_v s' = apic_v s → cpus_are (ids ++ [id]) (mp_v s') →
     Q (next_ap (ids ++ [id])) s') →
  wp (add_cpu id (bool_decide (ids = [])) (next_ap ids)) Q s.
Proof.
  intros [Hn Hc] Hlt HQ. set (j := Z.of_nat (length ids)). unfold add_cpu. apply wp_bind.
  apply (wp_mono _ (λ _, entered s id j)).
  { pose proof (wp_pcpu_mp_init_cpu s j id ltac:(unfold j; lia)) as Hw. by destruct ids. }
  intros [] s1 [Hw Ha Hn1 Hp]. apply wp_bind, wp_modify, wp_ret.
  replace (if bool_decide (ids = []) then next_ap ids else u32 (next_ap ids + 1))
    with (next_ap (ids ++ [id])).
  2: { unfold next_ap. rewrite length_app. cbn [length]. case_bool_decide as E; [by subst|].
       destruct ids as [|x ids]; [done|]. cbn [length] in *.
       rewrite u32_small by (unfold is_u32; lia). lia. }
  apply HQ; [etrans; [exact Hw|]; by split|done|]. split.
  - cbn. rewrite Hn1, Hn, length_app. cbn. rewrite u32_small by (unfold is_u32; lia). lia.
  - intros i x Hx Hi. cbn. specialize (Hp (Z.of_nat i) ltac:(lia)).
    apply lookup_app_Some in Hx as [Hx|[Hge [? <-]%list_lookup_singleton_Some]].
    + rewrite decide_False in Hp by (apply lookup_lt_Some in Hx; unfold j; lia).
      rewrite Hp. by apply Hc.
    + rewrite decide_True in Hp by (unfold j; lia). exact Hp.
Qed.

Lemma encode_header m p x :
  bytes_at m p (encode x) →
  read8 m p = match x with MLapic _ _ _ => 0 | MIoapic _ _ _ => 1 | MOther t _ => t end
  ∧ read8 m (p + 1) = Z.of_nat (length (encode x)).
Proof.
  intros H. split.
  - replace p with (p + Z.of_nat 0) by lia. apply H. by destruct x.
  - apply (H 1%nat). by destruct x.
Qed.

(** The fields of the two kinds of entries the kernel reads. *)
Lemma encode_lapic_fields m p proc id flags :
  bytes_at m p (encode (MLapic proc id flags)) → is_u32 flags →
  read8 m (p + 3) = id ∧ read32 m (p + 4) = flags.
Proof.
  intros [Hb Hf]%(bytes_at_app _ _ [ACPI_MADT_APIC_LAPIC; 8; proc; id]) Hfl.
  split; [exact (Hb 3%nat id eq_refl)|exact (read32_at _ _ flags Hf Hfl)].
Qed.

Lemma encode_ioapic_fields m p id addr gsi :
  bytes_at m p (encode (MIoapic id addr gsi)) → is_u32 addr → is_u32 gsi →
  read8 m (p + 2) = id ∧ read32 m (p + 4) = addr ∧ read32 m (p + 8) = gsi.
Proof.
  intros [Hb Hf]%(bytes_at_app _ _ [ACPI_MADT_APIC_IOAPIC; 12; id; 0]) Ha Hg.
  apply (bytes_at_app _ _ (le_bytes addr)) in Hf as [Hab Hgb].
  split_and!; [exact (Hb 2%nat id eq_refl)|exact (read32_at _ _ addr Hab Ha)|].
  rewrite <- (read32_at _ _ gsi Hgb Hg). f_equal. cbn. lia.
Qed.

Lemma wp_ioapic_register s addr id g Q :
  (length (ioapics (apic_v s)) ≤ 16)%nat → 0 ≤ id < 256 → 0 ≤ g < 2147483648 →
  (∀ s', walked s s' → mp_v s' = mp_v s →
     ioapics (apic_v s') = take 16 (ioapics (apic_v s) ++ [Ioapic addr id g]) → Q tt s') →
  wp (ioapic_register addr id g) Q s.
Proof.
  intros Hl Hid Hg HQ. unfold ioapic_register, MAX_IOAPIC. apply wp_bind, wp_gets.
  destruct (Z.leb_spec 16 (Z.of_nat (length (ioapics (apic_v s))))).
  - apply wp_ret, HQ; [done|done|]. by rewrite take_app_le, take_ge by lia.
  - apply wp_modify, HQ; [by split|done|]. cbn [apic_v set_apic ioapics].
    rewrite take_ge by (rewrite length_app; cbn; lia).
    unfold u8. by rewrite Z.mod_small, s32_small by lia.
Qed.

Lemma take_16_snoc {A} (l : list A) x k :
  take 16 (take 16 (l ++ [x]) ++ k) = take 16 (l ++ x :: k).
Proof.
  destruct (decide (length (l ++ [x]) ≤ 16)%nat) as [H|H].
  - rewrite (take_ge (l ++ [x])) by done. by rewrite <- app_assoc.
  - rewrite length_app in H. cbn in H. rewrite !(take_app_le l) by lia.
    rewrite take_app_le by (rewrite length_take; lia). by rewrite take_take, Nat.min_id.
Qed.

Lemma wp_madt_entries xs : ∀ fuel s p e ids Q,
  Forall entry_ok xs → bytes_at (bios s) p (concat (encode <$> xs)) →
  0 ≤ p → e = p + Z.of_nat (length (concat (encode <$> xs))) → e < two32 →
  (length xs ≤ fuel)%nat → Z.of_nat (length ids + length xs) < two32 - 1 →
  cpus_are ids (mp_v s) → (length (ioapics (apic_v s)) ≤ 16)%nat →
  (∀ s', walked s s' → cpus_are (ids ++ enabled_ids xs) (mp_v s') →
     ioapics (apic_v s') = take 16 (ioapics (apic_v s) ++ listed_ioapics xs) → Q tt s') →
  wp (madt_entries fuel p e (next_ap ids) (negb (bool_decide (ids = [])))) Q s.
Proof.
  induction xs as [|x xs IH]; intros fuel s p e ids Q Hok Hm Hp He Hlt Hf Hid Hc Hio HQ.
  - cbn in He. assert (madt_entries fuel p e (next_ap ids) (negb (bool_decide (ids = []))) s = Ok (tt, s)) as E.
    { destruct fuel; cbn; by destruct (Z.ltb_spec p e); [lia|]. }
    eapply run_wp; [exact E|]. apply HQ; [done|by rewrite app_nil_r|].
    by rewrite app_nil_r, take_ge.
  - apply Forall_cons in Hok as [Hx Hok]. cbn [fmap list_fmap concat] in Hm, He.
    apply bytes_at_app in Hm as [Hx1 Hxs]. rewrite length_app in He.
    destruct (encode_header _ _ _ Hx1) as [Ht Hlen]. cbn [length] in Hf, Hid.
    destruct fuel as [|fuel]; [lia|]. cbn [madt_entries].
    assert (2 ≤ length (encode x))%nat as Hpos by (destruct x; cbn; lia).
    destruct (Z.ltb_spec p e); [|lia]. apply wp_bind, wp_gets. rewrite Ht, Hlen.
    rewrite u32_small by (unfold is_u32; lia).
    assert (∀ s' ids' R, walked s s' → cpus_are ids' (mp_v s') →
      (length ids' ≤ S (length ids))%nat → (length (ioapics (apic_v s')) ≤ 16)%nat →
      (∀ s2, walked s' s2 → cpus_are (ids' ++ enabled_ids xs) (mp_v s2) →
         ioapics (apic_v s2) = take 16 (ioapics (apic_v s') ++ listed_ioapics xs) → R tt s2) →
      wp (madt_entries fuel (p + Z.of_nat (length (encode x))) e (next_ap ids')
            (negb (bool_decide (ids' = [])))) R s') as Hnext.
    { intros s' ids' R Hw Hc' Hl' Hio' HR. apply IH; try done; try lia. by rewrite (wk_bios _ _ Hw). }
    clear IH. destruct x as [proc id flags|id addr gsi|t body]; cbn [entry_ok] in Hx; cbn -[Z.of_nat Z.land].
    + destruct Hx as [Hid' Hfl]. destruct (encode_lapic_fields _ _ _ _ _ Hx1 Hfl) as [-> ->].
      destruct (Z.land flags ACPI_APIC_ENABLED =? 0) eqn:Een.
      * apply Hnext; [done|done|lia|done|]. intros s2 Hw2 Hc2 Hi2. apply HQ; [done| |done].
        unfold enabled_ids. cbn. by rewrite Een.
      * apply wp_bind. rewrite negb_involutive. apply (wp_add_cpu s ids id); [done|lia|].
        intros s1 Hw1 Ha1 Hc1. specialize (Hnext s1 (ids ++ [id])).
        replace (negb (bool_decide (ids ++ [id] = []))) with true in Hnext
          by (by destruct ids).
        apply Hnext; [done|done|rewrite length_app; cbn; lia|by rewrite Ha1|].
        intros s2 Hw2 Hc2 Hi2. apply HQ; [by etrans| |by rewrite Ha1 in Hi2].
        unfold enabled_ids. cbn. rewrite Een. by rewrite <- app_assoc in Hc2.
    + destruct Hx as (Hid' & Haddr & Hg).
      destruct (encode_ioapic_fields _ _ _ _ _ Hx1 Haddr) as (-> & -> & ->); [unfold is_u32, two32; lia|].
      apply wp_bind, wp_ioapic_register; [done|done|done|]. intros s1 Hw1 Hm1 Hi1.
      apply Hnext; [done|by rewrite Hm1|lia|rewrite Hi1, length_take; lia|].
      intros s2 Hw2 Hc2 Hi2. apply HQ; [by etrans|done|]. by rewrite Hi2, Hi1, take_16_snoc.
    + destruct Hx as [Ht' Hb']. destruct (Z.eqb_spec t ACPI_MADT_APIC_LAPIC) as [E|_];
        [unfold ACPI_MADT_APIC_LAPIC in E; lia|].
      destruct (Z.eqb_spec t ACPI_MADT_APIC_IOAPIC) as [E|_]; [unfold ACPI_MADT_APIC_IOAPIC in E; lia|].
      apply Hnext; [done|done|lia|done|]. intros s2 Hw2 Hc2 Hi2. by apply HQ.
Qed.

(** Ports can be read and written. *)
Class PortsWork := {
  inb_runs (port : Z) (h : D) : ∃ v h', inb port h = Ok (v, h');
  outb_runs (port v : Z) (h : D) : ∃ h', outb port v h = Ok (tt, h')
}.

(** Ports can be read and written, and keep the devices within [I]. *)
Class PortsKeep (I : D → Prop) := {
  inb_keeps (port : Z) (h : D) : I h → ∃ v h', inb port h = Ok (v, h') ∧ I h';
  outb_keeps (port v : Z) (h : D) : I h → ∃ h', outb port v h = Ok (tt, h') ∧ I h'
}.

#[export] Instance ports_work_keep `{!PortsWork} : PortsKeep (λ _, True).
Proof.
  split; intros port *.
  - intros _. destruct (inb_runs port h) as (v & h' & E). by exists v, h'.
  - intros _. destruct (outb_runs port v h) as (h' & E). by exists h'.
Qed.

Lemma wp_imcr I `{!PortsKeep I} s Q : I (hw s) → (∀ h, I h → Q tt (set_hw h s)) → wp imcr Q s.
Proof.
  intros HI HQ. unfold imcr, in_, out_. apply wp_bind, wp_lift.
  destruct (outb_keeps 34 (u8 112) (hw s) HI) as (h1 & E1 & H1). eapply run_wp; [exact E1|].
  apply wp_bind, wp_lift. cbn. destruct (inb_keeps 35 h1 H1) as (v & h2 & E2 & H2). eapply run_wp; [exact E2|].
  apply wp_lift. cbn. destruct (outb_keeps 35 (u8 (Z.lor v 1)) h2 H2) as (h3 & E3 & H3).
  eapply run_wp; [exact E3|]. by apply HQ.
Qed.

(** What [pcpu_mp_init] leaves when the firmware has the table. *)
Record mp_found (I : D → Prop) s madt xs boot_ap s' : Prop := {
  mf_inited : mp_inited (mp_v s') = true;
  mf_smp : ismp (mp_v s') = true;
  mf_pcpu : pcpu_inited (mp_v s') = pcpu_inited (mp_v s);
  mf_cpus : cpus_are (enabled_ids xs) (mp_v s');
  mf_lapic : lapic (apic_v s') = madt_lapic_addr (bios s) madt;
  mf_ioapics : ioapics (apic_v s') = take 16 (listed_ioapics xs);
  mf_bios : bios s' = write_bytes (bios s) 32768 boot_ap;
  mf_hw : I (hw s');
  mf_pic : pic_v s' = pic_v s; mf_intr : intr_v s' = intr_v s
}.

Lemma wp_pcpu_mp_init I `{!PortsKeep I} s madt xs boot_ap Q :
  I (hw s) → mp_inited (mp_v s) = false → ioapics (apic_v s) = [] →
  find_madt s = Ok (madt, s) → 0 < madt →
  Forall entry_ok xs → bytes_at (bios s) (madt + MADT_ENT) (concat (encode <$> xs)) →
  sdt_length (bios s) madt = MADT_ENT + Z.of_nat (length (concat (encode <$> xs))) →
  madt + sdt_length (bios s) madt < two32 →
  (∀ s', mp_found I s madt xs boot_ap s' → Q true s') →
  wp (pcpu_mp_init boot_ap) Q s.
Proof.
  intros HI Hi Hio Hfind Hmadt Hok Hb Hlen Hlt HQ. unfold pcpu_mp_init.
  apply wp_bind, wp_gets. rewrite Hi. apply wp_bind. eapply run_wp; [exact Hfind|].
  destruct (Z.eqb_spec madt 0); [lia|]. apply wp_bind, wp_gets, wp_bind, wp_modify, wp_bind, wp_modify.
  apply wp_bind, wp_modify, wp_bind. unfold MADT_ENT in *.
  assert (length xs ≤ length (concat (encode <$> xs)))%nat as Hxl.
  { clear. induction xs as [|x xs IH]; [done|]. cbn. rewrite length_app. destruct x; cbn; lia. }
  rewrite !u32_small by (unfold is_u32; lia).
  eapply (wp_madt_entries xs _ _ _ _ []); [done|exact Hb|lia|lia|lia|lia| |by split| |];
    [cbn; lia|cbn; rewrite Hio; cbn; lia|].
  intros s1 Hw Hc Hio1. destruct Hw as [Hhw Hbios Hpic Hintr ? Hla (? & Hsmp & Hpc)].
  cbn in Hhw, Hbios, Hpic, Hintr, Hla, Hsmp, Hpc, Hio1. apply wp_bind.
  apply (wp_mono _ (λ _ s2, ∃ h, I h ∧ s2 = set_hw h s1)).
  { case_match; [apply (wp_imcr I); [by rewrite Hhw|by eauto]|].
    apply wp_ret. exists (hw s1). rewrite Hhw. by destruct s1; cbn in Hhw; subst. }
  intros [] s2 (h & Hh & ->). apply wp_bind, wp_modify, wp_bind, wp_modify, wp_ret.
  rewrite Hio in Hio1. apply HQ. split; cbn; try done. by rewrite Hbios.
Qed.

(** C21: The processors of the machine.  When the firmware has a table of APICs with
    the entries [xs], [pcpu_mp_init] walks it to its end and registers exactly the
    enabled processors, the first as the boot processor, the first sixteen I/O APICs
    and the local APIC, and puts the start code of the other processors in place. *)
Theorem pcpu_mp_init_correct `{!PortsWork} s madt xs boot_ap :
  mp_inited (mp_v s) = false → ioapics (apic_v s) = [] →
  find_madt s = Ok (madt, s) → 0 < madt →
  Forall entry_ok xs → bytes_at (bios s) (madt + MADT_ENT) (concat (encode <$> xs)) →
  sdt_length (bios s) madt = MADT_ENT + Z.of_nat (length (concat (encode <$> xs))) →
  madt + sdt_length (bios s) madt < two32 →
  ∃ s', pcpu_mp_init boot_ap s = Ok (true, s')
    ∧ mp_inited (mp_v s') = true ∧ ismp (mp_v s') = true
    ∧ cpus_are (enabled_ids xs) (mp_v s')
    ∧ lapic (apic_v s') = madt_lapic_addr (bios s) madt
    ∧ ioapics (apic_v s') = take 16 (listed_ioapics xs)
    ∧ bios s' = write_bytes (bios s) 32768 boot_ap.
Proof.
  intros Hi Hio Hfind Hmadt Hok Hb Hlen Hlt. apply wp_run_val.
  apply (wp_pcpu_mp_init (λ _, True) s madt xs); try done. intros s' []. by split_and!.
Qed.
End Madt.

(** Two walks that never end: an entry of an unknown type in the older table, and an
    entry of length zero in the newer one. *)
Lemma unknown_entry_loops {D} (s : dev D) fuel p e ap_idx :
  p < e → 4 < read8 (bios s) p → mp_entries fuel p e ap_idx s = Err OutOfFuel.
Proof.
  intros Hp Ht. induction fuel as [|fuel IH]; cbn [mp_entries]; (destruct (Z.ltb_spec p e); [|lia]);
    [done|]. unfold MPPROC, MPIOAPIC, MPBUS, MPIOINTR, MPLINTR. rewrite (bind_run _ _ s s (bios s)) by done.
  destruct (Z.eqb_spec (read8 (bios s) p) 0), (Z.eqb_spec (read8 (bios s) p) 2),
    (Z.eqb_spec (read8 (bios s) p) 1), (Z.eqb_spec (read8 (bios s) p) 3),
    (Z.eqb_spec (read8 (bios s) p) 4); try lia. exact IH.
Qed.

Lemma empty_entry_loops {D} (s : dev D) fuel p e ap_idx b :
  0 ≤ p < e → e < two32 → 1 < read8 (bios s) p → read8 (bios s) (p + 1) = 0 →
  madt_entries fuel p e ap_idx b s = Err OutOfFuel.
Proof.
  intros Hp He Ht Hl. induction fuel as [|fuel IH]; cbn [madt_entries];
    (destruct (Z.ltb_spec p e); [|lia]); [done|].
  unfold ACPI_MADT_APIC_LAPIC, ACPI_MADT_APIC_IOAPIC. rewrite (bind_run _ _ s s (bios s)) by done.
  rewrite Hl, Z.add_0_r, u32_small by (unfold is_u32; lia).
  destruct (Z.eqb_spec (read8 (bios s) p) 0), (Z.eqb_spec (read8 (bios s) p) 1); try lia. exact IH.
Qed.

#[export] Instance pics_ports : PortsWork (D:=pics).
Proof. split; intros; by repeat eexists. Qed.

Lemma bytes_at_read m p bs : read_bytes m p (Z.of_nat (length bs)) = bs → bytes_at m p bs.
Proof.
  intros E i b Hi. pose proof (lookup_lt_Some _ _ _ Hi). rewrite <- E in Hi.
  rewrite <- (Nat2Z.id i), read_bytes_lookup in Hi by lia. by injection Hi.
Qed.

(** A firmware with two enabled processors, one that is not, and an I/O APIC. *)
Definition seal (k : nat) (bs : list Z) : list Z := <[k := u8 (- foldr Z.add 0 bs)]> bs.
Definition sample_entries : list madt_entry :=
  [MLapic 0 4 1; MLapic 1 6 1; MLapic 2 7 0; MIoapic 9 4273995776 0; MOther 2 [0; 0; 2; 0; 0; 0; 0; 0]].
Definition sample_table (sig : Z) (body : list Z) : list Z :=
  seal 9 (le_bytes sig ++ le_bytes (36 + Z.of_nat (length body)) ++ replicate 28 0 ++ body).
Definition sample_firmware : mem :=
  write_bytes (write_bytes (write_bytes (write_bytes ∅ 1038 [192; 159])
    654336 (seal 32 (le_bytes ACPI_RSDP_SIG1 ++ le_bytes ACPI_RSDP_SIG2 ++ replicate 8 0
                       ++ le_bytes 4096 ++ le_bytes 36 ++ replicate 12 0)))
    4096 (sample_table ACPI_RSDT_SIG (le_bytes 8192)))
    8192 (sample_table ACPI_MADT_SIG (le_bytes 4276092928 ++ le_bytes 1 ++ concat (encode <$> sample_entries))).

Definition sample_dev : dev pics :=
  dev_start (Pics (Pic8259 None 0 0 0 0) (Pic8259 None 0 0 0 0)) sample_firmware.

Lemma pcpu_mp_init_correct_witness :
  ∃ s, pcpu_mp_init [144; 144] sample_dev = Ok (true, s)
    ∧ ncpu (mp_v s) = 2 ∧ lapicid (arch_info (aget (pcpus (mp_v s)) 1)) = 6
    ∧ ioapics (apic_v s) = [Ioapic 4273995776 9 0].
Proof.
  destruct (pcpu_mp_init_correct sample_dev 8192 sample_entries [144; 144])
    as (s & E & _ & _ & [Hn Hc] & _ & Hio & _).
  - done.
  - done.
  - vm_compute. reflexivity.
  - done.
  - repeat constructor; cbn; unfold is_u32, two32; lia.
  - apply bytes_at_read. vm_compute. reflexivity.
  - vm_compute. reflexivity.
  - vm_compute. reflexivity.
  - exists s. split; [exact E|]. split; [exact Hn|]. split; [|exact Hio].
    by destruct (Hc 1%nat 6 eq_refl).
Defined.
