(* ===== verification/Asm.v ===== *)
(** The instructions of the assembly sources, and a processor that executes them.

    A source file is a list of lines: labels, instructions and data.  [step] executes
    the line the program counter is at; it stops when the control leaves the file,
    when the processor halts, and where the model says nothing (data executed, a
    missing label).  Addresses of labels and of instructions are those of the linker,
    the services of the BIOS are a parameter.  Of the flags, carry, zero, interrupt
    and direction are kept; segments are flat in protected mode, and as in real mode
    before it. *)
From stdpp Require Import base list gmap strings.
From S2P Require Import Prelude Memory.

(** ** Syntax *)

Inductive reg := EAX | ECX | EDX | EBX | ESP | EBP | ESI | EDI.
Inductive sreg := ES | CS | SS | DS | FS | GS.

(** The suffixes b, w and l of an instruction. *)
Inductive width := WB | WW | WL.

Inductive opnd :=
| Imm (v : Z)
| Sym (l : string) (k : Z)
| Rg (r : reg)
| Hi (r : reg)
| Sg (s : sreg)
| CR0
| Ind (k : Z) (r : reg)
| Abs (v : Z)
| Var (l : string) (k : Z).

Inductive instr :=
| Cli | Cld | Hlt | Ret | Iret | Popf | Lodsb | RepStosb
| Push (w : width) (o : opnd) | Pop (w : width) (o : opnd)
| Pusha (w : width) | Popa (w : width)
| Mov (w : width) (src dst : opnd) | Add (w : width) (src dst : opnd)
| Xor (w : width) (src dst : opnd) | Or (w : width) (src dst : opnd)
| Cmp (w : width) (src dst : opnd) | Test (w : width) (src dst : opnd)
| Jmp (l : string) | Je (l : string) | Jne (l : string) | Jc (l : string)
| Jmpi (o : opnd) | Call (l : string) | Calli (o : opnd) | Ljmp (sel : Z) (l : string)
| Lgdt (l : string) | Int (n : Z) | Inb (port : Z) | Outb (port : Z).

Inductive line := Lab (l : string) | Ins (i : instr) | Data (bs : list Z) | Long (l : string).

(** ** The processor *)

Record gpr := Gpr {
  r_eax : Z; r_ecx : Z; r_edx : Z; r_ebx : Z; r_esp : Z; r_ebp : Z; r_esi : Z; r_edi : Z
}.
Record segs := Segs { s_es : Z; s_cs : Z; s_ss : Z; s_ds : Z; s_fs : Z; s_gs : Z }.

(** At a line of the file, or at an address outside it. *)
Inductive place := At (i : nat) | Out (a : Z).

Record cpu := Cpu {
  rs : gpr; sg : segs; pc : place; fl : Z; cr0 : Z; gdtr : Z * Z; wide : bool; halted : bool;
  mm : mem; ins : list Z; outs : list (Z * Z)
}.

Definition set_rs (v : gpr) (c : cpu) : cpu :=
  Cpu v (sg c) (pc c) (fl c) (cr0 c) (gdtr c) (wide c) (halted c) (mm c) (ins c) (outs c).
Definition set_sg (v : segs) (c : cpu) : cpu :=
  Cpu (rs c) v (pc c) (fl c) (cr0 c) (gdtr c) (wide c) (halted c) (mm c) (ins c) (outs c).
Definition set_pc (v : place) (c : cpu) : cpu :=
  Cpu (rs c) (sg c) v (fl c) (cr0 c) (gdtr c) (wide c) (halted c) (mm c) (ins c) (outs c).
Definition set_fl (v : Z) (c : cpu) : cpu :=
  Cpu (rs c) (sg c) (pc c) v (cr0 c) (gdtr c) (wide c) (halted c) (mm c) (ins c) (outs c).
Definition set_cr0 (v : Z) (c : cpu) : cpu :=
  Cpu (rs c) (sg c) (pc c) (fl c) v (gdtr c) (wide c) (halted c) (mm c) (ins c) (outs c).
Definition set_gdtr (v : Z * Z) (c : cpu) : cpu :=
  Cpu (rs c) (sg c) (pc c) (fl c) (cr0 c) v (wide c) (halted c) (mm c) (ins c) (outs c).
Definition set_wide (v : bool) (c : cpu) : cpu :=
  Cpu (rs c) (sg c) (pc c) (fl c) (cr0 c) (gdtr c) v (halted c) (mm c) (ins c) (outs c).
Definition set_halted (v : bool) (c : cpu) : cpu :=
  Cpu (rs c) (sg c) (pc c) (fl c) (cr0 c) (gdtr c) (wide c) v (mm c) (ins c) (outs c).
Definition set_mm (v : mem) (c : cpu) : cpu :=
  Cpu (rs c) (sg c) (pc c) (fl c) (cr0 c) (gdtr c) (wide c) (halted c) v (ins c) (outs c).
Definition set_io (i : list Z) (o : list (Z * Z)) (c : cpu) : cpu :=
  Cpu (rs c) (sg c) (pc c) (fl c) (cr0 c) (gdtr c) (wide c) (halted c) (mm c) i o.

Definition get_reg (r : reg) (g : gpr) : Z :=
  match r with
  | EAX => r_eax g | ECX => r_ecx g | EDX => r_edx g | EBX => r_ebx g
  | ESP => r_esp g | EBP => r_ebp g | ESI => r_esi g | EDI => r_edi g
  end.

Definition put_reg (r : reg) (v : Z) (g : gpr) : gpr :=
  let 'Gpr a c d b sp bp si di := g in
  match r with
  | EAX => Gpr v c d b sp bp si di | ECX => Gpr a v d b sp bp si di
  | EDX => Gpr a c v b sp bp si di | EBX => Gpr a c d v sp bp si di
  | ESP => Gpr a c d b v bp si di | EBP => Gpr a c d b sp v si di
  | ESI => Gpr a c d b sp bp v di | EDI => Gpr a c d b sp bp si v
  end.

Definition get_seg (s : sreg) (g : segs) : Z :=
  match s with
  | ES => s_es g | CS => s_cs g | SS => s_ss g | DS => s_ds g | FS => s_fs g | GS => s_gs g
  end.

Definition put_seg (s : sreg) (v : Z) (g : segs) : segs :=
  let 'Segs e c st d f gs := g in
  match s with
  | ES => Segs v c st d f gs | CS => Segs e v st d f gs | SS => Segs e c v d f gs
  | DS => Segs e c st v f gs | FS => Segs e c st d v gs | GS => Segs e c st d f v
  end.

Definition size (w : width) : Z := match w with WB => 1 | WW => 2 | WL => 4 end.
Definition trunc (w : width) (v : Z) : Z := match w with WB => u8 v | WW => u16 v | WL => u32 v end.

(** The low part of a register. *)
Definition merge (w : width) (old v : Z) : Z :=
  match w with WB => old - u8 old + u8 v | WW => old - u16 old + u16 v | WL => u32 v end.

Definition load (w : width) (m : mem) (a : Z) : Z :=
  match w with WB => read8 m a | WW => read16 m a | WL => read32 m a end.
Definition store (w : width) (m : mem) (a v : Z) : mem :=
  match w with WB => write8 m a v | WW => write16 m a v | WL => write32 m a v end.

(** Bits of the flags. *)
Definition CF : Z := 0.
Definition ZF : Z := 6.
Definition IF : Z := 9.
Definition DF : Z := 10.
Definition fput (k : Z) (b : bool) (f : Z) : Z := if b then Z.setbit f k else Z.clearbit f k.

(** The linear address of an offset in a segment. *)
Definition linear (s off : Z) (c : cpu) : Z := if wide c then u32 off else 16 * s + u16 off.

(** What the linker and the firmware decide. *)
Record link := Link {
  sym : string → Z;              (* the address of a label *)
  addr : nat → Z;                (* the address of a line *)
  place_of : Z → place;          (* the line at an address *)
  bios : Z → cpu → cpu           (* int n in real mode *)
}.

Section Exec.
Context (lk : link) (code : list line).

Definition ea (o : opnd) (c : cpu) : option Z :=
  match o with
  | Ind k r => Some (linear (s_ds (sg c)) (get_reg r (rs c) + k) c)
  | Abs v => Some (linear (s_ds (sg c)) v c)
  | Var l k => Some (linear (s_ds (sg c)) (sym lk l + k) c)
  | _ => None
  end.

Definition get (w : width) (o : opnd) (c : cpu) : Z :=
  match o with
  | Imm v => trunc w v
  | Sym l k => trunc w (sym lk l + k)
  | Rg r => trunc w (get_reg r (rs c))
  | Hi r => u8 (Z.shiftr (get_reg r (rs c)) 8)
  | Sg s => get_seg s (sg c)
  | CR0 => cr0 c
  | _ => match ea o c with Some a => load w (mm c) a | None => 0 end
  end.

Definition put (w : width) (o : opnd) (v : Z) (c : cpu) : option cpu :=
  match o with
  | Imm _ | Sym _ _ => None
  | Rg r => Some (set_rs (put_reg r (merge w (get_reg r (rs c)) v) (rs c)) c)
  | Hi r => let x := get_reg r (rs c) in
            Some (set_rs (put_reg r (x - 256 * u8 (Z.shiftr x 8) + 256 * u8 v) (rs c)) c)
  | Sg s => Some (set_sg (put_seg s (u16 v) (sg c)) c)
  | CR0 => Some (set_cr0 (u32 v) c)
  | _ => match ea o c with Some a => Some (set_mm (store w (mm c) a v) c) | None => None end
  end.

(** The stack: the stack pointer is [%sp] before protected mode. *)
Definition sp_add (k : Z) (c : cpu) : Z :=
  let sp := r_esp (rs c) in if wide c then u32 (sp + k) else sp - u16 sp + u16 (sp + k).
Definition set_sp (v : Z) (c : cpu) : cpu := set_rs (put_reg ESP v (rs c)) c.
Definition top (c : cpu) : Z := linear (s_ss (sg c)) (r_esp (rs c)) c.

Definition push (w : width) (v : Z) (c : cpu) : cpu :=
  let c := set_sp (sp_add (- size w) c) c in set_mm (store w (mm c) (top c) v) c.
Definition pop (w : width) (c : cpu) : Z * cpu :=
  (load w (mm c) (top c), set_sp (sp_add (size w) c) c).

(** The order of [pusha]; [%esp] is the one before it. *)
Definition pusha_order : list reg := [EAX; ECX; EDX; EBX; ESP; EBP; ESI; EDI].

Definition pusha (w : width) (c : cpu) : cpu :=
  foldl (λ c' r, push w (get_reg r (rs c)) c') c pusha_order.
Definition popa (w : width) (c : cpu) : cpu :=
  foldr (λ r c', let '(v, c'') := pop w c' in
    match r with
    | ESP => c''
    | _ => set_rs (put_reg r (merge w (get_reg r (rs c'')) v) (rs c'')) c''
    end) c pusha_order.

(** The flags after an operation on words: zero and carry. *)
Definition flags (z cy : bool) (c : cpu) : cpu := set_fl (fput ZF z (fput CF cy (fl c))) c.

Definition logic (f : Z → Z → Z) (w : width) (src dst : opnd) (c : cpu) : option cpu :=
  let v := f (get w dst c) (get w src c) in put w dst v (flags (v =? 0) false c).

(** The line after a label. *)
Fixpoint find_label (l : string) (ls : list line) : option nat :=
  match ls with
  | [] => None
  | Lab l' :: ls => if String.eqb l l' then Some 0%nat else option_map S (find_label l ls)
  | _ :: ls => option_map S (find_label l ls)
  end.

Definition goto (l : string) (c : cpu) : cpu :=
  set_pc (match find_label l code with Some i => At i | None => Out (sym lk l) end) c.

Definition branch (b : bool) (l : string) (c : cpu) : cpu := if b then goto l c else c.

Definition ret_width (c : cpu) : width := if wide c then WL else WW.

(** [rep stosb]: [%al] to [%ecx] bytes at [%es:%edi] (the 16-bit registers in real
    mode), upwards. *)
Fixpoint stosb (n : nat) (c : cpu) : cpu :=
  match n with
  | O => c
  | S n =>
    let g := rs c in
    let c := set_mm (write8 (mm c) (linear (s_es (sg c)) (r_edi g) c) (r_eax g)) c in
    let w := ret_width c in
    stosb n (set_rs (put_reg ECX (merge w (r_ecx g) (r_ecx g - 1))
                       (put_reg EDI (merge w (r_edi g) (r_edi g + 1)) g)) c)
  end.

(** [iret]: to an outer privilege level it also loads the stack. *)
Definition iret (c : cpu) : cpu :=
  let cpl := Z.land (s_cs (sg c)) 3 in
  let '(eip, c) := pop WL c in
  let '(cs, c) := pop WL c in
  let '(f, c) := pop WL c in
  let c := set_pc (place_of lk eip) (set_sg (put_seg CS (u16 cs) (sg c)) (set_fl f c)) in
  if cpl <? Z.land (u16 cs) 3 then
    let '(esp, c) := pop WL c in
    let '(ss, c) := pop WL c in
    set_sp esp (set_sg (put_seg SS (u16 ss) (sg c)) c)
  else c.

(** One instruction; [i] is its line, and the program counter is already after it. *)
Definition exec (i : nat) (ins_ : instr) (c : cpu) : option cpu :=
  match ins_ with
  | Cli => Some (set_fl (fput IF false (fl c)) c)
  | Cld => Some (set_fl (fput DF false (fl c)) c)
  | Hlt => Some (set_halted true c)
  | Ret => let '(a, c) := pop (ret_width c) c in Some (set_pc (place_of lk a) c)
  | Iret => Some (iret c)
  | Popf => let '(f, c) := pop (ret_width c) c in Some (set_fl f c)
  | Lodsb =>
    let si := r_esi (rs c) in
    let v := read8 (mm c) (linear (s_ds (sg c)) si c) in
    Some (set_rs (put_reg EAX (merge WB (r_eax (rs c)) v)
                    (put_reg ESI (merge (ret_width c) si (si + 1)) (rs c))) c)
  | RepStosb => Some (stosb (Z.to_nat (trunc (ret_width c) (r_ecx (rs c)))) c)
  | Push w o => Some (push w (get w o c) c)
  | Pop w o => let '(v, c) := pop w c in put w o v c
  | Pusha w => Some (pusha w c)
  | Popa w => Some (popa w c)
  | Mov w src dst => put w dst (get w src c) c
  | Add w src dst =>
    let v := get w dst c + get w src c in
    put w dst v (flags (trunc w v =? 0) (negb (trunc w v =? v)) c)
  | Xor w src dst => logic Z.lxor w src dst c
  | Or w src dst => logic Z.lor w src dst c
  | Cmp w src dst => Some (flags (get w dst c =? get w src c) (get w dst c <? get w src c) c)
  | Test w src dst => Some (flags (Z.land (get w dst c) (get w src c) =? 0) false c)
  | Jmp l => Some (goto l c)
  | Je l => Some (branch (Z.testbit (fl c) ZF) l c)
  | Jne l => Some (branch (negb (Z.testbit (fl c) ZF)) l c)
  | Jc l => Some (branch (Z.testbit (fl c) CF) l c)
  | Jmpi o => Some (set_pc (place_of lk (get (ret_width c) o c)) c)
  | Call l => Some (goto l (push (ret_width c) (addr lk (S i)) c))
  | Calli o => let a := get WL o c in Some (set_pc (place_of lk a) (push (ret_width c) (addr lk (S i)) c))
  | Ljmp sel l =>
    (* with protection enabled, into a 32-bit code segment *)
    Some (goto l (set_wide (Z.testbit (cr0 c) 0) (set_sg (put_seg CS sel (sg c)) c)))
  | Lgdt l =>
    let a := linear (s_ds (sg c)) (sym lk l) c in
    Some (set_gdtr (read16 (mm c) a, read32 (mm c) (a + 2)) c)
  | Int n => Some (bios lk n c)
  | Inb _ =>
    match ins c with
    | v :: vs => put WB (Rg EAX) v (set_io vs (outs c) c)
    | [] => None
    end
  | Outb p => Some (set_io (ins c) (outs c ++ [(p, u8 (r_eax (rs c)))]) c)
  end.

Definition step (c : cpu) : option cpu :=
  if halted c then None
  else match pc c with
  | Out _ => None
  | At i =>
    match code !! i with
    | Some (Lab _) => Some (set_pc (At (S i)) c)
    | Some (Ins ins_) => exec i ins_ (set_pc (At (S i)) c)
    | _ => None
    end
  end.

Fixpoint run (n : nat) (c : cpu) : cpu :=
  match n with
  | O => c
  | S n => match step c with Some c' => run n c' | None => c end
  end.
End Exec.

(** Where a label of a file is, and a state of the kernel's code there: protected mode,
    running. *)
Definition entry_in (code : list line) (l : string) : place := default (Out 0) (At <$> find_label l code).

(** The data of a file in memory: bytes and addresses of labels, from [a] on. *)
Fixpoint data_at (lk : link) (m : mem) (a : Z) (ls : list line) : Prop :=
  match ls with
  | Data bs :: ls => read_bytes m a (Z.of_nat (length bs)) = bs ∧ data_at lk m (a + Z.of_nat (length bs)) ls
  | Long l :: ls => read32 m a = sym lk l ∧ data_at lk m (a + 4) ls
  | _ => True
  end.

Definition data_of (lk : link) (code : list line) (l : string) (m : mem) : Prop :=
  match find_label l code with Some i => data_at lk m (sym lk l) (drop (S i) code) | None => False end.

Definition at_entry (code : list line) (l : string) (c : cpu) : Prop :=
  wide c = true ∧ halted c = false ∧ pc c = entry_in code l.

(** Registers of 32 bits and selectors of 16. *)
Record machine_ok (c : cpu) : Prop := {
  regs_u32 : ∀ r, is_u32 (get_reg r (rs c));
  segs_u16 : ∀ s, 0 ≤ get_seg s (sg c) < 65536;
  fl_u32 : is_u32 (fl c)
}.

(** ** Running *)

Section Run.
Context (lk : link) (code : list line).

Lemma run_step n c c' : step lk code c = Some c' → run lk code (S n) c = run lk code n c'.
Proof. intros H. cbn [run]. by rewrite H. Qed.

Lemma run_stop n c : step lk code c = None → run lk code n c = c.
Proof. intros H. destruct n; [done|]. cbn [run]. by rewrite H. Qed.

Lemma run_add n k c : run lk code (n + k) c = run lk code k (run lk code n c).
Proof.
  revert c. induction n as [|n IH]; intros c; [done|]. cbn [Nat.add run].
  destruct (step lk code c) eqn:E; [apply IH|]. by rewrite run_stop.
Qed.

Lemma step_ins c i x :
  halted c = false → pc c = At i → code !! i = Some (Ins x) →
  step lk code c = exec lk code i x (set_pc (At (S i)) c).
Proof. intros Hh Hp Hn. unfold step. by rewrite Hh, Hp, Hn. Qed.

Lemma step_lab c i l :
  halted c = false → pc c = At i → code !! i = Some (Lab l) →
  step lk code c = Some (set_pc (At (S i)) c).
Proof. intros Hh Hp Hn. unfold step. by rewrite Hh, Hp, Hn. Qed.

Lemma goto_label l i c : find_label l code = Some i → goto lk code l c = set_pc (At i) c.
Proof. intros H. unfold goto. by rewrite H. Qed.

Lemma goto_out l c : find_label l code = None → goto lk code l c = set_pc (Out (sym lk l)) c.
Proof. intros H. unfold goto. by rewrite H. Qed.

(** Once the control has left the file the state is final, however long it may run. *)
Lemma run_left n k c c' a :
  run lk code n c = c' → pc c' = Out a → (n ≤ k)%nat → run lk code k c = c'.
Proof.
  intros H Hp Hk. replace k with (n + (k - n))%nat by lia. rewrite run_add, H.
  apply run_stop. unfold step. rewrite Hp. by destruct (halted c').
Qed.
End Run.

(** ** Flags and stack words *)

Lemma fput_eq k b f : 0 ≤ k → Z.testbit (fput k b f) k = b.
Proof.
  intros. unfold fput. destruct b; [by apply Z.setbit_eq|by apply Z.clearbit_eq].
Qed.

Lemma fput_ne k j b f : 0 ≤ k → j ≠ k → Z.testbit (fput k b f) j = Z.testbit f j.
Proof.
  intros. unfold fput. destruct b; [by apply Z.setbit_neq|by apply Z.clearbit_neq].
Qed.

Lemma u32_u32_add x k : u32 (u32 x + k) = u32 (x + k).
Proof. unfold u32. by rewrite Zplus_mod_idemp_l. Qed.

Lemma u32_u32 x : u32 (u32 x) = u32 x.
Proof. unfold u32. by rewrite Z.mod_mod. Qed.

Lemma u16_fits x : 0 ≤ x < 65536 → u16 x = x.
Proof. apply Z.mod_small. Qed.

Lemma testbit_u32 x k : 0 ≤ k < 32 → Z.testbit (u32 x) k = Z.testbit x k.
Proof. intros Hk. unfold u32. change two32 with (2 ^ 32). apply Z.mod_pow2_bits_low. lia. Qed.

Lemma u16_u16 x : u16 (u16 x) = u16 x.
Proof. unfold u16. by rewrite Z.mod_mod. Qed.

Lemma u16_merge x v : u16 (x - u16 x + u16 v) = u16 v.
Proof. unfold u16. Z.to_euclidean_division_equations. lia. Qed.

Lemma u16_u32 x : u16 (u32 x) = u16 x.
Proof. unfold u16, u32, two32. Z.to_euclidean_division_equations. lia. Qed.

Lemma fput_u32 k b f : 0 ≤ k < 32 → is_u32 f → is_u32 (fput k b f).
Proof.
  intros Hk [H0 H1]. assert (0 ≤ fput k b f) as Hn.
  { unfold fput. destruct b; [rewrite Z.setbit_spec' by lia|rewrite Z.clearbit_spec' by lia].
    - apply Z.lor_nonneg. split; [done|]. apply Z.pow_nonneg. lia.
    - apply Z.ldiff_nonneg. by left. }
  split; [done|]. destruct (decide (fput k b f = 0)) as [E|E]; [by rewrite E|].
  apply (Z.log2_lt_pow2 _ 32); [lia|]. apply Z.nle_gt. intros Hl.
  pose proof (Z.bit_log2 (fput k b f) ltac:(lia)) as Hb. rewrite fput_ne in Hb by lia.
  destruct (decide (f = 0)) as [->|]; [by rewrite Z.bits_0 in Hb|].
  rewrite Z.bits_above_log2 in Hb; [done|done|].
  eapply Z.lt_le_trans; [|exact Hl]. apply Z.log2_lt_pow2; [lia|done].
Qed.

(** Words pushed one after the other, below [a]. *)
Fixpoint pushed (m : mem) (a : Z) (vs : list Z) : mem :=
  match vs with
  | [] => m
  | v :: vs => pushed (write32 m (a - 4) v) (a - 4) vs
  end.

Lemma pushed_frame m a vs x :
  x < a - 4 * Z.of_nat (length vs) ∨ a ≤ x → read8 (pushed m a vs) x = read8 m x.
Proof.
  revert m a. induction vs as [|v vs IH]; intros m a H; [done|]. cbn [pushed length] in *.
  rewrite IH by lia. rewrite read8_write32. by rewrite decide_False by lia.
Qed.

Lemma pushed_word m a vs i v :
  vs !! i = Some v → read32 (pushed m a vs) (a - 4 * Z.of_nat (S i)) = u32 v.
Proof.
  revert m a i. induction vs as [|w vs IH]; intros m a i H; [done|].
  destruct i as [|i]; cbn [pushed].
  - injection H as ->. replace (a - 4 * Z.of_nat 1) with (a - 4) by lia.
    rewrite (read32_ext (write32 m (a - 4) v)); [apply read32_write32_eq|].
    intros x Hx. apply pushed_frame. lia.
  - replace (a - 4 * Z.of_nat (S (S i))) with (a - 4 - 4 * Z.of_nat (S i)) by lia. by apply IH.
Qed.

Lemma pushed_app m a vs ws :
  pushed m a (vs ++ ws) = pushed (pushed m a vs) (a - 4 * Z.of_nat (length vs)) ws.
Proof.
  revert m a. induction vs as [|v vs IH]; intros m a; cbn [app pushed length].
  - by rewrite Z.sub_0_r.
  - rewrite IH. f_equal. lia.
Qed.

Lemma write32_congr m m' a a' v v' : m = m' → a = a' → v = v' → write32 m a v = write32 m' a' v'.
Proof. by intros -> -> ->. Qed.

Lemma cpu_congr g g' s s' p p' f f' cr gd w h m m' i o :
  g = g' → s = s' → p = p' → f = f' → m = m' →
  Cpu g s p f cr gd w h m i o = Cpu g' s' p' f' cr gd w h m' i o.
Proof. by intros -> -> -> -> ->. Qed.

Lemma gpr_congr a a' c c' d d' b b' sp sp' bp bp' si si' di di' :
  a = a' → c = c' → d = d' → b = b' → sp = sp' → bp = bp' → si = si' → di = di' →
  Gpr a c d b sp bp si di = Gpr a' c' d' b' sp' bp' si' di'.
Proof. by intros -> -> -> -> -> -> -> ->. Qed.

(** Equality of two states, up to the arithmetic of the addresses. *)
Ltac asm_eq :=
  lazymatch goal with
  | |- Cpu _ _ _ _ _ _ _ _ _ _ _ = _ => apply cpu_congr; asm_eq
  | |- Gpr _ _ _ _ _ _ _ _ = _ => apply gpr_congr; asm_eq
  | |- write32 _ _ _ = write32 _ _ _ => apply write32_congr; asm_eq
  | |- read32 ?m _ = read32 ?m _ => apply (f_equal (read32 m)); lia
  | |- @eq Z _ _ => first [lia | reflexivity | idtac]
  | |- _ => first [reflexivity | idtac]
  end.

(** The fields of a state. *)
Ltac asm_state :=
  cbv [set_rs set_sg set_pc set_fl set_cr0 set_gdtr set_wide set_halted set_mm set_io put_reg get_reg
       put_seg get_seg merge rs sg pc fl cr0 gdtr wide halted mm ins outs
       r_eax r_ecx r_edx r_ebx r_esp r_ebp r_esi r_edi s_es s_cs s_ss s_ds s_fs s_gs].

(** ** The stack in protected mode, without wrap-around *)

Section Stack.
Context (a c d b sp bp si di : Z) (s : segs) (p : place) (f cr : Z) (gd : Z * Z) (h : bool) (m : mem)
  (i : list Z) (o : list (Z * Z)).

Lemma push_words v :
  4 ≤ sp → is_u32 sp →
  push WL v (Cpu (Gpr a c d b sp bp si di) s p f cr gd true h m i o) =
  Cpu (Gpr a c d b (sp - 4) bp si di) s p f cr gd true h (write32 m (sp - 4) v) i o.
Proof.
  intros H4 Hsp. unfold is_u32 in Hsp. cbv -[u32 write32 Z.add Z.sub Z.opp].
  change (- (4)) with (-4). rewrite !(u32_small (sp + -4)) by (unfold is_u32, two32 in *; lia).
  by replace (sp + -4) with (sp - 4) by lia.
Qed.

Lemma pop_words :
  is_u32 (sp + 4) → 0 ≤ sp →
  pop WL (Cpu (Gpr a c d b sp bp si di) s p f cr gd true h m i o) =
  (read32 m sp, Cpu (Gpr a c d b (sp + 4) bp si di) s p f cr gd true h m i o).
Proof.
  intros H4 Hsp. cbv -[u32 read32 Z.add]. rewrite !u32_small; [done|done|].
  unfold is_u32, two32 in *. lia.
Qed.
End Stack.

Lemma pusha_words a c d b sp bp si di s p f cr gd h m i o :
  32 ≤ sp → is_u32 sp →
  pusha WL (Cpu (Gpr a c d b sp bp si di) s p f cr gd true h m i o) =
  Cpu (Gpr a c d b (sp - 32) bp si di) s p f cr gd true h (pushed m sp [a; c; d; b; sp; bp; si; di]) i o.
Proof.
  intros H4 Hsp. unfold is_u32, two32 in Hsp. unfold pusha, pusha_order. cbn [foldl rs get_reg r_eax r_ecx r_edx r_ebx
    r_esp r_ebp r_esi r_edi].
  rewrite !push_words by (unfold is_u32, two32; lia). cbn [pushed].
  by replace (sp - 4 - 4 - 4 - 4 - 4 - 4 - 4 - 4) with (sp - 32) by lia.
Qed.

Lemma popa_words a c d b sp bp si di s p f cr gd h m i o :
  is_u32 (sp + 32) → 0 ≤ sp →
  popa WL (Cpu (Gpr a c d b sp bp si di) s p f cr gd true h m i o) =
  Cpu (Gpr (read32 m (sp + 28)) (read32 m (sp + 24)) (read32 m (sp + 20)) (read32 m (sp + 16)) (sp + 32)
         (read32 m (sp + 8)) (read32 m (sp + 4)) (read32 m sp)) s p f cr gd true h m i o.
Proof.
  intros H4 Hsp. unfold is_u32, two32 in H4. unfold popa, pusha_order. cbn [foldr].
  do 8 (rewrite pop_words by (unfold is_u32, two32; lia); asm_state).
  rewrite !(u32_small (read32 _ _)) by apply read32_range.
  asm_eq.
Qed.

Lemma iret_words lk a c d b sp bp si di s p f cr gd h m i o :
  is_u32 (sp + 20) → 0 ≤ sp → Z.land (s_cs s) 3 < Z.land (read16 m (sp + 4)) 3 →
  iret lk (Cpu (Gpr a c d b sp bp si di) s p f cr gd true h m i o) =
  Cpu (Gpr a c d b (read32 m (sp + 12)) bp si di)
    (put_seg SS (read16 m (sp + 16)) (put_seg CS (read16 m (sp + 4)) s)) (place_of lk (read32 m sp))
    (read32 m (sp + 8)) cr gd true h m i o.
Proof.
  intros H4 Hsp Hc. unfold is_u32, two32 in H4. unfold iret. rewrite !read16_read32 in *.
  rewrite pop_words by (unfold is_u32, two32; lia). cbv beta iota.
  rewrite pop_words by (unfold is_u32, two32; lia). cbv beta iota.
  rewrite pop_words by (unfold is_u32, two32; lia). asm_state.
  replace (_ <? _) with true by (symmetry; by apply Z.ltb_lt). cbv beta iota.
  rewrite pop_words by (unfold is_u32, two32; lia). cbv beta iota.
  rewrite pop_words by (unfold is_u32, two32; lia). unfold set_sp. asm_state.
  replace (sp + 4 + 4) with (sp + 8) by lia. replace (sp + 8 + 4) with (sp + 12) by lia.
  by replace (sp + 12 + 4) with (sp + 16) by lia.
Qed.

(** ** Symbolic execution: one line of a state written with its constructor *)

Ltac asm_cbv := cbv [exec get put ea push pop linear sp_add set_sp top size trunc load store flags logic
  branch ret_width]; asm_state.

Ltac asm_step :=
  first
  [ erewrite run_step;
    [|erewrite step_lab; [|reflexivity|reflexivity|reflexivity]; asm_cbv; reflexivity]
  | erewrite run_step;
    [|erewrite step_ins; [|reflexivity|reflexivity|reflexivity]; asm_cbv; reflexivity] ].

(** Sums of addresses that do not wrap, the innermost first. *)
Ltac asm_addr :=
  repeat match goal with
  | |- context [u32 ?x] =>
    lazymatch x with
    | context [u32] => fail
    | _ => rewrite (u32_small x) by (unfold is_u32, two32 in *; lia)
    end
  end; rewrite ?u32_u32.
