(* ===== verification/TrapAsm.v ===== *)
(** The assembly code of the traps and of the switch between threads (idt.S and
    cswitch.S): the frame an interrupt leaves for [trap], the registers [trap_return]
    gives back, and the registers a thread finds again after a switch. *)
From stdpp Require Import base list gmap strings.
From S2P Require Import Prelude Memory Spinlock Tcb Signal TrapNumbers Machine Intc Cpus CpusProps Asm.
Local Open Scope string_scope.
Local Open Scope list_scope.
Local Open Scope Z_scope.

(** ** idt.S *)

(** For traps where the processor pushes an error code. *)
Definition TRAPHANDLER (name : string) (num : Z) : list line :=
  [Lab name; Ins (Push WL (Imm num)); Ins (Jmp "_alltraps")].

Definition TRAPHANDLER_NOEC (name : string) (num : Z) : list line :=
  [Lab name; Ins (Push WL (Imm 0)); Ins (Push WL (Imm num)); Ins (Jmp "_alltraps")].

Definition trap_handlers : list line := mjoin [
  TRAPHANDLER_NOEC "Xdivide" T_DIVIDE;
  TRAPHANDLER_NOEC "Xdebug" T_DEBUG;
  TRAPHANDLER_NOEC "Xnmi" T_NMI;
  TRAPHANDLER_NOEC "Xbrkpt" T_BRKPT;
  TRAPHANDLER_NOEC "Xoflow" T_OFLOW;
  TRAPHANDLER_NOEC "Xbound" T_BOUND;
  TRAPHANDLER_NOEC "Xillop" T_ILLOP;
  TRAPHANDLER_NOEC "Xdevice" T_DEVICE;
  TRAPHANDLER "Xdblflt" T_DBLFLT;
  TRAPHANDLER_NOEC "Xcoproc" T_COPROC;
  TRAPHANDLER "Xtss" T_TSS;
  TRAPHANDLER "Xsegnp" T_SEGNP;
  TRAPHANDLER "Xstack" T_STACK;
  TRAPHANDLER "Xgpflt" T_GPFLT;
  TRAPHANDLER "Xpgflt" T_PGFLT;
  TRAPHANDLER_NOEC "Xres" T_RES;
  TRAPHANDLER_NOEC "Xfperr" T_FPERR;
  TRAPHANDLER "Xalign" T_ALIGN;
  TRAPHANDLER_NOEC "Xmchk" T_MCHK;
  TRAPHANDLER_NOEC "Xirq_timer" (T_IRQ0 + IRQ_TIMER);
  TRAPHANDLER_NOEC "Xirq_kbd" (T_IRQ0 + IRQ_KBD);
  TRAPHANDLER_NOEC "Xirq_slave" (T_IRQ0 + IRQ_SLAVE);
  TRAPHANDLER_NOEC "Xirq_serial2" (T_IRQ0 + IRQ_SERIAL24);
  TRAPHANDLER_NOEC "Xirq_serial1" (T_IRQ0 + IRQ_SERIAL13);
  TRAPHANDLER_NOEC "Xirq_lpt" (T_IRQ0 + IRQ_LPT2);
  TRAPHANDLER_NOEC "Xirq_floppy" (T_IRQ0 + IRQ_FLOPPY);
  TRAPHANDLER_NOEC "Xirq_spurious" (T_IRQ0 + IRQ_SPURIOUS);
  TRAPHANDLER_NOEC "Xirq_rtc" (T_IRQ0 + IRQ_RTC);
  TRAPHANDLER_NOEC "Xirq9" (T_IRQ0 + 9);
  TRAPHANDLER_NOEC "Xirq10" (T_IRQ0 + 10);
  TRAPHANDLER_NOEC "Xirq11" (T_IRQ0 + 11);
  TRAPHANDLER_NOEC "Xirq_mouse" (T_IRQ0 + IRQ_MOUSE);
  TRAPHANDLER_NOEC "Xirq_coproc" (T_IRQ0 + IRQ_COPROCESSOR);
  TRAPHANDLER_NOEC "Xirq_ide1" (T_IRQ0 + IRQ_IDE1);
  TRAPHANDLER_NOEC "Xirq_ide2" (T_IRQ0 + IRQ_IDE2);
  TRAPHANDLER_NOEC "Xsyscall" T_SYSCALL;
  TRAPHANDLER "Xdefault" T_DEFAULT].

Definition alltraps : list line := [
  Lab "_alltraps";
  Ins Cli;
  Ins Cld;
  Ins (Push WL (Sg DS));
  Ins (Push WL (Sg ES));
  Ins (Pusha WL);
  Ins (Mov WL (Imm CPU_GDT_KDATA) (Rg EAX));
  Ins (Mov WW (Rg EAX) (Sg DS));
  Ins (Mov WW (Rg EAX) (Sg ES));
  Ins (Push WL (Rg ESP));
  Ins (Call "trap");
  Ins Hlt].

Definition trap_return_S : list line := [
  Lab "trap_return";
  Ins (Mov WL (Ind 4 ESP) (Rg ESP));
  Ins (Popa WL);
  Ins (Pop WL (Sg ES));
  Ins (Pop WL (Sg DS));
  Ins (Add WL (Imm 8) (Rg ESP));
  Ins Iret].

Definition idt_S : list line := trap_handlers ++ alltraps ++ trap_return_S.

(** The trap frame at an address. *)
Definition load_tf (m : mem) (p : Z) : tf_t :=
  Tf (read32 m p) (read32 m (p + 4)) (read32 m (p + 8)) (read32 m (p + 12)) (read32 m (p + 16))
    (read32 m (p + 20)) (read32 m (p + 24)) (read32 m (p + 28)) (read16 m (p + 32))
    (read16 m (p + 36)) (read32 m (p + 40)) (read32 m (p + 44)) (read32 m (p + 48))
    (read16 m (p + 52)) (read32 m (p + 56)) (read32 m (p + 60)) (read16 m (p + 64)).

(** ** The processor at an interrupt *)

Definition privilege (c : cpu) : Z := Z.land (s_cs (sg c)) 3.

(** The exceptions with an error code: double fault, task segment, missing segment,
    stack, protection, page fault and alignment. *)
Definition pushes_error (v : Z) : bool := bool_decide (v ∈ [8; 10; 11; 12; 13; 14; 17]).

(** From user mode through an interrupt gate: the stack of the task segment, the old
    stack, flags and return address on it, the error code if there is one; interrupts
    off. *)
Definition deliver (ss0 esp0 : Z) (err : option Z) (handler : place) (ip : Z) (c : cpu) : cpu :=
  let old := c in
  let c := set_sp esp0 (set_sg (put_seg SS ss0 (sg c)) c) in
  let c := push WL (r_esp (rs old)) (push WL (s_ss (sg old)) c) in
  let c := push WL ip (push WL (s_cs (sg old)) (push WL (fl old) c)) in
  let c := match err with Some e => push WL e c | None => c end in
  set_pc handler (set_fl (fput IF false (fl c)) (set_sg (put_seg CS CPU_GDT_KCODE (sg c)) c)).

(** What a program can observe of its processor. *)
Record user_view := UserView { v_regs : gpr; v_es : Z; v_ds : Z; v_cs : Z; v_ss : Z; v_fl : Z; v_pc : place }.

Definition view (c : cpu) : user_view :=
  UserView (rs c) (s_es (sg c)) (s_ds (sg c)) (s_cs (sg c)) (s_ss (sg c)) (fl c) (pc c).

Definition view_tf (lk : link) (t : tf_t) : user_view :=
  UserView (Gpr (eax t) (ecx t) (edx t) (ebx t) (esp t) (ebp t) (esi t) (edi t))
    (es t) (ds t) (cs t) (ss t) (eflags t) (place_of lk (eip t)).

Definition frame_of (c : cpu) (ip osp v err : Z) : tf_t :=
  let g := rs c in
  Tf (r_edi g) (r_esi g) (r_ebp g) osp (r_ebx g) (r_edx g) (r_ecx g) (r_eax g)
    (s_es (sg c)) (s_ds (sg c)) v err ip (s_cs (sg c)) (fl c) (r_esp g) (s_ss (sg c)).

(** Where a label of the file is. *)
Definition entry (h : string) : place := entry_in idt_S h.

(** The stub of a handler: its pushes and the jump to [_alltraps]. *)
Definition stub (h : string) (ws : list Z) : list line :=
  Lab h :: ((λ w, Ins (Push WL (Imm w))) <$> ws) ++ [Ins (Jmp "_alltraps")].

Definition is_stub (h : string) (ws : list Z) : Prop :=
  ∃ i, find_label h idt_S = Some i ∧ take (S (S (length ws))) (drop i idt_S) = stub h ws.

(** Every gate of the table leads to a stub that pushes the number of its vector, below
    a zero where the processor pushes no error code; the default does not. *)
Lemma gate_stubs :
  Forall (λ g : Z * string * Z, g.1.2 ≠ "Xdefault" →
    is_stub g.1.2 (if pushes_error g.1.1 then [g.1.1] else [0; g.1.1])) idt_gates.
Proof.
  unfold idt_gates. repeat (apply Forall_cons; split); [..|apply Forall_nil; done];
    intros H; try (by exfalso; apply H); eexists; (split; [vm_compute; reflexivity|vm_compute; reflexivity]).
Qed.

Lemma default_stub : is_stub "Xdefault" [T_DEFAULT].
Proof. eexists. split; vm_compute; reflexivity. Qed.

Section Frame.
Context (lk : link).

Lemma no_trap_label : find_label "trap" idt_S = None.
Proof. vm_compute. reflexivity. Qed.

Lemma entry_alltraps : entry "_alltraps" = At 140.
Proof. vm_compute. reflexivity. Qed.

(** The state in which [trap] is called. *)
Definition trap_called (c : cpu) : cpu :=
  let g := rs c in
  let sp := r_esp g in
  Cpu (Gpr CPU_GDT_KDATA (r_ecx g) (r_edx g) (r_ebx g) (sp - 48) (r_ebp g) (r_esi g) (r_edi g))
    (put_seg ES CPU_GDT_KDATA (put_seg DS CPU_GDT_KDATA (sg c)))
    (Out (sym lk "trap")) (fput DF false (fput IF false (fl c))) (cr0 c) (gdtr c) true false
    (pushed (mm c) sp [s_ds (sg c); s_es (sg c); r_eax g; r_ecx g; r_edx g; r_ebx g; sp - 8;
       r_ebp g; r_esi g; r_edi g; sp - 40; addr lk 151]) (ins c) (outs c).

Lemma alltraps_runs c :
  at_entry idt_S "_alltraps" c → machine_ok c → 48 ≤ r_esp (rs c) → run lk idt_S 11 c = trap_called c.
Proof.
  intros (Hw & Hh & Hp) [Hr Hs Hf] Hsp. fold (entry "_alltraps") in Hp.
  destruct c as [[a cx d b sp bp si di] [e cs st ds f gs] p flg cr gd w h m i o].
  cbn [wide halted pc rs r_esp] in Hw, Hh, Hp, Hsp. rewrite entry_alltraps in Hp. subst w h p.
  pose proof (Hr ESP) as Hb. cbn in Hb. do 6 asm_step.
  asm_addr. rewrite pusha_words by (unfold is_u32, two32 in *; lia).
  do 5 asm_step. cbn [run]. rewrite (goto_out _ _ _ _ no_trap_label). unfold trap_called. asm_state.
  asm_addr. cbn [pushed]. asm_eq.
Qed.

Lemma pushes_run ws : ∀ i a cx d b sp bp si di s f cr gd m ii o,
  (∀ k w, ws !! k = Some w → idt_S !! (i + k)%nat = Some (Ins (Push WL (Imm w)))) →
  Forall is_u32 ws → 4 * Z.of_nat (length ws) ≤ sp → is_u32 sp →
  run lk idt_S (length ws) (Cpu (Gpr a cx d b sp bp si di) s (At i) f cr gd true false m ii o) =
  Cpu (Gpr a cx d b (sp - 4 * Z.of_nat (length ws)) bp si di) s (At (i + length ws)) f cr gd true false
    (pushed m sp ws) ii o.
Proof.
  induction ws as [|w ws IH]; intros * Hc Hu Hsp Hb.
  { cbn. rewrite Z.sub_0_r. by rewrite Nat.add_0_r. }
  apply Forall_cons in Hu as [Hw Hu]. cbn [length] in *. unfold is_u32, two32 in Hb, Hw.
  pose proof (Hc 0%nat w eq_refl) as H0. rewrite Nat.add_0_r in H0.
  erewrite run_step; [|erewrite step_ins; [|done|done|exact H0]; cbn [exec get trunc]; reflexivity].
  rewrite (u32_small w) by done. unfold set_pc. cbn [rs sg fl cr0 gdtr wide halted mm ins outs].
  rewrite push_words by (unfold is_u32, two32; lia). rewrite IH; [|..].
  - cbn [pushed]. asm_eq. f_equal. lia.
  - intros k x Hk. rewrite <- (Hc (S k) x Hk). f_equal. lia.
  - done.
  - lia.
  - unfold is_u32, two32. lia.
Qed.

Lemma stub_tail h ws k :
  stub h ws !! S k = (((λ w, Ins (Push WL (Imm w))) <$> ws) ++ [Ins (Jmp "_alltraps")]) !! k.
Proof. done. Qed.

Lemma stub_line h ws i k x :
  take (S (S (length ws))) (drop i idt_S) = stub h ws → stub h ws !! k = Some x →
  idt_S !! (i + k)%nat = Some x.
Proof.
  intros Ht Hx. rewrite <- lookup_drop, <- Hx, <- Ht.
  symmetry. apply lookup_take_lt. rewrite <- Ht in Hx. apply lookup_lt_Some in Hx.
  rewrite length_take in Hx. lia.
Qed.

(** A stub pushes its words and goes to [_alltraps]. *)
Lemma stub_runs h ws c :
  is_stub h ws → wide c = true → halted c = false → pc c = entry h → machine_ok c →
  Forall is_u32 ws → 4 * Z.of_nat (length ws) ≤ r_esp (rs c) →
  run lk idt_S (S (length ws + 1)) c =
  Cpu (put_reg ESP (r_esp (rs c) - 4 * Z.of_nat (length ws)) (rs c)) (sg c) (entry "_alltraps") (fl c) (cr0 c)
    (gdtr c) true false (pushed (mm c) (r_esp (rs c)) ws) (ins c) (outs c).
Proof.
  intros (i & Ei & Ht) Hw Hh Hp [Hr _ _] Hws Hsp. pose proof (Hr ESP) as Hb.
  unfold entry, entry_in in Hp. rewrite Ei in Hp.
  destruct c as [[a cx d b sp bp si di] sgs p flg cr gd w hl m ii o].
  cbn in Hw, Hh, Hp, Hsp, Hb. subst.
  assert (idt_S !! (S i + length ws)%nat = Some (Ins (Jmp "_alltraps"))) as HJ.
  { replace (S i + length ws)%nat with (i + S (length ws))%nat by lia. apply (stub_line _ _ _ _ _ Ht).
    rewrite stub_tail, lookup_app_r by (by rewrite length_fmap). by rewrite length_fmap, Nat.sub_diag. }
  erewrite run_step; [|apply (step_lab _ _ _ i h); [done|done|]].
  2: { rewrite <- (Nat.add_0_r i). by apply (stub_line _ _ _ 0 _ Ht). }
  unfold set_pc. cbn [rs sg fl cr0 gdtr wide halted mm ins outs]. rewrite run_add, pushes_run; [|..|done|done|done].
  - erewrite run_step; [|erewrite step_ins; [|done|done|exact HJ]; cbn [exec]; reflexivity].
    cbn [run]. erewrite goto_label by (vm_compute; reflexivity). rewrite entry_alltraps. reflexivity.
  - intros k x Hk. replace (S i + k)%nat with (i + S k)%nat by lia. apply (stub_line _ _ _ _ _ Ht).
    rewrite stub_tail, lookup_app_l; [by rewrite list_lookup_fmap, Hk|].
    rewrite length_fmap. by eapply lookup_lt_Some.
Qed.
(** The interrupt itself. *)
Lemma deliver_runs ss0 esp0 err h ip c :
  wide c = true → 24 ≤ esp0 → is_u32 esp0 →
  deliver ss0 esp0 err h ip c =
  let ws := [s_ss (sg c); r_esp (rs c); fl c; s_cs (sg c); ip] ++ option_list err in
  Cpu (put_reg ESP (esp0 - 4 * Z.of_nat (length ws)) (rs c)) (put_seg CS CPU_GDT_KCODE (put_seg SS ss0 (sg c)))
    h (fput IF false (fl c)) (cr0 c) (gdtr c) true (halted c) (pushed (mm c) esp0 ws) (ins c) (outs c).
Proof.
  intros Hw H24 Hu. destruct c as [[a cx d b sp bp si di] [e cs st ds f gs] p flg cr gd w hl m ii o].
  cbn in Hw. subst w. unfold deliver, set_sp. asm_state. unfold is_u32, two32 in Hu.
  rewrite !push_words by (unfold is_u32, two32; lia).
  destruct err as [x|]; cbn [option_list option_rect]; [rewrite push_words by (unfold is_u32, two32; lia)|];
    asm_state; cbn [app pushed length]; asm_eq.
Qed.
End Frame.

(** The frame read back from the words pushed. *)
Lemma load_tf_pushed m a rest w0 w1 w2 w3 w4 w5 w6 w7 w8 w9 w10 w11 w12 w13 w14 w15 w16 :
  load_tf (pushed m a ([w0; w1; w2; w3; w4; w5; w6; w7; w8; w9; w10; w11; w12; w13; w14; w15; w16] ++ rest))
    (a - 68) =
  Tf (u32 w16) (u32 w15) (u32 w14) (u32 w13) (u32 w12) (u32 w11) (u32 w10) (u32 w9) (u16 (u32 w8))
    (u16 (u32 w7)) (u32 w6) (u32 w5) (u32 w4) (u16 (u32 w3)) (u32 w2) (u32 w1) (u16 (u32 w0)).
Proof.
  assert (∀ i b v, b = a - 4 * Z.of_nat (S i) →
    ([w0; w1; w2; w3; w4; w5; w6; w7; w8; w9; w10; w11; w12; w13; w14; w15; w16] ++ rest) !! i = Some v →
    read32 (pushed m a ([w0; w1; w2; w3; w4; w5; w6; w7; w8; w9; w10; w11; w12; w13; w14; w15; w16] ++ rest)) b
    = u32 v) as H by (intros i b v ->; apply pushed_word).
  unfold load_tf. rewrite !read16_read32.
  rewrite (H 16%nat (a - 68) w16), (H 15%nat _ w15), (H 14%nat _ w14), (H 13%nat _ w13), (H 12%nat _ w12),
    (H 11%nat _ w11), (H 10%nat _ w10), (H 9%nat _ w9), (H 8%nat _ w8), (H 7%nat _ w7), (H 6%nat _ w6),
    (H 5%nat _ w5), (H 4%nat _ w4), (H 3%nat _ w3), (H 2%nat _ w2), (H 1%nat _ w1), (H 0%nat _ w0)
    by (lia || done). done.
Qed.

(** ** The entry *)

(** The handler a vector's gate leads to, other than the default. *)
Definition gated (v : Z) (h : string) : Prop := (gate_of idt_gates v).1 = h ∧ h ≠ "Xdefault".

Lemma gated_stub v h : gated v h → is_stub h (if pushes_error v then [v] else [0; v]).
Proof.
  unfold gated, gate_of. destruct (last _) as [[[v' h'] dpl]|] eqn:E; cbn; intros [<- Hd]; [|done].
  apply last_Some_elem_of in E as [Hv Hin]%list_elem_of_filter. cbn in Hv. subst v'.
  pose proof gate_stubs as H. rewrite Forall_forall in H. specialize (H _ Hin). cbn in H.
  by apply H.
Qed.

Section Entry.
Context (lk : link).

(** A program of user mode, stopped at [ip]. *)
Record in_user (ip : Z) (c : cpu) : Prop := {
  u_ok : machine_ok c; u_wide : wide c = true; u_run : halted c = false;
  u_priv : privilege c = 3; u_pc : pc c = place_of lk ip; u_ip : is_u32 ip
}.

(** The words on the stack when [trap] is called. *)
Definition trap_words (c : cpu) (ip : Z) (ws : list Z) (sp : Z) : list Z :=
  [s_ss (sg c); r_esp (rs c); fl c; s_cs (sg c); ip] ++ ws ++
  [s_ds (sg c); s_es (sg c); r_eax (rs c); r_ecx (rs c); r_edx (rs c); r_ebx (rs c); sp - 8;
   r_ebp (rs c); r_esi (rs c); r_edi (rs c); sp - 40; addr lk 151].

Lemma put_esp v g : r_esp (put_reg ESP v g) = v.
Proof. by destruct g. Qed.

Lemma put_esp2 v w g : put_reg ESP v (put_reg ESP w g) = put_reg ESP v g.
Proof. by destruct g. Qed.

Lemma machine_ok_sp c sp sgs p f cr gd w h m i o :
  machine_ok c → is_u32 sp → (∀ s, 0 ≤ get_seg s sgs < 65536) → is_u32 f →
  machine_ok (Cpu (put_reg ESP sp (rs c)) sgs p f cr gd w h m i o).
Proof.
  intros [Hr _ _] Hsp Hs Hf. split; [|done|done]. intros r. specialize (Hr r).
  destruct (rs c). by destruct r.
Qed.

Lemma segs_trap c ss0 :
  machine_ok c → 0 ≤ ss0 < 65536 →
  ∀ s, 0 ≤ get_seg s (put_seg CS CPU_GDT_KCODE (put_seg SS ss0 (sg c))) < 65536.
Proof. intros [_ Hs _] Hss s. specialize (Hs s). destruct (sg c). by destruct s. Qed.

(** An interrupt through a stub that pushes [ws]. *)
Lemma enters ss0 esp0 err h ws ip c :
  in_user ip c → is_stub h ws → Forall is_u32 ws → (length (option_list err ++ ws) ≤ 2)%nat →
  76 ≤ esp0 → is_u32 esp0 → 0 ≤ ss0 < 65536 →
  let es := option_list err ++ ws in
  let sp := esp0 - 20 - 4 * Z.of_nat (length es) in
  let c1 := run lk idt_S 15 (deliver ss0 esp0 err (entry h) ip c) in
  pc c1 = Out (sym lk "trap") ∧ r_esp (rs c1) = sp - 48
  ∧ sg c1 = Segs CPU_GDT_KDATA CPU_GDT_KCODE ss0 CPU_GDT_KDATA (s_fs (sg c)) (s_gs (sg c))
  ∧ fl c1 = fput DF false (fput IF false (fput IF false (fl c)))
  ∧ mm c1 = pushed (mm c) esp0 (trap_words c ip es sp)
  ∧ wide c1 = true ∧ halted c1 = false.
Proof.
  intros [Hok Hw Hh _ _ Hip] Hst Hws Hl H76 Hu Hss es sp. unfold is_u32, two32 in Hu.
  rewrite length_app in Hl.
  assert (sp = esp0 - 20 - 4 * Z.of_nat (length (option_list err)) - 4 * Z.of_nat (length ws)) as Esp
    by (unfold sp, es; rewrite length_app; lia).
  set (c0 := deliver _ _ _ _ _ _). pose proof (deliver_runs ss0 esp0 err (entry h) ip c Hw ltac:(lia) Hu) as E0.
  fold c0 in E0. cbn zeta in E0. rewrite length_app, Hh in E0. cbn [length] in E0.
  assert (machine_ok c0) as Hok0.
  { rewrite E0. apply machine_ok_sp; [done|unfold is_u32, two32; lia|by apply segs_trap|].
    apply fput_u32; [done|apply Hok]. }
  pose proof (stub_runs lk h ws c0 Hst) as E1. rewrite E0 in E1 at 1 2 3.
  cbn [wide halted pc] in E1. specialize (E1 eq_refl eq_refl eq_refl Hok0 Hws).
  rewrite E0 in E1. cbn [rs sg fl cr0 gdtr mm ins outs] in E1. rewrite put_esp, put_esp2 in E1.
  specialize (E1 ltac:(lia)). rewrite <- E0 in E1.
  set (c2 := Cpu _ _ (entry "_alltraps") _ _ _ _ _ _ _ _) in E1.
  assert (run lk idt_S 11 c2 = trap_called lk c2) as E2.
  { apply alltraps_runs; [done| |unfold c2; cbn [rs]; rewrite put_esp; lia].
    apply machine_ok_sp; [done|unfold is_u32, two32; lia|by apply segs_trap|]. apply fput_u32; [done|apply Hok]. }
  pose proof (run_add lk idt_S (S (length ws + 1)) 11 c0) as Er. rewrite E1, E2 in Er.
  rewrite (run_left _ _ _ 15 _ _ _ Er eq_refl) by lia.
  unfold trap_called, c2. clear Er E2 E1 E0 Hok0 c2 c0 Hok.
  destruct c as [[a cx d b esp bp si di] [e cs st ds f gs] p flg cr gd w hl m ii o].
  cbn [pc rs sg fl cr0 gdtr mm ins outs wide halted put_reg put_seg r_esp r_eax r_ecx r_edx r_ebx r_ebp r_esi
    r_edi s_ds s_es s_fs s_gs].
  replace (esp0 - 4 * Z.of_nat (5 + length (option_list err)) - 4 * Z.of_nat (length ws)) with sp by lia.
  split_and!; try done. unfold trap_words. cbn [sg rs fl s_ss r_esp s_cs s_ds s_es r_eax r_ecx r_edx r_ebx r_ebp
    r_esi r_edi]. unfold es. rewrite !app_assoc.
  rewrite (pushed_app _ _ (_ ++ ws)), (pushed_app _ _ (_ ++ option_list err)), !length_app. cbn [length].
  f_equal; lia.
Qed.

(** The error code the processor pushes for a vector. *)
Definition error_code (v : Z) (e : Z) : option Z := if pushes_error v then Some e else None.

(** The frame [trap] gets, and the state it runs in. *)
Lemma entry_frame ss0 esp0 v h e ip c :
  in_user ip c → 0 ≤ v < 256 → gated v h → is_u32 e → 76 ≤ esp0 → is_u32 esp0 → 0 ≤ ss0 < 65536 →
  let c1 := run lk idt_S 15 (deliver ss0 esp0 (error_code v e) (entry h) ip c) in
  let p := esp0 - 68 in
  pc c1 = Out (sym lk "trap")
  ∧ read32 (mm c1) (r_esp (rs c1) + 4) = p
  ∧ load_tf (mm c1) p = frame_of c ip (esp0 - 36) v (default 0 (error_code v e))
  ∧ sg c1 = Segs CPU_GDT_KDATA CPU_GDT_KCODE ss0 CPU_GDT_KDATA (s_fs (sg c)) (s_gs (sg c))
  ∧ Z.testbit (fl c1) IF = false ∧ Z.testbit (fl c1) DF = false
  ∧ ∀ x, x < esp0 - 76 ∨ esp0 ≤ x → read8 (mm c1) x = read8 (mm c) x.
Proof.
  intros Hc Hv Hg He H76 Hu Hss. pose proof (u_ok _ _ Hc) as [Hr Hs Hf]. pose proof (u_ip _ _ Hc) as Hip.
  set (ws := if pushes_error v then [v] else [0; v]).
  assert (∃ x y, option_list (error_code v e) ++ ws = [x; y] ∧ x = default 0 (error_code v e) ∧ y = v) as
    (x & y & E & -> & ->).
  { unfold error_code, ws. destruct (pushes_error v); by eexists _, _. }
  assert (is_u32 v) as Hv' by (unfold is_u32, two32; lia).
  assert (Forall is_u32 ws) as Hws by (unfold ws; destruct (pushes_error v); repeat constructor; done || apply Hv').
  pose proof (enters ss0 esp0 (error_code v e) h ws ip c Hc (gated_stub v h Hg) Hws) as H.
  rewrite E in H. specialize (H ltac:(cbn; lia) H76 Hu Hss). cbn [length] in H.
  replace (esp0 - 20 - 4 * Z.of_nat 2) with (esp0 - 28) in H by lia.
  destruct H as (Hpc & Hsp & Hsg & Hfl & Hm & _).
  intros c1 p. fold c1 in Hpc, Hsp, Hsg, Hfl, Hm. rewrite Hsp, Hm, Hfl. split_and!; try done.
  - unfold trap_words. cbn [app]. replace (esp0 - 28 - 48 + 4) with (esp0 - 4 * Z.of_nat 18) by lia.
    rewrite (pushed_word _ _ _ 17 (esp0 - 28 - 40)) by done. unfold p.
    rewrite u32_small; [lia|unfold is_u32, two32 in *; lia].
  - unfold p. etrans; [apply (load_tf_pushed (mm c) esp0 [esp0 - 28 - 40; addr lk 151])|].
    assert (is_u32 (default 0 (error_code v e))) as He'
      by (unfold error_code; by destruct (pushes_error v)).
    assert (∀ s, is_u32 (get_seg s (sg c))) as Hs' by (intros s; specialize (Hs s); unfold is_u32, two32; lia).
    unfold frame_of. rewrite !u32_small; try done; try first [apply (Hr EAX)|apply (Hr ECX)|apply (Hr EDX)
      |apply (Hr EBX)|apply (Hr EBP)|apply (Hr ESI)|apply (Hr EDI)|apply (Hr ESP)|apply (Hs' ES)|apply (Hs' DS)
      |apply (Hs' CS)|apply (Hs' SS)]; [|unfold is_u32, two32 in *; lia].
    rewrite (u16_fits (s_es _) (Hs ES)), (u16_fits (s_ds _) (Hs DS)), (u16_fits (s_cs _) (Hs CS)),
      (u16_fits (s_ss _) (Hs SS)). f_equal. lia.
  - by rewrite fput_ne, fput_eq by (unfold DF, IF; lia).
  - by rewrite fput_eq by (unfold DF; lia).
  - intros z Hz. apply pushed_frame. cbn. lia.
Qed.
End Entry.

(** ** The return *)

Section Return.
Context (lk : link).

Lemma entry_trap_return : entry "trap_return" = At 152.
Proof. vm_compute. reflexivity. Qed.

Lemma trap_return_runs p c :
  at_entry idt_S "trap_return" c → privilege c = 0 → is_u32 (r_esp (rs c) + 4) → 0 ≤ r_esp (rs c) →
  read32 (mm c) (r_esp (rs c) + 4) = p → is_u32 (p + 68) → Z.land (cs (load_tf (mm c) p)) 3 = 3 →
  let c1 := run lk idt_S 7 c in
  view c1 = view_tf lk (load_tf (mm c) p) ∧ mm c1 = mm c ∧ wide c1 = true ∧ halted c1 = false
  ∧ s_fs (sg c1) = s_fs (sg c) ∧ s_gs (sg c1) = s_gs (sg c).
Proof.
  intros (Hw & Hh & Hp) Hpr He H0 Hr Hu Hcs. fold (entry "trap_return") in Hp.
  destruct c as [[a cx d b sp bp si di] [e cs st ds f gs] pl flg cr gd w hl m ii o].
  unfold privilege in Hpr. unfold load_tf in *.
  cbn [wide halted pc rs r_esp mm sg s_cs Signal.cs s_fs s_gs] in *. rewrite entry_trap_return in Hp. subst w hl pl.
  pose proof (read32_range m (sp + 4)) as Hpr32. rewrite Hr in Hpr32.
  rewrite !read16_read32 in *. do 2 asm_step. asm_addr. rewrite Hr.
  asm_step. rewrite popa_words by (unfold is_u32, two32 in *; lia).
  do 3 asm_step. asm_addr. asm_step.
  rewrite iret_words; [|unfold is_u32, two32 in *; lia..|].
  2: { cbn [s_cs]. rewrite Hpr, read16_read32.
       replace (p + 32 + 4 + 4 + 8 + 4) with (p + 52) by lia. by rewrite Hcs. }
  unfold view, view_tf. asm_state. cbn. rewrite !read16_read32, ?u32_u32.
  split_and!; try done. f_equal; try (do 2 f_equal; lia). asm_eq.
Qed.
End Return.

(** C9: Traps.  An interrupt or exception from user mode whose vector has a gate of its
    own in [intr_init_idt] leads to [trap] with the address of a frame that holds every
    register of the interrupted program, the number of the vector and the error code
    (zero where there is none), with the kernel's segments loaded and interrupts off, and
    with no memory changed but 76 bytes of the kernel's stack.  When the kernel leaves
    with [trap_return] on this frame, the processor is back in user mode with the
    registers the kernel has put there; if it has left the frame alone, they are the
    registers, flags, segments, stack and instruction of the moment of the interrupt.
    The vectors that are left with the default entry [Xdefault] are excluded: there the
    frame is a word off (see [default_gate_shifted]). *)
Theorem trap_round_trip lk ss0 esp0 v h e ip c :
  in_user lk ip c → 0 ≤ v < 256 → gated v h → is_u32 e → 76 ≤ esp0 → is_u32 esp0 → 0 ≤ ss0 < 65536 →
  let c1 := run lk idt_S 15 (deliver ss0 esp0 (error_code v e) (entry h) ip c) in
  let p := read32 (mm c1) (r_esp (rs c1) + 4) in
  (pc c1 = Out (sym lk "trap")
   ∧ load_tf (mm c1) p = frame_of c ip (esp0 - 36) v (default 0 (error_code v e))
   ∧ sg c1 = Segs CPU_GDT_KDATA CPU_GDT_KCODE ss0 CPU_GDT_KDATA (s_fs (sg c)) (s_gs (sg c))
   ∧ Z.testbit (fl c1) IF = false ∧ Z.testbit (fl c1) DF = false
   ∧ ∀ x, x < esp0 - 76 ∨ esp0 ≤ x → read8 (mm c1) x = read8 (mm c) x)
  ∧ ∀ c2, at_entry idt_S "trap_return" c2 → privilege c2 = 0 → is_u32 (r_esp (rs c2) + 4) → 0 ≤ r_esp (rs c2) →
      read32 (mm c2) (r_esp (rs c2) + 4) = p → Z.land (cs (load_tf (mm c2) p)) 3 = 3 →
      let c3 := run lk idt_S 7 c2 in
      view c3 = view_tf lk (load_tf (mm c2) p) ∧ mm c3 = mm c2
      ∧ (load_tf (mm c2) p = load_tf (mm c1) p → view c3 = view c).
Proof.
  intros Hc Hv Hg He H76 Hu Hss c1 p.
  destruct (entry_frame lk ss0 esp0 v h e ip c) as (Hpc & Hp & Ht & Hrest); try done.
  fold c1 in Hpc, Hp, Ht, Hrest. fold p in Hp. rewrite <- Hp in Ht. split; [done|].
  intros c2 Hl Hpr Hsp H0 Hr Hcs c3.
  destruct (trap_return_runs lk p c2) as (Hview & Hmm & _); try done.
  { rewrite Hp. by replace (esp0 - 68 + 68) with esp0 by lia. }
  fold c3 in Hview, Hmm. split_and!; [done|done|]. intros E. rewrite Hview, E, Ht. unfold view, view_tf, frame_of.
  cbn. rewrite <- (u_pc _ _ _ Hc). by destruct (rs c).
Qed.

(** A vector without a gate of its own, for which the processor pushes no error code:
    the frame starts one word late, and every field above the number is the one above
    it; the program would be continued at the address its code selector makes. *)
Lemma default_gate_shifted lk ss0 esp0 v ip c :
  in_user lk ip c → (gate_of idt_gates v).1 = "Xdefault" → pushes_error v = false →
  76 ≤ esp0 → is_u32 esp0 → 0 ≤ ss0 < 65536 →
  let c1 := run lk idt_S 15 (deliver ss0 esp0 (error_code v 0) (entry (gate_of idt_gates v).1) ip c) in
  let t := load_tf (mm c1) (read32 (mm c1) (r_esp (rs c1) + 4)) in
  trapno t = T_DEFAULT ∧ err t = ip ∧ eip t = s_cs (sg c) ∧ cs t = u16 (fl c)
  ∧ eflags t = r_esp (rs c) ∧ esp t = s_ss (sg c) ∧ ss t = read16 (mm c) esp0.
Proof.
  intros Hc Hd He H76 Hu Hss. rewrite Hd. unfold error_code. rewrite He. unfold is_u32, two32 in Hu.
  pose proof (u_ok _ _ _ Hc) as [Hr Hs Hf]. pose proof (u_ip _ _ _ Hc) as Hip.
  destruct (enters lk ss0 esp0 None "Xdefault" [T_DEFAULT] ip c Hc default_stub) as (_ & Hsp & _ & _ & Hm & _);
    [by repeat constructor|cbn; lia|done|done|done|].
  cbn [option_list option_rect app length] in Hsp, Hm.
  replace (esp0 - 20 - 4 * Z.of_nat 1) with (esp0 - 24) in Hsp, Hm by lia.
  cbn zeta. rewrite Hsp, Hm. unfold trap_words. cbn [app].
  match goal with |- context [pushed _ _ ?l] => set (ws := l) end.
  assert (∀ i b x, b = esp0 - 4 * Z.of_nat (S i) → ws !! i = Some x → read32 (pushed (mm c) esp0 ws) b = u32 x) as H
    by (intros i b x ->; apply pushed_word).
  rewrite (H 16%nat (esp0 - 24 - 48 + 4) (esp0 - 24 - 40)) by (lia || done).
  rewrite u32_small by (unfold is_u32, two32; lia).
  assert (∀ s, is_u32 (get_seg s (sg c))) as Hs' by (intros s; specialize (Hs s); unfold is_u32, two32; lia).
  unfold load_tf. cbn [trapno err eip cs eflags esp ss].
  rewrite !(read16_read32 (pushed _ _ _)), (H 5%nat _ T_DEFAULT), (H 4%nat _ ip), (H 3%nat _ (s_cs (sg c))),
    (H 2%nat _ (fl c)), (H 1%nat _ (r_esp (rs c))), (H 0%nat _ (s_ss (sg c))) by (lia || done).
  rewrite !u32_small; try done; [|apply (Hs' SS)|apply (Hr ESP)|apply (Hs' CS)].
  split_and!; try done. rewrite <- read16_read32. replace (esp0 - 24 - 40 + 64) with esp0 by lia.
  apply read16_ext. intros x Hx. apply pushed_frame. lia.
Qed.

(** ** cswitch.S *)

Definition cswitch_S : list line := [
  Lab "cswitch";
  Ins (Mov WL (Ind 4 ESP) (Rg EAX));
  Ins (Mov WL (Ind 8 ESP) (Rg EDX));
  Ins (Mov WL (Ind 0 ESP) (Rg ECX));
  Ins (Mov WL (Rg ECX) (Ind 20 EAX));
  Ins (Mov WL (Rg EBP) (Ind 16 EAX));
  Ins (Mov WL (Rg EBX) (Ind 12 EAX));
  Ins (Mov WL (Rg ESI) (Ind 8 EAX));
  Ins (Mov WL (Rg EDI) (Ind 4 EAX));
  Ins (Mov WL (Rg ESP) (Ind 0 EAX));
  Ins (Mov WL (Ind 0 EDX) (Rg ESP));
  Ins (Mov WL (Ind 4 EDX) (Rg EDI));
  Ins (Mov WL (Ind 8 EDX) (Rg ESI));
  Ins (Mov WL (Ind 12 EDX) (Rg EBX));
  Ins (Mov WL (Ind 16 EDX) (Rg EBP));
  Ins (Mov WL (Ind 20 EDX) (Rg ECX));
  Ins (Mov WL (Rg ECX) (Ind 0 ESP));
  Ins (Xor WL (Rg EAX) (Rg EAX));
  Ins Ret].

(** A context in memory: [struct kctx]. *)
Definition load_kctx (m : mem) (p : Z) : kctx :=
  Kctx (read32 m p) (read32 m (p + 4)) (read32 m (p + 8)) (read32 m (p + 12)) (read32 m (p + 16))
    (read32 m (p + 20)).

Definition save_kctx (m : mem) (p : Z) (k : kctx) : mem :=
  write32 (write32 (write32 (write32 (write32 (write32 m (p + 20) (k_eip k)) (p + 16) (k_ebp k)) (p + 12) (k_ebx k))
    (p + 8) (k_esi k)) (p + 4) (k_edi k)) p (k_esp k).

(** The context of the caller of [cswitch]. *)
Definition kctx_of (c : cpu) : kctx :=
  let g := rs c in
  Kctx (r_esp g) (r_edi g) (r_esi g) (r_ebx g) (r_ebp g) (read32 (mm c) (r_esp g)).

Definition arg (c : cpu) (k : Z) : Z := read32 (mm c) (r_esp (rs c) + 4 * k).

Section Cswitch.
Context (lk : link).

Lemma cswitch_runs c :
  at_entry cswitch_S "cswitch" c → machine_ok c → is_u32 (r_esp (rs c) + 12) →
  is_u32 (arg c 1 + 24) → is_u32 (arg c 2 + 24) →
  let m := save_kctx (mm c) (arg c 1) (kctx_of c) in
  let k := load_kctx m (arg c 2) in
  is_u32 (k_esp k + 4) →
  run lk cswitch_S 19 c =
  Cpu (Gpr 0 (k_eip k) (arg c 2) (k_ebx k) (k_esp k + 4) (k_ebp k) (k_esi k) (k_edi k)) (sg c)
    (place_of lk (k_eip k)) (fput ZF true (fput CF false (fl c))) (cr0 c) (gdtr c) true false
    (write32 m (k_esp k) (k_eip k)) (ins c) (outs c).
Proof.
  intros (Hw & Hh & Hp) [Hr _ _] He Hf Ht m k Hk. unfold arg in *.
  pose proof (Hr ESP) as Hsp.
  destruct c as [[a cx d b sp bp si di] sgs pl flg cr gd w hl m0 ii o].
  change (entry_in cswitch_S "cswitch") with (At 0) in Hp.
  cbn in Hw, Hh, Hp, Hsp. subst w hl pl. unfold kctx_of in m. cbn [rs mm r_esp r_edi r_esi r_ebx r_ebp] in *.
  change (4 * 1) with 4 in *. change (4 * 2) with 8 in *.
  pose proof (read32_range m0 (sp + 4)) as Hf0. pose proof (read32_range m0 (sp + 8)) as Ht0.
  pose proof (read32_range m0 sp) as Hra. cbn [sg fl cr0 gdtr ins outs].
  assert (∀ r, is_u32 (get_reg r (Gpr a cx d b sp bp si di))) as Hr' by apply Hr. clear Hr.
  pose proof (Hr' EBP) as Hbp. pose proof (Hr' EBX) as Hb. pose proof (Hr' ESI) as Hsi.
  pose proof (Hr' EDI) as Hdi. cbn [get_reg r_ebp r_ebx r_esi r_edi] in Hbp, Hb, Hsi, Hdi. clear Hr'.
  do 4 asm_step. asm_addr. replace (sp + 0) with sp by lia.
  set (from := read32 m0 (sp + 4)) in *. set (to := read32 m0 (sp + 8)) in *.
  do 6 asm_step. asm_addr. replace (from + 0) with from by lia.
  change (write32 _ from sp) with m. clearbody m.
  unfold load_kctx in k. subst k. cbn [k_esp k_edi k_esi k_ebx k_ebp k_eip] in *.
  pose proof (read32_range m to) as Hm0. pose proof (read32_range m (to + 20)) as Hm5.
  pose proof (read32_range m (to + 4)). pose proof (read32_range m (to + 8)).
  pose proof (read32_range m (to + 12)). pose proof (read32_range m (to + 16)).
  do 6 asm_step. asm_addr. replace (to + 0) with to by lia.
  asm_step. asm_addr. do 2 asm_step. cbn [run]. asm_addr. rewrite !Z.add_0_r, Z.lxor_nilpotent, Z.eqb_refl.
  rewrite read32_write32_eq. asm_addr. asm_eq.
Qed.

Lemma save_kctx_frame m p k x : x < p ∨ p + 24 ≤ x → read8 (save_kctx m p k) x = read8 m x.
Proof.
  intros H. unfold save_kctx. rewrite !read8_write32.
  by repeat (rewrite decide_False by lia).
Qed.

Definition kctx_words (k : kctx) : Prop :=
  is_u32 (k_esp k) ∧ is_u32 (k_edi k) ∧ is_u32 (k_esi k) ∧ is_u32 (k_ebx k) ∧ is_u32 (k_ebp k) ∧ is_u32 (k_eip k).

Lemma load_save_kctx m p k : kctx_words k → load_kctx (save_kctx m p k) p = k.
Proof.
  intros (H1 & H2 & H3 & H4 & H5 & H6). unfold load_kctx, save_kctx.
  repeat first [rewrite read32_write32_eq | rewrite read32_write32_ne by lia].
  rewrite !u32_small by done. by destruct k.
Qed.

Lemma load_kctx_ext m m' p : (∀ x, p ≤ x < p + 24 → read8 m' x = read8 m x) → load_kctx m' p = load_kctx m p.
Proof. intros H. unfold load_kctx. f_equal; apply read32_ext; intros; apply H; lia. Qed.

(** The pool of contexts at its address. *)
Definition kctx_at (pool : Z) (m : mem) (i : Z) : kctx := load_kctx m (pool + 24 * i).

(** A call of [kctx_switch]: [cswitch] of two contexts of the pool. *)
Record switching (pool from to : Z) (c : cpu) : Prop := {
  sw_at : at_entry cswitch_S "cswitch" c; sw_ok : machine_ok c; sw_esp : is_u32 (r_esp (rs c) + 12);
  sw_from : arg c 1 = pool + 24 * from; sw_to : arg c 2 = pool + 24 * to;
  sw_pool : 0 ≤ pool ∧ pool + 24 * NUM_IDS < two32;
  sw_range : 0 ≤ from < NUM_IDS ∧ 0 ≤ to < NUM_IDS ∧ from ≠ to;
  sw_stack : is_u32 (k_esp (kctx_at pool (mm c) to) + 4)
             ∧ (k_esp (kctx_at pool (mm c) to) + 4 ≤ pool ∨ pool + 24 * NUM_IDS ≤ k_esp (kctx_at pool (mm c) to))
}.

Lemma kctx_of_words c : machine_ok c → kctx_words (kctx_of c).
Proof.
  intros [Hr _ _]. unfold kctx_words, kctx_of. cbn.
  split_and!; first [apply read32_range|apply (Hr ESP)|apply (Hr EDI)|apply (Hr ESI)|apply (Hr EBX)|apply (Hr EBP)].
Qed.

(** The switch, on the pool. *)
Lemma switch_runs pool from to c :
  switching pool from to c →
  let k := kctx_at pool (mm c) to in
  let c1 := run lk cswitch_S 19 c in
  rs c1 = Gpr 0 (k_eip k) (pool + 24 * to) (k_ebx k) (k_esp k + 4) (k_ebp k) (k_esi k) (k_edi k)
  ∧ pc c1 = place_of lk (k_eip k) ∧ sg c1 = sg c
  ∧ read32 (mm c1) (k_esp k) = k_eip k
  ∧ (∀ i, 0 ≤ i < NUM_IDS → kctx_at pool (mm c1) i = if decide (i = from) then kctx_of c else kctx_at pool (mm c) i)
  ∧ ∀ x, (x < pool + 24 * from ∨ pool + 24 * from + 24 ≤ x) → (x < k_esp k ∨ k_esp k + 4 ≤ x) →
      read8 (mm c1) x = read8 (mm c) x.
Proof.
  intros [Hat Hok Hesp Hf Ht [Hp0 Hp1] (Hfr & Htr & Hne) [Hs1 Hs2]] k c1. fold k in Hs1, Hs2.
  unfold two32, NUM_IDS in *.
  assert (load_kctx (save_kctx (mm c) (arg c 1) (kctx_of c)) (arg c 2) = k) as Hk.
  { rewrite Hf, Ht. apply load_kctx_ext. intros x Hx. apply save_kctx_frame. lia. }
  pose proof (cswitch_runs c Hat Hok Hesp) as Hrun. cbn zeta in Hrun. rewrite Hk, Hf, Ht in Hrun.
  specialize (Hrun ltac:(unfold is_u32, two32; lia) ltac:(unfold is_u32, two32; lia) Hs1).
  unfold c1. rewrite Hrun. cbn [rs pc sg mm]. split_and!; try done.
  - rewrite read32_write32_eq. apply u32_small, read32_range.
  - intros i Hi. unfold kctx_at. case_decide as E.
    + subst i. rewrite (load_kctx_ext (save_kctx (mm c) (pool + 24 * from) (kctx_of c))).
      * apply load_save_kctx, kctx_of_words, Hok.
      * intros x Hx. rewrite read8_write32. by rewrite decide_False by lia.
    + apply load_kctx_ext. intros x Hx. rewrite read8_write32, decide_False by lia.
      apply save_kctx_frame. lia.
  - intros x Hx1 Hx2. rewrite read8_write32, decide_False by lia. by apply save_kctx_frame.
Qed.

(** C10: Switching threads.  [kctx_switch] saves the registers a call must keep and the
    return address of the running thread in its own entry of the pool, leaves the other
    entries, and continues the other thread with its registers, stack and instruction.
    Whenever, later, some thread switches back, with the entry unchanged, the first
    thread goes on as after a call that returned: at its return address, with its stack
    popped and its [%ebx], [%ebp], [%esi] and [%edi]. *)
Theorem switch_resumes pool a b c :
  switching pool a b c →
  let k := kctx_at pool (mm c) b in
  let c1 := run lk cswitch_S 19 c in
  (rs c1 = Gpr 0 (k_eip k) (pool + 24 * b) (k_ebx k) (k_esp k + 4) (k_ebp k) (k_esi k) (k_edi k)
   ∧ pc c1 = place_of lk (k_eip k)
   ∧ kctx_at pool (mm c1) a = kctx_of c
   ∧ (∀ i, 0 ≤ i < NUM_IDS → i ≠ a → kctx_at pool (mm c1) i = kctx_at pool (mm c) i)
   ∧ ∀ x, (x < pool + 24 * a ∨ pool + 24 * a + 24 ≤ x) → (x < k_esp k ∨ k_esp k + 4 ≤ x) →
       read8 (mm c1) x = read8 (mm c) x)
  ∧ ∀ d c2, switching pool d a c2 → kctx_at pool (mm c2) a = kctx_at pool (mm c1) a →
      let c3 := run lk cswitch_S 19 c2 in
      pc c3 = place_of lk (arg c 0)
      ∧ rs c3 = Gpr 0 (arg c 0) (pool + 24 * a) (r_ebx (rs c)) (r_esp (rs c) + 4) (r_ebp (rs c)) (r_esi (rs c))
                  (r_edi (rs c)).
Proof.
  intros Hsw k c1. destruct (switch_runs pool a b c Hsw) as (Hrs & Hpc & _ & _ & Hpool & Hmem).
  fold k c1 in Hrs, Hpc, Hpool, Hmem. pose proof (sw_range _ _ _ _ Hsw) as (Ha & _ & _).
  assert (kctx_at pool (mm c1) a = kctx_of c) as Hka by (by rewrite Hpool, decide_True).
  split. { split_and!; try done. intros i Hi Hn. by rewrite Hpool, decide_False. }
  intros d c2 Hsw2 Hk2. destruct (switch_runs pool d a c2 Hsw2) as (Hrs2 & Hpc2 & _).
  rewrite Hk2, Hka in Hrs2, Hpc2. cbn zeta in Hrs2, Hpc2 |- *. rewrite Hrs2, Hpc2. unfold kctx_of, arg. cbn.
  by rewrite Z.add_0_r.
Qed.

(** A thread that has not run yet: its stack pointer is the end of its stack, so that
    the address of its entry is written just above the stack, and the entry starts with
    the stack pointer four bytes above it. *)
Lemma first_switch_above_stack pool from to hi start c :
  switching pool from to c → k_esp (kctx_at pool (mm c) to) = hi → k_eip (kctx_at pool (mm c) to) = start →
  let c1 := run lk cswitch_S 19 c in
  pc c1 = place_of lk start ∧ r_esp (rs c1) = hi + 4 ∧ read32 (mm c1) hi = start.
Proof.
  intros Hsw He Hi. destruct (switch_runs pool from to c Hsw) as (Hrs & Hpc & _ & Hw & _).
  cbn zeta in *. rewrite He, ?Hi in Hrs, Hw. rewrite Hi in Hpc. by rewrite Hrs, Hpc.
Qed.
End Cswitch.

(** ** Witnesses *)

(** A program at 1 GB, interrupted by a system call, with 16 KB of kernel stack below 2 MB. *)
Definition sample_link : link := Link (λ _, 1048576) (λ i, 1048576 + Z.of_nat i) Out (λ _ c, c).

Definition sample_user : cpu :=
  Cpu (Gpr 1 2 3 4 4026531776 6 7 8) (Segs 35 27 35 35 0 0) (Out 1073741824) 514 1 (0, 0) true false ∅ [] [].

Local Abbreviation sample_trap :=
  (run sample_link idt_S 15 (deliver 16 2097152 (error_code T_SYSCALL 0) (entry "Xsyscall") 1073741824 sample_user)).

(** The kernel about to leave: a call of [trap_return] with the frame. *)
Definition sample_leave : cpu :=
  Cpu (Gpr 0 0 0 0 8192 0 0 0) (Segs 16 8 16 16 0 0) (entry "trap_return") 2 1 (0, 0) true false
    (write32 (mm sample_trap) 8196 2097084) [] [].

Lemma sample_user_ok : in_user sample_link 1073741824 sample_user.
Proof. split; [|reflexivity..|by split]. split; [by intros []|by intros []|by split]. Qed.

Lemma gated_syscall : gated T_SYSCALL "Xsyscall".
Proof. split; [vm_compute; reflexivity|by intros [=]]. Qed.

Lemma sample_trap_frame : read32 (mm sample_trap) (r_esp (rs sample_trap) + 4) = 2097084.
Proof. vm_compute. reflexivity. Qed.

Lemma sample_leave_ok :
  at_entry idt_S "trap_return" sample_leave ∧ privilege sample_leave = 0 ∧ is_u32 (r_esp (rs sample_leave) + 4)
  ∧ 0 ≤ r_esp (rs sample_leave) ∧ read32 (mm sample_leave) (r_esp (rs sample_leave) + 4) = 2097084
  ∧ Z.land (cs (load_tf (mm sample_leave) 2097084)) 3 = 3
  ∧ load_tf (mm sample_leave) 2097084 = load_tf (mm sample_trap) 2097084.
Proof.
  split; [split; [reflexivity|split; reflexivity]|]. split; [vm_compute; reflexivity|].
  split; [split; [by vm_compute|vm_compute; reflexivity]|]. split; [by vm_compute|].
  split; [vm_compute; reflexivity|]. split; vm_compute; reflexivity.
Qed.

Lemma trap_round_trip_witness :
  trapno (load_tf (mm sample_trap) 2097084) = T_SYSCALL
  ∧ view (run sample_link idt_S 7 sample_leave) = view sample_user.
Proof.
  pose proof (trap_round_trip sample_link 16 2097152 T_SYSCALL "Xsyscall" 0 1073741824 sample_user sample_user_ok
    ltac:(by split) gated_syscall ltac:(by split) ltac:(lia) ltac:(by split) ltac:(by split)) as H.
  cbn zeta in H. rewrite sample_trap_frame in H. destruct H as ((_ & Hf & _) & Hret).
  split; [by rewrite Hf|].
  destruct sample_leave_ok as (H1 & H2 & H3 & H4 & H5 & H6 & H7).
  by destruct (Hret sample_leave H1 H2 H3 H4 H5 H6) as (_ & _ & H); apply H.
Defined.

Definition sample_pool : Z := 1048576.

(** Thread 1 calls [cswitch] of its own context and that of thread 2, which is new. *)
Definition sample_switch : cpu :=
  Cpu (Gpr 0 0 0 11 65536 12 13 14) (Segs 16 8 16 16 0 0) (At 0) 2 1 (0, 0) true false
    (save_kctx (write32 (write32 (write32 ∅ 65536 777) 65540 (sample_pool + 24)) 65544 (sample_pool + 48))
       (sample_pool + 48) (Kctx 131072 0 0 0 0 888)) [] [].

(** Thread 2 calls it the other way round. *)
Definition sample_back : cpu :=
  Cpu (Gpr 0 0 0 21 131040 22 23 24) (Segs 16 8 16 16 0 0) (At 0) 2 1 (0, 0) true false
    (write32 (write32 (mm (run sample_link cswitch_S 19 sample_switch)) 131044 (sample_pool + 48)) 131048 (sample_pool + 24))
    [] [].

Lemma sample_switching : switching sample_pool 1 2 sample_switch.
Proof.
  split; [by split|split; [by intros []|by intros []|by split]|by split|vm_compute; reflexivity..|by split|by split|].
  replace (kctx_at _ _ _) with (Kctx 131072 0 0 0 0 888) by (vm_compute; reflexivity).
  split; [by split|]. left. by vm_compute.
Qed.

Lemma sample_switching_back : switching sample_pool 2 1 sample_back.
Proof.
  split; [by split|split; [by intros []|by intros []|by split]|by split|vm_compute; reflexivity..|by split|by split|].
  replace (kctx_at _ _ _) with (Kctx 65536 14 13 11 12 777) by (vm_compute; reflexivity).
  split; [by split|]. left. by vm_compute.
Qed.

Lemma switch_resumes_witness :
  pc (run sample_link cswitch_S 19 sample_switch) = Out 888
  ∧ rs (run sample_link cswitch_S 19 sample_back) = Gpr 0 777 (sample_pool + 24) 11 65540 12 13 14.
Proof.
  destruct (switch_resumes sample_link sample_pool 1 2 sample_switch sample_switching) as ((_ & Hpc & _) & Hback).
  split; [rewrite Hpc; vm_compute; reflexivity|].
  destruct (Hback 2 sample_back sample_switching_back) as [_ Hrs]; [vm_compute; reflexivity|].
  rewrite Hrs. vm_compute. reflexivity.
Defined.
