(* ===== verification/StartAsm.v ===== *)
(** The assembly code that starts things: the kernel (exec_kernel.S of the loader and
    entry.S), another processor (boot_ap.S) and a program of the user (entry.S of the
    user library). *)
From stdpp Require Import base list gmap strings.
From S2P Require Import Prelude Memory UserCopy Asm.
Local Open Scope string_scope.
Local Open Scope list_scope.
Local Open Scope Z_scope.

(** ** exec_kernel.S *)

Definition MBOOT_INFO_MAGIC : Z := 732803074.

Definition exec_kernel_S : list line := [
  Lab "exec_kernel";
  Ins Cli;
  Ins (Mov WL (Imm MBOOT_INFO_MAGIC) (Rg EAX));
  Ins (Mov WL (Ind 8 ESP) (Rg EBX));
  Ins (Mov WL (Ind 4 ESP) (Rg EDX));
  Ins (Jmpi (Rg EDX))].

(** ** entry.S of the kernel *)

Definition MULTIBOOT_HEADER_MAGIC : Z := 464367618.
Definition MULTIBOOT_BOOTLOADER_MAGIC : Z := 732803074.
Definition MULTIBOOT_HEADER_FLAGS : Z := 3.
Definition CHECKSUM : Z := - (MULTIBOOT_HEADER_MAGIC + MULTIBOOT_HEADER_FLAGS).

(** A word of data. *)
Definition long (v : Z) : line := Data [byte_of v 0; byte_of v 1; byte_of v 2; byte_of v 3].

Definition entry_S : list line := [
  long MULTIBOOT_HEADER_MAGIC;
  long MULTIBOOT_HEADER_FLAGS;
  long CHECKSUM;
  Lab "start";
  Ins Cli;
  Ins (Cmp WL (Imm MULTIBOOT_BOOTLOADER_MAGIC) (Rg EAX));
  Ins (Jne "spin");
  Ins (Mov WL (Rg EBX) (Var "multiboot_ptr" 0));
  Ins (Mov WW (Imm 4660) (Abs 1138));
  Ins (Push WL (Imm 2));
  Ins Popf;
  Ins (Mov WL (Imm 0) (Rg EBP));
  Ins (Mov WL (Sym "bsp_kstack" 4096) (Rg ESP));
  Ins (Push WL (Var "multiboot_ptr" 0));
  Ins (Call "kern_init");
  Lab "spin";
  Ins Hlt;
  Lab "multiboot_ptr";
  long 0].

(** ** boot_ap.S *)

Definition PROT_MODE_CSEG : Z := 8.
Definition PROT_MODE_DSEG : Z := 16.
Definition CR0_PE_ON : Z := 1.

Definition boot_ap_S : list line := [
  Lab "start_ap";
  Ins Cli;
  Ins Cld;
  Ins (Xor WW (Rg EAX) (Rg EAX));
  Ins (Mov WW (Rg EAX) (Sg DS));
  Ins (Mov WW (Rg EAX) (Sg ES));
  Ins (Mov WW (Rg EAX) (Sg SS));
  Ins (Lgdt "gdtdesc");
  Ins (Mov WL CR0 (Rg EAX));
  Ins (Or WL (Imm CR0_PE_ON) (Rg EAX));
  Ins (Mov WL (Rg EAX) CR0);
  Ins (Ljmp PROT_MODE_CSEG "protcseg");
  Lab "protcseg";
  Ins (Mov WW (Imm PROT_MODE_DSEG) (Rg EAX));
  Ins (Mov WW (Rg EAX) (Sg DS));
  Ins (Mov WW (Rg EAX) (Sg ES));
  Ins (Mov WW (Rg EAX) (Sg SS));
  Ins (Xor WW (Rg EAX) (Rg EAX));
  Ins (Mov WW (Rg EAX) (Sg FS));
  Ins (Mov WW (Rg EAX) (Sg GS));
  Ins (Mov WL (Var "start_ap" (-4)) (Rg ESP));
  Ins (Mov WL (Var "start_ap" (-8)) (Rg EAX));
  Ins (Push WL (Rg EAX));
  Ins (Calli (Var "start_ap" (-12)));
  Lab "spin";
  Ins Hlt;
  Lab "gdt";
  Data [0; 0; 0; 0; 0; 0; 0; 0];
  Data [255; 255; 0; 0; 0; 154; 207; 0];
  Data [255; 255; 0; 0; 0; 146; 207; 0];
  Lab "gdtdesc";
  Data [23; 0];
  Long "gdt"].

(** ** entry.S of the user library *)

Definition user_entry_S : list line := [
  Lab "_start";
  Ins (Test WL (Imm 268435455) (Rg ESP));
  Ins (Jne "args_exist");
  Lab "noargs";
  Ins (Push WL (Imm 0));
  Ins (Push WL (Imm 0));
  Lab "args_exist";
  Ins (Call "main");
  Ins (Push WL (Rg EAX));
  Lab "spin";
  Ins (Jmp "spin")].

(** ** Entering the kernel *)

Section Kernel.
Context (lk : link).

Lemma exec_kernel_runs c :
  at_entry exec_kernel_S "exec_kernel" c → machine_ok c → is_u32 (r_esp (rs c) + 12) →
  let g := rs c in
  let entry := read32 (mm c) (r_esp g + 4) in
  run lk exec_kernel_S 6 c =
  Cpu (Gpr MBOOT_INFO_MAGIC (r_ecx g) entry (read32 (mm c) (r_esp g + 8)) (r_esp g) (r_ebp g) (r_esi g) (r_edi g))
    (sg c) (place_of lk entry) (fput IF false (fl c)) (cr0 c) (gdtr c) true false (mm c) (ins c) (outs c).
Proof.
  intros (Hw & Hh & Hp) [Hr _ _] He. pose proof (Hr ESP) as Hsp.
  destruct c as [[a cx d b sp bp si di] sgs pl flg cr gd w hl m ii o].
  change (entry_in exec_kernel_S "exec_kernel") with (At 0) in Hp.
  cbn in Hw, Hh, Hp, Hsp. subst w hl pl. cbn [rs mm r_esp r_ecx r_ebp r_esi r_edi] in *.
  pose proof (read32_range m (sp + 4)). pose proof (read32_range m (sp + 8)).
  do 6 asm_step. cbn [run]. asm_addr. asm_eq.
Qed.

(** The kernel without the loader's magic number. *)
Lemma start_refuses c :
  at_entry entry_S "start" c → machine_ok c → r_eax (rs c) ≠ MULTIBOOT_BOOTLOADER_MAGIC →
  let c1 := run lk entry_S 6 c in halted c1 = true ∧ mm c1 = mm c.
Proof.
  intros (Hw & Hh & Hp) [Hr _ _] Hm. pose proof (Hr EAX) as Ha.
  destruct c as [[a cx d b sp bp si di] sgs pl flg cr gd w hl m ii o].
  change (entry_in entry_S "start") with (At 3) in Hp.
  cbn in Hw, Hh, Hp, Hm, Ha. subst w hl pl. do 4 asm_step.
  rewrite (u32_small a), fput_eq by done. change (u32 MULTIBOOT_BOOTLOADER_MAGIC) with MULTIBOOT_BOOTLOADER_MAGIC.
  rewrite (proj2 (Z.eqb_neq _ _) Hm). cbn [negb]. erewrite goto_label by (vm_compute; reflexivity). asm_state.
  do 2 asm_step. done.
Qed.

(** Where the loader's stack, the kernel's variable and stack may be. *)
Record start_layout (c : cpu) : Prop := {
  sl_ptr : 1048576 ≤ sym lk "multiboot_ptr"; sl_ptr_hi : is_u32 (sym lk "multiboot_ptr" + 4);
  sl_esp : 4 ≤ r_esp (rs c) ≤ 1048576;
  sl_stack : is_u32 (sym lk "bsp_kstack" + 4096) ∧ 0 ≤ sym lk "bsp_kstack"
}.

Lemma start_runs c :
  at_entry entry_S "start" c → machine_ok c → r_eax (rs c) = MULTIBOOT_BOOTLOADER_MAGIC → start_layout c →
  let c1 := run lk entry_S 12 c in
  pc c1 = Out (sym lk "kern_init") ∧ r_esp (rs c1) = sym lk "bsp_kstack" + 4096 - 8 ∧ r_ebp (rs c1) = 0
  ∧ fl c1 = 2 ∧ read32 (mm c1) (r_esp (rs c1) + 4) = r_ebx (rs c).
Proof.
  intros (Hw & Hh & Hp) [Hr _ _] Hm [Hp0 Hp1 Hs [Hk Hk0]]. pose proof (Hr EBX) as Hb. pose proof (Hr ESP) as Hsp.
  destruct c as [[a cx d b sp bp si di] sgs pl flg cr gd w hl m ii o].
  change (entry_in entry_S "start") with (At 3) in Hp.
  cbn in Hw, Hh, Hp, Hm, Hb, Hs, Hsp. subst w hl pl a. do 4 asm_step. rewrite fput_eq by done.
  change (u32 MULTIBOOT_BOOTLOADER_MAGIC =? u32 MULTIBOOT_BOOTLOADER_MAGIC) with true. cbn [negb].
  set (mp := sym lk "multiboot_ptr") in *. set (ks := sym lk "bsp_kstack") in *.
  do 5 asm_step. asm_addr. do 3 asm_step. asm_addr. cbn [run].
  rewrite goto_out by reflexivity. asm_state. rewrite !Z.add_0_r. fold mp ks.
  assert (read32 (write32 (write16 (write32 m mp b) 1138 (u16 4660)) (sp + - (4)) 2) mp = b) as Hmp.
  { rewrite read32_write32_ne by lia. rewrite (read32_ext (write32 m mp b)).
    - rewrite read32_write32_eq. by apply u32_small.
    - intros x Hx. rewrite read8_write16. by rewrite decide_False by lia. }
  rewrite Hmp, read32_write32_eq. split_and!; try done; try lia.
  replace (ks + 4096 + - (4) + - (4) + 4) with (ks + 4096 + - (4)) by lia.
  rewrite read32_write32_ne by lia. rewrite read32_write32_eq. by apply u32_small.
Qed.
End Kernel.

(** C18: Entering the kernel.  [exec_kernel] of the loader, called with the entry of the
    kernel and the boot information, jumps to the entry with the magic number and the
    information in the registers of the protocol, and entry.S then calls [kern_init]
    with the information, on the kernel's own stack, with interrupts off.  A loader
    without the magic number ends in a halt, with memory untouched; and the words of
    the header add up to zero, as the protocol asks. *)
Theorem kernel_entered lkb lk c :
  at_entry exec_kernel_S "exec_kernel" c → machine_ok c → start_layout lk c →
  let g := rs c in
  let entry := read32 (mm c) (r_esp g + 4) in
  let mbi := read32 (mm c) (r_esp g + 8) in
  let c1 := run lkb exec_kernel_S 6 c in
  let c2 := run lk entry_S 12 (set_pc (entry_in entry_S "start") c1) in
  pc c1 = place_of lkb entry
  ∧ pc c2 = Out (sym lk "kern_init") ∧ read32 (mm c2) (r_esp (rs c2) + 4) = mbi
  ∧ r_esp (rs c2) = sym lk "bsp_kstack" + 4096 - 8 ∧ r_ebp (rs c2) = 0 ∧ Z.testbit (fl c2) IF = false
  ∧ (∀ c', at_entry entry_S "start" c' → machine_ok c' → r_eax (rs c') ≠ MULTIBOOT_BOOTLOADER_MAGIC →
       let c'' := run lk entry_S 6 c' in halted c'' = true ∧ mm c'' = mm c')
  ∧ u32 (MULTIBOOT_HEADER_MAGIC + MULTIBOOT_HEADER_FLAGS + CHECKSUM) = 0.
Proof.
  intros Hat Hok Hl g entry mbi c1 c2. pose proof Hl as [Hp0 Hp1 Hs Hk].
  assert (c1 = _) as E by (apply exec_kernel_runs; [done|done|unfold is_u32, two32; lia]).
  cbn zeta in E. fold g entry mbi in E. destruct Hok as [Hr Hsg Hf].
  destruct (start_runs lk (set_pc (entry_in entry_S "start") c1)) as (Hpc & Hsp & Hbp & Hfl & Harg).
  - rewrite E. done.
  - rewrite E. split; [|exact Hsg|by apply fput_u32].
    intros []; cbn; try apply read32_range; try done; first [apply (Hr ECX)|apply (Hr ESP)|apply (Hr EBP)
      |apply (Hr ESI)|apply (Hr EDI)].
  - rewrite E. done.
  - rewrite E. by split.
  - fold c2 in Hpc, Hsp, Hbp, Hfl, Harg. split_and!; try done.
    + by rewrite E.
    + rewrite Harg, E. done.
    + by rewrite Hfl.
    + apply start_refuses.
Qed.

(** ** Another processor *)

Section Ap.
Context (lk : link).

(** The code and its data below 64 KB, where real mode reaches, above the words
    [pcpu_boot_ap] writes. *)
Record ap_image (c : cpu) : Prop := {
  ap_start : 12 ≤ sym lk "start_ap" < 65536; ap_desc : 0 ≤ sym lk "gdtdesc" < 65530;
  ap_gdt : data_of lk boot_ap_S "gdtdesc" (mm c)
}.

Lemma gdtdesc_data m :
  data_of lk boot_ap_S "gdtdesc" m →
  read16 m (sym lk "gdtdesc") = 23 ∧ read32 m (sym lk "gdtdesc" + 2) = sym lk "gdt".
Proof.
  unfold data_of. replace (find_label "gdtdesc" boot_ap_S) with (Some 30%nat) by (vm_compute; reflexivity).
  cbn [drop boot_ap_S data_at]. intros (Hb & Hg & _). split; [|exact Hg].
  change (read_bytes m _ _) with [read8 m (sym lk "gdtdesc" + 0); read8 m (sym lk "gdtdesc" + 1)] in Hb.
  injection Hb as H0 H1. rewrite Z.add_0_r in H0. unfold read16. by rewrite H0, H1.
Qed.

Lemma boot_ap_runs c :
  wide c = false → halted c = false → pc c = entry_in boot_ap_S "start_ap" → machine_ok c → is_u32 (cr0 c) →
  ap_image c →
  let top := read32 (mm c) (sym lk "start_ap" - 4) in
  let f := read32 (mm c) (sym lk "start_ap" - 8) in
  let fn := read32 (mm c) (sym lk "start_ap" - 12) in
  8 ≤ top → top + 12 ≤ sym lk "start_ap" ∨ sym lk "start_ap" + 8 ≤ top →
  let c1 := run lk boot_ap_S 24 c in
  pc c1 = place_of lk fn ∧ r_esp (rs c1) = top - 8 ∧ read32 (mm c1) (top - 4) = f
  ∧ wide c1 = true ∧ Z.testbit (cr0 c1) 0 = true ∧ sg c1 = Segs 16 8 16 16 0 0
  ∧ gdtr c1 = (23, sym lk "gdt") ∧ Z.testbit (fl c1) IF = false.
Proof.
  intros Hw Hh Hp [Hr _ _] Hcr [Hst Hd Hg] top f fn Htop Hap.
  destruct c as [[a cx d b sp bp si di] [e cs st ds fs gs] pl flg cr gd w hl m ii o].
  change (entry_in boot_ap_S "start_ap") with (At 0) in Hp.
  cbn in Hw, Hh, Hp. subst w hl pl. apply gdtdesc_data in Hg as [Hlim Hgdt]. cbn [mm] in *.
  do 8 asm_step. rewrite Z.lxor_nilpotent, !u16_merge, !u16_u16. change (16 * u16 0) with 0.
  rewrite (u16_fits (sym lk "gdtdesc")), Z.add_0_l by lia.
  do 4 asm_step. rewrite (goto_label lk boot_ap_S "protcseg" 12) by reflexivity. asm_state.
  rewrite !u32_u32. set (cr' := u32 (Z.lor _ _)).
  assert (Z.testbit cr' 0 = true) as Hpe
    by (unfold cr'; rewrite testbit_u32, Z.lor_spec, testbit_u32 by lia; apply orb_true_r).
  rewrite Hpe. clearbody cr'. set (sa := sym lk "start_ap") in *.
  set (fl' := fput ZF _ _). assert (Z.testbit fl' IF = false) as Hif.
  { unfold fl'. rewrite !fput_ne by done. by rewrite fput_eq. }
  clearbody fl'.
  rewrite Hlim, Hgdt.
  do 8 asm_step. rewrite Z.lxor_nilpotent, !u16_merge, !u16_u16.
  pose proof (read32_range m (sa - 4)). pose proof (read32_range m (sa - 8)).
  pose proof (read32_range m (sa - 12)).
  do 4 asm_step. asm_addr. cbn [run]. fold sa. asm_state.
  change (sa + -4) with (sa - 4). change (sa + -8) with (sa - 8). change (sa + -12) with (sa - 12).
  cbn [mm] in *. fold sa in top, f, fn. fold top f fn. fold top in H. fold f in H0. asm_addr.
  replace (cr' - u16 cr' + u16 PROT_MODE_DSEG - u16 PROT_MODE_DSEG + u16 0) with (cr' - u16 cr' + u16 0) by lia.
  rewrite u16_merge, !fput_ne by done. rewrite read32_write32_ne by lia. rewrite read32_write32_ne by lia.
  change (top + - (4)) with (top - 4). rewrite read32_write32_eq. asm_addr. split_and!; try done. lia.
Qed.

(** With the words [pcpu_boot_ap] writes below the code: the processor calls
    [kern_init_ap] with the function, on the stack given. *)
Lemma ap_enters stack f kern_init_ap c m :
  wide c = false → halted c = false → pc c = entry_in boot_ap_S "start_ap" → machine_ok c → is_u32 (cr0 c) →
  sym lk "start_ap" = 32768 → 32768 ≤ sym lk "gdtdesc" < 65530 → data_of lk boot_ap_S "gdtdesc" m →
  is_u32 f → is_u32 kern_init_ap → 65536 ≤ stack → is_u32 (stack + 4096) →
  mm c = write32 (write32 (write32 m (32768 - 4) (u32 (stack + 4096))) (32768 - 8) f) (32768 - 12) kern_init_ap →
  let c1 := run lk boot_ap_S 24 c in
  pc c1 = place_of lk kern_init_ap ∧ r_esp (rs c1) = stack + 4096 - 8
  ∧ read32 (mm c1) (r_esp (rs c1) + 4) = f ∧ wide c1 = true ∧ sg c1 = Segs 16 8 16 16 0 0.
Proof.
  intros Hw Hh Hp Hok Hcr Hsa Hgd Hg Hf Hk Hst Hst' Hm. unfold is_u32, two32 in Hst'.
  assert (read32 (mm c) (sym lk "start_ap" - 4) = stack + 4096) as E4.
  { rewrite Hm, Hsa. rewrite !read32_write32_ne by lia. rewrite read32_write32_eq, u32_u32.
    apply u32_small. unfold is_u32, two32. lia. }
  assert (read32 (mm c) (sym lk "start_ap" - 8) = f) as E8.
  { rewrite Hm, Hsa. rewrite read32_write32_ne by lia. rewrite read32_write32_eq. by apply u32_small. }
  assert (read32 (mm c) (sym lk "start_ap" - 12) = kern_init_ap) as E12.
  { rewrite Hm, Hsa, read32_write32_eq. by apply u32_small. }
  destruct (boot_ap_runs c Hw Hh Hp Hok Hcr) as (Hpc & Hsp & Hf1 & Hwd & _ & Hsg & _).
  - split; [lia|lia|]. revert Hg. unfold data_of.
    replace (find_label "gdtdesc" boot_ap_S) with (Some 30%nat) by (vm_compute; reflexivity).
    cbn [drop boot_ap_S data_at].
    assert (∀ x, 32768 ≤ x → read8 (mm c) x = read8 m x) as Hx.
    { intros x Hx. rewrite Hm, !read8_write32. by repeat (rewrite decide_False by lia). }
    intros (Hb & Hl & _). split_and!; [|rewrite <- Hl; apply read32_ext; intros; apply Hx; cbn in *; lia|done].
    rewrite <- Hb. apply read_bytes_ext. intros. apply Hx. lia.
  - rewrite E4. lia.
  - rewrite E4. lia.
  - rewrite E4 in Hsp, Hf1. rewrite E8 in Hf1. rewrite E12 in Hpc.
    split_and!; try done. rewrite Hsp. by replace (stack + 4096 - 8 + 4) with (stack + 4096 - 4) by lia.
Qed.
End Ap.

(** ** A program of the user *)

Section User.
Context (lk : link).

(** With the stack pointer of a new process nothing is on the stack, and [main] gets two
    zeros; otherwise its arguments are those on the stack. *)
Lemma user_start_runs c :
  at_entry user_entry_S "_start" c → machine_ok c → 16 ≤ r_esp (rs c) →
  let c1 := run lk user_entry_S 8 c in
  pc c1 = Out (sym lk "main")
  ∧ (if Z.land (r_esp (rs c)) 268435455 =? 0
     then r_esp (rs c1) = r_esp (rs c) - 12
          ∧ read32 (mm c1) (r_esp (rs c1) + 4) = 0 ∧ read32 (mm c1) (r_esp (rs c1) + 8) = 0
     else r_esp (rs c1) = r_esp (rs c) - 4)
  ∧ ∀ x, r_esp (rs c) ≤ x → read8 (mm c1) x = read8 (mm c) x.
Proof.
  intros (Hw & Hh & Hp) [Hr _ _] H16. pose proof (Hr ESP) as Hsp.
  destruct c as [[a cx d b sp bp si di] sgs pl flg cr gd w hl m ii o].
  change (entry_in user_entry_S "_start") with (At 0) in Hp.
  cbn in Hw, Hh, Hp, H16, Hsp. subst w hl pl. cbn [rs mm r_esp].
  do 3 asm_step. rewrite fput_eq by done. asm_addr.
  destruct (Z.land sp 268435455 =? 0); cbn [negb].
  - do 5 asm_step. asm_addr. cbn [run]. rewrite goto_out by reflexivity. asm_state.
    split_and!; [done|lia| | |].
    + replace (sp + - (4) + - (4) + - (4) + 4) with (sp + - (4) + - (4)) by lia.
      rewrite read32_write32_ne by lia. by rewrite read32_write32_eq.
    + replace (sp + - (4) + - (4) + - (4) + 8) with (sp + - (4)) by lia.
      rewrite !read32_write32_ne by lia. by rewrite read32_write32_eq.
    + intros x Hx. rewrite !read8_write32. by repeat (rewrite decide_False by lia).
  - rewrite (goto_label lk user_entry_S "args_exist" 6) by reflexivity. asm_state.
    do 2 asm_step. asm_addr. cbn [run]. rewrite goto_out by reflexivity. asm_state.
    cbn [step halted pc]. split_and!; [done|lia|].
    intros x Hx. rewrite !read8_write32. by repeat (rewrite decide_False by lia).
Qed.

(** A program whose [main] returns is not ended: it stays in the loop for ever. *)
Lemma main_returns_spins c n :
  halted c = false → (∃ i, pc c = At i ∧ (8 ≤ i ≤ 10)%nat) →
  let c1 := run lk user_entry_S n c in halted c1 = false ∧ ∃ i, pc c1 = At i ∧ (8 ≤ i ≤ 10)%nat.
Proof.
  revert c. induction n as [|n IH]; intros c Hh Hi; [done|]. destruct Hi as (i & Hp & Hi).
  assert (i = 8 ∨ i = 9 ∨ i = 10)%nat as Hc by lia.
  destruct Hc as [-> | [-> | ->]]; cbn [run].
  - rewrite (step_ins _ _ _ 8 (Push WL (Rg EAX))) by done. apply IH; [done|]. exists 9%nat. split; [done|lia].
  - rewrite (step_lab _ _ _ 9 "spin") by done. apply IH; [done|]. exists 10%nat. split; [done|lia].
  - rewrite (step_ins _ _ _ 10 (Jmp "spin")) by done. apply IH; [done|]. exists 9%nat. split; [done|lia].
Qed.
End User.

(** ** Witness *)

Definition sample_loader : cpu :=
  Cpu (Gpr 0 0 0 0 31000 0 0 0) (Segs 16 8 16 16 16 16) (At 0) 514 1 (0, 0) true false
    (write32 (write32 ∅ 31004 1048588) 31008 90000) [] [].
Definition sample_link : link := Link (λ _, 1048576) (λ i, 1048576 + Z.of_nat i) Out (λ _ c, c).

Lemma kernel_entered_witness :
  let c1 := run sample_link exec_kernel_S 6 sample_loader in
  let c2 := run sample_link entry_S 12 (set_pc (entry_in entry_S "start") c1) in
  pc c1 = Out 1048588 ∧ read32 (mm c2) (r_esp (rs c2) + 4) = 90000.
Proof.
  destruct (kernel_entered sample_link sample_link sample_loader) as (H1 & _ & H2 & _).
  - done.
  - split; [by intros []|by intros []|done].
  - by split.
  - split; [rewrite H1; by vm_compute|rewrite H2; by vm_compute].
Defined.
