(* ===== verification/Ide.v ===== *)
(** * The ports of the disk (kern/dev/disk/ide.c)

    [Bufcache] models the driver with a disk that serves a request as a whole and
    without errors.  Here are the port accesses of the driver with its waits, and the
    theorem that on an ATA controller that asks for the data of a write without delay
    they do what [Bufcache] takes for granted, but for sectors that are defective. *)

From S2P Require Import Prelude Memory Resume Spinlock PhysMap Pmm Container PageTable Isolation.
From S2P Require Import UserCopy Tcb TQueue Thread Signal Ipc Bufcache TrapNumbers Machine Intc Cpus.

Definition IDE_BSY : Z := 128.
Definition IDE_DRDY : Z := 64.
Definition IDE_DF : Z := 32.
Definition IDE_ERR : Z := 1.
Definition IDE_CMD_READ : Z := 32.
Definition IDE_CMD_WRITE : Z := 48.

Section Ports.
Context {D : Type} `{HW : Hw D}.

(** [polls] bounds the looks at the status. *)
Fixpoint ide_wait (polls : nat) (checkerr : bool) : M D Z :=
  r ← inb 503;
  if negb (Z.land r (Z.lor IDE_BSY IDE_DRDY) =? IDE_DRDY) then
    match polls with O => fail OutOfFuel | S polls => ide_wait polls checkerr end
  else if checkerr && negb (Z.land r (Z.lor IDE_DF IDE_ERR) =? 0) then mret (-1) else mret 0.

(** [outb] takes a byte. *)
Definition out8 (port v : Z) : M D unit := outb port (u8 v).

Definition ide_start_ports (polls : nat) (b : buf) : M D unit :=
  _ ← ide_wait polls false;
  _ ← out8 1014 0;
  _ ← out8 498 1;
  _ ← out8 499 (Z.land (b_sector b) 255);
  _ ← out8 500 (Z.land (Z.shiftr (b_sector b) 8) 255);
  _ ← out8 501 (Z.land (Z.shiftr (b_sector b) 16) 255);
  _ ← out8 502 (Z.lor (Z.lor 224 (Z.shiftl (Z.land (b_dev b) 1) 4)) (Z.land (Z.shiftr (b_sector b) 24) 15));
  if flag B_DIRTY (b_flags b) then
    _ ← out8 503 IDE_CMD_WRITE;
    outsl 496 (read_bytes (b_data b) 0 512)
  else out8 503 IDE_CMD_READ.

(** The transfer of [ide_intr]: the bytes that arrive in the buffer, if any do. *)
Definition ide_data_ports (polls : nat) (b : buf) : M D (option (list Z)) :=
  if negb (flag B_DIRTY (b_flags b)) then
    r ← ide_wait polls true;
    if 0 <=? r then bs ← insl 496 (512 / 4); mret (Some bs) else mret None
  else mret None.

(** *** Initialisation *)

(** Whether the second disk shows a status within [n] looks. *)
Fixpoint probe_disk1 (n : nat) : M D Z :=
  match n with
  | O => mret 0
  | S n => v ← inb 503; if negb (v =? 0) then mret 1 else probe_disk1 n
  end.

(** The locks of the driver are initialised with the state of [Bufcache]; the result
    is [havedisk1]. *)
Definition ide_init (polls : nat) : M (dev D) Z :=
  _ ← pic_enable IRQ_IDE1;
  n ← pcpu_ncpu;
  _ ← ioapic_enable IRQ_IDE1 (u8 (n - 1)) false false;
  _ ← lift l_hw (ide_wait polls false);
  _ ← lift l_hw (out8 502 (Z.lor 224 (Z.shiftl 1 4)));
  h ← lift l_hw (probe_disk1 1000);
  _ ← lift l_hw (out8 502 (Z.lor 224 (Z.shiftl 0 4)));
  mret h.
End Ports.

(** ** Refinement *)

(** The sectors of the controller that are not defective hold what the model of the
    driver says. *)
Definition disk_is (a : ata) (d : gmap (Z * Z) block) : Prop :=
  ∀ k, defective a k = false → sector_at a k = read_bytes (aget d k) 0 512.

(** The wait ends when the controller is no longer busy, with its error. *)
Lemma ide_wait_ready polls c (a : ata) :
  (a_busy a ≤ polls)%nat →
  ide_wait polls c a = Ok (if c && a_err a then -1 else 0, ata_set_busy 0 a).
Proof.
  revert a. induction polls as [|polls IH]; intros [d c0 l m h dr i w b t p e] Hb; cbn in Hb;
    (destruct b as [|b]; [by destruct c, e, i, w|]); [lia|].
  change (ide_wait polls c (Ata d c0 l m h dr i w b t p e)
    = Ok (if c && e then -1 else 0, ata_set_busy 0 (Ata d c0 l m h dr i w b t p e))).
  apply IH. cbn. lia.
Qed.

(** The registers name the sector of the buffer. *)
Lemma drive_register dv s :
  let r := u8 (Z.lor (Z.lor 224 (Z.shiftl (Z.land dv 1) 4)) (Z.land (Z.shiftr s 24) 15)) in
  Z.land (Z.shiftr r 4) 1 = Z.land dv 1 ∧ Z.land r 15 = Z.land (Z.shiftr s 24) 15.
Proof.
  cbn zeta. rewrite (Z.land_ones dv 1 ltac:(lia) : Z.land dv 1 = dv mod 2).
  rewrite (Z.land_ones (Z.shiftr s 24) 4 ltac:(lia) : Z.land (Z.shiftr s 24) 15 = Z.shiftr s 24 mod 16).
  pose proof (Z.mod_pos_bound dv 2 ltac:(done)) as Hy.
  pose proof (Z.mod_pos_bound (Z.shiftr s 24) 16 ltac:(done)) as Hx.
  generalize dependent (dv mod 2). generalize dependent (Z.shiftr s 24 mod 16). intros x Hx y Hy.
  assert (forallb (λ y, forallb (λ x,
    let r := u8 (Z.lor (Z.lor 224 (Z.shiftl y 4)) x) in
    (Z.land (Z.shiftr r 4) 1 =? y) && (Z.land r 15 =? x)) (seqZ 0 16)) (seqZ 0 2) = true) as H
    by (vm_compute; reflexivity).
  rewrite forallb_forall in H. specialize (H y ltac:(apply list_elem_of_In, elem_of_seqZ; lia)).
  rewrite forallb_forall in H. specialize (H x ltac:(apply list_elem_of_In, elem_of_seqZ; lia)).
  apply andb_true_iff in H as [H1%Z.eqb_eq H2%Z.eqb_eq]. done.
Qed.

Lemma sector_registers s :
  u8 (Z.land s 255) + 256 * u8 (Z.land (Z.shiftr s 8) 255) + 65536 * u8 (Z.land (Z.shiftr s 16) 255)
  + 16777216 * Z.land (Z.shiftr s 24) 15 = Z.land s 268435455.
Proof.
  assert (∀ x, u8 (Z.land x 255) = x mod 256) as Hb.
  { intros x. rewrite (Z.land_ones x 8 ltac:(lia) : Z.land x 255 = x mod 256). unfold u8.
    by rewrite Z.mod_mod. }
  rewrite !Hb, (Z.land_ones s 28 ltac:(lia) : Z.land s 268435455 = s mod 268435456).
  rewrite (Z.land_ones (Z.shiftr s 24) 4 ltac:(lia) : Z.land (Z.shiftr s 24) 15 = Z.shiftr s 24 mod 16).
  rewrite !Z.shiftr_div_pow2 by lia.
  change (2 ^ 8) with 256. change (2 ^ 16) with 65536. change (2 ^ 24) with 16777216.
  Z.to_euclidean_division_equations; lia.
Qed.

(** The request of a buffer as the controller sees it. *)
Definition ata_request (b : buf) (a : ata) : ata :=
  Ata (a_disk a) 1 (u8 (Z.land (b_sector b) 255)) (u8 (Z.land (Z.shiftr (b_sector b) 8) 255))
    (u8 (Z.land (Z.shiftr (b_sector b) 16) 255))
    (u8 (Z.lor (Z.lor 224 (Z.shiftl (Z.land (b_dev b) 1) 4)) (Z.land (Z.shiftr (b_sector b) 24) 15)))
    (a_in a) (a_write a) 0 (a_latency a) (a_prep a) (a_err a).

Lemma ata_request_key b a : ata_key (ata_request b a) = disk_key b.
Proof.
  unfold ata_key, disk_key, ata_request. cbn [a_drive a_low a_mid a_high].
  destruct (drive_register (b_dev b) (b_sector b)) as [-> ->]. by rewrite sector_registers.
Qed.

Lemma ide_start_ports_run polls b (a : ata) :
  (a_busy a ≤ polls)%nat →
  ide_start_ports polls b a =
    Ok (tt, if flag B_DIRTY (b_flags b)
            then ata_data_out (read_bytes (b_data b) 0 512) (ata_command IDE_CMD_WRITE (ata_request b a))
            else ata_command IDE_CMD_READ (ata_request b a)).
Proof.
  intros Hb. unfold ide_start_ports. rewrite (bind_run _ _ _ _ _ (ide_wait_ready polls false a Hb)).
  by destruct (flag B_DIRTY (b_flags b)), a.
Qed.

(** The effect that [ide_intr] of [Bufcache] gives to a request, where the sector is
    not defective; otherwise nothing is transferred. *)
Definition served (bad : Z * Z → bool) (b : buf) (d : gmap (Z * Z) block) : gmap (Z * Z) block :=
  if flag B_DIRTY (b_flags b) && negb (bad (disk_key b)) then <[disk_key b := b_data b]> d else d.
Definition arrived (bad : Z * Z → bool) (b : buf) (d : gmap (Z * Z) block) : option (list Z) :=
  if flag B_DIRTY (b_flags b) || bad (disk_key b) then None
  else Some (read_bytes (aget d (disk_key b)) 0 512).

(** Requests one after the other: each is started, and its data transferred at the
    interrupt. *)
Fixpoint requests (polls : nat) (bs : list buf) : M ata (list (option (list Z))) :=
  match bs with
  | [] => mret []
  | b :: bs =>
    _ ← ide_start_ports polls b;
    r ← ide_data_ports polls b;
    rs ← requests polls bs;
    mret (r :: rs)
  end.

Fixpoint requests_spec (bad : Z * Z → bool) (bs : list buf) (d : gmap (Z * Z) block)
    : list (option (list Z)) * gmap (Z * Z) block :=
  match bs with
  | [] => ([], d)
  | b :: bs => let '(rs, d') := requests_spec bad bs (served bad b d) in (arrived bad b d :: rs, d')
  end.

Lemma sector_length m : length (read_bytes m 0 512) = 512%nat.
Proof. unfold read_bytes. by rewrite length_fmap, length_seqZ. Qed.

Lemma ata_insl (a : ata) :
  a_busy a = 0%nat → length (a_in a) = 512%nat → insl 496 (512 / 4) a = Ok (a_in a, ata_data_in 512 a).
Proof.
  intros Hb Hl. change (insl 496 (512 / 4) a) with
    (Ok (if Nat.eqb (a_busy a) 0 then take 512 (a_in a) else [], ata_data_in 512 a)).
  rewrite Hb. cbn [Nat.eqb]. by rewrite take_ge by lia.
Qed.

(** The controller can be given a request, and its good sectors are those of [d]. *)
Record controller (polls : nat) (bad : Z * Z → bool) (d : gmap (Z * Z) block) (a : ata) : Prop := {
  ct_busy : (a_busy a ≤ polls)%nat;
  ct_latency : (a_latency a ≤ polls)%nat;
  ct_prep : a_prep a = 0%nat;
  ct_bad k : defective a k = bad k;
  ct_disk : disk_is a d
}.

(** Nothing happens to the sectors. *)
Lemma controller_same polls bad d a a' :
  controller polls bad d a → a_disk a' = a_disk a → a_latency a' = a_latency a → a_prep a' = a_prep a →
  (a_busy a' ≤ polls)%nat → controller polls bad d a'.
Proof.
  intros [Hb Hl Hp Hbad Hd] Ed El Ep Hb'. split; [done|by rewrite El|by rewrite Ep| |].
  - intros k. rewrite <- Hbad. unfold defective, sector_at. by rewrite Ed.
  - intros k. unfold defective, sector_at. rewrite Ed. apply Hd.
Qed.

(** A write: the data reach a controller that asks for them at once. *)
Lemma one_write polls bad b a d :
  controller polls bad d a → flag B_DIRTY (b_flags b) = true →
  ∃ a', (_ ← ide_start_ports polls b; ide_data_ports polls b) a = Ok (None, a')
    ∧ controller polls bad (served bad b d) a'.
Proof.
  intros Hc E. pose proof Hc as [Hb Hl Hp Hbad Hd].
  rewrite (bind_run _ _ _ _ _ (ide_start_ports_run polls b a Hb)).
  unfold ide_data_ports, served. rewrite E. cbn [negb andb]. eexists. split; [reflexivity|].
  set (a1 := ata_command IDE_CMD_WRITE (ata_request b a)).
  unfold ata_data_out. change (a_busy a1) with (a_prep a). rewrite Hp. cbn [Nat.eqb negb].
  change (a_write a1) with (Some (ata_key (ata_request b a))). rewrite ata_request_key.
  rewrite decide_True by apply sector_length.
  change (defective a1 (disk_key b)) with (defective a (disk_key b)). rewrite Hbad.
  destruct (bad (disk_key b)) eqn:Eb; cbn [negb]; [by apply (controller_same _ _ _ _ _ Hc)|].
  assert (∀ k, sector_at (ata_end (<[disk_key b := read_bytes (b_data b) 0 512]> (a_disk a1)) (a_in a1) None
    (a_latency a1) false a1) k = if decide (disk_key b = k) then read_bytes (b_data b) 0 512 else sector_at a k) as Hs.
  { intros k. unfold sector_at. cbn [a_disk ata_end]. case_decide as Ek.
    - subst k. by rewrite lookup_insert_eq.
    - by rewrite lookup_insert_ne. }
  split; [exact Hl|exact Hl|exact Hp| |].
  - intros k. unfold defective. rewrite Hs. case_decide as Ek; [|apply Hbad].
    by rewrite sector_length, <- Ek, Eb.
  - intros k. unfold defective. rewrite Hs, aget_insert. case_decide as Ek; [done|apply Hd].
Qed.

(** A read: the wait of [ide_intr] tells whether there are data. *)
Lemma one_read polls bad b a d :
  controller polls bad d a → flag B_DIRTY (b_flags b) = false →
  ∃ a', (_ ← ide_start_ports polls b; ide_data_ports polls b) a = Ok (arrived bad b d, a')
    ∧ controller polls bad d a'.
Proof.
  intros Hc E. pose proof Hc as [Hb Hl Hp Hbad Hd].
  rewrite (bind_run _ _ _ _ _ (ide_start_ports_run polls b a Hb)).
  unfold ide_data_ports, arrived. rewrite E. cbn [negb orb].
  set (a1 := ata_command IDE_CMD_READ (ata_request b a)).
  assert (a1 = ata_end (a_disk a) (if bad (disk_key b) then [] else sector_at a (disk_key b)) None
    (a_latency a) (bad (disk_key b)) (ata_request b a)) as E1.
  { unfold a1, ata_command. change (a_count (ata_request b a) =? 1) with true. cbn [negb].
    change (IDE_CMD_READ =? 32) with true. cbn iota zeta. rewrite ata_request_key.
    change (defective (ata_request b a) (disk_key b)) with (defective a (disk_key b)). by rewrite Hbad. }
  rewrite (bind_run _ _ _ _ _ (ide_wait_ready polls true a1 ltac:(by rewrite E1))). cbn [andb].
  assert (a_err a1 = bad (disk_key b)) as -> by by rewrite E1.
  destruct (bad (disk_key b)) eqn:Eb.
  - eexists. split; [reflexivity|]. rewrite E1. apply (controller_same _ _ _ _ _ Hc); cbn; [done..|lia].
  - change (0 <=? 0) with true. cbn iota.
    assert (a_in (ata_set_busy 0 a1) = read_bytes (aget d (disk_key b)) 0 512) as Hin.
    { rewrite E1. apply Hd. by rewrite Hbad. }
    rewrite (bind_run (insl _ _) _ _ _ _ (ata_insl (ata_set_busy 0 a1) eq_refl
      ltac:(by rewrite Hin; apply sector_length))), Hin.
    eexists. split; [reflexivity|]. rewrite E1. apply (controller_same _ _ _ _ _ Hc); cbn; [done..|lia].
Qed.

Lemma one_request polls bad b a d :
  controller polls bad d a →
  ∃ a', (_ ← ide_start_ports polls b; ide_data_ports polls b) a = Ok (arrived bad b d, a')
    ∧ controller polls bad (served bad b d) a'.
Proof.
  intros Hc. destruct (flag B_DIRTY (b_flags b)) eqn:E.
  - destruct (one_write polls bad b a d Hc E) as (a' & Er & Hc'). exists a'. split; [|done].
    unfold arrived. by rewrite E.
  - destruct (one_read polls bad b a d Hc E) as (a' & Er & Hc'). exists a'. split; [done|].
    unfold served. by rewrite E.
Qed.

(** What [Bufcache] says of the request at the head of the queue. *)
Lemma ide_intr_serves `{B : BufLayout} (s : bio) b q :
  idequeue s = b :: q → unlocked (ide_lk s) → sched_fine (o_ipc s) →
  ∃ s', ide_intr s = Ok (tt, s') ∧ idequeue s' = q
    ∧ disk s' = served (λ _, false) (buf_of s b) (disk s)
    ∧ (∀ bs, arrived (λ _, false) (buf_of s b) (disk s) = Some bs →
         read_bytes (b_data (buf_of s' b)) 0 512 = bs).
Proof.
  intros Hq Hlk Hs. destruct (ide_intr_run s b q Hq Hlk Hs) as (s' & E & Hq' & Hd & Hb).
  exists s'. unfold served, arrived. split_and!; [done|done| |].
  - by rewrite andb_true_r.
  - rewrite orb_false_r. destruct (flag _ _); [done|]. intros bs [= <-]. by rewrite Hb.
Qed.

(** [ide_start] sends the data of a write with the command.  A controller that is busy
    before it asks for them loses them. *)
Lemma write_before_request_lost polls b (a : ata) :
  (a_busy a ≤ polls)%nat → a_prep a ≠ 0%nat → flag B_DIRTY (b_flags b) = true →
  ∃ a', ide_start_ports polls b a = Ok (tt, a') ∧ a_disk a' = a_disk a
    ∧ a_write a' = Some (disk_key b).
Proof.
  intros Hb Hp E. rewrite (ide_start_ports_run polls b a Hb), E. eexists. split; [reflexivity|].
  set (a1 := ata_command IDE_CMD_WRITE (ata_request b a)).
  unfold ata_data_out. change (a_busy a1) with (a_prep a).
  destruct (a_prep a) as [|n]; [done|]. cbn [Nat.eqb negb]. split; [done|].
  change (a_write a1) with (Some (ata_key (ata_request b a))). by rewrite ata_request_key.
Qed.

(** C20: The port accesses of the disk driver.  On an ATA controller that asks for the
    data of a write without delay, has any latency below the bound and may have
    defective sectors, a sequence of requests transfers exactly what the model of the
    driver says for the other sectors: writes change their sector, reads give it.  A
    read of a defective sector ends in the error branch of [ide_wait], without data, and
    a write to it has no effect. *)
Theorem ide_ports_refine polls bs (a : ata) d :
  (a_busy a ≤ polls)%nat → (a_latency a ≤ polls)%nat → a_prep a = 0%nat → disk_is a d →
  ∃ a', requests polls bs a = Ok ((requests_spec (defective a) bs d).1, a')
    ∧ (∀ k, defective a' k = defective a k)
    ∧ disk_is a' (requests_spec (defective a) bs d).2.
Proof.
  intros Hb Hl Hp Hd.
  assert (∃ a', requests polls bs a = Ok ((requests_spec (defective a) bs d).1, a')
    ∧ controller polls (defective a) (requests_spec (defective a) bs d).2 a') as (a' & E & Hc);
    [|exists a'; split_and!; [done|apply Hc|apply Hc]].
  assert (controller polls (defective a) d a) as Hc by by split.
  generalize dependent (defective a). clear Hb Hl Hp Hd. intros bad. revert a d.
  induction bs as [|b bs IH]; intros a d Hc; [by exists a|].
  destruct (one_request polls bad b a d Hc) as (a1 & E1 & Hc1).
  destruct (IH a1 (served bad b d) Hc1) as (a2 & E2 & Hc2).
  cbn [requests requests_spec]. destruct (requests_spec bad bs (served bad b d)) as [rs d'] eqn:Es.
  exists a2. split; [|done]. apply bind_Ok in E1 as ([] & s1 & E1 & E1').
  by rewrite (bind_run _ _ _ _ _ E1), (bind_run _ _ _ _ _ E1'), (bind_run _ _ _ _ _ E2).
Qed.

(** A sector is written and read back, on a controller that is busy for three looks;
    the next sector is defective. *)
Lemma ide_ports_refine_witness :
  ∃ a', requests 5 [Buf B_DIRTY 0 7 0 0 {[3 := 65]}; Buf 0 0 7 0 0 ∅; Buf 0 0 8 0 0 ∅]
          (Ata {[(0, 8) := []]} 0 0 0 0 0 [] None 1 3 0 false)
        = Ok ([None; Some (read_bytes {[3 := 65]} 0 512); None], a')
    ∧ sector_at a' (0, 7) = read_bytes {[3 := 65]} 0 512.
Proof.
  destruct (ide_ports_refine 5 [Buf B_DIRTY 0 7 0 0 {[3 := 65]}; Buf 0 0 7 0 0 ∅; Buf 0 0 8 0 0 ∅]
    (Ata {[(0, 8) := []]} 0 0 0 0 0 [] None 1 3 0 false) ∅) as (a' & E & Hbad & Hd).
  - cbn. lia.
  - cbn. lia.
  - reflexivity.
  - intros k. unfold defective, sector_at. cbn [a_disk].
    destruct (decide (k = (0, 8))) as [->|Hk]; [by vm_compute|].
    rewrite lookup_singleton_ne by done. intros _. vm_compute. reflexivity.
  - exists a'. split; [rewrite E; vm_compute; reflexivity|].
    rewrite Hd by (rewrite Hbad; vm_compute; reflexivity). vm_compute. reflexivity.
Defined.
