(* ===== verification/Start.v ===== *)
(** * Start of the devices (kern/dev/devinit.c, seg_init of kern/lib/seg.c, trap_init)

    [devinit] calls the initialisations of all the parts below the kernel in turn.
    Here they are put together, on the state of the kernel and of the device drivers.
    A lemma says how the interrupts are connected afterwards, on a machine where nothing
    happens meanwhile: from the line of the device over the I/O APIC and the gate of the
    processor to the handler. *)

From S2P Require Import Prelude Memory Strings Resume Spinlock PhysMap Pmm Container PageTable.
From S2P Require Import Isolation UserCopy Tcb TQueue Thread Signal Ipc Bufcache Log Block Inode Dir.
From S2P Require Import File Console Printf TrapNumbers Proc Syscall Trap.
From S2P Require Import Machine ConsolePorts Intc IntcProps Cpus CpusProps Ide.

Section Devinit.
Context {D : Type} `{HW : Hw D}.

(** What the linker and the entry code give: the top of the first kernel stack and its
    task state, its address, the code for other processors, and the entries of idt.S. *)
Context (bsp_kstack_hi bsp_tss kstack_addr : Z) (boot_ap : list Z) (handler : string → Z).

(** ** seg.c *)

(** For the boot processor.  The static variables are zero before. *)
Definition seg_init : M kern unit :=
  _ ← lift l_bsp_kstack (modify (λ ks,
    let g := <[0 := SEGDESC_NULL]> (gdt ks) in
    let g := <[Z.shiftr CPU_GDT_KCODE 3 := SEGDESC32 (Z.lor STA_X STA_R) 0 4294967295 0]> g in
    let g := <[Z.shiftr CPU_GDT_KDATA 3 := SEGDESC32 STA_W 0 4294967295 0]> g in
    let g := <[Z.shiftr CPU_GDT_UCODE 3 := SEGDESC32 (Z.lor STA_X STA_R) 0 4294967295 3]> g in
    let g := <[Z.shiftr CPU_GDT_UDATA 3 := SEGDESC32 STA_W 0 4294967295 3]> g in
    let g := <[Z.shiftr CPU_GDT_TSS 3 :=
                 set_sd_s 0 (SEGDESC16 STS_T32A (u32 bsp_tss) (TSS_SIZE - 1) 0)]> g in
    Kstack g (u32 bsp_kstack_hi) CPU_GDT_KDATA (ts_iomb ks) (ts_iopm ks) (ks_cpu_idx ks) KSTACK_MAGIC));
  lift l_proc_kstack (modify (λ _, ∅)).

(** ** debug.c *)

Definition debug_init : M kern unit :=
  _ ← lift l_debug_lk spinlock_init; lift l_serial_lk spinlock_init.

(** ** trap_init, with the interrupts it enables *)

Definition trap_init_irqs : list Z := [IRQ_TIMER; IRQ_KBD; IRQ_SERIAL13; IRQ_IDE1].

Fixpoint intr_enable_all (irqs : list Z) (cpunum : Z) : M (dev D) unit :=
  match irqs with
  | [] => mret tt
  | irq :: irqs => _ ← intr_enable irq cpunum; intr_enable_all irqs cpunum
  end.

Definition trap_init_bsp : M (kern * dev D) unit :=
  _ ← lift l_fst trap_init; lift l_snd (intr_enable_all trap_init_irqs 0).

(** ** devinit.c *)

(** The console with its ports, and the other parts of the kernel. *)
Definition l_con_hw : lens (kern * dev D) (con * D) :=
  Lens (λ x, (x_con x.1, hw x.2)) (λ t x, (lset l_x_con t.1 x.1, set_hw t.2 x.2)).
Definition l_x_bio : lens kern bio := lens_comp l_x_fs (lens_comp l_f_ino (lens_comp l_n_lgs l_g_bio)).
Definition l_x_map : lens kern physmap :=
  lens_comp l_x_vm (lens_comp l_v_cont (lens_comp l_c_pmm l_pmm_map)).

(** [ide_init] with the variables of the kernel. *)
Definition ide_init_kern (polls : nat) : M (kern * dev D) unit :=
  _ ← lift l_fst (lift l_x_bio (lift l_ide_lk spinlock_init));
  _ ← lift l_fst (lift l_x_fs (lift l_buf_lock spinlock_init));
  h ← lift l_snd (ide_init polls);
  lift l_fst (lift l_x_bio (modify (λ s,
    Bio (o_ipc s) (bc_lock s) (bufs s) (ide_lk s) (idequeue s) (if h =? 1 then 1 else havedisk1 s)
      (disk s) (trace s)))).

(** [screen] is the text at the start, [mbi_addr] where the boot loader left its
    information; [polls] bounds the busy loops.  The bits of the control registers for
    SSE are not kept. *)
Definition devinit (polls : nat) (screen : list Z) (mbi_addr : Z) : M (kern * dev D) unit :=
  _ ← lift l_fst seg_init;
  _ ← lift l_con_hw (cons_init_ports screen);
  _ ← lift l_fst debug_init;
  _ ← lift l_snd (pcpu_init 0 kstack_addr boot_ap);
  _ ← lift l_snd (tsc_init polls);
  _ ← lift l_snd (intr_init 0 handler polls);
  _ ← trap_init_bsp;
  m ← lift l_snd (gets bios);
  _ ← lift l_fst (lift l_x_map (pmmap_init m mbi_addr));
  _ ← lift l_fst (lift l_x_bio bufcache_init);
  _ ← lift l_fst (lift l_x_fs file_init);
  _ ← lift l_fst (lift l_x_fs (lift l_f_ino inode_init));
  _ ← ide_init_kern polls;
  lift l_fst (lift l_x_ipc ipc_init).
End Devinit.

(** ** The kernel's part *)

Lemma wp_bufcache_init_frame (Q : unit → bio → Prop) (s : bio) :
  (∀ s1 : bio, o_ipc s1 = o_ipc s → Q tt s1) → wp bufcache_init Q s.
Proof.
  intros HQ. unfold bufcache_init, buf_upd, buf_get. apply wp_bind, wp_lift.
  apply wp_modify, wp_bind, wp_modify. cbn [lget lset l_bc_lock].
  apply (wp_for_range (λ _ s1, o_ipc s1 = o_ipc s)); [by vm_compute|done| |].
  - intros i s1 _ Hs. wp_steps. done.
  - intros s1 Hs. by apply HQ.
Qed.

Lemma wp_ipc_init_frame (Q : unit → ipc → Prop) (s : ipc) :
  (∀ s1 : ipc, i_thr s1 = i_thr s → Q tt s1) → wp ipc_init Q s.
Proof.
  intros HQ. unfold ipc_init, mb_upd, mq_set. apply wp_bind, wp_lift, wp_modify, wp_bind.
  cbn [lget lset l_msg_lock].
  apply (wp_for_range (λ _ s1, i_thr s1 = i_thr s)); [by vm_compute|done| |].
  - intros i s1 Hi Hs. wp_steps. done.
  - intros s1 Hs. wp_steps. by apply HQ.
Qed.

(** The table [trap_init] fills. *)
Definition handlers : gmap Z trap_cb := foldl (λ h r, <[r.1 := r.2]> h) ∅ registrations.

Lemma wp_trap_init (Q : unit → kern → Prop) (k : kern) :
  trap_inited k = false → Q tt (set_traps handlers true k) → wp trap_init Q k.
Proof.
  intros Hk HQ. unfold trap_init, trap_init_array. apply wp_bind, wp_bind, wp_gets.
  rewrite Hk. apply wp_bind, wp_ret, wp_modify. exact HQ.
Qed.

(** ** A machine *)

Section Board.
Context (ports : Z → Z) (cpu : Z → Z → Z * Z * Z * Z).

(** I/O APICs on the bus; ports that read as they do, and a processor. *)
#[local] Instance board_hw : Hw ioapic_bus := {|
  inb := λ port, mret (ports port);
  outb := λ _ _, mret tt;
  insl := λ _ _, mret [];
  outsl := λ _ _, mret tt;
  mmio_read := λ a, gets (bus_read a);
  mmio_write := λ a v, modify (bus_write a v);
  rdtsc := mret 0;
  cpuid := λ leaf subleaf, mret (cpu leaf subleaf)
|}.

(** The timer has run out when it is looked at, the disk is ready, the processor has a
    local APIC, and its cache descriptors are in the table of the kernel. *)
Class Idle := {
  idle_timer : (Z.land (ports 97) 32 =? 0) = false;
  idle_disk : Z.land (ports 503) 192 = 64;
  idle_apic : (Z.land (cpu 1 0).2 512 =? 0) = false;
  idle_cache : let '(eax, ebx, ecx, edx) := cpu 2 0 in
    Forall (λ d, d ≠ 255) (le_bytes eax ++ le_bytes ebx ++ le_bytes ecx ++ le_bytes edx)
}.

Context `{!Idle}.
Implicit Types s : dev ioapic_bus.

(** Nothing on the bus at an address. *)
Definition off_bus (b : ioapic_bus) (a : Z) : Prop :=
  regs_of b !! a = None ∧ regs_of b !! (a - 16) = None.

Lemma off_bus_none b a : off_bus b a → b !! a = None ∧ b !! (a - 16) = None.
Proof. unfold off_bus, regs_of. rewrite !lookup_fmap, !fmap_None. done. Qed.

Lemma off_bus_access b a v : off_bus b a → bus_read a b = 0 ∧ bus_write a v b = b.
Proof. intros [E1 E2]%off_bus_none. unfold bus_read, bus_write. by rewrite E1, E2. Qed.

Lemma set_hw_same s : set_hw (hw s) s = s.
Proof. by destruct s. Qed.

Lemma wp_out port v (Q : unit → dev ioapic_bus → Prop) s : Q tt s → wp (out_ port v) Q s.
Proof. intros HQ. unfold out_. apply wp_lift, wp_ret. cbn. by rewrite set_hw_same. Qed.

Lemma wp_in port (Q : Z → dev ioapic_bus → Prop) s : Q (ports port) s → wp (in_ port) Q s.
Proof. intros HQ. unfold in_. apply wp_lift, wp_ret. cbn. by rewrite set_hw_same. Qed.

Lemma wp_cpuid leaf sub (Q : Z * Z * Z * Z → dev ioapic_bus → Prop) s :
  Q (cpu leaf sub) s → wp (lift l_hw (cpuid leaf sub)) Q s.
Proof. intros HQ. apply wp_lift, wp_ret. cbn. by rewrite set_hw_same. Qed.

Lemma wp_rdtsc (Q : Z → dev ioapic_bus → Prop) s : Q 0 s → wp (lift l_hw rdtsc) Q s.
Proof. intros HQ. apply wp_lift, wp_ret. cbn. by rewrite set_hw_same. Qed.

#[local] Ltac quiet_step :=
  lazymatch goal with
  | |- wp (out_ _ _) _ _ => apply wp_out
  | |- wp (in_ _) _ _ => apply wp_in
  | |- wp (lift l_hw (cpuid _ _)) _ _ => apply wp_cpuid
  | |- wp (lift l_hw rdtsc) _ _ => apply wp_rdtsc
  | |- wp (lift _ _) _ _ => fail
  | |- _ => wp_step
  end.
#[local] Ltac quiet := repeat quiet_step.

(** *** Console and clocks *)

Lemma com_wait_board n (b : ioapic_bus) : com_wait n b = Ok (tt, b).
Proof.
  induction n as [|n IH]; cbn [com_wait]; unfold mbind, M_bind; cbn; by case_match.
Qed.

Lemma serial_putc_board e c (b : ioapic_bus) : serial_putc_ports e c b = Ok (tt, b).
Proof.
  unfold serial_putc_ports. destruct e; [|done]. cbn [negb].
  rewrite (bind_run _ _ _ _ _ (com_wait_board COM_TURNS b)).
  unfold serial_reformatnewline_ports. by destruct (c =? 10).
Qed.

(** Characters on the screen; nothing comes of the serial line and the cursor. *)
Fixpoint video_chars (cs : list Z) : M video unit :=
  match cs with [] => mret tt | c :: cs => _ ← video_char c; video_chars cs end.

Lemma cons_puts_board addr cs (c : con) (b : ioapic_bus) v :
  forallb (λ x, negb (Z.land x 255 =? 9)) cs = true → video_chars cs (terminal c) = Ok (tt, v) →
  ∃ c', cons_puts_ports addr cs (c, b) = Ok (tt, (c', b)).
Proof.
  revert c. induction cs as [|x cs IH]; intros c Ht E; [by exists c|].
  cbn [forallb] in Ht. apply andb_true_iff in Ht as [Hx%negb_true_iff Ht].
  cbn [video_chars] in E. apply bind_Ok in E as ([] & v1 & E1 & E).
  destruct (IH (lset l_terminal v1 c) Ht E) as [c' E']. exists c'. cbn [cons_puts_ports].
  erewrite bind_run; [exact E'|]. unfold cons_putc_ports, video_putc_ports. rewrite Hx.
  unfold mbind, M_bind, gets. unfold lift. cbn [lget lset l_fst l_snd fst snd].
  rewrite serial_putc_board. cbn [fst snd]. cbn [lget l_terminal]. by rewrite E1.
Qed.

(** The message of the adapter, on a screen whose cursor is at its start. *)
Lemma message_board (c : con) (b : ioapic_bus) :
  crt_pos (terminal c) = 0 →
  ∃ c', dprintf_ports MONO_BASE (codes "addr_6845:%x" ++ [10]) [MONO_BASE] (c, b) = Ok (tt, (c', b)).
Proof.
  intros Hp. change (dprintf_ports MONO_BASE (codes "addr_6845:%x" ++ [10]) [MONO_BASE])
    with (cons_puts_ports (D:=ioapic_bus) MONO_BASE (video_message MONO_BASE)).
  destruct (terminal c) as [text pos] eqn:E. cbn in Hp. subst pos.
  destruct (video_chars (video_message MONO_BASE) (Video text 0)) as [[[] v]|e] eqn:Ev.
  - eapply cons_puts_board; [reflexivity|]. by rewrite E.
  - by vm_compute in Ev.
Qed.

Lemma cons_init_board c b screen :
  crt_pos (terminal c) = 0 → off_bus b CGA_BUF →
  ∃ addr c', cons_init_ports screen (c, b) = Ok (addr, (c', b)).
Proof.
  intros Hc Hb. destruct (off_bus_access b CGA_BUF 42330 Hb) as [Er Ew].
  assert (serial_init (D:=ioapic_bus) b = Ok (negb (ports 1021 =? 255), b)) as E1 by done.
  assert (probe_adapter (D:=ioapic_bus) b = Ok ((MONO_BASE, MONO_BUF), b)) as E2.
  { unfold probe_adapter, mbind, M_bind. cbn. unfold modify. by rewrite Ew, Er. }
  set (c1 := set_com (negb (ports 1021 =? 255)) (com_in c) (com_out c) (set_ring ∅ 0 0 c)).
  destruct (message_board c1 b) as [c2 E3]; [done|].
  assert (video_init screen (c1, b) = Ok ((MONO_BASE, MONO_BUF),
    (lset l_terminal (Video screen (u16 (Z.lor (Z.shiftl (ports 949) 8) (ports 949)))) c2, b))) as E4.
  { unfold video_init.
    rewrite (bind_run (lift l_snd probe_adapter) _ (c1, b) (c1, b) (MONO_BASE, MONO_BUF));
      [|unfold lift; cbn [lget l_snd snd]; by rewrite E2].
    cbn iota beta. by rewrite (bind_run _ _ _ _ _ E3). }
  unfold cons_init_ports.
  rewrite (bind_run (lift l_fst (modify (set_ring ∅ 0 0))) _ (c, b) (set_ring ∅ 0 0 c, b) tt) by done.
  rewrite (bind_run (lift l_snd serial_init) _ (set_ring ∅ 0 0 c, b)
    (set_ring ∅ 0 0 c, b) (negb (ports 1021 =? 255))) by done.
  rewrite (bind_run (lift l_fst _) _ (set_ring ∅ 0 0 c, b) (c1, b) tt) by done.
  rewrite (bind_run _ _ _ _ _ E4). by repeat eexists.
Qed.

Lemma wp_poll_pit polls sample since t p lo hi (Q : Z * Z * Z * Z → dev ioapic_bus → Prop) s :
  Q (t, p, lo, hi) s → wp (poll_pit polls sample since t p lo hi) Q s.
Proof.
  intros HQ. destruct polls; cbn [poll_pit]; apply wp_bind, wp_in; rewrite idle_timer; by apply wp_ret.
Qed.

Lemma wp_start_countdown latch (Q : unit → dev ioapic_bus → Prop) s :
  Q tt s → wp (start_countdown latch) Q s.
Proof. intros HQ. unfold start_countdown. by quiet. Qed.

(** An attempt that fails without effect. *)
Lemma wp_attempts n failed m (Q : Z → dev ioapic_bus → Prop) s :
  (∀ R : Z → dev ioapic_bus → Prop, R failed s → wp m R s) → Q failed s → wp (attempts n failed m) Q s.
Proof.
  intros Hm HQ. induction n as [|n IH]; cbn [attempts]; [by apply wp_ret|].
  apply wp_bind, Hm. by rewrite Z.eqb_refl.
Qed.

Lemma wp_tsc_init polls (Q : Z → dev ioapic_bus → Prop) s :
  Q 1 (set_tsc 1000000 s) → wp (tsc_init polls) Q s.
Proof.
  intros HQ. unfold tsc_init, timer_hw_init. quiet.
  apply wp_attempts; [|rewrite Z.eqb_refl; quiet; by destruct s].
  intros R HR. unfold tsc_calibrate. apply wp_bind, wp_start_countdown. quiet. apply wp_poll_pit.
  change (0 <? CAL_PIT_LOOPS) with true. by quiet.
Qed.

(** *** Processors *)

Lemma wp_set_pcpu_at i f (Q : unit → dev ioapic_bus → Prop) s :
  0 ≤ i < NUM_CPUS → Q tt (set_pcpus (<[i := f (aget (pcpus (mp_v s)) i)]>) s) →
  wp (set_pcpu_at i f) Q s.
Proof.
  intros Hi HQ. unfold set_pcpu_at, pcpu_at. apply wp_bind, wp_bind, wp_chk; [done|].
  by apply wp_gets, wp_modify.
Qed.

Lemma wp_pcpu_at i (Q : pcpu_t → dev ioapic_bus → Prop) s :
  0 ≤ i < NUM_CPUS → Q (aget (pcpus (mp_v s)) i) s → wp (pcpu_at i) Q s.
Proof. intros Hi HQ. unfold pcpu_at. apply wp_bind, wp_chk; [done|]. by apply wp_gets. Qed.

Lemma wp_cpuid2_loop n r (Q : Z * Z * Z * Z → dev ioapic_bus → Prop) s :
  r = cpu 2 0 → Q (cpu 2 0) s → wp (cpuid2_loop n r) Q s.
Proof.
  intros -> HQ. induction n as [|n IH]; cbn [cpuid2_loop]; quiet; [done|]. exact IH.
Qed.

Lemma wp_descriptors ds size line (Q : Z * Z → dev ioapic_bus → Prop) s :
  Forall (λ d, 0 ≤ d < 255) ds → (∀ r, Q r s) → wp (descriptors_loop ds size line) Q s.
Proof.
  intros Hd HQ. revert size line. induction Hd as [|d ds Hd Hds IH]; intros size line; cbn [descriptors_loop].
  - apply wp_ret, HQ.
  - apply wp_bind, wp_chk; [done|]. destruct (intel_cache_info d). apply IH.
Qed.

Lemma wp_cpuid4_loop n i (Q : option (Z * Z * Z * Z) → dev ioapic_bus → Prop) s :
  (∀ r, Q r s) → wp (cpuid4_loop n i) Q s.
Proof.
  intros HQ. revert i. induction n as [|n IH]; intros i; cbn [cpuid4_loop]; quiet; [apply HQ|].
  destruct (cpu 4 i) as [[[eax ebx] ecx] edx]. case_match; [apply wp_ret, HQ|apply IH].
Qed.

Lemma le_bytes_range v : Forall (λ d, 0 ≤ d < 256) (le_bytes v).
Proof. unfold le_bytes. repeat constructor; apply byte_of_range. Qed.

Lemma wp_l1_cache v (Q : Z * Z → dev ioapic_bus → Prop) s : (∀ r, Q r s) → wp (l1_cache v) Q s.
Proof.
  intros HQ. pose proof idle_cache as Hc. destruct v; cbn [l1_cache].
  - apply wp_ret, HQ.
  - unfold intel_l1. quiet. destruct (cpu 2 0) as [[[eax ebx] ecx] edx] eqn:E.
    apply wp_bind, wp_cpuid2_loop; [done|]. rewrite E. apply wp_bind, wp_descriptors.
    { pose proof (le_bytes_range eax). pose proof (le_bytes_range ebx).
      pose proof (le_bytes_range ecx). pose proof (le_bytes_range edx).
      assert (Forall (λ d, 0 ≤ d < 256) (le_bytes eax ++ le_bytes ebx ++ le_bytes ecx ++ le_bytes edx)) as Hr
        by (repeat apply Forall_app_2; done).
      rewrite Forall_forall in Hc, Hr |- *. intros d Hd. specialize (Hc d Hd). specialize (Hr d Hd). lia. }
    intros r. case_match; [apply wp_ret, HQ|]. apply wp_bind, wp_cpuid4_loop.
    intros [[[[? ?] ?] ?]|]; apply wp_ret, HQ.
  - quiet. destruct (cpu 2147483653 0) as [[[eax ebx] ecx] edx]. apply wp_ret, HQ.
Qed.

(** The entry of the boot processor. *)
Definition boot_cpu (id : Z) (p : pcpu_t) : Prop :=
  lapicid (arch_info p) = id ∧ bsp (arch_info p) = true.

Lemma wp_pcpu_identify id (Q : unit → dev ioapic_bus → Prop) s :
  boot_cpu id (aget (pcpus (mp_v s)) 0) → cpu_index (aget (pcpus (mp_v s)) 0) = 0 →
  (∀ P, boot_cpu id (aget P 0) → cpu_index (aget P 0) = 0 → Q tt (set_pcpus (λ _, P) s)) →
  wp (pcpu_identify 0) Q s.
Proof.
  intros [Hl Hb] Hi HQ. unfold pcpu_identify, get_pcpu_idx, pcpu_cur, arch_info_at.
  apply wp_bind, wp_bind, wp_pcpu_at; [done|]. apply wp_ret. rewrite Hi.
  apply wp_bind, wp_bind, wp_pcpu_at; [done|]. quiet.
  destruct (cpu 0 0) as [[[eax0 ebx0] ecx0] edx0]. quiet. destruct (cpu 1 0) as [[[eax ebx] ecx] edx].
  apply wp_bind, wp_l1_cache. intros l1. quiet. destruct (cpu 2147483648 0) as [[[eaxx ?] ?] ?].
  unfold set_arch_info. apply wp_set_pcpu_at; [done|].
  match goal with |- Q tt (set_pcpus ?f s) => specialize (HQ (f (pcpus (mp_v s)))) end.
  cbn beta in HQ. rewrite aget_eq in HQ. by apply HQ.
Qed.

(** The table of APICs of a firmware. *)
Record firmware (m : mem) (madt : Z) (xs : list madt_entry) : Prop := {
  fw_find s : bios s = m → find_madt s = Ok (madt, s);
  fw_madt : 0 < madt;
  fw_ok : Forall entry_ok xs;
  fw_bytes : bytes_at m (madt + MADT_ENT) (concat (encode <$> xs));
  fw_length : sdt_length m madt = MADT_ENT + Z.of_nat (length (concat (encode <$> xs)));
  fw_end : madt + sdt_length m madt < two32
}.

#[local] Instance board_keeps b : PortsKeep (D:=ioapic_bus) (λ h, h = b).
Proof. split; intros port * ->; by repeat eexists. Qed.

(** What the drivers know after [pcpu_init]. *)
Record cpus_known (m : mem) (madt : Z) (xs : list madt_entry) (boot_ap : list Z) (id : Z) s s' : Prop := {
  ck_inited : mp_inited (mp_v s') = true;
  ck_ncpu : ncpu (mp_v s') = Z.of_nat (length (enabled_ids xs));
  ck_boot : boot_cpu id (aget (pcpus (mp_v s')) 0);
  ck_index : cpu_index (aget (pcpus (mp_v s')) 0) = 0;
  ck_lapic : lapic (apic_v s') = madt_lapic_addr m madt;
  ck_ioapics : ioapics (apic_v s') = take 16 (listed_ioapics xs);
  ck_bios : bios s' = write_bytes m 32768 boot_ap;
  ck_hw : hw s' = hw s
}.

Lemma wp_fields_init id (Q : unit → dev ioapic_bus → Prop) s :
  boot_cpu id (aget (pcpus (mp_v s)) 0) →
  (∀ P, boot_cpu id (aget P 0) → Q tt (set_pcpus (λ _, P) s)) →
  wp (for_range 0 NUM_CPUS pcpu_fields_init) Q s.
Proof.
  intros Hb HQ. apply (wp_for_range (λ i s', ∃ P, s' = set_pcpus (λ _, P) s ∧ boot_cpu id (aget P 0)));
    [done| | |].
  - exists (pcpus (mp_v s)). by destruct s as [? ? ? ? ? [] ?].
  - intros i s' Hi (P & -> & HP). unfold pcpu_fields_init. apply wp_set_pcpu_at; [done|].
    eexists. split; [done|]. rewrite aget_insert. by case_decide; subst.
  - intros s' (P & -> & HP). by apply HQ.
Qed.

Lemma wp_pcpu_init_self kstack_addr id (Q : unit → dev ioapic_bus → Prop) s :
  boot_cpu id (aget (pcpus (mp_v s)) 0) →
  (∀ P, boot_cpu id (aget P 0) → cpu_index (aget P 0) = 0 → Q tt (set_pcpus (λ _, P) s)) →
  wp (pcpu_init_self 0 kstack_addr) Q s.
Proof.
  intros Hb HQ. unfold pcpu_init_self, set_pcpu_idx, set_pcpu_kstack_pointer, set_pcpu_boot_info.
  do 3 (apply wp_bind, wp_set_pcpu_at; [done|]).
  apply (wp_pcpu_identify id); cbn; rewrite ?aget_eq; [done|done|]. intros P HP Hi. by apply (HQ P).
Qed.

Lemma wp_pcpu_init kstack_addr boot_ap madt xs id ids (Q : unit → dev ioapic_bus → Prop) s :
  firmware (bios s) madt xs → enabled_ids xs = id :: ids →
  mp_inited (mp_v s) = false → pcpu_inited (mp_v s) = false → ioapics (apic_v s) = [] →
  (∀ s', cpus_known (bios s) madt xs boot_ap id s s' → Q tt s') →
  wp (pcpu_init 0 kstack_addr boot_ap) Q s.
Proof.
  intros [Hf Hm Hok Hby Hlen Hend] Hids Hi Hp Hio HQ. unfold pcpu_init. cbn [Z.eqb].
  apply wp_bind, wp_gets. rewrite Hp. apply wp_bind, wp_modify, wp_bind.
  apply (wp_pcpu_mp_init (λ h, h = hw s) _ madt xs); try done; [by apply Hf|]. intros s1 [].
  cbn in mf_lapic, mf_bios. apply wp_bind.
  destruct mf_cpus as [Hn Hc]. rewrite Hids in Hc. destruct (Hc 0%nat id eq_refl) as [Hid Hbs]; [done|].
  apply (wp_fields_init id); [done|]. intros P HP. apply wp_bind, wp_modify.
  apply (wp_pcpu_init_self _ id); [done|]. intros P' HP' Hidx. apply HQ. by split.
Qed.

(** *** Interrupt controllers *)

(** No I/O APIC is in the way of the local APIC. *)
Definition lapic_quiet s : Prop :=
  ∀ i, 0 ≤ i < 256 → off_bus (hw s) (u32 (lapic (apic_v s) + 4 * i)).

Lemma wp_lapic_read i (Q : Z → dev ioapic_bus → Prop) s :
  lapic_quiet s → 0 ≤ i < 256 → Q 0 s → wp (lapic_read i) Q s.
Proof.
  intros Hq Hi HQ. unfold lapic_read. apply wp_bind, wp_gets, wp_lift, wp_gets. cbn.
  destruct (off_bus_access _ _ 0 (Hq i Hi)) as [-> _]. by rewrite set_hw_same.
Qed.

Lemma wp_lapic_write i v (Q : unit → dev ioapic_bus → Prop) s :
  lapic_quiet s → 0 ≤ i < 256 → Q tt s → wp (lapic_write i v) Q s.
Proof.
  intros Hq Hi HQ. unfold lapic_write. apply wp_bind, wp_gets, wp_bind, wp_lift, wp_modify. cbn.
  destruct (off_bus_access _ _ (u32 v) (Hq i Hi)) as [_ ->]. rewrite set_hw_same.
  apply wp_bind, wp_lapic_read; [done|done|]. by apply wp_ret.
Qed.

#[local] Ltac lapic_steps Hq :=
  repeat lazymatch goal with
  | |- wp (lapic_write _ _) _ _ => apply wp_lapic_write; [exact Hq|by vm_compute|]
  | |- wp (lapic_read _) _ _ => apply wp_lapic_read; [exact Hq|by vm_compute|]
  | |- _ => quiet_step
  end.

Lemma wp_lapic_init polls (Q : unit → dev ioapic_bus → Prop) s :
  lapic_quiet s → lapic (apic_v s) ≠ 0 → Q tt s → wp (lapic_init polls) Q s.
Proof.
  intros Hq Hl HQ. unfold lapic_init. lapic_steps Hq. destruct (Z.eqb_spec (lapic (apic_v s)) 0); [done|].
  lapic_steps Hq. apply wp_attempts.
  - intros R HR. unfold lapic_calibrate_timer. lapic_steps Hq. apply wp_start_countdown. lapic_steps Hq.
    apply wp_poll_pit. change (0 <? CAL_PIT_LOOPS) with true. by quiet.
  - rewrite Z.eqb_refl. lapic_steps Hq. change (4 <=? Z.land (Z.shiftr 0 16) 255) with false.
    lapic_steps Hq. destruct polls; cbn [await_delivery]; lapic_steps Hq;
      change (Z.land 0 LAPIC_ICRLO_DELIVS =? 0) with true; cbn iota; lapic_steps Hq; exact HQ.
Qed.

(** The lines of the first controller, and the others masked. *)
Record routed (io : ioapic) (l : list ioapic) (n : Z) (f : Z → Z * Z) (b : ioapic_bus) : Prop := {
  ro_bus : bus_ok b;
  ro_first : ∃ r, regs_of b !! io_addr io = Some r ∧ maxintr r = n
                  ∧ ∀ j, 0 ≤ j ≤ n → line_entry r j = f j;
  ro_others : Forall (λ i, ∃ r, regs_of b !! io_addr i = Some r ∧ all_masked r) l
}.

Lemma wp_ioapic_init io l n (Q : unit → dev ioapic_bus → Prop) s :
  bus_ok (hw s) → ioapics (apic_v s) = io :: l → NoDup (io_addr <$> io :: l) →
  Forall (wired (hw s)) (io :: l) → (∃ r, regs_of (hw s) !! io_addr io = Some r ∧ maxintr r = n) →
  (∀ b, routed io l n masked_entry b → (∀ a, off_bus (hw s) a → off_bus b a) → Q tt (set_hw b s)) →
  wp ioapic_init Q s.
Proof.
  intros Hb Hio Hnd Hw (r & Hr & Hn) HQ. change (wp (ioapic_init (HW:=bus_hw)) Q s). unfold ioapic_init.
  apply wp_bind, wp_gets. rewrite Hio. rewrite Forall_forall in Hw.
  apply wp_ioapic_init_all; [done|done|intros i Hi; apply (Hw i Hi)|]. intros b [Hb' Hm Ho]. apply HQ.
  - split; [done| |].
    + destruct (Hm io r ltac:(left) Hr) as (r' & Hr' & Hn' & Ha). exists r'. split; [done|].
      rewrite <- Hn, <- Hn'. by split.
    + apply Forall_forall. intros i Hi. destruct (Hw i) as [[ri Hri] _]; [by right|].
      destruct (Hm i ri) as (r' & Hr' & _ & Ha); [by right|done|]. by eauto.
  - assert (∀ a, regs_of (hw s) !! a = None → regs_of b !! a = None) as Hsame.
    { intros a Ha. rewrite Ho; [done|]. intros (i & -> & Hi)%list_elem_of_fmap.
      destruct (Hw i Hi) as [[? E] _]. congruence. }
    intros a []. split; by apply Hsame.
Qed.

Definition with_line (f : Z → Z * Z) (irq : Z) (e : Z * Z) (j : Z) : Z * Z :=
  if decide (j = irq) then e else f j.

(** The entry of a line that is sent to a processor. *)
Definition sent_to (irq id : Z) : Z * Z := (T_IRQ0 + irq, u32 (Z.shiftl id 24)).

Lemma wp_ioapic_enable io l n f irq id (Q : unit → dev ioapic_bus → Prop) s :
  routed io l n f (hw s) → ioapics (apic_v s) = io :: l → NoDup (io_addr <$> io :: l) →
  Forall (λ i, 0 ≤ io_gsi i < 2147483392) l → io_gsi io = 0 → 0 ≤ irq ≤ n →
  (∀ b, routed io l n (with_line f irq (sent_to irq id)) b →
     (∀ a, off_bus (hw s) a → off_bus b a) → Q tt (set_hw b s)) →
  wp (ioapic_enable irq id false false) Q s.
Proof.
  intros [Hb (r & Hr & Hn & Hf) Hl] Hio Hnd Hgs Hg Hirq HQ.
  change (wp (ioapic_enable (HW:=bus_hw) irq id false false) Q s). unfold ioapic_enable.
  apply wp_bind, wp_gets. rewrite Hio. apply NoDup_cons in Hnd as [Hnew Hnd].
  apply (wp_ioapic_enable_at []) with (r := r); [done| |by intros i Hi%elem_of_nil|done|lia|].
  - constructor; [split; [by eexists|lia]|]. rewrite Forall_forall in Hl, Hgs |- *. intros i Hi.
    destruct (Hl i Hi) as (ri & Hri & _). split; [by eexists|by apply Hgs].
  - intros b Hb' Eb. rewrite Hg, Z.sub_0_r in Eb. apply HQ.
    + split; [done| |].
      * eexists. rewrite Eb, lookup_insert_eq. split; [done|]. rewrite maxintr_set by lia.
        split; [done|]. intros j Hj. rewrite line_entry_set. unfold with_line. case_decide; [done|].
        by apply Hf.
      * rewrite Forall_forall in Hl |- *. intros i Hi. destruct (Hl i Hi) as (ri & Hri & Ha).
        exists ri. split; [|done]. rewrite Eb, lookup_insert_ne; [done|]. intros E. apply Hnew.
        apply list_elem_of_fmap. by exists i.
    + assert (∀ a, regs_of (hw s) !! a = None → regs_of b !! a = None) as Hsame.
      { intros a Ha. rewrite Eb, lookup_insert_ne; [done|]. intros <-. congruence. }
      intros a []. split; by apply Hsame.
Qed.

Lemma wp_pcpu_onboot id (Q : bool → dev ioapic_bus → Prop) s :
  mp_inited (mp_v s) = true → boot_cpu id (aget (pcpus (mp_v s)) 0) →
  cpu_index (aget (pcpus (mp_v s)) 0) = 0 → Q true s → wp (pcpu_onboot 0) Q s.
Proof.
  intros Hm [_ Hb] Hi HQ. unfold pcpu_onboot, get_pcpu_idx, pcpu_cur, arch_info_at.
  apply wp_bind, wp_bind, wp_pcpu_at; [done|]. apply wp_ret, wp_bind, wp_gets. rewrite Hm, Hi.
  apply wp_bind, wp_bind, wp_pcpu_at; [done|]. apply wp_ret, wp_ret. by rewrite Hb.
Qed.

Lemma wp_pic_init (Q : unit → dev ioapic_bus → Prop) s : (∀ p, Q tt (set_pic p s)) → wp pic_init Q s.
Proof.
  intros HQ. unfold pic_init. apply wp_bind, wp_gets. case_match.
  - apply wp_ret. replace s with (set_pic (pic_v s) s) by by destruct s. apply HQ.
  - quiet. apply HQ.
Qed.

(** The machine the theorem is about: the firmware names the boot processor first and an
    I/O APIC that serves the lines of the old controllers; the controllers are on the
    bus, with nothing at the places of the text screen and the local APIC. *)
Record board_ok (b : ioapic_bus) (m : mem) (madt : Z) (xs : list madt_entry)
    (id : Z) (ids : list Z) (io : ioapic) (l : list ioapic) (n : Z) : Prop := {
  bo_fw : firmware m madt xs;
  bo_cpus : enabled_ids xs = id :: ids;
  bo_ncpu : Z.of_nat (length (enabled_ids xs)) < 2147483648;
  bo_id : 0 ≤ id < 256;
  bo_listed : take 16 (listed_ioapics xs) = io :: l;
  bo_nodup : NoDup (io_addr <$> io :: l);
  bo_bus : bus_ok b;
  bo_wired : Forall (wired b) (io :: l);
  bo_first : ∃ r, regs_of b !! io_addr io = Some r ∧ maxintr r = n;
  bo_gsi : io_gsi io = 0;
  bo_lines : 15 ≤ n;
  bo_screen : off_bus b CGA_BUF;
  bo_lapic : madt_lapic_addr m madt ≠ 0
             ∧ ∀ i, 0 ≤ i < 256 → off_bus b (u32 (madt_lapic_addr m madt + 4 * i))
}.

(** What the interrupt drivers know, with the lines of the first controller. *)
Record connected (handler : string → Z) (xs : list madt_entry) (id : Z) (io : ioapic) (l : list ioapic)
    (n : Z) (m : mem) (f : Z → Z * Z) s : Prop := {
  co_routed : routed io l n f (hw s);
  co_ioapics : ioapics (apic_v s) = io :: l;
  co_apic : using_apic (intr_v s) = true;
  co_gates : ∀ v, 0 ≤ v < 256 → aget (idt (intr_v s)) v = the_gate handler idt_gates v;
  co_loaded : idt_loaded (intr_v s) = true;
  co_ncpu : ncpu (mp_v s) = Z.of_nat (length (enabled_ids xs));
  co_boot : boot_cpu id (aget (pcpus (mp_v s)) 0);
  co_bios : bios s = m
}.

Section Connect.
Context (handler : string → Z) (b0 : ioapic_bus) (m : mem) (madt : Z) (xs : list madt_entry).
Context (id : Z) (ids : list Z) (io : ioapic) (l : list ioapic) (n : Z) (boot_ap : list Z).
Context (Hbo : board_ok b0 m madt xs id ids io l n).

Lemma wp_intr_init polls (Q : unit → dev ioapic_bus → Prop) s0 s t :
  cpus_known m madt xs boot_ap id s0 s → hw s0 = b0 →
  (∀ s', connected handler xs id io l n (write_bytes m 32768 boot_ap) masked_entry s' → Q tt s') →
  wp (intr_init 0 handler polls) Q (set_tsc t s).
Proof.
  intros Hck <- HQ. destruct Hck, Hbo. unfold intr_init.
  apply wp_bind, wp_pic_init. intros p. quiet. pose proof idle_apic as Hap.
  destruct (cpu 1 0) as [[[eax ebx] ecx] edx]. cbn [snd] in Hap. rewrite Hap. cbn [negb].
  quiet. apply (wp_pcpu_onboot id); [done|done|done|]. apply wp_bind.
  rewrite <- ck_hw0 in *. apply (wp_ioapic_init io l n); [done|by cbn; congruence|done|done|done|].
  intros b Hb Hoff. apply wp_bind. cbn [apic_v set_hw set_intr_flags set_intr set_pic set_tsc] in *.
  apply wp_lapic_init.
  { intros i Hi. cbn. rewrite ck_lapic0. by apply Hoff, bo_lapic0. }
  { cbn. rewrite ck_lapic0. apply bo_lapic0. }
  apply wp_bind, wp_intr_init_idt. intros t0 Ht0. apply wp_modify, HQ. split; cbn; try done. congruence.
Qed.

#[local] Abbreviation conn := (connected handler xs id io l n (write_bytes m 32768 boot_ap)).

Lemma wired_gsi : Forall (λ i, 0 ≤ io_gsi i < 2147483392) l.
Proof.
  pose proof (bo_wired _ _ _ _ _ _ _ _ _ Hbo) as [_ H0]%Forall_cons.
  eapply Forall_impl; [exact H0|]. by intros i [_ ?].
Qed.

(** A line is sent to a processor. *)
Lemma wp_connect irq f id' (Q : unit → dev ioapic_bus → Prop) s :
  conn f s → 0 ≤ irq ≤ 15 →
  (∀ s', conn (with_line f irq (sent_to irq id')) s' → Q tt s') →
  wp (ioapic_enable irq id' false false) Q s.
Proof.
  intros [] Hi HQ. destruct Hbo. apply (wp_ioapic_enable io l n f); try done; [apply wired_gsi|lia|].
  intros b Hb _. apply HQ. by split.
Qed.

Lemma wp_intr_enable irq f (Q : unit → dev ioapic_bus → Prop) s :
  conn f s → 0 ≤ irq ≤ 15 →
  (∀ s', conn (with_line f irq (sent_to irq id)) s' → Q tt s') → wp (intr_enable irq 0) Q s.
Proof.
  intros Hs Hi HQ. pose proof (bo_ncpu _ _ _ _ _ _ _ _ _ Hbo). pose proof (bo_id _ _ _ _ _ _ _ _ _ Hbo).
  assert (0 < Z.of_nat (length (enabled_ids xs))) as Hpos
    by (rewrite (bo_cpus _ _ _ _ _ _ _ _ _ Hbo); cbn; lia).
  unfold intr_enable, pcpu_ncpu. apply wp_bind, wp_gets. rewrite (co_ncpu _ _ _ _ _ _ _ _ _ Hs).
  rewrite s32_small by lia. apply wp_bind, wp_kassert.
  { cbn. by rewrite (proj2 (Z.ltb_lt _ _)). }
  destruct (Z.leb_spec 24 irq); [lia|]. apply wp_bind, wp_gets. rewrite (co_apic _ _ _ _ _ _ _ _ _ Hs).
  apply wp_bind. cbn [Z.eqb]. unfold pcpu_cpu_lapicid, arch_info_at. apply wp_bind, wp_gets.
  rewrite (co_ncpu _ _ _ _ _ _ _ _ _ Hs). apply wp_bind, wp_kassert.
  { cbn. by rewrite (proj2 (Z.ltb_lt _ _)). }
  apply wp_bind, wp_bind, wp_pcpu_at; [done|]. apply wp_ret, wp_ret.
  destruct (co_boot _ _ _ _ _ _ _ _ _ Hs) as [-> _]. unfold u8. rewrite Z.mod_small by done.
  unfold route. apply wp_bind, wp_gets. rewrite (co_apic _ _ _ _ _ _ _ _ _ Hs). by apply (wp_connect irq f).
Qed.

Lemma wp_intr_enable_all irqs f (Q : unit → dev ioapic_bus → Prop) s :
  conn f s → Forall (λ irq, 0 ≤ irq ≤ 15) irqs →
  (∀ s', conn (foldl (λ f irq, with_line f irq (sent_to irq id)) f irqs) s' → Q tt s') →
  wp (intr_enable_all irqs 0) Q s.
Proof.
  intros Hs Hi HQ. revert f s Hs HQ. induction Hi as [|irq irqs Hirq Hi IH]; intros f s Hs HQ;
    cbn [intr_enable_all]; [by apply wp_ret, HQ|].
  apply wp_bind, (wp_intr_enable irq f); [done|done|]. intros s' Hs'. by eapply IH.
Qed.

Lemma wp_ide_wait polls (Q : Z → ioapic_bus → Prop) (b : ioapic_bus) :
  Q 0 b → wp (ide_wait polls false) Q b.
Proof.
  intros HQ. assert (∀ v, Z.land (ports 503) 192 = v → (v =? 64) = true →
    wp (ide_wait polls false) Q b) as H'.
  { intros v <- Hv. destruct polls; cbn [ide_wait]; apply wp_bind, wp_ret;
      change (Z.lor IDE_BSY IDE_DRDY) with 192; unfold IDE_DRDY; rewrite Hv; by apply wp_ret. }
  by apply (H' 64 idle_disk).
Qed.

Lemma wp_ide_init polls f (Q : Z → dev ioapic_bus → Prop) s :
  conn f s →
  (∀ h s', conn (with_line f IRQ_IDE1
      (sent_to IRQ_IDE1 (u8 (Z.of_nat (length (enabled_ids xs)) - 1)))) s' → Q h s') →
  wp (ide_init polls) Q s.
Proof.
  intros Hs HQ. unfold ide_init, pic_enable, pic_setmask. quiet. unfold pcpu_ncpu. quiet.
  assert (∀ p, conn f (set_pic p s)) as Hp by (intros p; by destruct Hs; split).
  cbn [mp_v set_pic]. rewrite (co_ncpu _ _ _ _ _ _ _ _ _ Hs).
  eapply (wp_connect IRQ_IDE1 f); [apply Hp|by vm_compute|]. intros s' Hs'. specialize (HQ 1 s' Hs').
  apply wp_bind, wp_lift, wp_ide_wait. cbn. rewrite set_hw_same.
  apply wp_bind, wp_lift, wp_ret. cbn. rewrite set_hw_same.
  assert (∀ (R : Z → dev ioapic_bus → Prop), R 1 s' → wp (lift l_hw (probe_disk1 1000)) R s') as Hprobe.
  { intros R HR. apply wp_lift. change (probe_disk1 1000) with
      (v ← inb (D:=ioapic_bus) 503; if negb (v =? 0) then mret 1 else probe_disk1 999).
    apply wp_bind, wp_ret. destruct (Z.eqb_spec (ports 503) 0) as [E|_].
    - pose proof idle_disk as Hd. by rewrite E in Hd.
    - apply wp_ret. cbn. by rewrite set_hw_same. }
  apply wp_bind, Hprobe, wp_bind, wp_lift, wp_ret, wp_ret. cbn. by rewrite set_hw_same.
Qed.
End Connect.

(** The lines after [devinit]: four of them are sent on, the disk's to the processor
    whose number is the last index. *)
Definition lines_after (id ncpu j : Z) : Z * Z :=
  if decide (j = IRQ_IDE1) then sent_to j (u8 (ncpu - 1))
  else if decide (j = IRQ_TIMER ∨ j = IRQ_KBD ∨ j = IRQ_SERIAL13) then sent_to j id
  else masked_entry j.

Lemma lines_after_ok id ncpu j :
  with_line (foldl (λ f irq, with_line f irq (sent_to irq id)) masked_entry trap_init_irqs)
    IRQ_IDE1 (sent_to IRQ_IDE1 (u8 (ncpu - 1))) j = lines_after id ncpu j.
Proof.
  unfold lines_after, with_line, trap_init_irqs, IRQ_IDE1, IRQ_TIMER, IRQ_KBD, IRQ_SERIAL13. cbn [foldl].
  repeat case_decide; subst; try done; lia.
Qed.

Section Final.
Context (bsp_kstack_hi bsp_tss kstack_addr : Z) (boot_ap : list Z).
Context (handler : string → Z).

(** The end of [devinit]. *)
Lemma wp_devinit_rest (b : ioapic_bus) m madt xs id ids io l n polls f (pm : physmap) (k : kern) s
    (Q : unit → kern * dev ioapic_bus → Prop) :
  board_ok b m madt xs id ids io l n →
  connected handler xs id io l n (write_bytes m 32768 boot_ap) f s →
  TRAP_HANDLER k = handlers → lget l_x_map k = pm →
  (∀ k' s', connected handler xs id io l n (write_bytes m 32768 boot_ap)
     (with_line f IRQ_IDE1 (sent_to IRQ_IDE1 (u8 (Z.of_nat (length (enabled_ids xs)) - 1)))) s' →
     TRAP_HANDLER k' = handlers → lget l_x_map k' = pm → Q tt (k', s')) →
  wp (_ ← lift l_fst (lift l_x_bio bufcache_init);
      _ ← lift l_fst (lift l_x_fs file_init);
      _ ← lift l_fst (lift l_x_fs (lift l_f_ino inode_init));
      _ ← ide_init_kern polls;
      lift l_fst (lift l_x_ipc ipc_init)) Q (k, s).
Proof.
  intros Hbo Hs Hk Hm HQ. apply wp_bind, wp_lift, wp_lift, wp_bufcache_init_frame. intros o Ho.
  apply wp_bind, wp_lift, wp_lift, wp_lift, wp_modify, wp_bind, wp_lift, wp_lift, wp_lift, wp_lift, wp_modify.
  unfold ide_init_kern. apply wp_bind, wp_bind, wp_lift, wp_lift, wp_lift, wp_modify.
  apply wp_bind, wp_lift, wp_lift, wp_lift, wp_modify.
  match goal with |- wp _ _ (lset l_fst ?K _) => set (k1 := K) end.
  assert (TRAP_HANDLER k1 = handlers ∧ lget l_x_map k1 = pm) as [Hk1 Hm1].
  { split; [done|]. rewrite <- Hm. cbn. by rewrite Ho. }
  clearbody k1. cbn [lset l_fst l_snd fst snd].
  apply wp_bind, wp_lift. cbn [lget lset l_snd fst snd].
  apply (wp_ide_init handler b m madt xs id ids io l n boot_ap Hbo _ _ _ _ Hs). intros h s' Hs'.
  apply wp_lift, wp_lift, wp_modify, wp_lift, wp_lift. cbn [lget lset l_fst l_snd fst snd].
  apply wp_ipc_init_frame. intros i Hi. apply HQ; [done|done|]. rewrite <- Hm1. cbn. by rewrite Hi.
Qed.

(** Interrupts after [devinit].  On an idle machine ([Idle]: ports that always read the
    same, with a timer that has run out and a ready disk) whose firmware describes its
    processors and I/O APICs, [devinit] returns.  The lines of the timer, the keyboard
    and the serial line are sent to the boot processor with their vectors; the line of
    the disk goes to the APIC whose id is the number of processors less one, whether
    there is one or not.  The gates of these vectors lead to the entries of the kernel,
    and the kernel has its handler for them; every other line is masked.  The memory map
    is the one the boot loader left. *)
Lemma devinit_connects (polls : nat) (screen : list Z) (mbi : Z) (k : kern) (b : ioapic_bus) m madt xs
    id ids io l n (pm : physmap) :
  board_ok b m madt xs id ids io l n → trap_inited k = false → crt_pos (terminal (x_con k)) = 0 →
  pmmap_init (write_bytes m 32768 boot_ap) mbi (lget l_x_map k) = Ok (tt, pm) →
  ∃ k' s, devinit bsp_kstack_hi bsp_tss kstack_addr boot_ap handler polls screen mbi (k, dev_start b m)
          = Ok (tt, (k', s))
    ∧ routed io l n (lines_after id (Z.of_nat (length (enabled_ids xs)))) (hw s)
    ∧ idt_loaded (intr_v s) = true
    ∧ (∀ irq, irq ∈ trap_init_irqs →
         TRAP_HANDLER k' !! (T_IRQ0 + irq) = Some interrupt_cb
         ∧ aget (idt (intr_v s)) (T_IRQ0 + irq) = the_gate handler idt_gates (T_IRQ0 + irq))
    ∧ lget l_x_map k' = pm.
Proof.
  intros Hbo Hk Hc Hpm.
  assert (wp (devinit bsp_kstack_hi bsp_tss kstack_addr boot_ap handler polls screen mbi)
    (λ _ x, connected handler xs id io l n (write_bytes m 32768 boot_ap)
       (with_line (foldl (λ f irq, with_line f irq (sent_to irq id)) masked_entry trap_init_irqs)
          IRQ_IDE1 (sent_to IRQ_IDE1 (u8 (Z.of_nat (length (enabled_ids xs)) - 1)))) x.2
       ∧ TRAP_HANDLER x.1 = handlers ∧ lget l_x_map x.1 = pm) (k, dev_start b m)) as Hwp.
  { unfold devinit. apply wp_bind, wp_lift. unfold seg_init. apply wp_bind, wp_lift, wp_modify, wp_lift, wp_modify.
    apply wp_bind, wp_lift. cbn [lget lset l_fst l_snd l_con_hw fst snd].
    destruct (cons_init_board (x_con (lset l_proc_kstack ∅ (lset l_bsp_kstack zero k))) b screen)
      as (addr & c & E); [exact Hc|apply Hbo|].
    eapply run_wp; [exact E|]. cbn [fst snd]. apply wp_bind, wp_lift. unfold debug_init.
    apply wp_bind, wp_lift, wp_modify, wp_lift, wp_modify.
    match goal with |- wp _ _ (lset l_fst ?K _) => set (k1 := K) end.
    assert (trap_inited k1 = false ∧ lget l_x_map k1 = lget l_x_map k) as [Hk1 Hm1] by done.
    clearbody k1. clear E. cbn [lset l_fst fst snd].
    change (set_hw b (dev_start b m)) with (dev_start b m). rewrite <- Hm1 in Hpm.
    apply wp_bind, wp_lift. cbn [lget lset l_snd fst snd].
    pose proof Hbo as [Hfw Hcpus _ _ _ _ _ _ _ _ _ _ _].
    eapply (wp_pcpu_init kstack_addr boot_ap madt xs id ids); try done. intros s1 Hs1.
    apply wp_bind, wp_lift, wp_tsc_init. cbn [lget lset l_snd fst snd].
    apply wp_bind, wp_lift. cbn [lget lset l_snd fst snd].
    eapply (wp_intr_init handler b m madt xs id ids io l n boot_ap Hbo _ _ _ _ _ Hs1); [done|].
    intros s2 Hs2. cbn [lset l_snd fst snd]. unfold trap_init_bsp.
    apply wp_bind, wp_bind, wp_lift, wp_trap_init; [done|]. cbn [lget lset l_fst l_snd fst snd].
    apply wp_lift. cbn [lget lset l_fst l_snd fst snd].
    apply (wp_intr_enable_all handler b m madt xs id ids io l n boot_ap Hbo _ _ _ _ Hs2);
      [by repeat constructor|]. intros s3 Hs3. cbn [lset l_snd fst snd].
    apply wp_bind, wp_lift, wp_gets. cbn [lget lset l_snd fst snd]. rewrite (co_bios _ _ _ _ _ _ _ _ _ Hs3).
    apply wp_bind, wp_lift, wp_lift. cbn [lget lset l_fst fst snd].
    eapply run_wp; [exact Hpm|]. by apply (wp_devinit_rest b m madt xs id ids io l n _ _ pm _ _ _ Hbo Hs3). }
  apply wp_run in Hwp as ([] & [k' s] & E & Hs & Hh & Hmap). cbn [fst snd] in Hs, Hh, Hmap.
  exists k', s. split; [done|]. split.
  { destruct (co_routed _ _ _ _ _ _ _ _ _ Hs) as [H1 (r & Hr & Hn & Hf) H3]. split; [done| |done].
    exists r. split; [done|]. split; [done|]. intros j Hj. rewrite <- lines_after_ok. by apply Hf. }
  split; [apply Hs|]. split; [|done].
  intros irq Hirq. split.
  - rewrite Hh. revert irq Hirq. apply Forall_forall. by repeat constructor.
  - apply (co_gates _ _ _ _ _ _ _ _ _ Hs). revert irq Hirq. apply Forall_forall. by repeat constructor.
Qed.
End Final.
End Board.

(** ** An example *)

Definition sample_ports (port : Z) : Z := if port =? 97 then 32 else if port =? 503 then 64 else 0.
Definition sample_cpu (leaf subleaf : Z) : Z * Z * Z * Z := if leaf =? 1 then (0, 0, 0, 512) else (0, 0, 0, 0).

#[local] Instance sample_idle : Idle sample_ports sample_cpu.
Proof. split; [done|done|done|]. cbn. by repeat constructor. Qed.

(** The tables of the firmware and, at 16384, the information of the boot loader. *)
Definition sample_memory : mem :=
  let m := write32 (write32 sample_firmware (16384 + 44) 24) (16384 + 48) 20480 in
  write32 (write32 (write32 m (20480 + 4) 1048576) (20480 + 12) 2145386496) (20480 + 20) 1.

Definition sample_board : ioapic_bus := {[4273995776 := IoapicDev 0 {[1 := 1507345]}]}.

Lemma sample_off_bus a : a ≠ 4273995776 → a ≠ 4273995792 → off_bus sample_board a.
Proof.
  intros H1 H2. unfold off_bus, sample_board, regs_of. rewrite map_fmap_singleton.
  rewrite !lookup_singleton_ne by lia. done.
Qed.

Lemma sample_board_ok :
  board_ok sample_board sample_memory 8192 sample_entries 4 [6] (Ioapic 4273995776 9 0) [] 23.
Proof.
  split.
  - split.
    + intros [h bm p a i v t] E. cbn in E. subst bm. vm_compute. reflexivity.
    + done.
    + repeat constructor; cbn; unfold is_u32, two32; lia.
    + apply bytes_at_read. vm_compute. reflexivity.
    + vm_compute. reflexivity.
    + vm_compute. reflexivity.
  - done.
  - by vm_compute.
  - lia.
  - done.
  - apply NoDup_singleton.
  - intros a [d Hd]. unfold sample_board in *. apply lookup_singleton_Some in Hd as [<- _].
    split; [by vm_compute|]. by rewrite lookup_singleton_ne.
  - repeat constructor; cbn; try lia. by eexists.
  - exists {[1 := 1507345]}. split; by vm_compute.
  - done.
  - lia.
  - by apply sample_off_bus.
  - assert (madt_lapic_addr sample_memory 8192 = 4276092928) as -> by (vm_compute; reflexivity).
    split; [done|]. intros i Hi. rewrite u32_small by (unfold is_u32, two32; lia).
    apply sample_off_bus; lia.
Qed.

