(* ===== verification/Boot.v ===== *)
(** * The boot loader (boot/boot1/boot1main.c, boot/boot1/boot1lib.c)

    Its second stage runs in protected mode without paging: it writes to the text
    screen, reads the memory map of the BIOS, finds the bootable partition and loads
    the kernel from there. *)

From S2P Require Import Prelude Memory Spinlock Console Tcb TQueue Thread Signal Ipc Bufcache Proc.
From S2P Require Import Machine Ide.

(** The memory, the hardware, and the static variables [row] and [puti_str]. *)
Record boot (D : Type) := BootState {
  bt_hw : D; bt_mem : mem; bt_row : Z; puti_str : list Z
}.
Arguments BootState {D} _ _ _ _.
Arguments bt_hw {D} _.
Arguments bt_mem {D} _.
Arguments bt_row {D} _.
Arguments puti_str {D} _.

Definition l_bt_hw {D} : lens (boot D) D :=
  Lens bt_hw (λ h s, BootState h (bt_mem s) (bt_row s) (puti_str s)).
Definition set_bt_mem {D} (m : mem) (s : boot D) : boot D :=
  BootState (bt_hw s) m (bt_row s) (puti_str s).

(** ** Strings and numbers *)

Fixpoint boot_strlen (s : list Z) : option Z :=
  match s with
  | [] => None
  | c :: s => if c =? 0 then Some 0 else Z.succ <$> boot_strlen s
  end.

(** [s[i]] and [s[i] = c] in an array. *)
Definition at_ (s : list Z) (i : Z) : option Z := if 0 <=? i then s !! Z.to_nat i else None.
Definition put_at (s : list Z) (i c : Z) : option (list Z) :=
  _ ← at_ s i; Some (<[Z.to_nat i := c]> s).

(** The loop of [reverse]: [n] bounds the exchanges. *)
Fixpoint reverse_loop (n : nat) (s : list Z) (i j : Z) : option (list Z) :=
  match n with
  | O => Some s
  | S n =>
    if i <? j then
      c ← at_ s i;
      d ← at_ s j;
      s ← put_at s i d;
      s ← put_at s j c;
      reverse_loop n s (i + 1) (j - 1)
    else Some s
  end.
Definition reverse_str (s : list Z) : option (list Z) :=
  n ← boot_strlen s; reverse_loop (length s) s 0 (n - 1).

(** The digits of [n], least first: the array and the number of them.  Division is
    that of C, which rounds to zero. *)
Fixpoint itox_digits (fuel : nat) (n : Z) (s : list Z) (i root : Z) (table : list Z)
    : option (list Z * Z) :=
  match fuel with
  | O => None
  | S fuel =>
    c ← at_ table (Z.rem n root);
    s ← put_at s i c;
    let n := Z.quot n root in
    if 0 <? n then itox_digits fuel n s (i + 1) root table else Some (s, i + 1)
  end.

(** A number of 32 bits has at most 32 digits in any base. *)
Definition itox (n : Z) (s : list Z) (root : Z) (table : list Z) : option (list Z) :=
  let sign := n in
  let n := if sign <? 0 then s32 (- n) else n in
  '(s, i) ← itox_digits 32 n s 0 root table;
  '(s, i) ← (if sign <? 0 then s ← put_at s i 45; Some (s, i + 1) else Some (s, i));
  s ← put_at s i 0;
  reverse_str s.

Definition dec : list Z := codes "0123456789".
Definition hex : list Z := codes "0123456789abcdef".
Definition itoa (n : Z) (s : list Z) : option (list Z) := itox n s 10 dec.
Definition itoh (n : Z) (s : list Z) : option (list Z) := itox n s 16 hex.

Section Boot.
Context {D : Type} `{HW : Hw D}.

(** ** The screen *)

Definition CRT_ROWS : Z := 25.
Definition VIDEO : Z := 753664.

Definition putc (l color ch : Z) : M (boot D) unit :=
  modify (λ s, set_bt_mem (write8 (write8 (bt_mem s) (VIDEO + l * 2) ch) (VIDEO + l * 2 + 1) color) s).

(** A string is the list of its characters. *)
Fixpoint puts_from (l color : Z) (str : list Z) : M (boot D) Z :=
  match str with
  | [] => mret l
  | c :: str => _ ← putc l color c; puts_from (l + 1) color str
  end.
Definition puts (r c color : Z) (str : list Z) : M (boot D) Z := puts_from (r * 80 + c) color str.

Definition roll (r : Z) : M (boot D) unit :=
  modify (λ s, BootState (bt_hw s) (bt_mem s) r (puti_str s)).

Definition putline (str : list Z) : M (boot D) unit :=
  r ← gets bt_row;
  let row := if CRT_ROWS <=? r then 0 else r + 1 in
  _ ← roll row;
  _ ← puts row 0 0 (replicate 80 32);
  _ ← puts row 0 15 str;
  mret tt.

(** It halts. *)
Definition boot_panic {A} (msg : string) : M (boot D) A :=
  _ ← puts 0 0 4 (codes msg); fail (Panic msg).

(** The characters before the zero. *)
Fixpoint string_of (s : list Z) : list Z :=
  match s with [] => [] | c :: s => if c =? 0 then [] else c :: string_of s end.

Definition puti (i : Z) : M (boot D) unit :=
  b ← gets puti_str;
  match itoh i b with
  | None => fail (OutOfBounds "hex" i)
  | Some b =>
    _ ← modify (λ s, BootState (bt_hw s) (bt_mem s) (bt_row s) b);
    putline (string_of b)
  end.

(** ** The disk *)

Definition SECTOR_SIZE : Z := 512.

Fixpoint waitdisk (polls : nat) : M D unit :=
  r ← inb 503;
  if negb (Z.land r 192 =? 64) then
    match polls with O => fail OutOfFuel | S polls => waitdisk polls end
  else mret tt.

Definition readsector (polls : nat) (dst offset : Z) : M (boot D) unit :=
  bs ← lift l_bt_hw (
    _ ← waitdisk polls;
    _ ← outb 498 1;
    _ ← outb 499 (u8 offset);
    _ ← outb 500 (u8 (Z.shiftr offset 8));
    _ ← outb 501 (u8 (Z.shiftr offset 16));
    _ ← outb 502 (u8 (Z.lor (Z.shiftr offset 24) 224));
    _ ← outb 503 32;
    _ ← waitdisk polls;
    insl 496 (SECTOR_SIZE / 4));
  modify (λ s, set_bt_mem (write_bytes (bt_mem s) dst bs) s).

(** The loop of [readsection]. *)
Fixpoint read_sectors (fuel polls : nat) (va end_va offset : Z) : M (boot D) unit :=
  if va <? end_va then
    match fuel with
    | O => fail OutOfFuel
    | S fuel =>
      _ ← readsector polls va offset;
      read_sectors fuel polls (u32 (va + SECTOR_SIZE)) end_va (u32 (offset + 1))
    end
  else mret tt.

Definition readsection (polls : nat) (va count offset lba : Z) : M (boot D) unit :=
  let va := Z.land va 16777215 in
  let end_va := u32 (va + count) in
  let va := Z.land va (Z.lnot (SECTOR_SIZE - 1)) in
  let offset := u32 (offset / SECTOR_SIZE + lba) in
  read_sectors (Z.to_nat (end_va / SECTOR_SIZE + 1)) polls va end_va offset.

(** ** The kernel *)

Definition ELFHDR : Z := 131072.

(** The loop over the program headers, which are read as it reaches them. *)
Fixpoint load_headers (n polls : nat) (ph lba : Z) : M (boot D) unit :=
  match n with
  | O => mret tt
  | S n =>
    h ← gets (λ s, read_proghdr (bt_mem s) ph);
    _ ← readsection polls (p_va h) (p_memsz h) (p_offset h) lba;
    load_headers n polls (ph + 32) lba
  end.

Definition load_kernel (polls : nat) (dkernel : Z) : M (boot D) Z :=
  _ ← readsection polls ELFHDR (SECTOR_SIZE * 8) 0 dkernel;
  m ← gets bt_mem;
  if negb (e_magic m ELFHDR =? ELF_MAGIC) then boot_panic "Kernel is not a valid elf."
  else
    _ ← load_headers (Z.to_nat (e_phnum m ELFHDR)) polls (u32 (ELFHDR + e_phoff m ELFHDR)) dkernel;
    m ← gets bt_mem;
    mret (Z.land (e_entry m ELFHDR) 16777215).

(** ** The memory map *)

Definition smap_zero (m : mem) (p : Z) : bool :=
  (read32 m (p + 4) =? 0) && (read32 m (p + 8) =? 0) && (read32 m (p + 12) =? 0)
  && (read32 m (p + 16) =? 0) && (read32 m (p + 20) =? 0).

(** The loop of [parse_e820]: it ends at an entry of zeros. *)
Fixpoint e820_loop (fuel : nat) (p mmap_len : Z) : M (boot D) Z :=
  m ← gets bt_mem;
  if smap_zero m p then mret mmap_len
  else
    match fuel with
    | O => fail OutOfFuel
    | S fuel =>
      _ ← puti (s32 (read32 m (p + 4)));
      e820_loop fuel (u32 (p + 24)) (u32 (mmap_len + 24))
    end.

(** [mboot_info] is a variable of the loader, at an address. *)
Definition parse_e820 (fuel : nat) (mboot_info smap : Z) : M (boot D) unit :=
  _ ← putline (codes "* E820 Memory Map *");
  len ← e820_loop fuel smap 0;
  modify (λ s, set_bt_mem (write32 (write32 (bt_mem s) (mboot_info + 44) len) (mboot_info + 48) smap) s).

(** ** main *)

(** The search for the bootable partition: [k] of the four are left. *)
Fixpoint find_partition (k : nat) (m : mem) (entry : Z) : option Z :=
  match k with
  | O => None
  | S k =>
    if read8 m entry =? 128 then Some (read32 m (entry + 8)) else find_partition k m (entry + 16)
  end.

(** The address the kernel is entered at. *)
Definition boot1main (fuel polls : nat) (mboot_info mbr smap : Z) : M (boot D) Z :=
  _ ← roll 3;
  _ ← putline (codes "Start boot1 main ...");
  m ← gets bt_mem;
  match find_partition 4 m (mbr + 446) with
  | None => boot_panic "Cannot find bootable partition!"
  | Some bootable_lba =>
    _ ← parse_e820 fuel mboot_info smap;
    _ ← putline (codes "Load kernel ..." ++ [10]);
    entry ← load_kernel polls bootable_lba;
    _ ← putline (codes "Start kernel ..." ++ [10]);
    mret entry
  end.
End Boot.
