(* ===== verification/BootProps.v ===== *)
(** * Theorems about the boot loader *)

From S2P Require Import Prelude Memory Spinlock Console Tcb TQueue Thread Signal Ipc Bufcache Proc.
From S2P Require Import Log Block Inode Machine Ide Boot.

(** The image of the kernel on the first disk: its bytes from sector [lba] on. *)
Definition image_byte (a : ata) (lba off : Z) : Z :=
  u8 (nth (Z.to_nat (off mod 512)) (sector_at a (0, lba + off / 512)) 0).

(** A controller that answers within [polls] looks, with whole sectors. *)
Record disk_works (polls : nat) (a : ata) : Prop := {
  dw_busy : (a_busy a ≤ polls)%nat;
  dw_latency : (a_latency a ≤ polls)%nat;
  dw_sectors : ∀ k, length (sector_at a k) = 512%nat
}.

Lemma waitdisk_ready polls (a : ata) :
  (a_busy a ≤ polls)%nat → waitdisk polls a = Ok (tt, ata_set_busy 0 a).
Proof.
  revert a. induction polls as [|polls IH]; intros [d c0 l m h dr i w b t p e] Hb; cbn in Hb;
    (destruct b as [|b]; [by destruct e, i, w|]); [lia|].
  change (waitdisk polls (Ata d c0 l m h dr i w b t p e) = Ok (tt, ata_set_busy 0 (Ata d c0 l m h dr i w b t p e))).
  apply IH. cbn. lia.
Qed.

(** The registers for a sector of 28 bits. *)
Lemma boot_registers offset : 0 ≤ offset < 268435456 →
  let r := u8 (Z.lor (Z.shiftr offset 24) 224) in
  Z.land (Z.shiftr r 4) 1 = 0
  ∧ u8 offset + 256 * u8 (Z.shiftr offset 8) + 65536 * u8 (Z.shiftr offset 16)
    + 16777216 * Z.land r 15 = offset.
Proof.
  intros Ho. cbn zeta. rewrite !Z.shiftr_div_pow2 by lia.
  change (2 ^ 8) with 256. change (2 ^ 16) with 65536. change (2 ^ 24) with 16777216.
  assert (0 ≤ offset / 16777216 < 16) as Hx by (Z.to_euclidean_division_equations; lia).
  assert (forallb (λ x, (Z.land (u8 (Z.lor x 224) / 2 ^ 4) 1 =? 0) && (Z.land (u8 (Z.lor x 224)) 15 =? x))
    (seqZ 0 16) = true) as H by (vm_compute; reflexivity).
  rewrite forallb_forall in H. specialize (H (offset / 16777216) ltac:(apply list_elem_of_In, elem_of_seqZ; lia)).
  apply andb_true_iff in H as [H1%Z.eqb_eq H2%Z.eqb_eq]. split; [done|]. rewrite H2. unfold u8.
  Z.to_euclidean_division_equations; lia.
Qed.

Definition with_bt (a : ata) (m : mem) (s : boot ata) : boot ata := BootState a m (bt_row s) (puti_str s).

Lemma wp_readsector polls dst offset (s : boot ata) Q :
  disk_works polls (bt_hw s) → 0 ≤ offset < 268435456 →
  (∀ a, disk_works polls a → a_disk a = a_disk (bt_hw s) →
     Q tt (with_bt a (write_bytes (bt_mem s) dst (sector_at (bt_hw s) (0, offset))) s)) →
  wp (readsector polls dst offset) Q s.
Proof.
  intros [Hb Hl Hs] Ho HQ. destruct (boot_registers offset Ho) as [Hd Hk].
  unfold readsector. apply wp_bind, wp_lift. cbn [lget l_bt_hw].
  set (a := bt_hw s) in *.
  set (r := Ata (a_disk a) 1 (u8 offset) (u8 (Z.shiftr offset 8)) (u8 (Z.shiftr offset 16))
    (u8 (Z.lor (Z.shiftr offset 24) 224)) (a_in a) (a_write a) 0 (a_latency a) (a_prep a) (a_err a)).
  assert (ata_key r = (0, offset)) as Hkey by (unfold ata_key, r; cbn [a_drive a_low a_mid a_high]; by rewrite Hd, Hk).
  set (r1 := ata_command 32 r).
  assert ((a_busy r1 ≤ polls)%nat) as Hb1 by exact Hl.
  assert (a_in r1 = sector_at a (0, offset)) as Hin.
  { change (a_in r1) with (if defective r (ata_key r) then [] else sector_at r (ata_key r)).
    rewrite Hkey. unfold defective. change (sector_at r) with (sector_at a). by rewrite Hs. }
  eapply run_wp.
  { rewrite (bind_run _ _ _ _ _ (waitdisk_ready polls a Hb)).
    transitivity ((_ ← waitdisk polls; insl 496 (SECTOR_SIZE / 4)) r1); [by destruct a|].
    rewrite (bind_run _ _ _ _ _ (waitdisk_ready polls r1 Hb1)).
    apply (ata_insl (ata_set_busy 0 r1) eq_refl).
    change (a_in (ata_set_busy 0 r1)) with (a_in r1). by rewrite Hin. }
  apply wp_modify. change (a_in (ata_set_busy 0 r1)) with (a_in r1). rewrite Hin.
  apply (HQ (ata_data_in 512 (ata_set_busy 0 r1))); [|done].
  split; [cbn; lia|exact Hl|exact Hs].
Qed.

(** The part of the memory that [n] sectors from [offset] on fill. *)
Lemma wp_read_sectors n : ∀ fuel polls va end_va offset (s : boot ata) Q,
  disk_works polls (bt_hw s) → 0 ≤ va → va + 512 * Z.of_nat n < two32 →
  va + 512 * (Z.of_nat n - 1) < end_va ∨ n = 0%nat → end_va ≤ va + 512 * Z.of_nat n →
  0 ≤ offset → offset + Z.of_nat n ≤ 268435456 → (n ≤ fuel)%nat →
  (∀ a m, disk_works polls a → a_disk a = a_disk (bt_hw s) →
     (∀ x, read8 m x = if decide (va ≤ x < va + 512 * Z.of_nat n)
        then image_byte (bt_hw s) offset (x - va) else read8 (bt_mem s) x) →
     Q tt (with_bt a m s)) →
  wp (read_sectors fuel polls va end_va offset) Q s.
Proof.
  induction n as [|n IH]; intros fuel polls va end_va offset s Q Hd Hva Hlt Hlo Hhi Ho Hob Hf HQ.
  - assert (read_sectors fuel polls va end_va offset s = Ok (tt, s)) as E.
    { destruct fuel; cbn; by destruct (Z.ltb_spec va end_va); [lia|]. }
    eapply run_wp; [exact E|]. replace s with (with_bt (bt_hw s) (bt_mem s) s) by by destruct s.
    apply HQ; [done|done|]. intros x. by rewrite decide_False by lia.
  - destruct fuel as [|fuel]; [lia|]. cbn [read_sectors]. destruct (Z.ltb_spec va end_va); [|lia].
    apply wp_bind, wp_readsector; [done|lia|]. intros a Ha Ed. unfold SECTOR_SIZE.
    assert (∀ k, sector_at a k = sector_at (bt_hw s) k) as Esec by (intros k; unfold sector_at; by rewrite Ed).
    rewrite !u32_small by (unfold is_u32, two32 in *; lia).
    apply (IH fuel); cbn [bt_hw with_bt bt_mem]; [done|lia|lia|lia|lia|lia|lia|lia|].
    intros a' m Ha' Ed' Hm. apply (HQ a' m Ha'); [congruence|]. intros x. rewrite Hm.
    rewrite read8_write_bytes, (dw_sectors _ _ Hd).
    destruct (decide (va + 512 ≤ x < va + 512 + 512 * Z.of_nat n)).
    + rewrite decide_True by lia. unfold image_byte. rewrite Esec.
      replace (x - va) with (x - (va + 512) + 1 * 512) by lia.
      rewrite Z.mod_add, Z.div_add by lia. do 4 f_equal. lia.
    + destruct (decide (va ≤ x < va + Z.of_nat 512)); [|by rewrite decide_False by lia].
      rewrite decide_True by lia. unfold image_byte.
      by rewrite Z.mod_small, Z.div_small, Z.add_0_r by lia.
Qed.

(** Where a section goes: its address in the first 16 MB, and the sectors it is
    rounded to. *)
Definition sec_va (va : Z) : Z := Z.land va 16777215.
Definition sec_start (va : Z) : Z := sec_va va - sec_va va mod 512.
Definition sec_end (va count : Z) : Z :=
  sec_start va + 512 * ((sec_va va + count - sec_start va + 511) / 512).

Lemma sec_start_land va : Z.land (sec_va va) (Z.lnot (SECTOR_SIZE - 1)) = sec_start va.
Proof.
  rewrite <- Z.ldiff_land. change (SECTOR_SIZE - 1) with (Z.ones 9). rewrite Z.ldiff_ones_r by lia.
  rewrite Z.shiftl_mul_pow2, Z.shiftr_div_pow2 by lia. change (2 ^ 9) with 512. unfold sec_start.
  pose proof (Z.div_mod (sec_va va) 512 ltac:(lia)). lia.
Qed.

Lemma sec_va_range va : 0 ≤ sec_va va < 16777216.
Proof.
  unfold sec_va. rewrite (Z.land_ones va 24 ltac:(lia) : Z.land va 16777215 = va mod 16777216).
  apply Z.mod_pos_bound. lia.
Qed.

(** A section that can be read: it lies in the image as in memory, relative to
    sectors, and neither the memory nor the disk ends before it. *)
Record sec_ok (va count offset lba : Z) : Prop := {
  so_count : 0 ≤ count; so_offset : 0 ≤ offset; so_lba : 0 ≤ lba;
  so_congruent : sec_va va mod 512 = offset mod 512;
  so_memory : sec_end va count < two32;
  so_disk : offset / 512 + lba + (sec_end va count - sec_start va) / 512 ≤ 268435456
}.

Lemma wp_readsection polls va count offset lba (s : boot ata) Q :
  disk_works polls (bt_hw s) → sec_ok va count offset lba →
  (∀ a m, disk_works polls a → a_disk a = a_disk (bt_hw s) →
     (∀ x, read8 m x = if decide (sec_start va ≤ x < sec_end va count)
        then image_byte (bt_hw s) lba (offset + (x - sec_va va)) else read8 (bt_mem s) x) →
     Q tt (with_bt a m s)) →
  wp (readsection polls va count offset lba) Q s.
Proof.
  intros Hd [Hc Ho Hl Hcong Hm Hdk] HQ. pose proof (sec_va_range va) as Hv.
  unfold readsection. fold (sec_va va). rewrite sec_start_land.
  set (n := (sec_va va + count - sec_start va + 511) / 512).
  assert (sec_end va count = sec_start va + 512 * n) as En by done.
  assert (0 ≤ sec_va va mod 512 < 512) as Hmod by (apply Z.mod_pos_bound; lia).
  assert (0 ≤ sec_start va ≤ sec_va va) as Hst.
  { unfold sec_start. split; [|lia]. pose proof (Z.mod_le (sec_va va) 512). lia. }
  assert (sec_va va + count - sec_start va + 511 = 512 * n + (sec_va va + count - sec_start va + 511) mod 512)
    as Hn by (apply Z.div_mod; lia).
  pose proof (Z.mod_pos_bound (sec_va va + count - sec_start va + 511) 512 ltac:(lia)) as Hr.
  assert ((sec_end va count - sec_start va) / 512 = n) as Edk.
  { rewrite En. replace (sec_start va + 512 * n - sec_start va) with (n * 512) by lia. by rewrite Z.div_mul. }
  rewrite Edk in Hdk. pose proof (Z.div_pos offset 512 Ho ltac:(lia)).
  unfold SECTOR_SIZE. rewrite !u32_small by (unfold is_u32, two32 in *; lia).
  assert (n ≤ (sec_va va + count) / 512 + 1) as Hfuel by (Z.to_euclidean_division_equations; lia).
  assert (0 ≤ (sec_va va + count) / 512) by (apply Z.div_pos; lia).
  apply (wp_read_sectors (Z.to_nat n)); try done; try lia.
  intros a m Ha Ed Hx. apply (HQ a m Ha Ed). intros x. rewrite Hx, En.
  replace (sec_start va + 512 * Z.of_nat (Z.to_nat n)) with (sec_start va + 512 * n) by lia.
  case_decide; [|done]. unfold image_byte.
  replace (offset + (x - sec_va va)) with (x - sec_start va + offset / 512 * 512).
  2: { unfold sec_start. pose proof (Z.div_mod offset 512 ltac:(lia)). lia. }
  rewrite Z.mod_add, Z.div_add by lia. do 4 f_equal. lia.
Qed.

(** ** The kernel *)

(** The header area, read from the image. *)
Definition header_of (a : ata) (lba : Z) (m : mem) : Prop :=
  ∀ x, 0 ≤ x < 4096 → read8 m (ELFHDR + x) = image_byte a lba x.

(** A segment can be read, and does not cover the header area. *)
Definition seg_ok (lba : Z) (h : proghdr) : Prop :=
  sec_ok (p_va h) (p_memsz h) (p_offset h) lba
  ∧ (sec_end (p_va h) (p_memsz h) ≤ ELFHDR ∨ ELFHDR + 4096 ≤ sec_start (p_va h)).

(** The sectors of a later segment do not reach into an earlier one. *)
Definition seg_apart (h h' : proghdr) : Prop :=
  sec_end (p_va h') (p_memsz h') ≤ sec_va (p_va h)
  ∨ sec_va (p_va h) + p_memsz h ≤ sec_start (p_va h').
Fixpoint segs_apart (hs : list proghdr) : Prop :=
  match hs with [] => True | h :: hs => Forall (seg_apart h) hs ∧ segs_apart hs end.

(** A segment is in memory. *)
Definition seg_loaded (a : ata) (lba : Z) (m : mem) (h : proghdr) : Prop :=
  ∀ i, 0 ≤ i < p_memsz h → read8 m (sec_va (p_va h) + i) = image_byte a lba (p_offset h + i).

Lemma read_proghdr_ext m m' p :
  (∀ x, p ≤ x < p + 32 → read8 m' x = read8 m x) → read_proghdr m' p = read_proghdr m p.
Proof. intros H. unfold read_proghdr. f_equal; apply read32_ext; intros k Hk; apply H; lia. Qed.

Lemma image_byte_disk a a' lba x : a_disk a' = a_disk a → image_byte a' lba x = image_byte a lba x.
Proof. intros E. unfold image_byte, sector_at. by rewrite E. Qed.

(** The exact bytes of a segment lie in its sectors. *)
Lemma sec_inside va count offset lba i :
  sec_ok va count offset lba → 0 ≤ i < count → sec_start va ≤ sec_va va + i < sec_end va count.
Proof.
  intros Hs Hi. unfold sec_end, sec_start.
  pose proof (Z.mod_pos_bound (sec_va va) 512 ltac:(lia)).
  pose proof (Z.div_mod (sec_va va + count - (sec_va va - sec_va va mod 512) + 511) 512 ltac:(lia)).
  pose proof (Z.mod_pos_bound (sec_va va + count - (sec_va va - sec_va va mod 512) + 511) 512 ltac:(lia)).
  lia.
Qed.

Lemma wp_load_headers hs : ∀ polls ph lba (s : boot ata) Q,
  disk_works polls (bt_hw s) → Forall (seg_ok lba) hs → segs_apart hs →
  ELFHDR ≤ ph → ph + 32 * Z.of_nat (length hs) ≤ ELFHDR + 4096 →
  (∀ k h, hs !! k = Some h → read_proghdr (bt_mem s) (ph + 32 * Z.of_nat k) = h) →
  (∀ a m, disk_works polls a → a_disk a = a_disk (bt_hw s) →
     Forall (seg_loaded (bt_hw s) lba m) hs →
     (∀ x, Forall (λ h, ¬ (sec_start (p_va h) ≤ x < sec_end (p_va h) (p_memsz h))) hs →
        read8 m x = read8 (bt_mem s) x) →
     Q tt (with_bt a m s)) →
  wp (load_headers (length hs) polls ph lba) Q s.
Proof.
  induction hs as [|h hs IH]; intros polls ph lba s Q Hd Hok Hap Hlo Hhi Hread HQ; cbn [length load_headers].
  - apply wp_ret. replace s with (with_bt (bt_hw s) (bt_mem s) s) by by destruct s. by apply HQ.
  - apply Forall_cons in Hok as [[Hsec Hfree] Hok]. destruct Hap as [Haph Hap]. cbn [length] in Hhi.
    apply wp_bind, wp_gets.
    assert (read_proghdr (bt_mem s) ph = h) as -> by (rewrite <- (Hread 0%nat h eq_refl); f_equal; lia).
    apply wp_bind, wp_readsection; [done|done|]. intros a1 m1 Hd1 Ed1 Hm1.
    apply (IH polls (ph + 32) lba (with_bt a1 m1 s)); cbn [bt_hw bt_mem with_bt]; [done|done|done|lia|lia| |].
    + intros k h' Hk. rewrite (read_proghdr_ext (bt_mem s)).
      * rewrite <- (Hread (S k) h' Hk). f_equal. lia.
      * intros x Hx. apply lookup_lt_Some in Hk. rewrite Hm1, decide_False by lia. done.
    + intros a2 m2 Hd2 Ed2 Hall Hfr. apply (HQ a2 m2 Hd2); [congruence| |].
      * constructor.
        -- intros i Hi. pose proof (sec_inside _ _ _ _ i Hsec Hi). rewrite Hfr.
           ++ rewrite Hm1, decide_True by done. f_equal. lia.
           ++ eapply Forall_impl; [exact Haph|]. intros h' Hsep. unfold seg_apart in Hsep. cbn beta. lia.
        -- eapply Forall_impl; [exact Hall|]. intros h' Hl i Hi. rewrite (Hl i Hi).
           by apply image_byte_disk.
      * intros x Hx. apply Forall_cons in Hx as [Hx1 Hx]. rewrite Hfr by done.
        by rewrite Hm1, decide_False.
Qed.

(** C17: Loading the kernel.  When the image on the disk has an ELF header whose program
    headers lie in its first eight sectors, and its segments do not collide,
    [load_kernel] returns the entry point in the first 16 MB, with every segment in
    memory at its address as the image has it. *)
Theorem load_kernel_correct polls lba (s : boot ata) (hdr : mem) (hs : list proghdr) :
  disk_works polls (bt_hw s) → 0 ≤ lba → lba + 8 ≤ 268435456 →
  header_of (bt_hw s) lba hdr →
  e_magic hdr ELFHDR = ELF_MAGIC → Z.of_nat (length hs) = e_phnum hdr ELFHDR →
  e_phoff hdr ELFHDR + 32 * Z.of_nat (length hs) ≤ 4096 →
  (∀ k h, hs !! k = Some h →
     read_proghdr hdr (ELFHDR + e_phoff hdr ELFHDR + 32 * Z.of_nat k) = h) →
  Forall (seg_ok lba) hs → segs_apart hs →
  ∃ s', load_kernel polls lba s = Ok (Z.land (e_entry hdr ELFHDR) 16777215, s')
    ∧ Forall (seg_loaded (bt_hw s) lba (bt_mem s')) hs.
Proof.
  intros Hd Hl Hl8 Hhdr Hmag Hnum Hoff Hread Hok Hap. apply wp_run_val. unfold load_kernel.
  apply wp_bind. apply wp_readsection; [done| |].
  { split; [done|done|done|done|done|]. change ((sec_end ELFHDR (SECTOR_SIZE * 8) - sec_start ELFHDR) / 512) with 8.
    change (0 / 512) with 0. lia. }
  intros a m Hd1 Ed1 Hm. change (sec_start ELFHDR) with ELFHDR in Hm.
  change (sec_end ELFHDR (SECTOR_SIZE * 8)) with (ELFHDR + 4096) in Hm. change (sec_va ELFHDR) with ELFHDR in Hm.
  assert (∀ x, ELFHDR ≤ x < ELFHDR + 4096 → read8 m x = read8 hdr x) as Hsame.
  { intros x Hx. rewrite Hm, decide_True by done. replace x with (ELFHDR + (x - ELFHDR)) at 2 by lia.
    rewrite Hhdr by lia. f_equal. }
  assert (∀ m' p, (∀ x, ELFHDR ≤ x < ELFHDR + 4096 → read8 m' x = read8 hdr x) →
    ELFHDR ≤ p → p + 4 ≤ ELFHDR + 4096 → read32 m' p = read32 hdr p) as H32.
  { intros m' p Hs Hp1 Hp2. apply read32_ext. intros k Hk. apply Hs. lia. }
  apply wp_bind, wp_gets. cbn [bt_mem with_bt]. unfold e_magic, e_phoff, e_entry, e_phnum in *.
  rewrite (H32 m), Hmag by (done || lia). change (ELF_MAGIC =? ELF_MAGIC) with true. cbn [negb].
  rewrite (H32 m (ELFHDR + 28)) by (done || lia).
  replace (read16 m (ELFHDR + 44)) with (read16 hdr (ELFHDR + 44))
    by (unfold read16; by rewrite !Hsame by (unfold ELFHDR; lia)).
  rewrite <- Hnum, Nat2Z.id. pose proof (read32_range hdr (ELFHDR + 28)) as Hr.
  rewrite u32_small by (unfold is_u32, two32, ELFHDR in *; lia).
  apply wp_bind, wp_load_headers; cbn [bt_hw bt_mem with_bt]; [done|done|done|unfold is_u32 in Hr; lia|lia| |].
  { intros k h Hk. rewrite <- (Hread k h Hk). apply read_proghdr_ext. intros x Hx.
    apply lookup_lt_Some in Hk. apply Hsame. unfold is_u32 in Hr. lia. }
  intros a2 m2 Hd2 Ed2 Hall Hfr. apply wp_bind, wp_gets, wp_ret. cbn [bt_mem with_bt]. split.
  - f_equal. apply H32; [|lia|unfold ELFHDR; lia]. intros x Hx. rewrite Hfr; [by apply Hsame|].
    eapply Forall_impl; [exact Hok|]. intros h [_ Hfree]. cbn beta. lia.
  - eapply Forall_impl; [exact Hall|]. intros h Hld i Hi. rewrite (Hld i Hi). by apply image_byte_disk.
Qed.

(** A disk whose kernel has one segment of five bytes. *)
Definition le4 (v : Z) : list Z := byte_of v <$> [0; 1; 2; 3].
Definition sample_header : list Z :=
  le4 ELF_MAGIC ++ replicate 20 0 ++ le4 1048592 ++ le4 52 ++ replicate 12 0 ++ [1; 0] ++ replicate 6 0
  ++ le4 1 ++ le4 4112 ++ le4 1048592 ++ le4 0 ++ le4 5 ++ le4 5 ++ le4 0 ++ le4 0.
Definition pad512 (bs : list Z) : list Z := bs ++ replicate (512 - length bs) 0.
Definition sample_ata : ata :=
  Ata {[ (0, 1) := pad512 sample_header; (0, 9) := pad512 (replicate 16 0 ++ [144; 144; 235; 254; 7]) ]}
    0 0 0 0 0 [] None 2 3 0 false.
Definition sample_hdr : mem := write_bytes ∅ ELFHDR sample_header.

Lemma sample_header_of : header_of sample_ata 1 sample_hdr.
Proof.
  intros x Hx. apply Z.eqb_eq.
  assert (forallb (λ x, read8 sample_hdr (ELFHDR + x) =? image_byte sample_ata 1 x) (seqZ 0 4096) = true) as H
    by (vm_compute; reflexivity).
  rewrite forallb_forall in H. apply H, list_elem_of_In, elem_of_seqZ. lia.
Qed.

Lemma load_kernel_correct_witness :
  ∃ s', load_kernel 4 1 (BootState sample_ata ∅ 3 (replicate 40 0)) = Ok (1048592, s')
    ∧ read8 (bt_mem s') 1048594 = 235.
Proof.
  destruct (load_kernel_correct 4 1 (BootState sample_ata ∅ 3 (replicate 40 0)) sample_hdr
    [Proghdr 1 4112 1048592 5 5 0]) as (s' & E & Hl).
  - split; [cbn; lia|cbn; lia|]. intros k. cbn [bt_hw]. unfold sector_at, sample_ata. cbn [a_disk].
    destruct (decide ((0, 1) = k)) as [<-|]; [by vm_compute|].
    rewrite lookup_insert_ne by done. destruct (decide ((0, 9) = k)) as [<-|]; [by vm_compute|].
    by rewrite lookup_singleton_ne.
  - lia.
  - lia.
  - exact sample_header_of.
  - by vm_compute.
  - by vm_compute.
  - by vm_compute.
  - intros [|k] h; [|done]. intros [= <-]. by vm_compute.
  - constructor; [|done]. split; [by split; vm_compute|]. right. by vm_compute.
  - by split.
  - exists s'. split; [exact E|]. apply Forall_inv in Hl.
    rewrite (Hl 2 ltac:(cbn; lia) : read8 (bt_mem s') 1048594 = _). by vm_compute.
Defined.
